(* ===== verification/_CoqProject ===== *)
-Q . S2P
Prelude.v
Karma.v
Vote.v
VoteQueue.v
VoteTally.v
VoteProps.v
CommentTree.v
CommentOrder.v
OrderProps.v
PermalinkProps.v
OrderExamples.v
HardCache.v
Cache.v
CacheProps.v
QueryCache.v
QueryProps.v
QueryExamples.v
RateLimit.v
Feature.v
FeatureProps.v
Builder.v
TryLater.v
Tdb.v
TdbProps.v
TdbExamples.v
TdbQuery.v
Saves.v
SavesProps.v
PyString.v
Effects.v
Members.v
MembersProps.v
Tokens.v
TokensProps.v
TokensExamples.v
Thing.v
ThingProps.v
ThingCounters.v
ThingSystem.v
ThingSystemProps.v
ThingLookup.v
ThingExamples.v
ThingQuery.v
ThingQueryProps.v
Lock.v
LockProps.v
Signing.v
SigningProps.v
Sessions.v
SessionsProps.v
AuthExamples.v
Url.v
UrlProps.v
UrlExamples.v
Moderation.v
ModerationProps.v
ModerationExamples.v
Regex.v
AutoMod.v
AutoModProps.v
AutoModRun.v
AutoModRunProps.v
AutoModExamples.v
Inventory.v
Allocation.v
Reductions.v
InventoryPasses.v
InventoryProps.v
InventoryExamples.v
Promote.v
PromoteProps.v
PromoteListings.v
PromoteMoney.v
PromoteDaily.v
PromoteExamples.v
Wiki.v
WikiProps.v
WikiEdits.v
WikiListing.v
WikiExamples.v
