(* ===== verification/Prelude.v ===== *)
(** * Verification of the core of Saidit's backend

    The program is a Python 2 web application (src/r2/r2): controllers answer
    requests with things (accounts, links, comments) from relational and
    column stores, through layers of caches, and leave slow work to queues.
    This library models the parts that hold its own logic, as pure functions
    with explicit stores, and proves what they promise.

    ** Parts and files

    - Votes.  [Karma.v] is the karma of an account (models/account.py).
      [Vote.v] is the vote object, its effects and its commit (models/vote.py):
      the stores are finite maps, a commit is a function on them.  [VoteQueue.v]
      is [cast_vote] and the consumers of the vote queues (lib/voting.py); a
      message carries what the code serialises.  [VoteTally.v] states the
      abstract tally, the sets of those who like and who find funny, and
      proves that votes cast and processed in turn implement it;
      [VoteProps.v] shows what redelivered, ineffective and overlapping
      messages do.
    - Comments.  [CommentTree.v] is the stored tree of a link and the pieces
      derived from it (models/comment_tree.py and the two passes of
      lib/utils/comment_tree_utils.pyx).  [CommentOrder.v] is the choice of
      the comments of a page (the orderers of models/builder.py) with the
      cached orders and the object the request's cache shares.  [OrderProps.v]
      proves the order correct and its cache transparent, [PermalinkProps.v]
      treats permalinks and question-and-answer links, [OrderExamples.v] holds
      instances and two effects of the sharing.
    - Caches.  [HardCache.v] is the database-backed cache
      (lib/hardcachebackend.py, lib/db/tdb_lite.py and [HardCache] of
      lib/cache.py).  [Cache.v] is the rest of lib/cache.py over the interface
      [CacheOps]; [CacheProps.v] states the laws [CacheLaws] a chain relies
      on, proves the chains and the permacache against them, and the concrete
      caches satisfy them.
    - Cached queries.  [QueryCache.v] is models/query_cache.py over the
      interface [ColumnFamily] of timestamped columns, with the blocks of a
      mutator, which may raise and prune; [QueryProps.v] proves that a cached
      query is a materialized view and that pruning is safe;
      [QueryExamples.v] has an implementation of the interface, instances and
      two effects of the code as written.
    - Rate limits.  [RateLimit.v] is lib/ratelimit.py over the interface
      [Memcached] of a client with item expiry, of which any item may be
      evicted at any time.
    - Features.  [Feature.v] is config/feature (flags, percentages,
      experiments, the world of a request); [FeatureProps.v] proves the shares
      of the variants and the effects of the world on experiments.
    - Pages.  [Builder.v] is the builders of listings and the links between
      their pages (models/builder.py, models/listing.py) with the scores of
      wrapped items.
    - Delayed work.  [TryLater.v] is models/trylater.py over the column
      families of [QueryCache.v]: an event system whose trace theorem says
      that an item found due is handed over exactly once.
    - Things.  [Thing.v] is the objects of lib/db/thing.py with their rows in
      lib/db/tdb_sql.py: attributes with what has changed, commits that take
      over what others have stored, creations, increments and lookups through
      the caches; [ThingProps.v] and [ThingCounters.v] have their lemmas.
      [ThingSystem.v] lets many processes interleave them as a step relation
      (a lookup reads the database and fills the cache in two steps, creations
      and commits write their rows and the cache in two steps, of which the
      second may fail, and memcached may evict any copy at any time; the
      history says which things that disturbed);
      [ThingSystemProps.v] proves what holds in every reachable state of the
      things that were not disturbed, [ThingLookup.v] what a lookup gives,
      [ThingExamples.v] has codecs, instances and six effects of the code as
      written.  [ThingQuery.v] is
      the queries of the same file with their filters, pages and merging
      cursors (also lib/db/operators.py), [ThingQueryProps.v] their theorems.
    - Column-family things.  [Tdb.v] is the objects of
      lib/db/tdb_cassandra.py: typed columns over the interface [Codecs],
      attributes with what is dirty and deleted, commits, and lookups through
      the cache of the request; [TdbProps.v] proves them against maps under
      the laws [CodecLaws], [TdbExamples.v] has codecs with the laws and
      instances.  [TdbQuery.v] is the column queries and their merge.
    - Saves and hides.  [Saves.v] is the denormalized relations of the same
      file with the saves and hides of models/link.py on top; [SavesProps.v]
      relates all their indexes to what each user has saved.
    - Members.  [Members.v] is permission sets, relations to users with their
      memoized lists, and access to and moderation of a subreddit
      with the handlers that remove moderators and set their permissions
      (lib/permissions.py, lib/db/userrel.py, models/subreddit.py,
      controllers/api.py); [MembersProps.v] has their theorems.
    - Tokens.  [Tokens.v] is models/token.py: scopes, authorization codes as
      things of [Tdb.v], access and refresh tokens, developers of clients;
      [TokensProps.v] has their theorems and [TokensExamples.v] instances.
      [PyString.v] is the string methods of Python these parts use.
    - Locks.  [Lock.v] is the locks in memcached of lib/lock.py: acquiring and
      releasing in the steps that other processes may come between, with
      expiry and failing commands; [LockProps.v] shows when a block is alone.
    - Requests and sessions.  [Signing.v] is the signatures of requests
      (lib/signing.py, [VSigned] of lib/validator/validator.py),
      [Sessions.v] the cookies, feeds, passwords and one-time passwords
      (models/account.py, lib/providers/auth/cookie.py, lib/totp.py) and the
      padded encryption of lib/tracking.py, over parameters for the
      cryptography; [SigningProps.v] and [SessionsProps.v] have the theorems,
      [AuthExamples.v] their instances.
    - Links.  [Url.v] is [UrlParser] of lib/utils/utils.py with the functions
      of Python's urlparse, the check of redirects ([VDestination]), and a
      reference definition of where a browser goes with a text; [UrlProps.v]
      relates the two and shows that links are read as they were written,
      [UrlExamples.v] has a site and the texts that slip through.
    - Moderation.  [Moderation.v] is reports, removals and approvals with the
      listings of moderators (models/admintools.py, models/report.py, the
      updates of lib/db/queries.py), stickied links (models/subreddit.py) and
      the handlers that use them (controllers/api.py): a state of things,
      reports and sets of names, which handlers change; [ModerationProps.v]
      proves what holds in every state they reach, [ModerationExamples.v] has
      a history and four effects of the code as written.
    - AutoModerator.  [Regex.v] is the backtracking matcher of the patterns the
      code builds, with the relation it decides.  [AutoMod.v] is how the rules
      of a sub come from their text, [AutoModRun.v] how they are checked and
      act on the state of [Moderation.v], in the monad of [Effects.v]
      (lib/automoderator.py).  [AutoModProps.v] proves what rules are and what
      patterns find, [AutoModRunProps.v] what thresholds mean and that a
      removal ends the rules, [AutoModExamples.v] has a sub with its rules.
    - Advertising inventory.  [Inventory.v] is lib/inventory_optimization.py:
      the passes that simplify a system of campaigns and targets, and the
      greedy estimate of what is left to sell, with dictionaries that come in
      any order ([HashOrder]).  [Allocation.v] says what serving campaigns is
      and completes partial allocations, [Reductions.v] what a pass may do to
      a system, [InventoryPasses.v] that each pass is a reduction, that the
      rounds end and that merged campaigns keep names of their own;
      [InventoryProps.v] shows that the estimate is safe and
      [InventoryExamples.v] has the tests of the file.
    - Promotions.  [Promote.v] is lib/promote.py with what it changes: links,
      campaigns (models/promo.py), bids and the schedule (models/bidding.py),
      transactions (lib/authorize), the listings of promoted links
      (lib/db/queries.py), and the handlers that authors and sponsors use
      (controllers/promotecontroller.py); a history is a list of requests,
      daily jobs and outside events, and the payment service a function of the
      requests it was sent.  [PromoteProps.v] shows that what is live was
      reviewed, [PromoteListings.v] that listings are their queries,
      [PromoteMoney.v] that what is captured was held, [PromoteDaily.v] what
      the daily job leaves live and that it gets that far; [PromoteExamples.v]
      has a campaign from submission to its end and thirteen effects of the
      code as written.
    - Wiki.  [Wiki.v] is models/wiki.py and lib/merge.py with the validators of
      lib/validator/wiki.py and the handlers of controllers/wiki.py, the
      stylesheet (models/subreddit.py) and the forms of the stylesheet and of
      the settings of a sub (controllers/api.py), which write pages too; a
      history is a list of requests, each with the standing of its user on the
      sub, and what diff3 and the readers of texts say is a parameter
      ([Surroundings]).  [WikiProps.v] shows that names that are accepted
      are settled and that pages show their current revision, [WikiEdits.v]
      what edits build on and who can change the pages with a meaning of their
      own, [WikiListing.v] that listings are
      complete; [WikiExamples.v] has some pages and seven effects of the code
      as written.
    - [Effects.v] is the monad of handlers that change a world and may raise,
      which AutoModerator, promotions and the wiki share, with its triples.

    [Prelude.v], this file, holds what they share.  A thing's id is an
    integer, a thing's or item's name a string, a store a finite map; Python's
    exceptions are the sum type [res], raised values stop a computation as the
    code does, and where state survives a raise the definition returns the
    state beside the result.

    ** Groups of theorems

    - Refinement: [votes_tally], [permacache_refines_map],
      [query_is_materialized_view], [database_follows_history],
      [thing_refines_map], [saves_follow_relation], [modqueue_exact] and
      [listings_are_queries] relate the code's stores to an abstract tally, a
      map, a sorted view of a map, the history of the changes of a thing that was
      not disturbed, the map an object shows beside the map that is stored, the map of what users
      have saved, the posts a moderator must see
      (ignored reports apart), and queries over promoted
      links.
    - Types, round trips and liveness: columns and rules are typed, columns
      and links are read back as written, what is signed is verified,
      scheduled items are delivered once.
    - Equivalence: adding comments in batches is rebuilding the tree; reading
      a cached order is computing it; chains answer as the store behind them;
      a pattern is found where its documentation says.
    - Concurrency: whichever way processes interleave, shared copies of things
      agree with the database and no increment is lost, unless memcached loses
      a copy or a write while a process has the thing, or a thing is changed
      before another process has written its copy; and the holders of a lock
      in time are alone in their blocks.
    - Security: requests found valid were signed by one client, sessions come
      from the cookies made for an account, one-time passwords work once
      unless memcached evicts the mark of their use, and redirects stay on the
      site.
    - Invariants and safety: redelivered votes change nothing, trees stay
      well formed, pruning keeps what is recent or shown, raised percentages
      keep their buckets, requests in turn stay within a limit, and within
      one more limit for each eviction of their counter, memoized lists are
      fresh, a moderator whom no other of full permissions precedes stays, a
      code is used once, and revoking a
      refresh token takes what was made from it; reports are counted right,
      nothing is done to a post after a rule removed it, what is estimated
      to be left of the inventory is left, what is live of promotions was accepted by
      a sponsor, with no rejection since and no edit by its author of what was
      reviewed while it was live, and no money is captured that was not held; pages of the wiki
      show their current revision, edits lose nothing that was saved since they
      started, and the rules and texts of a sub change by those trusted with
      them.
    - Functional and error behaviour of the operations, and the effects of the
      code that its comments do not announce (files with [Examples], and the
      theorems the findings name).

    ** Fuel

    The selection loop of the orderers, the walk to the root of a comment, the
    traversal of a rule tree and the passes over a tree take a number of
    iterations; [selection_terminates], the lemmas of [CommentTree.v] and
    [precomputed_loop_correct] show that the numbers used are enough.  The
    rounds of the inventory are bounded by the sizes of what is booked
    ([enough_rounds], [estimate_total]).

    ** Not modelled

    Templates, most controllers and forms, the relational and column stores
    themselves, search, media, the lottery that shows promotions with its
    tracking, what the forms of promotions check of prices and images,
    customer profiles at the payment service, the pages that show the histories
    of wikis, the Cython sorts, statistics and
    logging.  Third-party services are
    parameters or interfaces: memcached, column families, SHA-1, JSON, the payment service, diff3.  Floats
    are exact rationals or abstract ordered values; clocks are arguments.

    ** This file

    The exceptions of the Python code as a sum type with its monad and
    notations (scope [py_scope]), the integer sums over lists, Python's stable
    [sorted]/[list.sort] on a boolean comparison, the order of texts, and the tactics and hint
    databases of the development. *)

From stdpp Require Export base tactics decidable option list gmap sets strings pretty sorting.
From Stdlib Require Export ZArith Lia.
From Stdlib Require DecimalString DecimalZ.

#[global] Open Scope Z_scope.

(** ** Python exceptions *)

(** The exception classes the modelled code raises or catches. *)
Inductive exn :=
  | TypeError | ValueError | KeyError | AttributeError | NameError | UnboundLocalError
  | AssertionError | IndexError | NotFound | TdbException | InvariantException | MemcachedError | TimeoutExpired | DBAPIError | RatelimitError | InconsistentCommentTreeError
  | AutoModeratorSyntaxError | AutoModeratorRuleTypeError | RedditError | IntegrityError | ZeroDivisionError
  | ContentLengthError | ConflictException | WikiPageExists | WikiBadRevision | SoupError | Forbidden.

#[export] Instance exn_eq_dec : EqDecision exn.
Proof. solve_decision. Defined.

(** A computation returns a value or raises. *)
Inductive res (A : Type) :=
  | Ok (a : A)
  | Raise (e : exn).
Arguments Ok {A} _.
Arguments Raise {A} _.

#[export] Instance res_eq_dec `{EqDecision A} : EqDecision (res A).
Proof. solve_decision. Defined.

Definition res_bind {A B} (m : res A) (k : A -> res B) : res B :=
  match m with Ok a => k a | Raise e => Raise e end.

Definition of_option {A} (e : exn) (o : option A) : res A :=
  match o with Some a => Ok a | None => Raise e end.

Definition py_assert (b : bool) : res unit :=
  if b then Ok tt else Raise AssertionError.

Declare Scope py_scope.
Delimit Scope py_scope with py.
Notation "'let*' x := m 'in' k" := (res_bind m (fun x => k))
  (at level 10, x name, m at level 100, k at level 200) : py_scope.
Notation "'let*' ' p := m 'in' k" := (res_bind m (fun p => k))
  (at level 10, p strict pattern, m at level 100, k at level 200) : py_scope.
#[global] Open Scope py_scope.

(** A left fold of a raising step: a [for] loop whose body may raise. *)
Fixpoint res_foldl {A B} (f : B -> A -> res B) (b : B) (l : list A) : res B :=
  match l with
  | [] => Ok b
  | x :: l => let* b' := f b x in res_foldl f b' l
  end.

Lemma res_bind_Ok {A B} (m : res A) (k : A -> res B) b :
  res_bind m k = Ok b <-> exists a, m = Ok a /\ k a = Ok b.
Proof. destruct m; simpl; naive_solver. Qed.

Lemma of_option_Ok {A} e (o : option A) a : of_option e o = Ok a <-> o = Some a.
Proof. destruct o; simpl; naive_solver. Qed.

Lemma py_assert_Ok b u : py_assert b = Ok u <-> b = true.
Proof. destruct b, u; simpl; naive_solver. Qed.

Lemma res_foldl_app {A B} (f : B -> A -> res B) b l1 l2 :
  res_foldl f b (l1 ++ l2) = let* b' := res_foldl f b l1 in res_foldl f b' l2.
Proof.
  revert b. induction l1 as [|x l1 IH]; intros b; simpl; [done|].
  by destruct (f b x); simpl.
Qed.

Fixpoint res_mapM {A B} (f : A -> res B) (l : list A) : res (list B) :=
  match l with
  | [] => Ok []
  | x :: l => let* y := f x in let* ys := res_mapM f l in Ok (y :: ys)
  end.

Lemma res_mapM_fmap {A B} (f : A -> res B) (g : A -> B) l :
  (forall x, x ∈ l -> f x = Ok (g x)) -> res_mapM f l = Ok (g <$> l).
Proof.
  induction l as [|x l IH]; intros Hf; [done|]. simpl.
  rewrite (Hf x), IH; [done| |left]. intros y Hy. apply Hf. by right.
Qed.

(** Inverts hypotheses of the form [(let* x := m in k) = Ok b]. *)
Ltac res_inv :=
  repeat match goal with
  | H : res_bind _ _ = Ok _ |- _ =>
      apply res_bind_Ok in H; destruct H as (? & ? & H)
  | H : of_option _ _ = Ok _ |- _ => apply of_option_Ok in H
  | H : py_assert _ = Ok _ |- _ => apply py_assert_Ok in H
  | H : Ok _ = Ok _ |- _ => injection H as H
  | H : Raise _ = Ok _ |- _ => discriminate H
  | H : Ok _ = Raise _ |- _ => discriminate H
  end; try subst.

(** ** Orders

    The entries of a dictionary or a set and the rows of a query without a sort
    come in an order that nothing is known of. *)
Class HashOrder := dict_order : forall {A}, list A -> list A.
Class HashOrderLaws `{HashOrder} : Prop := dict_order_perm : forall {A} (l : list A), dict_order l ≡ₚ l.

(** ** Sums of integers *)

Definition zsum (l : list Z) : Z := foldr Z.add 0 l.

Definition zsum_map {A} (f : A -> Z) (l : list A) : Z := zsum (f <$> l).

Lemma zsum_app l1 l2 : zsum (l1 ++ l2) = zsum l1 + zsum l2.
Proof. induction l1; simpl; lia. Qed.

Lemma zsum_map_nil {A} (f : A -> Z) : zsum_map f [] = 0.
Proof. done. Qed.

Lemma zsum_map_cons {A} (f : A -> Z) x l : zsum_map f (x :: l) = f x + zsum_map f l.
Proof. done. Qed.

Lemma zsum_map_app {A} (f : A -> Z) l1 l2 :
  zsum_map f (l1 ++ l2) = zsum_map f l1 + zsum_map f l2.
Proof. unfold zsum_map. by rewrite fmap_app, zsum_app. Qed.

#[export] Instance zsum_perm : Proper ((≡ₚ) ==> (=)) zsum.
Proof. induction 1; simpl; lia. Qed.

#[export] Instance zsum_map_perm {A} (f : A -> Z) : Proper ((≡ₚ) ==> (=)) (zsum_map f).
Proof. intros l1 l2 H. unfold zsum_map. by rewrite H. Qed.

Lemma zsum_map_ext {A} (f g : A -> Z) l :
  (forall x, x ∈ l -> f x = g x) -> zsum_map f l = zsum_map g l.
Proof.
  induction l as [|x l IH]; intros H; [done|].
  rewrite !zsum_map_cons, IH, (H x); [done|left|]. intros y Hy. apply H. by right.
Qed.

(** ** Python's stable sort

    [list.sort]/[sorted] is stable; on a total preorder a stable sort has one
    result, which insertion from the right computes. *)

Section isort.
Context {A : Type} (leb : A -> A -> bool).

Fixpoint insert_by (x : A) (l : list A) : list A :=
  match l with
  | [] => [x]
  | y :: l' => if leb x y then x :: l else y :: insert_by x l'
  end.

Definition isort (l : list A) : list A := foldr insert_by [] l.

Lemma insert_by_perm x l : insert_by x l ≡ₚ x :: l.
Proof.
  induction l as [|y l IH]; simpl; [done|].
  destruct (leb x y); [done|]. rewrite IH. apply Permutation_swap.
Qed.

Lemma isort_perm l : isort l ≡ₚ l.
Proof.
  induction l as [|x l IH]; simpl; [done|]. by rewrite insert_by_perm, IH.
Qed.

Lemma elem_of_isort x l : x ∈ isort l <-> x ∈ l.
Proof. by rewrite isort_perm. Qed.

Lemma NoDup_isort l : NoDup (isort l) <-> NoDup l.
Proof. by rewrite isort_perm. Qed.

Lemma length_isort l : length (isort l) = length l.
Proof. by rewrite isort_perm. Qed.

Definition leP : relation A := fun x y => Is_true (leb x y).

Hypothesis leb_total : forall x y, leb x y = false -> leb y x = true.
Hypothesis leb_trans : forall x y z, leb x y = true -> leb y z = true -> leb x z = true.

Lemma insert_by_sorted x l :
  StronglySorted leP l -> StronglySorted leP (insert_by x l).
Proof.
  induction 1 as [|y l Hl IH Hy]; simpl; [by repeat constructor|].
  destruct (leb x y) eqn:E.
  - constructor; [by constructor|]. constructor; [by apply Is_true_true|].
    eapply Forall_impl; [exact Hy|]. unfold leP. intros z Hz.
    apply Is_true_true in Hz. apply Is_true_true. eauto.
  - constructor; [done|]. rewrite insert_by_perm.
    constructor; [by apply Is_true_true, leb_total|done].
Qed.

Lemma isort_sorted l : StronglySorted leP (isort l).
Proof. induction l; simpl; [constructor|by apply insert_by_sorted]. Qed.

End isort.

(** The same for a comparison that is transitive on the elements sorted. *)
Lemma isort_sorted_on {A} (leb : A -> A -> bool) (P : A -> Prop) l :
  (forall x y, leb x y = false -> leb y x = true) ->
  (forall x y z, P x -> P y -> P z -> leb x y = true -> leb y z = true -> leb x z = true) ->
  (forall x, x ∈ l -> P x) -> StronglySorted (fun x y => leb x y = true) (isort leb l).
Proof.
  intros Ht Htr. induction l as [|x l IH]; intros HP; simpl; [constructor|].
  assert (Hx : P x) by (apply HP; left).
  assert (HPl : Forall P (isort leb l)).
  { apply Forall_forall. intros y Hy%elem_of_isort. apply HP. by right. }
  specialize (IH ltac:(intros y Hy; apply HP; by right)). clear HP.
  induction IH as [|y l' Hl IH Hy]; simpl; [by repeat constructor|].
  apply Forall_cons in HPl as [HPy HPl]. destruct (leb x y) eqn:E.
  - constructor; [by constructor|]. constructor; [done|].
    rewrite Forall_forall in Hy, HPl |- *. eauto.
  - constructor; [by apply IH|]. rewrite insert_by_perm. constructor; [by apply Ht|done].
Qed.

(** Texts in order. *)
Lemma string_compare_trans a b c :
  String.compare a b <> Gt -> String.compare b c <> Gt -> String.compare a c <> Gt.
Proof.
  revert b c. induction a as [|x a IH]; intros [|y b] [|z c]; simpl; try done.
  unfold Ascii.compare. intros H1 H2.
  destruct (N.compare_spec (Ascii.N_of_ascii x) (Ascii.N_of_ascii y)) as [E1|E1|E1], (N.compare_spec (Ascii.N_of_ascii y) (Ascii.N_of_ascii z)) as [E2|E2|E2],
    (N.compare_spec (Ascii.N_of_ascii x) (Ascii.N_of_ascii z)) as [E3|E3|E3]; try done; try (exfalso; lia).
  by apply (IH b).
Qed.

Lemma leb_string_trans a b c : String.leb a b = true -> String.leb b c = true -> String.leb a c = true.
Proof.
  unfold String.leb. intros H1 H2. pose proof (string_compare_trans a b c) as H.
  destruct (String.compare a b), (String.compare b c), (String.compare a c); naive_solver.
Qed.

Lemma leb_string_total a b : String.leb a b = false -> String.leb b a = true.
Proof. intros H. destruct (String.leb_total a b); congruence. Qed.

#[export] Instance leb_string_antisym : AntiSymm (=) (leP String.leb).
Proof. intros a b Ha%Is_true_true Hb%Is_true_true. by apply String.leb_antisym. Qed.

(** Sorted integers, as [sorted(ids)]. *)
Definition zsort : list Z -> list Z := isort Z.leb.

Lemma zsort_sorted l : StronglySorted Z.le (zsort l).
Proof.
  assert (H : StronglySorted (leP Z.leb) (zsort l)).
  { apply isort_sorted; intros; lia. }
  induction H as [|x l' H IH Hx]; constructor; [done|].
  eapply Forall_impl; [exact Hx|]. unfold leP. intros y Hy.
  apply Is_true_true in Hy. lia.
Qed.

(** ** Lists and sets *)

Lemma elem_of_filter_bool {A} (f : A -> bool) (l : list A) x :
  x ∈ List.filter f l <-> f x = true /\ x ∈ l.
Proof. rewrite !list_elem_of_In, filter_In. tauto. Qed.

Lemma NoDup_filter_bool {A} (f : A -> bool) (l : list A) : NoDup l -> NoDup (List.filter f l).
Proof. rewrite !NoDup_ListNoDup. apply List.NoDup_filter. Qed.

Lemma NoDup_snoc {A} (l : list A) x : NoDup l -> x ∉ l -> NoDup (l ++ [x]).
Proof.
  intros Hl Hx. apply NoDup_app. split; [done|]. split; [|apply NoDup_singleton].
  intros y Hy ->%list_elem_of_singleton. done.
Qed.

Lemma set_fold_zsum_elements `{Countable K} (f : K -> Z) (X Y : gset K) :
  X ## Y ->
  zsum_map f (elements (X ∪ Y)) = zsum_map f (elements X) + zsum_map f (elements Y).
Proof.
  intros Hd. rewrite <- zsum_map_app. apply zsum_map_perm.
  by apply elements_disj_union.
Qed.

(** [s.endswith(suffix)] and [s.startswith(prefix)]. *)
Definition py_endswith (suffix s : string) : bool :=
  let n := String.length s in let m := String.length suffix in
  (m <=? n)%nat && String.eqb (String.substring (n - m) m s) suffix.

Definition py_startswith (p s : string) : bool := String.prefix p s.

(** ** Integers as text *)

(** What Python 2 decodes as UTF-8; of UTF-16's halves it takes each as a
    character. *)
Definition continuation (c : Ascii.ascii) : bool := (128 <=? Ascii.N_of_ascii c)%N && (Ascii.N_of_ascii c <? 192)%N.

Fixpoint valid_utf8 (s : string) : bool :=
  match s with
  | EmptyString => true
  | String a s =>
      let n := Ascii.N_of_ascii a in
      if (n <? 128)%N then valid_utf8 s
      else if (n <? 194)%N then false
      else if (n <? 224)%N then match s with String b s => continuation b && valid_utf8 s | _ => false end
      else if (n <? 240)%N then
        match s with
        | String b (String c s) => continuation b && continuation c && valid_utf8 s &&
            (negb (n =? 224)%N || (160 <=? Ascii.N_of_ascii b)%N)
        | _ => false
        end
      else if (n <? 245)%N then
        match s with
        | String b (String c (String d s)) => continuation b && continuation c && continuation d && valid_utf8 s &&
            (negb (n =? 240)%N || (144 <=? Ascii.N_of_ascii b)%N) && (negb (n =? 244)%N || (Ascii.N_of_ascii b <? 144)%N)
        | _ => false
        end
      else false
  end.

(** [str(n)], and [int(s)] of plain numerals. *)
Definition py_str_int (n : Z) : string := DecimalString.NilZero.string_of_int (Z.to_int n).
Definition py_int_str (s : string) : option Z := Z.of_int <$> DecimalString.NilZero.int_of_string s.

Lemma py_int_str_int n : py_int_str (py_str_int n) = Some n.
Proof.
  unfold py_int_str, py_str_int.
  assert (H : forall d, Z.of_int d = 0 -> Z.to_int n = d -> n = 0) by (intros d Hd <-; by rewrite DecimalZ.of_to in Hd).
  rewrite DecimalString.NilZero.isi; [simpl; by rewrite DecimalZ.of_to|..]; intros E;
    (assert (n = 0) as -> by (by refine (H _ _ E))); done.
Qed.

(** Lemmas the component files share through [auto with py] and
    [autorewrite with py]. *)
Create HintDb py.
Create Rewrite HintDb py.
#[export] Hint Resolve isort_perm insert_by_perm zsort_sorted NoDup_snoc : py.
#[export] Hint Rewrite @zsum_map_nil @zsum_map_cons @zsum_map_app : py.
