(* ===== verification/Karma.v ===== *)
(** * Account karma

    [Account.karma] and [Account.incr_karma] of r2/models/account.py.  An
    account keeps one integer attribute per subreddit and karma kind, named
    [<subreddit>_<kind>_karma]; totals are sums over the attributes whose
    name ends in [_<kind>_karma]. *)

From S2P Require Import Prelude.

Module Karma.

(** The part of an account the karma and vote code reads and writes.
    [attrs] is the part of [Account._t] that holds karma attributes. *)
Record account := Account {
  account_id : Z;
  account_spam : bool;
  disable_karma : bool;
  attrs : gmap string Z
}.

#[export] Instance account_eq_dec : EqDecision account.
Proof. solve_decision. Defined.

Definition karma_suffix (kind : string) : string := "_" +:+ kind +:+ "_karma".

Definition karma_prop (sr_name kind : string) : string := sr_name +:+ karma_suffix kind.

Definition set_attr (a : account) (prop : string) (v : Z) : account :=
  Account (account_id a) (account_spam a) (disable_karma a) (<[prop := v]> (attrs a)).

(** The loop [for k, v in self._t.iteritems(): if k.endswith(suffix)]. *)
Definition sum_with_suffix (suffix : string) (t : gmap string Z) : Z :=
  zsum_map (fun kv => if py_endswith suffix kv.1 then kv.2 else 0) (map_to_list t).

(** [self.karma(kind)], the branch without a subreddit; the call
    [self.karma("self")] inside it is the same branch with another kind. *)
Definition karma_total (a : account) (kind : string) : Z :=
  let total := sum_with_suffix (karma_suffix kind) (attrs a) in
  if String.eqb kind "link"
  then total + sum_with_suffix (karma_suffix "self") (attrs a)
  else total.

(** [self.karma(kind, sr)]; [MIN_UP_KARMA] is the configuration value. *)
Definition karma (MIN_UP_KARMA : Z) (a : account) (kind : string) (sr_name : option string) : Z :=
  match sr_name with
  | None => karma_total a kind
  | Some sr =>
      let default_karma := if karma_total a kind >? 0 then MIN_UP_KARMA else 0 in
      if String.eqb kind "link" then
        let link_karma := attrs a !! karma_prop sr kind in
        let self_karma := attrs a !! (sr +:+ "_self_karma") in
        match link_karma, self_karma with
        | None, None => default_karma
        | _, _ => default 0 link_karma + default 0 self_karma
        end
      else default default_karma (attrs a !! karma_prop sr kind)
  end.

(** [self.incr_karma(kind, sr, amt)], with [_incr]/[_commit] acting on the
    attribute. *)
Definition incr_karma (MIN_UP_KARMA : Z) (a : account) (kind sr_name : string) (amt : Z) : account :=
  if disable_karma a then a
  else if py_startswith "_" sr_name then a
  else
    let prop := karma_prop sr_name kind in
    match attrs a !! prop with
    | Some old => set_attr a prop (old + amt)
    | None =>
        let default_val := karma MIN_UP_KARMA a kind (Some sr_name) in
        set_attr a prop (default_val + amt)
    end.

(** Accounts that earn karma in the subreddit: neither guard of [incr_karma]
    applies. *)
Definition earns_karma (a : account) (sr_name : string) : bool :=
  negb (disable_karma a) && negb (py_startswith "_" sr_name).

Lemma incr_karma_frame m a kind sr amt :
  account_id (incr_karma m a kind sr amt) = account_id a /\
  account_spam (incr_karma m a kind sr amt) = account_spam a /\
  disable_karma (incr_karma m a kind sr amt) = disable_karma a.
Proof.
  unfold incr_karma. destruct (disable_karma a) eqn:?; [done|].
  destruct (py_startswith _ _); [done|]. by destruct (attrs a !! _).
Qed.

Lemma incr_karma_attr m a kind sr amt v :
  earns_karma a sr = true ->
  attrs a !! karma_prop sr kind = Some v ->
  attrs (incr_karma m a kind sr amt) = <[karma_prop sr kind := v + amt]> (attrs a).
Proof.
  unfold earns_karma, incr_karma. intros [H1%negb_true_iff H2%negb_true_iff]%andb_true_iff Hv.
  by rewrite H1, H2, Hv.
Qed.

Lemma incr_karma_fresh m a kind sr amt :
  earns_karma a sr = true ->
  attrs a !! karma_prop sr kind = None ->
  attrs (incr_karma m a kind sr amt) =
    <[karma_prop sr kind := karma m a kind (Some sr) + amt]> (attrs a).
Proof.
  unfold earns_karma, incr_karma. intros [H1%negb_true_iff H2%negb_true_iff]%andb_true_iff Hv.
  by rewrite H1, H2, Hv.
Qed.

(** Except for link karma, incrementing moves the displayed karma of the
    subreddit by exactly [amt], whether or not the attribute existed. *)
Lemma incr_karma_karma m a kind sr amt :
  kind <> "link" ->
  earns_karma a sr = true ->
  karma m (incr_karma m a kind sr amt) kind (Some sr) = karma m a kind (Some sr) + amt.
Proof.
  intros Hk He. apply String.eqb_neq in Hk.
  destruct (attrs a !! karma_prop sr kind) as [v|] eqn:Hv.
  - unfold karma at 1. rewrite Hk, (incr_karma_attr _ _ _ _ _ v), lookup_insert_eq by done.
    unfold karma. by rewrite Hk, Hv.
  - unfold karma at 1. by rewrite Hk, incr_karma_fresh, lookup_insert_eq.
Qed.

(** For link karma the same holds in a subreddit without a [self] attribute;
    with one, the attribute's value is added a second time when the [link]
    attribute is created. *)
Lemma incr_karma_link m a sr amt :
  earns_karma a sr = true ->
  karma m (incr_karma m a "link" sr amt) "link" (Some sr) =
    karma m a "link" (Some sr) + amt +
      match attrs a !! karma_prop sr "link" with
      | Some _ => 0
      | None => default 0 (attrs a !! (sr +:+ "_self_karma"))
      end.
Proof.
  intros He. assert (Hne : karma_prop sr "link" <> sr +:+ "_self_karma").
  { unfold karma_prop, karma_suffix. intros H. by simplify_eq/=. }
  destruct (attrs a !! karma_prop sr "link") as [v|] eqn:Hv.
  - unfold karma at 1. simpl String.eqb. cbv iota.
    rewrite (incr_karma_attr _ _ _ _ _ v), lookup_insert_eq, lookup_insert_ne by done.
    unfold karma. simpl String.eqb. cbv iota. rewrite Hv.
    destruct (attrs a !! (sr +:+ "_self_karma")); simpl; lia.
  - unfold karma at 1. simpl String.eqb. cbv iota.
    rewrite incr_karma_fresh, lookup_insert_eq, lookup_insert_ne by done.
    unfold karma. simpl String.eqb. cbv iota. rewrite Hv.
    destruct (attrs a !! (sr +:+ "_self_karma")); simpl; lia.
Qed.

(** ** Witnesses *)

Definition demo_account : account :=
  Account 1 false false (<["pics_self_karma" := 5]> {[ "pics_comment_karma" := 40 ]}).

Lemma incr_karma_karma_witness :
  earns_karma demo_account "aww" = true /\
  karma 3 (incr_karma 3 demo_account "comment" "aww" 2) "comment" (Some "aww") = 3 + 2.
Proof.
  split; [reflexivity|].
  rewrite (incr_karma_karma 3 demo_account "comment" "aww" 2); [reflexivity|discriminate|reflexivity].
Defined.

Lemma incr_karma_link_witness :
  karma 3 (incr_karma 3 demo_account "link" "pics" 2) "link" (Some "pics") = 5 + 2 + 5.
Proof. rewrite (incr_karma_link 3 demo_account "pics" 2); reflexivity. Defined.
End Karma.
