(* ===== verification/Vote.v ===== *)
(** * Votes

    r2/models/vote.py: the vote directions and their stored encoding, the
    construction of a [Vote] from a request or from the stored details, the
    effects a vote has on the thing voted on and on its author's karma, and
    committing a vote. *)

From S2P Require Import Prelude Karma.

Module Vote.

(** ** Directions *)

(** [up], [down], [unup], [undown] are what a user asks for; [onon], [onoff],
    [offon], [offoff] are the state a vote is stored with: whether it is
    liked, then whether it is fun. *)
Inductive direction :=
  | up | down | unup | undown | onon | onoff | offon | offoff | unvote.

#[export] Instance direction_eq_dec : EqDecision direction.
Proof. solve_decision. Defined.

(** The members of the [Enum], in order. *)
Definition DIRECTIONS : list direction :=
  [up; down; unup; undown; onon; onoff; offon; offoff; unvote].

(** [Enum] numbers its members in order; [Vote.DIRECTIONS.up] is 0. *)
Definition direction_value (d : direction) : Z :=
  match d with
  | up => 0 | down => 1 | unup => 2 | undown => 3 | onon => 4
  | onoff => 5 | offon => 6 | offoff => 7 | unvote => 8
  end.

(** [direction in self.DIRECTIONS] for an integer, with the member found. *)
Definition direction_of_value (v : Z) : option direction :=
  List.find (fun d => direction_value d =? v) DIRECTIONS.

Definition SERIALIZED_DIRECTIONS (d : direction) : Z :=
  match d with
  | up => 1 | down => -1 | unvote => 0 | unup => 11 | undown => -11
  | onon => 3 | onoff => 4 | offon => 5 | offoff => 6
  end.

(** The inverse dictionary comprehension. *)
Definition DESERIALIZED_DIRECTIONS (v : Z) : option direction :=
  List.find (fun d => SERIALIZED_DIRECTIONS d =? v) DIRECTIONS.

Definition serialize_direction (d : Z) : res Z :=
  match direction_of_value d with
  | None => Raise ValueError
  | Some d => Ok (SERIALIZED_DIRECTIONS d)
  end.

Definition deserialize_direction (stored : Z) : res direction :=
  of_option ValueError (DESERIALIZED_DIRECTIONS stored).

(** ** Things and votes *)

Inductive thing_class := Link | Comment | OtherThing.

#[export] Instance thing_class_eq_dec : EqDecision thing_class.
Proof. solve_decision. Defined.

#[export] Instance thing_class_countable : Countable thing_class.
Proof.
  refine (inj_countable'
    (fun c => match c with Link => 0%nat | Comment => 1%nat | OtherThing => 2%nat end)
    (fun n => match n with 0%nat => Link | 1%nat => Comment | _ => OtherThing end) _).
  by intros [].
Defined.

(** A fullname names a thing: its class and id. *)
Definition fullname : Type := (thing_class * Z)%type.

(** What the vote code reads of a Link or Comment.  [affects_karma_type] is
    ["link"] or ["self"] for links, ["comment"] for comments, [""] when the
    thing gives no karma; [sr_name] is [subreddit_slow.name]; for a comment,
    [link_id] is its link and [sticky_comment_id] is [link_slow]'s. *)
Record thing := Thing {
  thing_name : fullname;
  author_id : Z;
  sr_id : Z;
  sr_name : string;
  ups : Z;
  downs : Z;
  spam : bool;
  deleted : bool;
  affects_karma_type : string;
  is_distinguished : bool;
  link_id : Z;
  sticky_comment_id : option Z
}.

Definition thing_cls (t : thing) : thing_class := (thing_name t).1.
Definition thing_id (t : thing) : Z := (thing_name t).2.

(** [is_votable] is a class attribute: true for Link and Comment. *)
Definition is_votable (t : thing) : bool :=
  match thing_cls t with OtherThing => false | _ => true end.

Definition num_votes (t : thing) : Z := ups t + downs t.

(** The arguments a [Vote] is made of, before its previous vote and effects
    are known.  [vote_direction] is what the user asked for; it is [None] on
    votes read back from storage. *)
Record base_vote := BaseVote {
  user : Karma.account;
  on_thing : thing;
  dir : direction;
  vote_direction : option Z;
  date : Z;
  ip : option string;
  data : gmap string string
}.

(** [VoteEffects]; [note_codes] are the codes in the order they were added. *)
Record effects := Effects {
  affects_score : bool;
  affects_karma : bool;
  other_effects : gmap string string;
  karma_change : Z;
  note_codes : list string
}.

(** A [Vote] object; a previous vote is one built without its own previous
    vote. *)
Record vote := MkVote {
  vbase : base_vote;
  previous_vote : option (base_vote * effects);
  veffects : effects
}.

(** [__eq__], on the base parts; [Thing]s are compared by identity, which the
    fullname decides here. *)
Definition vote_eq (a b : base_vote) : bool :=
  (Karma.account_id (user a) =? Karma.account_id (user b)) &&
  bool_decide (thing_name (on_thing a) = thing_name (on_thing b)) &&
  bool_decide (dir a = dir b).

Definition is_upvote (v : base_vote) : bool :=
  bool_decide (vote_direction v = Some (direction_value up)) || bool_decide (dir v = up).

Definition is_downvote (v : base_vote) : bool :=
  bool_decide (vote_direction v = Some (direction_value down)) || bool_decide (dir v = down).

Definition is_unupvote (v : base_vote) : bool :=
  bool_decide (vote_direction v = Some (direction_value unup)).

Definition is_undownvote (v : base_vote) : bool :=
  bool_decide (vote_direction v = Some (direction_value undown)).

Definition is_ononvote (v : base_vote) : bool := bool_decide (dir v = onon).
Definition is_onoffvote (v : base_vote) : bool := bool_decide (dir v = onoff).
Definition is_offonvote (v : base_vote) : bool := bool_decide (dir v = offon).
Definition is_offoffvote (v : base_vote) : bool := bool_decide (dir v = offoff).

Definition is_self_vote (v : base_vote) : bool :=
  Karma.account_id (user v) =? author_id (on_thing v).

Definition is_automatic_initial_vote {P} (v : base_vote) (prev : option P) : bool :=
  is_self_vote v && match prev with None => true | Some _ => false end.

(** [affected_thing_attr]: which counter of the thing the vote increments. *)
Inductive counter := Ups | Downs.

Definition affected_thing_attr (v : vote) : option counter :=
  if negb (affects_score (veffects v)) then None
  else if is_upvote (vbase v) then Some Ups
  else if is_downvote (vbase v) then Some Downs
  else None.

(** ** Effects *)

(** The object plugins return from the [vote.get_validator] hook. *)
Record validator := Validator {
  va_affects_score : option bool;
  va_affects_karma : option bool;
  va_other_effects : gmap string string
}.

(** The configuration and plugin hooks the code consults. *)
Record settings := Settings {
  voting_allow_selfvote : string;
  MIN_UP_KARMA : Z;
  get_validator : base_vote -> option validator
}.

(** The stored effects dictionary. *)
Record stored_effects := StoredEffects {
  se_affects_score : bool;
  se_affects_karma : bool;
  se_other : gmap string string
}.

Section effects.
Context (st : settings).

Definition determine_affects_score (v : base_vote) (prev : option (base_vote * effects))
    (va : option validator) : bool * list string :=
  if is_automatic_initial_vote v prev then (false, ["AUTOMATIC_INITIAL_VOTE"]) else
  if match prev with
     | Some p => negb (affects_score p.2) && String.eqb (voting_allow_selfvote st) "false"
     | None => false
     end
  then (false, ["PREVIOUS_VOTE_NO_EFFECT"]) else
  if Karma.account_spam (user v) then (false, []) else
  match va with
  | Some va =>
      match va_affects_score va with Some b => (b, []) | None => (true, []) end
  | None => (true, [])
  end.

Definition determine_affects_karma (v : base_vote) (prev : option (base_vote * effects))
    (va : option validator) (score : bool) : bool * list string :=
  if negb score then (false, []) else
  if match prev with Some p => negb (affects_karma p.2) | None => false end
  then (false, ["PREVIOUS_VOTE_NO_KARMA"]) else
  if String.eqb (affects_karma_type (on_thing v)) "" then (false, ["KARMALESS_THING"]) else
  if bool_decide (thing_cls (on_thing v) = Comment) && is_distinguished (on_thing v) &&
     bool_decide (sticky_comment_id (on_thing v) = Some (thing_id (on_thing v)))
  then (false, ["COMMENT_STICKIED"]) else
  if Karma.account_spam (user v) then (false, []) else
  match va with
  | Some va =>
      match va_affects_karma va with Some b => (b, []) | None => (true, []) end
  | None => (true, [])
  end.

Definition determine_other_effects (va : option validator) : gmap string string :=
  match va with Some va => va_other_effects va | None => ∅ end.

Definition karma_change_of (v : base_vote) (karma : bool) : Z :=
  if negb karma then 0
  else if is_upvote v then 2
  else if is_downvote v then 1
  else if is_unupvote v then -2
  else if is_undownvote v then -1
  else 0.

(** [VoteEffects.__init__]. *)
Definition vote_effects (v : base_vote) (prev : option (base_vote * effects))
    (stored : option stored_effects) : effects :=
  match stored with
  | Some s =>
      Effects (se_affects_score s) (se_affects_karma s) (se_other s)
        (karma_change_of v (se_affects_karma s)) []
  | None =>
      let va := get_validator st v in
      let '(score, notes1) := determine_affects_score v prev va in
      let '(karma, notes2) := determine_affects_karma v prev va score in
      Effects score karma (determine_other_effects va)
        (karma_change_of v karma) (notes1 ++ notes2)
  end.
End effects.

(** [serializable_data] without its notes, which [create] pops. *)
Definition serializable_data (e : effects) : stored_effects :=
  StoredEffects (affects_score e) (affects_karma e) (other_effects e).

(** [", ".join(self.notes)]; [None] when there are none. *)
Definition joined_notes (e : effects) : option string :=
  match note_codes e with
  | [] => None
  | n :: ns => Some (foldl (fun acc s => acc +:+ ", " +:+ s) n ns)
  end.

(** ** Stored vote details *)

(** A JSON column of VoteDetailsByThing.  The last two fields are those of
    the old format, where they stood in place of [effects]. *)
Record stored_vote := StoredVote {
  sv_direction : Z;
  sv_date : Z;
  sv_data : gmap string string;
  sv_effects : option stored_effects;
  sv_valid_thing : option bool;
  sv_valid_user : option bool
}.

Definition convert_old_details (old : stored_vote) : stored_vote :=
  match sv_valid_thing old with
  | None => old
  | Some valid_thing =>
      StoredVote (sv_direction old) (sv_date old) (sv_data old)
        (Some (StoredEffects valid_thing (default true (sv_valid_user old)) ∅)) None None
  end.

(** What a queue message asks a worker to do besides voting itself. *)
Inductive event :=
  | SearchIndex (t : fullname)
  | AuthorQ (shard : option Z) (t : fullname)
  | SubredditQ (shard : option Z) (t : fullname)
  | DomainQ (shard : option Z) (t : fullname)
  | VoteQ (t : fullname)
  | AuthorQueries (author : Z) (t : fullname)
  | CommentsTreeQ (t : fullname)
  | WriteCommentScores (link : Z) (t : fullname).

(** The stores the vote code reads and writes: things and accounts by id, the
    details by thing and voter, the voter addresses and notes beside them, the
    relation by voter, the voters' liked and disliked listings, and the events
    sent on. *)
Record world := World {
  things : gmap fullname thing;
  accounts : gmap Z Karma.account;
  details : gmap fullname (gmap Z stored_vote);
  voter_ips : gmap fullname (gmap Z string);
  notes : list (Z * fullname * string);
  votes_by_account : gmap Z (gmap fullname Z);
  liked : gset (Z * fullname);
  disliked : gset (Z * fullname);
  out : list event
}.

Definition with_things (f : gmap fullname thing -> gmap fullname thing) (w : world) : world :=
  World (f (things w)) (accounts w) (details w) (voter_ips w) (notes w)
    (votes_by_account w) (liked w) (disliked w) (out w).

Definition with_accounts (f : gmap Z Karma.account -> gmap Z Karma.account) (w : world) : world :=
  World (things w) (f (accounts w)) (details w) (voter_ips w) (notes w)
    (votes_by_account w) (liked w) (disliked w) (out w).

Definition with_likes (l d : gset (Z * fullname)) (w : world) : world :=
  World (things w) (accounts w) (details w) (voter_ips w) (notes w)
    (votes_by_account w) l d (out w).

Definition emit (e : event) (w : world) : world :=
  World (things w) (accounts w) (details w) (voter_ips w) (notes w)
    (votes_by_account w) (liked w) (disliked w) (out w ++ [e]).

(** [self.thing._incr(prop, amt)]. *)
Definition incr_thing (c : counter) (amt : Z) (t : thing) : thing :=
  let '(u, d) := match c with
                 | Ups => (ups t + amt, downs t)
                 | Downs => (ups t, downs t + amt)
                 end in
  Thing (thing_name t) (author_id t) (sr_id t) (sr_name t) u d (spam t) (deleted t)
    (affects_karma_type t) (is_distinguished t) (link_id t) (sticky_comment_id t).

Definition incr (n : fullname) (c : counter) (amt : Z) : world -> world :=
  with_things (alter (incr_thing c amt) n).

(** ** Reading votes back *)

Section votes.
Context (st : settings).

(** [Vote.__init__] with [get_previous_vote=False]. *)
Definition vote_init_alone (u : Karma.account) (t : thing) (d : direction) (dt : Z)
    (addr : option string) (dat : gmap string string) (stored : option stored_effects)
  : res (base_vote * effects) :=
  if negb (is_votable t) then Raise TypeError else
  let v := BaseVote u t d None dt addr dat in
  Ok (v, vote_effects st v None stored).

(** One iteration of the loop of [get_details]. *)
Definition details_of_column (w : world) (t : thing) (voter : Z) (s : stored_vote)
  : res (base_vote * effects) :=
  let s := convert_old_details s in
  let* u := of_option NotFound (accounts w !! voter) in
  let* d := deserialize_direction (sv_direction s) in
  let* eff := of_option KeyError (sv_effects s) in
  vote_init_alone u t d (sv_date s)
    (voter_ips w !! thing_name t ≫= (fun row => row !! voter)) (sv_data s) (Some eff).

(** [get_details(thing, voters)]: the stored votes on a thing, oldest
    first; [None] and the empty list ask for every voter. *)
Definition get_details (w : world) (t : thing) (voters : option (list Z))
  : res (list (base_vote * effects)) :=
  match thing_cls t with
  | OtherThing => Raise ValueError
  | _ =>
      match details w !! thing_name t with
      | None => Ok []
      | Some row =>
          let cols :=
            match voters with
            | None | Some [] => map_to_list row
            | Some vs => omap (fun v => pair v <$> row !! v) (remove_dups vs)
            end in
          let* ds := res_mapM (fun vs => details_of_column w t vs.1 vs.2) cols in
          Ok (isort (fun a b => date a.1 <=? date b.1) ds)
      end
  end.

Definition get_vote (w : world) (u : Karma.account) (t : thing)
  : res (option (base_vote * effects)) :=
  let* ds := get_details w t (Some [Karma.account_id u]) in
  Ok (head ds).

(** [Vote.__init__]; the direction comes as the integer of the message. *)
Definition vote_init (w : world) (u : Karma.account) (t : thing) (d dt : Z)
    (addr : option string) (dat : gmap string string) (vd : option Z) : res vote :=
  if negb (is_votable t) then Raise TypeError else
  let* d := of_option ValueError (direction_of_value d) in
  let* prev := get_vote w u t in
  let dt := match prev with Some p => date p.1 | None => dt end in
  let v := BaseVote u t d vd dt addr dat in
  Ok (MkVote v prev (vote_effects st v prev None)).

(** ** Applying and storing a vote *)

Definition apply_effects (v : vote) (w : world) : res world :=
  let n := thing_name (on_thing (vbase v)) in
  let score := affects_score (veffects v) in
  let has_prev := match previous_vote v with Some _ => true | None => false end in
  let w :=
    if has_prev && is_unupvote (vbase v) && score then incr n Ups (-1) w
    else if has_prev && is_undownvote (vbase v) && score then incr n Downs (-1) w
    else w in
  let w := match affected_thing_attr v with Some c => incr n c 1 w | None => w end in
  let change := karma_change (veffects v) in
  if affects_karma (veffects v) && negb (change =? 0) then
    let t := on_thing (vbase v) in
    let* author := of_option NotFound (accounts w !! author_id t) in
    Ok (with_accounts (insert (author_id t)
          (Karma.incr_karma (MIN_UP_KARMA st) author (affects_karma_type t) (sr_name t) change)) w)
  else Ok w.

(** [VoteDetailsByThing.create], with the two views written beside it. *)
Definition create_details (v : vote) (w : world) : world :=
  let b := vbase v in
  let n := thing_name (on_thing b) in
  let uid := Karma.account_id (user b) in
  let col := StoredVote (SERIALIZED_DIRECTIONS (dir b)) (date b) (data b)
               (Some (serializable_data (veffects v))) None None in
  let ips := match ip b with
             | Some a => if String.eqb a "" then voter_ips w
                         else <[n := <[uid := a]> (default ∅ (voter_ips w !! n))]> (voter_ips w)
             | None => voter_ips w
             end in
  let ns := match joined_notes (veffects v) with
            | Some s => notes w ++ [(uid, n, s)]
            | None => notes w
            end in
  World (things w) (accounts w)
    (<[n := <[uid := col]> (default ∅ (details w !! n))]> (details w))
    ips ns (votes_by_account w) (liked w) (disliked w) (out w).

(** [VotesByAccount.write_vote]: the relation, then its view. *)
Definition write_vote (v : vote) (w : world) : res world :=
  let b := vbase v in
  let uid := Karma.account_id (user b) in
  match thing_cls (on_thing b) with
  | OtherThing => Raise TypeError
  | _ =>
      let* value := serialize_direction (direction_value (dir b)) in
      let w := World (things w) (accounts w) (details w) (voter_ips w) (notes w)
        (<[uid := <[thing_name (on_thing b) := value]>
             (default ∅ (votes_by_account w !! uid))]> (votes_by_account w))
        (liked w) (disliked w) (out w) in
      Ok (create_details v w)
  end.

(** [Vote.commit]. *)
Definition commit (v : vote) (w : world) : res world :=
  if match previous_vote v with Some p => vote_eq (vbase v) p.1 | None => false end
  then Ok w else
  let* w := apply_effects v w in
  let* w := write_vote v w in
  let n := thing_name (on_thing (vbase v)) in
  let nv := match things w !! n with Some t => num_votes t | None => num_votes (on_thing (vbase v)) end in
  Ok (if (nv <? 20) || (nv mod 10 =? 0) then emit (SearchIndex n) w else w).
End votes.

(** ** Encoding *)

Lemma direction_of_value_of d : direction_of_value (direction_value d) = Some d.
Proof. by destruct d. Qed.

Lemma direction_of_value_Some v d : direction_of_value v = Some d -> v = direction_value d.
Proof. unfold direction_of_value. intros [_ H]%find_some. lia. Qed.

Lemma serialize_value d : serialize_direction (direction_value d) = Ok (SERIALIZED_DIRECTIONS d).
Proof. by destruct d. Qed.

Lemma deserialize_serialized d : deserialize_direction (SERIALIZED_DIRECTIONS d) = Ok d.
Proof. by destruct d. Qed.

(** ** Stored directions *)

(** [deserialize_direction] undoes [serialize_direction]; both raise
    [ValueError] exactly on the integers outside their tables. *)
Theorem direction_roundtrip (v s : Z) (d : direction) :
  (serialize_direction v = Ok s <->
     exists d', v = direction_value d' /\ deserialize_direction s = Ok d') /\
  (serialize_direction v = Raise ValueError <-> v < 0 \/ 8 < v) /\
  (deserialize_direction s = Ok d <-> s = SERIALIZED_DIRECTIONS d).
Proof.
  assert (Hinv : deserialize_direction s = Ok d <-> s = SERIALIZED_DIRECTIONS d).
  { unfold deserialize_direction. rewrite of_option_Ok. unfold DESERIALIZED_DIRECTIONS. split.
    - intros [_ H]%find_some. lia.
    - intros ->. by destruct d. }
  split_and!; [..|done].
  - unfold serialize_direction. split.
    + destruct (direction_of_value v) as [d'|] eqn:E; [|done]. intros [= <-]. exists d'.
      split; [by apply direction_of_value_Some|apply deserialize_serialized].
    + intros (d' & -> & H). rewrite direction_of_value_of. f_equal.
      unfold deserialize_direction in H. rewrite of_option_Ok in H.
      unfold DESERIALIZED_DIRECTIONS in H. apply find_some in H as [_ H]. lia.
  - unfold serialize_direction. split.
    + destruct (direction_of_value v) as [d'|] eqn:E; [done|]. intros _.
      destruct (decide (v < 0 \/ 8 < v)) as [|Hn]; [done|]. exfalso.
      assert (v = 0 \/ v = 1 \/ v = 2 \/ v = 3 \/ v = 4 \/ v = 5 \/ v = 6 \/ v = 7 \/ v = 8) by lia.
      destruct_or!; subst; discriminate.
    + intros H. destruct (direction_of_value v) as [d'|] eqn:E; [|done].
      apply direction_of_value_Some in E as ->. destruct d'; simpl in H; lia.
Qed.

End Vote.
