(* ===== verification/VoteTally.v ===== *)
(** * What votes add up to

    The tally theorem for r2/models/vote.py and r2/lib/voting.py: requests that
    are processed one after the other leave the thing, its author's karma and
    the voters' listings as the set of voters who like it and the set who find
    it fun ask for. *)

From S2P Require Import Prelude Karma Vote VoteQueue.

Module VoteTally.
Import Vote VoteQueue.

(** ** The tally a thing should show

    The abstract state of the votes on one thing: who likes it and who finds it
    fun.  A request adds or removes the voter; asking twice changes nothing. *)

Record tally := Tally { likes : gset Z; funs : gset Z }.

Definition empty_tally : tally := Tally ∅ ∅.

Definition tally_step (a : tally) (u : Z) (d : direction) : tally :=
  match d with
  | up => Tally ({[u]} ∪ likes a) (funs a)
  | down => Tally (likes a) ({[u]} ∪ funs a)
  | unup => Tally (likes a ∖ {[u]}) (funs a)
  | undown => Tally (likes a) (funs a ∖ {[u]})
  | _ => a
  end.

Definition tally_of (ops : list (Z * direction * Z)) : tally :=
  foldl (fun a o => tally_step a o.1.1 o.1.2) empty_tally ops.

(** The stored direction of a voter. *)
Definition state_dir (l f : bool) : direction :=
  match l, f with
  | true, true => onon | true, false => onoff
  | false, true => offon | false, false => offoff
  end.

Definition voter_state (a : tally) (u : Z) : direction :=
  state_dir (bool_decide (u ∈ likes a)) (bool_decide (u ∈ funs a)).

(** A request as a change of the two bits; [None] where it changes nothing. *)
Definition toggle (d : direction) (l f : bool) : option (bool * bool) :=
  match d with
  | up => if l then None else Some (true, f)
  | down => if f then None else Some (l, true)
  | unup => if l then Some (false, f) else None
  | undown => if f then Some (l, false) else None
  | _ => None
  end.

Lemma next_direction_state p d l f :
  dir p = state_dir l f -> vote_direction p = None ->
  next_direction (Some p) d = (fun lf => state_dir lf.1 lf.2) <$> toggle d l f.
Proof.
  intros Hd Hv. unfold next_direction, is_offonvote, is_offoffvote, is_onoffvote,
    is_ononvote, is_upvote, is_downvote.
  rewrite Hd, Hv. by destruct d, l, f.
Qed.

Lemma toggle_castable d l f lf : toggle d l f = Some lf -> castable d = true.
Proof. by destruct d. Qed.

(** The counters a request moves. *)
Definition dlike (d : direction) : Z := match d with up => 1 | unup => -1 | _ => 0 end.
Definition dfun (d : direction) : Z := match d with down => 1 | undown => -1 | _ => 0 end.

Lemma size_add (X : gset Z) u : u ∉ X -> Z.of_nat (size ({[u]} ∪ X)) = Z.of_nat (size X) + 1.
Proof. intros H. rewrite size_union by set_solver. rewrite size_singleton. lia. Qed.

Lemma size_remove (X : gset Z) u : u ∈ X -> Z.of_nat (size (X ∖ {[u]})) = Z.of_nat (size X) - 1.
Proof.
  intros H. rewrite size_difference by set_solver. rewrite size_singleton.
  assert (size X <> 0)%nat by (intros Hs; apply size_empty_inv in Hs; set_solver). lia.
Qed.

Lemma tally_step_sizes a u d lf :
  toggle d (bool_decide (u ∈ likes a)) (bool_decide (u ∈ funs a)) = Some lf ->
  Z.of_nat (size (likes (tally_step a u d))) = Z.of_nat (size (likes a)) + dlike d /\
  Z.of_nat (size (funs (tally_step a u d))) = Z.of_nat (size (funs a)) + dfun d /\
  voter_state (tally_step a u d) u = state_dir lf.1 lf.2.
Proof.
  unfold voter_state.
  destruct d; simpl; repeat case_bool_decide; intros; simplify_eq/=;
    rewrite ?size_add, ?size_remove by done;
    (split; [lia|]; split; [lia|]); repeat case_bool_decide; set_solver.
Qed.

Lemma tally_step_noop a u d :
  toggle d (bool_decide (u ∈ likes a)) (bool_decide (u ∈ funs a)) = None ->
  tally_step a u d = a.
Proof.
  destruct a as [L F].
  destruct d; simpl; repeat case_bool_decide; intros; simplify_eq/=; try done;
    f_equal; apply leibniz_equiv; set_solver.
Qed.

Lemma voter_state_other a u d u' :
  u' <> u -> voter_state (tally_step a u d) u' = voter_state a u'.
Proof.
  intros Hne. unfold voter_state.
  destruct d; simpl; f_equal; apply bool_decide_ext; set_solver.
Qed.

(** ** Requests processed one after the other *)

Section tally.
Context (st : settings) (qs : queue_settings).
Context (w0 : world) (n : fullname) (t0 : thing) (author : Karma.account) (k0 : Z).

(** Someone who can vote on the thing and whose vote counts. *)
Definition honest_voter (u : Z) : Prop :=
  u <> author_id t0 /\
  exists acc, accounts w0 !! u = Some acc /\ Karma.account_id acc = u /\
    Karma.account_spam acc = false.

Definition karma_name : string := Karma.karma_prop (sr_name t0) (affects_karma_type t0).

(** No plugin decides about votes; the thing is a link or a comment that
    gives karma and has no votes yet; its author earns karma there. *)
Record fresh_thing : Prop := FreshThing {
  ft_validator : forall b, get_validator st b = None;
  ft_thing : things w0 !! n = Some t0;
  ft_name : thing_name t0 = n;
  ft_class : n.1 <> OtherThing;
  ft_type : affects_karma_type t0 <> "";
  ft_sticky : is_distinguished t0 && bool_decide (sticky_comment_id t0 = Some (thing_id t0)) = false;
  ft_link : n.1 = Comment -> is_Some (things w0 !! (Link, link_id t0));
  ft_author : accounts w0 !! author_id t0 = Some author;
  ft_earns : Karma.earns_karma author (sr_name t0) = true;
  ft_karma : Karma.attrs author !! karma_name = Some k0;
  ft_details : details w0 !! n = None;
  ft_listings : forall u, ((u, n) ∉ liked w0) /\ ((u, n) ∉ disliked w0)
}.

Definition nlikes (a : tally) : Z := Z.of_nat (size (likes a)).
Definition nfuns (a : tally) : Z := Z.of_nat (size (funs a)).

(** The thing with the counters the tally asks for. *)
Definition counted (a : tally) : thing := incr_thing Downs (nfuns a) (incr_thing Ups (nlikes a) t0).

Definition stored_as (d : direction) (sv : stored_vote) : Prop :=
  sv_direction sv = SERIALIZED_DIRECTIONS d /\
  sv_effects sv = Some (StoredEffects true true ∅) /\ sv_valid_thing sv = None.

Record store_core (a : tally) (w : world) : Prop := StoreCore {
  sc_things : things w = <[n := counted a]> (things w0);
  sc_author : exists au, accounts w = <[author_id t0 := au]> (accounts w0) /\
    Karma.earns_karma au (sr_name t0) = true /\
    Karma.attrs au !! karma_name = Some (k0 + (2 * nlikes a + nfuns a));
  sc_details : forall u,
    match mbind (fun row => row !! u) (details w !! n) with
    | None => (u ∉ likes a) /\ (u ∉ funs a)
    | Some sv => stored_as (voter_state a u) sv
    end
}.

(** The voters' listings, which only link votes maintain. *)
Definition listing_inv (a : tally) (w : world) : Prop :=
  n.1 = Link -> forall u,
    ((u, n) ∈ liked w <-> u ∈ likes a) /\ ((u, n) ∈ disliked w <-> u ∈ funs a).

Definition store_inv (a : tally) (w : world) : Prop := store_core a w /\ listing_inv a w.

(** The stores show the tally and no request is waiting. *)
Definition tally_inv (a : tally) (s : sys) : Prop :=
  store_inv a s.1 /\ vote_link_q s.2 = [] /\ vote_comment_q s.2 = [].

Hypothesis Hf : fresh_thing.

Lemma counted_name a : thing_name (counted a) = n.
Proof. apply (ft_name Hf). Qed.

Lemma tally_inv_init f : vote_link_q f = [] -> vote_comment_q f = [] ->
  tally_inv empty_tally (w0, f).
Proof.
  intros H1 H2. destruct Hf. split; [|done]. split; [split|]; simpl.
  - rewrite insert_id; [done|]. rewrite ft_thing0. f_equal.
    unfold counted, incr_thing. change (nlikes empty_tally) with 0.
    change (nfuns empty_tally) with 0. simpl. rewrite !Z.add_0_r. by destruct t0.
  - exists author. split; [by rewrite insert_id|]. split; [done|].
    rewrite ft_karma0. f_equal. change (nlikes empty_tally) with 0.
    change (nfuns empty_tally) with 0. lia.
  - intros u. rewrite ft_details0. simpl. set_solver.
  - intros _ u. specialize (ft_listings0 u). set_solver.
Qed.

(** What [get_vote] finds for a voter. *)
Definition prev_spec (a : tally) (u : Z) (prev : option (base_vote * effects)) : Prop :=
  match prev with
  | None => (u ∉ likes a) /\ (u ∉ funs a)
  | Some p =>
      dir p.1 = voter_state a u /\ vote_direction p.1 = None /\
      affects_score p.2 = true /\ affects_karma p.2 = true
  end.

Lemma get_details_one w acc t row :
  thing_cls t <> OtherThing -> details w !! thing_name t = row ->
  get_details st w t (Some [Karma.account_id acc]) =
    match mbind (fun row => row !! Karma.account_id acc) row with
    | None => Ok []
    | Some s => let* p := details_of_column st w t (Karma.account_id acc) s in Ok [p]
    end.
Proof.
  intros Hc Hr. unfold get_details. rewrite Hr. destruct (thing_cls t); [..|done].
  all: destruct row as [row|]; [|done]; simpl;
    destruct (row !! Karma.account_id acc); simpl; [|done];
    by destruct (details_of_column _ _ _ _ _).
Qed.

Lemma get_vote_prev a w u acc :
  store_core a w -> accounts w !! u = Some acc -> Karma.account_id acc = u ->
  exists prev, get_vote st w acc (counted a) = Ok prev /\ prev_spec a u prev.
Proof.
  intros [_ _ Hd] Hacc Hid. unfold get_vote. specialize (Hd u).
  rewrite (get_details_one _ _ _ (details w !! n));
    [|unfold thing_cls; rewrite counted_name; apply (ft_class Hf)|by rewrite counted_name].
  rewrite Hid. destruct (mbind _ (details w !! n)) as [sv|]; [|by exists None].
  destruct Hd as (Hdir & Heff & Hvt). unfold details_of_column, convert_old_details.
  rewrite Hvt, Hacc, Hdir, Heff. simpl. rewrite deserialize_serialized. simpl.
  unfold vote_init_alone, is_votable, thing_cls. rewrite counted_name.
  pose proof (ft_class Hf). destruct n.1; [..|done]; simpl; by eexists (Some _).
Qed.

Lemma prev_spec_next a u prev d :
  prev_spec a u prev ->
  next_direction (fst <$> prev) d =
    (fun lf => state_dir lf.1 lf.2) <$>
      toggle d (bool_decide (u ∈ likes a)) (bool_decide (u ∈ funs a)).
Proof.
  destruct prev as [p|].
  - intros (Hd & Hv & _). change (fst <$> Some p) with (Some p.1). rewrite (next_direction_state _ d (bool_decide (u ∈ likes a))
      (bool_decide (u ∈ funs a))) by done. done.
  - intros [H1 H2]. simpl in H1, H2. rewrite !bool_decide_eq_false_2 by done. by destruct d.
Qed.

(** The change a request makes to the thing, and the vote it makes. *)
Definition move (d : direction) (t : thing) : thing :=
  match d with
  | up => incr_thing Ups 1 t | unup => incr_thing Ups (-1) t
  | down => incr_thing Downs 1 t | undown => incr_thing Downs (-1) t
  | _ => t
  end.

Lemma counted_step a u d lf :
  toggle d (bool_decide (u ∈ likes a)) (bool_decide (u ∈ funs a)) = Some lf ->
  move d (counted a) = counted (tally_step a u d).
Proof.
  intros Ht. pose proof (tally_step_sizes _ _ _ _ Ht) as (H1 & H2 & _).
  unfold counted, nlikes, nfuns. rewrite H1, H2.
  destruct d; simpl in Ht; try discriminate; unfold move, incr_thing; simpl; f_equal; lia.
Qed.

Definition accepted_vote (a : tally) (acc : Karma.account) (lf : bool * bool) (d : direction)
    (dt : Z) (prev : option (base_vote * effects)) : vote :=
  MkVote (BaseVote acc (counted a) (state_dir lf.1 lf.2) (Some (direction_value d)) dt None ∅)
    prev (Effects true true ∅ (2 * dlike d + dfun d) []).

Lemma honest_account a w u :
  store_core a w -> honest_voter u ->
  exists acc, accounts w !! u = Some acc /\ Karma.account_id acc = u /\
    Karma.account_spam acc = false /\ (u =? author_id t0) = false.
Proof.
  intros [_ (au & Ha & _) _] (Hne & acc & Hacc & Hid & Hsp). exists acc.
  rewrite Ha, lookup_insert_ne by done. repeat split; try done. lia.
Qed.

(** A vote built from a request is read as that request. *)
Lemma vote_kind b d l f :
  castable d = true -> dir b = state_dir l f -> vote_direction b = Some (direction_value d) ->
  is_upvote b = match d with up => true | _ => false end /\
  is_downvote b = match d with down => true | _ => false end /\
  is_unupvote b = match d with unup => true | _ => false end /\
  is_undownvote b = match d with undown => true | _ => false end.
Proof.
  intros Hc Hd Hv. unfold is_upvote, is_downvote, is_unupvote, is_undownvote.
  rewrite Hd, Hv. by destruct d, l, f.
Qed.

Lemma karma_change_accepted b d l f :
  castable d = true -> dir b = state_dir l f -> vote_direction b = Some (direction_value d) ->
  karma_change_of b true = 2 * dlike d + dfun d.
Proof.
  intros Hc Hd Hv. destruct (vote_kind b d l f Hc Hd Hv) as (H1 & H2 & H3 & H4).
  unfold karma_change_of. rewrite H1, H2, H3, H4. by destruct d.
Qed.

(** What the worker builds from the message of an accepted request. *)
Lemma vote_init_accepted a w u acc prev d lf dt :
  store_core a w -> accounts w !! u = Some acc -> Karma.account_id acc = u ->
  Karma.account_spam acc = false -> (u =? author_id t0) = false ->
  get_vote st w acc (counted a) = Ok prev -> prev_spec a u prev ->
  castable d = true ->
  exists dt', vote_init st w acc (counted a) (direction_value (state_dir lf.1 lf.2)) dt None ∅
                (Some (direction_value d)) = Ok (accepted_vote a acc lf d dt' prev).
Proof.
  intros Hi Hacc Hid Hsp Hself Hg Hp Hc. unfold vote_init.
  assert (is_votable (counted a) = true) as ->.
  { unfold is_votable, thing_cls. rewrite counted_name. pose proof (ft_class Hf). by destruct n.1. }
  simpl negb. cbv iota. rewrite direction_of_value_of. simpl. rewrite Hg. simpl.
  eexists. f_equal. unfold accepted_vote. f_equal. unfold vote_effects.
  rewrite (ft_validator Hf).
  assert (Hs : determine_affects_score st
    (BaseVote acc (counted a) (state_dir lf.1 lf.2) (Some (direction_value d))
      match prev with Some p => date p.1 | None => dt end None ∅) prev None = (true, [])).
  { unfold determine_affects_score, is_automatic_initial_vote, is_self_vote. simpl.
    rewrite Hid, Hself, Hsp. simpl. destruct prev as [p|]; simpl in *; [|done].
    destruct Hp as (_ & _ & -> & _). done. }
  rewrite Hs.
  assert (Hk : determine_affects_karma
    (BaseVote acc (counted a) (state_dir lf.1 lf.2) (Some (direction_value d))
      match prev with Some p => date p.1 | None => dt end None ∅) prev None true = (true, [])).
  { unfold determine_affects_karma. simpl. rewrite Hsp.
    assert (match prev with Some p => negb (affects_karma p.2) | None => false end = false) as ->.
    { destruct prev as [p|]; [|done]. destruct Hp as (_ & _ & _ & ->). done. }
    pose proof (ft_type Hf) as Hty. apply String.eqb_neq in Hty. rewrite Hty.
    rewrite <- andb_assoc. unfold thing_id. simpl. pose proof (ft_sticky Hf) as Hst.
    unfold thing_id in Hst. rewrite Hst, andb_false_r. done. }
  rewrite Hk. f_equal. by apply (karma_change_accepted _ _ lf.1 lf.2).
Qed.

#[local] Arguments incr_thing : simpl never.
#[local] Arguments counted : simpl never.
#[local] Arguments Karma.incr_karma : simpl never.

Lemma incr_karma_author a au d lf u amt :
  toggle d (bool_decide (u ∈ likes a)) (bool_decide (u ∈ funs a)) = Some lf ->
  amt = 2 * dlike d + dfun d ->
  Karma.earns_karma au (sr_name t0) = true ->
  Karma.attrs au !! karma_name = Some (k0 + (2 * nlikes a + nfuns a)) ->
  let au' := Karma.incr_karma (MIN_UP_KARMA st) au (affects_karma_type t0) (sr_name t0) amt in
  Karma.earns_karma au' (sr_name t0) = true /\
  Karma.attrs au' !! karma_name =
    Some (k0 + (2 * nlikes (tally_step a u d) + nfuns (tally_step a u d))).
Proof.
  intros Ht -> He Hk au'. pose proof (tally_step_sizes _ _ _ _ Ht) as (H1 & H2 & _).
  split.
  - unfold Karma.earns_karma in *. unfold au'.
    by destruct (Karma.incr_karma_frame (MIN_UP_KARMA st) au (affects_karma_type t0)
      (sr_name t0) (2 * dlike d + dfun d)) as (_ & _ & ->).
  - unfold au'. rewrite (Karma.incr_karma_attr _ _ _ _ _ _ He Hk).
    unfold karma_name. rewrite lookup_insert_eq. f_equal. unfold nlikes, nfuns.
    rewrite H1, H2. lia.
Qed.

Lemma apply_effects_accepted a w u acc prev d lf dt :
  store_core a w ->
  toggle d (bool_decide (u ∈ likes a)) (bool_decide (u ∈ funs a)) = Some lf ->
  prev_spec a u prev ->
  exists au, Karma.earns_karma au (sr_name t0) = true /\
    Karma.attrs au !! karma_name =
      Some (k0 + (2 * nlikes (tally_step a u d) + nfuns (tally_step a u d))) /\
    apply_effects st (accepted_vote a acc lf d dt prev) w =
      Ok (with_accounts (fun _ => <[author_id t0 := au]> (accounts w0))
            (with_things (fun _ => <[n := counted (tally_step a u d)]> (things w0)) w)).
Proof.
  intros [Hth (au & Hau & He & Hk) _] Ht Hp.
  pose proof (incr_karma_author a au d lf u _ Ht eq_refl He Hk) as [He' Hk'].
  eexists; split; [exact He'|]; split; [exact Hk'|].
  pose proof (counted_step a u d lf Ht) as Hc.
  assert (Hprev : match d with unup | undown => is_Some prev | _ => True end).
  { destruct prev; [by destruct d|]. destruct Hp as [Hl Hfu].
    revert Ht. rewrite !bool_decide_eq_false_2 by done. by destruct d. }
  destruct (vote_kind (vbase (accepted_vote a acc lf d dt prev)) d lf.1 lf.2
    (toggle_castable _ _ _ _ Ht) eq_refl eq_refl) as (H1 & H2 & H3 & H4).
  unfold apply_effects, affected_thing_attr, incr.
  rewrite H1, H2, H3, H4. unfold accepted_vote.
  cbn [vbase on_thing previous_vote veffects affects_score affects_karma karma_change].
  rewrite counted_name. clear H1 H2 H3 H4 Hp.
  assert (Hna : accounts w !! author_id t0 = Some au) by (by rewrite Hau, lookup_insert_eq).
  destruct w as [ths acs ? ? ? ? ? ? ?]. unfold with_things, with_accounts in *.
  simpl in Hth, Hau, Hna. subst ths acs.
  destruct d; try discriminate Ht; try (destruct Hprev as [? Hprev]; subst prev);
    rewrite ?andb_false_r; simpl; rewrite Hna; simpl; simpl in Hc;
    by rewrite insert_insert_eq, alter_insert_eq, Hc.
Qed.

Lemma store_core_emit a e w : store_core a w -> store_core a (emit e w).
Proof. by intros []. Qed.

Lemma toggle_changes d l f lf : toggle d l f = Some lf -> state_dir l f <> state_dir lf.1 lf.2.
Proof. by destruct d, l, f; intros; simplify_eq/=. Qed.

Lemma vote_eq_accepted a u acc prev d lf dt :
  toggle d (bool_decide (u ∈ likes a)) (bool_decide (u ∈ funs a)) = Some lf ->
  prev_spec a u prev ->
  match prev with
  | Some p => vote_eq (vbase (accepted_vote a acc lf d dt prev)) p.1 | None => false
  end = false.
Proof.
  intros Ht Hp. destruct prev as [p|]; [|done]. destruct Hp as (Hd & _).
  unfold vote_eq. simpl. rewrite Hd. unfold voter_state.
  rewrite (bool_decide_eq_false_2 (state_dir lf.1 lf.2 = _)); [by rewrite andb_false_r|].
  intros H. by apply (toggle_changes _ _ _ _ Ht).
Qed.

(** Storing the accepted vote moves the voter, and no one else, to the next
    state. *)
Lemma write_vote_accepted a w w' u acc prev d lf dt :
  store_core a w -> Karma.account_id acc = u ->
  toggle d (bool_decide (u ∈ likes a)) (bool_decide (u ∈ funs a)) = Some lf ->
  details w' = details w ->
  things w' = <[n := counted (tally_step a u d)]> (things w0) ->
  (exists au, accounts w' = <[author_id t0 := au]> (accounts w0) /\
    Karma.earns_karma au (sr_name t0) = true /\
    Karma.attrs au !! karma_name =
      Some (k0 + (2 * nlikes (tally_step a u d) + nfuns (tally_step a u d)))) ->
  exists w'', write_vote (accepted_vote a acc lf d dt prev) w' = Ok w'' /\
    store_core (tally_step a u d) w'' /\ liked w'' = liked w' /\ disliked w'' = disliked w'.
Proof.
  intros [_ _ Hd] Hid Ht Hdet Hth Hau. unfold write_vote, accepted_vote, thing_cls.
  cbn [vbase on_thing dir]. rewrite counted_name, serialize_value.
  pose proof (ft_class Hf) as Hcls. destruct n.1 eqn:Hn1; [..|done].
  all: simpl; eexists; split; [done|]; split; [|done]; split; simpl; try done.
  all: intros u'.
  all: rewrite (ft_name Hf), Hid; specialize (Hd u'); rewrite Hdet.
  all: rewrite lookup_insert_eq; simpl; destruct (decide (u' = u)) as [->|Hne].
  all: try (rewrite lookup_insert_eq; pose proof (tally_step_sizes _ _ _ _ Ht) as (_ & _ & ->);
            by repeat split).
  all: rewrite lookup_insert_ne by done; destruct (details w !! n) as [row|]; simpl in *;
    [destruct (row !! u') as [sv|]; simpl in *|rewrite lookup_empty].
  all: try (by rewrite voter_state_other).
  all: destruct d; simpl; set_solver.
Qed.

Lemma commit_accepted a w u acc prev d lf dt :
  store_core a w -> Karma.account_id acc = u ->
  toggle d (bool_decide (u ∈ likes a)) (bool_decide (u ∈ funs a)) = Some lf ->
  prev_spec a u prev ->
  exists w', commit st (accepted_vote a acc lf d dt prev) w = Ok w' /\
    store_core (tally_step a u d) w' /\ liked w' = liked w /\ disliked w' = disliked w.
Proof.
  intros Hi Hid Ht Hp. unfold commit. cbn [previous_vote accepted_vote].
  pose proof (vote_eq_accepted a u acc prev d lf dt Ht Hp) as Heq.
  cbn [previous_vote accepted_vote] in Heq. rewrite Heq.
  destruct (apply_effects_accepted a w u acc prev d lf dt Hi Ht Hp) as (au & He & Hk & ->).
  simpl res_bind at 1. cbv beta.
  edestruct (write_vote_accepted a w (with_accounts (fun _ => <[author_id t0 := au]> (accounts w0))
            (with_things (fun _ => <[n := counted (tally_step a u d)]> (things w0)) w))
            u acc prev d lf dt Hi Hid Ht) as (w'' & -> & Hc & Hl & Hdl); [done..|by exists au|].
  cbn [res_bind]. destruct (_ || _); (eexists; split; [done|]); (split; [|done]);
    [by apply store_core_emit|done].
Qed.

Lemma update_user_liked_core a v w : store_core a w -> store_core a (update_user_liked v w).
Proof.
  intros []. unfold update_user_liked.
  repeat match goal with |- context [if ?b then _ else _] => destruct b end; by split.
Qed.

(** The listings follow the request for a voter with a previous vote or a
    first request. *)
Lemma update_user_liked_listing a w0' w u acc prev d lf dt :
  Karma.account_id acc = u ->
  toggle d (bool_decide (u ∈ likes a)) (bool_decide (u ∈ funs a)) = Some lf ->
  prev_spec a u prev ->
  listing_inv a w0' -> liked w = liked w0' -> disliked w = disliked w0' ->
  listing_inv (tally_step a u d) (update_user_liked (accepted_vote a acc lf d dt prev) w).
Proof.
  intros Hid Ht Hp Hl Hlk Hdl Hlink u'. specialize (Hl Hlink u'). rewrite <- Hlk, <- Hdl in Hl.
  assert (Hprev : match d with unup | undown => is_Some prev | _ => True end).
  { destruct prev; [by destruct d|]. destruct Hp as [Hl' Hfu].
    revert Ht. rewrite !bool_decide_eq_false_2 by done. by destruct d. }
  destruct (vote_kind (vbase (accepted_vote a acc lf d dt prev)) d lf.1 lf.2
    (toggle_castable _ _ _ _ Ht) eq_refl eq_refl) as (H1 & H2 & H3 & H4).
  unfold update_user_liked. rewrite H1, H2, H3, H4. unfold accepted_vote.
  cbn [vbase on_thing user previous_vote]. rewrite counted_name, Hid. clear H1 H2 H3 H4 Ht Hp.
  destruct d; try (destruct Hprev as [? ->]); rewrite ?andb_false_r; simpl; set_solver.
Qed.

(** A worker processing the message of an accepted request. *)
Lemma consume_accepted a w u d lf now :
  store_inv a w -> honest_voter u ->
  toggle d (bool_decide (u ∈ likes a)) (bool_decide (u ∈ funs a)) = Some lf ->
  let m := Message u n (direction_value (state_dir lf.1 lf.2)) now (direction_value d) None ∅ in
  exists w', match n.1 with Link => consume_link_vote st qs m w | _ => consume_comment_vote st qs m w end
               = Ok w' /\ store_inv (tally_step a u d) w'.
Proof.
  intros [Hi Hli] Hu Ht m.
  destruct (honest_account _ _ _ Hi Hu) as (acc & Hacc & Hid & Hsp & Hself).
  destruct (get_vote_prev _ _ _ _ Hi Hacc Hid) as (prev & Hg & Hp).
  destruct (vote_init_accepted a w u acc prev d lf now Hi Hacc Hid Hsp Hself Hg Hp
    (toggle_castable _ _ _ _ Ht)) as (dt & Hv).
  destruct (commit_accepted a w u acc prev d lf dt Hi Hid Ht Hp) as (w' & Hw & Hc & Hl & Hdl).
  assert (Hth : things w !! n = Some (counted a)) by (by rewrite (sc_things _ _ Hi), lookup_insert_eq).
  pose proof (ft_class Hf) as Hcls. destruct n.1 eqn:Hn1; [..|done].
  - unfold consume_link_vote, build_vote. cbn [m m_user m_thing m_direction m_date m_ip m_data m_vote_direction].
    rewrite Hacc, Hth. cbn [of_option res_bind]. rewrite Hv. cbn [res_bind]. rewrite Hw. cbn [res_bind].
    eexists; split; [done|].
    assert (Hs : store_inv (tally_step a u d) (update_user_liked (accepted_vote a acc lf d dt prev) w')).
    { split; [by apply update_user_liked_core|]. by eapply update_user_liked_listing. }
    destruct (_ && _); [|done]. unfold add_to_domain_query_q.
    destruct Hs as [Hs1 Hs2].
    destruct (negb _); split; unfold add_to_subreddit_query_q, add_to_author_query_q;
      repeat apply store_core_emit; done.
  - unfold consume_comment_vote, build_vote. cbn [m m_user m_thing m_direction m_date m_ip m_data m_vote_direction].
    rewrite Hacc, Hth. cbn [of_option res_bind]. rewrite Hv. cbn [res_bind]. rewrite Hw. cbn [res_bind].
    assert (Hlnk : forall e, listing_inv (tally_step a u d) e) by (intros ? H; by rewrite Hn1 in H).
    destruct (_ || (spam _ || _)); [by exists w'|].
    destruct (sc_author _ _ Hc) as (au & Hau & _ & _).
    assert (accounts w' !! author_id (counted a) = Some au) as ->.
    { rewrite Hau. apply lookup_insert_eq. }
    cbn [of_option res_bind].
    destruct (negb _ && negb _); [|eexists; split; [done|]; split; [by apply store_core_emit|done]].
    destruct (ft_link Hf) as [lk Hlk']; [done|].
    assert (Hlk'' : things w' !! (Link, link_id (counted a)) = Some lk).
    { rewrite (sc_things _ _ Hc), lookup_insert_ne; [done|]. intros ->. discriminate. }
    change (things (emit ?e w')) with (things w'). rewrite Hlk''. cbn [of_option res_bind].
    destruct (active_sort_orders _ _); eexists; (split; [done|]); split; try done;
      by repeat apply store_core_emit.
Qed.

Lemma cast_accepted a s u d now :
  tally_inv a s -> honest_voter u ->
  exists s', do_action st qs (Cast u n d now) s = Ok s' /\ s'.1 = s.1 /\
    match toggle d (bool_decide (u ∈ likes a)) (bool_decide (u ∈ funs a)) with
    | None => vote_link_q s'.2 = [] /\ vote_comment_q s'.2 = []
    | Some lf =>
        let m := Message u n (direction_value (state_dir lf.1 lf.2)) now (direction_value d) None ∅ in
        match n.1 with
        | Link => vote_link_q s'.2 = [m] /\ vote_comment_q s'.2 = []
        | _ => vote_link_q s'.2 = [] /\ vote_comment_q s'.2 = [m]
        end
    end.
Proof.
  destruct s as [w f]. intros [[Hi Hli] [Hq1 Hq2]] Hu. simpl in *.
  destruct (honest_account _ _ _ Hi Hu) as (acc & Hacc & Hid & Hsp & Hself).
  destruct (get_vote_prev _ _ _ _ Hi Hacc Hid) as (prev & Hg & Hp).
  assert (Hth : things w !! n = Some (counted a)) by (by rewrite (sc_things _ _ Hi), lookup_insert_eq).
  rewrite Hacc, Hth. cbn [of_option res_bind]. unfold cast_vote, thing_cls.
  rewrite counted_name, Hg. cbn [res_bind]. rewrite (prev_spec_next _ _ _ d Hp).
  pose proof (ft_class Hf) as Hcls.
  destruct n.1 eqn:Hn1; [..|done];
    (destruct (toggle d _ _) as [lf|] eqn:Ht;
     [rewrite (toggle_castable _ _ _ _ Ht)|destruct (castable d)]); simpl.
  all: unfold update_vote_lookups; rewrite ?serialize_value; simpl; rewrite ?Hid, ?Hq1, ?Hq2.
  all: eexists; (split; [done|]); simpl; rewrite ?(ft_name Hf), ?Hq1, ?Hq2; try done.
Qed.

Lemma vote_now_inv a s u d now :
  tally_inv a s -> honest_voter u ->
  exists s', run st qs (vote_now n (u, d, now)) s = Ok s' /\ tally_inv (tally_step a u d) s'.
Proof.
  intros Hi Hu. unfold run, vote_now. cbn [res_foldl fst snd].
  destruct (cast_accepted a s u d now Hi Hu) as ([w' f'] & -> & Hw & Hq). simpl in Hw. subst w'.
  destruct Hi as [Hst _]. cbn [res_bind]. destruct (toggle d _ _) as [lf|] eqn:Ht.
  - destruct (consume_accepted a s.1 u d lf now Hst Hu Ht) as (w2 & Hc & Hi2).
    cbv zeta in Hq. pose proof (ft_class Hf) as Hcls. destruct n.1; [..|done];
      destruct Hq as [Hq1 Hq2]; simpl in Hq1, Hq2; cbn [do_action]; rewrite ?Hq1, ?Hq2;
      cbv zeta in Hc; rewrite Hc; eexists; split; done.
  - rewrite (tally_step_noop _ _ _ Ht). destruct Hq as [Hq1 Hq2]. simpl in Hq1, Hq2.
    exists (s.1, f'). split; [|done]. destruct n.1; simpl; by rewrite ?Hq1, ?Hq2.
Qed.

Lemma run_votes_inv ops a s :
  tally_inv a s -> Forall (fun o => honest_voter o.1.1) ops ->
  exists s', run st qs (ops ≫= vote_now n) s = Ok s' /\
    tally_inv (foldl (fun a o => tally_step a o.1.1 o.1.2) a ops) s'.
Proof.
  revert a s. induction ops as [|[[u d] now] ops IH]; intros a s Hi Hv; [by exists s|].
  inversion_clear Hv as [|?? Hu Hv']. rewrite bind_cons. unfold run. rewrite res_foldl_app.
  destruct (vote_now_inv a s u d now Hi Hu) as (s1 & Hr & Hi1). unfold run in Hr. rewrite Hr.
  cbn [res_bind]. apply IH; done.
Qed.

End tally.

End VoteTally.
