(* ===== verification/VoteProps.v ===== *)
(** * Properties of single votes

    Votes that must not count, redelivered queue messages, the stored encoding
    of directions, and a trace on which one voter is counted twice. *)

From S2P Require Import Prelude Karma Vote VoteQueue VoteTally.

Module VoteProps.
Import Vote VoteQueue VoteTally.

(** ** Votes without effect *)

(** The reasons for which [determine_affects_score] refuses, before plugins
    are asked. *)
Definition ineffective (st : settings) (v : base_vote) (prev : option (base_vote * effects)) : Prop :=
  (is_self_vote v = true /\ prev = None) \/
  Karma.account_spam (user v) = true \/
  (voting_allow_selfvote st = "false" /\ exists p, prev = Some p /\ affects_score p.2 = false).

Lemma determine_score_ineffective st v prev va :
  ineffective st v prev -> (determine_affects_score st v prev va).1 = false.
Proof.
  unfold ineffective, determine_affects_score, is_automatic_initial_vote. intros H.
  destruct (is_self_vote v && _) eqn:E1; [done|].
  destruct (match prev with Some p => _ | None => false end) eqn:E2; [done|].
  destruct H as [[H1 ->]|[H|(H & p & -> & Hp)]].
  - by rewrite H1 in E1.
  - by rewrite H.
  - by rewrite Hp, H in E2.
Qed.

Lemma vote_init_inv st w u t d dt a dat vd v :
  vote_init st w u t d dt a dat vd = Ok v ->
  is_votable t = true /\ user (vbase v) = u /\ on_thing (vbase v) = t /\
  direction_of_value d = Some (dir (vbase v)) /\ vote_direction (vbase v) = vd /\
  get_vote st w u t = Ok (previous_vote v) /\
  veffects v = vote_effects st (vbase v) (previous_vote v) None.
Proof.
  unfold vote_init. destruct (is_votable t); [|done]. simpl. intros H.
  res_inv. by simplify_eq/=.
Qed.

Lemma effects_ineffective st v prev :
  ineffective st v prev ->
  affects_score (vote_effects st v prev None) = false /\
  affects_karma (vote_effects st v prev None) = false.
Proof.
  intros H. unfold vote_effects.
  pose proof (determine_score_ineffective st v prev (get_validator st v) H) as Hs.
  by destruct (determine_affects_score _ _ _ _) as [sc notes]; simpl in *; subst sc.
Qed.

Lemma write_vote_stores v w w' :
  write_vote v w = Ok w' -> things w' = things w /\ accounts w' = accounts w.
Proof.
  unfold write_vote. destruct (thing_cls _); [..|done]; intros H; res_inv; by simplify_eq/=.
Qed.

Lemma emit_if_stores (b : bool) e w :
  let w' := if b then emit e w else w in
  things w' = things w /\ accounts w' = accounts w /\ details w' = details w /\
  liked w' = liked w /\ disliked w' = disliked w /\ votes_by_account w' = votes_by_account w /\
  voter_ips w' = voter_ips w /\ notes w' = notes w.
Proof. by destruct b. Qed.

(** Neither the thing nor anyone's karma moves. *)
Theorem ineffective_vote_commit st w w' u t d dt a dat vd v :
  vote_init st w u t d dt a dat vd = Ok v ->
  ineffective st (vbase v) (previous_vote v) ->
  commit st v w = Ok w' ->
  things w' = things w /\ accounts w' = accounts w.
Proof.
  intros (_ & _ & _ & _ & _ & _ & He)%vote_init_inv Hi Hc.
  apply effects_ineffective in Hi as [Hs Hk]. rewrite <- He in Hs, Hk.
  unfold commit in Hc. destruct (match previous_vote v with Some p => _ | None => false end);
    [by simplify_eq|].
  unfold apply_effects, affected_thing_attr in Hc. rewrite Hs, Hk, !andb_false_r in Hc.
  cbn [negb res_bind andb] in Hc. res_inv.
  destruct (emit_if_stores ((match things x !! thing_name (on_thing (vbase v)) with
    | Some t => num_votes t | None => num_votes (on_thing (vbase v)) end <? 20) ||
    (match things x !! thing_name (on_thing (vbase v)) with
    | Some t => num_votes t | None => num_votes (on_thing (vbase v)) end mod 10 =? 0))
    (SearchIndex (thing_name (on_thing (vbase v)))) x) as (-> & -> & _).
  by eapply write_vote_stores.
Qed.

(** ** Redelivered messages

    The queue may hand a worker the same message again. *)

(** Things and accounts are stored under their own names. *)
Definition keyed (w : world) : Prop :=
  (forall n t, things w !! n = Some t -> thing_name t = n) /\
  (forall u a, accounts w !! u = Some a -> Karma.account_id a = u).

(** Everything a later vote can read, the outgoing events apart. *)
Definition same_stores (w w' : world) : Prop :=
  things w' = things w /\ accounts w' = accounts w /\ details w' = details w /\
  voter_ips w' = voter_ips w /\ notes w' = notes w /\
  votes_by_account w' = votes_by_account w /\ liked w' = liked w /\ disliked w' = disliked w.

Lemma same_stores_refl w : same_stores w w.
Proof. by repeat split. Qed.

Lemma same_stores_trans w1 w2 w3 : same_stores w1 w2 -> same_stores w2 w3 -> same_stores w1 w3.
Proof. unfold same_stores. naive_solver congruence. Qed.

Lemma same_stores_sym w1 w2 : same_stores w1 w2 -> same_stores w2 w1.
Proof. unfold same_stores. naive_solver congruence. Qed.

#[local] Hint Resolve same_stores_refl : core.

Lemma same_stores_queries qs t w :
  same_stores w (add_to_domain_query_q qs t (add_to_subreddit_query_q qs t (add_to_author_query_q qs t w))).
Proof. unfold add_to_domain_query_q. by destruct (negb _). Qed.

Lemma same_stores_if_queries (b : bool) qs t w :
  same_stores w (if b then add_to_domain_query_q qs t
                   (add_to_subreddit_query_q qs t (add_to_author_query_q qs t w)) else w).
Proof. destruct b; [apply same_stores_queries|done]. Qed.

(** The stores a vote is built from. *)
Definition same_reads (w w' : world) : Prop :=
  accounts w' = accounts w /\ details w' = details w /\ voter_ips w' = voter_ips w.

Lemma details_of_column_reads st w w' t u s :
  same_reads w w' -> details_of_column st w' t u s = details_of_column st w t u s.
Proof. intros (Ha & _ & Hi). unfold details_of_column. by rewrite Ha, Hi. Qed.

Lemma res_mapM_ext {A B} (f g : A -> res B) l : (forall x, f x = g x) -> res_mapM f l = res_mapM g l.
Proof. intros H. induction l as [|x l IH]; simpl; [done|]. by rewrite H, IH. Qed.

Lemma get_details_reads st w w' t vs :
  same_reads w w' -> get_details st w' t vs = get_details st w t vs.
Proof.
  intros H. assert (Hd : details w' = details w) by apply H. unfold get_details. rewrite Hd.
  destruct (thing_cls t); [..|done]; destruct (details w !! thing_name t); try done;
    (erewrite res_mapM_ext; [done|]; intros x; by apply details_of_column_reads).
Qed.

Lemma vote_init_reads st w w' u t d dt a dat vd :
  same_reads w w' -> vote_init st w' u t d dt a dat vd = vote_init st w u t d dt a dat vd.
Proof. intros H. unfold vote_init, get_vote. by rewrite (get_details_reads _ _ _ _ _ H). Qed.

(** The update of one listing: removal, then insertion. *)
Definition listing_step (k : Z * fullname) (del ins : bool) (l : gset (Z * fullname)) :=
  let l := if del then l ∖ {[k]} else l in if ins then {[k]} ∪ l else l.

Lemma listing_step_idemp k del ins l :
  listing_step k del ins (listing_step k del ins l) = listing_step k del ins l.
Proof.
  apply leibniz_equiv. intros x. unfold listing_step.
  destruct del, ins, (decide (x = k)); set_solver.
Qed.

Lemma update_user_liked_spec v w :
  let b := vbase v in
  let k := (Karma.account_id (user b), thing_name (on_thing b)) in
  let p := match previous_vote v with Some _ => true | None => false end in
  update_user_liked v w =
    with_likes
      (listing_step k (p && is_unupvote b) (is_upvote b) (liked w))
      (listing_step k (negb (p && is_unupvote b) && (p && is_undownvote b))
         (negb (is_upvote b) && is_downvote b) (disliked w)) w.
Proof.
  intros b k p. unfold update_user_liked. fold b k p.
  destruct (p && is_unupvote b), (p && is_undownvote b), (is_upvote b), (is_downvote b);
    destruct w; reflexivity.
Qed.

(** Repeating the update of the listings changes nothing more. *)
Lemma update_user_liked_idemp v w :
  same_stores (update_user_liked v w) (update_user_liked v (update_user_liked v w)).
Proof.
  rewrite !update_user_liked_spec. unfold with_likes, same_stores.
  cbn [things accounts details voter_ips notes votes_by_account liked disliked].
  by rewrite !listing_step_idemp.
Qed.

Lemma update_user_liked_stores v w w' :
  same_stores w w' -> same_stores (update_user_liked v w) (update_user_liked v w').
Proof.
  intros (Ht & Ha & Hd & Hi & Hn & Hv & Hl & Hdl). unfold update_user_liked.
  generalize (is_upvote (vbase v)), (is_downvote (vbase v)), (is_unupvote (vbase v)),
    (is_undownvote (vbase v)), (match previous_vote v with Some _ => true | None => false end).
  intros [] [] [] [] []; split_and!; simpl; congruence.
Qed.

(** A vote rebuilt from the same message updates the listings the same way. *)
Lemma update_user_liked_rebuilt v v' w :
  vote_direction (vbase v') = vote_direction (vbase v) -> dir (vbase v') = dir (vbase v) ->
  Karma.account_id (user (vbase v')) = Karma.account_id (user (vbase v)) ->
  thing_name (on_thing (vbase v')) = thing_name (on_thing (vbase v)) ->
  is_Some (previous_vote v') ->
  (is_unupvote (vbase v) || is_undownvote (vbase v) = true -> is_Some (previous_vote v)) ->
  update_user_liked v' w = update_user_liked v w.
Proof.
  intros Hvd Hdir Hid Hname [p' Hp'] Hprev. unfold update_user_liked.
  unfold is_upvote, is_downvote, is_unupvote, is_undownvote in *.
  rewrite Hvd, Hdir, Hid, Hname, Hp'. destruct (previous_vote v) as [p|]; [done|].
  destruct (bool_decide (_ = Some (direction_value unup))),
    (bool_decide (_ = Some (direction_value undown))); simpl in *;
    try (destruct (Hprev eq_refl); discriminate); done.
Qed.


Lemma apply_effects_stores st v w w' :
  apply_effects st v w = Ok w' ->
  details w' = details w /\ voter_ips w' = voter_ips w /\
  (forall n t, things w !! n = Some t -> exists t', things w' !! n = Some t' /\ thing_name t' = thing_name t) /\
  (forall u a, accounts w !! u = Some a ->
    exists a', accounts w' !! u = Some a' /\ Karma.account_id a' = Karma.account_id a).
Proof.
  assert (Hincr : forall c amt n' w1 n t, things w1 !! n = Some t ->
    exists t', things (incr n' c amt w1) !! n = Some t' /\ thing_name t' = thing_name t).
  { intros c amt n' w1 n t Ht. unfold incr, with_things. cbn [things]. rewrite lookup_alter.
    case_decide; subst; rewrite Ht; [|by exists t]. simpl. eexists; split; [done|]. by destruct c. }
  unfold apply_effects. intros H.
  match type of H with context [match affected_thing_attr v with Some c => incr ?n c 1 ?wx | None => _ end] =>
    set (w1 := wx) in H; set (w2 := match affected_thing_attr v with Some c => incr n c 1 w1 | None => w1 end) in H
  end.
  assert (Hw2 : details w2 = details w /\ voter_ips w2 = voter_ips w /\ accounts w2 = accounts w).
  { unfold w2, w1. destruct (affected_thing_attr v);
      repeat match goal with |- context [if ?b then _ else _] => destruct b end; done. }
  assert (Ht2 : forall n t, things w !! n = Some t -> exists t', things w2 !! n = Some t' /\ thing_name t' = thing_name t).
  { intros n t Ht. assert (exists t1, things w1 !! n = Some t1 /\ thing_name t1 = thing_name t) as (t1 & Ht1 & Hn1).
    { unfold w1. repeat match goal with |- context [if ?b then _ else _] => destruct b end;
        [by apply Hincr|by apply Hincr|by exists t]. }
    unfold w2. destruct (affected_thing_attr v); [|by exists t1].
    destruct (Hincr c 1 (thing_name (on_thing (vbase v))) w1 n t1 Ht1) as (t2 & ? & ?).
    exists t2. split; congruence. }
  clearbody w2. clear w1. destruct Hw2 as (Hd & Hi & Ha). destruct (_ && _).
  - res_inv. simpl. repeat split; try done. intros u a Hu. rewrite lookup_insert.
    case_decide as Hua; [|rewrite Ha; by exists a]. subst u.
    eexists; split; [done|]. rewrite Ha, Hu in *. simplify_eq.
    by destruct (Karma.incr_karma_frame (MIN_UP_KARMA st) x (affects_karma_type (on_thing (vbase v)))
      (sr_name (on_thing (vbase v))) (karma_change (veffects v))) as (-> & _).
  - res_inv. repeat split; try done. intros u a Hu. rewrite Ha. by exists a.
Qed.

Lemma write_vote_details v w w' :
  write_vote v w = Ok w' ->
  exists col, sv_direction col = SERIALIZED_DIRECTIONS (dir (vbase v)) /\
    sv_valid_thing col = None /\ is_Some (sv_effects col) /\
    details w' !! thing_name (on_thing (vbase v)) ≫=
      (fun row => row !! Karma.account_id (user (vbase v))) = Some col.
Proof.
  unfold write_vote, create_details.
  destruct (thing_cls _); [..|done]; intros H; res_inv; simpl;
    (eexists; split_and!; [..|rewrite lookup_insert_eq; simpl; apply lookup_insert_eq]; done).
Qed.

(** What a committed vote leaves for the next worker to find. *)
Lemma commit_leaves st v w w' :
  commit st v w = Ok w' ->
  (match previous_vote v with Some p => vote_eq (vbase v) p.1 | None => false end = true /\ w' = w) \/
  ((exists col, sv_direction col = SERIALIZED_DIRECTIONS (dir (vbase v)) /\
      sv_valid_thing col = None /\ is_Some (sv_effects col) /\
      details w' !! thing_name (on_thing (vbase v)) ≫=
        (fun row => row !! Karma.account_id (user (vbase v))) = Some col) /\
   (forall n t, things w !! n = Some t -> exists t', things w' !! n = Some t' /\ thing_name t' = thing_name t) /\
   (forall u a, accounts w !! u = Some a ->
      exists a', accounts w' !! u = Some a' /\ Karma.account_id a' = Karma.account_id a)).
Proof.
  unfold commit. destruct (match previous_vote v with Some p => _ | None => false end) eqn:E.
  - intros H. res_inv. by left.
  - intros H. right. apply res_bind_Ok in H as (w1 & H1 & H). apply res_bind_Ok in H as (w2 & H2 & H).
    apply apply_effects_stores in H1 as (_ & _ & Ht & Ha).
    pose proof (write_vote_details _ _ _ H2) as Hd.
    apply write_vote_stores in H2 as [Ht2 Ha2].
    destruct (_ || _); res_inv; cbn [emit things accounts details] in *; split_and!;
      try exact Hd; intros; rewrite ?Ht2, ?Ha2; eauto.
Qed.

(** Rebuilding the vote after it was committed finds itself as the previous
    vote. *)
Lemma vote_init_again st w w1 u link d dt dt' a dat vd v :
  vote_init st w u link d dt a dat vd = Ok v ->
  forall u' link', accounts w1 !! Karma.account_id u = Some u' ->
  Karma.account_id u' = Karma.account_id u -> thing_name link' = thing_name link ->
  (exists col, sv_direction col = SERIALIZED_DIRECTIONS (dir (vbase v)) /\
     sv_valid_thing col = None /\ is_Some (sv_effects col) /\
     details w1 !! thing_name link ≫= (fun row => row !! Karma.account_id u) = Some col) ->
  exists v', vote_init st w1 u' link' d dt' a dat vd = Ok v' /\
    (exists p, previous_vote v' = Some p /\ vote_eq (vbase v') p.1 = true) /\
    vote_direction (vbase v') = vote_direction (vbase v) /\ dir (vbase v') = dir (vbase v) /\
    Karma.account_id (user (vbase v')) = Karma.account_id (user (vbase v)) /\
    thing_name (on_thing (vbase v')) = thing_name (on_thing (vbase v)).
Proof.
  intros (Hvot & Hu & Ht & Hdir & Hvd & _ & _)%vote_init_inv u' link' Hu' Hid Hname
    (col & Hc1 & Hc2 & [eff Hc3] & Hc4).
  assert (Hvot' : is_votable link' = true) by (unfold is_votable, thing_cls in *; by rewrite Hname).
  unfold vote_init, get_vote. rewrite Hvot', Hdir. cbn [negb of_option res_bind].
  rewrite (get_details_one st w1 u' link' (details w1 !! thing_name link));
    [|unfold is_votable in Hvot'; by destruct (thing_cls link')|by rewrite Hname].
  rewrite Hid, Hc4. unfold details_of_column, convert_old_details.
  rewrite Hc2, Hu'. cbn [of_option res_bind]. rewrite Hc1, deserialize_serialized. cbn [res_bind].
  rewrite Hc3. cbn [of_option res_bind]. unfold vote_init_alone. rewrite Hvot'. cbn [negb res_bind].
  eexists; split; [done|]. cbn [previous_vote vbase head]. split.
  - eexists; split; [done|]. unfold vote_eq. cbn. rewrite Z.eqb_refl.
    by rewrite !bool_decide_eq_true_2.
  - cbn. rewrite Hu, Ht, Hvd, Hid, Hname. done.
Qed.

Lemma get_vote_is_Some st w u t prev :
  get_vote st w u t = Ok prev ->
  is_Some (details w !! thing_name t ≫= (fun row => row !! Karma.account_id u)) ->
  is_Some prev.
Proof.
  unfold get_vote. destruct (decide (thing_cls t = OtherThing)) as [E|E].
  - unfold get_details. rewrite E. discriminate.
  - rewrite (get_details_one st w u t _ E eq_refl). intros H [s Hs]. rewrite Hs in H.
    res_inv. simpl. eauto.
Qed.

(** Processing a link vote message twice leaves the stores as processing it
    once does: the second delivery finds the vote already cast. *)
Theorem redelivered_link_vote st qs m w w1 :
  keyed w ->
  (m_vote_direction m = direction_value unup \/ m_vote_direction m = direction_value undown ->
   is_Some (details w !! m_thing m ≫= (fun row => row !! m_user m))) ->
  consume_link_vote st qs m w = Ok w1 ->
  exists w2, consume_link_vote st qs m w1 = Ok w2 /\ same_stores w1 w2.
Proof.
  intros [Hkt Hka] Hun Hc. pose proof Hc as Hc0. unfold consume_link_vote in Hc.
  apply res_bind_Ok in Hc as (u & Hu & Hc). apply of_option_Ok in Hu.
  apply res_bind_Ok in Hc as (link & Hlink & Hc). apply of_option_Ok in Hlink.
  pose proof (Hkt _ _ Hlink) as Hname. pose proof (Hka _ _ Hu) as Hid.
  destruct (build_vote st w m u link) as [v|[]] eqn:Hv; try discriminate.
  2: { injection Hc as <-. rewrite Hc0. by exists w. }
  unfold build_vote in Hv. apply res_bind_Ok in Hc as (wc & Hcm & Hc).
  pose proof (vote_init_inv _ _ _ _ _ _ _ _ _ _ Hv) as (_ & Hvu & Hvt & Hvd & Hvvd & Hg & _).
  assert (Hprev : is_unupvote (vbase v) || is_undownvote (vbase v) = true -> is_Some (previous_vote v)).
  { unfold is_unupvote, is_undownvote. rewrite Hvvd. intros H.
    eapply get_vote_is_Some; [exact Hg|]. rewrite Hname, Hid. apply Hun.
    apply orb_true_iff in H as [H|H]; apply bool_decide_eq_true in H; simplify_eq; auto. }
  assert (Hw1 : same_stores (update_user_liked v wc) w1).
  { injection Hc as <-. apply same_stores_if_queries. }
  assert (Hrc : things w1 = things wc /\ same_reads wc w1).
  { rewrite update_user_liked_spec in Hw1. unfold same_stores, same_reads in *. naive_solver. }
  destruct Hrc as [Hth1 Hrd].
  unfold consume_link_vote. apply commit_leaves in Hcm as [[Heq ->]|(Hcol & Hth & Hacc)].
  - assert (Ha1 : accounts w1 !! m_user m = Some u) by (by destruct Hrd as [-> _]).
    rewrite Ha1, Hth1, Hlink. cbn [of_option res_bind]. unfold build_vote.
    rewrite (vote_init_reads _ _ _ _ _ _ _ _ _ _ Hrd), Hv.
    unfold commit. rewrite Heq. cbn [res_bind].
    eexists; split; [done|]. eapply same_stores_trans; [|apply same_stores_if_queries].
    eapply same_stores_trans; [apply same_stores_sym, Hw1|].
    eapply same_stores_trans; [apply update_user_liked_idemp|].
    by apply update_user_liked_stores.
  - destruct (Hth _ _ Hlink) as (link' & Hl' & Hln). destruct (Hacc _ _ Hu) as (u' & Hu' & Hui).
    destruct Hrd as (Hra & Hrd & Hri). rewrite Hra, Hth1, Hu', Hl'. cbn [of_option res_bind].
    unfold build_vote.
    destruct (vote_init_again st w w1 u link (m_direction m) (m_date m) (m_date m) (m_ip m) (m_data m)
      (Some (m_vote_direction m)) v Hv u' link') as (v' & -> & (p & Hp & Hpe) & E1 & E2 & E3 & E4);
      [by rewrite Hra, Hid|done|done|by rewrite Hvu, Hvt in Hcol; rewrite Hrd|].
    unfold commit. rewrite Hp, Hpe. cbn [res_bind].
    eexists; split; [done|]. eapply same_stores_trans; [|apply same_stores_if_queries].
    rewrite (update_user_liked_rebuilt v v' w1 E1 E2 E3 E4); [|by exists p|done].
    eapply same_stores_trans; [apply same_stores_sym, Hw1|].
    eapply same_stores_trans; [apply update_user_liked_idemp|].
    by apply update_user_liked_stores.
Qed.

(** ** A concrete site

    Two voters and the author of a link; plugins decide nothing. *)

Definition demo_settings : settings := Settings "true" 1 (fun _ => None).
Definition demo_queues : queue_settings :=
  QueueSettings false false false 0 1 (fun _ => false) (fun _ => true) (fun _ => 3) (fun _ => "org").
Definition demo_link : thing :=
  Thing (Link, 100) 1 50 "pics" 1 0 false false "link" false 100 None.
Definition demo_author : Karma.account :=
  Karma.Account 1 false false {[ "pics_link_karma" := 10 ]}.
Definition demo_voter (u : Z) : Karma.account := Karma.Account u false false ∅.
Definition demo_world : world :=
  World {[ (Link, 100) := demo_link ]}
    (<[1 := demo_author]> (<[7 := demo_voter 7]> {[ 8 := demo_voter 8 ]}))
    ∅ ∅ [] ∅ ∅ ∅ [].

(** Where requests are cast before earlier ones are processed, one voter can
    be counted twice: the second request is based on the state before the
    first, so the stored state forgets the first and the third is accepted. *)
Theorem queued_votes_overcount :
  exists w f,
    run demo_settings demo_queues
      [Cast 7 (Link, 100) up 1; Cast 7 (Link, 100) down 2; ConsumeLink; ConsumeLink;
       Cast 7 (Link, 100) up 3; ConsumeLink] (demo_world, empty_front) = Ok (w, f) /\
    ups <$> things w !! (Link, 100) = Some (ups demo_link + 2).
Proof. eexists _, _. split; [vm_compute; reflexivity|vm_compute; reflexivity]. Qed.

Lemma demo_fresh : fresh_thing demo_settings demo_world (Link, 100) demo_link demo_author 10.
Proof.
  split; try done; try (intros; done).
Defined.


Definition demo_message : message :=
  Message 7 (Link, 100) (direction_value onoff) 1 (direction_value up) None ∅.

Definition demo_once : world :=
  match consume_link_vote demo_settings demo_queues demo_message demo_world with
  | Ok w => w | Raise _ => demo_world
  end.

Lemma demo_keyed : keyed demo_world.
Proof.
  split.
  - intros n t. unfold demo_world; simpl. by intros [<- <-]%lookup_singleton_Some.
  - intros u a. unfold demo_world; simpl.
    rewrite !lookup_insert_Some, lookup_singleton_Some. naive_solver.
Qed.

Lemma redelivered_link_vote_witness :
  ups <$> things demo_once !! (Link, 100) = Some 2 /\
  exists w2, consume_link_vote demo_settings demo_queues demo_message demo_once = Ok w2 /\
    same_stores demo_once w2.
Proof.
  split; [vm_compute; reflexivity|].
  apply (redelivered_link_vote demo_settings demo_queues demo_message demo_world demo_once).
  - exact demo_keyed.
  - intros [H|H]; vm_compute in H; discriminate H.
  - vm_compute. reflexivity.
Defined.

(** The author's automatic vote on a new link. *)
Definition demo_initial : vote :=
  let v := BaseVote demo_author demo_link onoff (Some 0) 0 None ∅ in
  MkVote v None (vote_effects demo_settings v None None).

Lemma ineffective_vote_commit_witness :
  exists w', commit demo_settings demo_initial demo_world = Ok w' /\
    things w' = things demo_world /\ accounts w' = accounts demo_world.
Proof.
  destruct (commit demo_settings demo_initial demo_world) as [w'|] eqn:Hc; [|by vm_compute in Hc].
  exists w'. split; [reflexivity|].
  apply (ineffective_vote_commit demo_settings demo_world w' demo_author demo_link 5 0 None ∅ (Some 0)
    demo_initial); [vm_compute; reflexivity| |exact Hc].
  left. split; vm_compute; reflexivity.
Defined.
End VoteProps.
