(* ===== verification/CommentTree.v ===== *)
(** * Comment trees

    r2/models/comment_tree.py keeps, per link, a dictionary from a comment id
    (or [None] for the top level) to the list of its children's ids; depths,
    parents and subtree sizes are computed from it on the fly by the two
    functions of r2/lib/utils/comment_tree_utils.pyx.  The theorems say that
    those passes over the sorted keys compute the recursive notions, and that
    adding comments keeps the tree well formed. *)

From S2P Require Import Prelude.

Module CommentTree.

(** Parent ids; [None] is the top level. *)
Notation parent := (option Z).

Notation tree := (gmap parent (list Z)).

(** Python 2's order on the keys: [None] is below every integer. *)
Definition key_leb (a b : parent) : bool :=
  match a, b with
  | None, _ => true
  | Some _, None => false
  | Some x, Some y => x <=? y
  end.

Definition key_lt (a b : parent) : Prop :=
  match a, b with
  | None, Some _ => True
  | Some x, Some y => x < y
  | _, None => False
  end.

(** [sorted(tree)]. *)
Definition sorted_keys (t : tree) : list parent := isort key_leb (map_to_list t).*1.

(** [d.update({k: v for k in ks})] with the same [v] for every key. *)
Definition update_all {V} (ks : list Z) (v : V) (m : gmap Z V) : gmap Z V :=
  foldr (fun k m => <[k := v]> m) m ks.

(** ** The two passes of comment_tree_utils.pyx *)

Record tree_details := Details {
  cids : list Z;
  depth : gmap Z Z;
  parents : gmap Z parent
}.

(** [depth.get(parent_id, -1)]. *)
Definition depth_get (d : gmap Z Z) (p : parent) : Z :=
  match p with Some q => default (-1) (d !! q) | None => -1 end.

Definition details_step (t : tree) (acc : tree_details) (parent_id : parent) : tree_details :=
  let child_ids := default [] (t !! parent_id) in
  let child_depth := depth_get (depth acc) parent_id + 1 in
  Details (cids acc ++ child_ids) (update_all child_ids child_depth (depth acc))
    (update_all child_ids parent_id (parents acc)).

Definition get_tree_details (t : tree) : tree_details :=
  foldl (details_step t) (Details [] ∅ ∅) (sorted_keys t).

Definition num_children_step (t : tree) (num_children : gmap Z Z) (parent_id : parent) : gmap Z Z :=
  match parent_id with
  | None => num_children
  | Some p =>
      let child_ids := default [] (t !! parent_id) in
      <[p := zsum_map (fun c => 1 + default 0 (num_children !! c)) child_ids]> num_children
  end.

Definition calc_num_children (t : tree) : gmap Z Z :=
  foldl (num_children_step t) ∅ (reverse (sorted_keys t)).

(** ** Storage *)

(** A Comment object: its identity (Things compare by identity), its id and
    its parent's. *)
Record comment := Comment {
  c_obj : Z;
  c_id : Z;
  c_parent : parent
}.

#[export] Instance comment_eq_dec : EqDecision comment.
Proof. solve_decision. Defined.

Notation permacache := (gmap string tree).

Definition permacache_key (link : Z) : string := "comments_" +:+ pretty link.

(** [_load_tree]: an empty tree on a miss. *)
Definition load_tree (link : Z) (pc : permacache) : tree := default ∅ (pc !! permacache_key link).

Definition write_tree (link : Z) (t : tree) (have_lock : bool) (pc : permacache) : res permacache :=
  let* _ := py_assert have_lock in Ok (<[permacache_key link := t]> pc).

Definition prepare_new_storage (link : Z) (pc : permacache) : res permacache :=
  if bool_decide (load_tree link pc = ∅) then write_tree link ∅ true pc else Ok pc.

(** [tree.setdefault(comment.parent_id, []).append(comment._id)]. *)
Definition append_comment (t : tree) (c : comment) : tree :=
  <[c_parent c := default [] (t !! c_parent c) ++ [c_id c]]> t.

(** [comment.parent_id and comment.parent_id not in parent_ids]. *)
Definition possible_orphan (parent_ids : list Z) (c : comment) : bool :=
  match c_parent c with
  | Some p => negb (p =? 0) && negb (bool_decide (p ∈ parent_ids))
  | None => false
  end.

Section storage.
(** The order in which Python iterates over a set of comment objects. *)
Context (iter : list comment -> list comment).

Definition new_comments (t : tree) (comments : list comment) : list comment :=
  remove_dups (List.filter (fun c => negb (bool_decide (c_id c ∈ cids (get_tree_details t)))) comments).

(** [CommentTreePermacache.add_comments]; the comments reported as
    [comment_tree_inconsistent] are returned beside the store. *)
Definition add_comments (link : Z) (comments : list comment) (pc : permacache)
  : res (permacache * list comment) :=
  let t := load_tree link pc in
  let new := new_comments t comments in
  match new with
  | [] => Ok (pc, [])
  | _ =>
      let parent_ids := cids (get_tree_details t) ++ (c_id <$> new) in
      let orphans := List.filter (possible_orphan parent_ids) new in
      let* pc := write_tree link (foldl append_comment t (iter new)) true pc in
      Ok (pc, orphans)
  end.
End storage.

(** [CommentTreePermacache.rebuild]. *)
Definition rebuild_permacache (link : Z) (comments : list comment) (pc : permacache) : res permacache :=
  write_tree link (foldl append_comment ∅ comments) true pc.

(** A row of the comment query of [CommentTree.rebuild]. *)
Record comment_row := CommentRow { row_comment : comment; row_deleted : bool }.

(** [CommentTree.rebuild]: drop comments whose parent is missing, write the
    tree, and return the new [link.num_comments]. *)
Definition rebuild (link : Z) (rows : list comment_row) (pc : permacache) : res (permacache * Z) :=
  let comment_ids := (fun r => c_id (row_comment r)) <$> rows in
  let kept := List.filter (fun r =>
    match c_parent (row_comment r) with
    | Some p => (p =? 0) || bool_decide (p ∈ comment_ids)
    | None => true
    end) rows in
  let* pc := rebuild_permacache link (row_comment <$> kept) pc in
  Ok (pc, zsum_map (fun r => if row_deleted r then 0 else 1) kept).

(** The pieces [CommentTree.by_link] hands to the comment orderers;
    [num_children] is a [defaultdict(int)]. *)
Record comment_tree := CTree {
  ct_cids : list Z;
  ct_tree : tree;
  ct_depth : gmap Z Z;
  ct_parents : gmap Z parent;
  ct_num_children : gmap Z Z
}.

Definition get_tree_pieces (t : tree) : comment_tree :=
  let d := get_tree_details t in
  CTree (cids d) t (depth d) (parents d) (calc_num_children t).

Definition by_link (link : Z) (pc : permacache) : comment_tree := get_tree_pieces (load_tree link pc).

Definition num_children_of (ct : comment_tree) (c : Z) : Z := default 0 (ct_num_children ct !! c).
Definition children_of (ct : comment_tree) (p : parent) : list Z := default [] (ct_tree ct !! p).

(** ** Well-formed trees *)

Definition child (t : tree) (p : parent) (c : Z) : Prop :=
  exists cs, t !! p = Some cs /\ c ∈ cs.

Definition all_children (t : tree) : list Z := concat (map_to_list t).*2.

(** Ids grow: a comment is created after its parent; no comment is listed
    twice. *)
Record wf_tree (t : tree) : Prop := WfTree {
  wf_mono : forall p c, child t (Some p) c -> p < c;
  wf_nodup : NoDup (all_children t)
}.

(** The depth of a comment; one whose parent is not in the tree starts at 0. *)
Inductive depth_of (t : tree) : Z -> Z -> Prop :=
  | depth_top p c : child t p c -> (forall q r, p = Some q -> ~ child t r q) -> depth_of t c 0
  | depth_below p c d : child t (Some p) c -> depth_of t p d -> depth_of t c (d + 1).

(** Descendants of a comment. *)
Inductive descendant (t : tree) (p : Z) : Z -> Prop :=
  | desc_child c : child t (Some p) c -> descendant t p c
  | desc_below q d : descendant t p q -> child t (Some q) d -> descendant t p d.

(** ** Sorted keys *)

Lemma key_leb_total x y : key_leb x y = false -> key_leb y x = true.
Proof. destruct x, y; simpl; try done. intros; lia. Qed.

Lemma key_leb_trans x y z : key_leb x y = true -> key_leb y z = true -> key_leb x z = true.
Proof. destruct x, y, z; simpl; try done. intros; lia. Qed.

Lemma key_leb_lt x y : key_leb x y = true -> x <> y -> key_lt x y.
Proof.
  destruct x as [a|], y as [b|]; simpl; intros H Hne; try congruence; try done.
  assert (a <> b) by congruence. lia.
Qed.

Lemma key_lt_irrefl x : ~ key_lt x x.
Proof. intros H. destruct x; simpl in H; [lia|done]. Qed.

Lemma key_lt_trans x y z : key_lt x y -> key_lt y z -> key_lt x z.
Proof. destruct x, y, z; simpl; try done. lia. Qed.

Lemma elem_of_sorted_keys t p : p ∈ sorted_keys t <-> is_Some (t !! p).
Proof.
  unfold sorted_keys. rewrite elem_of_isort, list_elem_of_fmap. split.
  - intros ([k v] & -> & H%elem_of_map_to_list). by exists v.
  - intros [v H]. exists (p, v). split; [done|]. by apply elem_of_map_to_list.
Qed.

Lemma sorted_keys_strict t : StronglySorted key_lt (sorted_keys t).
Proof.
  assert (Hs : StronglySorted (leP key_leb) (sorted_keys t)).
  { apply isort_sorted; [apply key_leb_total|apply key_leb_trans]. }
  assert (Hn : NoDup (sorted_keys t)).
  { unfold sorted_keys. rewrite NoDup_isort. apply NoDup_fst_map_to_list. }
  induction Hs as [|x l Hs IH Hx]; constructor.
  - apply IH. by apply NoDup_cons in Hn as [_ Hn].
  - apply NoDup_cons in Hn as [Hn _]. rewrite Forall_forall in *. intros y Hy.
    apply key_leb_lt; [apply Is_true_true, Hx, Hy|]. intros ->. done.
Qed.

(** A key below the one being processed has been processed. *)
Lemma sorted_keys_before t ks1 p ks2 q :
  sorted_keys t = ks1 ++ p :: ks2 -> is_Some (t !! q) -> key_lt q p -> q ∈ ks1.
Proof.
  intros E Hq Hlt. pose proof (sorted_keys_strict t) as Hs. rewrite E in Hs.
  apply elem_of_sorted_keys in Hq. rewrite E in Hq.
  apply elem_of_app in Hq as [|Hq]; [done|]. exfalso.
  apply StronglySorted_app in Hs as (_ & _ & Hs).
  apply StronglySorted_cons in Hs as [Hf _].
  apply elem_of_cons in Hq as [->|Hq]; [by eapply key_lt_irrefl|].
  rewrite Forall_forall in Hf. eapply key_lt_irrefl, key_lt_trans; [exact Hlt|by apply Hf].
Qed.

(** ** The first pass computes depths and parents *)

Lemma update_all_lookup {V} ks (v : V) m k :
  update_all ks v m !! k = if bool_decide (k ∈ ks) then Some v else m !! k.
Proof.
  induction ks as [|x ks IH]; simpl; [done|]. rewrite lookup_insert.
  destruct (decide (x = k)) as [E|E].
  - subst x. rewrite bool_decide_eq_true_2 by left. done.
  - rewrite IH. rewrite (bool_decide_ext (k ∈ ks) (k ∈ x :: ks)); [done|].
    rewrite elem_of_cons. naive_solver.
Qed.

Lemma child_default t p c : child t p c <-> c ∈ default [] (t !! p).
Proof.
  unfold child. destruct (t !! p) as [cs|]; simpl; [naive_solver|].
  split; [naive_solver|by intros ?%not_elem_of_nil].
Qed.

Lemma all_children_elem t c : c ∈ all_children t <-> exists p, child t p c.
Proof.
  unfold all_children, child. rewrite list_elem_of_In, in_concat. split.
  - intros (cs & Hcs & Hc). apply list_elem_of_In, list_elem_of_fmap in Hcs as ([p cs'] & -> & Hp).
    apply elem_of_map_to_list in Hp. exists p, cs'. by rewrite list_elem_of_In.
  - intros (p & cs & Hp & Hc). exists cs. split; [|by apply list_elem_of_In].
    apply list_elem_of_In, list_elem_of_fmap. exists (p, cs). split; [done|].
    by apply elem_of_map_to_list.
Qed.

(** Every comment has one parent. *)
Lemma child_unique t p q c : wf_tree t -> child t p c -> child t q c -> p = q.
Proof.
  intros [_ Hn] (cs & Hp & Hc) (cs' & Hq & Hc'). destruct (decide (p = q)) as [|Hne]; [done|exfalso].
  assert (Hperm : map_to_list t ≡ₚ (p, cs) :: (q, cs') :: map_to_list (delete q (delete p t))).
  { rewrite <- (map_to_list_delete t p cs) by done. f_equiv.
    rewrite <- (map_to_list_delete (delete p t) q cs') by (by rewrite lookup_delete_ne). done. }
  unfold all_children in Hn. rewrite Hperm in Hn. simpl in Hn.
  apply NoDup_app in Hn as (_ & Hn & _). specialize (Hn c Hc). apply Hn.
  apply elem_of_app. by left.
Qed.

Lemma depth_of_det t c d d' : wf_tree t -> depth_of t c d -> depth_of t c d' -> d = d'.
Proof.
  intros Hwf H. revert d'. induction H as [p c Hc Hno|p c d Hc Hd IH]; intros d' H'.
  - inversion H' as [|q ? d1 Hc' Hd']; subst; [done|]. exfalso.
    rewrite (child_unique t p (Some q) c) in Hno by done.
    inversion Hd'; subst; by eapply Hno.
  - inversion H' as [q ? Hc' Hno|q ? d1 Hc' Hd']; subst.
    + exfalso. rewrite (child_unique t q (Some p) c) in Hno by done.
      inversion Hd; subst; by eapply Hno.
    + assert (Some q = Some p) as [= ->] by (by eapply child_unique). f_equal. by apply IH.
Qed.

(** What the first pass has computed after the keys [ks]. *)
Record details_inv (t : tree) (ks : list parent) (a : tree_details) : Prop := DetailsInv {
  di_cids : cids a = concat ((fun p => default [] (t !! p)) <$> ks);
  di_parents : forall c p, parents a !! c = Some p <-> p ∈ ks /\ child t p c;
  di_dom : forall c, is_Some (depth a !! c) <-> exists p, p ∈ ks /\ child t p c;
  di_depth : forall c d, depth a !! c = Some d -> depth_of t c d
}.

Lemma details_step_inv t ks1 p ks2 a :
  wf_tree t -> sorted_keys t = ks1 ++ p :: ks2 -> details_inv t ks1 a ->
  details_inv t (ks1 ++ [p]) (details_step t a p).
Proof.
  intros Hwf Hks [Hc Hp Hd Hs].
  assert (Hdepth : forall c, child t p c -> depth_of t c (depth_get (depth a) p + 1)).
  { intros c Hch. destruct p as [q|]; simpl; [|by eapply depth_top].
    destruct (depth a !! q) as [dq|] eqn:Hq; simpl; [by eapply depth_below, Hs|].
    eapply depth_top; [exact Hch|]. intros q' r [= <-] Hr.
    assert (is_Some (depth a !! q)) as [? ?]; [|congruence]. apply Hd. exists r. split; [|done].
    eapply sorted_keys_before; [exact Hks|destruct Hr as (cs & Hr & _); by exists cs|].
    destruct r as [r|]; simpl; [|done]. by apply (wf_mono _ Hwf). }
  split; unfold details_step; cbn [cids parents depth].
  - rewrite fmap_app, concat_app, Hc. simpl. by rewrite app_nil_r.
  - intros c q. rewrite update_all_lookup, elem_of_app, list_elem_of_singleton.
    case_bool_decide as Hch; rewrite <- child_default in Hch.
    + split; [intros [= <-]; auto|]. intros [_ Hch']. f_equal. by eapply child_unique.
    + rewrite Hp. naive_solver.
  - intros c. rewrite update_all_lookup. setoid_rewrite elem_of_app.
    setoid_rewrite list_elem_of_singleton.
    case_bool_decide as Hch; rewrite <- child_default in Hch; [naive_solver|].
    rewrite Hd. naive_solver.
  - intros c d. rewrite update_all_lookup.
    case_bool_decide as Hch; rewrite <- child_default in Hch; [intros [= <-]; auto|apply Hs].
Qed.

Lemma details_fold_inv t ks1 ks2 a :
  wf_tree t -> sorted_keys t = ks1 ++ ks2 -> details_inv t ks1 a ->
  details_inv t (ks1 ++ ks2) (foldl (details_step t) a ks2).
Proof.
  intros Hwf. revert ks1 a. induction ks2 as [|p ks2 IH]; intros ks1 a Hks Hinv; simpl.
  - by rewrite app_nil_r.
  - rewrite cons_middle, app_assoc. apply IH; [by rewrite <- app_assoc|].
    by eapply details_step_inv.
Qed.

Lemma child_key t p c : child t p c -> p ∈ sorted_keys t.
Proof. intros (cs & H & _). apply elem_of_sorted_keys. by exists cs. Qed.

Lemma get_tree_details_inv t : wf_tree t -> details_inv t (sorted_keys t) (get_tree_details t).
Proof.
  intros Hwf. apply (details_fold_inv t [] (sorted_keys t)); [done|done|].
  split; simpl; [done|..]; intros; rewrite ?lookup_empty.
  - set_solver.
  - split; [by intros []|set_solver].
  - by rewrite lookup_empty in *.
Qed.

Lemma cids_perm t : cids (get_tree_details t) ≡ₚ all_children t.
Proof.
  assert (H : forall ks a, cids (foldl (details_step t) a ks) =
    cids a ++ concat ((fun p => default [] (t !! p)) <$> ks)).
  { induction ks as [|p ks IH]; intros a; simpl; [by rewrite app_nil_r|].
    rewrite IH. simpl. by rewrite <- app_assoc. }
  unfold get_tree_details. rewrite H. simpl. unfold all_children, sorted_keys.
  rewrite isort_perm, <- list_fmap_compose.
  apply reflexive_eq. f_equal. apply list_fmap_ext. intros i [p cs] Hi. simpl.
  apply list_elem_of_lookup_2, elem_of_map_to_list in Hi. by rewrite Hi.
Qed.

Lemma elem_of_cids t c : c ∈ cids (get_tree_details t) <-> exists p, child t p c.
Proof. by rewrite cids_perm, all_children_elem. Qed.

Lemma cids_nodup t : wf_tree t -> NoDup (cids (get_tree_details t)).
Proof. intros [_ H]. by rewrite cids_perm. Qed.

Lemma parents_spec t c p : wf_tree t ->
  parents (get_tree_details t) !! c = Some p <-> child t p c.
Proof.
  intros Hwf. rewrite (di_parents _ _ _ (get_tree_details_inv t Hwf)).
  split; [naive_solver|]. intros H. split; [by eapply child_key|done].
Qed.

Lemma depth_spec t c d : wf_tree t ->
  depth (get_tree_details t) !! c = Some d <-> depth_of t c d.
Proof.
  intros Hwf. pose proof (get_tree_details_inv t Hwf) as Hi. split; [apply Hi|].
  intros H. assert (is_Some (depth (get_tree_details t) !! c)) as [d' Hd'].
  { apply Hi. inversion H; subst; eexists; (split; [by eapply child_key|done]). }
  rewrite Hd'. f_equal. eapply depth_of_det; [exact Hwf| |exact H]. by apply Hi.
Qed.

(** ** The second pass counts descendants *)

Lemma descendant_lt t p d : wf_tree t -> descendant t p d -> p < d.
Proof.
  intros Hwf. induction 1 as [c H|q d _ IH H]; apply (wf_mono _ Hwf) in H; lia.
Qed.

(** A descendant is a child or below one. *)
Lemma descendant_first t p d :
  descendant t p d <-> exists c, child t (Some p) c /\ (d = c \/ descendant t c d).
Proof.
  split.
  - induction 1 as [c H|q d _ (c & Hc & Hq) H]; [by exists c; auto|]. exists c. split; [done|].
    right. destruct Hq as [->|Hq]; [by constructor|by eapply desc_below].
  - intros (c & Hc & [->|Hd]); [by constructor|].
    induction Hd as [d H|q d _ IH H]; (eapply desc_below; [|exact H]); [by constructor|done].
Qed.

(** Two ancestors of a comment are comparable. *)
Lemma descendant_chain t a b d : wf_tree t ->
  d = a \/ descendant t a d -> d = b \/ descendant t b d ->
  a = b \/ descendant t a b \/ descendant t b a.
Proof.
  intros Hwf [->|Ha]; [naive_solver|]. induction Ha as [d H|q d Haq IH H].
  - intros [->|Hb]; [right; left; by constructor|].
    inversion Hb as [? H'|q ? Hbq H']; subst.
    + assert (Some a = Some b) as [= ->] by (by eapply child_unique). by left.
    + assert (Some a = Some q) as [= ->] by (by eapply child_unique). auto.
  - intros [->|Hb]; [right; left; by eapply desc_below|].
    inversion Hb as [? H'|q' ? Hbq H']; subst;
      [assert (Some q = Some b) as [= ->] by (by eapply child_unique)
      |assert (Some q = Some q') as [= ->] by (by eapply child_unique)]; auto.
Qed.

(** The subtrees of two children of one parent are disjoint. *)
Lemma siblings_disjoint t p a b d : wf_tree t -> child t (Some p) a -> child t (Some p) b ->
  d = a \/ descendant t a d -> d = b \/ descendant t b d -> a = b.
Proof.
  intros Hwf Ha Hb Hda Hdb.
  assert (Hno : forall x y, child t (Some p) x -> child t (Some p) y -> ~ descendant t x y).
  { intros x y Hx Hy Hxy. pose proof (wf_mono _ Hwf _ _ Hx).
    inversion Hxy as [? H'|q ? Hq H']; subst.
    - assert (Some p = Some x) as [= ->] by (by eapply child_unique). lia.
    - assert (Some p = Some q) as [= ->] by (by eapply child_unique).
      apply descendant_lt in Hq; [lia|done]. }
  destruct (descendant_chain t a b d) as [|[H|H]]; try done; by apply Hno in H.
Qed.

(** [n] is the size of the subtree below [p]. *)
Definition subtree_size (t : tree) (p : Z) (n : Z) : Prop :=
  exists l, NoDup l /\ (forall d, d ∈ l <-> descendant t p d) /\ n = Z.of_nat (length l).

Lemma subtree_size_leaf t p : (forall c, ~ child t (Some p) c) -> subtree_size t p 0.
Proof.
  intros H. exists []. split_and!; [constructor| |done]. intros d. split; [by intros ?%not_elem_of_nil|].
  intros (c & Hc & _)%descendant_first. by apply H in Hc.
Qed.

(** The size of a comment's subtree from those of its children. *)
Lemma subtree_size_children t p (f : Z -> Z) cs : wf_tree t -> NoDup cs ->
  (forall c, c ∈ cs -> child t (Some p) c /\ subtree_size t c (f c)) ->
  exists l, NoDup l /\ (forall d, d ∈ l <-> exists c, c ∈ cs /\ (d = c \/ descendant t c d)) /\
    zsum_map (fun c => 1 + f c) cs = Z.of_nat (length l).
Proof.
  intros Hwf. induction 1 as [|c cs Hc Hn IH]; intros Hcs.
  - exists []. split_and!; [constructor| |done]. intros d. split; [by intros ?%not_elem_of_nil|].
    intros (c & H & _). by apply not_elem_of_nil in H.
  - destruct IH as (l & Hl & El & Hs); [intros; apply Hcs; by right|].
    destruct (Hcs c) as [Hch (lc & Hlc & Elc & Hfc)]; [left|].
    exists (c :: lc ++ l). split_and!.
    + constructor.
      * rewrite elem_of_app, Elc, El. intros [H%descendant_lt|(c' & Hc' & H)]; [lia|done|].
        destruct (Hcs c') as [Hch' _]; [by right|].
        assert (c = c'); [|by subst]. eapply (siblings_disjoint t p c c' c); auto.
      * apply NoDup_app. split_and!; [done| |done]. intros d Hd (c' & Hc' & H)%El.
        apply Elc in Hd. destruct (Hcs c') as [Hch' _]; [by right|].
        assert (c = c'); [|by subst]. eapply (siblings_disjoint t p c c' d); auto.
    + intros d. rewrite elem_of_cons, elem_of_app, Elc, El. setoid_rewrite elem_of_cons. naive_solver.
    + autorewrite with py. rewrite Hs, Hfc. simpl. rewrite length_app. lia.
Qed.

Lemma children_nodup t p : wf_tree t -> NoDup (default [] (t !! p)).
Proof.
  intros [_ Hn]. destruct (t !! p) as [cs|] eqn:E; simpl; [|constructor].
  unfold all_children in Hn. rewrite <- (map_to_list_delete t p cs E) in Hn. simpl in Hn.
  by apply NoDup_app in Hn as [? _].
Qed.

(** What the second pass has computed after the keys [ks], going down. *)
Definition counts_inv (t : tree) (ks : list parent) (num : gmap Z Z) : Prop :=
  (forall p, is_Some (num !! p) <-> Some p ∈ ks) /\
  forall p n, num !! p = Some n -> subtree_size t p n.

Lemma num_children_step_inv t p ks1 ks2 num : wf_tree t ->
  reverse (sorted_keys t) = ks1 ++ p :: ks2 -> counts_inv t ks1 num ->
  counts_inv t (ks1 ++ [p]) (num_children_step t num p).
Proof.
  intros Hwf Hks [Hdom Hval]. destruct p as [p|]; simpl.
  - assert (Hsz : forall c, child t (Some p) c -> subtree_size t c (default 0 (num !! c))).
    { intros c Hc. destruct (num !! c) as [n|] eqn:E; simpl; [by apply Hval|].
      apply subtree_size_leaf. intros d Hd. assert (is_Some (num !! c)) as [? ?]; [|congruence].
      apply Hdom. apply child_key in Hd. rewrite <- (reverse_involutive (sorted_keys t)), elem_of_reverse in Hd.
      pose proof (sorted_keys_strict t) as Hs. rewrite <- (reverse_involutive (sorted_keys t)) in Hs.
      rewrite Hks in *. apply elem_of_app in Hd as [|Hd]; [done|exfalso].
      assert (p < c) by (by apply (wf_mono _ Hwf)).
      apply elem_of_cons in Hd as [[= <-]|Hd]; [lia|].
      rewrite reverse_app, reverse_cons in Hs.
      apply StronglySorted_app in Hs as (_ & Hs & _).
      apply StronglySorted_app in Hs as (Hs & _ & _).
      assert (key_lt (Some c) (Some p)); [|simpl in *; lia].
      apply Hs; [by apply elem_of_reverse|by left]. }
    split.
    + intros q. rewrite lookup_insert_is_Some, Hdom, elem_of_app, list_elem_of_singleton.
      destruct (decide (p = q)); naive_solver.
    + intros q n. rewrite lookup_insert. destruct (decide (p = q)) as [<-|]; [|apply Hval].
      intros [= <-]. destruct (subtree_size_children t p (fun c => default 0 (num !! c)) (default [] (t !! Some p)))
        as (l & Hl & El & Hlen); [done|by apply children_nodup|intros c Hc; apply child_default in Hc; auto|].
      exists l. split_and!; [done| |done]. intros d. rewrite El, descendant_first.
      by setoid_rewrite child_default.
  - split; [|done]. intros q. rewrite Hdom, elem_of_app, list_elem_of_singleton. naive_solver.
Qed.

Lemma calc_num_children_inv t : wf_tree t -> counts_inv t (reverse (sorted_keys t)) (calc_num_children t).
Proof.
  intros Hwf. unfold calc_num_children.
  assert (H : forall ks2 ks1 num, reverse (sorted_keys t) = ks1 ++ ks2 -> counts_inv t ks1 num ->
    counts_inv t (ks1 ++ ks2) (foldl (num_children_step t) num ks2)).
  { induction ks2 as [|p ks2 IH]; intros ks1 num Hks Hi; simpl; [by rewrite app_nil_r|].
    rewrite cons_middle, app_assoc. apply IH; [by rewrite <- app_assoc|].
    by eapply num_children_step_inv. }
  apply (H _ []); [done|]. split; [|by intros p n; rewrite lookup_empty].
  intros p. rewrite lookup_empty. split; [by intros []|by intros ?%not_elem_of_nil].
Qed.

Lemma num_children_spec t p : wf_tree t ->
  subtree_size t p (num_children_of (get_tree_pieces t) p).
Proof.
  intros Hwf. destruct (calc_num_children_inv t Hwf) as [Hdom Hval].
  unfold num_children_of. simpl. destruct (calc_num_children t !! p) eqn:E; simpl; [by apply Hval|].
  apply subtree_size_leaf. intros c Hc%child_key. rewrite <- elem_of_reverse in Hc.
  apply Hdom in Hc as [? ?]. congruence.
Qed.

(** ** Adding comments *)

Lemma append_comment_child t c p d :
  child (append_comment t c) p d <-> child t p d \/ (p = c_parent c /\ d = c_id c).
Proof.
  rewrite !child_default. unfold append_comment. rewrite lookup_insert.
  destruct (decide (c_parent c = p)) as [<-|Hne]; simpl; [|naive_solver].
  rewrite elem_of_app, list_elem_of_singleton. naive_solver.
Qed.

Lemma append_comment_all t c : all_children (append_comment t c) ≡ₚ c_id c :: all_children t.
Proof.
  unfold append_comment, all_children. destruct (t !! c_parent c) as [cs|] eqn:E; simpl.
  - rewrite <- (map_to_list_delete t _ cs E), <- (insert_delete_eq t).
    rewrite map_to_list_insert by apply lookup_delete_eq. simpl.
    rewrite <- app_assoc. simpl. by rewrite <- Permutation_middle.
  - by rewrite map_to_list_insert by done.
Qed.

Lemma append_comments_child l t p d :
  child (foldl append_comment t l) p d <->
  child t p d \/ exists c, c ∈ l /\ p = c_parent c /\ d = c_id c.
Proof.
  revert t. induction l as [|c l IH]; intros t; simpl.
  - split; [auto|]. intros [|(c & H & _)]; [done|by apply not_elem_of_nil in H].
  - rewrite IH, append_comment_child. setoid_rewrite elem_of_cons. naive_solver.
Qed.

Lemma append_comments_all l t :
  all_children (foldl append_comment t l) ≡ₚ (c_id <$> l) ++ all_children t.
Proof.
  revert t. induction l as [|c l IH]; intros t; simpl; [done|].
  by rewrite IH, append_comment_all, Permutation_middle.
Qed.

(** Comments that can be added: created after their parents, ids unique. *)
Definition created_after_parent (c : comment) : Prop :=
  forall p, c_parent c = Some p -> p < c_id c.

Lemma append_comments_wf l t : wf_tree t -> Forall created_after_parent l ->
  NoDup (c_id <$> l) -> (forall c, c ∈ l -> c_id c ∉ all_children t) ->
  wf_tree (foldl append_comment t l).
Proof.
  intros [Hm Hn] Hc Hl Hd. split.
  - intros p c. rewrite append_comments_child. intros [|(x & Hx & Hp & ->)]; [by apply Hm|].
    rewrite Forall_forall in Hc. by apply (Hc x Hx).
  - rewrite append_comments_all. apply NoDup_app. split_and!; [done| |done].
    intros x Hx. apply list_elem_of_fmap in Hx as (c & -> & Hx). by apply Hd.
Qed.

Section adding.
(** The iteration order of a set of comments is some permutation of it. *)
Context (iter : list comment -> list comment) (iter_perm : forall l, iter l ≡ₚ l).

Lemma elem_of_new_comments t comments c :
  c ∈ new_comments t comments <-> c ∈ comments /\ ~ exists p, child t p (c_id c).
Proof.
  unfold new_comments. rewrite elem_of_remove_dups, elem_of_filter_bool, negb_true_iff.
  rewrite bool_decide_eq_false, elem_of_cids. tauto.
Qed.

(** The store after [add_comments], also when there is nothing to add. *)
Lemma add_comments_load link comments pc pc' orphans :
  add_comments iter link comments pc = Ok (pc', orphans) ->
  load_tree link pc' = foldl append_comment (load_tree link pc) (iter (new_comments (load_tree link pc) comments)).
Proof.
  unfold add_comments, write_tree. destruct (new_comments _ _) as [|c l] eqn:E; simpl.
  - intros [= <- <-]. assert (iter [] = []) as -> by (apply Permutation_nil_r, iter_perm). done.
  - intros [= <- <-]. unfold load_tree at 1. by rewrite lookup_insert_eq.
Qed.

Lemma add_comments_total link comments pc : exists r, add_comments iter link comments pc = Ok r.
Proof. unfold add_comments, write_tree. destruct (new_comments _ _); simpl; eauto. Qed.

Lemma add_comments_child link comments pc pc' orphans p d :
  add_comments iter link comments pc = Ok (pc', orphans) ->
  child (load_tree link pc') p d <->
  child (load_tree link pc) p d \/
  ((~ exists q, child (load_tree link pc) q d) /\
   exists c, c ∈ comments /\ p = c_parent c /\ d = c_id c).
Proof.
  intros ->%add_comments_load. rewrite append_comments_child. f_equiv.
  setoid_rewrite iter_perm. setoid_rewrite elem_of_new_comments. split.
  - intros (c & [Hc Hn] & -> & ->). eauto.
  - intros (Hn & c & Hc & -> & ->). eauto.
Qed.

Lemma add_comments_wf link comments pc pc' orphans :
  wf_tree (load_tree link pc) -> Forall created_after_parent comments ->
  (forall c c', c ∈ comments -> c' ∈ comments -> c_id c = c_id c' -> c = c') ->
  add_comments iter link comments pc = Ok (pc', orphans) -> wf_tree (load_tree link pc').
Proof.
  intros Hwf Hc Hinj ->%add_comments_load. rewrite Forall_forall in Hc.
  apply append_comments_wf; [done|..].
  - rewrite iter_perm. apply Forall_forall. intros c [Hin _]%elem_of_new_comments. by apply Hc.
  - rewrite iter_perm. assert (Hn : NoDup (new_comments (load_tree link pc) comments)).
    { apply NoDup_remove_dups. }
    apply NoDup_fmap_2_strong; [|done].
    intros x y [Hx _]%elem_of_new_comments [Hy _]%elem_of_new_comments. by apply Hinj.
  - intros c. rewrite iter_perm. intros [_ Hno]%elem_of_new_comments. by rewrite all_children_elem.
Qed.

Lemma add_comments_frame link link' comments pc pc' orphans :
  permacache_key link' <> permacache_key link ->
  add_comments iter link comments pc = Ok (pc', orphans) -> load_tree link' pc' = load_tree link' pc.
Proof.
  intros Hne. unfold add_comments, write_tree. destruct (new_comments _ _); simpl; intros [= <- _]; [done|].
  unfold load_tree. by rewrite lookup_insert_ne.
Qed.

(** A queue consumer's successive calls. *)
Definition add_batches (link : Z) (batches : list (list comment)) (pc : permacache) : res permacache :=
  res_foldl (fun pc b => let* r := add_comments iter link b pc in Ok r.1) pc batches.

Lemma add_batches_child link batches pc pc' :
  NoDup (c_id <$> concat batches) -> add_batches link batches pc = Ok pc' ->
  (forall c, c ∈ concat batches -> ~ exists q, child (load_tree link pc) q (c_id c)) ->
  forall p d, child (load_tree link pc') p d <->
  child (load_tree link pc) p d \/ exists c, c ∈ concat batches /\ p = c_parent c /\ d = c_id c.
Proof.
  unfold add_batches. revert pc. induction batches as [|b bs IH]; intros pc Hn H Hnew p d; simpl in *.
  - res_inv. split; [auto|]. intros [|(c & Hc & _)]; [done|by apply not_elem_of_nil in Hc].
  - apply res_bind_Ok in H as (pc1 & H1 & H). apply res_bind_Ok in H1 as ([pc1' o] & H1 & [= ->]).
    simpl in *. rewrite fmap_app in Hn.
    apply NoDup_app in Hn as (Hnb & Hdisj & Hn).
    specialize (IH pc1 Hn H). setoid_rewrite (add_comments_child _ _ _ _ _ _ _ H1) in IH.
    rewrite IH; clear IH.
    + setoid_rewrite elem_of_app. split.
      * intros [[|(_ & c & ?)]|(c & ?)]; naive_solver.
      * intros [|(c & [Hc|Hc] & -> & ->)]; [auto| |eauto].
        left. right. split; [|by eauto]. apply Hnew. apply elem_of_app. auto.
    + intros c Hc (q & [Hq|(_ & c' & Hc' & _ & E)]).
      * apply (Hnew c); [apply elem_of_app; auto|eauto].
      * apply (Hdisj (c_id c)).
        -- rewrite E. by apply list_elem_of_fmap_2.
        -- by apply list_elem_of_fmap_2.
Qed.

Lemma add_batches_ok link batches pc :
  wf_tree (load_tree link pc) -> Forall created_after_parent (concat batches) ->
  NoDup (c_id <$> concat batches) ->
  exists pc', add_batches link batches pc = Ok pc' /\ wf_tree (load_tree link pc').
Proof.
  unfold add_batches. revert pc. induction batches as [|b bs IH]; intros pc Hwf Hp Hn; simpl in *; [eauto|].
  apply Forall_app in Hp as [Hpb Hp]. rewrite fmap_app in Hn. apply NoDup_app in Hn as (Hnb & _ & Hn).
  destruct (add_comments_total link b pc) as [[pc1 o] E]. rewrite E. simpl. apply IH; [|done..].
  eapply add_comments_wf; [exact Hwf|exact Hpb| |exact E]. intros c c' Hc Hc' Heq.
  apply list_elem_of_lookup_1 in Hc as [i Hi]. apply list_elem_of_lookup_1 in Hc' as [j Hj].
  assert (i = j) as ->.
  { eapply (NoDup_lookup (c_id <$> b)); [exact Hnb| |];
      rewrite list_lookup_fmap; [by rewrite Hi|by rewrite Hj, Heq]. }
  congruence.
Qed.
End adding.

(** ** Properties *)

(** The pieces [CommentTree.by_link] computes from a well-formed stored tree
    are right: [cids] lists every comment once, [depth], [parents] and
    [num_children] are the recursive depth, the parent and the number of
    descendants. *)
Theorem by_link_correct link pc (Hwf : wf_tree (load_tree link pc)) :
  let t := load_tree link pc in
  let ct := by_link link pc in
  NoDup (ct_cids ct) /\
  (forall c, c ∈ ct_cids ct <-> exists p, child t p c) /\
  (forall c d, ct_depth ct !! c = Some d <-> depth_of t c d) /\
  (forall c p, ct_parents ct !! c = Some p <-> child t p c) /\
  (forall c, subtree_size t c (num_children_of ct c)).
Proof.
  cbn zeta. split_and!.
  - by apply cids_nodup.
  - apply elem_of_cids.
  - intros c d. by apply depth_spec.
  - intros c p. by apply parents_spec.
  - intros c. by apply num_children_spec.
Qed.

(** [add_comments], on a well-formed tree and comments created after their
    parents and held by one object each, always succeeds, keeps the tree well
    formed, keeps every stored comment under its parent, puts every comment
    not yet stored under its parent, and leaves the other links alone; a
    second call with the same comments writes nothing, whatever the order in
    which the set of new comments is iterated. *)
Theorem add_comments_correct iter link comments pc
    (Hiter : forall l, iter l ≡ₚ l) (Hwf : wf_tree (load_tree link pc))
    (Hparent : Forall created_after_parent comments)
    (Hobj : forall c c', c ∈ comments -> c' ∈ comments -> c_id c = c_id c' -> c = c') :
  exists pc' orphans,
    add_comments iter link comments pc = Ok (pc', orphans) /\
    wf_tree (load_tree link pc') /\
    (forall p d, child (load_tree link pc') p d <->
      child (load_tree link pc) p d \/
      ((~ exists q, child (load_tree link pc) q d) /\
       exists c, c ∈ comments /\ p = c_parent c /\ d = c_id c)) /\
    (forall link', permacache_key link' <> permacache_key link ->
      load_tree link' pc' = load_tree link' pc) /\
    add_comments iter link comments pc' = Ok (pc', []).
Proof.
  destruct (add_comments_total iter link comments pc) as [[pc' o] E]. exists pc', o.
  pose proof (fun p d => add_comments_child iter Hiter link comments pc pc' o p d E) as Hchild.
  split_and!; [done|by eapply add_comments_wf|done| |].
  - intros link' Hne. by eapply add_comments_frame.
  - unfold add_comments. destruct (new_comments (load_tree link pc') comments) as [|c l] eqn:En; [done|].
    exfalso. assert (Hc : c ∈ new_comments (load_tree link pc') comments) by (rewrite En; left).
    apply elem_of_new_comments in Hc as [Hc Hno]. apply Hno.
    destruct (decide (c_id c ∈ all_children (load_tree link pc))) as [Hin|Hout].
    + apply all_children_elem in Hin as [q Hq]. exists q. apply Hchild. by left.
    + exists (c_parent c). apply Hchild. right. rewrite <- all_children_elem. eauto.
Qed.

(** C16. Adding all comments of a link in any batches, starting from nothing,
    stores the same tree, up to the order of siblings, as [rebuild] does from
    a query that returns them all. *)
Theorem batches_equal_rebuild iter link batches rows pc
    (Hiter : forall l, iter l ≡ₚ l) (Hempty : load_tree link pc = ∅)
    (Hparent : Forall created_after_parent (concat batches))
    (Hids : NoDup (c_id <$> concat batches))
    (Hrows : row_comment <$> rows ≡ₚ concat batches)
    (Hpos : forall c p, c ∈ concat batches -> c_parent c = Some p -> p ∈ c_id <$> concat batches) :
  exists pc1 pc2 n,
    add_batches iter link batches pc = Ok pc1 /\
    rebuild link rows pc = Ok (pc2, n) /\
    wf_tree (load_tree link pc1) /\ wf_tree (load_tree link pc2) /\
    forall p, children_of (by_link link pc1) p ≡ₚ children_of (by_link link pc2) p.
Proof.
  assert (Hkept : List.filter (fun r => match c_parent (row_comment r) with
      | Some p => (p =? 0) || bool_decide (p ∈ (fun r => c_id (row_comment r)) <$> rows)
      | None => true end) rows = rows).
  { apply forallb_filter_id, forallb_forall. intros r Hr%list_elem_of_In.
    destruct (c_parent (row_comment r)) as [p|] eqn:Ep; [|done].
    apply orb_true_iff. right. apply bool_decide_eq_true.
    change (p ∈ (c_id ∘ row_comment) <$> rows). rewrite list_fmap_compose, Hrows.
    eapply Hpos; [|exact Ep]. rewrite <- Hrows. by apply list_elem_of_fmap_2. }
  unfold rebuild. rewrite Hkept. unfold rebuild_permacache, write_tree. simpl.
  set (pc2 := <[permacache_key link := _]> pc).
  assert (Hl2 : load_tree link pc2 = foldl append_comment ∅ (row_comment <$> rows)).
  { unfold load_tree, pc2. by rewrite lookup_insert_eq. }
  assert (Hwf0 : wf_tree (∅ : tree)).
  { split; [|constructor]. intros p c (cs & H & _). by rewrite lookup_empty in H. }
  assert (H0 : forall p c, ~ child (∅ : tree) p c).
  { intros p c (cs & H & _). by rewrite lookup_empty in H. }
  assert (Hwf2 : wf_tree (load_tree link pc2)).
  { rewrite Hl2. apply append_comments_wf; [done|by rewrite Hrows|by rewrite Hrows|].
    intros c _ [p H]%all_children_elem. by apply H0 in H. }
  destruct (add_batches_ok iter Hiter link batches pc) as (pc1 & Hb & Hwf1); [by rewrite Hempty|done..|].
  exists pc1, pc2. eexists. split_and!; [done..|]. intros p. unfold children_of, by_link. simpl.
  apply NoDup_Permutation; [by apply children_nodup..|]. intros d.
  rewrite <- !child_default, (add_batches_child iter Hiter link batches pc pc1); [|done..|].
  - rewrite Hempty, Hl2, append_comments_child. by setoid_rewrite Hrows.
  - intros c _ [q Hq]. rewrite Hempty in Hq. by apply H0 in Hq.
Qed.

(** The set of new comments removes duplicates by object, not by id: two
    objects of one comment, which [_calculate_qa_comment_scores] can put into
    the list it is given, are both appended, and the stored tree lists the
    comment twice. *)
Theorem copied_comment_listed_twice :
  (let* r := add_comments id 7 [Comment 1 10 None; Comment 2 10 None] ∅ in
   Ok (ct_cids (by_link 7 r.1))) = Ok [10; 10].
Proof. vm_compute. reflexivity. Qed.

(** ** Witnesses *)

Lemma build_wf l : Forall created_after_parent l -> NoDup (c_id <$> l) ->
  wf_tree (foldl append_comment ∅ l).
Proof.
  intros Hp Hn. apply append_comments_wf; [|done..|].
  - split; [|constructor]. intros p c (cs & H & _). by rewrite lookup_empty in H.
  - intros c _ [p (cs & H & _)]%all_children_elem. by rewrite lookup_empty in H.
Qed.

Definition demo_comments : list comment :=
  [Comment 1 1 None; Comment 2 2 (Some 1); Comment 3 3 (Some 1); Comment 4 4 None; Comment 5 5 (Some 2)].

Definition demo_store : permacache := {[ permacache_key 7 := foldl append_comment ∅ demo_comments ]}.

Lemma demo_created : Forall created_after_parent demo_comments.
Proof. repeat constructor; intros p; simpl; intros [= <-]; lia. Qed.

Lemma demo_store_wf : wf_tree (load_tree 7 demo_store).
Proof.
  unfold load_tree, demo_store. rewrite lookup_singleton_eq. apply build_wf; [apply demo_created|].
  apply (bool_decide_unpack _). vm_compute. exact I.
Qed.

Lemma by_link_correct_witness :
  subtree_size (load_tree 7 demo_store) 1 (num_children_of (by_link 7 demo_store) 1) /\
  num_children_of (by_link 7 demo_store) 1 = 3 /\
  ct_depth (by_link 7 demo_store) !! 5 = Some 2.
Proof.
  split; [apply (by_link_correct 7 demo_store demo_store_wf)|].
  split; vm_compute; reflexivity.
Defined.

Lemma add_comments_correct_witness :
  exists pc' o, add_comments reverse 7 [Comment 6 6 (Some 5); Comment 7 8 (Some 7)] demo_store = Ok (pc', o) /\
    o = [Comment 7 8 (Some 7)] /\ child (load_tree 7 pc') (Some 5) 6.
Proof.
  destruct (add_comments_correct reverse 7 [Comment 6 6 (Some 5); Comment 7 8 (Some 7)] demo_store)
    as (pc' & o & E & _ & Hc & _).
  - apply reverse_Permutation.
  - apply demo_store_wf.
  - repeat constructor; intros p; simpl; intros [= <-]; lia.
  - intros c c' H H'. rewrite !elem_of_cons in H, H'.
    destruct H as [->|[->|H]], H' as [->|[->|H']]; simpl; try done; by apply not_elem_of_nil in H || apply not_elem_of_nil in H'.
  - assert (Eo : (let* r := add_comments reverse 7 [Comment 6 6 (Some 5); Comment 7 8 (Some 7)] demo_store in
      Ok r.2) = Ok [Comment 7 8 (Some 7)]) by (vm_compute; reflexivity).
    exists pc', o. split; [exact E|]. split; [rewrite E in Eo; by injection Eo|].
    apply Hc. right. split.
      * intros [q Hq]. assert (Hin : 6 ∈ all_children (load_tree 7 demo_store)).
        { apply all_children_elem. by exists q. }
        revert Hin. apply (bool_decide_unpack _). vm_compute. exact I.
      * exists (Comment 6 6 (Some 5)). split; [left|done].
Defined.

Lemma batches_equal_rebuild_witness :
  exists pc1 pc2 n,
    add_batches id 7 [[Comment 1 1 None; Comment 2 2 (Some 1)]; [Comment 3 3 None]] ∅ = Ok pc1 /\
    rebuild 7 [CommentRow (Comment 3 3 None) true; CommentRow (Comment 1 1 None) false;
      CommentRow (Comment 2 2 (Some 1)) false] ∅ = Ok (pc2, n) /\ n = 2 /\
    children_of (by_link 7 pc1) None ≡ₚ children_of (by_link 7 pc2) None.
Proof.
  edestruct (batches_equal_rebuild id 7 [[Comment 1 1 None; Comment 2 2 (Some 1)]; [Comment 3 3 None]]
    [CommentRow (Comment 3 3 None) true; CommentRow (Comment 1 1 None) false;
      CommentRow (Comment 2 2 (Some 1)) false] ∅) as (pc1 & pc2 & n & E1 & E2 & _ & _ & H).
  - done.
  - vm_compute. reflexivity.
  - repeat constructor; intros p; simpl; intros [= <-]; lia.
  - apply (bool_decide_unpack _). vm_compute. exact I.
  - simpl. apply (bool_decide_unpack _). vm_compute. exact I.
  - intros c p Hc Hp. apply list_elem_of_In in Hc. simpl in Hc.
    destruct Hc as [<-|[<-|[<-|[]]]]; simpl in Hp; simplify_eq.
    apply (bool_decide_unpack _). vm_compute. exact I.
  - exists pc1, pc2, n. split_and!; [exact E1|exact E2| |apply H].
    assert (En : (let* r := rebuild 7 [CommentRow (Comment 3 3 None) true; CommentRow (Comment 1 1 None) false;
      CommentRow (Comment 2 2 (Some 1)) false] ∅ in Ok r.2) = Ok 2) by (vm_compute; reflexivity).
    rewrite E2 in En. by injection En.
Defined.
End CommentTree.
