(* ===== verification/CommentOrder.v ===== *)
(** * Comment orderers

    r2/models/builder.py, [CommentOrdererBase] to [ChildrenCommentOrderer]: in
    which order, and how many of, the comments of a link are shown.  A heap of
    candidates starts from some comments, and the children of a chosen comment
    become candidates in turn.  The subclasses change where the walk starts
    and what the tree looks like; [CommentOrderer] also keeps computed orders
    in the permacache.

    Scores are numbers of any kind the sorts use; the class [Score] says what
    the orderers rely on.  Python's [heapq] is a list kept in order: only the
    least element and the set of the remaining ones are observed. *)

From S2P Require Import Prelude CommentTree.

Module CommentOrder.
Import CommentTree.

(** ** Data *)

Record comment_tuple := CommentTuple {
  comment_id : Z;
  tuple_depth : Z;
  parent_id : parent;
  num_children : Z;
  child_ids : list Z
}.

#[export] Instance comment_tuple_eq_dec : EqDecision comment_tuple.
Proof. solve_decision. Defined.

(** An element of a computed order: a comment, or the [MissingChildrenTuple]
    for the root level comments left out. *)
Inductive order_item :=
  | Shown (ct : comment_tuple)
  | MissingChildren (num : Z) (ids : gset Z).

#[export] Instance order_item_eq_dec : EqDecision order_item.
Proof. solve_decision. Defined.

(** The classes of r2/lib/db/operators.py; [shuffled] derives from [desc]. *)
Inductive sort_class := asc | desc | shuffled.

#[export] Instance sort_class_eq_dec : EqDecision sort_class.
Proof. solve_decision. Defined.

Record sort := Sort { sort_cls : sort_class; col : string }.

#[export] Instance sort_eq_dec : EqDecision sort.
Proof. solve_decision. Defined.

Definition class_name (c : sort_class) : string :=
  match c with asc => "asc" | desc => "desc" | shuffled => "shuffled" end.

(** [isinstance(sort, operators.desc)]. *)
Definition rev_sort (s : sort) : bool :=
  match sort_cls s with asc => false | _ => true end.

(** Scores: a total order with a negation that reverses it. *)
Class Score (S : Type) := {
  score_leb : S -> S -> bool;
  score_neg : S -> S;
  score_of_id : Z -> S;
  score_leb_total : forall x y, score_leb x y = false -> score_leb y x = true;
  score_leb_trans : forall x y z, score_leb x y = true -> score_leb y z = true -> score_leb x z = true;
  score_neg_leb : forall x y, score_leb (score_neg x) (score_neg y) = score_leb y x;
  score_of_id_leb : forall x y, score_leb (score_of_id x) (score_of_id y) = (x <=? y)
}.

#[export] Program Instance Z_score : Score Z := {|
  score_leb := Z.leb;
  score_neg := Z.opp;
  score_of_id := fun x => x
|}.
Next Obligation. intros; lia. Qed.
Next Obligation. intros; lia. Qed.
Next Obligation. intros; lia. Qed.
Next Obligation. done. Qed.

(** The part of a Link the orderers read. *)
Record link := Link {
  link_id : Z;
  link_id36 : string;
  num_comments : Z;
  sticky_comment_id : option Z;
  responder_ids : gset Z;
  precomputed_sorts : option (gset string);
  suggested_sort : option string
}.

(** Configuration. *)
Record config := Config {
  max_comments_gold : Z;
  MAX_RECURSION : Z;
  voting_upvote_path : string;
  voting_controversial_path : string;
  max_comment_parent_walk : nat;
  precomputed_comment_sort_min_comments : Z;
  precomputed_comment_sorts : gset string;
  precomputed_comment_suggested_sort : bool
}.

Definition SORT_OPERATOR_BY_NAME (g : config) : gmap string sort :=
  <[voting_controversial_path g := Sort desc "_controversy"]>
  (<[voting_upvote_path g := Sort desc "_upvotes"]>
  (list_to_map [("new", Sort desc "_date"); ("old", Sort asc "_date");
    ("confidence", Sort desc "_confidence"); ("qa", Sort desc "_qa"); ("hot", Sort desc "_hot");
    ("top", Sort desc "_score"); ("random", Sort shuffled "_confidence")])).

Section orderer.
Context {S : Type} `{Score S}.

Notation sorter := (gmap Z S).
Notation candidate := (S * Z)%type.

(** ** Scores *)

(** [get_comment_scores]: stored scores, completed by computed ones, which
    are stored too when [should_write]; the second result is the store. *)
Definition get_comment_scores (column : string) (ids : list Z) (should_write : bool)
    (calculate : list Z -> sorter) (stored : sorter) : sorter * sorter :=
  match ids with
  | [] => (∅, stored)
  | _ =>
      if String.eqb column "_date" then
        (list_to_map ((fun c => (c, score_of_id c)) <$> ids), stored)
      else
        let needed := List.filter (fun c => negb (bool_decide (is_Some (stored !! c)))) (remove_dups ids) in
        match needed with
        | [] => (stored, stored)
        | _ =>
            let missing := calculate needed in
            (missing ∪ stored, if should_write then missing ∪ stored else stored)
        end
  end.

(** ** The candidates heap *)

(** Tuples compare first by the sort value, then by the id. *)
Definition cand_leb (a b : candidate) : bool :=
  if score_leb a.1 b.1
  then if score_leb b.1 a.1 then a.2 <=? b.2 else true
  else false.

Definition heappush (c : candidate) (heap : list candidate) : list candidate := insert_by cand_leb c heap.

Definition sort_val (rev : bool) (s : S) : S := if rev then score_neg s else s.

Definition update_candidates (rev : bool) (so : sorter) (to_add : list Z) (candidates : list candidate)
  : list candidate :=
  foldl (fun h c => match so !! c with Some s => heappush (sort_val rev s, c) h | None => h end)
    candidates to_add.

(** ** The base class *)

(** What a subclass of [CommentOrdererBase] defines. *)
Record orderer := Orderer {
  modify_comment_tree : comment_tree -> res comment_tree;
  get_initial_candidates : comment_tree -> res (list Z * Z);
  get_initial_comment_list : comment_tree -> list comment_tuple
}.

Record limits := Limits { max_comments : Z; max_depth : Z }.

(** One iteration of the selection loop, on the popped candidate. *)
Definition pick_one (ct : comment_tree) (rev : bool) (so : sorter) (lim : limits) (offset_depth : Z)
    (c : candidate) (st : list candidate * list comment_tuple)
  : res (list candidate * list comment_tuple) :=
  let '(candidates, tuples) := st in
  if negb (bool_decide (c.2 ∈ ct_cids ct)) then Ok (candidates, tuples) else
  let* d := of_option KeyError (ct_depth ct !! c.2) in
  let comment_depth := d - offset_depth in
  if max_depth lim <=? comment_depth then Ok (candidates, tuples) else
  let children := children_of ct (Some c.2) in
  let* p := of_option KeyError (ct_parents ct !! c.2) in
  let tuples := tuples ++ [CommentTuple c.2 comment_depth p (num_children_of ct c.2) children] in
  Ok (if comment_depth + 1 <? max_depth lim then update_candidates rev so children candidates else candidates,
      tuples).

(** [while candidates and len(comment_tuples) < self.max_comments]. *)
Fixpoint pick_loop (ct : comment_tree) (rev : bool) (so : sorter) (lim : limits) (offset_depth : Z)
    (fuel : nat) (candidates : list candidate) (tuples : list comment_tuple)
  : res (list candidate * list comment_tuple) :=
  match fuel, candidates with
  | O, _ | _, [] => Ok (candidates, tuples)
  | Datatypes.S fuel, c :: candidates' =>
      if Z.of_nat (length tuples) <? max_comments lim then
        let* st := pick_one ct rev so lim offset_depth c (candidates', tuples) in
        pick_loop ct rev so lim offset_depth fuel st.1 st.2
      else Ok (candidates, tuples)
  end.

(** Enough iterations for any tree: an iteration either drops a candidate or
    shows a comment, and one that shows a comment adds at most all children. *)
Definition pick_fuel (ct : comment_tree) (lim : limits) (candidates : list candidate)
    (tuples : list comment_tuple) : nat :=
  ((Z.to_nat (max_comments lim) - length tuples) * (1 + length (all_children (ct_tree ct)))
   + length candidates)%nat.

(** [random.shuffle] of the top level scores. *)
Definition shuffle_top_level (shuffle : list S -> list S) (ct : comment_tree) (so : sorter) : res sorter :=
  let top_level_ids := children_of ct None in
  let* scores := res_mapM (fun c => of_option KeyError (so !! c)) top_level_ids in
  Ok (list_to_map (zip top_level_ids (shuffle scores)) ∪ so).

Definition top_level_not_visible (ct : comment_tree) (offset_depth : Z) (candidates : list candidate) : gset Z :=
  list_to_set (List.filter (fun c => default 0 (ct_depth ct !! c) - offset_depth =? 0) candidates.*2).

(** The [MissingChildrenTuple] at the end, if any. *)
Definition missing_items (ct : comment_tree) (missing : gset Z) : list order_item :=
  if bool_decide (missing = ∅) then []
  else [MissingChildren (zsum_map (fun c => 1 + num_children_of ct c) (elements missing)) missing].

Definition finish_order (ct : comment_tree) (offset_depth : Z) (candidates : list candidate)
    (tuples : list comment_tuple) : list order_item :=
  (Shown <$> tuples) ++ missing_items ct (top_level_not_visible ct offset_depth candidates).

(** The scores used: the given ones, or with those of the top level comments
    shuffled among them. *)
Definition effective_sorter (s : sort) (shuffle : list S -> list S) (ct : comment_tree) (so : sorter)
  : res sorter :=
  if bool_decide (sort_cls s = shuffled) then shuffle_top_level shuffle ct so else Ok so.

(** [CommentOrdererBase.get_comment_order], from the stored tree and the
    scores of its comments. *)
Definition base_comment_order (o : orderer) (s : sort) (lim : limits) (shuffle : list S -> list S)
    (ct : comment_tree) (so : sorter) : res (list order_item) :=
  let* so := effective_sorter s shuffle ct so in
  let* ct := modify_comment_tree o ct in
  let* init := get_initial_candidates o ct in
  let '(initial_candidates, offset_depth) := init in
  let tuples := get_initial_comment_list o ct in
  let initial_candidates :=
    List.filter (fun c => negb (bool_decide (c ∈ comment_id <$> tuples))) initial_candidates in
  let candidates := update_candidates (rev_sort s) so initial_candidates [] in
  let* st := pick_loop ct (rev_sort s) so lim offset_depth
               (pick_fuel ct lim candidates tuples) candidates tuples in
  Ok (finish_order ct offset_depth st.1 st.2).

(** ** CommentOrderer *)

(** [min(depths)] over a non-empty list. *)
Definition min_depth (ct : comment_tree) (ids : list Z) : res Z :=
  let* ds := res_mapM (fun c => of_option KeyError (ct_depth ct !! c)) ids in
  Ok (match ds with [] => 0 | d :: ds => foldl Z.min d ds end).

Definition root_candidates (ct : comment_tree) : res (list Z * Z) :=
  let initial_candidates := children_of ct None in
  match initial_candidates with
  | [] => Ok ([], 0)
  | _ => let* offset := min_depth ct initial_candidates in Ok (initial_candidates, offset)
  end.

Definition sticky_list (l : link) (ct : comment_tree) : list comment_tuple :=
  match sticky_comment_id l with
  | None => []
  | Some sticky =>
      if sticky =? 0 then [] else
      if bool_decide (sticky ∈ children_of ct None)
      then [CommentTuple sticky 0 None (num_children_of ct sticky) (children_of ct (Some sticky))]
      else []
  end.

Definition CommentOrderer (l : link) : orderer := Orderer Ok root_candidates (sticky_list l).

Definition cache_key (l : link) (s : sort) : string :=
  "order:" +:+ link_id36 l +:+ "_" +:+ class_name (sort_cls s) +:+ col s.

Notation orders := (gmap string (list order_item)).

Definition should_read_cache (g : config) (l : link) (s : sort) : bool :=
  match precomputed_sorts l with
  | None => false
  | Some names =>
      existsb (fun n => bool_decide (SORT_OPERATOR_BY_NAME g !! n = Some s)) (elements names)
  end.

Definition is_shown (it : order_item) : bool := match it with Shown _ => true | _ => false end.

(** The last element, when it is a [MissingChildrenTuple], is popped. *)
Definition pop_missing (l : list order_item) : list order_item * gset Z * Z :=
  match last l with
  | Some (MissingChildren n ids) => (take (length l - 1) l, ids, n)
  | _ => (l, ∅, 0)
  end.

Definition item_depth (it : order_item) : option Z :=
  match it with Shown t => Some (tuple_depth t) | _ => None end.

(** The comments at depth 0 of a list of items. *)
Definition roots_of (l : list order_item) : list comment_tuple :=
  omap (fun it => match it with
                  | Shown t => if tuple_depth t =? 0 then Some t else None
                  | _ => None
                  end) l.

(** [read_cache].  The list comes from the permacache's local cache, which
    hands out the object it keeps: [pop] and, when neither filter made a copy,
    [append] change the cached list; the second result is that list. *)
Definition read_cached (g : config) (lim : limits) (cached : list order_item)
  : list order_item * list order_item :=
  let '(comment_tuples, missing, num_missing) := pop_missing cached in
  let popped := comment_tuples in
  let copied := max_depth lim <? MAX_RECURSION g in
  let comment_tuples :=
    if copied
    then List.filter (fun it => match item_depth it with Some d => d <? max_depth lim | None => false end)
           comment_tuples
    else comment_tuples in
  let long := max_comments lim <? Z.of_nat (length comment_tuples) in
  let beyond := roots_of (drop (Z.to_nat (max_comments lim)) comment_tuples) in
  let missing := if long then missing ∪ list_to_set (comment_id <$> beyond) else missing in
  let num_missing :=
    if long then num_missing + zsum_map (fun t => 1 + num_children t) beyond else num_missing in
  let comment_tuples := if long then take (Z.to_nat (max_comments lim)) comment_tuples else comment_tuples in
  let tail := if bool_decide (missing = ∅) then [] else [MissingChildren num_missing missing] in
  (comment_tuples ++ tail, if copied || long then popped else popped ++ tail).

Definition read_cache (g : config) (l : link) (s : sort) (lim : limits) (pc : orders)
  : list order_item * orders :=
  match pc !! cache_key l s with
  | None | Some [] => ([], pc)
  | Some cached =>
      let '(order, cached) := read_cached g lim cached in
      (order, <[cache_key l s := cached]> pc)
  end.

(** ** QACommentOrderer *)

(** What [Comment._byID(ids, data=True)] is read for. *)
Record qa_comment := QAComment {
  qa_author : Z;
  qa_parent : option Z;
  distinguished : option string
}.

(** [Comment._byID]: an error when one of the ids is unknown. *)
Definition comments_by_id (attrs : gmap Z qa_comment) (ids : list Z) : res (gmap Z qa_comment) :=
  let* cs := res_mapM (fun c => let* a := of_option NotFound (attrs !! c) in Ok (c, a)) ids in
  Ok (list_to_map cs).

(** Truth of an optional id. *)
Definition truthy (p : option Z) : option Z :=
  match p with Some q => if q =? 0 then None else Some q | None => None end.

(** Whether a comment is kept for itself, not as an ancestor. *)
Definition qa_keeps (responders : gset Z) (cs : gmap Z qa_comment) (t : comment_tuple) : res bool :=
  if tuple_depth t =? 0 then Ok true else
  let* c := of_option KeyError (cs !! comment_id t) in
  let* par := match truthy (qa_parent c) with
              | Some q => let* pc := of_option KeyError (cs !! q) in Ok (Some pc)
              | None => Ok None
              end in
  Ok (bool_decide (qa_author c ∈ responders) ||
      match par with Some pc => bool_decide (qa_author pc ∈ responders) | None => false end ||
      match distinguished c with Some d => negb (String.eqb d "no") | None => false end).

Definition qa_kept_ids (responders : gset Z) (cs : gmap Z qa_comment) (tuples : list comment_tuple)
  : res (gset Z) :=
  res_foldl (fun kept t =>
    let* b := qa_keeps responders cs t in Ok (if b then {[comment_id t]} ∪ kept else kept)) ∅ tuples.

(** The [while] loop over a kept comment's ancestors. *)
Fixpoint qa_walk (cs : gmap Z qa_comment) (counter : nat) (par : option Z) (kept : gset Z) : res (gset Z) :=
  match truthy par, counter with
  | None, _ | _, O => Ok kept
  | Some p, Datatypes.S counter =>
      if bool_decide (p ∈ kept) then Ok kept else
      let* c := of_option KeyError (cs !! p) in
      qa_walk cs counter (qa_parent c) ({[p]} ∪ kept)
  end.

Definition qa_add_ancestors (walk : nat) (cs : gmap Z qa_comment) (kept : gset Z) : res (gset Z) :=
  res_foldl (fun kept c =>
    let* a := of_option KeyError (cs !! c) in qa_walk cs walk (qa_parent a) kept)
    kept (zsort (elements kept)).

Definition shown_of (l : list order_item) : list comment_tuple :=
  omap (fun it => match it with Shown t => Some t | _ => None end) l.

Definition missing_of (l : list order_item) : list order_item :=
  match last l with Some (MissingChildren n ids) => [MissingChildren n ids] | _ => [] end.

Definition qa_filter (g : config) (l : link) (attrs : gmap Z qa_comment) (order : list order_item)
  : res (list order_item) :=
  match order with
  | [] => Ok []
  | _ =>
      let tuples := shown_of order in
      let* cs := comments_by_id attrs (comment_id <$> tuples) in
      let* kept := qa_kept_ids (responder_ids l) cs tuples in
      let* kept := qa_add_ancestors (max_comment_parent_walk g) cs kept in
      Ok ((Shown <$> List.filter (fun t => bool_decide (comment_id t ∈ kept)) tuples) ++ missing_of order)
  end.

(** ** The two cached orderers *)

Inductive orderer_class := Plain | QA.

(** [_get_comment_order] of [CommentOrderer] and of [QACommentOrderer]. *)
Definition compute_order (cls : orderer_class) (g : config) (l : link) (s : sort) (lim : limits)
    (shuffle : list S -> list S) (attrs : gmap Z qa_comment) (ct : comment_tree) (so : sorter)
  : res (list order_item) :=
  let* order := base_comment_order (CommentOrderer l) s lim shuffle ct so in
  match cls with Plain => Ok order | QA => qa_filter g l attrs order end.

Definition cache_limits (g : config) : limits := Limits (max_comments_gold g) (MAX_RECURSION g).

Definition write_cache (cls : orderer_class) (g : config) (l : link) (s : sort)
    (shuffle : list S -> list S) (attrs : gmap Z qa_comment) (ct : comment_tree) (so : sorter)
    (pc : orders) : res orders :=
  let* order := compute_order cls g l s (cache_limits g) shuffle attrs ct so in
  let key := cache_key l s in
  Ok (if bool_decide (order = default [] (pc !! key)) then pc else <[key := order]> pc).

Definition get_comment_order (cls : orderer_class) (g : config) (l : link) (s : sort) (lim : limits)
    (shuffle : list S -> list S) (attrs : gmap Z qa_comment) (ct : comment_tree) (so : sorter)
    (pc : orders) : res (list order_item * orders) :=
  if num_comments l <=? 0 then Ok ([], pc)
  else if should_read_cache g l s then Ok (read_cache g l s lim pc)
  else let* order := compute_order cls g l s lim shuffle attrs ct so in Ok (order, pc).

Definition get_active_sort_orders_for_link (g : config) (l : link) : gset string :=
  let min_comments := precomputed_comment_sort_min_comments g in
  if (min_comments <=? 0) || (num_comments l <? min_comments) then ∅ else
  let active := precomputed_comment_sorts g in
  if precomputed_comment_suggested_sort g then
    match suggested_sort l with
    | Some name => if String.eqb name "" then active else {[name]} ∪ active
    | None => active
    end
  else active.

(** [write_comment_orders], with the scores of each sort; the second result
    is the new [link.precomputed_sorts]. *)
Definition write_comment_orders (g : config) (l : link) (shuffle : list S -> list S)
    (attrs : gmap Z qa_comment) (ct : comment_tree) (scores : sort -> sorter) (pc : orders)
  : res (orders * option (gset string)) :=
  let* st := res_foldl (fun st sort_name =>
    match SORT_OPERATOR_BY_NAME g !! sort_name with
    | None => Ok st
    | Some s =>
        let cls := if String.eqb sort_name "qa" then QA else Plain in
        let* pc := write_cache cls g l s shuffle attrs ct (scores s) st.1 in
        Ok (pc, {[sort_name]} ∪ st.2)
    end) (pc, (∅ : gset string)) (elements (get_active_sort_orders_for_link g l)) in
  Ok (st.1, if bool_decide (st.2 = ∅) then None else Some st.2).

(** ** PermalinkCommentOrderer *)

(** [while comment_id and len(path) <= context], with [steps] left. *)
Fixpoint path_up (ct : comment_tree) (steps : nat) (c : option Z) (path : list Z) : res (list Z) :=
  match steps, truthy c with
  | O, _ | _, None => Ok path
  | Datatypes.S steps, Some c =>
      match ct_parents ct !! c with
      | None => Raise InconsistentCommentTreeError
      | Some p => path_up ct steps p (path ++ [c])
      end
  end.

Definition get_path_to_comment (c : Z) (context : Z) (ct : comment_tree) : res (list Z) :=
  if negb (bool_decide (c ∈ ct_cids ct)) then Raise InconsistentCommentTreeError else
  let* path := path_up ct (Z.to_nat (context + 1)) (Some c) [] in
  Ok (reverse path).

(** One step of [modify_comment_tree]: the parent leads only to the comment. *)
Definition prune_to (ct : comment_tree) (c : Z) : res comment_tree :=
  let* p := of_option KeyError (ct_parents ct !! c) in
  let t := <[p := [c]]> (ct_tree ct) in
  let n := match p with
           | Some q => <[q := num_children_of ct c + 1]> (ct_num_children ct)
           | None => ct_num_children ct
           end in
  Ok (CTree (ct_cids ct) t (ct_depth ct) (ct_parents ct) n).

Definition prune_path (c context : Z) (ct : comment_tree) : res comment_tree :=
  let* path := get_path_to_comment c context ct in
  res_foldl prune_to ct (reverse path).

Definition permalink_candidates (c context : Z) (ct : comment_tree) : res (list Z * Z) :=
  let* path := get_path_to_comment c context ct in
  let* root := of_option IndexError (head path) in
  let* d := of_option KeyError (ct_depth ct !! root) in
  Ok ([root], d).

Definition PermalinkCommentOrderer (c context : Z) : orderer :=
  Orderer (prune_path c context) (permalink_candidates c context) (fun _ => []).

(** The tree dictionary is the object the permacache's local cache keeps:
    what [modify_comment_tree] leaves in it is what later reads in the same
    request see. *)
Definition permalink_order (c context : Z) (s : sort) (lim : limits) (shuffle : list S -> list S)
    (t : gmap parent (list Z)) (so : sorter) : res (list order_item * gmap parent (list Z)) :=
  let ct := get_tree_pieces t in
  let* order := base_comment_order (PermalinkCommentOrderer c context) s lim shuffle ct so in
  let* ct := prune_path c context ct in
  Ok (order, ct_tree ct).

(** ** ChildrenCommentOrderer *)

Definition children_candidates (requested : list Z) (ct : comment_tree) : res (list Z * Z) :=
  let children := List.filter (fun c => bool_decide (is_Some (ct_depth ct !! c))) requested in
  match children with
  | [] => Ok ([], 0)
  | _ =>
      let* d := min_depth ct children in
      Ok (List.filter (fun c => bool_decide (ct_depth ct !! c = Some d)) children, 0)
  end.

Definition ChildrenCommentOrderer (requested : list Z) : orderer :=
  Orderer Ok (children_candidates requested) (fun _ => []).
End orderer.
End CommentOrder.
