(* ===== verification/OrderProps.v ===== *)
(** * Properties of the comment orderers

    The selection loop yields the greedy order: every comment shown is the
    best of those whose parents were shown before it.  Greedy orders are
    prefixes of each other, so a cached order cut to a smaller limit is the
    order computed for that limit. *)

From S2P Require Import Prelude CommentTree CommentOrder.

Module OrderProps.
Import CommentTree CommentOrder.

Section heap.
Context {S : Type} `{Score S}.

Lemma cand_leb_total (a b : S * Z) : cand_leb a b = false -> cand_leb b a = true.
Proof.
  unfold cand_leb. destruct (score_leb a.1 b.1) eqn:E1, (score_leb b.1 a.1) eqn:E2; try done.
  - intros. lia.
  - apply score_leb_total in E1. congruence.
Qed.

Lemma cand_leb_trans (a b c : S * Z) : cand_leb a b = true -> cand_leb b c = true -> cand_leb a c = true.
Proof.
  unfold cand_leb. destruct (score_leb a.1 b.1) eqn:E1; [|done].
  destruct (score_leb b.1 c.1) eqn:E2; [|by destruct (score_leb b.1 a.1)].
  rewrite (score_leb_trans _ _ _ E1 E2). destruct (score_leb c.1 a.1) eqn:E3.
  - rewrite (score_leb_trans _ _ _ E2 E3), (score_leb_trans _ _ _ E3 E1). lia.
  - done.
Qed.

(** Only equal ids tie. *)
Lemma cand_leb_antisym (a b : S * Z) : cand_leb a b = true -> cand_leb b a = true -> a.2 = b.2.
Proof.
  unfold cand_leb. destruct (score_leb a.1 b.1), (score_leb b.1 a.1); try done. lia.
Qed.

Definition entries (rev : bool) (so : gmap Z S) (ids : list Z) : list (S * Z) :=
  omap (fun c => (fun s => (sort_val rev s, c)) <$> so !! c) ids.

Lemma update_candidates_perm rev so ids h : update_candidates rev so ids h ≡ₚ entries rev so ids ++ h.
Proof.
  unfold update_candidates. revert h. induction ids as [|c ids IH]; intros h; simpl; [done|].
  rewrite IH. destruct (so !! c) as [s|]; simpl; [|done].
  unfold heappush. by rewrite insert_by_perm, Permutation_middle.
Qed.

Lemma update_candidates_sorted rev so ids h :
  StronglySorted (leP cand_leb) h -> StronglySorted (leP cand_leb) (update_candidates rev so ids h).
Proof.
  unfold update_candidates. revert h. induction ids as [|c ids IH]; intros h Hs; simpl; [done|].
  apply IH. destruct (so !! c); [|done].
  apply insert_by_sorted; [apply cand_leb_total|apply cand_leb_trans|done].
Qed.

Lemma elem_of_entries rev so ids (e : S * Z) :
  e ∈ entries rev so ids <-> e.2 ∈ ids /\ exists s, so !! e.2 = Some s /\ e.1 = sort_val rev s.
Proof.
  unfold entries. rewrite list_elem_of_omap. split.
  - intros (c & Hc & Heq). destruct (so !! c) as [s|] eqn:Es; [|done]. injection Heq as <-. simpl. eauto.
  - intros (Hin & s & Es & Ev). exists e.2. split; [done|]. rewrite Es. simpl. destruct e. simpl in *. by subst.
Qed.

Lemma entries_ids_nodup rev so ids : NoDup ids -> NoDup (entries rev so ids).*2.
Proof.
  induction 1 as [|c ids Hc Hn IH]; [constructor|]. unfold entries in *. simpl.
  destruct (so !! c) as [s|]; simpl; [|done]. constructor; [|done].
  rewrite list_elem_of_fmap. intros (e & -> & He%elem_of_entries). by destruct He.
Qed.
End heap.

(** ** The selection loop *)

(** What the loop relies on: the pieces of a tree fit together. *)
Record ct_ok (ct : comment_tree) : Prop := CtOk {
  ok_depth : forall c, c ∈ ct_cids ct -> is_Some (ct_depth ct !! c);
  ok_parent : forall c, c ∈ ct_cids ct -> is_Some (ct_parents ct !! c);
  ok_nodup : forall p, NoDup (children_of ct p);
  ok_link : forall p d, d ∈ children_of ct p -> ct_parents ct !! d = Some p;
  ok_up : forall p d, ct_parents ct !! d = Some p -> d ∈ ct_cids ct /\
    forall k, match p with Some c => ct_depth ct !! c = Some k | None => k = -1 end ->
    ct_depth ct !! d = Some (k + 1)
}.

Lemma ok_child ct c d : ct_ok ct -> d ∈ children_of ct (Some c) ->
  d ∈ ct_cids ct /\ ct_parents ct !! d = Some (Some c) /\
  forall k, ct_depth ct !! c = Some k -> ct_depth ct !! d = Some (k + 1).
Proof.
  intros Hok Hd%(ok_link _ Hok). destruct (ok_up _ Hok _ _ Hd) as [Hc Hk]. auto.
Qed.

Lemma pieces_ok t : wf_tree t -> ct_ok (get_tree_pieces t).
Proof.
  intros Hwf. split; simpl.
  - intros c. rewrite elem_of_cids. intros [p Hp]. apply (get_tree_details_inv t Hwf). exists p.
    split; [by eapply child_key|done].
  - intros c. rewrite elem_of_cids. intros [p Hp]. exists p. by apply parents_spec.
  - intros p. by apply children_nodup.
  - intros p d Hd. apply parents_spec; [done|]. by apply child_default.
  - intros p d Hd. apply parents_spec in Hd; [|done]. split; [apply elem_of_cids; by exists p|].
    intros k. rewrite (depth_spec t d) by done. destruct p as [c|].
    + rewrite depth_spec by done. by apply depth_below.
    + intros ->. by eapply depth_top.
Qed.

Section loop.
Context {S : Type} `{Score S}.
Context (ct : comment_tree) (rev : bool) (so : gmap Z S) (lim : limits) (off : Z).
Context (Hok : ct_ok ct).

(** The comments the walk starts from, those placed before it, and their
    common depth. *)
Context (init : list Z) (first : list comment_tuple) (d0 : Z).
Context (Hinit : NoDup ((comment_id <$> first) ++ init)).
Context (Hd0 : forall c, c ∈ (comment_id <$> first) ++ init -> ct_depth ct !! c = Some d0).

Notation ids l := (comment_id <$> l).

(** What can be shown after [l] was. *)
Definition avail (l : list comment_tuple) (c : Z) : Prop :=
  c ∈ init \/ exists t, t ∈ l /\ c ∈ child_ids t /\ tuple_depth t + 1 < max_depth lim.

Definition eligible (c : Z) : Prop :=
  is_Some (so !! c) /\ c ∈ ct_cids ct /\ exists d, ct_depth ct !! c = Some d /\ d - off < max_depth lim.

Definition key_le (x y : Z) : Prop :=
  forall sx sy, so !! x = Some sx -> so !! y = Some sy ->
  cand_leb (sort_val rev sx, x) (sort_val rev sy, y) = true.

(** [x] is the best comment to show after [l]. *)
Definition best (l : list comment_tuple) (x : Z) : Prop :=
  avail l x /\ eligible x /\ x ∉ ids l /\
  forall y, avail l y -> eligible y -> y ∉ ids l -> key_le x y.

Definition greedy (l : list comment_tuple) : Prop :=
  forall l1 t l2, l = l1 ++ t :: l2 -> best l1 (comment_id t).

(** A tuple that says of its comment what the tree says. *)
Definition accurate (t : comment_tuple) : Prop :=
  ct_depth ct !! comment_id t = Some (tuple_depth t + off) /\
  tuple_depth t < max_depth lim /\ d0 <= tuple_depth t + off /\
  ct_parents ct !! comment_id t = Some (parent_id t) /\
  num_children t = num_children_of ct (comment_id t) /\
  child_ids t = children_of ct (Some (comment_id t)).

Record pick_inv (l : list comment_tuple) (cands : list (S * Z)) : Prop := PickInv {
  pi_sorted : StronglySorted (leP cand_leb) cands;
  pi_nodup : NoDup (ids first ++ ids l ++ cands.*2);
  pi_key : forall c, c ∈ cands -> exists s, so !! c.2 = Some s /\ c.1 = sort_val rev s;
  pi_avail : forall c, c ∈ cands -> avail l c.2;
  pi_complete : forall c, eligible c -> avail l c -> c ∉ ids l -> c ∈ cands.*2;
  pi_accurate : forall t, t ∈ l -> accurate t;
  pi_greedy : greedy l
}.

Lemma avail_mono l l' c : avail l c -> avail (l ++ l') c.
Proof. intros [|(t & Ht & Hc)]; [by left|]. right. exists t. rewrite elem_of_app. auto. Qed.

Lemma greedy_avail l c : greedy l -> c ∈ ids l -> avail l c.
Proof.
  intros Hg (t & -> & Ht)%list_elem_of_fmap. apply list_elem_of_split in Ht as (l1 & l2 & ->).
  apply avail_mono. by apply (Hg l1 t l2).
Qed.

(** Where an available comment is: at the start, or a child of a shown one. *)
Lemma avail_depth l c : (forall t, t ∈ l -> accurate t) -> avail l c ->
  (c ∈ init /\ ct_depth ct !! c = Some d0) \/
  exists t, t ∈ l /\ ct_parents ct !! c = Some (Some (comment_id t)) /\
    ct_depth ct !! c = Some (tuple_depth t + off + 1) /\ d0 <= tuple_depth t + off.
Proof.
  intros Hacc [Hc|(t & Ht & Hc & _)].
  - left. split; [done|]. apply Hd0, elem_of_app. by right.
  - right. exists t. destruct (Hacc t Ht) as (Hd & _ & Hge & _ & _ & Hch). rewrite Hch in Hc.
    apply (ok_child _ _ _ Hok) in Hc as (_ & Hp & Hk). auto.
Qed.

Lemma snoc_split {A} (l l1 l2 : list A) x t :
  l ++ [x] = l1 ++ t :: l2 -> (l = l1 /\ t = x) \/ exists l3, l2 = l3 ++ [x] /\ l = l1 ++ t :: l3.
Proof.
  destruct l2 as [|y l2 _] using rev_ind.
  - intros [-> [= ->]]%app_inj_tail. auto.
  - rewrite app_comm_cons, app_assoc. intros [-> ->]%app_inj_tail. right. by exists l2.
Qed.

Lemma greedy_snoc l t : greedy l -> best l (comment_id t) -> greedy (l ++ [t]).
Proof.
  intros Hg Hb l1 x l2 [[-> ->]|(l3 & -> & E)]%snoc_split; [done|]. by eapply Hg.
Qed.

Lemma cand_key_le l cands v c y : pick_inv l ((v, c) :: cands) ->
  y ∈ ((v, c) :: cands).*2 -> key_le c y.
Proof.
  intros Hi (e & -> & He)%list_elem_of_fmap sx sy Ex Ey.
  destruct (pi_key _ _ Hi (v, c)) as (s & Es & Ev); [left|]. simpl in *.
  destruct (pi_key _ _ Hi e He) as (s' & Es' & Ev'). simplify_eq.
  destruct e as [w y]. simpl in *. subst w.
  pose proof (pi_sorted _ _ Hi) as Hs. apply StronglySorted_cons in Hs as [Hf _].
  apply elem_of_cons in He as [[= <- <-]|He].
  - destruct (cand_leb _ _) eqn:E; [done|]. pose proof (cand_leb_total _ _ E). congruence.
  - rewrite Forall_forall in Hf. apply Is_true_true. by apply (Hf _ He).
Qed.

(** Dropping a candidate that cannot be shown. *)
Lemma pick_inv_drop l cands c : pick_inv l (c :: cands) -> ~ eligible c.2 -> pick_inv l cands.
Proof.
  intros [Hs Hn Hk Ha Hc Hacc Hg] Hne. split; [..|done|done].
  - by apply StronglySorted_cons in Hs as [_ Hs].
  - rewrite app_assoc in *. simpl in Hn. rewrite <- Permutation_middle, NoDup_cons in Hn.
    by destruct Hn.
  - intros. apply Hk. by right.
  - intros. apply Ha. by right.
  - intros y Hy Hav Hni. specialize (Hc y Hy Hav Hni). simpl in Hc.
    apply elem_of_cons in Hc as [->|]; [done|done].
Qed.

Definition pushed (t : comment_tuple) : list Z :=
  if tuple_depth t + 1 <? max_depth lim then child_ids t else [].

Lemma avail_snoc l t c : avail (l ++ [t]) c <-> avail l c \/ c ∈ pushed t.
Proof.
  unfold avail, pushed. setoid_rewrite elem_of_app. setoid_rewrite list_elem_of_singleton.
  destruct (tuple_depth t + 1 <? max_depth lim) eqn:E; split.
  - intros [|(x & [Hx| ->] & Hc & Hd)]; naive_solver.
  - intros [[|(x & Hx & Hc)]|Hc]; [auto|eauto 6|]. right. exists t. split_and!; [auto|done|lia].
  - intros [|(x & [Hx| ->] & Hc & Hd)]; [auto|eauto 6|lia].
  - intros [[|(x & Hx & Hc)]|Hc%not_elem_of_nil]; [auto|eauto 6|done].
Qed.

(** The children of a comment being shown are new. *)
Lemma pushed_new l cands v c t d : pick_inv l ((v, c) :: cands) -> comment_id t = c -> accurate t ->
  d ∈ pushed t -> d ∉ ids first /\ d ∉ ids l /\ d <> c /\ d ∉ cands.*2.
Proof.
  intros Hi Et (Htd & _ & Hge & _ & _ & Hch) Hd.
  assert (Hc : d ∈ children_of ct (Some c)).
  { unfold pushed in Hd. rewrite Hch, Et in Hd. destruct (_ <? _); [done|by apply not_elem_of_nil in Hd]. }
  apply (ok_child _ _ _ Hok) in Hc as (_ & Hp & Hk). rewrite Et in Htd. specialize (Hk _ Htd).
  pose proof (pi_nodup _ _ Hi) as Hn. simpl in Hn. apply NoDup_app in Hn as (_ & _ & Hn).
  apply NoDup_app in Hn as (_ & Hdisj & _).
  assert (Hnav : ~ avail l d).
  { intros [[_ H0]|(t' & Ht' & Hp' & _)]%avail_depth; [..|apply (pi_accurate _ _ Hi)].
    - rewrite Hk in H0. injection H0. lia.
    - rewrite Hp in Hp'. injection Hp' as Hp'. apply (Hdisj c); [|left].
      rewrite Hp'. by apply list_elem_of_fmap_2. }
  split_and!.
  - intros Hf. rewrite (Hd0 d) in Hk by (apply elem_of_app; by left). injection Hk. lia.
  - intros Hl. apply Hnav, greedy_avail; [apply Hi|done].
  - intros ->. rewrite Htd in Hk. injection Hk. lia.
  - intros (e & -> & He)%list_elem_of_fmap. apply Hnav, (pi_avail _ _ Hi). by right.
Qed.

Lemma pushed_nodup t : accurate t -> NoDup (pushed t).
Proof.
  intros (_ & _ & _ & _ & _ & Hch). unfold pushed. rewrite Hch.
  destruct (_ <? _); [apply (ok_nodup _ Hok)|constructor].
Qed.

Lemma pick_inv_nodup l cands v c t : pick_inv l ((v, c) :: cands) -> comment_id t = c -> accurate t ->
  NoDup (ids first ++ ids (l ++ [t]) ++ (entries rev so (pushed t) ++ cands).*2).
Proof.
  intros Hi Et Hacc. rewrite !fmap_app. simpl. rewrite Et.
  assert (Hperm : ids first ++ (ids l ++ [c]) ++ (entries rev so (pushed t)).*2 ++ cands.*2 ≡ₚ
    (entries rev so (pushed t)).*2 ++ ids first ++ ids l ++ (c :: cands.*2)).
  { rewrite <- app_assoc. simpl. solve_Permutation. }
  rewrite Hperm. apply NoDup_app. split_and!; [by apply entries_ids_nodup, pushed_nodup| |apply Hi].
  intros d (e & -> & [He _]%elem_of_entries)%list_elem_of_fmap.
  destruct (pushed_new _ _ _ _ _ _ Hi Et Hacc He) as (H1 & H2 & H3 & H4).
  rewrite !elem_of_app, elem_of_cons. tauto.
Qed.

(** Showing the least candidate. *)
Lemma pick_inv_show l cands v c t : pick_inv l ((v, c) :: cands) -> eligible c ->
  comment_id t = c -> accurate t ->
  pick_inv (l ++ [t])
    (if tuple_depth t + 1 <? max_depth lim then update_candidates rev so (child_ids t) cands else cands).
Proof.
  intros Hi He Et Hacc. set (cands' := if _ <? _ then _ else _).
  assert (Hperm : cands' ≡ₚ entries rev so (pushed t) ++ cands).
  { unfold cands', pushed. destruct (_ <? _); [apply update_candidates_perm|done]. }
  pose proof (pi_nodup _ _ Hi) as Hn. simpl in Hn. apply NoDup_app in Hn as (_ & _ & Hn).
  apply NoDup_app in Hn as (_ & Hd & _).
  assert (Hsorted : StronglySorted (leP cand_leb) cands).
  { pose proof (pi_sorted _ _ Hi) as Hs. by apply StronglySorted_cons in Hs as [_ Hs]. }
  split.
  - unfold cands'. destruct (_ <? _); [by apply update_candidates_sorted|done].
  - rewrite Hperm. by eapply pick_inv_nodup.
  - intros e. rewrite Hperm, elem_of_app, elem_of_entries. intros [[_ ?]|]; [done|].
    apply (pi_key _ _ Hi). by right.
  - intros e. rewrite Hperm, elem_of_app, elem_of_entries, avail_snoc. intros [[? _]|]; [by right|].
    left. apply (pi_avail _ _ Hi). by right.
  - intros y Hy. rewrite avail_snoc, Hperm, fmap_app, elem_of_app, fmap_app, elem_of_app. simpl.
    rewrite list_elem_of_singleton, Et. intros [Hav|Hp] Hny.
    + right. assert (Hin : y ∈ ((v, c) :: cands).*2) by (apply (pi_complete _ _ Hi); tauto).
      apply elem_of_cons in Hin as [->|]; [tauto|done].
    + left. destruct Hy as ([s Es] & _). apply list_elem_of_fmap. exists (sort_val rev s, y).
      split; [done|]. apply elem_of_entries. eauto.
  - intros x [Hx| ->%list_elem_of_singleton]%elem_of_app; [by apply (pi_accurate _ _ Hi)|done].
  - apply greedy_snoc; [apply Hi|]. rewrite Et. split_and!.
    + apply (pi_avail _ _ Hi (v, c)). left.
    + done.
    + intros Hc. apply (Hd c Hc). left.
    + intros y Hy Hey Hny. eapply cand_key_le; [exact Hi|]. by eapply pi_complete.
Qed.

Lemma pick_inv_init : pick_inv [] (update_candidates rev so init []).
Proof.
  assert (Hperm : update_candidates rev so init [] ≡ₚ entries rev so init).
  { by rewrite update_candidates_perm, app_nil_r. }
  apply NoDup_app in Hinit as (Hf & Hd & Hi). split.
  - apply update_candidates_sorted. constructor.
  - rewrite Hperm. simpl. apply NoDup_app. split_and!; [done| |by apply entries_ids_nodup].
    intros c Hc (e & -> & [He _]%elem_of_entries)%list_elem_of_fmap. by apply (Hd _ Hc).
  - intros e. rewrite Hperm, elem_of_entries. by intros [_ ?].
  - intros e. rewrite Hperm, elem_of_entries. intros [? _]. by left.
  - intros c ([s Es] & _) [Hc|(t & Ht & _)] _; [|by apply not_elem_of_nil in Ht].
    rewrite Hperm. apply list_elem_of_fmap. exists (sort_val rev s, c). split; [done|].
    apply elem_of_entries. eauto.
  - intros t Ht. by apply not_elem_of_nil in Ht.
  - intros l1 t l2 E. by destruct l1.
Qed.

Lemma children_length p : (length (children_of ct p) <= length (all_children (ct_tree ct)))%nat.
Proof.
  unfold children_of, all_children. destruct (ct_tree ct !! p) as [cs|] eqn:E; simpl; [|lia].
  rewrite <- (map_to_list_delete (ct_tree ct) p cs E). simpl. rewrite length_app. lia.
Qed.

Lemma entries_length (r : bool) cs : (length (entries r so cs) <= length cs)%nat.
Proof.
  unfold entries. induction cs as [|c cs IH]; simpl; [lia|].
  destruct (so !! c); simpl; [by apply le_n_S, IH|by apply le_S, IH].
Qed.

Definition measure (l : list comment_tuple) (cands : list (S * Z)) : nat :=
  pick_fuel ct lim cands (first ++ l).

(** One iteration keeps the invariant and comes closer to the end. *)
Lemma pick_one_spec l c cands : pick_inv l (c :: cands) ->
  Z.of_nat (length (first ++ l)) < max_comments lim ->
  exists l' cands', pick_one ct rev so lim off c (cands, first ++ l) = Ok (cands', first ++ l') /\
    pick_inv l' cands' /\ (measure l' cands' < measure l (c :: cands))%nat /\
    (length l' <= 1 + length l)%nat.
Proof.
  intros Hi Hlen. destruct c as [v c]. unfold pick_one. simpl.
  destruct (pi_key _ _ Hi (v, c)) as (s & Es & _); [left|]. simpl in Es.
  case_bool_decide as Hc; simpl.
  2: { exists l, cands. split_and!; [done| |unfold measure, pick_fuel; simpl; lia|lia].
       eapply pick_inv_drop; [exact Hi|]. by intros (_ & ? & _). }
  destruct (ok_depth _ Hok c Hc) as [d Ed], (ok_parent _ Hok c Hc) as [p Ep]. rewrite Ed, Ep. simpl.
  destruct (max_depth lim <=? d - off) eqn:Hd; simpl.
  { exists l, cands. split_and!; [done| |unfold measure, pick_fuel; simpl; lia|lia].
    eapply pick_inv_drop; [exact Hi|]. intros (_ & _ & d' & Ed' & Hd'). simpl in *. simplify_eq. lia. }
  set (t := CommentTuple c (d - off) p (num_children_of ct c) (children_of ct (Some c))).
  exists (l ++ [t]). eexists. rewrite <- app_assoc. split; [done|].
  assert (Hacc : accurate t).
  { unfold accurate, t; simpl. split_and!; try done; [by replace (d - off + off) with d by lia|lia|].
    destruct (avail_depth l c) as [[_ E]|(t' & _ & _ & E & Hge)].
    - apply (pi_accurate _ _ Hi).
    - apply (pi_avail _ _ Hi (v, c)). left.
    - simplify_eq. lia.
    - simplify_eq. lia. }
  split_and!.
  - apply (pick_inv_show l cands v c t Hi); [|done|done].
    split_and!; [by eexists|done|]. exists d. split; [done|lia].
  - unfold measure, pick_fuel. rewrite !length_app in *. simpl.
    set (N := length (all_children (ct_tree ct))).
    assert (Hle : (length (if (d - off + 1 <? max_depth lim)%Z
      then update_candidates rev so (children_of ct (Some c)) cands else cands) <= N + length cands)%nat).
    { destruct (_ <? _); [|lia]. rewrite update_candidates_perm, length_app.
      pose proof (entries_length rev (children_of ct (Some c))). pose proof (children_length (Some c)).
      unfold N. lia. }
    replace (Z.to_nat (max_comments lim) - (length first + length l))%nat
      with (Datatypes.S (Z.to_nat (max_comments lim) - (length first + (length l + 1)))) by lia.
    lia.
  - rewrite length_app. simpl. lia.
Qed.

(** The loop ends with the candidates exhausted or the limit reached. *)
Lemma pick_loop_spec fuel l cands : pick_inv l cands -> (measure l cands <= fuel)%nat ->
  exists l' cands', pick_loop ct rev so lim off fuel cands (first ++ l) = Ok (cands', first ++ l') /\
    pick_inv l' cands' /\
    (cands' = [] \/ max_comments lim <= Z.of_nat (length (first ++ l'))) /\
    (l' = l \/ Z.of_nat (length (first ++ l')) <= max_comments lim).
Proof.
  revert l cands. induction fuel as [|fuel IH]; intros l cands Hi Hf.
  - assert (cands = []) as ->.
    { unfold measure, pick_fuel in Hf. apply Nat.le_0_r, Nat.eq_add_0 in Hf as [_ Hf].
      by destruct cands. }
    exists l, []. simpl. auto.
  - destruct cands as [|c cands]; cbn [pick_loop]; [exists l, []; auto|].
    destruct (Z.of_nat (length (first ++ l)) <? max_comments lim) eqn:Hl.
    2: { exists l, (c :: cands). split_and!; [done|done|right; lia|auto]. }
    destruct (pick_one_spec l c cands Hi) as (l1 & cands1 & -> & Hi1 & Hm & Hlen); [lia|]. cbn [res_bind fst snd].
    destruct (IH l1 cands1 Hi1) as (l2 & cands2 & -> & Hi2 & Hex & Hle); [lia|].
    exists l2, cands2. split_and!; [done..|]. right.
    destruct Hle as [->|]; [|done]. apply Z.ltb_lt in Hl. rewrite length_app in Hl |- *. lia.
Qed.

(** Greedy orders agree as far as both go. *)
Lemma best_unique l x y : best l x -> best l y -> x = y.
Proof.
  intros (Hax & Hex & Hnx & Hx) (Hay & Hey & Hny & Hy).
  destruct Hex as ([sx Ex] & Hex), Hey as ([sy Ey] & Hey).
  assert (eligible x) by (split; [by eexists|done]). assert (eligible y) by (split; [by eexists|done]).
  pose proof (Hx y Hay ltac:(done) Hny sx sy Ex Ey). pose proof (Hy x Hax ltac:(done) Hnx sy sx Ey Ex).
  by eapply (cand_leb_antisym (sort_val rev sx, x) (sort_val rev sy, y)).
Qed.

Lemma accurate_unique t t' : accurate t -> accurate t' -> comment_id t = comment_id t' -> t = t'.
Proof.
  intros (H1 & _ & _ & H2 & H3 & H4) (H1' & _ & _ & H2' & H3' & H4') E. rewrite E in *.
  destruct t as [i d p n c], t' as [i' d' p' n' c']. simpl in *. rewrite H1 in H1'. rewrite H2 in H2'.
  assert (d = d') by (injection H1'; lia). congruence.
Qed.

Lemma greedy_prefix l l' : greedy l -> greedy l' ->
  (forall t, t ∈ l -> accurate t) -> (forall t, t ∈ l' -> accurate t) ->
  (length l <= length l')%nat -> l = take (length l) l'.
Proof.
  intros Hg Hg' Ha Ha'. revert l' Hg' Ha'. induction l as [|t l IH] using rev_ind; intros l' Hg' Ha' Hlen.
  { done. }
  rewrite length_app in *. simpl in *.
  assert (E : l = take (length l) l').
  { apply IH; [|by intros; apply Ha, elem_of_app; left|done|done|lia].
    intros l1 x l2 ->. apply (Hg l1 x (l2 ++ [t])). by rewrite <- app_assoc. }
  destruct (lookup_lt_is_Some_2 l' (length l)) as [t' Ht']; [lia|].
  rewrite Nat.add_1_r, (take_S_r _ _ t') by done. rewrite <- E. f_equal. f_equal.
  apply accurate_unique.
  - apply Ha, elem_of_app. right. left.
  - apply Ha'. by eapply list_elem_of_lookup_2.
  - apply (best_unique l).
    + by apply (Hg l t []).
    + apply (Hg' l t' (drop (Datatypes.S (length l)) l')). rewrite E at 1. by rewrite take_drop_middle.
Qed.
End loop.

Section orders.
Context {S : Type} `{Score S}.

Notation ids l := (comment_id <$> l).

(** The walk every orderer makes, once its starting points are known. *)
Lemma walk_spec ct rev (so : gmap Z S) lim off init first d0 :
  ct_ok ct -> NoDup (ids first ++ init) ->
  (forall c, c ∈ ids first ++ init -> ct_depth ct !! c = Some d0) ->
  exists l cands,
    pick_loop ct rev so lim off (pick_fuel ct lim (update_candidates rev so init []) first)
      (update_candidates rev so init []) first = Ok (cands, first ++ l) /\
    pick_inv ct rev so lim off init first d0 l cands /\
    (cands = [] \/ max_comments lim <= Z.of_nat (length (first ++ l))) /\
    (l = [] \/ Z.of_nat (length (first ++ l)) <= max_comments lim).
Proof.
  intros Hok Hn Hd.
  destruct (pick_loop_spec ct rev so lim off Hok init first d0 Hd
    (pick_fuel ct lim (update_candidates rev so init []) first) []
    (update_candidates rev so init [])) as (l & cands & E & Hi & Hrest).
  - by apply pick_inv_init.
  - unfold measure. by rewrite app_nil_r.
  - rewrite app_nil_r in E. eauto.
Qed.

(** ** CommentOrderer *)

Definition roots (lk : link) (ct : comment_tree) : list Z :=
  List.filter (fun c => negb (bool_decide (c ∈ ids (sticky_list lk ct)))) (children_of ct None).

Lemma root_depth ct c : ct_ok ct -> c ∈ children_of ct None -> ct_depth ct !! c = Some 0.
Proof. intros Hok Hc%(ok_link _ Hok). apply (ok_up _ Hok) in Hc as [_ Hk]. by apply (Hk (-1)). Qed.

Lemma min_depth_const ct cs d : cs <> [] -> (forall c, c ∈ cs -> ct_depth ct !! c = Some d) ->
  min_depth ct cs = Ok d.
Proof.
  intros Hne Hd. unfold min_depth.
  assert (E : res_mapM (fun c => of_option KeyError (ct_depth ct !! c)) cs = Ok (replicate (length cs) d)).
  { clear Hne. induction cs as [|c cs IH]; simpl; [done|]. rewrite (Hd c) by left. simpl.
    rewrite IH; [done|]. intros. apply Hd. by right. }
  rewrite E. simpl. destruct cs as [|c cs]; [done|]. simpl. f_equal. clear.
  induction (length cs) as [|n IH]; simpl; [done|]. by rewrite Z.min_id.
Qed.

Lemma root_candidates_ok ct : ct_ok ct -> root_candidates ct = Ok (children_of ct None, 0).
Proof.
  intros Hok. unfold root_candidates. destruct (children_of ct None) as [|c cs] eqn:E; [done|].
  rewrite (min_depth_const ct (c :: cs) 0); [done|done|]. rewrite <- E. intros. by apply root_depth.
Qed.

Lemma sticky_root lk ct c : c ∈ ids (sticky_list lk ct) -> c ∈ children_of ct None.
Proof.
  unfold sticky_list. destruct (sticky_comment_id lk) as [st|]; [|by intros ?%not_elem_of_nil].
  destruct (st =? 0); [by intros ?%not_elem_of_nil|]. case_bool_decide; [|by intros ?%not_elem_of_nil].
  simpl. by intros ->%list_elem_of_singleton.
Qed.

Lemma sticky_nodup lk ct : NoDup (ids (sticky_list lk ct)).
Proof.
  unfold sticky_list. destruct (sticky_comment_id lk) as [st|]; [|constructor].
  destruct (st =? 0); [constructor|]. case_bool_decide; [apply NoDup_singleton|constructor].
Qed.

Lemma roots_start lk ct : ct_ok ct ->
  NoDup (ids (sticky_list lk ct) ++ roots lk ct) /\
  forall c, c ∈ ids (sticky_list lk ct) ++ roots lk ct -> ct_depth ct !! c = Some 0.
Proof.
  intros Hok. unfold roots. split.
  - apply NoDup_app. split_and!; [apply sticky_nodup| |].
    + intros c Hc [Hn%negb_true_iff _]%elem_of_filter_bool. by apply bool_decide_eq_false in Hn.
    + apply NoDup_filter_bool, (ok_nodup _ Hok).
  - intros c [Hc%sticky_root|[_ Hc]%elem_of_filter_bool]%elem_of_app; by apply root_depth.
Qed.

Definition hidden_roots (lk : link) (ct : comment_tree) (so : gmap Z S) (l : list comment_tuple) : gset Z :=
  list_to_set (List.filter (fun c => bool_decide (is_Some (so !! c)) && negb (bool_decide (c ∈ ids l)))
    (roots lk ct)).

(** What the comments chosen after the sticky one are. *)
Record plain_order (lk : link) (ct : comment_tree) (rev : bool) (so : gmap Z S) (lim : limits)
    (l : list comment_tuple) : Prop := PlainOrder {
  po_greedy : greedy ct rev so lim 0 (roots lk ct) l;
  po_accurate : forall t, t ∈ l -> accurate ct lim 0 0 t;
  po_nodup : NoDup (ids (sticky_list lk ct ++ l));
  po_limit : l = [] \/ Z.of_nat (length (sticky_list lk ct ++ l)) <= max_comments lim;
  po_full : max_comments lim <= Z.of_nat (length (sticky_list lk ct ++ l)) \/
    forall c, eligible ct so lim 0 c -> avail lim (roots lk ct) l c -> c ∈ ids l
}.

Lemma elem_of_hidden_roots lk ct (so : gmap Z S) l c :
  c ∈ hidden_roots lk ct so l <-> is_Some (so !! c) /\ c ∉ ids l /\ c ∈ roots lk ct.
Proof.
  unfold hidden_roots. rewrite elem_of_list_to_set, elem_of_filter_bool, andb_true_iff, negb_true_iff.
  rewrite bool_decide_eq_true, bool_decide_eq_false. tauto.
Qed.

Lemma root_eligible lk ct (so : gmap Z S) lim c : ct_ok ct -> 1 <= max_depth lim ->
  c ∈ roots lk ct -> is_Some (so !! c) -> eligible ct so lim 0 c.
Proof.
  intros Hok Hm Hc Hs. split_and!; [done| |].
  - apply elem_of_filter_bool in Hc as [_ Hc]. apply (ok_link _ Hok) in Hc. by apply (ok_up _ Hok) in Hc as [? _].
  - exists 0. split; [|lia]. apply (roots_start lk ct Hok). apply elem_of_app. by right.
Qed.

(** Only the starting points are at depth 0. *)
Lemma depth_zero_root lk ct lim l c : ct_ok ct -> (forall t, t ∈ l -> accurate ct lim 0 0 t) ->
  avail lim (roots lk ct) l c -> ct_depth ct !! c = Some 0 -> c ∈ roots lk ct.
Proof.
  intros Hok Hacc Hav Hd. destruct (roots_start lk ct Hok) as [_ Hd0].
  destruct (avail_depth ct lim 0 Hok (roots lk ct) (sticky_list lk ct) 0 Hd0 l c Hacc Hav)
    as [[? _]|(t & _ & _ & E & Hge)]; [done|]. rewrite Hd in E. injection E. lia.
Qed.

Lemma hidden_roots_spec lk ct rev (so : gmap Z S) lim l cands : ct_ok ct -> 1 <= max_depth lim ->
  pick_inv ct rev so lim 0 (roots lk ct) (sticky_list lk ct) 0 l cands ->
  top_level_not_visible ct 0 cands = hidden_roots lk ct so l.
Proof.
  intros Hok Hm Hi. apply set_eq. intros c. rewrite elem_of_hidden_roots. unfold top_level_not_visible.
  rewrite elem_of_list_to_set, elem_of_filter_bool, Z.sub_0_r, Z.eqb_eq. split.
  - intros [Hd Hc]. pose proof (pi_nodup _ _ _ _ _ _ _ _ _ _ Hi) as Hn.
    apply NoDup_app in Hn as (_ & _ & Hn). apply NoDup_app in Hn as (_ & Hn & _).
    pose proof Hc as (e & -> & He)%list_elem_of_fmap.
    destruct (pi_key _ _ _ _ _ _ _ _ _ _ Hi e He) as (s & Es & _).
    pose proof (pi_avail _ _ _ _ _ _ _ _ _ _ Hi e He) as Hav.
    split_and!; [by eexists|intros Hl; by apply (Hn _ Hl)|].
    eapply depth_zero_root; [done|apply Hi|exact Hav|].
    destruct (avail_depth ct lim 0 Hok (roots lk ct) (sticky_list lk ct) 0) with (l := l) (c := e.2)
      as [[_ E]|(t & _ & _ & E & _)]; [apply roots_start, Hok|apply Hi|done|done|].
    rewrite E in Hd |- *. simpl in Hd. by rewrite Hd.
  - intros (Hs & Hl & Hr). split.
    + destruct (roots_start lk ct Hok) as [_ Hd0]. rewrite (Hd0 c); [done|]. apply elem_of_app. by right.
    + apply (pi_complete _ _ _ _ _ _ _ _ _ _ Hi); [by eapply root_eligible|by left|done].
Qed.

Lemma plain_order_spec lk ct s lim shuffle (so so' : gmap Z S) :
  ct_ok ct -> 1 <= max_depth lim -> effective_sorter s shuffle ct so = Ok so' ->
  exists l, plain_order lk ct (rev_sort s) so' lim l /\
    base_comment_order (CommentOrderer lk) s lim shuffle ct so =
      Ok ((Shown <$> (sticky_list lk ct ++ l)) ++ missing_items ct (hidden_roots lk ct so' l)).
Proof.
  intros Hok Hm Hso. unfold base_comment_order. rewrite Hso. simpl. rewrite root_candidates_ok by done. simpl.
  fold (roots lk ct). destruct (roots_start lk ct Hok) as [Hn Hd].
  destruct (walk_spec ct (rev_sort s) so' lim 0 (roots lk ct) (sticky_list lk ct) 0 Hok Hn Hd)
    as (l & cands & E & Hi & Hfull & Hlim). rewrite E. simpl.
  exists l. split.
  - split; [apply Hi|apply Hi| |done|].
    + pose proof (pi_nodup _ _ _ _ _ _ _ _ _ _ Hi) as Hnd. rewrite fmap_app. rewrite app_assoc in Hnd.
      by apply NoDup_app in Hnd as [? _].
    + destruct Hfull as [->|]; [|by left]. right. intros c Hel Hav.
      destruct (decide (c ∈ ids l)) as [|Hc]; [done|].
      pose proof (pi_complete _ _ _ _ _ _ _ _ _ _ Hi c Hel Hav Hc) as Hc'. by apply not_elem_of_nil in Hc'.
  - unfold finish_order. by erewrite hidden_roots_spec.
Qed.

(** ** Orders for two limits *)

Section two_limits.
Context (lk : link) (ct : comment_tree) (rev : bool) (so : gmap Z S) (m1 m2 md : Z) (l1 l2 : list comment_tuple).
Context (Hok : ct_ok ct) (Hle : m1 <= m2) (Hm1 : 1 <= m1).
Context (H1 : plain_order lk ct rev so (Limits m1 md) l1) (H2 : plain_order lk ct rev so (Limits m2 md) l2).

(** An exhausted order does not go on. *)
Lemma exhausted_end (l l' : list comment_tuple) m :
  (forall c, eligible ct so (Limits m md) 0 c -> avail (Limits m md) (roots lk ct) l c -> c ∈ ids l) ->
  greedy ct rev so (Limits m md) 0 (roots lk ct) l' -> l = take (length l) l' -> l = l'.
Proof.
  intros Hex Hg Hp. destruct (drop (length l) l') as [|t r] eqn:E.
  - rewrite Hp at 1. rewrite <- (take_drop (length l) l') at 2. by rewrite E, app_nil_r.
  - exfalso. destruct (Hg l t r) as (Hav & Hel & Hn & _).
    + rewrite <- (take_drop (length l) l') at 1. by rewrite E, <- Hp.
    + by apply Hn, Hex.
Qed.

Lemma two_orders_prefix : l1 = take (length l1) l2.
Proof.
  destruct H1 as [G1 A1 _ L1 F1], H2 as [G2 A2 _ L2 F2].
  destruct (Nat.le_gt_cases (length l1) (length l2)) as [Hlen|Hlen].
  { by apply (greedy_prefix ct rev so (Limits m1 md) 0 (roots lk ct) 0). }
  assert (Hp : l2 = take (length l2) l1).
  { apply (greedy_prefix ct rev so (Limits m1 md) 0 (roots lk ct) 0); [done..|lia]. }
  destruct F2 as [F2|F2].
  - rewrite !length_app in *. simpl in *. destruct L1 as [->|L1]; simpl in *; lia.
  - pose proof (exhausted_end l2 l1 m2 F2 G1 Hp). subst. lia.
Qed.

Lemma sticky_length : (length (sticky_list lk ct) <= 1)%nat.
Proof.
  unfold sticky_list. destruct (sticky_comment_id lk) as [st|]; [|simpl; lia].
  destruct (st =? 0); [simpl; lia|]. case_bool_decide; simpl; lia.
Qed.

(** The shorter order is the longer one cut at its limit. *)
Lemma two_orders_take : sticky_list lk ct ++ l1 = take (Z.to_nat m1) (sticky_list lk ct ++ l2).
Proof.
  pose proof two_orders_prefix as Hp. destruct H1 as [_ _ _ L1 F1], H2 as [G2 _ _ _ _]. simpl in *.
  pose proof sticky_length as Hst. rewrite take_app. rewrite length_app in *.
  assert (E : l1 = take (Z.to_nat m1 - length (sticky_list lk ct)) l2).
  { destruct F1 as [F1|F1].
    - replace (Z.to_nat m1 - length (sticky_list lk ct))%nat with (length l1); [done|].
      destruct L1 as [->|L1]; simpl in *; lia.
    - pose proof (exhausted_end l1 l2 m1 F1 G2 Hp) as <-. rewrite take_ge; [done|].
      destruct L1 as [->|L1]; simpl in *; lia. }
  rewrite <- E. f_equal. rewrite take_ge; [done|lia].
Qed.

Definition beyond : list comment_tuple :=
  List.filter (fun t => tuple_depth t =? 0) (drop (Z.to_nat m1) (sticky_list lk ct ++ l2)).

Lemma orders_split : sticky_list lk ct ++ l2 = (sticky_list lk ct ++ l1) ++ drop (Z.to_nat m1) (sticky_list lk ct ++ l2).
Proof. rewrite two_orders_take. by rewrite take_drop. Qed.

Lemma drop_tail : l2 = l1 ++ drop (Z.to_nat m1) (sticky_list lk ct ++ l2).
Proof. pose proof orders_split as E. rewrite <- app_assoc in E. by apply app_inv_head in E. Qed.

Lemma beyond_nodup : NoDup (ids beyond).
Proof.
  unfold beyond. pose proof (po_nodup _ _ _ _ _ _ H2) as Hn. rewrite orders_split, fmap_app in Hn.
  apply NoDup_app in Hn as (_ & _ & Hn). generalize dependent (drop (Z.to_nat m1) (sticky_list lk ct ++ l2)).
  clear. induction l as [|t l IH]; simpl; [done|]. intros [Hd Hn]%NoDup_cons.
  destruct (tuple_depth t =? 0); simpl; [|by apply IH]. constructor; [|by apply IH].
  intros (t' & Et & [_ Ht']%elem_of_filter_bool)%list_elem_of_fmap. apply Hd. rewrite Et.
  by apply list_elem_of_fmap_2.
Qed.

Lemma elem_of_beyond c : c ∈ ids beyond <-> c ∈ ids l2 /\ c ∉ ids l1 /\ c ∈ roots lk ct.
Proof.
  destruct H2 as [G2 A2 N2 _ _]. unfold beyond. split.
  - intros (t & -> & [Hz Ht]%elem_of_filter_bool)%list_elem_of_fmap. apply Z.eqb_eq in Hz.
    assert (Ht2 : t ∈ l2) by (rewrite drop_tail; apply elem_of_app; by right).
    split_and!; [by apply list_elem_of_fmap_2| |].
    + intros Hl1. rewrite orders_split, !fmap_app in N2. apply NoDup_app in N2 as (_ & N2 & _).
      apply (N2 (comment_id t)); [apply elem_of_app; by right|by apply list_elem_of_fmap_2].
    + apply (depth_zero_root lk ct (Limits m2 md) l2); [done|done| |].
      * eapply greedy_avail; [exact G2|by apply list_elem_of_fmap_2].
      * destruct (A2 t Ht2) as (E & _). by rewrite E, Hz.
  - intros ((t & -> & Ht)%list_elem_of_fmap & Hn & Hr). apply list_elem_of_fmap_2.
    apply elem_of_filter_bool. split.
    + destruct (A2 t Ht) as (E & _). destruct (roots_start lk ct Hok) as [_ Hd].
      rewrite Hd in E by (apply elem_of_app; by right). injection E. lia.
    + rewrite drop_tail in Ht. apply elem_of_app in Ht as [Ht|]; [|done].
      destruct Hn. by apply list_elem_of_fmap_2.
Qed.

(** The roots hidden by the smaller limit: those hidden by the larger one and
    those cut off. *)
Lemma hidden_roots_cut :
  hidden_roots lk ct so l1 = hidden_roots lk ct so l2 ∪ list_to_set (ids beyond) /\
  hidden_roots lk ct so l2 ## (list_to_set (ids beyond) : gset Z).
Proof.
  assert (Hsub : forall c, c ∈ ids l1 -> c ∈ ids l2).
  { intros c Hc. rewrite drop_tail, fmap_app. apply elem_of_app. by left. }
  destruct H2 as [G2 _ _ _ _]. split.
  - apply set_eq. intros c. rewrite elem_of_union, elem_of_list_to_set, !elem_of_hidden_roots, elem_of_beyond.
    split.
    + intros (Hs & Hn & Hr). destruct (decide (c ∈ ids l2)); auto.
    + intros [(? & Hn & ?)|(Hin & Hn & Hr)]; [eauto 6|]. split_and!; [|done|done].
      apply list_elem_of_fmap in Hin as (t & -> & Ht). apply list_elem_of_split in Ht as (a & b & E).
      by destruct (G2 a t b E) as (_ & [? _] & _).
  - intros c Hc. rewrite elem_of_list_to_set, elem_of_beyond. apply elem_of_hidden_roots in Hc. tauto.
Qed.

Definition weight (c : Z) : Z := 1 + num_children_of ct c.

Lemma pop_missing_items (tuples : list comment_tuple) M :
  pop_missing ((Shown <$> tuples) ++ missing_items ct M) =
    (Shown <$> tuples, M, zsum_map weight (elements M)).
Proof.
  unfold pop_missing, missing_items. case_bool_decide as HM.
  - subst M. rewrite app_nil_r, elements_empty. destruct tuples as [|t tuples _] using rev_ind; [done|].
    rewrite fmap_app. simpl. by rewrite last_snoc.
  - rewrite last_snoc, length_app. simpl. rewrite Nat.add_sub, take_app_length. done.
Qed.

Lemma roots_of_shown (tuples : list comment_tuple) :
  roots_of (Shown <$> tuples) = List.filter (fun t => tuple_depth t =? 0) tuples.
Proof.
  unfold roots_of. induction tuples as [|t l IH]; simpl; [done|].
  destruct (tuple_depth t =? 0); simpl; by rewrite <- IH.
Qed.

Lemma beyond_weight : zsum_map (fun t => 1 + num_children t) beyond = zsum_map weight (ids beyond).
Proof.
  unfold zsum_map at 2. rewrite <- list_fmap_compose. apply zsum_map_ext. intros t Ht.
  unfold weight. simpl. apply elem_of_filter_bool in Ht as [_ Ht].
  assert (Hin : t ∈ l2) by (rewrite drop_tail; apply elem_of_app; by right).
  destruct (po_accurate _ _ _ _ _ _ H2 t Hin) as (_ & _ & _ & _ & E & _). by rewrite E.
Qed.

(** Cutting the cached order to [m1] gives the order for [m1]. *)
Lemma read_cached_cut g : MAX_RECURSION g <= md ->
  (read_cached g (Limits m1 md)
    ((Shown <$> (sticky_list lk ct ++ l2)) ++ missing_items ct (hidden_roots lk ct so l2))).1 =
  (Shown <$> (sticky_list lk ct ++ l1)) ++ missing_items ct (hidden_roots lk ct so l1).
Proof.
  intros Hmd. unfold read_cached. rewrite pop_missing_items. cbn [max_depth max_comments].
  replace (md <? MAX_RECURSION g) with false by lia. rewrite <- fmap_drop, roots_of_shown.
  fold beyond. rewrite length_fmap, <- fmap_take, <- two_orders_take.
  destruct hidden_roots_cut as [Hcut Hdisj].
  destruct (m1 <? Z.of_nat (length (sticky_list lk ct ++ l2))) eqn:Hlong; cbn [fst].
  - f_equal. rewrite <- Hcut, beyond_weight. unfold missing_items. case_bool_decide; [done|].
    do 2 f_equal. fold weight. change (fun c => 1 + num_children_of ct c) with weight.
    rewrite Hcut, set_fold_zsum_elements by done. f_equal. apply zsum_map_perm.
    symmetry. apply elements_list_to_set, beyond_nodup.
  - assert (E : l1 = l2).
    { pose proof two_orders_take as Et. rewrite take_ge in Et by lia. by apply app_inv_head in Et. }
    by rewrite E.
Qed.
End two_limits.

(** C2. The order of a link's comments, on a well-formed tree and a depth limit of
    at least one: the sticky comment first, then a greedy order.  No comment
    appears twice, the limits hold, every tuple says what the tree says, a
    comment comes after its parent, each comment is the best of those that
    could be shown at its place, the list is as long as the limit allows, and
    every scored root comment is shown or reported hidden, never both. *)
Theorem comment_order_correct lk s lim shuffle t (so so' : gmap Z S)
    (Hwf : wf_tree t) (Hm : 1 <= max_depth lim)
    (Hso : effective_sorter s shuffle (get_tree_pieces t) so = Ok so') :
  let ct := get_tree_pieces t in
  exists l hidden,
    base_comment_order (CommentOrderer lk) s lim shuffle ct so =
      Ok ((Shown <$> (sticky_list lk ct ++ l)) ++ missing_items ct hidden) /\
    NoDup (ids (sticky_list lk ct ++ l)) /\
    (l = [] \/ Z.of_nat (length (sticky_list lk ct ++ l)) <= max_comments lim) /\
    (forall x, x ∈ l -> accurate ct lim 0 0 x) /\
    (forall l1 x l2, l = l1 ++ x :: l2 ->
      (parent_id x = None \/ exists y, y ∈ l1 /\ parent_id x = Some (comment_id y)) /\
      best ct (rev_sort s) so' lim 0 (roots lk ct) l1 (comment_id x)) /\
    (max_comments lim <= Z.of_nat (length (sticky_list lk ct ++ l)) \/
      forall c, eligible ct so' lim 0 c -> avail lim (roots lk ct) l c -> c ∈ ids l) /\
    (forall c, c ∈ hidden <-> is_Some (so' !! c) /\ child t None c /\ c ∉ ids (sticky_list lk ct ++ l)).
Proof.
  intros ct. pose proof (pieces_ok t Hwf) as Hok.
  destruct (plain_order_spec lk ct s lim shuffle so so' Hok Hm Hso) as (l & [G A N L F] & E).
  exists l, (hidden_roots lk ct so' l). split_and!; [done..| |done|].
  - intros l1 x l2 El. split; [|by eapply G].
    destruct (A x) as (_ & _ & _ & Hp & _); [rewrite El; apply elem_of_app; right; left|].
    destruct (G l1 x l2 El) as ([Hr|(y & Hy & Hc & _)] & _).
    + left. apply elem_of_filter_bool in Hr as [_ Hr]. apply (ok_link _ Hok) in Hr.
      assert (Some (parent_id x) = Some None) as [= ->] by (by rewrite <- Hp, <- Hr). done.
    + right. exists y. split; [done|]. destruct (A y) as (_ & _ & _ & _ & _ & Hch).
      * rewrite El. apply elem_of_app. by left.
      * rewrite Hch in Hc. apply (ok_link _ Hok) in Hc.
        assert (Some (parent_id x) = Some (Some (comment_id y))) as [= ->] by (by rewrite <- Hp, <- Hc). done.
  - intros c. rewrite elem_of_hidden_roots, fmap_app, elem_of_app. unfold roots.
    rewrite elem_of_filter_bool, negb_true_iff, bool_decide_eq_false, child_default. tauto.
Qed.

(** The order read from the cache is the order computed afresh: after
    [write_cache] on a well-formed tree, [read_cache] for any smaller number
    of comments, at the default depth, returns what the orderer computes for
    that number, the missing root comments and their count included. *)
Theorem cached_order_is_direct g lk s m shuffle attrs t (so : gmap Z S) pc pc'
    (Hwf : wf_tree t) (Hm : 1 <= m <= max_comments_gold g) (Hrec : 1 <= MAX_RECURSION g)
    (Hs : sort_cls s <> shuffled)
    (Hw : write_cache Plain g lk s shuffle attrs (get_tree_pieces t) so pc = Ok pc') :
  compute_order Plain g lk s (Limits m (MAX_RECURSION g)) shuffle attrs (get_tree_pieces t) so =
    Ok (read_cache g lk s (Limits m (MAX_RECURSION g)) pc').1.
Proof.
  pose proof (pieces_ok t Hwf) as Hok. set (ct := get_tree_pieces t) in *.
  assert (Hso : effective_sorter s shuffle ct so = Ok so).
  { unfold effective_sorter. by rewrite bool_decide_eq_false_2. }
  destruct (plain_order_spec lk ct s (Limits m (MAX_RECURSION g)) shuffle so so Hok Hrec Hso) as (l1 & H1 & E1).
  destruct (plain_order_spec lk ct s (cache_limits g) shuffle so so Hok Hrec Hso) as (l2 & H2 & E2).
  pose proof (read_cached_cut lk ct (rev_sort s) so m (max_comments_gold g) (MAX_RECURSION g) l1 l2
    Hok (proj2 Hm) (proj1 Hm) H1 H2 g (Z.le_refl _)) as Hcut.
  unfold write_cache, compute_order in Hw |- *. rewrite E2 in Hw. rewrite E1. simpl in Hw |- *.
  set (gold := _ ++ missing_items ct (hidden_roots lk ct so l2)) in *. f_equal. rewrite <- Hcut.
  assert (Hkey : pc' !! cache_key lk s = Some gold \/ pc' !! cache_key lk s = None /\ gold = []).
  { case_bool_decide as Hb; injection Hw as <-.
    - destruct (pc !! cache_key lk s) as [x|]; simpl in Hb; subst; auto.
    - left. by rewrite lookup_insert_eq. }
  assert (Hnil : (read_cached g (Limits m (MAX_RECURSION g)) []).1 = []).
  { unfold read_cached. simpl. rewrite Z.ltb_irrefl. simpl.
    assert ((m <? Z.of_nat 0) = false) as -> by (apply Z.ltb_ge; lia). by rewrite bool_decide_eq_true_2. }
  unfold read_cache. destruct Hkey as [->|[-> ->]]; [|done]. destruct gold as [|it gold]; [done|].
  by destruct (read_cached _ _ _).
Qed.

(** ** Termination *)

Lemma pick_one_measure ct rev (so : gmap Z S) lim off c cands tuples st :
  Z.of_nat (length tuples) < max_comments lim ->
  pick_one ct rev so lim off c (cands, tuples) = Ok st ->
  (pick_fuel ct lim st.1 st.2 < pick_fuel ct lim (c :: cands) tuples)%nat.
Proof.
  intros Hlen. unfold pick_one.
  assert (Hdrop : (pick_fuel ct lim cands tuples < pick_fuel ct lim (c :: cands) tuples)%nat).
  { unfold pick_fuel. simpl. lia. }
  case_bool_decide; simpl; [|by intros [= <-]].
  destruct (ct_depth ct !! c.2) as [d|]; simpl; [|done].
  destruct (max_depth lim <=? d - off); simpl; [by intros [= <-]|].
  destruct (ct_parents ct !! c.2) as [p|]; simpl; [|done]. intros [= <-]. unfold pick_fuel. simpl.
  rewrite length_app. simpl. set (N := length (all_children (ct_tree ct))).
  assert (Hle : (length (if (d - off + 1 <? max_depth lim)%Z
    then update_candidates rev so (children_of ct (Some c.2)) cands else cands) <= N + length cands)%nat).
  { destruct (_ <? _); [|lia]. rewrite update_candidates_perm, length_app.
    pose proof (entries_length so rev (children_of ct (Some c.2))).
    pose proof (children_length ct (Some c.2)). unfold N. lia. }
  replace (Z.to_nat (max_comments lim) - length tuples)%nat
    with (Datatypes.S (Z.to_nat (max_comments lim) - (length tuples + 1))) by lia.
  lia.
Qed.

(** The selection loop ends on every tree, well formed or not: with at least
    [pick_fuel] iterations allowed its result no longer depends on how many
    are. *)
Theorem selection_terminates ct rev (so : gmap Z S) lim off cands tuples fuel
    (Hf : (pick_fuel ct lim cands tuples <= fuel)%nat) :
  pick_loop ct rev so lim off fuel cands tuples =
  pick_loop ct rev so lim off (pick_fuel ct lim cands tuples) cands tuples.
Proof.
  assert (Hany : forall f1 f2 cands tuples, (pick_fuel ct lim cands tuples <= f1)%nat ->
    (pick_fuel ct lim cands tuples <= f2)%nat ->
    pick_loop ct rev so lim off f1 cands tuples = pick_loop ct rev so lim off f2 cands tuples).
  { clear. induction f1 as [|f1 IH]; intros f2 cands tuples H1 H2.
    - assert (cands = []) as ->; [|by destruct f2].
      unfold pick_fuel in H1. apply Nat.le_0_r, Nat.eq_add_0 in H1 as [_ H1]. by destruct cands.
    - destruct cands as [|c cands]; [by destruct f2|].
      destruct f2 as [|f2].
      { unfold pick_fuel in H2. apply Nat.le_0_r, Nat.eq_add_0 in H2 as [_ H2]. done. }
      cbn [pick_loop]. destruct (Z.of_nat (length tuples) <? max_comments lim) eqn:Hl; [|done].
      destruct (pick_one _ _ _ _ _ _ _) as [st|e] eqn:E; simpl; [|done].
      apply pick_one_measure in E; [|lia]. apply IH; lia. }
  by apply Hany.
Qed.
End orders.
End OrderProps.
