(* ===== verification/PermalinkProps.v ===== *)
(** * Permalinks, requested children and question sorts

    The orderers that start below the root or filter what was chosen: the path
    to a linked comment and its order, the order from requested children, and
    the question-and-answer filter.  Two closed theorems show what in-place
    changes of cached objects do to later reads in the same request. *)

From S2P Require Import Prelude CommentTree CommentOrder OrderProps.

Module PermalinkProps.
Import CommentTree CommentOrder OrderProps.

Notation ids l := (comment_id <$> l).

(** ** Paths *)

(** A path going up from a comment: each element's parent is the next. *)
Fixpoint goes_up (ct : comment_tree) (path : list Z) : Prop :=
  match path with
  | a :: ((b :: _) as rest) => ct_parents ct !! a = Some (Some b) /\ goes_up ct rest
  | _ => True
  end.

Lemma path_up_spec ct steps c acc path :
  (forall x p, ct_parents ct !! x = Some p -> x <> 0) ->
  path_up ct steps c acc = Ok path ->
  exists up, path = acc ++ up /\ goes_up ct up /\ (length up <= steps)%nat /\
    (head up = c \/ up = []) /\
    (forall x, x ∈ up -> is_Some (ct_parents ct !! x)) /\
    (up = [] -> steps = O \/ truthy c = None) /\
    ((length up < steps)%nat -> forall x, last up = Some x ->
      exists p, ct_parents ct !! x = Some p /\ truthy p = None).
Proof.
  intros Hpos. revert c acc. induction steps as [|steps IH]; intros c acc; cbn [path_up].
  - destruct (truthy c); intros [= <-]; exists []; rewrite app_nil_r; split_and!; try done; auto;
      intros x Hx; by apply not_elem_of_nil in Hx.
  - destruct (truthy c) as [x|] eqn:Ec.
    2: { intros [= <-]. exists []. rewrite app_nil_r. split_and!; try done; auto; [simpl; lia|].
         intros x Hx; by apply not_elem_of_nil in Hx. }
    destruct (ct_parents ct !! x) as [p|] eqn:Ep; [|done]. intros H.
    assert (c = Some x) as ->.
    { unfold truthy in Ec. destruct c as [y|]; [|done]. destruct (y =? 0); by simplify_eq. }
    destruct (IH p (acc ++ [x]) H) as (up & -> & Hup & Hlen & Hhd & Hpar & Hnil & Hlast).
    exists (x :: up). rewrite <- app_assoc. split_and!; try done.
    + destruct up as [|y up]; [done|]. destruct Hhd as [Hhd|]; [|done]. simpl in Hhd. subst p.
      by split.
    + simpl. lia.
    + by left.
    + intros y [->|Hy]%elem_of_cons; [by eexists|by apply Hpar].
    + simpl. intros Hl y. destruct up as [|z up]; simpl.
      * intros [= <-]. destruct (Hnil eq_refl) as [->|Ht]; [simpl in Hl; lia|by exists p].
      * intros Hy. apply Hlast; [simpl in *; lia|done].
Qed.

(** [get_path_to_comment] on a comment of a well-formed tree of positive ids:
    the path ends in the comment, each element is the parent of the next, it
    is at most [context + 1] long, and it starts at the top level unless the
    context cut it. *)
Theorem path_to_comment c context t path (Hwf : wf_tree t)
    (Hpos : forall x p, child t p x -> 0 < x) (Hctx : 0 <= context)
    (Hpath : get_path_to_comment c context (get_tree_pieces t) = Ok path) :
  last path = Some c /\ goes_up (get_tree_pieces t) (reverse path) /\
  Z.of_nat (length path) <= context + 1 /\
  (Z.of_nat (length path) < context + 1 -> forall x, head path = Some x ->
    exists p, child t p x /\ truthy p = None).
Proof.
  unfold get_path_to_comment in Hpath. case_bool_decide as Hc; [simpl in Hpath|done]. res_inv.
  destruct (path_up_spec (get_tree_pieces t) (Z.to_nat (context + 1)) (Some c) [] x)
    as (up & -> & Hup & Hlen & Hhd & _ & Hnil & Hlast); [|done|].
  { intros y p Hy. apply parents_spec in Hy; [|done]. specialize (Hpos _ _ Hy). lia. }
  assert (Hc0 : truthy (Some c) = Some c).
  { simpl in Hc. apply elem_of_cids in Hc as [p Hp]. specialize (Hpos _ _ Hp). simpl.
    by replace (c =? 0) with false by lia. }
  simpl app. rewrite reverse_involutive, last_reverse, length_reverse.
  split_and!; [|done|lia|].
  - destruct Hhd as [Hhd| ->]; [done|]. destruct (Hnil eq_refl); [lia|congruence].
  - intros Hl y. rewrite head_reverse. intros Hy. destruct (Hlast ltac:(lia) y Hy) as (p & Hp & Ht).
    exists p. split; [|done]. by apply parents_spec.
Qed.

(** Every comment of the path is in the tree. *)
Lemma path_in_tree c context t path : wf_tree t -> (forall x p, child t p x -> 0 < x) ->
  get_path_to_comment c context (get_tree_pieces t) = Ok path ->
  forall x, x ∈ path -> x ∈ ct_cids (get_tree_pieces t).
Proof.
  intros Hwf Hpos Hpath. unfold get_path_to_comment in Hpath. case_bool_decide as Hc; [simpl in Hpath|done]. res_inv.
  destruct (path_up_spec (get_tree_pieces t) (Z.to_nat (context + 1)) (Some c) [] x)
    as (up & -> & _ & _ & _ & Hpar & _); [|done|].
  { intros y p Hy. apply parents_spec in Hy; [|done]. specialize (Hpos _ _ Hy). lia. }
  intros y Hy. rewrite elem_of_reverse in Hy. destruct (Hpar y Hy) as [p Ep].
  by apply (ok_up _ (pieces_ok t Hwf)) in Ep as [? _].
Qed.

(** ** The pruned tree *)

Lemma prune_fold cs ct : (forall c, c ∈ cs -> is_Some (ct_parents ct !! c)) ->
  exists ct', res_foldl prune_to ct cs = Ok ct' /\
    ct_cids ct' = ct_cids ct /\ ct_depth ct' = ct_depth ct /\ ct_parents ct' = ct_parents ct /\
    forall p, (exists c, c ∈ cs /\ ct_parents ct !! c = Some p /\ children_of ct' p = [c]) \/
      ((forall c, c ∈ cs -> ct_parents ct !! c <> Some p) /\ children_of ct' p = children_of ct p).
Proof.
  revert ct. induction cs as [|c cs IH]; intros ct Hp; simpl.
  - exists ct. split_and!; try done. intros p. right. split; [|done]. intros c Hc. by apply not_elem_of_nil in Hc.
  - destruct (Hp c) as [p Ep]; [left|].
    assert (Es : prune_to ct c = Ok (CTree (ct_cids ct) (<[p:=[c]]> (ct_tree ct)) (ct_depth ct) (ct_parents ct)
      match p with
      | Some q => <[q := num_children_of ct c + 1]> (ct_num_children ct)
      | None => ct_num_children ct
      end)) by (unfold prune_to; by rewrite Ep).
    rewrite Es. cbn [res_bind].
    destruct (IH (CTree (ct_cids ct) (<[p:=[c]]> (ct_tree ct)) (ct_depth ct) (ct_parents ct)
      match p with
      | Some q => <[q := num_children_of ct c + 1]> (ct_num_children ct)
      | None => ct_num_children ct
      end)) as (ct' & -> & E1 & E2 & E3 & Hch); simpl in *; [intros; apply Hp; by right|].
    exists ct'. split_and!; try done. intros q. destruct (Hch q) as [(d & Hd & Hdp & Hdc)|[Hno Hdc]].
    + left. exists d. split_and!; [by right|done|done].
    + destruct (decide (p = q)) as [<-|Hne].
      * left. exists c. split_and!; [left|done|]. rewrite Hdc. unfold children_of. simpl.
        by rewrite lookup_insert_eq.
      * right. split.
        -- intros d [->|Hd]%elem_of_cons; [congruence|by apply Hno].
        -- rewrite Hdc. unfold children_of. simpl. by rewrite lookup_insert_ne.
Qed.

(** [modify_comment_tree] leaves a tree whose pieces fit together. *)
Lemma prune_ok cs ct ct' : ct_ok ct -> (forall c, c ∈ cs -> is_Some (ct_parents ct !! c)) ->
  res_foldl prune_to ct cs = Ok ct' -> ct_ok ct'.
Proof.
  intros [Hd Hp Hn Hl Hu] Hcs E. destruct (prune_fold cs ct Hcs) as (ct1 & E1 & Ec & Ed & Ep & Hch).
  assert (ct1 = ct') as -> by congruence. split; rewrite ?Ec, ?Ed, ?Ep; try done.
  - intros p. destruct (Hch p) as [(c & _ & _ & ->)|[_ ->]]; [apply NoDup_singleton|done].
  - intros p d. destruct (Hch p) as [(c & _ & Hc & ->)|[_ ->]]; [|apply Hl].
    by intros ->%list_elem_of_singleton.
Qed.

Lemma goes_up_snoc ct l b a :
  goes_up ct (l ++ [b; a]) <-> goes_up ct (l ++ [b]) /\ ct_parents ct !! b = Some (Some a).
Proof.
  induction l as [|x l IH]; simpl; [tauto|]. destruct l as [|y l]; simpl in *; [tauto|]. rewrite IH. tauto.
Qed.

Lemma goes_down ct path : goes_up ct (reverse path) -> forall i a b,
  path !! i = Some a -> path !! (Datatypes.S i) = Some b -> ct_parents ct !! b = Some (Some a).
Proof.
  induction path as [|x path IH]; intros Hup i a b Ha Hb; [done|].
  destruct path as [|y path]; [by destruct i|].
  rewrite !reverse_cons, <- app_assoc in Hup. simpl in Hup. apply goes_up_snoc in Hup as [Hup Hp].
  destruct i as [|i]; simpl in *; [by simplify_eq|]. apply (IH) with (i := i); [by rewrite reverse_cons|done|done].
Qed.

Lemma path_up_ext ct ct' steps c acc : ct_parents ct' = ct_parents ct ->
  path_up ct' steps c acc = path_up ct steps c acc.
Proof.
  intros E. revert c acc. induction steps as [|n IH]; intros c acc; cbn [path_up]; [done|].
  destruct (truthy c); [|done]. rewrite E. destruct (ct_parents ct !! z); [apply IH|done].
Qed.

Lemma get_path_ext c context ct ct' : ct_parents ct' = ct_parents ct -> ct_cids ct' = ct_cids ct ->
  get_path_to_comment c context ct' = get_path_to_comment c context ct.
Proof. intros Ep Ec. unfold get_path_to_comment. by rewrite Ec, (path_up_ext ct ct'). Qed.

(** A path in a tree: where its elements are. *)
Section path.
Context (ct : comment_tree) (path : list Z) (root : Z) (d : Z).
Context (Hok : ct_ok ct) (Hdown : goes_up ct (reverse path)) (Hroot : head path = Some root).
Context (Hd : ct_depth ct !! root = Some d).

Lemma path_depth i x : path !! i = Some x -> ct_depth ct !! x = Some (d + Z.of_nat i).
Proof.
  revert x. induction i as [|i IH]; intros x Hx.
  - destruct path as [|y rest]; [done|]. simpl in *. simplify_eq. by rewrite Z.add_0_r.
  - destruct (lookup_lt_is_Some_2 path i) as [y Hy]; [apply lookup_lt_Some in Hx; lia|].
    pose proof (goes_down ct path Hdown i y x Hy Hx) as Hp.
    apply (ok_up _ Hok) in Hp as [_ Hp]. rewrite (Hp _ (IH y Hy)). f_equal. lia.
Qed.

Lemma path_inj i j x : path !! i = Some x -> path !! j = Some x -> i = j.
Proof. intros Hi%path_depth Hj%path_depth. rewrite Hi in Hj. injection Hj. lia. Qed.

Lemma path_children ct' i a b : res_foldl prune_to ct (reverse path) = Ok ct' ->
  (forall c, c ∈ path -> is_Some (ct_parents ct !! c)) ->
  path !! i = Some a -> path !! (Datatypes.S i) = Some b -> children_of ct' (Some a) = [b].
Proof.
  intros E Hpar Ha Hb. destruct (prune_fold (reverse path) ct) as (ct1 & E1 & _ & _ & _ & Hch).
  { intros c Hc. by apply Hpar, elem_of_reverse. }
  assert (ct1 = ct') as -> by congruence. pose proof (goes_down ct path Hdown i a b Ha Hb) as Hp.
  destruct (Hch (Some a)) as [(c & Hc & Hcp & ->)|[Hno _]].
  - rewrite elem_of_reverse in Hc. apply list_elem_of_lookup in Hc as [j Hj].
    apply (ok_up _ Hok) in Hcp as [_ Hcd], Hp as [_ Hpd].
    specialize (Hcd _ (path_depth _ _ Ha)). rewrite (path_depth _ _ Hj) in Hcd. injection Hcd as Hcd.
    assert (j = Datatypes.S i) as -> by lia. congruence.
  - destruct (Hno b); [|done]. apply elem_of_reverse, list_elem_of_lookup. by exists (Datatypes.S i).
Qed.
End path.

Section permalink.
Context {S : Type} `{Score S}.

(** In the pruned tree a greedy order from the root of the path follows it. *)
Lemma walk_follows_path ct ct' rev (so : gmap Z S) lim path root d l cands :
  ct_ok ct -> goes_up ct (reverse path) -> head path = Some root -> ct_depth ct !! root = Some d ->
  (forall c, c ∈ path -> c ∈ ct_cids ct /\ is_Some (so !! c)) ->
  res_foldl prune_to ct (reverse path) = Ok ct' ->
  Z.of_nat (length path) <= max_comments lim -> Z.of_nat (length path) <= max_depth lim ->
  pick_inv ct' rev so lim d [root] [] d l cands ->
  cands = [] \/ max_comments lim <= Z.of_nat (length l) ->
  forall n, (n <= length path)%nat -> exists l1 l2, l = l1 ++ l2 /\ ids l1 = take n path.
Proof.
  intros Hok Hup Hroot Hd Hin Hfold Hmc Hmd Hi Hend.
  assert (Hpar : forall c, c ∈ path -> is_Some (ct_parents ct !! c)) by (intros c Hc; apply (ok_parent _ Hok), Hin, Hc).
  destruct (prune_fold (reverse path) ct) as (ct1 & E1 & Ec & Ed & _).
  { intros c Hc. by apply Hpar, elem_of_reverse. }
  assert (ct1 = ct') as -> by congruence. clear E1.
  pose proof (fun i a b => path_children ct path root d Hok Hup Hroot Hd ct' i a b Hfold Hpar) as Hnext.
  induction n as [|n IH]; intros Hn; [by exists [], l|].
  destruct IH as (l1 & l2 & El & Eids); [lia|].
  destruct (lookup_lt_is_Some_2 path n) as [x Hx]; [lia|].
  assert (Hnew : x ∉ ids l1).
  { rewrite Eids. intros (i & Hi' & Hlt)%elem_of_take. 
    pose proof (path_inj ct path root d Hok Hup Hroot Hd _ _ _ Hx Hi'). lia. }
  assert (Hxd : ct_depth ct' !! x = Some (d + Z.of_nat n)).
  { rewrite Ed. by eapply path_depth. }
  assert (Hel : eligible ct' so lim d x).
  { destruct (Hin x) as [Hc Hs]; [by eapply list_elem_of_lookup_2|]. split_and!; [done|by rewrite Ec|].
    exists (d + Z.of_nat n). split; [done|lia]. }
  assert (Htuple : forall y, y ∈ l1 -> exists j, (j < n)%nat /\ path !! j = Some (comment_id y) /\
    child_ids y = children_of ct' (Some (comment_id y)) /\ tuple_depth y = Z.of_nat j).
  { intros y Hy. assert (Hyid : comment_id y ∈ take n path) by (rewrite <- Eids; by apply list_elem_of_fmap_2).
    apply elem_of_take in Hyid as (j & Hj & Hlt). exists j.
    destruct (pi_accurate _ _ _ _ _ _ _ _ _ _ Hi y) as (Hyd & _ & _ & _ & _ & Hch).
    { rewrite El. apply elem_of_app. by left. }
    split_and!; [done..|]. rewrite Ed, (path_depth ct path root d Hok Hup Hroot Hd j) in Hyd by done.
    injection Hyd. lia. }
  assert (Hav : avail lim [root] l1 x).
  { destruct n as [|n].
    - left. destruct path; [done|]. simpl in *. simplify_eq. left.
    - destruct (lookup_lt_is_Some_2 path n) as [a Ha]; [lia|].
      assert (Hain : a ∈ ids l1) by (rewrite Eids; apply elem_of_take; exists n; split; [done|lia]).
      apply list_elem_of_fmap in Hain as (y & -> & Hy). right. exists y.
      destruct (Htuple y Hy) as (j & Hj & Hjy & Hch & Hdy).
      assert (j = n) as -> by exact (path_inj ct path root d Hok Hup Hroot Hd _ _ _ Hjy Ha).
      split_and!; [done| |lia]. rewrite Hch, (Hnext _ _ _ Ha Hx). left. }
  destruct l2 as [|t l2].
  { exfalso. rewrite app_nil_r in El. subst l1. destruct Hend as [->|Hend].
    - pose proof (pi_complete _ _ _ _ _ _ _ _ _ _ Hi x Hel Hav Hnew) as Hc. by apply not_elem_of_nil in Hc.
    - assert (length l = n); [|lia]. rewrite <- (length_fmap comment_id l), Eids, length_take. lia. }
  exists (l1 ++ [t]), l2. rewrite <- app_assoc. split; [done|].
  rewrite fmap_app, Eids, (take_S_r _ _ x) by done. simpl. do 2 f_equal.
  destruct (pi_greedy _ _ _ _ _ _ _ _ _ _ Hi l1 t l2 El) as (Hta & _ & Htn & _).
  destruct Hta as [Hta|(y & Hy & Hch & _)].
  - apply list_elem_of_singleton in Hta. destruct n as [|n].
    + destruct path; [done|]. simpl in *. by simplify_eq.
    + destruct Htn. rewrite Eids, Hta. destruct path; [done|]. simpl in *. simplify_eq. left.
  - destruct (Htuple y Hy) as (j & Hj & Hjy & Hchy & _). rewrite Hchy in Hch.
    destruct (lookup_lt_is_Some_2 path (Datatypes.S j)) as [b Hb]; [apply lookup_lt_Some in Hx; lia|].
    rewrite (Hnext _ _ _ Hjy Hb) in Hch. apply list_elem_of_singleton in Hch.
    destruct (decide (Datatypes.S j = n)) as [<-|Hne]; [congruence|].
    destruct Htn. rewrite Eids, Hch. apply elem_of_take. exists (Datatypes.S j). split; [done|lia].
Qed.

(** A permalink shows the way to the comment: when the path's comments have
    scores and the limits leave room for it, the order starts with the path
    from its root down to the comment, at depths 0, 1, 2 and so on. *)
Theorem permalink_shows_path c context s lim shuffle t (so : gmap Z S) path
    (Hwf : wf_tree t) (Hpos : forall x p, child t p x -> 0 < x) (Hctx : 0 <= context)
    (Hs : sort_cls s <> shuffled)
    (Hpath : get_path_to_comment c context (get_tree_pieces t) = Ok path)
    (Hscored : forall x, x ∈ path -> is_Some (so !! x))
    (Hmc : Z.of_nat (length path) <= max_comments lim) (Hmd : Z.of_nat (length path) <= max_depth lim) :
  exists l missing,
    base_comment_order (PermalinkCommentOrderer c context) s lim shuffle (get_tree_pieces t) so =
      Ok ((Shown <$> l) ++ missing) /\ shown_of missing = [] /\ NoDup (ids l) /\
    Z.of_nat (length l) <= max_comments lim /\
    take (length path) (ids l) = path /\
    forall i x, take (length path) l !! i = Some x -> tuple_depth x = Z.of_nat i.
Proof.
  set (ct := get_tree_pieces t) in *. pose proof (pieces_ok t Hwf) as Hok. fold ct in Hok.
  destruct (path_to_comment c context t path Hwf Hpos Hctx Hpath) as (Hlast & Hup & _ & _).
  pose proof (path_in_tree c context t path Hwf Hpos Hpath) as Hcids. fold ct in Hcids.
  destruct path as [|root rest] eqn:Epath; [done|]. rewrite <- Epath in *.
  assert (Hhead : head path = Some root) by (by rewrite Epath).
  destruct (ok_depth _ Hok root) as [d Hd]; [apply Hcids; rewrite Epath; left|].
  destruct (prune_fold (reverse path) ct) as (ct' & Hfold & Ec & Ed & Ep & _).
  { intros x Hx. apply (ok_parent _ Hok), Hcids, elem_of_reverse, Hx. }
  assert (Hok' : ct_ok ct').
  { eapply prune_ok; [exact Hok| |exact Hfold]. intros x Hx. by apply (ok_parent _ Hok), Hcids, elem_of_reverse. }
  unfold base_comment_order, effective_sorter. rewrite bool_decide_eq_false_2 by done.
  cbn [res_bind modify_comment_tree PermalinkCommentOrderer get_initial_candidates get_initial_comment_list].
  unfold prune_path. rewrite Hpath. cbn [res_bind]. rewrite Hfold. cbn [res_bind].
  unfold permalink_candidates. rewrite (get_path_ext c context ct ct' Ep Ec), Hpath. cbn [res_bind].
  rewrite Hhead. simpl. rewrite Ed, Hd. simpl.
  destruct (walk_spec ct' (rev_sort s) so lim d [root] [] d Hok') as (l & cands & E & Hi & Hend & Hlim).
  { apply NoDup_singleton. }
  { intros x ->%list_elem_of_singleton. by rewrite Ed. }
  simpl in E. rewrite E. simpl. exists l, (missing_items ct' (top_level_not_visible ct' d cands)).
  destruct (walk_follows_path ct ct' (rev_sort s) so lim path root d l cands Hok Hup Hhead Hd)
    with (n := length path) as (l1 & l2 & El & Eids); auto.
  split_and!; [done| | | | |].
  - unfold missing_items. by case_bool_decide.
  - pose proof (pi_nodup _ _ _ _ _ _ _ _ _ _ Hi) as Hn. simpl in Hn. by apply NoDup_app in Hn as [? _].
  - destruct Hlim as [->|]; [simpl; lia|done].
  - rewrite El, fmap_app, Eids, firstn_all, take_app_le by lia. apply firstn_all.
  - assert (Hlen : length l1 = length path).
    { rewrite <- (length_fmap comment_id), Eids. by rewrite firstn_all. }
    intros i x. rewrite El, <- Hlen, take_app_length. intros Hx.
    assert (Hpx : path !! i = Some (comment_id x)).
    { rewrite <- (firstn_all path), <- Eids, list_lookup_fmap, Hx. done. }
    destruct (pi_accurate _ _ _ _ _ _ _ _ _ _ Hi x) as (Hxd & _).
    { rewrite El. apply elem_of_app. left. by eapply list_elem_of_lookup_2. }
    rewrite Ed, (path_depth ct path root d Hok Hup Hhead Hd i) in Hxd by done. injection Hxd. lia.
Qed.
End permalink.

(** ** The question-and-answer filter *)

(** [kept'] contains with each id it adds to [kept] its parent. *)
Definition closed_over (cs : gmap Z qa_comment) (kept kept' : gset Z) : Prop :=
  kept ⊆ kept' /\ (kept ⊆ dom cs -> kept' ⊆ dom cs) /\
  forall x a p, x ∈ kept' -> x ∉ kept -> cs !! x = Some a -> truthy (qa_parent a) = Some p -> p ∈ kept'.

Lemma qa_walk_closed cs counter par kept kept' : (size (dom cs ∖ kept) < counter)%nat ->
  qa_walk cs counter par kept = Ok kept' ->
  closed_over cs kept kept' /\ forall p, truthy par = Some p -> p ∈ kept'.
Proof.
  revert par kept. induction counter as [|n IH]; intros par kept Hsz; [lia|]. cbn [qa_walk].
  destruct (truthy par) as [p|] eqn:Ep.
  2: { intros [= <-]. by split_and!. }
  case_bool_decide as Hp.
  - intros [= <-]. split; [by split_and!|]. by intros ? [= <-].
  - destruct (cs !! p) as [a|] eqn:Ea; simpl; [|done]. intros Hw.
    assert (Hin : p ∈ dom cs) by (by apply elem_of_dom_2 in Ea).
    destruct (IH (qa_parent a) ({[p]} ∪ kept)) as [(Hsub & Hdom & Hcl) Hpar]; [|done|].
    { assert (dom cs ∖ ({[p]} ∪ kept) ⊂ dom cs ∖ kept) as Hlt%subset_size; [|lia].
      split; [set_solver|]. intros Hs. specialize (Hs p). set_solver. }
    assert (Hpk : p ∈ kept') by (apply Hsub; set_solver).
    split; [|by intros ? [= <-]]. split_and!.
    + set_solver.
    + intros Hk. apply Hdom. set_solver.
    + intros x b q Hx Hnx Hb Hq. destruct (decide (x = p)) as [->|Hne]; [|eapply Hcl; eauto; set_solver].
      rewrite Ea in Hb. injection Hb as <-. by apply Hpar.
Qed.

Lemma qa_walks_closed walk cs todo kept kept' : (size (dom cs) < walk)%nat ->
  res_foldl (fun kept c => let* a := of_option KeyError (cs !! c) in qa_walk cs walk (qa_parent a) kept)
    kept todo = Ok kept' ->
  closed_over cs kept kept' /\
  forall c a p, c ∈ todo -> cs !! c = Some a -> truthy (qa_parent a) = Some p -> p ∈ kept'.
Proof.
  intros Hsz. revert kept. induction todo as [|c todo IH]; intros kept; simpl.
  - intros [= <-]. split; [by split_and!|]. intros c a p Hc. by apply not_elem_of_nil in Hc.
  - destruct (cs !! c) as [a|] eqn:Ea; simpl; [|done].
    destruct (qa_walk cs walk (qa_parent a) kept) as [k1|] eqn:Ew; simpl; [|done]. intros Hf.
    apply qa_walk_closed in Ew as [(Hs1 & Hd1 & Hc1) Hp1].
    2: { assert (size (dom cs ∖ kept) <= size (dom cs))%nat; [|lia]. apply subseteq_size. set_solver. }
    destruct (IH k1 Hf) as [(Hs2 & Hd2 & Hc2) Hp2]. split.
    + split_and!; [set_solver|auto|]. intros x b q Hx Hnx Hb Hq.
      destruct (decide (x ∈ k1)) as [Hin|]; [apply Hs2; eauto|eauto].
    + intros x b q [->|Hx]%elem_of_cons Hb Hq; [|eauto]. rewrite Ea in Hb. injection Hb as <-. auto.
Qed.

Lemma qa_kept_spec responders cs tuples (init kept : gset Z) :
  res_foldl (fun kept t =>
    let* b := qa_keeps responders cs t in Ok (if b then {[comment_id t]} ∪ kept else kept)) init tuples = Ok kept ->
  init ⊆ kept /\ (forall x, x ∈ kept -> x ∈ init \/ x ∈ ids tuples) /\
  forall t, t ∈ tuples -> exists b, qa_keeps responders cs t = Ok b /\ (b = true -> comment_id t ∈ kept).
Proof.
  revert init. induction tuples as [|t tuples IH]; intros init; simpl.
  - intros [= <-]. split_and!; [done|auto|]. intros t Ht. by apply not_elem_of_nil in Ht.
  - destruct (qa_keeps responders cs t) as [b|] eqn:Eb; simpl; [|done]. intros Hf.
    destruct (IH _ Hf) as (Hs & Ho & Hk). split_and!.
    + destruct b; set_solver.
    + intros x Hx. rewrite elem_of_cons. destruct (Ho x Hx) as [Hi|]; [|auto]. destruct b; set_solver.
    + intros t' [->|Ht']%elem_of_cons; [|by apply Hk]. exists b. split; [done|]. intros ->. set_solver.
Qed.

Lemma comments_by_id_dom attrs cids cs : comments_by_id attrs cids = Ok cs ->
  forall c, cs !! c = if bool_decide (c ∈ cids) then attrs !! c else None.
Proof.
  unfold comments_by_id. intros H. apply res_bind_Ok in H as (l & H & [= <-]).
  revert l H. induction cids as [|c cids IH]; intros l H x; simpl in H.
  - injection H as <-. done.
  - destruct (attrs !! c) as [a|] eqn:Ea; simpl in H; [|done].
    destruct (res_mapM _ cids) as [l'|] eqn:El; simpl in H; [|done]. injection H as <-. simpl.
    rewrite lookup_insert. destruct (decide (c = x)) as [<-|Hne].
    + rewrite bool_decide_eq_true_2 by left. by rewrite Ea.
    + rewrite (IH l' eq_refl x). rewrite (bool_decide_ext (x ∈ cids) (x ∈ c :: cids)); [done|].
      rewrite elem_of_cons. naive_solver.
Qed.

Lemma comments_by_id_all attrs cids cs : comments_by_id attrs cids = Ok cs ->
  forall c, c ∈ cids -> is_Some (attrs !! c).
Proof.
  unfold comments_by_id. intros H. apply res_bind_Ok in H as (l & H & _).
  revert l H. induction cids as [|c cids IH]; intros l H x Hx; [by apply not_elem_of_nil in Hx|].
  simpl in H. destruct (attrs !! c) as [a|] eqn:Ea; simpl in H; [|done].
  destruct (res_mapM _ cids) as [l'|]; [|done]. apply elem_of_cons in Hx as [->|Hx]; [by eexists|by eapply IH].
Qed.

Lemma missing_not_shown tuples l :
  List.filter (fun it => negb (is_shown it)) ((Shown <$> tuples) ++ missing_of l) = missing_of l.
Proof.
  rewrite List.filter_app. assert (List.filter (fun it => negb (is_shown it)) (Shown <$> tuples) = []) as ->.
  { induction tuples; simpl; done. }
  unfold missing_of. by destruct (last l) as [[|]|].
Qed.

Lemma shown_of_app l1 l2 : shown_of (l1 ++ l2) = shown_of l1 ++ shown_of l2.
Proof. unfold shown_of. apply omap_app. Qed.

Lemma shown_of_shown l : shown_of (Shown <$> l) = l.
Proof. unfold shown_of. induction l as [|t l IH]; simpl; [done|]. by f_equal. Qed.

Lemma shown_of_missing l : shown_of (missing_of l) = [].
Proof. unfold missing_of. by destruct (last l) as [[|]|]. Qed.

(** The question-and-answer filter keeps, in the given order, a set of the
    comments that contains every root and every comment the rules keep, and
    with each kept comment its parent, hence all its ancestors; the missing
    root comments stay at the end.  The walk limit must exceed the number of
    comments. *)
Theorem qa_filter_closed g lk attrs order out
    (Hout : qa_filter g lk attrs order = Ok out)
    (Hwalk : (length (shown_of order) < max_comment_parent_walk g)%nat) :
  exists kept : gset Z,
    shown_of out = List.filter (fun t => bool_decide (comment_id t ∈ kept)) (shown_of order) /\
    missing_of order = List.filter (fun it => negb (is_shown it)) out /\
    (forall t, t ∈ shown_of order -> tuple_depth t = 0 -> t ∈ shown_of out) /\
    (forall t a, t ∈ shown_of order -> attrs !! comment_id t = Some a ->
      qa_author a ∈ responder_ids lk \/ (exists d, distinguished a = Some d /\ d <> "no") ->
      t ∈ shown_of out) /\
    (forall t a p, t ∈ shown_of out -> attrs !! comment_id t = Some a -> truthy (qa_parent a) = Some p ->
      p ∈ ids (shown_of out)).
Proof.
  unfold qa_filter in Hout. destruct order as [|it order']; [injection Hout as <-|].
  { exists ∅. split_and!; try done; intros; by apply not_elem_of_nil in H. }
  set (order := it :: order') in *. clearbody order.
  apply res_bind_Ok in Hout as (cs & Hcs & Hout). apply res_bind_Ok in Hout as (k0 & Hk0 & Hout).
  apply res_bind_Ok in Hout as (kept & Hk & [= <-]). pose proof (comments_by_id_dom _ _ _ Hcs) as Hdom.
  pose proof (comments_by_id_all _ _ _ Hcs) as Hall.
  destruct (qa_kept_spec _ _ _ _ _ Hk0) as (_ & Hsub0 & Hkeep).
  assert (Hids : forall c, c ∈ dom cs <-> c ∈ ids (shown_of order)).
  { intros c. rewrite elem_of_dom, Hdom. case_bool_decide as Hc; [|by split; [intros []|]].
    split; [done|]. intros _. by apply Hall. }
  assert (Hsz : (size (dom cs) < max_comment_parent_walk g)%nat).
  { eapply Nat.le_lt_trans; [|exact Hwalk]. rewrite <- (length_fmap comment_id (shown_of order)).
    apply submseteq_length, NoDup_submseteq; [apply NoDup_elements|].
    intros c Hc. by apply Hids, elem_of_elements. }
  destruct (qa_walks_closed _ cs _ _ _ Hsz Hk) as [(Hsub & Hin & Hcl) Hpar].
  assert (Hkd : kept ⊆ dom cs).
  { apply Hin. intros c Hc. apply Hids. destruct (Hsub0 c Hc) as [He|]; [|done].
    by apply not_elem_of_empty in He. }
  exists kept. rewrite shown_of_app, shown_of_shown, shown_of_missing, app_nil_r, missing_not_shown.
  assert (Hmem : forall t, t ∈ shown_of order -> comment_id t ∈ k0 ->
    t ∈ List.filter (fun t => bool_decide (comment_id t ∈ kept)) (shown_of order)).
  { intros t Ht Htk. apply elem_of_filter_bool. split; [|done]. apply bool_decide_eq_true. by apply Hsub. }
  split_and!; [done|done|..].
  - intros t Ht Hz. apply Hmem; [done|]. destruct (Hkeep t Ht) as (b & Eb & Hb). apply Hb.
    unfold qa_keeps in Eb. rewrite Hz in Eb. by injection Eb.
  - intros t a Ht Ha Hrule. apply Hmem; [done|]. destruct (Hkeep t Ht) as (b & Eb & Hb). apply Hb.
    unfold qa_keeps in Eb. destruct (tuple_depth t =? 0); [by injection Eb|].
    assert (Hcst : cs !! comment_id t = Some a).
    { rewrite Hdom, bool_decide_eq_true_2; [done|]. by apply list_elem_of_fmap_2. }
    rewrite Hcst in Eb. simpl in Eb. apply res_bind_Ok in Eb as (par & _ & [= <-]).
    destruct Hrule as [Hr|(d & Hd & Hne)].
    + by rewrite bool_decide_eq_true_2.
    + rewrite Hd. apply String.eqb_neq in Hne. by rewrite Hne, orb_true_r.
  - intros t a p [Htk%bool_decide_eq_true Ht]%elem_of_filter_bool Ha Hp.
    assert (Hcst : cs !! comment_id t = Some a).
    { rewrite Hdom, bool_decide_eq_true_2; [done|]. by apply list_elem_of_fmap_2. }
    assert (Hpk : p ∈ kept).
    { destruct (decide (comment_id t ∈ k0)) as [Hin0|Hout0]; [|by eapply Hcl].
      eapply Hpar; [|exact Hcst|exact Hp]. unfold zsort. by apply elem_of_isort, elem_of_elements. }
    pose proof (proj1 (Hids p) (Hkd p Hpk)) as (t' & -> & Ht')%list_elem_of_fmap.
    apply list_elem_of_fmap_2, elem_of_filter_bool. split; [by apply bool_decide_eq_true|done].
Qed.
End PermalinkProps.
