(* ===== verification/OrderExamples.v ===== *)
(** * Comment orders on a small tree

    The theorems on comment orders applied to a tree of six comments, and two
    runs that change an object of the local cache: later reads in the same
    request see the change. *)

From S2P Require Import Prelude CommentTree CommentOrder OrderProps PermalinkProps.

Module OrderExamples.
Import CommentTree CommentOrder OrderProps PermalinkProps.

Definition demo_tree : gmap (option Z) (list Z) :=
  foldl append_comment ∅
    [Comment 1 1 None; Comment 2 2 (Some 1); Comment 3 3 None; Comment 4 4 (Some 2);
     Comment 5 5 None; Comment 6 6 (Some 1)].

Definition demo_scores : gmap Z Z :=
  list_to_map [(1, 10); (2, 3); (3, 40); (4, 7); (5, 1); (6, 30)].

Definition demo_link : CommentOrder.link := Link 1 "a" 6 (Some 5) {[ 9 ]} None None.

Definition demo_config : config :=
  Config 100 10 "insightful" "controversial" 100 0 ∅ false.

Definition top : sort := Sort desc "_score".

Lemma demo_wf : wf_tree demo_tree.
Proof.
  apply build_wf.
  - repeat constructor; intros p; simpl; intros [= <-]; lia.
  - apply (bool_decide_unpack _). vm_compute. exact I.
Qed.

Lemma demo_positive x p : child demo_tree p x -> 0 < x.
Proof.
  intros Hc. assert (Hx : x ∈ all_children demo_tree) by (apply all_children_elem; by exists p).
  revert x Hx Hc. assert (H : Forall (fun x => 0 < x) (all_children demo_tree)).
  { apply (bool_decide_unpack _). vm_compute. exact I. }
  rewrite Forall_forall in H. eauto.
Qed.

Lemma comment_order_correct_witness :
  exists l hidden,
    base_comment_order (CommentOrderer demo_link) top (Limits 4 5) id (get_tree_pieces demo_tree) demo_scores =
      Ok ((Shown <$> (sticky_list demo_link (get_tree_pieces demo_tree) ++ l)) ++
          missing_items (get_tree_pieces demo_tree) hidden) /\
    comment_id <$> l = [3; 1; 6].
Proof.
  destruct (comment_order_correct demo_link top (Limits 4 5) id demo_tree demo_scores demo_scores demo_wf)
    as (l & hidden & E & _ & _ & _ & _ & _ & Hh); [simpl; lia|reflexivity|].
  exists l, hidden. split; [exact E|].
  assert (Eo : (let* o := base_comment_order (CommentOrderer demo_link) top (Limits 4 5) id
    (get_tree_pieces demo_tree) demo_scores in Ok (comment_id <$> shown_of o, missing_of o)) =
    Ok ([5; 3; 1; 6], [])) by (vm_compute; reflexivity).
  rewrite E in Eo. cbn [res_bind] in Eo.
  assert (Es : sticky_list demo_link (get_tree_pieces demo_tree) =
    [CommentTuple 5 0 None 0 []]) by (vm_compute; reflexivity).
  rewrite Es, shown_of_app, shown_of_shown in Eo.
  assert (Em : shown_of (missing_items (get_tree_pieces demo_tree) hidden) = []).
  { unfold missing_items. by case_bool_decide. }
  rewrite Em, app_nil_r in Eo. by injection Eo.
Defined.

Definition demo_candidates : list (Z * Z) := [(0, 1)].

Lemma selection_terminates_witness :
  (pick_fuel (get_tree_pieces demo_tree) (Limits 4 5) demo_candidates [] <= 100)%nat /\
  pick_loop (get_tree_pieces demo_tree) true demo_scores (Limits 4 5) 0 100 demo_candidates [] =
  pick_loop (get_tree_pieces demo_tree) true demo_scores (Limits 4 5) 0
    (pick_fuel (get_tree_pieces demo_tree) (Limits 4 5) demo_candidates []) demo_candidates [].
Proof.
  assert (H : (pick_fuel (get_tree_pieces demo_tree) (Limits 4 5) demo_candidates [] <= 100)%nat).
  { apply Nat.leb_le. vm_compute. reflexivity. }
  split; [exact H|]. apply selection_terminates. exact H.
Defined.

Definition demo_cache : gmap string (list order_item) :=
  match write_cache Plain demo_config demo_link top id ∅ (get_tree_pieces demo_tree) demo_scores ∅ with
  | Ok pc => pc
  | Raise _ => ∅
  end.

Lemma cached_order_is_direct_witness :
  compute_order Plain demo_config demo_link top (Limits 2 10) id ∅ (get_tree_pieces demo_tree) demo_scores =
    Ok (read_cache demo_config demo_link top (Limits 2 10) demo_cache).1 /\
  (read_cache demo_config demo_link top (Limits 2 10) demo_cache).1 =
    [Shown (CommentTuple 5 0 None 0 []); Shown (CommentTuple 3 0 None 0 []); MissingChildren 4 {[ 1 ]}].
Proof.
  split; [|vm_compute; reflexivity].
  apply (cached_order_is_direct demo_config demo_link top 2 id ∅ demo_tree demo_scores ∅ demo_cache).
  - exact demo_wf.
  - simpl. lia.
  - simpl. lia.
  - discriminate.
  - vm_compute. reflexivity.
Defined.

Lemma path_to_comment_witness :
  last [1; 2; 4] = Some 4 /\ goes_up (get_tree_pieces demo_tree) (reverse [1; 2; 4]).
Proof.
  destruct (path_to_comment 4 8 demo_tree [1; 2; 4] demo_wf demo_positive) as (H1 & H2 & _).
  - lia.
  - vm_compute. reflexivity.
  - split; [exact H1|exact H2].
Defined.

Lemma permalink_shows_path_witness :
  exists l missing,
    base_comment_order (PermalinkCommentOrderer 4 1) top (Limits 10 5) id (get_tree_pieces demo_tree) demo_scores =
      Ok ((Shown <$> l) ++ missing) /\ take 2 (comment_id <$> l) = [2; 4].
Proof.
  destruct (permalink_shows_path 4 1 top (Limits 10 5) id demo_tree demo_scores [2; 4] demo_wf demo_positive)
    as (l & missing & E & _ & _ & _ & H & _).
  - lia.
  - discriminate.
  - vm_compute. reflexivity.
  - intros x Hx. apply list_elem_of_In in Hx. destruct Hx as [<-|[<-|[]]]; vm_compute; eauto.
  - simpl. lia.
  - simpl. lia.
  - exists l, missing. split; [exact E|exact H].
Defined.

Definition demo_qa : gmap Z qa_comment :=
  list_to_map [(1, QAComment 2 None None); (2, QAComment 3 (Some 1) None); (4, QAComment 9 (Some 2) None);
    (6, QAComment 3 (Some 1) None)].

Definition demo_order : list order_item :=
  [Shown (CommentTuple 1 0 None 3 [2; 6]); Shown (CommentTuple 2 1 (Some 1) 1 [4]);
   Shown (CommentTuple 6 1 (Some 1) 0 []); Shown (CommentTuple 4 2 (Some 2) 0 []);
   MissingChildren 1 {[ 3 ]}].

Definition demo_filtered : list order_item :=
  [Shown (CommentTuple 1 0 None 3 [2; 6]); Shown (CommentTuple 2 1 (Some 1) 1 [4]);
   Shown (CommentTuple 4 2 (Some 2) 0 []); MissingChildren 1 {[ 3 ]}].

Lemma qa_filter_closed_witness :
  qa_filter demo_config demo_link demo_qa demo_order = Ok demo_filtered /\
  missing_of demo_order = List.filter (fun it => negb (is_shown it)) demo_filtered.
Proof.
  assert (E : qa_filter demo_config demo_link demo_qa demo_order = Ok demo_filtered) by (vm_compute; reflexivity).
  split; [exact E|].
  destruct (qa_filter_closed demo_config demo_link demo_qa demo_order demo_filtered E) as (kept & _ & H & _).
  - apply Nat.ltb_lt. vm_compute. reflexivity.
  - exact H.
Defined.

(** ** Changes to cached objects *)

Definition long_order : list order_item :=
  [Shown (CommentTuple 1 0 None 0 []); Shown (CommentTuple 2 0 None 0 []); MissingChildren 1 {[ 3 ]}].

(** [read_cache] pops the missing root comments off the list the local cache
    keeps; when it then cuts the list it appends them to a copy, and a second
    read in the same request reports fewer missing comments than the first. *)
Theorem second_read_loses_missing :
  let lim := Limits 1 10 in
  let first := read_cached demo_config lim long_order in
  let second := read_cached demo_config lim first.2 in
  first.1 = [Shown (CommentTuple 1 0 None 0 []); MissingChildren 2 {[ 2; 3 ]}] /\
  second.1 = [Shown (CommentTuple 1 0 None 0 []); MissingChildren 1 {[ 2 ]}].
Proof. vm_compute. split; reflexivity. Qed.

(** A permalink's [modify_comment_tree] rewrites the tree object the local
    cache keeps: after the order for a permalink to comment 4, the tree read
    in the same request has no other top level comment. *)
Theorem permalink_prunes_cached_tree :
  children_of (get_tree_pieces demo_tree) None = [1; 3; 5] /\
  (let* r := permalink_order 4 8 top (Limits 10 5) id demo_tree demo_scores in
   Ok (children_of (get_tree_pieces r.2) None)) = Ok [1].
Proof. vm_compute. split; reflexivity. Qed.
End OrderExamples.
