(* ===== verification/HardCache.v ===== *)
(** * The database-backed cache

    r2/lib/hardcachebackend.py over r2/lib/db/tdb_lite.py, with [HardCache] of
    r2/lib/cache.py in front: rows with an expiration time in one table per
    database engine, values stored as text with a kind. *)

From S2P Require Import Prelude.
From Stdlib Require Import Ascii.
From Stdlib Require DecimalString DecimalZ.

Module HardCache.

(** ** Values *)

(** The Python values caches hold.  [PObj] is any other object, by identity;
    [NoneResult] is the marker class of r2/lib/cache.py. *)
Inductive pyval :=
  | PNone
  | PBool (b : bool)
  | PNum (n : Z)
  | PStr (s : string)
  | PObj (o : Z)
  | NoneResult.

#[export] Instance pyval_eq_dec : EqDecision pyval.
Proof. solve_decision. Defined.

Inductive kind := KBool | KStr | KNum | KNone | KPickle.

#[export] Instance kind_eq_dec : EqDecision kind.
Proof. solve_decision. Defined.

Section tdb_lite.
(** [pickle.dumps] and [pickle.loads] on the other objects. *)
Context (dumps : pyval -> string) (loads : string -> pyval).

(** [tdb_lite.py2db(val, True)]: the value that is handed to the driver, and
    its kind. *)
Definition py2db (v : pyval) : pyval * kind :=
  match v with
  | PBool b => (PStr (if b then "t" else "f"), KBool)
  | PStr s => (PStr s, KStr)
  | PNum n => (PNum n, KNum)
  | PNone => (PNone, KNone)
  | v => (PStr (dumps v), KPickle)
  end.

(** The text a string column keeps of that value. *)
Definition column_text (v : pyval) : string :=
  match v with PStr s => s | PNum n => py_str_int n | _ => "" end.

(** [tdb_lite.db2py]. *)
Definition db2py (s : string) (k : kind) : res pyval :=
  match k with
  | KBool => Ok (PBool (String.eqb s "t"))
  | KStr => Ok (PStr s)
  | KNum => let* n := of_option ValueError (py_int_str s) in Ok (PNum n)
  | KNone => Ok PNone
  | KPickle => Ok (loads s)
  end.

(** ** The table of an engine *)

Record row := Row { r_value : string; r_kind : kind; r_expiration : Z }.

Notation table := (gmap (string * string) row).

Definition expiration_from_time (now time : Z) : res Z :=
  if time <=? 0 then Raise ValueError else Ok (now + time).

(** The database: a table per engine, with the engines of a category. *)
Record database := Database {
  mapping : gmap string (list string);
  engines : gmap string table
}.

Inductive engine_type := Master | Readslave (choice : nat).

(** [engine_by_category]; [choice] is what [random.choice] picks. *)
Definition engine_by_category (db : database) (category : string) (ty : engine_type) : res string :=
  let category := if bool_decide (is_Some (mapping db !! category)) then category else "*" in
  let* names := of_option KeyError (mapping db !! category) in
  match ty with
  | Master => of_option IndexError (names !! 0%nat)
  | Readslave choice => of_option IndexError (drop 1 names !! choice)
  end.

Definition table_of (db : database) (e : string) : table := default ∅ (engines db !! e).

Definition with_table (db : database) (e : string) (f : table -> table) : database :=
  Database (mapping db) (<[e := f (table_of db e)]> (engines db)).

(** ** The backend's operations

    Each takes the time; those that can raise after a write return the
    database beside the result. *)

Definition backend_delete (category ids : string) (db : database) : res database :=
  let* e := engine_by_category db category Master in
  Ok (with_table db e (delete (category, ids))).

(** [delete_if_expired(expiration="now")]. *)
Definition delete_if_expired (now : Z) (category ids : string) (db : database) : res database :=
  let* e := engine_by_category db category Master in
  Ok (with_table db e (fun t =>
    match t !! (category, ids) with
    | Some r => if r_expiration r <? now then delete (category, ids) t else t
    | None => t
    end)).

Definition backend_get (now : Z) (category ids : string) (ty : engine_type) (db : database) : res pyval :=
  let* e := engine_by_category db category ty in
  match table_of db e !! (category, ids) with
  | None => Ok PNone
  | Some r => if r_expiration r <? now then Ok PNone else db2py (r_value r) (r_kind r)
  end.

(** [set]: the old row is deleted before the expiration is checked. *)
Definition backend_set (now : Z) (category ids : string) (v : pyval) (time : Z) (db : database)
  : database * res unit :=
  match backend_delete category ids db with
  | Raise e => (db, Raise e)
  | Ok db =>
      let '(value, k) := py2db v in
      match expiration_from_time now time with
      | Raise e => (db, Raise e)
      | Ok exp =>
          match engine_by_category db category Master with
          | Raise e => (db, Raise e)
          | Ok e => (with_table db e (insert (category, ids) (Row (column_text value) k exp)), Ok tt)
          end
      end
  end.

(** [add]: on success the value handed to the driver is returned, otherwise
    the value that is there. *)
Definition backend_add (now : Z) (category ids : string) (v : pyval) (time : Z) (db : database)
  : database * res pyval :=
  match delete_if_expired now category ids db with
  | Raise e => (db, Raise e)
  | Ok db =>
      match expiration_from_time now time with
      | Raise e => (db, Raise e)
      | Ok exp =>
          let '(value, k) := py2db v in
          match engine_by_category db category Master with
          | Raise e => (db, Raise e)
          | Ok e =>
              match table_of db e !! (category, ids) with
              | None => (with_table db e (insert (category, ids) (Row (column_text value) k exp)), Ok value)
              | Some _ => (db, backend_get now category ids Master db)
              end
          end
      end
  end.

(** [incr]: rows of kind [num] are updated in place. *)
Definition backend_incr (now : Z) (category ids : string) (time delta : Z) (db : database)
  : database * res pyval :=
  match delete_if_expired now category ids db with
  | Raise e => (db, Raise e)
  | Ok db =>
      match expiration_from_time now time with
      | Raise e => (db, Raise e)
      | Ok exp =>
          match engine_by_category db category Master with
          | Raise e => (db, Raise e)
          | Ok e =>
              match table_of db e !! (category, ids) with
              | Some (Row s KNum _) =>
                  match py_int_str s with
                  | Some n =>
                      let db := with_table db e
                        (insert (category, ids) (Row (py_str_int (n + delta)) KNum exp)) in
                      (db, backend_get now category ids Master db)
                  | None => (db, Raise ValueError)
                  end
              | _ => (db, Raise ValueError)
              end
          end
      end
  end.

(** [get_multi]: one query for the ids, rows that have not expired. *)
Definition backend_get_multi (now : Z) (category : string) (idses : list string) (choice : nat)
    (db : database) : res (list (string * pyval)) :=
  let* e := engine_by_category db category (Readslave choice) in
  let rows := List.filter
    (fun kr => String.eqb kr.1.1 category && bool_decide (kr.1.2 ∈ idses) && (now <=? r_expiration kr.2))
    (map_to_list (table_of db e)) in
  res_mapM (fun kr : string * string * row =>
    let* v := db2py (r_value kr.2) (r_kind kr.2) in
    Ok (category +:+ "-" +:+ kr.1.2, v)) rows.

Definition ids_by_category (now : Z) (category : string) (limit choice : nat) (db : database)
  : res (list string) :=
  let* e := engine_by_category db category (Readslave choice) in
  let rows := List.filter (fun kr => String.eqb kr.1.1 category && (now <? r_expiration kr.2))
    (map_to_list (table_of db e)) in
  Ok (take limit ((fun kr : string * string * row => kr.1.2) <$> rows)).

(** [clause_from_expiration]: [None] deletes everything, ["now"] and a time
    what expired before it. *)
Inductive expiration := AnyTime | Now | Before (t : Z).

Definition clause_from_expiration (now : Z) (x : expiration) (r : row) : bool :=
  match x with
  | AnyTime => true
  | Now => r_expiration r <? now
  | Before t => r_expiration r <? t
  end.

(** The rows a query for expired keys returns, oldest first. *)
Definition expired (now : Z) (x : expiration) (limit : nat) (t : table) : list (Z * (string * string)) :=
  take limit (isort (fun a b => a.1 <=? b.1)
    ((fun kr : string * string * row => (r_expiration kr.2, kr.1)) <$>
       List.filter (fun kr => clause_from_expiration now x kr.2) (map_to_list t))).

(** The module's [delete_expired], on the master engines. *)
Definition delete_expired (now : Z) (x : expiration) (limit : nat) (db : database) : database :=
  let masters := remove_dups (omap (fun names : string * list string => head names.2) (map_to_list (mapping db))) in
  foldl (fun db e =>
    match expired now x limit (table_of db e) with
    | [] => db
    | _ => with_table db e (filter (fun kr => clause_from_expiration now x kr.2 = false))
    end) db masters.

(** ** HardCache *)

(** [key.split("-", 1)]. *)
Fixpoint split_dash (s : string) : option (string * string) :=
  match s with
  | EmptyString => None
  | String a s =>
      if Ascii.eqb a "-"%char then Some (EmptyString, s)
      else match split_dash s with Some (c, i) => Some (String a c, i) | None => None end
  end.

Definition split_key (key : string) : res (string * string) := of_option ValueError (split_dash key).

Definition hard_set (now : Z) (key : string) (v : pyval) (time : Z) (db : database) : database * res unit :=
  if bool_decide (v = NoneResult) then (db, Ok tt) else
  match split_key key with
  | Raise e => (db, Raise e)
  | Ok (category, ids) => backend_set now category ids v time db
  end.

Definition hard_get (now : Z) (choice : nat) (key : string) (dflt : pyval) (db : database) : res pyval :=
  let* ci := split_key key in
  let* r := backend_get now ci.1 ci.2 (Readslave choice) db in
  Ok (if bool_decide (r = PNone) then dflt else r).

Definition hard_delete (key : string) (db : database) : res database :=
  let* ci := split_key key in backend_delete ci.1 ci.2 db.

Definition hard_add (now : Z) (key : string) (v : pyval) (time : Z) (db : database) : database * res pyval :=
  match split_key key with
  | Raise e => (db, Raise e)
  | Ok (category, ids) => backend_add now category ids v time db
  end.

Definition hard_incr (now : Z) (key : string) (delta time : Z) (db : database) : database * res pyval :=
  match split_key key with
  | Raise e => (db, Raise e)
  | Ok (category, ids) => backend_incr now category ids time delta db
  end.

(** [in_chunks(it, size)]. *)
Fixpoint in_chunks_go {A} (size : nat) (chunk it : list A) : list (list A) :=
  match it with
  | [] => match chunk with [] => [] | _ => [chunk] end
  | x :: it =>
      let chunk := chunk ++ [x] in
      if (size <=? length chunk)%nat then chunk :: in_chunks_go size [] it else in_chunks_go size chunk it
  end.

Definition in_chunks {A} (size : nat) (it : list A) : list (list A) := in_chunks_go size [] it.

(** [category_bundles.setdefault(category, []).append(ids)]. *)
Definition bundle (b : gmap string (list string)) (ci : string * string) : gmap string (list string) :=
  <[ci.1 := default [] (b !! ci.1) ++ [ci.2]]> b.

(** [simple_get_multi]: the keys bundled by category and looked up in chunks
    of fifty. *)
Definition hard_get_multi (now : Z) (choice : nat) (keys : list string) (db : database)
  : res (gmap string pyval) :=
  let* cis := res_mapM split_key keys in
  let bundles := foldl bundle ∅ cis in
  res_foldl (fun results cb =>
    res_foldl (fun results chunk =>
      let* new := backend_get_multi now cb.1 chunk choice db in
      Ok (list_to_map new ∪ results)) results (in_chunks 50 cb.2))
    ∅ (map_to_list bundles).

(** ** Values survive storage *)

Hypothesis loads_dumps : forall o, loads (dumps (PObj o)) = PObj o.

Definition storable (v : pyval) : Prop := v <> NoneResult.

Lemma py2db_db2py v : storable v -> db2py (column_text (py2db v).1) (py2db v).2 = Ok v.
Proof.
  intros Hv. destruct v as [| [] | n | s | o |]; simpl; try done.
  - by rewrite py_int_str_int.
  - by rewrite loads_dumps.
Qed.

(** ** What a key stands for *)

(** The default configuration: one engine, both master and read slave. *)
Definition one_engine (db : database) (e : string) : Prop := mapping db = {[ "*" := [e; e] ]}.

Lemma one_engine_by_category db e c ty : one_engine db e ->
  match ty with Master => True | Readslave n => n = 0%nat end -> engine_by_category db c ty = Ok e.
Proof.
  intros He Hty. unfold engine_by_category. rewrite He.
  assert (E : ({[ "*" := [e; e] ]} : gmap string (list string)) !!
    (if bool_decide (is_Some (({[ "*" := [e; e] ]} : gmap string (list string)) !! c)) then c else "*") = Some [e; e]).
  { case_bool_decide as Hc; [|apply lookup_singleton_eq].
    destruct Hc as [x Hx]. pose proof Hx as Hx'. apply lookup_singleton_Some in Hx as [<- <-]. done. }
  rewrite E. simpl. destruct ty as [|n]; [done|]. by subst n.
Qed.

(** The value under a key at a time: none when missing or expired. *)
Definition live (now : Z) (ci : string * string) (e : string) (db : database) : option (res pyval) :=
  match table_of db e !! ci with
  | Some r => if r_expiration r <? now then None else Some (db2py (r_value r) (r_kind r))
  | None => None
  end.

Lemma table_of_with db e f : table_of (with_table db e f) e = f (table_of db e).
Proof. unfold table_of, with_table. simpl. by rewrite lookup_insert_eq. Qed.

(** A row for [ci] that holds [v] until [exp]. *)
Definition holds (db : database) (e : string) (ci : string * string) (v : pyval) (exp : Z) (db' : database) : Prop :=
  one_engine db' e /\
  forall now' ci', live now' ci' e db' =
    if decide (ci = ci') then (if exp <? now' then None else Some (Ok v)) else live now' ci' e db.

Lemma live_insert db e ci v exp : one_engine db e -> storable v ->
  holds db e ci v exp
    (with_table db e (insert ci (Row (column_text (py2db v).1) (py2db v).2 exp))).
Proof.
  intros He Hv. split; [done|]. intros now' ci'. unfold live. rewrite table_of_with, lookup_insert.
  destruct (decide (ci = ci')); simpl; [|done]. by rewrite py2db_db2py.
Qed.

Lemma live_delete db e ci now' ci' :
  live now' ci' e (with_table db e (delete ci)) = if decide (ci = ci') then None else live now' ci' e db.
Proof. unfold live. rewrite table_of_with, lookup_delete. by destruct (decide (ci = ci')). Qed.

Lemma split_key_ok key ci : split_key key = Ok ci <-> split_dash key = Some ci.
Proof. apply of_option_Ok. Qed.

Lemma hard_set_live now key ci v time db e : one_engine db e -> split_dash key = Some ci ->
  storable v -> 0 < time ->
  exists db', hard_set now key v time db = (db', Ok tt) /\ holds db e ci v (now + time) db'.
Proof.
  intros He Hk Hv Ht. unfold hard_set. rewrite bool_decide_eq_false_2 by done.
  apply split_key_ok in Hk. rewrite Hk. destruct ci as [c i]. unfold backend_set, backend_delete.
  rewrite (one_engine_by_category db e) by done. simpl. unfold expiration_from_time.
  replace (time <=? 0) with false by lia. destruct (py2db v) as [value k] eqn:Ev.
  rewrite (one_engine_by_category _ e) by done. eexists. split; [done|].
  replace value with (py2db v).1 by (by rewrite Ev). replace k with (py2db v).2 by (by rewrite Ev).
  destruct (live_insert (with_table db e (delete (c, i))) e (c, i) v (now + time)) as [Ho Hl]; [done|done|].
  split; [done|]. intros now' ci'. rewrite Hl. destruct (decide _); [done|].
  rewrite live_delete. by rewrite decide_False.
Qed.

Lemma hard_get_live now key ci d db e : one_engine db e -> split_dash key = Some ci ->
  hard_get now 0 key d db =
    match live now ci e db with
    | None => Ok d
    | Some r => let* v := r in Ok (if bool_decide (v = PNone) then d else v)
    end.
Proof.
  intros He Hk. unfold hard_get. apply split_key_ok in Hk. rewrite Hk. simpl. unfold backend_get.
  rewrite (one_engine_by_category db e) by done. simpl. unfold live. rewrite <- surjective_pairing.
  destruct (table_of db e !! ci) as [r|]; [|done]. by destruct (r_expiration r <? now).
Qed.

Lemma delete_if_expired_live now c i db e : one_engine db e ->
  exists db', delete_if_expired now c i db = Ok db' /\ one_engine db' e /\
    (forall now' ci', now <= now' -> live now' ci' e db' = live now' ci' e db) /\
    table_of db' e !! (c, i) =
      match table_of db e !! (c, i) with
      | Some r => if r_expiration r <? now then None else Some r
      | None => None
      end.
Proof.
  intros He. unfold delete_if_expired. rewrite (one_engine_by_category db e) by done. simpl.
  eexists. split; [done|]. split; [done|]. split.
  - intros now' ci' Hle. unfold live. rewrite table_of_with.
    destruct (table_of db e !! (c, i)) as [r|] eqn:Er; [|done].
    destruct (r_expiration r <? now) eqn:Ex; [|done].
    rewrite lookup_delete. destruct (decide ((c, i) = ci')) as [<-|]; [|done].
    rewrite Er. by replace (r_expiration r <? now') with true by lia.
  - rewrite table_of_with. destruct (table_of db e !! (c, i)) as [r|] eqn:Er; [|done].
    destruct (r_expiration r <? now); [by rewrite lookup_delete_eq|done].
Qed.

(** ** Operations on one key *)

(** What [set] stores is what [get] returns until the expiration, the other
    keys are untouched, and afterwards the key reads as missing. *)
Theorem hard_set_get now key ci v time db e
    (He : one_engine db e) (Hk : split_dash key = Some ci) (Hv : storable v) (Ht : 0 < time) :
  exists db', hard_set now key v time db = (db', Ok tt) /\ one_engine db' e /\
    forall now' key' ci' d, split_dash key' = Some ci' ->
      hard_get now' 0 key' d db' =
        if decide (ci = ci')
        then Ok (if (now + time <? now') || bool_decide (v = PNone) then d else v)
        else hard_get now' 0 key' d db.
Proof.
  destruct (hard_set_live now key ci v time db e He Hk Hv Ht) as (db' & E & Ho & Hl).
  exists db'. split_and!; [done..|]. intros now' key' ci' d Hk'.
  rewrite (hard_get_live now' key' ci' d db' e), (hard_get_live now' key' ci' d db e), Hl by done.
  destruct (decide (ci = ci')); [|done]. by destruct (now + time <? now').
Qed.

(** [add] on a missing or expired key stores the value and returns what was
    handed to the driver; on a live key it changes nothing and returns the
    value that is there. *)
Theorem hard_add_spec now key ci v time db e
    (He : one_engine db e) (Hk : split_dash key = Some ci) (Hv : storable v) (Ht : 0 < time) :
  exists db', hard_add now key v time db =
      (db', match live now ci e db with None => Ok (py2db v).1 | Some r => r end) /\
    one_engine db' e /\
    forall now' ci', now <= now' -> live now' ci' e db' =
      match live now ci e db with
      | None => if decide (ci = ci') then (if now + time <? now' then None else Some (Ok v)) else live now' ci' e db
      | Some _ => live now' ci' e db
      end.
Proof.
  unfold hard_add. apply split_key_ok in Hk. rewrite Hk. destruct ci as [c i]. unfold backend_add.
  destruct (delete_if_expired_live now c i db e He) as (db1 & -> & He1 & Hl1 & Ht1).
  unfold expiration_from_time. replace (time <=? 0) with false by lia.
  destruct (py2db v) as [value k] eqn:Ev. rewrite (one_engine_by_category db1 e) by done.
  assert (El : live now (c, i) e db = match table_of db1 e !! (c, i) with
    Some r => Some (db2py (r_value r) (r_kind r)) | None => None end).
  { rewrite Ht1. unfold live. destruct (table_of db e !! (c, i)) as [r|]; [|done].
    by destruct (r_expiration r <? now). }
  rewrite El. destruct (table_of db1 e !! (c, i)) as [r|] eqn:Er.
  - exists db1. split_and!; [|done|done]. f_equal. unfold backend_get.
    rewrite (one_engine_by_category db1 e) by done. simpl. rewrite Er.
    destruct (table_of db e !! (c, i)) as [r0|]; [|done]. destruct (r_expiration r0 <? now) eqn:Hx; [done|].
    injection Ht1 as ->. by rewrite Hx.
  - eexists. split; [done|]. split; [done|]. intros now' ci' Hle.
    replace value with (py2db v).1 by (by rewrite Ev). replace k with (py2db v).2 by (by rewrite Ev).
    destruct (live_insert db1 e (c, i) v (now + time)) as [_ Hl]; [done|done|]. rewrite Hl.
    destruct (decide _); [done|]. by apply Hl1.
Qed.

(** [incr] on a live number adds to it, renews its expiration and returns the
    sum; on anything else it raises [ValueError] and changes nothing. *)
Theorem hard_incr_spec now key ci delta time db e
    (He : one_engine db e) (Hk : split_dash key = Some ci) (Ht : 0 < time) :
  exists db', one_engine db' e /\
    match table_of db e !! ci with
    | Some (Row s KNum exp) =>
        match py_int_str s with
        | Some n =>
            if exp <? now then hard_incr now key delta time db = (db', Raise ValueError)
            else hard_incr now key delta time db = (db', Ok (PNum (n + delta))) /\
              live (now + time) ci e db' = Some (Ok (PNum (n + delta)))
        | None => hard_incr now key delta time db = (db', Raise ValueError)
        end
    | _ => hard_incr now key delta time db = (db', Raise ValueError) /\
        forall now' ci', now <= now' -> live now' ci' e db' = live now' ci' e db
    end.
Proof.
  unfold hard_incr. apply split_key_ok in Hk. rewrite Hk. destruct ci as [c i]. unfold backend_incr.
  destruct (delete_if_expired_live now c i db e He) as (db1 & -> & He1 & Hl1 & Ht1).
  unfold expiration_from_time. replace (time <=? 0) with false by lia.
  rewrite (one_engine_by_category db1 e) by done. rewrite Ht1.
  destruct (table_of db e !! (c, i)) as [[s k exp]|] eqn:Er; simpl; [|by exists db1].
  destruct k; try (exists db1; destruct (exp <? now); done).
  destruct (py_int_str s) as [n|] eqn:En; [|exists db1; destruct (exp <? now); simpl; by rewrite ?En].
  destruct (exp <? now) eqn:Hx; [by exists db1|]. rewrite En.
  exists (with_table db1 e (insert (c, i) (Row (py_str_int (n + delta)) KNum (now + time)))).
  split; [done|]. unfold backend_get.
  rewrite (one_engine_by_category _ e) by done. simpl.
  rewrite table_of_with, lookup_insert_eq. simpl. replace (now + time <? now) with false by lia.
  rewrite py_int_str_int. split; [done|].
  unfold live. rewrite table_of_with, lookup_insert_eq. simpl. rewrite Z.ltb_irrefl.
  by rewrite py_int_str_int.
Qed.

(** ** Many keys at once *)

Definition joined (ci : string * string) : string := ci.1 +:+ "-" +:+ ci.2.

Lemma split_dash_joined key ci : split_dash key = Some ci -> joined ci = key.
Proof.
  revert ci. induction key as [|a key IH]; intros ci; simpl; [done|].
  destruct (Ascii.eqb_spec a "-"%char) as [->|].
  - by intros [= <-].
  - destruct (split_dash key) as [[c i]|]; [|done]. intros [= <-].
    rewrite <- (IH (c, i) eq_refl). done.
Qed.

Lemma bundles_spec cis b c : default [] (foldl bundle b cis !! c) =
  default [] (b !! c) ++ omap (fun ci => if String.eqb ci.1 c then Some ci.2 else None) cis.
Proof.
  revert b. induction cis as [|[c' i] cis IH]; intros b; simpl; [by rewrite app_nil_r|].
  rewrite IH. unfold bundle. simpl. rewrite lookup_insert.
  destruct (decide (c' = c)) as [->|Hne]; simpl.
  - rewrite String.eqb_refl. by rewrite <- app_assoc.
  - apply String.eqb_neq in Hne. by rewrite Hne.
Qed.

Lemma bundles_dom cis b c : is_Some (foldl bundle b cis !! c) <-> is_Some (b !! c) \/ c ∈ cis.*1.
Proof.
  revert b. induction cis as [|[c' i] cis IH]; intros b; simpl.
  - split; [auto|]. intros [|Hc]; [done|by apply not_elem_of_nil in Hc].
  - rewrite IH. unfold bundle. simpl. rewrite lookup_insert_is_Some, elem_of_cons.
    destruct (decide (c' = c)); naive_solver.
Qed.

Lemma in_chunks_go_concat {A} size (chunk it : list A) : concat (in_chunks_go size chunk it) = chunk ++ it.
Proof.
  revert chunk. induction it as [|x it IH]; intros chunk; simpl.
  - destruct chunk; simpl; by rewrite ?app_nil_r.
  - destruct (size <=? length (chunk ++ [x]))%nat; simpl; rewrite IH, <- ?app_assoc; done.
Qed.

Lemma in_chunks_concat {A} size (it : list A) : concat (in_chunks size it) = it.
Proof. apply in_chunks_go_concat. Qed.

Lemma res_mapM_elem {A B} (f : A -> res B) l ys y : res_mapM f l = Ok ys ->
  (y ∈ ys <-> exists x, x ∈ l /\ f x = Ok y).
Proof.
  revert ys. induction l as [|x l IH]; intros ys; simpl.
  - intros [= <-]. split; [by intros ?%not_elem_of_nil|]. intros (x & Hx & _). by apply not_elem_of_nil in Hx.
  - destruct (f x) as [z|] eqn:Ex; simpl; [|done]. destruct (res_mapM f l) as [zs|]; simpl; [|done].
    intros [= <-]. rewrite elem_of_cons, (IH zs eq_refl). split.
    + intros [->|(x0 & Hx0 & E)]; [exists x; split; [left|done]|exists x0; split; [by right|done]].
    + intros (x0 & [->|Hx0]%elem_of_cons & E); [left; congruence|right; eauto].
Qed.

Lemma get_multi_elem now c idses db e new k v : one_engine db e ->
  backend_get_multi now c idses 0 db = Ok new ->
  ((k, v) ∈ new <-> exists i, i ∈ idses /\ k = joined (c, i) /\ live now (c, i) e db = Some (Ok v)).
Proof.
  intros He. unfold backend_get_multi. rewrite (one_engine_by_category db e) by done. cbn [res_bind].
  intros Hm. rewrite (res_mapM_elem _ _ _ (k, v) Hm). split.
  - intros ([[c' i] r] & Hr & Hv). apply elem_of_filter_bool in Hr as [Hb Hr].
    apply andb_true_iff in Hb as [Hb Hx]. apply andb_true_iff in Hb as [Hc Hi].
    apply String.eqb_eq in Hc. apply bool_decide_eq_true in Hi. simpl in *. subst c'.
    apply elem_of_map_to_list in Hr. destruct (db2py (r_value r) (r_kind r)) as [v'|] eqn:Ev; [|done].
    simpl in Hv. injection Hv as <- <-. exists i. split_and!; [done|done|]. unfold live. rewrite Hr.
    replace (r_expiration r <? now) with false by lia. by rewrite Ev.
  - intros (i & Hi & -> & Hl). unfold live in Hl. destruct (table_of db e !! (c, i)) as [r|] eqn:Er; [|done].
    destruct (r_expiration r <? now) eqn:Hx; [done|]. injection Hl as Hv. exists ((c, i), r). split.
    + apply elem_of_filter_bool. split; [|by apply elem_of_map_to_list]. simpl.
      rewrite String.eqb_refl, bool_decide_eq_true_2 by done. simpl. lia.
    + simpl. by rewrite Hv.
Qed.

(** The result of the chunks looked up so far: right, and complete for them. *)
Definition multi_inv (now : Z) (e : string) (db : database) (done_ : list (string * string))
    (results : gmap string pyval) : Prop :=
  (forall k v, results !! k = Some v -> exists ci, joined ci = k /\ ci ∈ done_ /\ live now ci e db = Some (Ok v)) /\
  (forall ci v, ci ∈ done_ -> live now ci e db = Some (Ok v) -> is_Some (results !! joined ci)).

Lemma multi_chunk now e db seen results c chunk new : one_engine db e ->
  multi_inv now e db seen results -> backend_get_multi now c chunk 0 db = Ok new ->
  multi_inv now e db (seen ++ (pair c <$> chunk)) (list_to_map new ∪ results).
Proof.
  intros He [Hs Hc] Hg. pose proof (fun k v => get_multi_elem now c chunk db e new k v He Hg) as Hel. split.
  - intros k v [Hn|[_ Hr]]%lookup_union_Some_raw.
    + apply elem_of_list_to_map_2, Hel in Hn as (i & Hi & -> & Hl). exists (c, i).
      split_and!; [done| |done]. apply elem_of_app. right. by apply list_elem_of_fmap_2.
    + destruct (Hs k v Hr) as (ci & E & Hin & Hl). exists ci. split_and!; [done| |done].
      apply elem_of_app. by left.
  - intros ci v [Hin|Hin]%elem_of_app Hl.
    + apply lookup_union_is_Some. right. by eapply Hc.
    + apply list_elem_of_fmap in Hin as (i & -> & Hi). apply lookup_union_is_Some. left.
      destruct (list_to_map new !! joined (c, i)) as [x|] eqn:E; [by eexists|].
      exfalso. apply not_elem_of_list_to_map_2 in E. apply E. apply list_elem_of_fmap. exists (joined (c, i), v).
      split; [done|]. apply Hel. by exists i.
Qed.

Lemma multi_chunks now e db c chunks seen results out : one_engine db e ->
  multi_inv now e db seen results ->
  res_foldl (fun results chunk =>
    let* new := backend_get_multi now c chunk 0 db in Ok (list_to_map new ∪ results)) results chunks = Ok out ->
  multi_inv now e db (seen ++ (pair c <$> concat chunks)) out.
Proof.
  intros He. revert seen results. induction chunks as [|chunk chunks IH]; intros seen results Hi; simpl.
  - intros [= <-]. by rewrite app_nil_r.
  - destruct (backend_get_multi now c chunk 0 db) as [new|] eqn:Eg; simpl; [|done]. intros Hf.
    rewrite fmap_app, app_assoc. eapply IH; [|exact Hf]. by apply multi_chunk.
Qed.

Lemma multi_bundles now e db (bs : list (string * list string)) seen results out : one_engine db e ->
  multi_inv now e db seen results ->
  res_foldl (fun results cb =>
    res_foldl (fun results chunk =>
      let* new := backend_get_multi now cb.1 chunk 0 db in Ok (list_to_map new ∪ results))
      results (in_chunks 50 cb.2)) results bs = Ok out ->
  multi_inv now e db (seen ++ (bs ≫= (fun cb => pair cb.1 <$> cb.2))) out.
Proof.
  intros He. revert seen results. induction bs as [|cb bs IH]; intros seen results Hi; simpl.
  - intros [= <-]. by rewrite app_nil_r.
  - destruct (res_foldl _ results (in_chunks 50 cb.2)) as [r1|] eqn:Eg; simpl; [|done]. intros Hf.
    rewrite app_assoc. eapply IH; [|exact Hf].
    pose proof (multi_chunks now e db cb.1 (in_chunks 50 cb.2) seen results r1 He Hi Eg) as Hm.
    by rewrite in_chunks_concat in Hm.
Qed.

Lemma bundles_elem cis ci :
  ci ∈ (map_to_list (foldl bundle ∅ cis) ≫= (fun cb => pair cb.1 <$> cb.2)) <-> ci ∈ cis.
Proof.
  rewrite list_elem_of_bind. split.
  - intros ([c l] & Hci & Hb). apply elem_of_map_to_list in Hb. simpl in *.
    apply list_elem_of_fmap in Hci as (i & -> & Hi). pose proof (bundles_spec cis ∅ c) as E.
    rewrite Hb, lookup_empty in E. simpl in E. subst l. apply list_elem_of_omap in Hi as ([c' i'] & Hin & Hif).
    simpl in Hif. destruct (String.eqb_spec c' c) as [->|]; [|done]. by injection Hif as ->.
  - intros Hin. destruct ci as [c i].
    destruct (foldl bundle ∅ cis !! c) as [l|] eqn:Eb.
    + exists (c, l). split; [|by apply elem_of_map_to_list]. simpl. apply list_elem_of_fmap_2.
      pose proof (bundles_spec cis ∅ c) as E. rewrite Eb, lookup_empty in E. simpl in E. subst l.
      apply list_elem_of_omap. exists (c, i). simpl. by rewrite String.eqb_refl.
    + exfalso. assert (is_Some (foldl bundle ∅ cis !! c)) as [? ?]; [|congruence].
      apply bundles_dom. right. by apply (list_elem_of_fmap_2 fst _ (c, i)).
Qed.

(** Looking up many keys at once, bundled by category and cut into chunks,
    finds what looking them up one by one finds: a key of the result is a
    requested key whose live value it has, and every requested key with a live
    value is in the result. *)
Theorem hard_get_multi_pointwise now keys db e results
    (He : one_engine db e) (Hr : hard_get_multi now 0 keys db = Ok results) :
  (forall key v, results !! key = Some v ->
    key ∈ keys /\ exists ci, split_dash key = Some ci /\ live now ci e db = Some (Ok v)) /\
  (forall key ci, key ∈ keys -> split_dash key = Some ci ->
    results !! key = match live now ci e db with Some (Ok v) => Some v | _ => None end).
Proof.
  unfold hard_get_multi in Hr. apply res_bind_Ok in Hr as (cis & Hcis & Hr).
  assert (H0 : multi_inv now e db [] ∅).
  { split; [by intros k v; rewrite lookup_empty|]. intros ci v Hci. by apply not_elem_of_nil in Hci. }
  destruct (multi_bundles now e db _ [] ∅ results He H0 Hr) as [Hs Hc]. simpl in Hs, Hc.
  setoid_rewrite bundles_elem in Hs. setoid_rewrite bundles_elem in Hc.
  assert (Hk : forall ci, ci ∈ cis <-> exists key, key ∈ keys /\ split_dash key = Some ci).
  { intros ci. rewrite (res_mapM_elem _ _ _ _ Hcis). by setoid_rewrite split_key_ok. }
  assert (Hkey : forall key v, results !! key = Some v ->
    key ∈ keys /\ exists ci, split_dash key = Some ci /\ live now ci e db = Some (Ok v)).
  { intros key v Hv. destruct (Hs key v Hv) as (ci & <- & Hci & Hl). apply Hk in Hci as (key & Hin & Hsp).
    rewrite (split_dash_joined key ci Hsp). split; [done|]. by exists ci. }
  split; [done|]. intros key ci Hin Hsp.
  destruct (results !! key) as [v|] eqn:Ev.
  - destruct (Hkey key v Ev) as (_ & ci' & Hsp' & El).
    assert (ci' = ci) as -> by congruence. by rewrite El.
  - destruct (live now ci e db) as [[v|]|] eqn:El; [|done|done]. exfalso.
    destruct (Hc ci v) as [x Hx]; [apply Hk; eauto|done|]. rewrite (split_dash_joined key ci Hsp) in Hx. congruence.
Qed.
End tdb_lite.

(** ** Witnesses and surprises *)

Definition demo_dumps (v : pyval) : string := match v with PObj o => py_str_int o | _ => "" end.
Definition demo_loads (s : string) : pyval := PObj (default 0 (py_int_str s)).

Lemma demo_pickle o : demo_loads (demo_dumps (PObj o)) = PObj o.
Proof. unfold demo_loads, demo_dumps. by rewrite py_int_str_int. Qed.

Definition demo_db : database :=
  Database {[ "*" := ["main"; "main"] ]}
    {[ "main" := {[ ("c", "1") := Row "5" KNum 100; ("c", "2-3") := Row "x" KStr 10 ]} ]}.

Lemma hard_set_get_witness :
  exists db', hard_set demo_dumps 50 "c-1" (PObj 7) 30 demo_db = (db', Ok tt) /\
    hard_get demo_loads 60 0 "c-1" PNone db' = Ok (PObj 7).
Proof.
  destruct (hard_set_get demo_dumps demo_loads demo_pickle 50 "c-1" ("c", "1") (PObj 7) 30 demo_db "main")
    as (db' & E & _ & H); [reflexivity|reflexivity|discriminate|lia|].
  exists db'. split; [exact E|]. rewrite (H 60 "c-1" ("c", "1") PNone); reflexivity.
Defined.

Lemma hard_add_spec_witness :
  exists db', hard_add demo_dumps demo_loads 50 "c-1" (PNum 9) 30 demo_db = (db', Ok (PNum 5)) /\
    live demo_loads 60 ("c", "1") "main" db' = Some (Ok (PNum 5)).
Proof.
  destruct (hard_add_spec demo_dumps demo_loads demo_pickle 50 "c-1" ("c", "1") (PNum 9) 30 demo_db "main")
    as (db' & E & _ & H); [reflexivity|reflexivity|discriminate|lia|].
  exists db'. split; [exact E|]. rewrite (H 60 ("c", "1")); [reflexivity|lia].
Defined.

Lemma hard_get_multi_pointwise_witness :
  exists results, hard_get_multi demo_loads 50 0 ["c-1"; "c-2-3"; "d-1"] demo_db = Ok results /\
    results !! "c-1" = Some (PNum 5) /\ results !! "c-2-3" = None.
Proof.
  eexists. split; [vm_compute; reflexivity|].
  destruct (hard_get_multi_pointwise demo_loads 50 ["c-1"; "c-2-3"; "d-1"] demo_db "main"
    {[ "c-1" := PNum 5 ]}) as [_ H]; [reflexivity|vm_compute; reflexivity|].
  split; [apply (H "c-1" ("c", "1"))|apply (H "c-2-3" ("c", "2-3"))]; [left|reflexivity|right; left|reflexivity].
Defined.

(** [add] returns what it hands to the database driver, not the value: adding
    [True] answers ["t"] the first time and [True] the second. *)
Theorem add_answers_encoded :
  let first := hard_add demo_dumps demo_loads 50 "d-1" (PBool true) 30 demo_db in
  let second := hard_add demo_dumps demo_loads 51 "d-1" (PBool true) 30 first.1 in
  first.2 = Ok (PStr "t") /\ second.2 = Ok (PBool true).
Proof. vm_compute. split; reflexivity. Qed.

(** [set] without a time, its default, deletes the item and raises. *)
Theorem set_without_time_deletes :
  let r := hard_set demo_dumps 50 "c-1" (PNum 9) 0 demo_db in
  hard_get demo_loads 50 0 "c-1" PNone demo_db = Ok (PNum 5) /\
  r.2 = Raise ValueError /\ hard_get demo_loads 50 0 "c-1" PNone r.1 = Ok PNone.
Proof. vm_compute. repeat split; reflexivity. Qed.
End HardCache.
