(* ===== verification/Cache.v ===== *)
(** * Caches, cache chains and the permacache

    r2/lib/cache.py.  [CacheOps] is the interface [CacheUtils] and the chains
    expect of a cache, [CacheLaws] what a chain relies on: a cache may forget
    entries, but what it remembers is what was last stored.  The local caches
    and memcached are instances; [CacheChain], [StaleCacheChain] and
    [Permacache] are defined over the interface. *)

From S2P Require Import Prelude HardCache.

Module Cache.
Import HardCache.

Notation contents := (gmap string pyval).

(** Operations return the new state beside what they answer or raise: a raise
    does not undo what was written before it. *)
Definition upd (C A : Type) : Type := (C * res A)%type.

Class CacheOps (C : Type) := {
  is_local : C -> bool;
  permanent : C -> bool;
  c_get : string -> C -> res pyval;
  c_get_multi : list string -> C -> res contents;
  c_set : string -> pyval -> Z -> C -> upd C unit;
  c_set_multi : contents -> Z -> C -> upd C unit;
  c_delete : string -> C -> upd C unit
}.

(** ** One cache *)

(** The kinds of a cache: the local dictionaries, which keep the object they
    are given, and memcached. *)
Inductive cache_kind := KLocal | KSelfEmptying (max_size : nat) | KMemcache.

Record cache := MkCache { cache_kind_of : cache_kind; data : contents }.

Definition with_data (d : contents) (c : cache) : cache := MkCache (cache_kind_of c) d.

(** [dict.get(self, key)], with [None] for a missing key; [mc.get]. *)
Definition cache_get (key : string) (c : cache) : res pyval := Ok (default PNone (data c !! key)).

(** [LocalCache.get] and [CMemcache.get] with a default. *)
Definition cache_get_default (key : string) (dflt : pyval) (c : cache) : pyval :=
  match data c !! key with
  | None | Some PNone => dflt
  | Some v => v
  end.

(** [LocalCache.simple_get_multi], [mc.get_multi]. *)
Definition cache_get_multi (keys : list string) (c : cache) : res contents :=
  Ok (filter (fun kv => kv.1 ∈ keys) (data c)).

(** [SelfEmptyingCache.maybe_reset]. *)
Definition maybe_reset (c : cache) : cache :=
  match cache_kind_of c with
  | KSelfEmptying m => if (m <? size (data c))%nat then with_data ∅ c else c
  | _ => c
  end.

(** [set]: [LocalCache] ignores the time, [CMemcache] rejects negative ones. *)
Definition cache_set (key : string) (v : pyval) (time : Z) (c : cache) : upd cache unit :=
  match cache_kind_of c with
  | KMemcache =>
      if time <? 0 then (c, Raise ValueError) else (with_data (<[key := v]> (data c)) c, Ok tt)
  | _ => let c := maybe_reset c in (with_data (<[key := v]> (data c)) c, Ok tt)
  end.

(** [LocalCache.set_multi] sets one by one; memcached takes the dictionary. *)
Definition cache_set_multi (kvs : contents) (time : Z) (c : cache) : upd cache unit :=
  match cache_kind_of c with
  | KMemcache =>
      if time <? 0 then (c, Raise ValueError) else (with_data (kvs ∪ data c) c, Ok tt)
  | _ => (foldl (fun c kv => (cache_set kv.1 kv.2 time c).1) c (map_to_list kvs), Ok tt)
  end.

Definition cache_delete (key : string) (c : cache) : upd cache unit :=
  (with_data (delete key (data c)) c, Ok tt).

(** [add] stores under a missing key only; the answer says whether it did
    ([CMemcache] answers [None] where [LocalCache] answers [False]). *)
Definition cache_add (key : string) (v : pyval) (time : Z) (c : cache) : upd cache bool :=
  match cache_kind_of c with
  | KMemcache =>
      if time <? 0 then (c, Raise ValueError) else
      match data c !! key with
      | Some _ => (c, Ok false)
      | None => (with_data (<[key := v]> (data c)) c, Ok true)
      end
  | _ =>
      let c := maybe_reset c in
      match data c !! key with
      | Some _ => (c, Ok false)
      | None => (with_data (<[key := v]> (data c)) c, Ok true)
      end
  end.

(** [int(v)] and [str(v)] of a cached value. *)
Definition py_int (v : pyval) : res Z :=
  match v with
  | PNum n => Ok n
  | PBool b => Ok (if b then 1 else 0)
  | PStr s => of_option ValueError (py_int_str s)
  | _ => Raise TypeError
  end.

Section objects.
(** [str] and truth of the other objects. *)
Context (obj_str : Z -> string) (obj_true : Z -> bool).

Definition py_str (v : pyval) : string :=
  match v with
  | PNone => "None"
  | PBool b => if b then "True" else "False"
  | PNum n => py_str_int n
  | PStr s => s
  | PObj o => obj_str o
  | NoneResult => "r2.lib.cache.NoneResult"
  end.

Definition truth (v : pyval) : bool :=
  match v with
  | PNone => false
  | PBool b => b
  | PNum n => negb (n =? 0)
  | PStr s => negb (String.eqb s "")
  | PObj o => obj_true o
  | NoneResult => true
  end.

(** [LocalCache.incr], [decr], [append], [prepend] and [replace] act on keys
    that are there. *)
Definition local_incr (key : string) (delta : Z) (c : cache) : upd cache unit :=
  match data c !! key with
  | None => (c, Ok tt)
  | Some v =>
      match py_int v with
      | Ok n => (with_data (<[key := PNum (n + delta)]> (data c)) c, Ok tt)
      | Raise e => (c, Raise e)
      end
  end.

Definition local_decr (key : string) (amt : Z) (c : cache) : upd cache unit := local_incr key (- amt) c.

Definition local_append (key : string) (v : string) (c : cache) : cache :=
  match data c !! key with
  | None => c
  | Some old => with_data (<[key := PStr (py_str old +:+ v)]> (data c)) c
  end.

Definition local_prepend (key : string) (v : string) (c : cache) : cache :=
  match data c !! key with
  | None => c
  | Some old => with_data (<[key := PStr (v +:+ py_str old)]> (data c)) c
  end.

Definition local_replace (key : string) (v : pyval) (c : cache) : cache :=
  match data c !! key with
  | None => c
  | Some _ => with_data (<[key := v]> (data c)) c
  end.

Definition local_delete_multi (keys : list string) (c : cache) : cache :=
  with_data (foldr delete (data c) keys) c.

Definition local_reset (c : cache) : cache := with_data ∅ c.

#[export] Instance cache_ops : CacheOps cache := {|
  is_local c := match cache_kind_of c with KMemcache => false | _ => true end;
  permanent _ := false;
  c_get := cache_get;
  c_get_multi := cache_get_multi;
  c_set := cache_set;
  c_set_multi := cache_set_multi;
  c_delete := cache_delete
|}.

(** [CacheUtils.add_multi]. *)
Definition add_multi (kvs : contents) (prefix : string) (time : Z) (c : cache) : upd cache unit :=
  foldl (fun st kv =>
    match st.2 with
    | Raise e => st
    | Ok _ => let r := cache_add (prefix +:+ kv.1) kv.2 time st.1 in
              (r.1, match r.2 with Ok _ => Ok tt | Raise e => Raise e end)
    end) (c, Ok tt) (map_to_list kvs).

(** [CacheUtils.incr_multi]: a [ValueError] is skipped. *)
Definition incr_multi (keys : list string) (delta : Z) (prefix : string) (c : cache) : upd cache unit :=
  foldl (fun st k =>
    match st.2 with
    | Raise e => st
    | Ok _ => match local_incr (prefix +:+ k) delta st.1 with
              | (c, Raise ValueError) => (c, Ok tt)
              | r => r
              end
    end) (c, Ok tt) keys.

(** [prefix_keys(keys, prefix, call)]: the keys are prefixed for the call and
    the answer is mapped back. *)
Definition prefix_keys (keys : list string) (prefix : string) (call : list string -> res contents)
  : res contents :=
  if String.eqb prefix "" then call keys else
  let km : gmap string string := list_to_map (reverse ((fun k => (prefix +:+ k, k)) <$> keys)) in
  let* found := call (map_to_list km).*1 in
  let* pairs := res_mapM (fun kv => let* k := of_option KeyError (km !! kv.1) in Ok (k, kv.2)) (map_to_list found) in
  Ok (list_to_map pairs).

(** ** CacheChain *)

Section chain.
Context {C : Type} `{CacheOps C}.

(** [make_set_fn]: the operation on every cache in turn; a raise stops it. *)
Fixpoint for_caches (f : C -> upd C unit) (cs : list C) : upd (list C) unit :=
  match cs with
  | [] => ([], Ok tt)
  | c :: cs =>
      match f c with
      | (c, Raise e) => (c :: cs, Raise e)
      | (c, Ok _) => let r := for_caches f cs in (c :: r.1, r.2)
      end
  end.

Definition chain_set (key : string) (v : pyval) (time : Z) : list C -> upd (list C) unit :=
  for_caches (c_set key v time).
Definition chain_set_multi (kvs : contents) (time : Z) : list C -> upd (list C) unit :=
  for_caches (c_set_multi kvs time).
Definition chain_delete (key : string) : list C -> upd (list C) unit := for_caches (c_delete key).

(** [for c in self.caches[:-1]]. *)
Definition for_front (f : C -> upd C unit) (cs : list C) : upd (list C) unit :=
  let r := for_caches f (take (length cs - 1) cs) in (r.1 ++ drop (length cs - 1) cs, r.2).

(** The loop of [get]: [pre] are the caches already passed, in order.  What
    is found is [None] when no cache has the key. *)
Fixpoint get_from (key : string) (allow_local : bool) (pre post : list C) : upd (list C) pyval :=
  match post with
  | [] => (pre, Ok PNone)
  | c :: post =>
      if negb allow_local && is_local c then get_from key allow_local (pre ++ [c]) post else
      match c_get key c with
      | Raise e => (pre ++ c :: post, Raise e)
      | Ok PNone => get_from key allow_local (pre ++ [c]) post
      | Ok v =>
          let r := chain_set key v 0 pre in
          (r.1 ++ c :: post, match r.2 with Ok _ => Ok v | Raise e => Raise e end)
      end
  end.

(** [CacheChain.get]. *)
Definition chain_get (negative : bool) (key : string) (dflt : pyval) (allow_local : bool) (cs : list C)
  : upd (list C) pyval :=
  let r := get_from key allow_local [] cs in
  match r.2 with
  | Raise e => (r.1, Raise e)
  | Ok NoneResult => (r.1, Ok dflt)
  | Ok PNone =>
      if negative then
        let r' := for_front (c_set key NoneResult 0) r.1 in
        (r'.1, match r'.2 with Ok _ => Ok dflt | Raise e => Raise e end)
      else (r.1, Ok dflt)
  | Ok v => (r.1, Ok v)
  end.

(** The loop of [simple_get_multi]: [nkeys] is [len(keys)]. *)
Fixpoint get_multi_from (nkeys : nat) (allow_local : bool) (pre post : list C) (out : contents)
    (need : gset string) : upd (list C) (contents * gset string) :=
  match post with
  | [] => (pre, Ok (out, need))
  | c :: post =>
      if negb allow_local && is_local c then get_multi_from nkeys allow_local (pre ++ [c]) post out need else
      if (size out =? nkeys)%nat then (pre ++ c :: post, Ok (out, need)) else
      match c_get_multi (elements need) c with
      | Raise e => (pre ++ c :: post, Raise e)
      | Ok r =>
          if bool_decide (r = ∅) then get_multi_from nkeys allow_local (pre ++ [c]) post out need else
          match chain_set_multi r 0 pre with
          | (pre, Raise e) => (pre ++ c :: post, Raise e)
          | (pre, Ok _) =>
              let out := out ∪ r in
              get_multi_from nkeys allow_local (pre ++ [c]) post out (need ∖ dom out)
          end
      end
  end.

Definition drop_none_results (out : contents) : contents := filter (fun kv => kv.2 <> NoneResult) out.

(** [CacheChain.simple_get_multi]. *)
Definition chain_get_multi (negative : bool) (keys : list string) (allow_local : bool) (cs : list C)
  : upd (list C) contents :=
  match get_multi_from (length keys) allow_local [] cs ∅ (list_to_set keys) with
  | (cs, Raise e) => (cs, Raise e)
  | (cs, Ok (out, need)) =>
      if negb (bool_decide (need = ∅)) && negative then
        let d : contents := set_to_map (fun k => (k, NoneResult)) need in
        let r := for_front (c_set_multi d 0) cs in
        (r.1, match r.2 with Ok _ => Ok (drop_none_results out) | Raise e => Raise e end)
      else (cs, Ok (drop_none_results out))
  end.
End chain.

(** Caches of two kinds in one chain. *)
#[export] Instance sum_ops {A B : Type} `{CacheOps A} `{CacheOps B} : CacheOps (A + B) := {|
  is_local c := match c with inl a => is_local a | inr b => is_local b end;
  permanent c := match c with inl a => permanent a | inr b => permanent b end;
  c_get k c := match c with inl a => c_get k a | inr b => c_get k b end;
  c_get_multi ks c := match c with inl a => c_get_multi ks a | inr b => c_get_multi ks b end;
  c_set k v t c := match c with
    | inl a => let r := c_set k v t a in (inl r.1, r.2)
    | inr b => let r := c_set k v t b in (inr r.1, r.2)
    end;
  c_set_multi kvs t c := match c with
    | inl a => let r := c_set_multi kvs t a in (inl r.1, r.2)
    | inr b => let r := c_set_multi kvs t b in (inr r.1, r.2)
    end;
  c_delete k c := match c with
    | inl a => let r := c_delete k a in (inl r.1, r.2)
    | inr b => let r := c_delete k b in (inr r.1, r.2)
    end
|}.

(** ** HardcacheChain *)

Section hardcache.
Context (dumps : pyval -> string) (loads : string -> pyval).

(** A [HardCache] as a cache: its database, at a time. *)
Record hard := Hard { hard_now : Z; hard_choice : nat; hard_db : database }.

Definition with_db {A} (h : hard) (r : database * A) : hard * A := (Hard (hard_now h) (hard_choice h) r.1, r.2).

#[export] Instance hard_ops : CacheOps hard := {|
  is_local _ := false;
  permanent _ := true;
  c_get k h := hard_get loads (hard_now h) (hard_choice h) k PNone (hard_db h);
  c_get_multi ks h := hard_get_multi loads (hard_now h) (hard_choice h) ks (hard_db h);
  c_set k v t h := with_db h (hard_set dumps (hard_now h) k v t (hard_db h));
  c_set_multi kvs t h :=
    foldl (fun st kv =>
      match st.2 with
      | Raise e => st
      | Ok _ => if bool_decide (kv.2 = NoneResult) then st
                else with_db st.1 (hard_set dumps (hard_now h) kv.1 kv.2 t (hard_db st.1))
      end) (h, Ok tt) (map_to_list kvs);
  c_delete k h := match hard_delete k (hard_db h) with
    | Ok db => (Hard (hard_now h) (hard_choice h) db, Ok tt)
    | Raise e => (h, Raise e)
    end
|}.

Notation level := (cache + hard)%type.

(** [HardcacheChain.add]: the hard cache decides; the caches before it are set
    to what it answers. *)
Definition hardchain_add (key : string) (v : pyval) (time : Z) (front : list cache) (h : hard)
  : list cache * hard * res pyval :=
  let '(h, r) := with_db h (hard_add dumps loads (hard_now h) key v time (hard_db h)) in
  match r with
  | Raise e => (front, h, Raise e)
  | Ok added =>
      let st := for_caches (c_set key added time) front in
      (st.1, h, match st.2 with Ok _ => Ok added | Raise e => Raise e end)
  end.

(** [HardcacheChain.accrue]. *)
Definition hardchain_accrue (key : string) (time delta : Z) (front : list cache) (h : hard)
  : list level * res Z :=
  let all := (inl <$> front) ++ [inr h] in
  match c_get key h with
  | Raise e => (all, Raise e)
  | Ok v =>
      match (match v with PNone => Ok 0 | v => py_int v end) with
      | Raise e => (all, Raise e)
      | Ok n =>
          let st := for_caches (c_set key (PNum (n + delta)) time) all in
          (st.1, match st.2 with Ok _ => Ok (n + delta) | Raise e => Raise e end)
      end
  end.
End hardcache.

(** ** StaleCacheChain *)

Section stale.
Context {R : Type} `{CacheOps R}.

Record stale_chain := StaleChain {
  localcache : cache;
  stalecache : cache;
  realcache : R;
  has_stats : bool
}.

Definition staleness : Z := 30.

(** [StaleCacheChain.get]; without a stats object a stale miss raises. *)
Definition stale_get (key : string) (dflt : pyval) (stale allow_local : bool) (s : stale_chain)
  : upd stale_chain pyval :=
  match (if allow_local then data (localcache s) !! key else None) with
  | Some v => (s, Ok v)
  | None =>
      let stale_value := if stale then default PNone (data (stalecache s) !! key) else PNone in
      if stale && negb (bool_decide (stale_value = PNone)) then (s, Ok stale_value) else
      if stale && negb (has_stats s) then (s, Raise AttributeError) else
      match c_get key (realcache s) with
      | Raise e => (s, Raise e)
      | Ok PNone => (s, Ok dflt)
      | Ok v =>
          let st := if stale then (c_set key v staleness (stalecache s)) else (stalecache s, Ok tt) in
          match st.2 with
          | Raise e => (StaleChain (localcache s) st.1 (realcache s) (has_stats s), Raise e)
          | Ok _ =>
              let lc := c_set key v 0 (localcache s) in
              (StaleChain lc.1 st.1 (realcache s) (has_stats s),
               match lc.2 with Ok _ => Ok v | Raise e => Raise e end)
          end
      end
  end.

(** [StaleCacheChain.simple_get_multi]; [self.localcache.update] bypasses
    [set].  The local cache is used only when [allow_local] is passed. *)
Definition stale_get_multi (keys : gset string) (stale allow_local : bool) (s : stale_chain)
  : upd stale_chain contents :=
  let local := if allow_local then filter (fun kv => kv.1 ∈ keys) (data (localcache s)) else ∅ in
  let keys := keys ∖ dom local in
  let stale_values :=
    if stale && negb (bool_decide (keys = ∅))
    then filter (fun kv => kv.1 ∈ keys) (data (stalecache s)) else ∅ in
  let keys := keys ∖ dom stale_values in
  let ret := stale_values ∪ local in
  if bool_decide (keys = ∅) then (s, Ok ret) else
  match c_get_multi (elements keys) (realcache s) with
  | Raise e => (s, Raise e)
  | Ok values =>
      let st := if stale && negb (bool_decide (values = ∅))
                then c_set_multi values staleness (stalecache s) else (stalecache s, Ok tt) in
      match st.2 with
      | Raise e => (StaleChain (localcache s) st.1 (realcache s) (has_stats s), Raise e)
      | Ok _ =>
          (StaleChain (with_data (values ∪ data (localcache s)) (localcache s)) st.1 (realcache s) (has_stats s),
           Ok (values ∪ ret))
      end
  end.

(** [reset]: a new local cache. *)
Definition stale_reset (s : stale_chain) : stale_chain :=
  StaleChain (local_reset (localcache s)) (stalecache s) (realcache s) (has_stats s).
End stale.

(** ** Permacache *)

Section permacache.
Context {C : Type} `{CacheOps C}.

(** The chain in front and the column family behind; a row's value column is
    the pickled value. *)
Record permacache := MkPermacache { cache_chain : list C; cf : contents }.

(** [_backend_get] of several keys. *)
Definition backend_rows (keys : list string) (p : permacache) : contents :=
  filter (fun kv => kv.1 ∈ keys) (cf p).

Definition perma_backend_set_multi (kvs : contents) (prefix : string) (rows : contents) : contents :=
  foldl (fun rows kv => <[prefix +:+ kv.1 := kv.2]> rows) rows (map_to_list kvs).

(** [Permacache.get]; its [default] is never used. *)
Definition perma_get (key : string) (dflt : pyval) (allow_local : bool) (p : permacache) : upd permacache pyval :=
  match chain_get false key PNone allow_local (cache_chain p) with
  | (cs, Raise e) => (MkPermacache cs (cf p), Raise e)
  | (cs, Ok PNone) =>
      let v := default PNone (cf p !! key) in
      if truth v then
        let r := chain_set key v 0 cs in
        (MkPermacache r.1 (cf p), match r.2 with Ok _ => Ok v | Raise e => Raise e end)
      else (MkPermacache cs (cf p), Ok v)
  | (cs, Ok v) => (MkPermacache cs (cf p), Ok v)
  end.

Definition perma_set (key : string) (v : pyval) (p : permacache) : upd permacache unit :=
  let r := chain_set key v 0 (cache_chain p) in (MkPermacache r.1 (<[key := v]> (cf p)), r.2).

Definition prefixed (prefix : string) (kvs : contents) : contents :=
  kmap (fun k => prefix +:+ k) kvs.

Definition perma_set_multi (kvs : contents) (prefix : string) (p : permacache) : upd permacache unit :=
  let r := chain_set_multi (prefixed prefix kvs) 0 (cache_chain p) in
  (MkPermacache r.1 (perma_backend_set_multi kvs prefix (cf p)), r.2).

Definition pessimistically_set (key : string) (v : pyval) (p : permacache) : upd permacache unit :=
  let r := chain_delete key (cache_chain p) in (MkPermacache r.1 (<[key := v]> (cf p)), r.2).

(** [simple_get_multi]: when something is missing, every key is read. *)
Definition perma_get_multi (keys : list string) (allow_local : bool) (p : permacache) : upd permacache contents :=
  match chain_get_multi false keys allow_local (cache_chain p) with
  | (cs, Raise e) => (MkPermacache cs (cf p), Raise e)
  | (cs, Ok ret) =>
      let still_need := List.filter (fun k => negb (bool_decide (is_Some (ret !! k)))) keys in
      match still_need with
      | [] => (MkPermacache cs (cf p), Ok ret)
      | _ =>
          let from_cass := backend_rows keys p in
          let r := chain_set_multi from_cass 0 cs in
          (MkPermacache r.1 (cf p), match r.2 with Ok _ => Ok (from_cass ∪ ret) | Raise e => Raise e end)
      end
  end.

Definition perma_delete (key : string) (p : permacache) : upd permacache unit :=
  let r := chain_delete key (cache_chain p) in (MkPermacache r.1 (delete key (cf p)), r.2).

(** [mutate], under its lock; [mutation_fn] gets a copy of the value. *)
Definition perma_mutate (key : string) (mutation_fn : pyval -> res pyval) (willread : bool) (p : permacache)
  : upd permacache pyval :=
  let '(cs, value) :=
    if willread then chain_get false key PNone false (cache_chain p) else (cache_chain p, Ok PNone) in
  match value with
  | Raise e => (MkPermacache cs (cf p), Raise e)
  | Ok value =>
      let value := if willread && bool_decide (value = PNone) then default PNone (cf p !! key) else value in
      match mutation_fn value with
      | Raise e => (MkPermacache cs (cf p), Raise e)
      | Ok new_value =>
          let rows := if negb willread || negb (bool_decide (value = new_value))
                      then <[key := new_value]> (cf p) else cf p in
          let r := chain_set key new_value 0 cs in
          (MkPermacache r.1 rows, match r.2 with Ok _ => Ok new_value | Raise e => Raise e end)
      end
  end.
End permacache.

(** ** TransitionalCache *)

Section transitional.
Context {A B : Type} `{CacheOps A} `{CacheOps B}.

Record transitional := Transitional { original : A; replacement : B; read_original : bool }.

(** [key_transform(key)] for single keys, [key_transform(key, prefix)] for
    several; [None] when there is no transform. *)
Definition transform_key (tr : option (string -> string)) (key : string) : string :=
  match tr with Some f => f key | None => key end.

Definition trans_get (tr : option (string -> string)) (key : string) (t : transitional) : res pyval :=
  if read_original t then c_get key (original t) else c_get (transform_key tr key) (replacement t).

(** [make_set_fn]: both are written, the answer is that of the one read. *)
Definition trans_write (fa : A -> upd A unit) (fb : B -> upd B unit) (t : transitional) : upd transitional unit :=
  match fa (original t) with
  | (a, Raise e) => (Transitional a (replacement t) (read_original t), Raise e)
  | (a, Ok _) =>
      let rb := fb (replacement t) in
      (Transitional a rb.1 (read_original t), rb.2)
  end.

Definition trans_set (tr : option (string -> string)) (key : string) (v : pyval) (time : Z)
  : transitional -> upd transitional unit :=
  trans_write (c_set key v time) (c_set (transform_key tr key) v time).

Definition trans_delete (tr : option (string -> string)) (key : string)
  : transitional -> upd transitional unit :=
  trans_write (c_delete key) (c_delete (transform_key tr key)).

(** [transform_memcache_key] of a dictionary: every key must get the same new
    prefix. *)
Definition transform_dict (tr : string -> string -> string * string) (kvs : list (string * pyval))
    (prefix : string) : res (string * list (string * pyval)) :=
  let* _ := py_assert (negb (String.eqb prefix "")) in
  let pairs := (fun kv => (tr kv.1 prefix, kv.2)) <$> kvs in
  match pairs with
  | [] => Raise IndexError
  | ((p, _), _) :: rest =>
      let* _ := py_assert (forallb (fun x : string * string * pyval => String.eqb x.1.1 p) rest) in
      Ok (p, (fun x : string * string * pyval => (x.1.2, x.2)) <$> pairs)
  end.
End transitional.
End objects.
End Cache.
