(* ===== verification/CacheProps.v ===== *)
(** * Cache chains are transparent

    Against the laws of [CacheLaws]: what a chain of truthful caches answers
    is what the store behind it holds, every operation keeps the caches
    truthful, and the permacache is a refinement of a plain map, whatever the
    caches forget in between. *)

From S2P Require Import Prelude HardCache Cache.

Module CacheProps.
Import HardCache Cache.

(** What a chain relies on: a cache answers from its contents, a write may
    make it forget but not invent. *)
Class CacheLaws (C : Type) `{CacheOps C} := {
  content : C -> contents;
  law_get k c : c_get k c = Ok (default PNone (content c !! k));
  law_get_multi ks c : c_get_multi ks c = Ok (filter (fun kv => kv.1 ∈ ks) (content c));
  law_set k v t c : 0 <= t -> exists c', c_set k v t c = (c', Ok tt) /\
    content c' !! k = Some v /\ content c' ⊆ <[k := v]> (content c);
  law_set_multi kvs t c : 0 <= t -> exists c', c_set_multi kvs t c = (c', Ok tt) /\
    content c' ⊆ kvs ∪ content c;
  law_delete k c : exists c', c_delete k c = (c', Ok tt) /\ content c' = delete k (content c)
}.

Lemma maybe_reset_sub c : data (maybe_reset c) ⊆ data c.
Proof.
  unfold maybe_reset. destruct (cache_kind_of c); [done| |done].
  destruct (_ <? _)%nat; [apply map_empty_subseteq|done].
Qed.

Lemma cache_set_ok k v t c : 0 <= t -> exists c', cache_set k v t c = (c', Ok tt) /\
  data c' !! k = Some v /\ data c' ⊆ <[k := v]> (data c).
Proof.
  intros Ht. unfold cache_set. replace (t <? 0) with false by lia.
  assert (H : exists c', (let c0 := maybe_reset c in (with_data (<[k := v]> (data c0)) c0, Ok tt)) = (c', Ok tt) /\
    data c' !! k = Some v /\ data c' ⊆ <[k := v]> (data c)).
  { eexists. split; [done|]. simpl. rewrite lookup_insert_eq. split; [done|].
    apply insert_mono, maybe_reset_sub. }
  destruct (cache_kind_of c); [done|done|]. eexists. split; [done|]. simpl. by rewrite lookup_insert_eq.
Qed.

Lemma fold_set_sub kvs (t : Z) c : 0 <= t ->
  data (foldl (fun c kv => (cache_set kv.1 kv.2 t c).1) c kvs) ⊆ list_to_map (reverse kvs) ∪ data c.
Proof.
  intros Ht. revert c. induction kvs as [|[k v] kvs IH]; intros c; simpl.
  - change (reverse ([] : list (string * pyval))) with ([] : list (string * pyval)). simpl. by rewrite (left_id ∅ (∪)).
  - etransitivity; [apply IH|]. destruct (cache_set_ok k v t c Ht) as (c' & -> & _ & Hsub). simpl.
    rewrite reverse_cons, list_to_map_app. simpl. rewrite <- (assoc (∪)).
    rewrite insert_empty, <- insert_union_singleton_l. by apply map_union_mono_l.
Qed.

Section objects.
Context (obj_true : Z -> bool).

#[export] Program Instance cache_laws : CacheLaws cache := {| content := data |}.
Next Obligation. done. Qed.
Next Obligation. done. Qed.
Next Obligation. intros. by apply cache_set_ok. Qed.
Next Obligation.
  intros kvs t c Ht. simpl. unfold cache_set_multi. replace (t <? 0) with false by lia.
  assert (H : exists c', (foldl (fun c kv => (cache_set kv.1 kv.2 t c).1) c (map_to_list kvs), Ok tt) = (c', Ok tt : res unit) /\
    data c' ⊆ kvs ∪ data c).
  { eexists. split; [done|]. etransitivity; [by apply fold_set_sub|].
    assert (list_to_map (reverse (map_to_list kvs)) = kvs) as ->; [|done].
    rewrite <- (list_to_map_to_list kvs) at 2. apply list_to_map_proper; [|by rewrite reverse_Permutation].
    rewrite reverse_Permutation. apply NoDup_fst_map_to_list. }
  destruct (cache_kind_of c); [done|done|]. by eexists.
Qed.
Next Obligation. intros. by eexists. Qed.

Section chain.
Context {C : Type} `{CacheLaws C}.

(** What a cache may hold for a store: its value, or, where misses are
    remembered, the marker for a key that is not in the store. *)
Definition entry_ok (store : contents) (k : string) (v : pyval) : Prop :=
  (v <> PNone /\ v <> NoneResult /\ store !! k = Some v) \/ (v = NoneResult /\ store !! k = None).

Definition truthful (store : contents) (c : C) : Prop :=
  forall k v, content c !! k = Some v -> entry_ok store k v.

Lemma truthful_set store k v t c : 0 <= t -> truthful store c -> entry_ok store k v ->
  exists c', c_set k v t c = (c', Ok tt) /\ truthful store c'.
Proof.
  intros Ht Hc Hv. destruct (law_set k v t c Ht) as (c' & E & _ & Hsub). exists c'. split; [done|].
  intros k' v' Hk'. eapply lookup_weaken in Hk'; [|exact Hsub].
  apply lookup_insert_Some in Hk' as [[<- <-]|[_ ?]]; [done|by apply Hc].
Qed.

Lemma truthful_set_multi store kvs t c : 0 <= t -> truthful store c ->
  (forall k v, kvs !! k = Some v -> entry_ok store k v) ->
  exists c', c_set_multi kvs t c = (c', Ok tt) /\ truthful store c'.
Proof.
  intros Ht Hc Hv. destruct (law_set_multi kvs t c Ht) as (c' & E & Hsub). exists c'. split; [done|].
  intros k' v' Hk'. eapply lookup_weaken in Hk'; [|exact Hsub].
  apply lookup_union_Some_raw in Hk' as [|[_ ?]]; [by apply Hv|by apply Hc].
Qed.

(** Storing a new value everywhere. *)
Lemma truthful_write store k v t c : 0 <= t -> truthful store c -> v <> PNone -> v <> NoneResult ->
  exists c', c_set k v t c = (c', Ok tt) /\ truthful (<[k := v]> store) c'.
Proof.
  intros Ht Hc Hv Hn. destruct (law_set k v t c Ht) as (c' & E & _ & Hsub). exists c'. split; [done|].
  intros k' v' Hk'. eapply lookup_weaken in Hk'; [|exact Hsub]. unfold entry_ok. rewrite lookup_insert.
  apply lookup_insert_Some in Hk' as [[<- <-]|[Hne Hk']].
  - rewrite decide_True by done. by left.
  - rewrite decide_False by done. by apply Hc.
Qed.

Lemma truthful_delete store k c : truthful store c ->
  exists c', c_delete k c = (c', Ok tt) /\ forall v,  truthful (<[k := v]> store) c' /\ truthful (delete k store) c'.
Proof.
  intros Hc. destruct (law_delete k c) as (c' & E & Hd). exists c'. split; [done|]. intros v.
  split; intros k' v'; rewrite Hd; intros [Hne Hk']%lookup_delete_Some; unfold entry_ok;
    [rewrite lookup_insert_ne by done|rewrite lookup_delete_ne by done]; by apply Hc.
Qed.

(** The operation on every cache of a chain. *)
Lemma for_caches_ok (f : C -> upd C unit) (P Q : C -> Prop) cs :
  (forall c, P c -> exists c', f c = (c', Ok tt) /\ Q c') -> Forall P cs ->
  exists cs', for_caches f cs = (cs', Ok tt) /\ Forall Q cs' /\ length cs' = length cs.
Proof.
  intros Hf. induction 1 as [|c cs Hc _ (cs' & E & Hq & Hl)]; simpl; [by exists []|].
  destruct (Hf c Hc) as (c' & -> & Hc'). rewrite E. exists (c' :: cs'). simpl. auto.
Qed.

Lemma for_front_ok (f : C -> upd C unit) (P : C -> Prop) cs :
  (forall c, P c -> exists c', f c = (c', Ok tt) /\ P c') -> Forall P cs ->
  exists cs', for_front f cs = (cs', Ok tt) /\ Forall P cs'.
Proof.
  intros Hf Hcs. unfold for_front.
  destruct (for_caches_ok f P P (take (length cs - 1) cs)) as (cs' & -> & Hc' & _); [done|by apply Forall_take|].
  eexists. split; [done|]. apply Forall_app. split; [done|by apply Forall_drop].
Qed.

(** ** Reading one key *)

Lemma get_from_ok store key allow_local pre post : Forall (truthful store) pre -> Forall (truthful store) post ->
  exists cs r, get_from key allow_local pre post = (cs, Ok r) /\ Forall (truthful store) cs /\
    last cs = last (pre ++ post) /\
    (r <> PNone -> entry_ok store key r) /\
    (r = PNone -> forall c, c ∈ post -> allow_local = true \/ is_local c = false -> content c !! key = None).
Proof.
  intros Hpre Hpost. revert pre Hpre. induction Hpost as [|c post Hc Hpost IH]; intros pre Hpre; simpl.
  - exists pre, PNone. split_and!; try done; [by rewrite app_nil_r|]. intros _ c Hc. by apply not_elem_of_nil in Hc.
  - assert (Hpre' : Forall (truthful store) (pre ++ [c])) by (apply Forall_app; auto).
    assert (Hskip : exists cs r, get_from key allow_local (pre ++ [c]) post = (cs, Ok r) /\
      Forall (truthful store) cs /\ last cs = last (pre ++ c :: post) /\ (r <> PNone -> entry_ok store key r) /\
      (r = PNone -> forall c, c ∈ post -> allow_local = true \/ is_local c = false -> content c !! key = None))
      by (rewrite (cons_middle c pre post), app_assoc; by apply IH).
    destruct (negb allow_local && is_local c) eqn:Hl.
    { destruct Hskip as (cs & r & E & Hcs & Hlast & Hr & Hn). exists cs, r. split_and!; try done.
      intros -> c' [->|Hc']%elem_of_cons Hcons; [|by apply Hn].
      apply andb_true_iff in Hl as [?%negb_true_iff ?]. destruct Hcons; congruence. }
    rewrite law_get. destruct (content c !! key) as [v|] eqn:Ev; simpl.
    + pose proof (Hc key v Ev) as Hok. assert (Hv : v <> PNone) by (destruct Hok as [[? _]|[-> _]]; done).
      destruct (for_caches_ok (c_set key v 0) (truthful store) (truthful store) pre) as (pre' & Es & Hpre2 & _);
        [|done|].
      { intros d Hd. by apply truthful_set. }
      exists (pre' ++ c :: post), v. unfold chain_set. rewrite Es. simpl. split_and!.
      * by destruct v.
      * apply Forall_app. split; [done|by constructor].
      * by rewrite !last_app_cons.
      * done.
      * by intros ->.
    + destruct Hskip as (cs & r & E & Hcs & Hlast & Hr & Hn). exists cs, r. split_and!; try done.
      intros -> c' [->|Hc']%elem_of_cons Hcons; [done|by apply Hn].
Qed.

(** The last cache of a chain knows the whole store. *)
Definition authority (store : contents) (cs : list C) : Prop :=
  exists c, last cs = Some c /\ is_local c = false /\ content c = store.

(** A coherent chain: every cache is truthful, the last one complete. *)
Definition coherent (store : contents) (cs : list C) : Prop :=
  Forall (truthful store) cs /\ authority store cs.

Lemma coherent_values store cs k v : coherent store cs -> store !! k = Some v -> v <> PNone /\ v <> NoneResult.
Proof.
  intros [Ht (c & Hl & _ & Hc)] Hk. rewrite <- Hc in Hk. apply last_Some_elem_of in Hl.
  rewrite Forall_forall in Ht. destruct (Ht c Hl k v Hk) as [(? & ? & _)|[_ Hn]]; [done|]. congruence.
Qed.

Lemma for_front_last (f : C -> upd C unit) cs cs' : for_front f cs = (cs', Ok tt) -> cs <> [] -> last cs' = last cs.
Proof.
  unfold for_front. intros [= <- _] Hne. destruct cs as [|c cs _] using rev_ind; [done|].
  rewrite length_app. simpl. rewrite Nat.add_sub, drop_app_length, take_app_length. by rewrite !last_snoc.
Qed.

(** A coherent chain answers a read with what the store holds, remembers
    misses or not, and stays coherent. *)
Theorem chain_get_transparent negative key dflt allow_local (cs : list C) store
    (Hc : coherent store cs) :
  exists cs', chain_get negative key dflt allow_local cs = (cs', Ok (default dflt (store !! key))) /\
    coherent store cs'.
Proof.
  pose proof Hc as [Ht (c & Hl & Hloc & Hcont)]. unfold chain_get.
  destruct (get_from_ok store key allow_local [] cs) as (cs1 & r & E & Ht1 & Hl1 & Hr & Hn); [constructor|done|].
  rewrite E. cbn [fst snd app] in *.
  assert (Hc1 : coherent store cs1) by (split; [done|]; exists c; by rewrite Hl1).
  destruct (decide (r = PNone)) as [->|Hne].
  - assert (Hk : store !! key = None).
    { rewrite <- Hcont. apply Hn; [done|by eapply last_Some_elem_of|by right]. }
    rewrite Hk. cbn [default from_option]. destruct negative; [|by exists cs1].
    destruct (for_front_ok (c_set key NoneResult 0) (truthful store) cs1) as (cs2 & E2 & Ht2); [|done|].
    { intros d Hd. apply truthful_set; [done|done|]. by right. }
    rewrite E2. exists cs2. split; [done|]. split; [done|]. exists c.
    rewrite (for_front_last _ _ _ E2); [by rewrite Hl1|]. intros ->. simpl in Hl1. congruence.
  - destruct (Hr Hne) as [(_ & Hnr & Hs)|[-> Hs]]; rewrite Hs; simpl; exists cs1; [|done].
    by destruct r.
Qed.

(** ** Reading many keys *)

Record multi_ok (store : contents) (keys : gset string) (out : contents) (need : gset string) : Prop := MultiOk {
  mo_entry : forall k v, out !! k = Some v -> k ∈ keys /\ entry_ok store k v;
  mo_need : need = keys ∖ dom out
}.

Lemma get_multi_from_ok store keys nkeys allow_local pre post out need :
  Forall (truthful store) pre -> Forall (truthful store) post -> multi_ok store keys out need ->
  (size keys <= nkeys)%nat ->
  exists cs out' need', get_multi_from nkeys allow_local pre post out need = (cs, Ok (out', need')) /\
    Forall (truthful store) cs /\ last cs = last (pre ++ post) /\ multi_ok store keys out' need' /\
    (forall k c, k ∈ need' -> c ∈ post -> allow_local = true \/ is_local c = false -> content c !! k = None) /\
    out ⊆ out'.
Proof.
  intros Hpre Hpost Hm Hsz. revert pre out need Hpre Hm.
  induction Hpost as [|c post Hc Hpost IH]; intros pre out need Hpre Hm; simpl.
  - exists pre, out, need. rewrite app_nil_r. split_and!; try done. intros k c _ Hc. by apply not_elem_of_nil in Hc.
  - assert (Hpre' : Forall (truthful store) (pre ++ [c])) by (apply Forall_app; auto).
    destruct (negb allow_local && is_local c) eqn:Hl.
    { destruct (IH (pre ++ [c]) out need Hpre' Hm) as (cs & o & n & E & Ht & Hla & Hm' & Hn & Ho).
      exists cs, o, n. rewrite <- app_assoc in Hla. split_and!; try done.
      intros k d Hk [->|Hd]%elem_of_cons Hcons; [|by eapply Hn].
      apply andb_true_iff in Hl as [?%negb_true_iff ?]. destruct Hcons; congruence. }
    destruct (size out =? nkeys)%nat eqn:Hfull.
    { exists (pre ++ c :: post), out, need. split_and!; try done.
      - apply Forall_app. split; [done|by constructor].
      - intros k d Hk. exfalso. rewrite (mo_need _ _ _ _ Hm) in Hk. apply elem_of_difference in Hk as [Hk Hko].
        apply Nat.eqb_eq in Hfull. assert (Hsub : dom out ⊆ keys).
        { intros x [v Hv]%elem_of_dom. by apply (mo_entry _ _ _ _ Hm x v). }
        assert (dom out ⊂ keys) as Hlt%subset_size; [|rewrite size_dom in Hlt; lia].
        split; [done|]. intros Hs. by apply Hko, Hs. }
    rewrite law_get_multi. set (r := filter _ (content c)).
    assert (Hr : forall k v, r !! k = Some v <-> k ∈ need /\ content c !! k = Some v).
    { intros k v. unfold r. rewrite map_lookup_filter_Some. simpl. rewrite elem_of_elements. tauto. }
    assert (Hmiss : forall k o n, multi_ok store keys o n -> k ∈ n -> out ⊆ o -> r ⊆ o -> content c !! k = None).
    { intros k o n Hmo Hk Ho Hro. destruct (content c !! k) as [v|] eqn:Ev; [exfalso|done].
      rewrite (mo_need _ _ _ _ Hmo) in Hk. apply elem_of_difference in Hk as [Hk Hko]. apply Hko.
      destruct (decide (k ∈ need)) as [Hkn|Hkn].
      - apply elem_of_dom. exists v. eapply lookup_weaken; [|exact Hro]. by apply Hr.
      - rewrite (mo_need _ _ _ _ Hm) in Hkn. assert (k ∈ dom out) as [w Hw]%elem_of_dom by set_solver.
        apply elem_of_dom. exists w. by eapply lookup_weaken. }
    case_bool_decide as Hre.
    { destruct (IH (pre ++ [c]) out need Hpre' Hm) as (cs & o & n & E & Ht & Hla & Hm' & Hn & Ho).
      exists cs, o, n. rewrite <- app_assoc in Hla. split_and!; try done.
      intros k d Hk [->|Hd]%elem_of_cons Hcons; [|by eapply Hn].
      eapply Hmiss; [done|done|done|rewrite Hre; apply map_empty_subseteq]. }
    destruct (for_caches_ok (c_set_multi r 0) (truthful store) (truthful store) pre) as (pre' & Es & Hpre2 & _); [|done|].
    { intros d Hd. apply truthful_set_multi; [done|done|]. intros k v [_ Hk]%Hr. by apply Hc. }
    unfold chain_set_multi. rewrite Es.
    assert (Hm1 : multi_ok store keys (out ∪ r) (need ∖ dom (out ∪ r))).
    { split.
      - intros k v [|[_ [Hk Hv]%Hr]]%lookup_union_Some_raw; [by apply (mo_entry _ _ _ _ Hm)|].
        split; [|by apply Hc]. rewrite (mo_need _ _ _ _ Hm) in Hk. set_solver.
      - rewrite (mo_need _ _ _ _ Hm), dom_union_L. set_solver. }
    destruct (IH (pre' ++ [c]) (out ∪ r) (need ∖ dom (out ∪ r))) as (cs & o & n & E & Ht & Hla & Hm' & Hn & Ho).
    { apply Forall_app. auto. }
    { done. }
    exists cs, o, n. split_and!; [done|done| |done| |].
    + rewrite Hla, <- app_assoc. simpl. by rewrite !last_app_cons.
    + intros k d Hk [->|Hd]%elem_of_cons Hcons; [|by eapply Hn].
      eapply Hmiss; [done|done|etransitivity; [apply map_union_subseteq_l|done]|].
      apply map_subseteq_spec. intros k' v' Hk'. eapply lookup_weaken; [|exact Ho].
      apply lookup_union_Some_raw. right. split; [|done]. apply Hr in Hk' as [Hk' _].
      rewrite (mo_need _ _ _ _ Hm) in Hk'. apply not_elem_of_dom. set_solver.
    + etransitivity; [apply map_union_subseteq_l|done].
Qed.

Lemma multi_ok_start store (keys : list string) : multi_ok store (list_to_set keys) ∅ (list_to_set keys).
Proof. split; [by intros k v; rewrite lookup_empty|]. rewrite dom_empty_L. set_solver. Qed.

Lemma keys_size (keys : list string) : (size (list_to_set keys : gset string) <= length keys)%nat.
Proof.
  apply submseteq_length, NoDup_submseteq; [apply NoDup_elements|].
  intros k. by rewrite elem_of_elements, elem_of_list_to_set.
Qed.

Lemma drop_none_results_ok store keys out need k v : multi_ok store keys out need ->
  drop_none_results out !! k = Some v -> k ∈ keys /\ v <> PNone /\ store !! k = Some v.
Proof.
  intros Hm [Hk Hv]%map_lookup_filter_Some. simpl in Hv. destruct (mo_entry _ _ _ _ Hm k v Hk) as [Hin Hok].
  split; [done|]. destruct Hok as [(? & _ & ?)|[? _]]; done.
Qed.

(** Many keys: a coherent chain answers with the part of the store that was
    asked for. *)
Theorem chain_get_multi_transparent negative keys allow_local (cs : list C) store
    (Hc : coherent store cs) :
  exists cs', chain_get_multi negative keys allow_local cs = (cs', Ok (filter (fun kv => kv.1 ∈ keys) store)) /\
    coherent store cs'.
Proof.
  pose proof Hc as [Ht (c & Hl & Hloc & Hcont)]. unfold chain_get_multi.
  destruct (get_multi_from_ok store (list_to_set keys) (length keys) allow_local [] cs ∅ (list_to_set keys))
    as (cs1 & out & need & E & Ht1 & Hl1 & Hm & Hn & _);
    [constructor|done|apply multi_ok_start|apply keys_size|].
  rewrite E. cbn [app] in Hl1.
  assert (Hc1 : coherent store cs1) by (split; [done|]; exists c; by rewrite Hl1).
  assert (Hneed : forall k, k ∈ need -> store !! k = None).
  { intros k Hk. rewrite <- Hcont. eapply Hn; [done|by eapply last_Some_elem_of|by right]. }
  assert (Hout : drop_none_results out = filter (fun kv => kv.1 ∈ keys) store).
  { apply map_eq. intros k. apply option_eq. intros v. split.
    - intros (Hin & _ & Hs)%(drop_none_results_ok store (list_to_set keys) out need); [|done].
      apply map_lookup_filter_Some. split; [done|]. by apply elem_of_list_to_set in Hin.
    - intros [Hs Hin]%map_lookup_filter_Some. simpl in Hin.
      destruct (coherent_values store cs k v Hc Hs) as [Hv1 Hv2].
      destruct (out !! k) as [w|] eqn:Ew.
      + destruct (mo_entry _ _ _ _ Hm k w Ew) as [_ [(_ & _ & Hw)|[_ Hw]]]; [|congruence].
        apply map_lookup_filter_Some. split; [congruence|done].
      + assert (Hk : k ∈ need).
        { rewrite (mo_need _ _ _ _ Hm). apply elem_of_difference. split; [by apply elem_of_list_to_set|].
          by apply not_elem_of_dom. }
        apply Hneed in Hk. congruence. }
  rewrite Hout. destruct (negb (bool_decide (need = ∅)) && negative); [|by exists cs1].
  match goal with |- context [for_front ?f cs1] =>
    destruct (for_front_ok f (truthful store) cs1) as (cs2 & E2 & Ht2); [|done|] end.
  { intros d Hd. apply truthful_set_multi; [done|done|]. intros k v Hk.
    apply lookup_set_to_map in Hk as (k' & Hk' & [= -> <-]); [|naive_solver]. right. auto. }
  rewrite E2. exists cs2. split; [done|]. split; [done|]. exists c.
  rewrite (for_front_last _ _ _ E2); [by rewrite Hl1|]. intros ->. simpl in Hl1. congruence.
Qed.

(** ** The permacache refines a map *)

(** What users do with a [Permacache], and what it answers. *)
Inductive perma_op :=
  | PGet (key : string) (allow_local : bool)
  | PGetMulti (keys : list string) (allow_local : bool)
  | PSet (key : string) (v : pyval)
  | PPessimisticallySet (key : string) (v : pyval)
  | PDelete (key : string)
  | PMutate (key : string) (mutation_fn : pyval -> pyval) (willread : bool).

Inductive answer := AVal (v : pyval) | AMulti (m : contents) | AUnit.

Definition answering {X A} (f : A -> answer) (r : upd X A) : upd X answer :=
  (r.1, match r.2 with Ok a => Ok (f a) | Raise e => Raise e end).

Definition perma_do (op : perma_op) (p : permacache (C := C)) : upd (permacache (C := C)) answer :=
  match op with
  | PGet k al => answering AVal (perma_get obj_true k PNone al p)
  | PGetMulti ks al => answering AMulti (perma_get_multi ks al p)
  | PSet k v => answering (fun _ => AUnit) (perma_set k v p)
  | PPessimisticallySet k v => answering (fun _ => AUnit) (pessimistically_set k v p)
  | PDelete k => answering (fun _ => AUnit) (perma_delete k p)
  | PMutate k f willread => answering AVal (perma_mutate k (fun v => Ok (f v)) willread p)
  end.

(** The specification: a map. *)
Definition map_do (op : perma_op) (m : contents) : contents * answer :=
  match op with
  | PGet k _ => (m, AVal (default PNone (m !! k)))
  | PGetMulti ks _ => (m, AMulti (filter (fun kv => kv.1 ∈ ks) m))
  | PSet k v | PPessimisticallySet k v => (<[k := v]> m, AUnit)
  | PDelete k => (delete k m, AUnit)
  | PMutate k f willread =>
      let v := f (if willread then default PNone (m !! k) else PNone) in (<[k := v]> m, AVal v)
  end.

(** Only proper values are stored. *)
Definition proper (v : pyval) : Prop := v <> PNone /\ v <> NoneResult.

Definition op_proper (op : perma_op) : Prop :=
  match op with
  | PSet _ v | PPessimisticallySet _ v => proper v
  | PMutate _ f _ => forall v, proper (f v)
  | _ => True
  end.

Record perma_inv (p : permacache (C := C)) : Prop := PermaInv {
  pv_truthful : Forall (truthful (cf p)) (cache_chain p);
  pv_proper : forall k v, cf p !! k = Some v -> proper v
}.

Lemma perma_write k v (p : permacache (C := C)) : perma_inv p -> proper v ->
  exists cs, chain_set k v 0 (cache_chain p) = (cs, Ok tt) /\ perma_inv (MkPermacache cs (<[k := v]> (cf p))).
Proof.
  intros [Ht Hp] [Hv Hn].
  destruct (for_caches_ok (c_set k v 0) (truthful (cf p)) (truthful (<[k := v]> (cf p))) (cache_chain p))
    as (cs & E & Hcs & _); [|done|].
  { intros c Hc. by apply truthful_write. }
  exists cs. split; [exact E|]. split; [done|]. simpl. intros k' v'.
  rewrite lookup_insert_Some. intros [[_ <-]|[_ ?]]; [done|by eapply Hp].
Qed.

Lemma perma_fill (kvs : contents) (p : permacache (C := C)) cs : Forall (truthful (cf p)) cs ->
  (forall k v, kvs !! k = Some v -> proper v /\ cf p !! k = Some v) ->
  exists cs', chain_set_multi kvs 0 cs = (cs', Ok tt) /\ Forall (truthful (cf p)) cs'.
Proof.
  intros Ht Hk. destruct (for_caches_ok (c_set_multi kvs 0) (truthful (cf p)) (truthful (cf p)) cs)
    as (cs' & E & Hcs & _); [|done|by exists cs'].
  intros c Hc. apply truthful_set_multi; [done|done|]. intros k v Hv.
  destruct (Hk k v Hv) as [[? ?] ?]. by left.
Qed.

Lemma chain_get_plain key allow_local cs store : Forall (truthful store) cs ->
  (forall k v, store !! k = Some v -> proper v) ->
  exists cs' r, chain_get false key PNone allow_local cs = (cs', Ok r) /\ Forall (truthful store) cs' /\
    (r = PNone \/ store !! key = Some r) /\ (store !! key = None -> r = PNone).
Proof.
  intros Ht Hp. destruct (get_from_ok store key allow_local [] cs) as (cs1 & r & E & Ht1 & _ & Hr & _); [constructor|done|].
  unfold chain_get. rewrite E. cbn [fst snd].
  destruct (decide (r = PNone)) as [->|Hne]; [exists cs1, PNone; auto|].
  destruct (Hr Hne) as [(_ & Hn & Hs)|[-> Hs]].
  - exists cs1, r. split_and!; [by destruct r|done|auto|congruence].
  - exists cs1, PNone. auto.
Qed.

Lemma perma_get_spec key allow_local (p : permacache (C := C)) : perma_inv p ->
  exists cs, perma_get obj_true key PNone allow_local p =
      (MkPermacache cs (cf p), Ok (default PNone (cf p !! key))) /\ Forall (truthful (cf p)) cs.
Proof.
  intros [Ht Hp]. destruct (chain_get_plain key allow_local (cache_chain p) (cf p) Ht Hp)
    as (cs1 & r & E & Ht1 & Hr & Hn). unfold perma_get. rewrite E.
  destruct (decide (r = PNone)) as [->|Hne].
  - destruct (truth obj_true (default PNone (cf p !! key))) eqn:Htr; [|by exists cs1].
    destruct (cf p !! key) as [v|] eqn:Ev; simpl in *; [|done].
    destruct (Hp key v Ev) as [Hv1 Hv2].
    destruct (for_caches_ok (c_set key v 0) (truthful (cf p)) (truthful (cf p)) cs1) as (cs2 & E2 & Ht2 & _); [|done|].
    { intros c Hc. apply truthful_set; [done|done|]. by left. }
    unfold chain_set. rewrite E2. by exists cs2.
  - destruct Hr as [|Hr]; [done|]. exists cs1. rewrite Hr. split; [by destruct r|done].
Qed.

Lemma perma_get_multi_spec keys allow_local (p : permacache (C := C)) : perma_inv p ->
  exists cs, perma_get_multi keys allow_local p =
      (MkPermacache cs (cf p), Ok (filter (fun kv => kv.1 ∈ keys) (cf p))) /\ Forall (truthful (cf p)) cs.
Proof.
  intros [Ht Hp]. unfold perma_get_multi, chain_get_multi.
  destruct (get_multi_from_ok (cf p) (list_to_set keys) (length keys) allow_local [] (cache_chain p) ∅ (list_to_set keys))
    as (cs1 & out & need & E & Ht1 & _ & Hm & _ & _);
    [constructor|done|apply multi_ok_start|apply keys_size|].
  rewrite E, andb_false_r.
  assert (Hsub : drop_none_results out ⊆ filter (fun kv => kv.1 ∈ keys) (cf p)).
  { apply map_subseteq_spec. intros k v (Hin & _ & Hs)%(drop_none_results_ok (cf p) (list_to_set keys) out need); [|done].
    apply map_lookup_filter_Some. split; [done|]. by apply elem_of_list_to_set in Hin. }
  destruct (List.filter _ keys) as [|k0 ks] eqn:Ef.
  - exists cs1. split; [|done]. do 2 f_equal. apply (anti_symm (⊆)); [done|].
    apply map_subseteq_spec. intros k v [Hs Hin]%map_lookup_filter_Some. simpl in Hin.
    assert (Hd : is_Some (drop_none_results out !! k)).
    { destruct (drop_none_results out !! k) eqn:Ek; [by eexists|]. exfalso.
      assert (Hk : k ∈ List.filter (fun k => negb (bool_decide (is_Some (drop_none_results out !! k)))) keys).
      { apply elem_of_filter_bool. split; [|done]. rewrite Ek. done. }
      rewrite Ef in Hk. by apply not_elem_of_nil in Hk. }
    destruct Hd as [w Hw]. pose proof (lookup_weaken _ _ _ _ Hw Hsub) as [Hw' _]%map_lookup_filter_Some. congruence.
  - destruct (perma_fill (backend_rows keys p) p cs1 Ht1) as (cs2 & E2 & Ht2).
    { intros k v [Hk _]%map_lookup_filter_Some. split; [by eapply Hp|done]. }
    rewrite E2. exists cs2. split; [|done]. do 2 f_equal. unfold backend_rows.
    by apply map_union_absorb_r || (apply map_eq; intros k; apply option_eq; intros v;
      rewrite lookup_union_Some_raw; split;
      [intros [|[_ Hd]]; [done|by eapply lookup_weaken]|by left]).
Qed.

(** Deleting or writing the row and dropping the caches' entries. *)
Lemma perma_drop k (p : permacache (C := C)) : perma_inv p ->
  exists cs, chain_delete k (cache_chain p) = (cs, Ok tt) /\
    (forall v, proper v -> perma_inv (MkPermacache cs (<[k := v]> (cf p)))) /\
    perma_inv (MkPermacache cs (delete k (cf p))).
Proof.
  intros [Ht Hp].
  destruct (for_caches_ok (c_delete k) (truthful (cf p))
    (fun c => forall v, truthful (<[k := v]> (cf p)) c /\ truthful (delete k (cf p)) c) (cache_chain p))
    as (cs & E & Hcs & _); [|done|].
  { intros c Hc. by apply truthful_delete. }
  exists cs. split; [exact E|]. rewrite Forall_forall in Hcs. split.
  - intros v Hv. split; simpl; [apply Forall_forall; intros c Hc; by apply Hcs|].
    intros k' v'. rewrite lookup_insert_Some. intros [[_ <-]|[_ ?]]; [done|by eapply Hp].
  - split; simpl; [apply Forall_forall; intros c Hc; by apply (Hcs c Hc PNone)|].
    intros k' v' [_ ?]%lookup_delete_Some. by eapply Hp.
Qed.

Lemma perma_mutate_spec k (f : pyval -> pyval) (willread : bool) (p : permacache (C := C)) : perma_inv p -> (forall v, proper (f v)) ->
  let v := f (if willread then default PNone (cf p !! k) else PNone) in
  exists p' : permacache (C := C), perma_mutate k (fun v => Ok (f v)) willread p = (p', Ok v) /\ cf p' = <[k := v]> (cf p) /\ perma_inv p'.
Proof.
  intros Hi Hf v. pose proof Hi as [Ht Hp]. unfold perma_mutate.
  assert (Hread : exists cs r, (if willread then chain_get false k PNone false (cache_chain p)
      else (cache_chain p, Ok PNone)) = (cs, Ok r) /\ Forall (truthful (cf p)) cs /\
    (if willread && bool_decide (r = PNone) then default PNone (cf p !! k) else r) =
    (if willread then default PNone (cf p !! k) else PNone)).
  { destruct willread; [|by exists (cache_chain p), PNone].
    destruct (chain_get_plain k false (cache_chain p) (cf p) Ht Hp) as (cs & r & E & Hcs & Hr & Hn).
    exists cs, r. split_and!; [done|done|]. simpl. case_bool_decide as Hb; [done|].
    destruct Hr as [|Hr]; [done|]. by rewrite Hr. }
  destruct Hread as (cs & r & -> & Hcs & ->). fold v.
  set (old := if willread then default PNone (cf p !! k) else PNone) in *.
  assert (Hrows : (if negb willread || negb (bool_decide (old = v)) then <[k := v]> (cf p) else cf p) = <[k := v]> (cf p)).
  { destruct (negb willread || negb (bool_decide (old = v))) eqn:Hb; [done|].
    apply orb_false_iff in Hb as [Hw Hb]. apply negb_false_iff in Hw, Hb. apply bool_decide_eq_true in Hb.
    unfold old in Hb. rewrite Hw in Hb. symmetry. apply insert_id. destruct (cf p !! k) as [w|] eqn:Ew; simpl in Hb; [congruence|].
    exfalso. destruct (Hf old) as [Hn _]. fold v in Hn. congruence. }
  change (f old) with v. rewrite Hrows.
  destruct (perma_write k v (MkPermacache cs (cf p))) as (cs2 & E2 & Hi2); [by split|apply Hf|].
  simpl in E2, Hi2. rewrite E2. eexists. split; [done|]. split; [done|exact Hi2].
Qed.

(** Every use of a permacache answers as the map does, and keeps the caches
    truthful. *)
Lemma perma_do_spec op (p : permacache (C := C)) : perma_inv p -> op_proper op ->
  exists p' : permacache (C := C), perma_do op p = (p', Ok (map_do op (cf p)).2) /\ cf p' = (map_do op (cf p)).1 /\ perma_inv p'.
Proof.
  intros Hi Hop. pose proof Hi as [Ht Hp]. destruct op as [k al|ks al|k v|k v|k|k f w]; simpl in *.
  - destruct (perma_get_spec k al p Hi) as (cs & -> & Hcs). unfold answering. simpl.
    eexists. split; [done|]. split; [done|by split].
  - destruct (perma_get_multi_spec ks al p Hi) as (cs & -> & Hcs). unfold answering. simpl.
    eexists. split; [done|]. split; [done|by split].
  - destruct (perma_write k v p Hi Hop) as (cs & E & Hi'). unfold answering, perma_set. rewrite E. simpl. eauto.
  - destruct (perma_drop k p Hi) as (cs & E & Hi' & _). unfold answering, pessimistically_set. rewrite E. simpl.
    eexists. split; [done|]. split; [done|by apply Hi'].
  - destruct (perma_drop k p Hi) as (cs & E & _ & Hi'). unfold answering, perma_delete. rewrite E. simpl. eauto.
  - destruct (perma_mutate_spec k f w p Hi Hop) as (p' & E & Hcf & Hi'). unfold answering. rewrite E. eauto.
Qed.

(** A history: uses of the permacache, and caches forgetting entries. *)
Inductive event := Use (op : perma_op) | Forget (cs : list C).

Definition forgets (c c' : C) : Prop := content c' ⊆ content c.

Inductive perma_run : permacache (C := C) -> list event -> list (res answer) -> permacache (C := C) -> Prop :=
  | run_nil (p : permacache (C := C)) : perma_run p [] [] p
  | run_use (p : permacache (C := C)) op p' r es rs q : perma_do op p = (p', r) -> perma_run p' es rs q ->
      perma_run p (Use op :: es) (r :: rs) q
  | run_forget (p : permacache (C := C)) cs es rs q : Forall2 forgets (cache_chain p) cs ->
      perma_run (MkPermacache cs (cf p)) es rs q -> perma_run p (Forget cs :: es) rs q.

Fixpoint map_run (m : contents) (es : list event) : contents * list (res answer) :=
  match es with
  | [] => (m, [])
  | Use op :: es => let r := map_do op m in let rest := map_run r.1 es in (rest.1, Ok r.2 :: rest.2)
  | Forget _ :: es => map_run m es
  end.

Definition event_proper (e : event) : Prop := match e with Use op => op_proper op | Forget _ => True end.

(** C15. The permacache refines a map: from a state whose caches are truthful, any
    history of reads, writes, deletions and mutations, with caches forgetting
    entries at any time, answers exactly what a plain map answers, never
    raises, and ends with the map in the column family. *)
Theorem permacache_refines_map (p q : permacache (C := C)) es rs
    (Hi : perma_inv p) (Hproper : Forall event_proper es) (Hrun : perma_run p es rs q) :
  rs = (map_run (cf p) es).2 /\ cf q = (map_run (cf p) es).1 /\ perma_inv q.
Proof.
  induction Hrun as [p|p op p' r es rs q Hdo _ IH|p cs es rs q Hf _ IH]; [done|..];
    apply Forall_cons in Hproper as [He Hproper].
  - destruct (perma_do_spec op p Hi He) as (p1 & E & Hcf & Hi1). rewrite Hdo in E. injection E as -> ->.
    destruct (IH Hi1 Hproper) as (-> & Hq & Hiq). simpl. by rewrite <- Hcf.
  - apply IH; [|done]. destruct Hi as [Ht Hp]. split; [|done]. simpl.
    clear -Hf Ht. induction Hf as [|c c' l l' Hc _ IH']; constructor; apply Forall_cons in Ht as [Hc' Ht].
    + intros k v Hk. apply Hc'. by eapply lookup_weaken.
    + by apply IH'.
Qed.

(** ** StaleCacheChain *)

Section stale.
Definition stale_inv (store : contents) (s : stale_chain (R := C)) : Prop :=
  (forall k v, data (localcache s) !! k = Some v -> proper v /\ store !! k = Some v) /\
  content (realcache s) = store.

(** Without [stale] a [StaleCacheChain] answers what the real cache holds;
    with it, that or what the stale cache holds.  Either way the local cache
    ends up with entries of the real one only, and the real one is as it
    was. *)
Theorem stale_get_fresh_local key dflt stale allow_local (s : stale_chain (R := C)) store
    (Hproper : forall k v, store !! k = Some v -> proper v) (Hi : stale_inv store s)
    (Hstats : stale = true -> has_stats s = true) :
  exists s' v, stale_get key dflt stale allow_local s = (s', Ok v) /\ stale_inv store s' /\
    (v = default dflt (store !! key) \/ stale = true /\ data (stalecache s) !! key = Some v).
Proof.
  destruct Hi as [Hlocal Hreal]. unfold stale_get.
  destruct (if allow_local then data (localcache s) !! key else None) as [v|] eqn:El.
  { exists s, v. split_and!; [done|done|]. left. destruct allow_local; [|done].
    destruct (Hlocal key v El) as [_ ->]. done. }
  set (sv := if stale then default PNone (data (stalecache s) !! key) else PNone).
  destruct (stale && negb (bool_decide (sv = PNone))) eqn:Hs.
  { exists s, sv. split_and!; [done|done|]. right. apply andb_true_iff in Hs as [-> Hs].
    split; [done|]. apply negb_true_iff, bool_decide_eq_false in Hs. unfold sv in *.
    by destruct (data (stalecache s) !! key). }
  replace (stale && negb (has_stats s)) with false by (destruct stale; [by rewrite Hstats|done]).
  rewrite law_get, Hreal. destruct (store !! key) as [v|] eqn:Ev; simpl.
  2: { exists s, dflt. split_and!; [done|done|by left]. }
  destruct (Hproper key v Ev) as [Hv1 Hv2].
  assert (Hst : exists st, (if stale then cache_set key v staleness (stalecache s) else (stalecache s, Ok tt)) = (st, Ok tt)).
  { destruct stale; [|by eexists].
    destruct (cache_set_ok key v staleness (stalecache s)) as (c' & E & _); [unfold staleness; lia|]. eauto. }
  destruct Hst as [st Hst]. rewrite Hst. simpl.
  destruct (cache_set_ok key v 0 (localcache s)) as (lc & E & _ & Hsub); [done|]. rewrite E. simpl.
  exists (StaleChain lc st (realcache s) (has_stats s)), v. split_and!; [by destruct v| |by left].
  split; [|done]. simpl. intros k' v' Hk'. eapply lookup_weaken in Hk'; [|exact Hsub].
  apply lookup_insert_Some in Hk' as [[<- <-]|[_ ?]]; [done|by apply Hlocal].
Qed.
End stale.
End chain.

(** ** TransitionalCache *)

(** During a migration both caches are written, so whichever one is read, on
    any server, shows the new value. *)
Theorem transitional_write_visible {A B : Type} `{CacheLaws A} `{CacheLaws B}
    tr key v time (t : transitional (A := A) (B := B)) (Ht : 0 <= time) :
  exists t', trans_set tr key v time t = (t', Ok tt) /\
    forall reading, trans_get tr key (Transitional (original t') (replacement t') reading) = Ok v.
Proof.
  unfold trans_set, trans_write, trans_get.
  destruct (law_set key v time (original t) Ht) as (a & -> & Ha & _).
  destruct (law_set (transform_key tr key) v time (replacement t) Ht) as (b & -> & Hb & _).
  eexists. split; [done|]. simpl. intros []; rewrite law_get; [by rewrite Ha|by rewrite Hb].
Qed.
End objects.

(** ** Witnesses and surprises *)

Definition demo_store : contents := <["a" := PNum 1]> {[ "b" := PStr "x" ]}.

(** A local cache that knows a little, in front of one that knows all. *)
Definition demo_chain : list cache :=
  [MkCache KLocal {[ "a" := PNum 1 ]}; MkCache (KSelfEmptying 10) {[ "c" := NoneResult ]};
   MkCache KMemcache demo_store].

Lemma demo_chain_coherent : coherent demo_store demo_chain.
Proof.
  assert (Hself : truthful demo_store (MkCache KMemcache demo_store)).
  { intros k v. simpl. unfold demo_store. intros Hk. left. split_and!; [..|done];
    apply lookup_insert_Some in Hk as [[_ <-]|[_ [_ <-]%lookup_singleton_Some]]; done. }
  split; [|by exists (MkCache KMemcache demo_store)].
  apply Forall_cons; split; [|apply Forall_cons; split; [|by apply Forall_singleton]];
    intros k v; simpl; intros [<- <-]%lookup_singleton_Some; [left; split_and!; done|right; split; done].
Qed.

Lemma chain_get_transparent_witness :
  exists cs', chain_get true "b" (PNum 9) true demo_chain = (cs', Ok (PStr "x")) /\ coherent demo_store cs'.
Proof. exact (chain_get_transparent true "b" (PNum 9) true demo_chain demo_store demo_chain_coherent). Defined.

Lemma chain_get_multi_transparent_witness :
  exists cs', chain_get_multi true ["b"; "c"; "d"] true demo_chain =
    (cs', Ok (filter (fun kv => kv.1 ∈ ["b"; "c"; "d"]) demo_store)) /\ coherent demo_store cs'.
Proof.
  exact (chain_get_multi_transparent true ["b"; "c"; "d"] true demo_chain demo_store demo_chain_coherent).
Defined.

Definition demo_true (o : Z) : bool := true.

Definition demo_perma : permacache (C := cache) :=
  MkPermacache [MkCache KLocal {[ "a" := PNum 1 ]}; MkCache KMemcache ∅] demo_store.

Lemma demo_perma_inv : perma_inv demo_perma.
Proof.
  split.
  - simpl. apply Forall_cons; split; [|apply Forall_singleton]; intros k v; simpl;
      [intros [<- <-]%lookup_singleton_Some; left; split_and!; done|by rewrite lookup_empty].
  - intros k v. simpl. unfold demo_store. intros [[_ <-]|[_ [_ <-]%lookup_singleton_Some]]%lookup_insert_Some;
      split; discriminate.
Qed.

Definition demo_double (v : pyval) : pyval := match v with PNum n => PNum (2 * n) | _ => PNum 0 end.

Definition demo_history : list (event (C := cache)) :=
  [Use (PGet "b" true); Use (PMutate "a" demo_double true); Use (PGet "a" true); Use (PDelete "b");
   Use (PGetMulti ["a"; "b"] true)].

Lemma permacache_refines_map_witness :
  exists q rs, perma_run demo_true demo_perma demo_history rs q /\
    rs = [Ok (AVal (PStr "x")); Ok (AVal (PNum 2)); Ok (AVal (PNum 2)); Ok AUnit;
          Ok (AMulti {[ "a" := PNum 2 ]})].
Proof.
  assert (Hrun : exists q rs, perma_run demo_true demo_perma demo_history rs q).
  { unfold demo_history. do 2 eexists. repeat (eapply run_use; [apply surjective_pairing|]). apply run_nil. }
  destruct Hrun as (q & rs & Hrun). exists q, rs. split; [exact Hrun|].
  destruct (permacache_refines_map demo_true demo_perma q demo_history rs demo_perma_inv) as (-> & _ & _).
  - unfold demo_history. rewrite !Forall_cons. split_and!; try done.
    intros v. split; destruct v; discriminate.
  - exact Hrun.
  - vm_compute. reflexivity.
Defined.

Definition demo_stale : stale_chain (R := cache) :=
  StaleChain (MkCache KLocal ∅) (MkCache KMemcache {[ "a" := PNum 0 ]}) (MkCache KMemcache demo_store) true.

Lemma stale_get_fresh_local_witness :
  exists s' v, stale_get "a" PNone false true demo_stale = (s', Ok v) /\ v = PNum 1 /\
    data (localcache s') !! "a" = Some (PNum 1).
Proof.
  destruct (stale_get_fresh_local "a" PNone false true demo_stale demo_store) as (s' & v & E & Hi & Hv).
  - intros k v. unfold demo_store. intros [[_ <-]|[_ [_ <-]%lookup_singleton_Some]]%lookup_insert_Some;
      split; discriminate.
  - split; [intros k v; simpl; by rewrite lookup_empty|reflexivity].
  - discriminate.
  - exists s', v. split; [exact E|]. split; [by destruct Hv as [->|[? _]]|].
    assert (E2 : (stale_get "a" PNone false true demo_stale).1 = s') by (by rewrite E).
    rewrite <- E2. vm_compute. reflexivity.
Defined.

Lemma transitional_write_visible_witness :
  exists t', trans_set (Some (fun k => "new_" +:+ k)) "a" (PNum 7) 60
      (Transitional (MkCache KMemcache demo_store) (MkCache KMemcache ∅) true) = (t', Ok tt) /\
    trans_get (Some (fun k => "new_" +:+ k)) "a" (Transitional (original t') (replacement t') false) = Ok (PNum 7).
Proof.
  destruct (transitional_write_visible (Some (fun k => "new_" +:+ k)) "a" (PNum 7) 60
    (Transitional (MkCache KMemcache demo_store) (MkCache KMemcache ∅) true)) as (t' & E & H); [lia|].
  exists t'. split; [exact E|apply H].
Defined.

(** Without a stats object, which [__init__] leaves unset, a read that allows
    stale answers raises [AttributeError] where it finds none. *)
Theorem stale_miss_needs_stats :
  (stale_get "b" PNone true true
    (StaleChain (MkCache KLocal ∅) (MkCache KMemcache ∅) (MkCache KMemcache demo_store) false)).2 =
  Raise AttributeError.
Proof. vm_compute. reflexivity. Qed.

(** [Permacache.get] never answers its default. *)
Theorem permacache_ignores_default :
  (perma_get demo_true "zzz" (PNum 5) true demo_perma).2 = Ok PNone.
Proof. vm_compute. reflexivity. Qed.
End CacheProps.
