(* ===== verification/QueryCache.v ===== *)
(** * Cached queries

    r2/models/query_cache.py: listings kept as rows of a column family, one
    column per item holding what is needed to sort it; precomputed queries in
    a new row per run, found through an index row.  The column family is an
    interface with the documented behaviour of timestamped columns. *)

From Stdlib Require Import Ascii.
From S2P Require Import Prelude CommentOrder.

Module QueryCache.
Import CommentOrder.

(** ** Column families *)

(** Rows of named, timestamped columns.  [latest] is the greatest timestamp of
    an operation on a column so far; a write with a later one takes effect, a
    removal deletes columns that are not newer than its timestamp. *)
Class ColumnFamily (CF V : Type) := {
  columns : CF -> string -> list (string * (V * Z));
  latest : CF -> string -> string -> Z;
  insert_col : string -> string -> V -> Z -> CF -> CF;
  remove_col : string -> string -> Z -> CF -> CF;
  remove_row : string -> Z -> CF -> CF;
  columns_nodup cf key : NoDup (columns cf key).*1;
  columns_latest cf key c v t : (c, (v, t)) ∈ columns cf key -> t <= latest cf key c;
  insert_latest cf key c v t key' c' : latest (insert_col key c v t cf) key' c' =
    if bool_decide (key' = key /\ c' = c) then Z.max (latest cf key' c') t else latest cf key' c';
  remove_col_latest cf key c t key' c' : latest (remove_col key c t cf) key' c' =
    if bool_decide (key' = key /\ c' = c) then Z.max (latest cf key' c') t else latest cf key' c';
  remove_row_latest cf key t key' c' : latest (remove_row key t cf) key' c' =
    if bool_decide (key' = key) then Z.max (latest cf key' c') t else latest cf key' c';
  insert_spec cf key c v t key' e : latest cf key c < t ->
    e ∈ columns (insert_col key c v t cf) key' <->
    (key' = key /\ e = (c, (v, t))) \/ (e ∈ columns cf key' /\ ~ (key' = key /\ e.1 = c));
  remove_col_spec cf key c t key' e :
    e ∈ columns (remove_col key c t cf) key' <->
    e ∈ columns cf key' /\ ~ (key' = key /\ e.1 = c /\ e.2.2 <= t);
  remove_row_spec cf key t key' e :
    e ∈ columns (remove_row key t cf) key' <->
    e ∈ columns cf key' /\ ~ (key' = key /\ e.2.2 <= t)
}.

(** ** Ordering items *)

(** What [ThingTupleComparator] is given: sort objects, or, by the cached
    queries, the names of their columns. *)
Inductive sort_spec := SortObj (s : sort) | SortCol (c : string).

(** [isinstance(s, asc)]. *)
Definition is_asc (s : sort_spec) : bool :=
  match s with SortObj s => bool_decide (sort_cls s = asc) | SortCol _ => false end.

(** Sort values with Python's [cmp]. *)
Class SortVal (V : Type) `{EqDecision V} := {
  py_cmp : V -> V -> comparison;
  py_cmp_eq v w : py_cmp v w = Eq <-> v = w;
  py_cmp_sym v w : py_cmp w v = CompOpp (py_cmp v w);
  py_cmp_trans v w x : py_cmp v w = Lt -> py_cmp w x = Lt -> py_cmp v x = Lt
}.

#[export] Program Instance Z_sortval : SortVal Z := {| py_cmp := Z.compare |}.
Next Obligation. intros. apply Z.compare_eq_iff. Qed.
Next Obligation. intros. apply Z.compare_antisym. Qed.
Next Obligation. intros v w x. rewrite !Z.compare_lt_iff. lia. Qed.

Section queries.
Context `{SortVal V}.

Notation item := (string * list V)%type.

(** [ThingTupleComparator.__call__]; both tuples have a value per sort. *)
Fixpoint compare_values (sorts : list sort_spec) (v1 v2 : list V) : comparison :=
  match sorts, v1, v2 with
  | s :: sorts, x :: v1, y :: v2 =>
      if decide (x = y) then compare_values sorts v1 v2
      else if is_asc s then py_cmp x y else py_cmp y x
  | _, _, _ => Eq
  end.

Definition item_leb (sorts : list sort_spec) (t1 t2 : item) : bool :=
  match compare_values sorts t1.2 t2.2 with Gt => false | _ => true end.

Definition sort_cols (sorts : list sort) : list string := col <$> sorts.

(** [_sort_data]: the comparator is built from the column names. *)
Definition sort_data (sorts : list sort) (data : list item) : list item :=
  isort (item_leb (SortCol <$> sort_cols sorts)) data.

(** ** Queries *)

Record query := Query {
  q_model : string;
  q_key : string;
  q_sort : list sort;
  q_precomputed : bool;
  q_data : list item;
  q_timestamps : gmap string Z
}.

Definition with_result (q : query) (d : list item) (ts : gmap string Z) : query :=
  Query (q_model q) (q_key q) (q_sort q) (q_precomputed q) d ts.

Section store.
Context {CF : Type} `{ColumnFamily CF (list V)}.

Notation stores := (gmap string CF).

(** Parameters of the configuration; the chance is a fraction. *)
Record query_config := QueryConfig { max_cached_items : nat; chance_num : Z; chance_den : Z }.

(** The configuration with the module's [MAX_CACHED_ITEMS]. *)
Definition MAX_CACHED_ITEMS : nat := 1000.

(** ** The model: reading *)

(** The tuples of a row's columns and their timestamps. *)
Definition row_data (cs : list (string * (list V * Z))) : list item := prod_map id fst <$> cs.

Definition row_timestamps (cs : list (string * (list V * Z))) : gmap string Z :=
  list_to_map (prod_map id snd <$> cs).

(** [_BaseQueryCache.get]: rows without columns are not returned. *)
Definition model_get (cf : CF) (keys : list string) : gmap string (list item * gmap string Z) :=
  list_to_map (omap (M := list) (fun key : string =>
    match columns (V := list V) cf key with
    | [] => None
    | cs => Some (key, (row_data cs, row_timestamps cs))
    end) keys).

(** [key.rsplit("/")[0]]: up to the first slash. *)
Fixpoint before_slash (s : string) : string :=
  match s with
  | EmptyString => EmptyString
  | String a s => if Ascii.eqb a "/"%char then EmptyString else String a (before_slash s)
  end.

(** The greatest column name of a row: [column_reversed], [column_count=1]. *)
Definition last_column (names : list string) : option string :=
  foldl (fun m n =>
    match m with Some m => if String.leb m n then Some n else Some m | None => Some n end) None names.

(** [index_mangle_keys]: the row of the latest run of each key. *)
Definition index_mangle_keys (cf : CF) (keys : list string) : gmap string string :=
  list_to_map (omap (M := list) (fun key : string =>
    let index_key := key +:+ "/index" in
    match last_column (columns (V := list V) cf index_key).*1 with
    | None => None
    | Some job => Some (before_slash index_key +:+ "/" +:+ job, before_slash index_key)
    end) keys).

(** One model's part of [_fetch_multi]. *)
Definition fetch_model (cf : CF) (qs : list query) (cached : gmap string (list item * gmap string Z))
  : gmap string (list item * gmap string Z) :=
  let pure := q_key <$> List.filter (fun q => negb (q_precomputed q)) qs in
  let need_mangling := q_key <$> List.filter q_precomputed qs in
  let mangled := index_mangle_keys cf need_mangling in
  let fetched := model_get cf (pure ++ (map_to_list mangled).*1) in
  foldl (fun cached kv => <[default kv.1 (mangled !! kv.1) := kv.2]> cached) cached (map_to_list fetched).

(** [_fetch_multi].  The loop over the models rebinds [queries]: only the
    queries of the model that comes last get their results.  [models] is the
    order of the dictionary [by_model]. *)
Definition fetch_multi (models : list string) (w : stores) (qs : list query) : res (list query) :=
  let of_model m := List.filter (fun q => String.eqb (q_model q) m) qs in
  let* cached := res_foldl (fun cached m =>
    let* cf := of_option KeyError (w !! m) in Ok (fetch_model cf (of_model m) cached)) ∅ models in
  Ok ((fun q =>
    if bool_decide (last models = Some (q_model q)) then
      match cached !! q_key q with
      | None => q
      | Some (d, ts) => with_result q d ts
      end
    else q) <$> qs).

(** [CachedQuery.fetch] of a query that was not fetched yet. *)
Definition fetch (w : stores) (q : query) : res query :=
  let* qs := fetch_multi [q_model q] w [q] in
  let* q := of_option IndexError (head qs) in
  Ok (with_result q (sort_data (q_sort q) (q_data q)) (q_timestamps q)).

(** [__iter__]. *)
Definition iter_query (cfg : query_config) (q : query) : list string :=
  (take (max_cached_items cfg) (q_data q)).*1.

(** [MergedCachedQuery._fetch] and its sort. *)
Definition fetch_merged (models : list string) (w : stores) (sorts : list sort) (qs : list query) : res (list item) :=
  let* _ := py_assert (forallb (fun q => bool_decide (q_sort q = sorts)) qs) in
  let* qs := fetch_multi models w qs in
  Ok (sort_data sorts (concat (q_data <$> qs))).

(** ** Mutations *)

(** What is batched in a [Mutator], with the timestamp each operation gets. *)
Inductive mutation :=
  | MInsert (model key : string) (cols : list (string * list V)) (ts : Z)
  | MRemove (model key : string) (names : list string) (ts : Z)
  | MRemoveRow (model key : string) (ts : Z).

Definition apply_mutation (m : mutation) (w : stores) : stores :=
  match m with
  | MInsert model key cols ts =>
      alter (fun cf => foldl (fun cf c => insert_col key c.1 c.2 ts cf) cf cols) model w
  | MRemove model key names ts =>
      alter (fun cf => foldl (fun cf c => remove_col key c ts cf) cf names) model w
  | MRemoveRow model key ts => alter (remove_row key ts) model w
  end.

(** The batch of mutations as pycassa sends it: [self.mutator.send()]. *)
Definition send (ms : list mutation) (w : stores) : stores := foldl (fun w m => apply_mutation m w) w ms.

(** Things: the fullname of what the filter function makes of them, and the
    attributes read for sorting. *)
Record thing := Thing { filtered_fullname : string; attr : string -> res V }.

Definition make_item_tuple (sorts : list sort) (t : thing) : res item :=
  let* vs := res_mapM (attr t) (sort_cols sorts) in Ok (filtered_fullname t, vs).

(** [_cols_from_things]: a dictionary, the last thing of a name wins. *)
Definition cols_from_things (q : query) (things : list thing) : res (gmap string (list V)) :=
  let* items := res_mapM (make_item_tuple (q_sort q)) things in
  Ok (list_to_map (reverse items)).

(** [CachedQueryMutator.insert]; [roll] in [[0, roll_den)] is the random
    number.  The flag says whether the query is to be pruned. *)
Definition mutator_insert (cfg : query_config) (now roll roll_den : Z) (q : query) (things : list thing)
  : res (list mutation * bool) :=
  match things with
  | [] => Ok ([], false)
  | _ =>
      let* _ := py_assert (negb (q_precomputed q)) in
      let* cols := cols_from_things q things in
      Ok ([MInsert (q_model q) (q_key q) (map_to_list cols) now],
          roll * chance_den cfg <? chance_num cfg * roll_den * Z.of_nat (length things))
  end.

Definition mutator_delete (now : Z) (q : query) (things : list thing) : list mutation :=
  match things with
  | [] => []
  | _ => [MRemove (q_model q) (q_key q) (filtered_fullname <$> things) now]
  end.

(** [replace]: the columns of the run [job], and its name in the index. *)
Definition mutator_replace (now : Z) (job : string) (q : query) (things : list thing) : res (list mutation) :=
  let* _ := py_assert (q_precomputed q) in
  let* cols := cols_from_things q things in
  Ok [MInsert (q_model q) (q_key q +:+ "/" +:+ job) (map_to_list cols) now;
      MInsert (q_model q) (q_key q +:+ "/index") [(job, [])] now].

(** ** Pruning *)

Definition py_min (l : list Z) : option Z :=
  match l with [] => None | x :: l => Some (foldl Z.min x l) end.
Definition py_max (l : list Z) : option Z :=
  match l with [] => None | x :: l => Some (foldl Z.max x l) end.

(** [to_prune[-prune_size:]]. *)
Definition last_n {A} (n : nat) (l : list A) : list A :=
  match n with O => l | _ => drop (length l - n) l end.

(** [int(1.5 * 1 / PRUNE_CHANCE)]. *)
Definition prune_size (cfg : query_config) : nat := Z.to_nat (3 * chance_den cfg / (2 * chance_num cfg)).

(** [CachedQuery._prune], on sorted data. *)
Definition prune (cfg : query_config) (now : Z) (q : query) : res (list mutation) :=
  let to_keep := (take (max_cached_items cfg) (q_data q)).*1 in
  let to_prune := (drop (max_cached_items cfg) (q_data q)).*1 in
  match to_prune with
  | [] => Ok []
  | _ =>
      let* keep_ts := res_mapM (fun n => of_option KeyError (q_timestamps q !! n)) to_keep in
      let* oldest_keep := of_option ValueError (py_min keep_ts) in
      let* prune_ts := res_mapM (fun n => let* t := of_option KeyError (q_timestamps q !! n) in Ok (n, t)) to_prune in
      let fast_prunable := List.filter (fun nt => nt.2 <? oldest_keep) prune_ts in
      let num_to_prune := Z.of_nat (length to_prune) in
      let num_fast := Z.of_nat (length fast_prunable) in
      if (num_to_prune <? 2 * num_fast) &&
         (2 * (num_to_prune - num_fast) <? Z.of_nat (max_cached_items cfg))
      then
        let* newest_prune := of_option ValueError (py_max fast_prunable.*2) in
        Ok [MRemoveRow (q_model q) (q_key q) newest_prune]
      else
        Ok ((fun n => MRemove (q_model q) (q_key q) [n] (default now (q_timestamps q !! n)))
              <$> last_n (prune_size cfg) to_prune)
  end.

(** [_prune_multi], over the models in the given order. *)
Definition prune_multi (cfg : query_config) (now : Z) (models : list string) (w : stores) (qs : list query)
  : res stores :=
  let* qs := fetch_multi models w qs in
  let* ms := res_mapM (fun q =>
    prune cfg now (with_result q (sort_data (q_sort q) (q_data q)) (q_timestamps q))) qs in
  Ok (send (concat ms) w).

(** [CachedQueryMutator.send]. *)
Definition mutator_send (cfg : query_config) (now : Z) (models : list string) (to_prune : list query)
  (ms : list mutation) (w : stores) : res stores :=
  let w := send ms w in
  match to_prune with
  | [] => Ok w
  | _ => prune_multi cfg now models w to_prune
  end.

(** What is done with a [CachedQueryMutator] to a query, an insert with its
    random number. *)
Inductive query_op :=
  | InsertOp (things : list thing) (roll : Z)
  | DeleteOp (things : list thing).

Definition op_mutations (cfg : query_config) (roll_den now : Z) (q : query) (o : query_op) : res (list mutation * bool) :=
  match o with
  | InsertOp things roll => mutator_insert cfg now roll roll_den q things
  | DeleteOp things => Ok (mutator_delete now q things, false)
  end.

(** The body of a [with] statement on one query: what is batched up to the end
    or to the operation that raises, and whether the query is to be pruned. *)
Fixpoint batched (cfg : query_config) (roll_den : Z) (q : query) (ops : list (Z * query_op))
  : list mutation * bool * res unit :=
  match ops with
  | [] => ([], false, Ok tt)
  | (now, o) :: ops =>
      match op_mutations cfg roll_den now q o with
      | Raise e => ([], false, Raise e)
      | Ok (ms, pr) =>
          let '(ms', pr', r) := batched cfg roll_den q ops in (ms ++ ms', pr || pr', r)
      end
  end.

(** The [with] statement: [__exit__] sends what was batched, whether the body
    raised or not; what the body raised goes on. *)
Definition with_mutator (cfg : query_config) (roll_den : Z) (q : query) (w : stores) (b : Z * list (Z * query_op))
  : stores * res unit :=
  let '(ms, pr, r) := batched cfg roll_den q b.2 in
  match mutator_send cfg b.1 [q_model q] (if pr then [q] else []) ms w with
  | Ok w' => (w', r)
  | Raise e => (send ms w, Raise e)
  end.

(** One [with] statement after the other. *)
Definition with_mutators (cfg : query_config) (roll_den : Z) (q : query) (w : stores)
  (bs : list (Z * list (Z * query_op))) : stores * list (res unit) :=
  foldl (fun s b => let r := with_mutator cfg roll_den q s.1 b in (r.1, s.2 ++ [r.2])) (w, []) bs.
End store.
End queries.

(** ** Which queries are precomputed, and their keys *)

(** The rule tree of a thing query. *)
Inductive rule := Rule (lval_name : string) | BooleanOp (ops : list rule).

Fixpoint rule_size (r : rule) : nat :=
  match r with
  | Rule _ => 1%nat
  | BooleanOp ops => Datatypes.S (list_sum (rule_size <$> ops))
  end.

(** The stack loop of [_is_query_precomputed]: [rules.pop()] takes the last
    one. *)
Fixpoint precomputed_loop (fuel : nat) (rules : list rule) : bool :=
  match fuel, last rules with
  | O, _ | _, None => false
  | Datatypes.S fuel, Some r =>
      let rules := take (length rules - 1) rules in
      match r with
      | BooleanOp ops => precomputed_loop fuel (rules ++ ops)
      | Rule name => if String.eqb name "_date" then true else precomputed_loop fuel rules
      end
  end.

Definition is_query_precomputed (rules : list rule) : bool :=
  precomputed_loop (list_sum (rule_size <$> rules)) rules.

(** An argument of a cached query function, with its text. *)
Inductive query_arg := ArgId (id36 : string) | ArgText (s : string).

Definition arg_text (a : query_arg) : string := match a with ArgId s | ArgText s => s end.

(** [cached_query_wrapper]'s row key. *)
Definition row_key (fn_name : string) (args : list query_arg) : res string :=
  let* _ := py_assert (py_startswith "get_" fn_name) in
  Ok (foldl (fun acc a => acc +:+ "." +:+ arg_text a)
        (String.substring 4 (String.length fn_name - 4) fn_name) args).
End QueryCache.
