(* ===== verification/QueryProps.v ===== *)
(** * Cached queries: what the mutator writes is what a fetch reads

    The row of a cached query as a map from item names to sort values, the
    mutations as updates of it, fetching as sorting it, pruning as removing
    only what is over the limit and was not written since. *)

From Stdlib Require Import Ascii.
From S2P Require Import Prelude CommentOrder QueryCache.

Module QueryProps.
Import CommentOrder QueryCache.

(** ** The order of the items *)

Section order.
Context `{SortVal V}.
Implicit Types v w x : list V.

Lemma compare_values_sym sorts v w : compare_values sorts w v = CompOpp (compare_values sorts v w).
Proof.
  revert v w. induction sorts as [|s sorts IH]; intros [|x v] [|y w]; simpl; try done.
  destruct (decide (x = y)) as [->|Hxy].
  - rewrite decide_True by done. apply IH.
  - rewrite decide_False by congruence. destruct (is_asc s); apply py_cmp_sym.
Qed.

Lemma py_cmp_neq (x y : V) : x <> y -> py_cmp x y <> Eq.
Proof. intros Hxy E%py_cmp_eq. done. Qed.

(** One step of the comparison, in the direction of its sort. *)
Definition cmp_dir (s : sort_spec) (x y : V) : comparison := if is_asc s then py_cmp x y else py_cmp y x.

Lemma cmp_dir_neq s (x y : V) : x <> y -> cmp_dir s x y <> Eq.
Proof. unfold cmp_dir. destruct (is_asc s); intros; by apply py_cmp_neq. Qed.

Lemma cmp_dir_refl s (x : V) : cmp_dir s x x = Eq.
Proof. unfold cmp_dir. destruct (is_asc s); by apply py_cmp_eq. Qed.

Lemma cmp_dir_trans s (x y z : V) : cmp_dir s x y = Lt -> cmp_dir s y z = Lt -> cmp_dir s x z = Lt.
Proof. unfold cmp_dir. destruct (is_asc s); eauto using py_cmp_trans. Qed.

Lemma cmp_dir_lt s (x y : V) : cmp_dir s x y <> Gt -> x <> y -> cmp_dir s x y = Lt.
Proof. intros H1 H2%(cmp_dir_neq s). by destruct (cmp_dir s x y). Qed.

Lemma compare_values_trans sorts v w x :
  length v = length sorts -> length w = length sorts -> length x = length sorts ->
  compare_values sorts v w <> Gt -> compare_values sorts w x <> Gt -> compare_values sorts v x <> Gt.
Proof.
  revert v w x. induction sorts as [|s sorts IH]; intros [|a v] [|b w] [|c x]; simpl; try done.
  intros [= Hv] [= Hw] [= Hx]. fold (cmp_dir s a b) (cmp_dir s b c) (cmp_dir s a c).
  destruct (decide (a = b)) as [<-|Hab].
  { destruct (decide (a = c)); eauto. }
  intros H1%cmp_dir_lt; [|done]. destruct (decide (b = c)) as [<-|Hbc].
  { by rewrite decide_False, H1. }
  intros H2%cmp_dir_lt; [|done]. pose proof (cmp_dir_trans s a b c H1 H2) as H3.
  rewrite decide_False, H3; [done|]. intros <-. by rewrite cmp_dir_refl in H3.
Qed.

Lemma item_leb_total sorts (a b : string * list V) : item_leb sorts a b = false -> item_leb sorts b a = true.
Proof. unfold item_leb. rewrite (compare_values_sym sorts a.2 b.2). by destruct (compare_values sorts a.2 b.2). Qed.

Lemma item_leb_true sorts (a b : string * list V) : item_leb sorts a b = true <-> compare_values sorts a.2 b.2 <> Gt.
Proof. unfold item_leb. by destruct (compare_values sorts a.2 b.2). Qed.

(** Sorting keeps the items and orders tuples of the right width. *)
Lemma sort_data_sorted (sorts : list sort) (data : list (string * list V)) :
  (forall e, e ∈ data -> length e.2 = length sorts) ->
  StronglySorted (fun a b => item_leb (SortCol <$> sort_cols sorts) a b = true) (sort_data sorts data).
Proof.
  intros Hl. apply (isort_sorted_on _ (fun e => length e.2 = length sorts)); [apply item_leb_total| |done].
  intros a b c Ha Hb Hc. rewrite !item_leb_true. apply compare_values_trans;
    unfold sort_cols; by rewrite !length_fmap.
Qed.

Lemma sort_data_perm (sorts : list sort) (data : list (string * list V)) : sort_data sorts data ≡ₚ data.
Proof. unfold sort_data. auto with py. Qed.
End order.

(** ** Columns *)

Section columns_laws.
Context {CF W : Type} `{ColumnFamily CF W}.
Implicit Types cf : CF.

Notation insert_cols key ts := (foldl (fun cf (c : string * W) => insert_col key c.1 c.2 ts cf)).
Notation remove_cols key ts := (foldl (fun cf (c : string) => remove_col key c ts cf)).

Lemma insert_cols_latest cf key cols ts key' c' :
  latest (insert_cols key ts cf cols) key' c' =
    if bool_decide (key' = key /\ c' ∈ cols.*1) then Z.max (latest cf key' c') ts else latest cf key' c'.
Proof.
  revert cf. induction cols as [|[c v] cols IH]; intros cf; simpl.
  { rewrite bool_decide_false; [done|]. set_solver. }
  rewrite IH, insert_latest. simpl. repeat case_bool_decide; set_solver by lia.
Qed.

Lemma insert_cols_spec cf key cols ts key' e :
  NoDup cols.*1 -> (forall c, c ∈ cols.*1 -> latest cf key c < ts) ->
  e ∈ columns (insert_cols key ts cf cols) key' <->
  (key' = key /\ (e.1, e.2.1) ∈ cols /\ e.2.2 = ts) \/
  (e ∈ columns cf key' /\ ~ (key' = key /\ e.1 ∈ cols.*1)).
Proof.
  revert cf. induction cols as [|[c v] cols IH]; intros cf Hnd Hl; simpl; [set_solver|].
  apply NoDup_cons in Hnd as [Hc Hnd]. simpl in Hc.
  rewrite IH; [|done|].
  2:{ intros c' Hc'. rewrite insert_latest, bool_decide_false; [apply Hl; set_solver|set_solver]. }
  rewrite insert_spec by (apply Hl; set_solver). destruct e as [c' [v' t']]. simpl.
  rewrite !elem_of_cons. split; [naive_solver|].
  intros [(-> & [[= -> ->]|Hin] & ->)|[Hin Hn]]; [..|naive_solver].
  - right. naive_solver.
  - left. naive_solver.
Qed.

Lemma remove_cols_latest cf key names ts key' c' :
  latest (remove_cols key ts cf names) key' c' =
    if bool_decide (key' = key /\ c' ∈ names) then Z.max (latest cf key' c') ts else latest cf key' c'.
Proof.
  revert cf. induction names as [|c names IH]; intros cf; simpl.
  { rewrite bool_decide_false; [done|]. set_solver. }
  rewrite IH, remove_col_latest. repeat case_bool_decide; set_solver by lia.
Qed.

Lemma remove_cols_spec cf key names ts key' e :
  e ∈ columns (remove_cols key ts cf names) key' <->
  e ∈ columns cf key' /\ ~ (key' = key /\ e.1 ∈ names /\ e.2.2 <= ts).
Proof.
  revert cf. induction names as [|c names IH]; intros cf; simpl; [set_solver|].
  rewrite IH, remove_col_spec, elem_of_cons. tauto.
Qed.
End columns_laws.

(** ** The row of a query as a map *)

Section view.
Context `{SortVal V} {CF : Type} `{ColumnFamily CF (list V)}.
Implicit Types (cf : CF) (q : @query V) (things : list (@thing V)) (w : gmap string CF).

Notation item_map := (gmap string (list V)).

(** The items a row holds, with their sort values. *)
Definition view cf (key : string) : item_map := list_to_map (row_data (columns cf key)).

Lemma row_data_names (cs : list (string * (list V * Z))) : (row_data cs).*1 = cs.*1.
Proof. unfold row_data. rewrite <- list_fmap_compose. by apply list_fmap_ext. Qed.

Lemma elem_of_row_data (cs : list (string * (list V * Z))) n v :
  (n, v) ∈ row_data cs <-> exists t, (n, (v, t)) ∈ cs.
Proof.
  unfold row_data. rewrite list_elem_of_fmap. split.
  - intros ([n' [v' t]] & [= -> ->] & Hin). eauto.
  - intros [t Hin]. by exists (n, (v, t)).
Qed.

Lemma lookup_view cf key n v : view cf key !! n = Some v <-> exists t, (n, (v, t)) ∈ columns cf key.
Proof.
  unfold view. rewrite <- elem_of_list_to_map, elem_of_row_data; [done|].
  rewrite row_data_names. apply columns_nodup.
Qed.

Lemma row_data_view cf key : row_data (columns cf key) ≡ₚ map_to_list (view cf key).
Proof. symmetry. apply map_to_list_to_map. rewrite row_data_names. apply columns_nodup. Qed.

Lemma view_ext cf key (M : item_map) :
  (forall n v, (exists t, (n, (v, t)) ∈ columns cf key) <-> M !! n = Some v) -> view cf key = M.
Proof.
  intros HM. apply map_eq. intros n. apply option_eq. intros v. by rewrite lookup_view, HM.
Qed.

(** Inserting columns puts them over the row; removing deletes them. *)
Lemma view_insert_cols cf key (cols : item_map) ts :
  (forall c, is_Some (cols !! c) -> latest cf key c < ts) ->
  view (foldl (fun cf c => insert_col key c.1 c.2 ts cf) cf (map_to_list cols)) key = cols ∪ view cf key.
Proof.
  intros Hl. apply view_ext. intros n v. rewrite lookup_union_Some_raw, lookup_view.
  setoid_rewrite insert_cols_spec; [|apply NoDup_fst_map_to_list|].
  2:{ intros c ([c' x] & -> & Hin%elem_of_map_to_list)%list_elem_of_fmap. by apply Hl. }
  setoid_rewrite elem_of_map_to_list. simpl.
  assert (Hn : n ∈ (map_to_list cols).*1 <-> is_Some (cols !! n)).
  { split.
    - intros ([c' x] & -> & Hin%elem_of_map_to_list)%list_elem_of_fmap. done.
    - intros [x Hx%elem_of_map_to_list]. by apply (list_elem_of_fmap_2 fst) in Hx. }
  setoid_rewrite Hn. rewrite eq_None_not_Some. naive_solver.
Qed.

Lemma view_remove_cols cf key (names : list string) ts :
  (forall c, c ∈ names -> latest cf key c <= ts) ->
  view (foldl (fun cf c => remove_col key c ts cf) cf names) key
  = foldl (fun M c => delete c M) (view cf key) names.
Proof.
  intros Hl. apply view_ext. intros n v.
  setoid_rewrite remove_cols_spec. simpl.
  assert (Hd : forall (M : item_map), foldl (fun M c => delete c M) M names !! n = Some v
    <-> M !! n = Some v /\ n ∉ names).
  { clear Hl. induction names as [|c names IH]; intros M; simpl; [set_solver|].
    rewrite IH, lookup_delete_Some. set_solver. }
  rewrite Hd, lookup_view. split.
  - intros (t & Hin & Hn). split; [eauto|]. intros Hn'. apply Hn. split_and!; [done..|].
    pose proof (columns_latest _ _ _ _ _ Hin). specialize (Hl _ Hn'). lia.
  - intros ([t Hin] & Hn). exists t. naive_solver.
Qed.

(** ** The mutator's operations as updates of that map *)

(** The specification: a map from item to sort values. *)
Definition insert_item q (M : item_map) (t : @thing V) : res item_map :=
  let* vs := res_mapM (attr t) (sort_cols (q_sort q)) in Ok (<[filtered_fullname t := vs]> M).

Definition op_spec q (M : item_map) (op : @query_op V) : res item_map :=
  match op with
  | InsertOp things _ => res_foldl (insert_item q) M things
  | DeleteOp things => Ok (foldl (fun M t => delete (filtered_fullname t) M) M things)
  end.

(** The operations of a batch up to the one that raises, and whether one of
    them asks for pruning. *)
Definition asks_prune (cfg : query_config) (roll_den : Z) (op : @query_op V) : bool :=
  match op with
  | InsertOp things roll =>
      negb (bool_decide (things = [])) &&
      (roll * chance_den cfg <? chance_num cfg * roll_den * Z.of_nat (length things))
  | DeleteOp _ => false
  end.

Fixpoint batch_spec cfg roll_den q (M : item_map) (ops : list (@query_op V)) : item_map * bool * res unit :=
  match ops with
  | [] => (M, false, Ok tt)
  | op :: ops =>
      match op_spec q M op with
      | Raise e => (M, false, Raise e)
      | Ok M => let '(M, pr, r) := batch_spec cfg roll_den q M ops in (M, asks_prune cfg roll_den op || pr, r)
      end
  end.

(** The items of a map by the sort values of a query, the greatest first: the
    comparator does not see the direction of the sorts. *)
Definition listing_of q (M : item_map) (data : list (string * list V)) : Prop :=
  data ≡ₚ map_to_list M /\
  StronglySorted (fun a b => item_leb (SortCol <$> sort_cols (q_sort q)) a b = true) data.

Definition full_width q (M : item_map) : Prop := forall n v, M !! n = Some v -> length v = length (q_sort q).

(** The listing is cut: what remains has its values, and the first items in the
    order of the query, as many as the limit, remain. *)
Definition pruned (cfg : query_config) q (M M' : item_map) : Prop :=
  if bool_decide (size M <= max_cached_items cfg)%nat then M' = M
  else M' ⊆ M /\ exists data, listing_of q M data /\
    forall n, n ∈ (take (max_cached_items cfg) data).*1 -> M' !! n = M !! n.

(** What batches make of the map and what their bodies raise. *)
Inductive evolves (cfg : query_config) (roll_den : Z) q : item_map -> list (list (@query_op V)) -> item_map -> list (res unit) -> Prop :=
  | no_batch M : evolves cfg roll_den q M [] M []
  | one_batch M ops M1 pr r M2 bs M' rs :
      batch_spec cfg roll_den q M ops = (M1, pr, r) -> (if pr : bool then pruned cfg q M1 M2 else M2 = M1) ->
      evolves cfg roll_den q M2 bs M' rs -> evolves cfg roll_den q M (ops :: bs) M' (r :: rs).

(** The timestamps of all operations, in their order. *)
Definition times (bs : list (Z * list (Z * @query_op V))) : list Z := bs ≫= (fun b => b.2.*1).

Lemma list_to_map_reverse (items : list (string * list V)) (M : item_map) :
  list_to_map (reverse items) ∪ M = foldl (fun M i => <[i.1 := i.2]> M) M items.
Proof.
  revert M. induction items as [|[n v] items IH]; intros M; simpl.
  { unfold reverse. simpl. apply map_empty_union. }
  rewrite reverse_cons, list_to_map_app, <- map_union_assoc, <- IH. simpl. f_equal.
  by rewrite <- insert_union_l, map_empty_union.
Qed.

Lemma cols_from_things_spec q things M :
  (let* cols := cols_from_things q things in Ok (cols ∪ M)) = res_foldl (insert_item q) M things.
Proof.
  unfold cols_from_things.
  enough (Hi : (let* items := res_mapM (make_item_tuple (q_sort q)) things in
    Ok (foldl (fun M i => <[i.1 := i.2]> M) M items)) = res_foldl (insert_item q) M things).
  { rewrite <- Hi. destruct (res_mapM _ things) as [items|]; [|done]. cbn [res_bind].
    by rewrite list_to_map_reverse. }
  revert M. induction things as [|t things IH]; intros M; [done|].
  cbn [res_mapM res_foldl]. unfold insert_item at 1, make_item_tuple at 1.
  destruct (res_mapM (attr t) _) as [vs|]; [|done]. cbn [res_bind]. rewrite <- IH.
  by destruct (res_mapM _ things).
Qed.

Lemma op_mutations_insert cfg ts roll roll_den q things :
  q_precomputed q = false ->
  op_mutations cfg roll_den ts q (InsertOp things roll)
  = if bool_decide (things = []) then Ok ([], false) else
    let* cols := cols_from_things q things in
    Ok ([MInsert (q_model q) (q_key q) (map_to_list cols) ts], asks_prune cfg roll_den (InsertOp things roll)).
Proof.
  intros Hp. destruct things as [|t things]; [done|]. cbn [op_mutations mutator_insert]. rewrite Hp.
  cbn [negb py_assert res_bind asks_prune]. by rewrite bool_decide_false.
Qed.

(** One operation: the stored row changes as the map does. *)
Lemma op_step cfg roll_den q w cf ts op :
  q_precomputed q = false -> w !! q_model q = Some cf -> (forall c, latest cf (q_key q) c < ts) ->
  match op_mutations cfg roll_den ts q op with
  | Ok (ms, pr) => pr = asks_prune cfg roll_den op /\
      exists cf', send ms w !! q_model q = Some cf' /\ (forall c, latest cf' (q_key q) c <= ts) /\
      op_spec q (view cf (q_key q)) op = Ok (view cf' (q_key q))
  | Raise e => op_spec q (view cf (q_key q)) op = Raise e
  end.
Proof.
  intros Hp Hw Hl. destruct op as [things roll|things].
  - rewrite op_mutations_insert by done. cbn [op_spec]. rewrite <- cols_from_things_spec. case_bool_decide as Hth.
    { subst things. split; [done|]. exists cf. split_and!; [done| |].
      - intros c. specialize (Hl c). lia.
      - cbn. unfold reverse. simpl. by rewrite map_empty_union. }
    destruct (cols_from_things q things) as [cols|e]; [|done]. cbn [res_bind]. split; [done|].
    eexists. split_and!; [cbn; by rewrite lookup_alter_eq, Hw| |].
    + intros c. rewrite insert_cols_latest. specialize (Hl c). case_bool_decide; lia.
    + rewrite view_insert_cols; [done|]. intros c _. apply Hl.
  - cbn [op_mutations op_spec asks_prune]. split; [done|]. destruct things as [|t things].
    { exists cf. split_and!; [done| |done]. intros c. specialize (Hl c). lia. }
    cbn [mutator_delete]. set (names := filtered_fullname <$> t :: things).
    eexists. split_and!; [cbn [send foldl apply_mutation]; by rewrite lookup_alter_eq, Hw| |].
    + intros c. rewrite remove_cols_latest. specialize (Hl c). case_bool_decide; lia.
    + rewrite view_remove_cols; [unfold names; by rewrite foldl_fmap|]. intros c _. specialize (Hl c). lia.
Qed.

Lemma send_app ms1 ms2 w : send (ms1 ++ ms2) w = send ms2 (send ms1 w).
Proof. apply foldl_app. Qed.

(** A batch up to the operation that raises. *)
Lemma batched_view cfg roll_den q ops later w cf :
  q_precomputed q = false -> w !! q_model q = Some cf -> StronglySorted Z.lt (ops.*1 ++ later) ->
  (forall c t, t ∈ ops.*1 ++ later -> latest cf (q_key q) c < t) ->
  exists ms pr r M cf', batched cfg roll_den q ops = (ms, pr, r) /\
    batch_spec cfg roll_den q (view cf (q_key q)) ops.*2 = (M, pr, r) /\
    send ms w !! q_model q = Some cf' /\ view cf' (q_key q) = M /\
    (forall c t, t ∈ later -> latest cf' (q_key q) c < t).
Proof.
  intros Hp. revert w cf. induction ops as [|[ts op] ops IH]; intros w cf Hw Hs Hl.
  { exists [], false, (Ok tt), (view cf (q_key q)), cf. done. }
  cbn [fmap list_fmap app fst snd] in *. apply StronglySorted_inv in Hs as [Hs Hlt]. rewrite Forall_forall in Hlt.
  pose proof (op_step cfg roll_den q w cf ts op Hp Hw (fun c => Hl c ts ltac:(left))) as Hop.
  cbn [batched batch_spec]. destruct (op_mutations cfg roll_den ts q op) as [[ms pr]|e].
  - destruct Hop as (-> & cf1 & Hw1 & Hl1 & ->).
    destruct (IH (send ms w) cf1 Hw1 Hs) as (ms' & pr' & r & M & cf' & -> & -> & Hw' & Hv & Hl').
    { intros c t Ht. specialize (Hl1 c). specialize (Hlt t Ht). lia. }
    eexists _, _, r, M, cf'. split_and!; [reflexivity|reflexivity|by rewrite send_app|done|done].
  - rewrite Hop. exists [], false, (Raise e), (view cf (q_key q)), cf. split_and!; try done.
    intros c t Ht. apply Hl. right. apply elem_of_app. by right.
Qed.

(** ** Fetching *)

Lemma model_get_one cf key :
  model_get cf [key] = match columns cf key with
    | [] => ∅
    | cs => {[ key := (row_data cs, row_timestamps cs) ]}
    end.
Proof. unfold model_get. simpl. by destruct (columns cf key). Qed.

(** A query without results so far, whose results are in one row. *)
Definition fetched q (cs : list (string * (list V * Z))) : query :=
  with_result q (sort_data (q_sort q) (row_data cs))
    (match cs with [] => q_timestamps q | _ => row_timestamps cs end).

Lemma fetch_of_model q w cf cs :
  w !! q_model q = Some cf -> q_data q = [] ->
  fetch_model cf [q] ∅ =
    match cs with [] => ∅ | _ => {[ q_key q := (row_data cs, row_timestamps cs) ]} end ->
  fetch w q = Ok (fetched q cs).
Proof.
  intros Hw Hd Hf. unfold fetch, fetch_multi. cbn [res_foldl List.filter].
  rewrite String.eqb_refl, Hw. cbn [res_bind of_option]. rewrite Hf.
  cbn [last fmap list_fmap]. rewrite bool_decide_true by done.
  unfold fetched. destruct cs as [|c cs].
  - rewrite lookup_empty. cbn [head of_option res_bind]. by rewrite Hd.
  - by rewrite lookup_singleton_eq.
Qed.

Lemma fetch_pure q w cf :
  w !! q_model q = Some cf -> q_data q = [] -> q_precomputed q = false ->
  fetch w q = Ok (fetched q (columns cf (q_key q))).
Proof.
  intros Hw Hd Hp. apply (fetch_of_model _ _ cf); [done..|].
  unfold fetch_model. cbn [List.filter]. rewrite Hp. cbn [negb fmap list_fmap].
  unfold index_mangle_keys. cbn [omap list_omap list_to_map foldr].
  rewrite map_to_list_empty, app_nil_r, model_get_one.
  destruct (columns cf (q_key q)) as [|c cs].
  - by rewrite map_to_list_empty.
  - rewrite map_to_list_singleton. cbn [foldl fst snd]. by rewrite lookup_empty.
Qed.

Lemma fetched_data q cf key : q_data (fetched q (columns cf key)) ≡ₚ map_to_list (view cf key).
Proof. unfold fetched. cbn. by rewrite sort_data_perm, row_data_view. Qed.

Lemma fetched_listing q cf key :
  full_width q (view cf key) -> listing_of q (view cf key) (q_data (fetched q (columns cf key))).
Proof.
  intros Hl. split; [apply fetched_data|]. apply sort_data_sorted. intros [n v] Hin. simpl.
  apply (Hl n). apply elem_of_map_to_list. by rewrite <- row_data_view.
Qed.

Lemma insert_item_width q M t M' : full_width q M -> insert_item q M t = Ok M' -> full_width q M'.
Proof.
  intros HM Hi. unfold insert_item in Hi. res_inv. intros n v.
  rewrite lookup_insert_Some. intros [[_ <-]|[_ ?]]; [|eauto].
  enough (forall l vs, res_mapM (attr t) l = Ok vs -> length vs = length l) as Hlen.
  { erewrite Hlen by done. unfold sort_cols. by rewrite length_fmap. }
  clear. induction l as [|c l IH]; intros vs Hvs; simpl in Hvs; res_inv; simpl; auto.
Qed.

Lemma op_spec_width q M op M' : full_width q M -> op_spec q M op = Ok M' -> full_width q M'.
Proof.
  destruct op as [things roll|things]; cbn [op_spec].
  - revert M. induction things as [|t things IH]; intros M HM Hs; cbn [res_foldl] in Hs; res_inv; [done|].
    eauto using insert_item_width.
  - intros HM [= <-]. revert M HM. induction things as [|t things IH]; intros M HM; simpl; [done|].
    apply IH. intros n v [_ ?]%lookup_delete_Some. eauto.
Qed.

(** ** Pruning *)

Lemma foldl_min_le l x : foldl Z.min x l <= x /\ forall y, y ∈ l -> foldl Z.min x l <= y.
Proof.
  revert x. induction l as [|z l IH]; intros x; simpl; [split; [lia|set_solver]|].
  destruct (IH (Z.min x z)) as [H1 H2]. split; [lia|].
  intros y [->|Hy]%elem_of_cons; [lia|auto].
Qed.

Lemma py_min_le l x : x ∈ l -> exists m, py_min l = Some m /\ forall y, y ∈ l -> m <= y.
Proof.
  destruct l as [|z l]; intros Hx; [by apply not_elem_of_nil in Hx|]. simpl. eexists. split; [done|].
  destruct (foldl_min_le l z) as [H1 H2]. intros y [->|Hy]%elem_of_cons; auto.
Qed.

Lemma py_max_in l : l <> [] -> exists m, py_max l = Some m /\ m ∈ l.
Proof.
  destruct l as [|z l]; intros Hl; [done|]. simpl. eexists. split; [done|]. clear Hl.
  revert z. induction l as [|y l IH]; intros z; simpl; [set_solver|].
  specialize (IH (Z.max z y)). destruct (Z.max_spec z y) as [[_ E]|[_ E]]; rewrite E in IH |- *; set_solver.
Qed.

Lemma lookup_row_timestamps cf key n t :
  row_timestamps (columns cf key) !! n = Some t <-> exists v, (n, (v, t)) ∈ columns cf key.
Proof.
  unfold row_timestamps. rewrite <- elem_of_list_to_map.
  - rewrite list_elem_of_fmap. split.
    + intros ([n' [v t']] & [= -> ->] & Hin). eauto.
    + intros [v Hin]. by exists (n, (v, t)).
  - rewrite <- list_fmap_compose. erewrite list_fmap_ext; [apply (columns_nodup cf key)|done].
Qed.

(** What a removal by [prune] may touch. *)
Definition prunable cfg q cf (n : string) (t : Z) : Prop :=
  (exists e, e ∈ columns cf (q_key q) /\ t <= e.2.2) /\
  forall e, e ∈ columns cf (q_key q) -> e.1 ∈ iter_query cfg (fetched q (columns cf (q_key q))) ->
    e.1 = n -> t < e.2.2.

Definition removes_only (P : string -> Z -> Prop) q (m : @mutation V) : Prop :=
  match m with
  | MRemove model key names ts => model = q_model q /\ key = q_key q /\ forall n, n ∈ names -> P n ts
  | MRemoveRow model key ts => model = q_model q /\ key = q_key q /\ forall n, P n ts
  | MInsert _ _ _ _ => False
  end.

Lemma last_n_incl {A} n (l : list A) x : x ∈ last_n n l -> x ∈ l.
Proof.
  destruct n; [done|]. unfold last_n. intros Hx. rewrite <- (take_drop (length l - Datatypes.S n) l).
  apply elem_of_app. by right.
Qed.

Section pruned.
Variables (cfg : query_config) (now : Z) (q : @query V) (cf : CF).
Hypothesis Hmax : (0 < max_cached_items cfg)%nat.

Notation cs := (columns cf (q_key q)).
Notation q' := (fetched q cs).
Notation to_keep := ((take (max_cached_items cfg) (q_data q')).*1).
Notation to_prune := ((drop (max_cached_items cfg) (q_data q')).*1).

Lemma fetched_names : to_keep ++ to_prune ≡ₚ cs.*1.
Proof. rewrite <- fmap_app, take_drop. unfold fetched. cbn. by rewrite sort_data_perm, row_data_names. Qed.

Lemma timestamp_of n v t : (n, (v, t)) ∈ cs -> q_timestamps q' !! n = Some t.
Proof.
  intros Hin. assert (Hts : row_timestamps cs !! n = Some t) by (apply lookup_row_timestamps; eauto).
  unfold fetched. cbn [q_timestamps with_result]. destruct cs; [by apply not_elem_of_nil in Hin|done].
Qed.

Lemma to_keep_stored n : n ∈ to_keep -> n ∈ cs.*1.
Proof. intros Hn. rewrite <- fetched_names, elem_of_app. by left. Qed.

Lemma to_prune_stored n : n ∈ to_prune -> n ∈ cs.*1.
Proof. intros Hn. rewrite <- fetched_names, elem_of_app. by right. Qed.

Notation ts n := (default now (q_timestamps q' !! n)).

Lemma column_ts e : e ∈ cs -> ts e.1 = e.2.2.
Proof. destruct e as [n [v t]]. intros He%timestamp_of. cbn [fst snd]. by rewrite He. Qed.

Lemma prunable_slow n : n ∈ to_prune -> prunable cfg q cf n (ts n).
Proof.
  intros Hn. pose proof (to_prune_stored n Hn) as Hs.
  split.
  - apply list_elem_of_fmap in Hs as (e & -> & He). exists e. rewrite column_ts by done. split; [done|lia].
  - intros e He Hk <-. exfalso.
    assert (Hnd : NoDup (to_keep ++ to_prune)) by (rewrite fetched_names; apply columns_nodup).
    apply NoDup_app in Hnd as (_ & Hdisj & _). by apply (Hdisj e.1).
Qed.

Lemma prunable_fast oldest x n :
  (forall k, k ∈ to_keep -> oldest <= ts k) -> x < oldest -> (exists p, p ∈ to_prune /\ x = ts p) ->
  prunable cfg q cf n x.
Proof.
  intros Ho Hx (p & Hp & ->). split.
  - apply to_prune_stored, list_elem_of_fmap in Hp as (e & -> & He). exists e.
    rewrite column_ts by done. split; [done|lia].
  - intros e He Hk _. specialize (Ho _ Hk). rewrite column_ts in Ho by done. lia.
Qed.

Lemma ts_lookup n : n ∈ cs.*1 -> of_option KeyError (q_timestamps q' !! n) = Ok (ts n).
Proof. intros ([? [v t]] & -> & He%timestamp_of)%list_elem_of_fmap. cbn [fst]. by rewrite He. Qed.

(** Pruning finds a timestamp for every item and removes only what is over
    the limit, as of the time of the fetch. *)
Lemma prune_removes :
  exists ms, prune cfg now q' = Ok ms /\ Forall (removes_only (prunable cfg q cf) q) ms.
Proof.
  unfold prune. destruct to_prune as [|p ps] eqn:Hp; [by exists []|]. rewrite <- Hp.
  rewrite (res_mapM_fmap _ (fun n => ts n)); [|intros n Hn; by apply ts_lookup, to_keep_stored].
  cbn [res_bind].
  destruct (py_min_le ((fun n => ts n) <$> to_keep) (ts (default "" (head to_keep)))) as (oldest & -> & Ho).
  { apply (list_elem_of_fmap_2 (fun n => ts n)). destruct (q_data q') as [|d ds]; [by rewrite drop_nil in Hp|].
    destruct (max_cached_items cfg); [lia|]. left. }
  cbn [of_option res_bind].
  rewrite (res_mapM_fmap _ (fun n => (n, ts n))); [|intros n Hn; by rewrite ts_lookup by by apply to_prune_stored].
  cbn [res_bind]. set (fast := List.filter _ _).
  destruct (_ && _) eqn:Hfast.
  - apply andb_prop in Hfast as [Hf1%Z.ltb_lt _].
    destruct (py_max_in fast.*2) as (newest & -> & Hin).
    { intros E%fmap_nil_inv. rewrite E in Hf1. simpl in Hf1. lia. }
    cbn [of_option res_bind]. eexists. split; [done|]. apply Forall_singleton.
    cbn. split_and!; [done..|]. intros n.
    apply list_elem_of_fmap in Hin as ([p' x] & -> & Hin). apply elem_of_filter_bool in Hin as [Hlt Hin].
    cbn in Hlt |- *. apply list_elem_of_fmap in Hin as (p'' & [= -> ->] & Hin).
    apply (prunable_fast oldest); [|lia|eauto].
    intros k Hk. apply Ho. by apply (list_elem_of_fmap_2 (fun n => ts n)).
  - eexists. split; [done|]. apply Forall_forall. intros m (n & -> & Hn%last_n_incl)%list_elem_of_fmap.
    cbn. split_and!; [done..|]. intros n' ->%list_elem_of_singleton. by apply prunable_slow.
Qed.

(** A column that must survive pruning: of another row, written after the
    fetch, or of an item within the limit. *)
Definition protected (key : string) (e : string * (list V * Z)) : Prop :=
  key <> q_key q \/ (forall e0, e0 ∈ cs -> e0.2.2 < e.2.2) \/ (e ∈ cs /\ e.1 ∈ iter_query cfg q').

Lemma protected_not_prunable e n t :
  protected (q_key q) e -> prunable cfg q cf n t -> e.1 = n -> t < e.2.2.
Proof.
  intros [?|[Hnew|[He Hk]]] [(e0 & He0 & Ht) Hp] <-; [done| |auto].
  specialize (Hnew _ He0). lia.
Qed.

Lemma removal_keeps m w' cf1 :
  removes_only (prunable cfg q cf) q m -> w' !! q_model q = Some cf1 ->
  exists cf2, apply_mutation m w' !! q_model q = Some cf2 /\ forall key e,
    (e ∈ columns cf2 key -> e ∈ columns cf1 key) /\
    (e ∈ columns cf1 key -> protected key e -> e ∈ columns cf2 key).
Proof.
  intros Hm Hw. destruct m as [|model key names t|model key t]; [done|..];
    destruct Hm as (-> & -> & Hm); (eexists; split; [cbn [apply_mutation]; by rewrite lookup_alter_eq, Hw|]);
    intros key e; [rewrite remove_cols_spec|rewrite remove_row_spec]; split; try tauto; intros He Hp;
    (split; [done|]).
  - intros (-> & Hn & Ht). pose proof (protected_not_prunable e e.1 t Hp (Hm _ Hn) eq_refl). lia.
  - intros (-> & Ht). pose proof (protected_not_prunable e e.1 t Hp (Hm _) eq_refl). lia.
Qed.

Lemma removals_keep ms w cf1 :
  Forall (removes_only (prunable cfg q cf) q) ms -> w !! q_model q = Some cf1 ->
  exists cf2, send ms w !! q_model q = Some cf2 /\ forall key e,
    (e ∈ columns cf2 key -> e ∈ columns cf1 key) /\
    (e ∈ columns cf1 key -> protected key e -> e ∈ columns cf2 key).
Proof.
  intros Hms. revert w cf1. induction Hms as [|m ms Hm Hms IH]; intros w cf1 Hw; [exists cf1; naive_solver|].
  destruct (removal_keeps m w cf1 Hm Hw) as (cf2 & Hw2 & H2).
  destruct (IH _ _ Hw2) as (cf3 & Hw3 & H3). exists cf3. split; [done|].
  intros key e. destruct (H2 key e), (H3 key e). split; eauto.
Qed.

(** Removals are not newer than what was there. *)
Lemma removals_older ms w cf1 t :
  Forall (removes_only (prunable cfg q cf) q) ms -> w !! q_model q = Some cf1 ->
  (forall c, latest cf (q_key q) c < t) -> (forall c, latest cf1 (q_key q) c < t) ->
  forall cf2, send ms w !! q_model q = Some cf2 -> forall c, latest cf2 (q_key q) c < t.
Proof.
  intros Hms Hw Hcf. revert w cf1 Hw. induction Hms as [|m ms Hm Hms IH]; intros w cf1 Hw Hl cf2.
  { cbn. rewrite Hw. by intros [= <-]. }
  assert (Hold : forall n x, prunable cfg q cf n x -> x < t).
  { intros n x [([n' [v x']] & He & Hx) _]. apply columns_latest in He. specialize (Hcf n'). simpl in Hx. lia. }
  destruct (removal_keeps m w cf1 Hm Hw) as (cf3 & Hw3 & _). apply (IH _ cf3 Hw3). clear IH.
  destruct m as [|model key names x|model key x]; [done|..]; destruct Hm as (-> & -> & Hm);
    cbn [apply_mutation] in Hw3; rewrite lookup_alter_eq, Hw in Hw3; injection Hw3 as <-; intros c; specialize (Hl c).
  - rewrite remove_cols_latest. case_bool_decide as Hc; [|done]. destruct Hc as [_ Hc]. specialize (Hold c x (Hm c Hc)). lia.
  - rewrite remove_row_latest, bool_decide_true by done. specialize (Hold c x (Hm c)). lia.
Qed.

(** C36. Pruning raises nothing, only removes columns, and keeps, in whatever the
    store has become since the fetch, every other row, every column written
    since, and the items within the limit. *)
Theorem prune_safe w cf1 :
  w !! q_model q = Some cf1 ->
  exists ms cf2, prune cfg now q' = Ok ms /\ send ms w !! q_model q = Some cf2 /\ forall key e,
    (e ∈ columns cf2 key -> e ∈ columns cf1 key) /\
    (e ∈ columns cf1 key -> protected key e -> e ∈ columns cf2 key).
Proof.
  intros Hw. destruct prune_removes as (ms & Hp & Hms). destruct (removals_keep ms w cf1 Hms Hw) as (cf2 & ? & ?). eauto.
Qed.

(** Pruning the query in a store where nothing else happens. *)
Lemma prune_multi_view w :
  w !! q_model q = Some cf -> q_data q = [] -> q_precomputed q = false -> full_width q (view cf (q_key q)) ->
  exists w' cf', prune_multi cfg now [q_model q] w [q] = Ok w' /\ w' !! q_model q = Some cf' /\
    pruned cfg q (view cf (q_key q)) (view cf' (q_key q)) /\
    forall t, (forall c, latest cf (q_key q) c < t) -> forall c, latest cf' (q_key q) c < t.
Proof.
  intros Hw Hd Hp Hfw. destruct prune_removes as (ms & Hpr & Hms). destruct (removals_keep ms w cf Hms Hw) as (cf2 & Hw2 & Hk).
  exists (send ms w), cf2. split; [|split; [done|split]].
  - pose proof (fetch_pure q w cf Hw Hd Hp) as Hf. unfold prune_multi, fetch, fetch_multi in *.
    destruct (res_foldl _ ∅ [q_model q]) as [cached|]; [|done]. cbn [res_bind fmap list_fmap res_mapM head of_option] in *.
    match type of Hf with Ok ?x = Ok ?y => assert (E : x = y) by congruence end. rewrite E, Hpr.
    cbn [res_bind concat]. by rewrite app_nil_r.
  - unfold pruned. pose proof (fetched_listing q cf (q_key q) Hfw) as Hlist. case_bool_decide as Hsize.
    + assert (Hms0 : ms = []); [|subst ms; cbn in Hw2; congruence].
      destruct Hlist as [Hperm _]. apply Permutation_length in Hperm. rewrite length_map_to_list in Hperm.
      unfold prune in Hpr. rewrite (drop_ge (q_data q')) in Hpr by lia. by injection Hpr as <-.
    + assert (Hsub : view cf2 (q_key q) ⊆ view cf (q_key q)).
      { apply map_subseteq_spec. intros n v (t & Hin)%lookup_view. apply lookup_view. exists t. by apply (Hk (q_key q)). }
      split; [done|]. exists (q_data q'). split; [done|]. intros n Hn.
      pose proof (to_keep_stored n Hn) as ([n' [v t]] & -> & Hin)%list_elem_of_fmap. cbn [fst] in *.
      assert (Hin2 : (n', (v, t)) ∈ columns cf2 (q_key q)) by (apply (Hk (q_key q)); [done|]; right; right; by split).
      transitivity (Some v); [|symmetry]; apply lookup_view; eauto.
  - intros t Hl. by apply (removals_older ms w cf t Hms Hw).
Qed.
End pruned.

(** ** Batches *)

Lemma batch_spec_width cfg roll_den q M ops M' pr r :
  full_width q M -> batch_spec cfg roll_den q M ops = (M', pr, r) -> full_width q M'.
Proof.
  revert M M' pr. induction ops as [|op ops IH]; intros M M' pr HM Hb; cbn [batch_spec] in Hb; [by injection Hb as <- _ _|].
  destruct (op_spec q M op) as [M1|e] eqn:Eo; [|by injection Hb as <- _ _].
  destruct (batch_spec cfg roll_den q M1 ops) as [[M2 pr2] r2] eqn:Eb. injection Hb as <- _ <-.
  eapply IH; [|exact Eb]. by eapply op_spec_width.
Qed.

Lemma with_mutator_step cfg roll_den q w cf b later :
  (0 < max_cached_items cfg)%nat -> q_precomputed q = false -> q_data q = [] -> w !! q_model q = Some cf ->
  StronglySorted Z.lt (b.2.*1 ++ later) -> (forall c t, t ∈ b.2.*1 ++ later -> latest cf (q_key q) c < t) ->
  full_width q (view cf (q_key q)) ->
  exists w' cf' M pr r, with_mutator cfg roll_den q w b = (w', r) /\ w' !! q_model q = Some cf' /\
    batch_spec cfg roll_den q (view cf (q_key q)) b.2.*2 = (M, pr, r) /\
    (if pr : bool then pruned cfg q M (view cf' (q_key q)) else view cf' (q_key q) = M) /\
    full_width q (view cf' (q_key q)) /\ (forall c t, t ∈ later -> latest cf' (q_key q) c < t).
Proof.
  intros Hmax Hp Hd Hw Hs Hl Hfw. unfold with_mutator.
  destruct (batched_view cfg roll_den q b.2 later w cf Hp Hw Hs Hl) as (ms & pr & r & M & cf1 & -> & Hb & Hw1 & Hv & Hl1).
  pose proof (batch_spec_width _ _ _ _ _ _ _ _ Hfw Hb) as HfwM. unfold mutator_send. destruct pr.
  - rewrite <- Hv in HfwM. destruct (prune_multi_view cfg b.1 q cf1 Hmax (send ms w) Hw1 Hd Hp HfwM) as (w2 & cf2 & -> & Hw2 & Hpr & Hl2).
    rewrite Hv in Hpr, HfwM. exists w2, cf2, M, true, r. split_and!; try done.
    + unfold pruned in Hpr. case_bool_decide; [by rewrite Hpr|]. destruct Hpr as [Hsub _]. intros n v Hn. eapply HfwM, lookup_weaken; eauto.
    + intros c t Ht. apply Hl2. intros c'. by apply Hl1.
  - exists (send ms w), cf1, M, false, r. rewrite Hv. by split_and!.
Qed.

Lemma with_mutators_view cfg roll_den q w cf bs :
  (0 < max_cached_items cfg)%nat -> q_precomputed q = false -> q_data q = [] -> w !! q_model q = Some cf ->
  StronglySorted Z.lt (times bs) -> (forall c t, t ∈ times bs -> latest cf (q_key q) c < t) ->
  full_width q (view cf (q_key q)) ->
  exists w' cf' rs, (forall acc, foldl (fun s b => let r := with_mutator cfg roll_den q s.1 b in (r.1, s.2 ++ [r.2])) (w, acc) bs = (w', acc ++ rs)) /\
    w' !! q_model q = Some cf' /\ full_width q (view cf' (q_key q)) /\
    evolves cfg roll_den q (view cf (q_key q)) ((fun b => b.2.*2) <$> bs) (view cf' (q_key q)) rs.
Proof.
  intros Hmax Hp Hd. revert w cf. induction bs as [|b bs IH]; intros w cf Hw Hs Hl Hfw.
  { exists w, cf, []. split; [intros acc; by rewrite app_nil_r|]. split_and!; [done|done|constructor]. }
  destruct (with_mutator_step cfg roll_den q w cf b (times bs) Hmax Hp Hd Hw Hs Hl Hfw)
    as (w1 & cf1 & M & pr & r & Hrun & Hw1 & Hb & Hpr & Hfw1 & Hl1).
  assert (Hs1 : StronglySorted Z.lt (times bs)) by (apply StronglySorted_app in Hs; tauto).
  destruct (IH w1 cf1 Hw1 Hs1 Hl1 Hfw1) as (w' & cf' & rs & Hruns & Hw' & Hfw' & Hev).
  exists w', cf', (r :: rs). split; [|split_and!; [done|done|]].
  - intros acc. cbn [foldl fst snd]. rewrite Hrun. cbn [fst snd]. rewrite Hruns. by rewrite <- app_assoc.
  - cbn [fmap list_fmap]. eapply one_batch; eauto.
Qed.

(** C3. A cached query is a materialized view: after any batches of inserts and
    deletes, a fetch lists the items of the map that these operations make of
    the stored one, by their sort values, the greatest first.  An operation
    that raises ends its batch, of which what came before is kept, and the
    error goes on; a batch that asks for it prunes the listing when it is over
    the limit, down to items that hold at least the first ones up to the
    limit. *)
Theorem query_is_materialized_view cfg roll_den q w cf bs :
  (0 < max_cached_items cfg)%nat -> q_precomputed q = false -> q_data q = [] -> w !! q_model q = Some cf ->
  StronglySorted Z.lt (times bs) -> (forall c t, t ∈ times bs -> latest cf (q_key q) c < t) ->
  full_width q (view cf (q_key q)) ->
  exists M q', evolves cfg roll_den q (view cf (q_key q)) ((fun b => b.2.*2) <$> bs) M (with_mutators cfg roll_den q w bs).2 /\
    fetch (with_mutators cfg roll_den q w bs).1 q = Ok q' /\ listing_of q M (q_data q').
Proof.
  intros Hmax Hp Hd Hw Hs Hl Hfw.
  destruct (with_mutators_view cfg roll_den q w cf bs Hmax Hp Hd Hw Hs Hl Hfw) as (w' & cf' & rs & Hrun & Hw' & Hfw' & Hev).
  unfold with_mutators. rewrite Hrun. cbn [fst snd app]. exists (view cf' (q_key q)). eexists. split; [done|].
  split; [by apply fetch_pure|]. by apply fetched_listing.
Qed.

(** ** Precomputed queries *)

Lemma before_slash_app s t : before_slash s = s -> before_slash (s +:+ "/" +:+ t) = s.
Proof.
  induction s as [|a s IH]; [done|]. intros Hs.
  change (String a s +:+ "/" +:+ t) with (String a (s +:+ "/" +:+ t)). simpl in Hs |- *.
  destruct (Ascii.eqb a "/"%char); [done|]. injection Hs as Hs. by rewrite IH.
Qed.

Lemma last_column_greatest names job :
  job ∈ names -> (forall n, n ∈ names -> String.leb n job = true) -> last_column names = Some job.
Proof.
  intros Hin Hle. unfold last_column.
  set (f := fun (m : option string) (n : string) => _).
  assert (Hstay : forall l, (forall n, n ∈ l -> String.leb n job = true) -> foldl f (Some job) l = Some job).
  { induction l as [|n l IH]; intros Hl; [done|]. simpl. destruct (String.leb job n) eqn:E.
    - assert (n = job) as ->; [|apply IH; set_solver].
      apply String.leb_antisym; [apply Hl; left|done].
    - apply IH. set_solver. }
  apply list_elem_of_split in Hin as (l1 & l2 & ->). rewrite foldl_app. simpl.
  assert (f (foldl f None l1) job = Some job) as ->; [|apply Hstay; set_solver].
  assert (Hacc : forall m, foldl f None l1 = Some m -> String.leb m job = true).
  { clear Hstay. assert (Hl1 : forall n, n ∈ l1 -> String.leb n job = true) by (intros; apply Hle; set_solver).
    clear Hle. revert Hl1. induction l1 as [|n l1 IH] using rev_ind; [done|].
    intros Hl1 m. rewrite foldl_app. simpl. destruct (foldl f None l1) as [m'|] eqn:E; simpl.
    - destruct (String.leb m' n); intros [= <-]; [apply Hl1; set_solver|].
      apply IH; [set_solver|done].
    - intros [= <-]. apply Hl1. set_solver. }
  destruct (foldl f None l1) as [m|]; simpl; [|done]. by rewrite (Hacc m).
Qed.

Lemma fetch_precomputed q w cf job :
  w !! q_model q = Some cf -> q_data q = [] -> q_precomputed q = true ->
  before_slash (q_key q) = q_key q ->
  last_column (columns cf (q_key q +:+ "/index")).*1 = Some job ->
  fetch w q = Ok (fetched q (columns cf (q_key q +:+ "/" +:+ job))).
Proof.
  intros Hw Hd Hp Hk Hlast. apply (fetch_of_model _ _ cf); [done..|].
  unfold fetch_model. cbn [List.filter]. rewrite Hp. cbn [negb fmap list_fmap].
  assert (index_mangle_keys cf [q_key q] = {[ q_key q +:+ "/" +:+ job := q_key q ]}) as ->.
  { unfold index_mangle_keys. cbn [omap list_omap]. rewrite Hlast.
    change "/index" with ("/" +:+ "index"). by rewrite before_slash_app. }
  rewrite map_to_list_singleton. cbn [fmap list_fmap fst app]. rewrite model_get_one.
  destruct (columns cf (q_key q +:+ "/" +:+ job)) as [|c cs].
  - by rewrite map_to_list_empty.
  - rewrite map_to_list_singleton. cbn [foldl fst snd]. by rewrite lookup_singleton_eq.
Qed.

(** The rows after a run has been stored. *)
Lemma run_stored cf now job key (M : item_map) :
  job <> "index" ->
  (forall n, n ∈ (columns cf (key +:+ "/index")).*1 -> String.leb n job = true) ->
  latest cf (key +:+ "/index") job < now ->
  (forall c, latest cf (key +:+ "/" +:+ job) c < now) ->
  columns cf (key +:+ "/" +:+ job) = [] ->
  let cf' := insert_col (key +:+ "/index") job [] now
    (foldl (fun cf c => insert_col (key +:+ "/" +:+ job) c.1 c.2 now cf) cf (map_to_list M)) in
  view cf' (key +:+ "/" +:+ job) = M /\ last_column (columns cf' (key +:+ "/index")).*1 = Some job.
Proof.
  intros Hj Hidx Hli Hlj Hnew. set (jrow := key +:+ "/" +:+ job) in *. set (irow := key +:+ "/index") in *.
  assert (Hrows : irow <> jrow).
  { unfold jrow, irow. intros E. change "/index" with ("/" +:+ "index") in E.
    apply (inj (String.append _)), (inj (String.append _)) in E. done. }
  set (cf1 := foldl _ cf _). intros cf'.
  assert (Hcf' : forall key' e, e ∈ columns cf' key' <->
    (key' = irow /\ e = (job, ([], now))) \/ (e ∈ columns cf1 key' /\ ~ (key' = irow /\ e.1 = job))).
  { intros key' e. apply insert_spec. unfold cf1. rewrite insert_cols_latest, bool_decide_false; naive_solver. }
  split.
  - transitivity (view cf1 jrow).
    + apply view_ext. intros n v. rewrite lookup_view. setoid_rewrite Hcf'. naive_solver.
    + unfold cf1. rewrite view_insert_cols by done.
      replace (view cf jrow) with (∅ : item_map) by (unfold view; by rewrite Hnew). apply (right_id_L ∅ (∪)).
  - apply last_column_greatest.
    + apply (list_elem_of_fmap_2 fst _ (job, ([], now))). apply Hcf'. by left.
    + intros n (e & -> & [[_ ->]|[He Hn]]%Hcf')%list_elem_of_fmap.
      * by destruct (String.leb_total job job).
      * apply Hidx. apply list_elem_of_fmap_2. unfold cf1 in He. apply insert_cols_spec in He.
        -- naive_solver.
        -- apply NoDup_fst_map_to_list.
        -- intros c _. apply Hlj.
Qed.

(** A precomputed query lists its latest run, when that is the one whose name
    is the greatest of the index: a run replaces what was listed. *)
Theorem replace_then_fetch now job q w cf things :
  q_precomputed q = true -> q_data q = [] -> w !! q_model q = Some cf ->
  before_slash (q_key q) = q_key q -> job <> "index" ->
  (forall n, n ∈ (columns cf (q_key q +:+ "/index")).*1 -> String.leb n job = true) ->
  latest cf (q_key q +:+ "/index") job < now ->
  (forall c, latest cf (q_key q +:+ "/" +:+ job) c < now) ->
  columns cf (q_key q +:+ "/" +:+ job) = [] ->
  match res_foldl (insert_item q) ∅ things with
  | Ok M => exists q', (let* ms := mutator_replace now job q things in fetch (send ms w) q) = Ok q' /\
      listing_of q M (q_data q')
  | Raise e => mutator_replace now job q things = Raise e
  end.
Proof.
  intros Hp Hd Hw Hk Hj Hidx Hli Hlj Hnew. unfold mutator_replace. rewrite Hp. cbn [py_assert res_bind].
  assert (Hwidth : forall M', res_foldl (insert_item q) ∅ things = Ok M' -> full_width q M').
  { intros M' HM'. apply (op_spec_width q ∅ (InsertOp things 0)); [intros n v E; by rewrite lookup_empty in E|done]. }
  rewrite <- cols_from_things_spec in Hwidth |- *.
  destruct (cols_from_things q things) as [M|e]; [|done]. cbn [res_bind] in Hwidth |- *.
  rewrite (right_id_L ∅ (∪) M) in Hwidth |- *.
  destruct (run_stored cf now job (q_key q) M Hj Hidx Hli Hlj Hnew) as [Hv Hlast].
  eexists. split.
  - apply fetch_precomputed with (job := job); [cbn [send foldl apply_mutation]|done..|exact Hlast].
    by rewrite !lookup_alter_eq, Hw.
  - pose proof (fetched_listing q _ _ (eq_ind_r (full_width q) (Hwidth M eq_refl) Hv)) as Hf.
    by rewrite Hv in Hf.
Qed.
End view.

(** ** Which queries are precomputed *)

(** A rule on the date somewhere in the tree. *)
Inductive on_date : rule -> Prop :=
  | on_date_rule : on_date (Rule "_date")
  | on_date_op ops r : r ∈ ops -> on_date r -> on_date (BooleanOp ops).

Definition rules_size (rules : list rule) : nat := list_sum (rule_size <$> rules).

Lemma rules_size_app l1 l2 : rules_size (l1 ++ l2) = (rules_size l1 + rules_size l2)%nat.
Proof. unfold rules_size. by rewrite fmap_app, list_sum_app. Qed.

Lemma on_date_op_iff ops : on_date (BooleanOp ops) <-> Exists on_date ops.
Proof.
  rewrite Exists_exists. split; [inversion 1; eauto|]. intros (r & ? & ?). by apply on_date_op with r.
Qed.

(** The loop visits every node and ends: with the size of the rules as fuel
    it answers whether there is a rule on the date. *)
Lemma precomputed_loop_correct fuel rules :
  (rules_size rules <= fuel)%nat -> precomputed_loop fuel rules = true <-> Exists on_date rules.
Proof.
  revert rules. induction fuel as [|fuel IH]; intros rules Hf.
  { destruct rules as [|[n|ops] rules]; unfold rules_size in Hf; simpl in Hf; [|lia..].
    simpl. by rewrite Exists_nil. }
  destruct rules as [|r rules _] using rev_ind; [simpl; by rewrite Exists_nil|].
  cbn [precomputed_loop]. rewrite last_snoc, length_app. cbn [length].
  replace (length rules + 1 - 1)%nat with (length rules) by lia. rewrite take_app_length.
  rewrite rules_size_app in Hf. rewrite Exists_app, Exists_cons, Exists_nil.
  unfold rules_size at 2 in Hf. destruct r as [n|ops]; simpl in Hf.
  - destruct (String.eqb_spec n "_date") as [->|Hn].
    + split; [intros _; right; left; constructor|done].
    + rewrite IH by lia. split; [tauto|]. intros [?|[Hd|?]]; [done| |done]. by inversion Hd.
  - rewrite IH; [|rewrite rules_size_app; unfold rules_size at 2; lia].
    rewrite Exists_app, on_date_op_iff. tauto.
Qed.

(** The traversal of the rule tree ends, and tells whether a query has a rule
    on the date. *)
Theorem is_query_precomputed_correct rules :
  is_query_precomputed rules = true <-> Exists on_date rules.
Proof. by apply precomputed_loop_correct. Qed.
End QueryProps.
