(* ===== verification/QueryExamples.v ===== *)
(** * Cached queries on concrete rows

    A column family with finitely many columns, the instances of the theorems
    of QueryProps on it, and two behaviours of the code that its comments do
    not announce. *)

From S2P Require Import Prelude CommentOrder QueryCache QueryProps.

Module QueryExamples.
Import CommentOrder QueryCache QueryProps.

(** The live columns, and the timestamps of the operations so far. *)
Record cfam (W : Type) := Cfam { live : gmap (string * string) (W * Z); stamp : string -> string -> Z }.
Arguments Cfam {W} _ _.
Arguments live {W} _.
Arguments stamp {W} _ _ _.

Section cfam.
Context {W : Type}.
Implicit Types cf : cfam W.

Definition stamped (P : string -> string -> bool) (t : Z) cf : string -> string -> Z :=
  fun k c => if P k c then Z.max (stamp cf k c) t else stamp cf k c.

Definition cfam_latest cf (k c : string) : Z :=
  match live cf !! (k, c) with Some (_, t) => Z.max (stamp cf k c) t | None => stamp cf k c end.

Definition cfam_columns cf (key : string) : list (string * (W * Z)) :=
  omap (M := list) (fun e : string * string * (W * Z) =>
    if bool_decide (e.1.1 = key) then Some (e.1.2, e.2) else None) (map_to_list (live cf)).

Definition cfam_insert (key c : string) (v : W) (t : Z) cf : cfam W :=
  Cfam (if bool_decide (cfam_latest cf key c < t) then <[(key, c) := (v, t)]> (live cf) else live cf)
    (stamped (fun k c' => bool_decide (k = key /\ c' = c)) t cf).

Definition cfam_remove (P : string -> string -> bool) (t : Z) cf : cfam W :=
  Cfam (filter (fun e : string * string * (W * Z) => ~ (P e.1.1 e.1.2 = true /\ e.2.2 <= t)) (live cf))
    (stamped P t cf).

Lemma elem_of_cfam_columns cf key c x : (c, x) ∈ cfam_columns cf key <-> live cf !! (key, c) = Some x.
Proof.
  unfold cfam_columns. rewrite list_elem_of_omap. split.
  - intros ([[k c'] x'] & Hin%elem_of_map_to_list & He). simpl in He. case_bool_decide; naive_solver.
  - intros Hl. exists ((key, c), x). split; [by apply elem_of_map_to_list|]. simpl.
    by rewrite bool_decide_true.
Qed.

Lemma cfam_columns_nodup cf key : NoDup (cfam_columns cf key).*1.
Proof.
  unfold cfam_columns. pose proof (NoDup_fst_map_to_list (live cf)) as Hnd.
  induction (map_to_list (live cf)) as [|[[k c] x] l IH]; [constructor|].
  apply NoDup_cons in Hnd as [Hn Hnd]. cbn [omap list_omap]. simpl. case_bool_decide as Hk; [|auto].
  constructor; [|auto]. intros ([c' x'] & E & Hin)%list_elem_of_fmap. simpl in E. subst c'.
  apply list_elem_of_omap in Hin as ([[k' c'] y] & Hin & E). simpl in E. case_bool_decide; simplify_eq.
  apply Hn. by apply (list_elem_of_fmap_2 fst) in Hin.
Qed.

Lemma cfam_remove_spec P cf t key e :
  e ∈ cfam_columns (cfam_remove P t cf) key <->
  e ∈ cfam_columns cf key /\ ~ (P key e.1 = true /\ e.2.2 <= t).
Proof. destruct e as [c x]. rewrite !elem_of_cfam_columns. unfold cfam_remove. simpl. apply map_lookup_filter_Some. Qed.

Lemma cfam_remove_latest P cf t key c :
  cfam_latest (cfam_remove P t cf) key c =
    if P key c then Z.max (cfam_latest cf key c) t else cfam_latest cf key c.
Proof.
  unfold cfam_latest, cfam_remove, stamped. simpl. rewrite map_lookup_filter.
  destruct (live cf !! (key, c)) as [[v t']|]; simpl; [|by destruct (P key c)].
  destruct (P key c); case_guard; simpl; naive_solver lia.
Qed.

#[export] Program Instance cfam_family : ColumnFamily (cfam W) W := {|
  columns := cfam_columns;
  latest := cfam_latest;
  insert_col := cfam_insert;
  remove_col := fun key c => cfam_remove (fun k c' => bool_decide (k = key /\ c' = c));
  remove_row := fun key => cfam_remove (fun k _ => bool_decide (k = key))
|}.
Next Obligation. apply cfam_columns_nodup. Qed.
Next Obligation.
  intros cf key c v t Hin%elem_of_cfam_columns. unfold cfam_latest. rewrite Hin. lia.
Qed.
Next Obligation.
  intros cf key c v t key' c'. unfold cfam_latest at 1, cfam_insert, stamped. simpl.
  case_bool_decide as Ht; case_bool_decide as Hk; [destruct Hk as [-> ->]; rewrite lookup_insert_eq|..].
  - unfold cfam_latest in *. destruct (live cf !! _) as [[? ?]|]; lia.
  - rewrite lookup_insert_ne by naive_solver. done.
  - unfold cfam_latest. destruct (live cf !! _) as [[? ?]|]; lia.
  - done.
Qed.
Next Obligation. intros. apply cfam_remove_latest. Qed.
Next Obligation. intros. apply cfam_remove_latest. Qed.
Next Obligation.
  intros cf key c v t key' [c' x] Hlt. rewrite !elem_of_cfam_columns. unfold cfam_insert. simpl.
  rewrite bool_decide_true by done. rewrite lookup_insert_Some. naive_solver.
Qed.
Next Obligation. intros. rewrite cfam_remove_spec, bool_decide_eq_true. tauto. Qed.
Next Obligation. intros. rewrite cfam_remove_spec, bool_decide_eq_true. tauto. Qed.
End cfam.

Definition empty_family : cfam (list Z) := Cfam ∅ (fun _ _ => 0).

Definition store0 : gmap string (cfam (list Z)) := {[ "SubredditQueryCache" := empty_family ]}.

Definition hot_query : @query Z :=
  Query "SubredditQueryCache" "links.2qh.hot.all" [Sort desc "_hot"; Sort desc "_date"] false [] ∅.

(** A link: its fullname, hotness and date. *)
Definition link (n : string) (hot date : Z) : @thing Z := Thing n (fun c =>
  if String.eqb c "_hot" then Ok hot else if String.eqb c "_date" then Ok date else Raise AttributeError).

Definition cfg2 : query_config := QueryConfig 2 1 2.

(** Three batches: of the second the last operation raises, the third asks for
    pruning. *)
Definition link_batches : list (Z * list (Z * @query_op Z)) :=
  [(2, [(1, InsertOp [link "t3_a" 5 10] 99); (2, InsertOp [link "t3_b" 7 11] 99)]);
   (5, [(3, InsertOp [link "t3_c" 6 12] 99); (4, DeleteOp [link "t3_b" 7 11]);
        (5, InsertOp [Thing "t3_x" (fun _ => Raise AttributeError)] 99)]);
   (7, [(6, InsertOp [link "t3_d" 9 13] 0)])].

Lemma empty_family_latest key c : latest (V := list Z) empty_family key c = 0.
Proof. done. Qed.

Lemma query_is_materialized_view_witness : exists M q' w',
  with_mutators cfg2 100 hot_query store0 link_batches = (w', [Ok tt; Raise AttributeError; Ok tt]) /\
  evolves cfg2 100 hot_query ∅ ((fun b => b.2.*2) <$> link_batches) M [Ok tt; Raise AttributeError; Ok tt] /\
  fetch w' hot_query = Ok q' /\ listing_of hot_query M (q_data q') /\ q_data q' = [("t3_d", [9; 13]); ("t3_c", [6; 12])].
Proof.
  destruct (query_is_materialized_view cfg2 100 hot_query store0 empty_family link_batches
    ltac:(vm_compute; lia) eq_refl eq_refl eq_refl
    ltac:(change (StronglySorted Z.lt [1; 2; 3; 4; 5; 6]); repeat constructor)
    ltac:(intros c t Ht; rewrite empty_family_latest; change (t ∈ [1; 2; 3; 4; 5; 6]) in Ht; set_unfold in Ht; lia)
    ltac:(intros n v E; discriminate E)) as (M & q' & Hev & Hf & Hl).
  exists M, q', (with_mutators cfg2 100 hot_query store0 link_batches).1.
  assert (Hd : (fun q => q_data q) <$> (match fetch (with_mutators cfg2 100 hot_query store0 link_batches).1 hot_query with Ok q => Some q | Raise _ => None end)
    = Some [("t3_d", [9; 13]); ("t3_c", [6; 12])]) by (vm_compute; reflexivity).
  rewrite Hf in Hd. injection Hd as Hd.
  assert (Hr : (with_mutators cfg2 100 hot_query store0 link_batches).2 = [Ok tt; Raise AttributeError; Ok tt]) by (vm_compute; reflexivity).
  rewrite Hr in Hev. split; [rewrite <- Hr; apply surjective_pairing|]. split; [exact Hev|]. split; [exact Hf|]. split; [exact Hl|exact Hd].
Defined.

(** Three links fetched, the listing limited to two; since then one of the
    two was inserted again, and a new link. *)
Definition fetched_family : cfam (list Z) :=
  insert_col "links.2qh.hot.all" "t3_c" [6; 12] 3 (insert_col "links.2qh.hot.all" "t3_b" [7; 11] 2
    (insert_col "links.2qh.hot.all" "t3_a" [5; 10] 1 empty_family)).

Definition later_family : cfam (list Z) := insert_col "links.2qh.hot.all" "t3_d" [9; 9] 4 fetched_family.

Lemma fetched_columns : columns fetched_family "links.2qh.hot.all"
  = [("t3_c", ([6; 12], 3)); ("t3_a", ([5; 10], 1)); ("t3_b", ([7; 11], 2))].
Proof. vm_compute. reflexivity. Qed.

Lemma later_columns : columns later_family "links.2qh.hot.all"
  = [("t3_c", ([6; 12], 3)); ("t3_a", ([5; 10], 1)); ("t3_b", ([7; 11], 2)); ("t3_d", ([9; 9], 4))].
Proof. vm_compute. reflexivity. Qed.

Lemma prune_safe_witness : exists ms cf2,
  prune cfg2 5 (fetched hot_query (columns fetched_family "links.2qh.hot.all")) = Ok ms /\
  send ms {[ "SubredditQueryCache" := later_family ]} !! "SubredditQueryCache" = Some cf2 /\
  ("t3_d", ([9; 9], 4)) ∈ columns (V := list Z) cf2 "links.2qh.hot.all".
Proof.
  destruct (prune_safe cfg2 5 hot_query fetched_family ltac:(simpl; lia)
    {[ "SubredditQueryCache" := later_family ]} later_family (lookup_singleton_eq _ _)) as (ms & cf2 & Hp & Hs & Hk).
  exists ms, cf2. split; [exact Hp|]. split; [exact Hs|].
  destruct (Hk "links.2qh.hot.all" ("t3_d", ([9; 9], 4))) as [_ Hkeep]. apply Hkeep; clear Hk Hkeep Hs.
  - rewrite later_columns. do 3 right. left.
  - right; left. try change (q_key hot_query) with "links.2qh.hot.all". rewrite fetched_columns.
    clear. intros e He. apply elem_of_cons in He as [->|[->|[->|[]%not_elem_of_nil]%elem_of_cons]%elem_of_cons];
      cbn [fst snd]; lia.
Defined.

(** In this run the fast path is taken: the oldest link goes. *)
Example prune_fast : prune cfg2 5 (fetched hot_query (columns fetched_family "links.2qh.hot.all"))
  = Ok [MRemoveRow "SubredditQueryCache" "links.2qh.hot.all" 1].
Proof. vm_compute. reflexivity. Qed.

Definition top_query : @query Z :=
  Query "SubredditQueryCache" "links.2qh.top.day" [Sort desc "_hot"; Sort desc "_date"] true [] ∅.

Lemma replace_then_fetch_witness : exists q',
  (let* ms := mutator_replace 3 "2015-05-02T00:00:00" top_query [link "t3_a" 5 10; link "t3_b" 7 11] in
   fetch (send ms store0) top_query) = Ok q' /\
  q_data q' ≡ₚ [("t3_a", [5; 10]); ("t3_b", [7; 11])].
Proof.
  pose proof (replace_then_fetch 3 "2015-05-02T00:00:00" top_query store0 empty_family
    [link "t3_a" 5 10; link "t3_b" 7 11] eq_refl eq_refl eq_refl eq_refl ltac:(discriminate)
    ltac:(intros n Hn; by apply not_elem_of_nil in Hn) ltac:(rewrite empty_family_latest; lia)
    ltac:(intros c; rewrite empty_family_latest; lia) eq_refl) as H.
  assert (Hs : res_foldl (insert_item top_query) ∅ [link "t3_a" 5 10; link "t3_b" 7 11]
    = Ok {[ "t3_a" := [5; 10]; "t3_b" := [7; 11] ]}) by (vm_compute; reflexivity).
  rewrite Hs in H. destruct H as (q' & Hf & Hp & _). exists q'. split; [exact Hf|].
  rewrite Hp. apply Permutation_refl'. vm_compute. reflexivity.
Defined.

(** ** Behaviours of the code that its comments do not announce *)

Definition old_query : @query Z :=
  Query "UserQueryCache" "saved.8.old" [Sort asc "_date"] false [] ∅.

(** The comparator gets the names of the columns, so that a query sorted
    ascending is listed in descending order. *)
Theorem ascending_listed_descending :
  (let* r := fetch {[ "UserQueryCache" := insert_col "saved.8.old" "t3_b" [2] 1
     (insert_col "saved.8.old" "t3_a" [1] 1 empty_family) ]} old_query in Ok (q_data r))
  = Ok [("t3_b", [2]); ("t3_a", [1])].
Proof. vm_compute. reflexivity. Qed.

(** Of queries of two models fetched together only those of the model met
    last get their results. *)
Theorem merged_models_lose_items :
  let w := {[ "UserQueryCache" := insert_col "saved.8.old" "t3_a" [1] 1 empty_family;
              "SubredditQueryCache" := insert_col "links.8.old" "t3_b" [2] 1 empty_family ]} in
  fetch_merged ["UserQueryCache"; "SubredditQueryCache"] w [Sort asc "_date"]
    [old_query; Query "SubredditQueryCache" "links.8.old" [Sort asc "_date"] false [] ∅]
  = Ok [("t3_b", [2])].
Proof. vm_compute. reflexivity. Qed.
End QueryExamples.
