(* ===== verification/RateLimit.v ===== *)
(** * Rate limits

    r2/lib/ratelimit.py: counters in [g.ratelimitcache], a chain of a local
    dictionary and memcached, one counter per limit and slice of time.  The
    memcached client is an interface with the documented behaviour of [add],
    [incr], item expiry and eviction. *)

From S2P Require Import Prelude HardCache.

Module RateLimit.
Import HardCache.

(** ** The memcached client *)

(** When an item stored with a time other than 0 expires: after that many
    seconds when these are at most thirty days, else at that time. *)
Definition expiry (now time : Z) : Z := if time <=? 2592000 then now + time else time.

(** [live m now key] is the counter under a key at a time.  Items stored with
    time 0 do not expire; any item can be evicted at any time. *)
Class Memcached (M : Type) := {
  live : M -> Z -> string -> option Z;
  mc_add : string -> Z -> Z -> Z -> M -> M * bool;
  mc_incr : string -> Z -> M -> M * res Z;
  mc_incr_multi : list string -> Z -> M -> M * res (list Z);
  mc_evict : string -> M -> M;
  live_later m now now' key v : now <= now' -> live m now' key = Some v -> live m now key = Some v;
  mc_add_answer key v time now m : (mc_add key v time now m).2 = bool_decide (live m now key = None);
  mc_add_live key v time now m now' key' : now <= now' ->
    live (mc_add key v time now m).1 now' key' =
      if bool_decide (key' = key /\ live m now key = None) then
        if bool_decide (time = 0 \/ now' < expiry now time) then Some v else None
      else live m now' key';
  mc_incr_missing key now m : live m now key = None -> mc_incr key now m = (m, Raise NotFound);
  mc_incr_answer key now m n : live m now key = Some n -> (mc_incr key now m).2 = Ok (n + 1);
  mc_incr_live key now m now' key' : now <= now' ->
    live (mc_incr key now m).1 now' key' =
      if bool_decide (key' = key) then Z.succ <$> live m now' key' else live m now' key';
  mc_evict_live key m now key' : live (mc_evict key m) now key' = if bool_decide (key' = key) then None else live m now key'
}.

(** ** Slices of time *)

Record timeslice := TimeSlice { beginning : Z; slice_end : Z }.

Definition remaining (s : timeslice) (now : Z) : Z := slice_end s - now.

(** [get_timeslice], for a positive width. *)
Definition get_timeslice (slice_seconds now : Z) : timeslice :=
  let slice_count := now / slice_seconds in
  let slice_start := slice_count * slice_seconds in
  TimeSlice slice_start (slice_start + slice_seconds).

Definition digit (n : Z) : Ascii.ascii := Ascii.ascii_of_nat (48 + Z.to_nat n).

(** Two digits, as [%H], [%M] and [%S] print them. *)
Definition pad2 (n : Z) : string := String (digit (n / 10)) (String (digit (n mod 10)) "").

(** [time.strftime('-%H%M%S', time.gmtime(t))]. *)
Definition strftime_hms (t : Z) : string :=
  "-" +:+ pad2 (t / 3600 mod 24) +:+ pad2 (t / 60 mod 60) +:+ pad2 (t mod 60).

(** [strftime('-@%s')], on a server whose time zone is UTC. *)
Definition strftime_epoch (t : Z) : string := "-@" +:+ py_str_int t.

Definition make_ratelimit_cache_key (key_prefix : string) (s : timeslice) : string :=
  ("rl:" +:+ key_prefix) +:+
    (if 86400 <=? slice_end s - beginning s then strftime_epoch (beginning s) else strftime_hms (beginning s)).

(** ** Keys *)

Lemma digit_inj n m : 0 <= n < 10 -> 0 <= m < 10 -> digit n = digit m -> n = m.
Proof.
  intros Hn Hm E%(f_equal Ascii.nat_of_ascii). unfold digit in E.
  rewrite !Ascii.nat_ascii_embedding in E by lia. lia.
Qed.

Lemma pad2_inj n m : 0 <= n < 60 -> 0 <= m < 60 -> pad2 n = pad2 m -> n = m.
Proof.
  intros Hn Hm [= E1 E2].
  apply digit_inj in E1; [|split; [apply Z.div_pos|apply Z.div_lt_upper_bound]; lia..].
  apply digit_inj in E2; [|apply Z.mod_pos_bound; lia..].
  rewrite (Z.div_mod n 10), (Z.div_mod m 10); lia.
Qed.

Lemma strftime_hms_inj t t' : t / 86400 = t' / 86400 -> strftime_hms t = strftime_hms t' -> t = t'.
Proof.
  intros Hd E. unfold strftime_hms in E. apply (inj (String.append "-")) in E.
  assert (H24 : forall t, 0 <= t / 3600 mod 24 < 60) by (intros u; pose proof (Z.mod_pos_bound (u / 3600) 24); lia).
  assert (H60 : forall t, 0 <= t mod 60 < 60) by (intros u; apply Z.mod_pos_bound; lia).
  assert (Happ : forall n m s s', pad2 n +:+ s = pad2 m +:+ s' -> pad2 n = pad2 m /\ s = s').
  { intros n m s s' [= E1 E2 E3]. unfold pad2. rewrite E1, E2. split; [done|exact E3]. }
  apply Happ in E as [E1%pad2_inj E]; [|done..]. apply Happ in E as [E2%pad2_inj E3%pad2_inj]; [|done..].
  assert (Hdd : forall u, u / 3600 = u / 60 / 60 /\ u / 86400 = u / 3600 / 24).
  { intros u. rewrite !Z.div_div by lia. done. }
  destruct (Hdd t) as [A1 A2], (Hdd t') as [B1 B2].
  pose proof (Z.div_mod t 60 ltac:(lia)). pose proof (Z.div_mod t' 60 ltac:(lia)).
  pose proof (Z.div_mod (t / 60) 60 ltac:(lia)). pose proof (Z.div_mod (t' / 60) 60 ltac:(lia)).
  pose proof (Z.div_mod (t / 3600) 24 ltac:(lia)). pose proof (Z.div_mod (t' / 3600) 24 ltac:(lia)). lia.
Qed.

(** Two slices of one limit have different keys: always when they are a day
    or longer, within a day otherwise. *)
Theorem slice_keys_distinct prefix w t t' :
  0 < w -> let s := get_timeslice w t in let s' := get_timeslice w t' in
  86400 <= w \/ beginning s / 86400 = beginning s' / 86400 ->
  make_ratelimit_cache_key prefix s = make_ratelimit_cache_key prefix s' -> s = s'.
Proof.
  intros Hw s s' Hday E. unfold make_ratelimit_cache_key in E.
  apply (inj (String.append ("rl:" +:+ prefix))) in E.
  assert (Hlen : forall u, slice_end (get_timeslice w u) - beginning (get_timeslice w u) = w) by (intros u; simpl; lia).
  unfold s, s' in E. rewrite !Hlen in E. fold s s' in E.
  assert (Hb : beginning s = beginning s').
  { destruct (Z.leb_spec 86400 w).
    - unfold strftime_epoch in E. apply (inj (String.append "-@")) in E.
      apply (f_equal py_int_str) in E. rewrite !py_int_str_int in E. congruence.
    - apply strftime_hms_inj; [|done]. destruct Hday; [lia|done]. }
  unfold s, s', get_timeslice in Hb |- *. simpl in Hb. by rewrite Hb.
Qed.

(** ** The cache chain *)

Section memcached.
Context {M : Type} `{Memcached M}.

(** [MemcacheChain((LocalCache(), mcrouter))]. *)
Record rlcache := RLCache { local : gmap string Z; mc : M }.

(** [CacheChain.add]: [LocalCache.add] is a [setdefault], [CMemcache.add]
    rejects negative times. *)
Definition rl_add (key : string) (v time now : Z) (c : rlcache) : rlcache * res bool :=
  let l := match local c !! key with Some _ => local c | None => <[key := v]> (local c) end in
  if time <? 0 then (RLCache l (mc c), Raise ValueError) else
  let r := mc_add key v time now (mc c) in (RLCache l r.1, Ok r.2).

(** [CacheChain.incr]: [LocalCache.incr] acts on a key that is there; the
    answer is memcached's. *)
Definition rl_incr (key : string) (now : Z) (c : rlcache) : rlcache * res Z :=
  let r := mc_incr key now (mc c) in (RLCache (alter Z.succ key (local c)) r.1, r.2).

Definition rl_incr_multi (keys : list string) (now : Z) (c : rlcache) : rlcache * res (list Z) :=
  let r := mc_incr_multi keys now (mc c) in
  (RLCache (foldl (fun l k => alter Z.succ k l) (local c) keys) r.1, r.2).

(** [CacheChain.get]: what only memcached has is put in the local cache. *)
Definition rl_get (key : string) (now : Z) (c : rlcache) : rlcache * option Z :=
  match local c !! key with
  | Some v => (c, Some v)
  | None =>
      match live (mc c) now key with
      | Some v => (RLCache (<[key := v]> (local c)) (mc c), Some v)
      | None => (c, None)
      end
  end.

(** [CacheChain.get_multi], read by key with default 0. *)
Fixpoint rl_get_multi (keys : list string) (now : Z) (c : rlcache) : rlcache * list Z :=
  match keys with
  | [] => (c, [])
  | key :: keys =>
      let r := rl_get key now c in
      let rs := rl_get_multi keys now r.1 in (rs.1, default 0 r.2 :: rs.2)
  end.

(** Items that memcached evicts. *)
Definition evict_all (keys : list string) (m : M) : M := foldl (fun m k => mc_evict k m) m keys.

(** ** Usage *)

(** [except pylibmc.Error as e: raise RatelimitError(e)]; of the client's
    errors the model has [NotFound]. *)
Definition wrap_errors {A} (r : res A) : res A :=
  match r with Raise NotFound => Raise RatelimitError | _ => r end.

(** [record_usage].  [t_add] is the clock when the remaining time is read,
    [t_incr] at the increment, [t_retry] in the handler; [env] is what other
    clients and evictions do to memcached between the two calls. *)
Definition record_usage (key_prefix : string) (s : timeslice) (t_add t_incr t_retry : Z) (env : M -> M)
    (c : rlcache) : rlcache * res Z :=
  let key := make_ratelimit_cache_key key_prefix s in
  match rl_add key 0 (remaining s t_add) t_add c with
  | (c, Raise e) => (c, wrap_errors (Raise e))
  | (c, Ok _) =>
      match rl_incr key t_incr (RLCache (local c) (env (mc c))) with
      | (c, Raise NotFound) =>
          if t_retry <? slice_end s then
            match rl_add key 1 (slice_end s - t_retry + 1) t_retry c with
            | (c, Raise e) => (c, wrap_errors (Raise e))
            | (c, Ok _) => (c, Ok 1)
            end
          else (c, Ok 1)
      | (c, r) => (c, wrap_errors r)
      end
  end.

(** The loop of [add]s of [record_usage_multi]. *)
Fixpoint add_all (now : Z) (ks : list (string * timeslice)) (c : rlcache) : rlcache * res unit :=
  match ks with
  | [] => (c, Ok tt)
  | (key, s) :: ks =>
      match rl_add key 0 (slice_end s - now + 1) now c with
      | (c, Raise e) => (c, Raise e)
      | (c, Ok _) => add_all now ks c
      end
  end.

(** The loop of the handler. *)
Fixpoint readd_all (now : Z) (ks : list (string * timeslice)) (c : rlcache) : rlcache * res (list (option Z)) :=
  match ks with
  | [] => (c, Ok [])
  | (key, s) :: ks =>
      match rl_add key 1 (slice_end s - now + 1) now c with
      | (c, Raise e) => (c, Raise e)
      | (c, Ok added) =>
          let r := if added then (c, Some 1) else rl_get key now c in
          match readd_all now ks r.1 with
          | (c, Raise e) => (c, Raise e)
          | (c, Ok us) => (c, Ok (r.2 :: us))
          end
      end
  end.

(** [record_usage_multi].  In the handler [time_slice] is the slice of the
    last iteration above; when it is over, [recent_usage] has no value. *)
Definition record_usage_multi (prefix_slices : list (string * timeslice)) (t_add t_incr t_retry : Z)
    (env : M -> M) (c : rlcache) : rlcache * res (list (option Z)) :=
  let ks := (fun ps => (make_ratelimit_cache_key ps.1 ps.2, ps.2)) <$> prefix_slices in
  match add_all t_add ks c with
  | (c, Raise e) => (c, wrap_errors (Raise e))
  | (c, Ok _) =>
      match rl_incr_multi ks.*1 t_incr (RLCache (local c) (env (mc c))) with
      | (c, Raise NotFound) =>
          match last ks with
          | None => (c, Raise UnboundLocalError)
          | Some (_, time_slice) =>
              if t_retry <? slice_end time_slice then
                let r := readd_all t_retry ks c in (r.1, wrap_errors r.2)
              else (c, Raise UnboundLocalError)
          end
      | (c, Raise e) => (c, wrap_errors (Raise e))
      | (c, Ok us) => (c, Ok (Some <$> us))
      end
  end.

Definition get_usage (key_prefix : string) (s : timeslice) (now : Z) (c : rlcache) : rlcache * option Z :=
  rl_get (make_ratelimit_cache_key key_prefix s) now c.

Definition get_usage_multi (prefix_slices : list (string * timeslice)) (now : Z) (c : rlcache) : rlcache * list Z :=
  rl_get_multi ((fun ps => make_ratelimit_cache_key ps.1 ps.2) <$> prefix_slices) now c.

(** ** The class *)

(** The attributes of a [RateLimit]; the events it counts are not modelled. *)
Record ratelimit := RateLimit { rl_key : string; limit : Z; seconds : Z }.

Definition below_limit (r : ratelimit) (usage : option Z) : bool :=
  match usage with None => true | Some u => u <? limit r end.

Definition check (r : ratelimit) (now : Z) (c : rlcache) : rlcache * bool :=
  let u := get_usage (rl_key r) (get_timeslice (seconds r) now) now c in (u.1, below_limit r u.2).

Definition check_multi (rs : list ratelimit) (now : Z) (c : rlcache) : rlcache * bool :=
  let us := get_usage_multi ((fun r => (rl_key r, get_timeslice (seconds r) now)) <$> rs) now c in
  (us.1, forallb (fun ur => below_limit ur.2 (Some ur.1)) (zip us.2 rs)).

Definition record (r : ratelimit) (t_slice t_add t_incr t_retry : Z) (env : M -> M) (c : rlcache) : rlcache * res Z :=
  record_usage (rl_key r) (get_timeslice (seconds r) t_slice) t_add t_incr t_retry env c.

Definition record_multi (rs : list ratelimit) (t_slice t_add t_incr t_retry : Z) (env : M -> M) (c : rlcache)
  : rlcache * res (list (option Z)) :=
  record_usage_multi ((fun r => (rl_key r, get_timeslice (seconds r) t_slice)) <$> rs) t_add t_incr t_retry env c.

(** [SimpleRateLimit.record_and_check]; [t_check] is the clock at the check. *)
Definition record_and_check (r : ratelimit) (t_slice t_add t_incr t_retry t_check : Z) (env : M -> M) (c : rlcache)
  : rlcache * res bool :=
  match record r t_slice t_add t_incr t_retry env c with
  | (c, Raise e) => (c, Raise e)
  | (c, Ok _) => let u := check r t_check c in (u.1, Ok u.2)
  end.

(** ** Slices *)

Lemma get_timeslice_contains w now : 0 < w ->
  let s := get_timeslice w now in
  beginning s <= now < slice_end s /\ slice_end s - beginning s = w /\ beginning s mod w = 0.
Proof.
  intros Hw. simpl. pose proof (Z.div_mod now w ltac:(lia)). pose proof (Z.mod_pos_bound now w Hw).
  split; [nia|]. split; [lia|]. apply Z.mod_mul. lia.
Qed.

Lemma get_timeslice_same w now now' : 0 < w ->
  beginning (get_timeslice w now) <= now' < slice_end (get_timeslice w now) ->
  get_timeslice w now' = get_timeslice w now.
Proof.
  intros Hw. simpl. intros [H1 H2]. unfold get_timeslice.
  assert (now' / w = now / w) as ->; [|done]. symmetry. apply Z.div_unique with (now' - now / w * w); lia.
Qed.

(** ** The local cache hides what others record *)

(** With a local cache that does not have the counter yet, as at the start of
    a request, [record_and_check] sees its own use only: it allows everything
    when the limit is above one, whatever memcached counts. *)
Theorem record_and_check_sees_itself r t_slice t_add t_incr t_retry t_check env (c : rlcache) n :
  0 < seconds r -> 1 < limit r ->
  beginning (get_timeslice (seconds r) t_slice) <= t_check < slice_end (get_timeslice (seconds r) t_slice) ->
  let key := make_ratelimit_cache_key (rl_key r) (get_timeslice (seconds r) t_slice) in
  local c !! key = None ->
  (record r t_slice t_add t_incr t_retry env c).2 = Ok n ->
  (record_and_check r t_slice t_add t_incr t_retry t_check env c).2 = Ok true.
Proof.
  intros Hs Hlim Ht key Hloc Hrec. unfold record_and_check.
  assert (Hl : local (record r t_slice t_add t_incr t_retry env c).1 !! key = Some 1).
  { revert Hrec. unfold record, record_usage, rl_add, rl_incr. fold key. rewrite Hloc.
    destruct (_ <? 0); [done|]. cbn [fst snd local mc].
    assert (Ha : alter Z.succ key (<[key:=0]> (local c)) !! key = Some 1) by by rewrite lookup_alter_eq, lookup_insert_eq.
    destruct (mc_incr _ _ _).2 as [u|e]; [done|]. destruct e; try done.
    destruct (t_retry <? _); [|done]. rewrite Ha. destruct (_ <? 0); [done|]. done. }
  destruct (record r t_slice t_add t_incr t_retry env c) as [c' [u|e]]; [|done].
  unfold check, get_usage, rl_get. rewrite (get_timeslice_same _ _ _ Hs Ht). fold key. cbn [fst snd] in Hl |- *.
  rewrite Hl. cbn. f_equal. lia.
Qed.

(** ** Recording in turn *)

Section slice.
Variables (prefix : string) (s : timeslice).
Notation key := (make_ratelimit_cache_key prefix s).

(** From [t0] the counter stays until the end of the slice. *)
Definition steady (m : M) (t0 : Z) : Prop :=
  forall t, t0 <= t < slice_end s -> live m t key = live m t0 key.

Definition uses (m : M) (t : Z) : Z := default 0 (live m t key).

Lemma steady_fresh m t0 : live m t0 key = None -> steady m t0.
Proof.
  intros Hn t Ht. rewrite Hn. destruct (live m t key) eqn:E; [|done].
  apply (live_later m t0 t) in E; [congruence|lia].
Qed.

(** Evictions. *)
Lemma evict_all_live ks m t k : live (evict_all ks m) t k = if bool_decide (k ∈ ks) then None else live m t k.
Proof.
  unfold evict_all. revert m. induction ks as [|x ks IH]; intros m; cbn [foldl].
  { rewrite bool_decide_false; [done|apply not_elem_of_nil]. }
  rewrite IH, mc_evict_live. repeat case_bool_decide; set_solver.
Qed.

Lemma evict_all_steady ks m t0 : steady m t0 -> steady (evict_all ks m) t0.
Proof. intros Hst t Ht. rewrite !evict_all_live. case_bool_decide; [done|by apply Hst]. Qed.

Lemma evict_all_uses ks m t : uses (evict_all ks m) t = if bool_decide (key ∈ ks) then 0 else uses m t.
Proof. unfold uses. rewrite evict_all_live. by case_bool_decide. Qed.

Lemma steady_later m t0 t1 : t0 <= t1 < slice_end s -> steady m t0 -> steady m t1 /\ uses m t1 = uses m t0.
Proof.
  intros Ht Hst. split; [intros t Ht'; by rewrite (Hst t), (Hst t1) by lia|]. unfold uses. by rewrite (Hst t1) by lia.
Qed.

(** One record, with evictions between its two calls: the counter stays until
    the end of the slice and counts this use, and those before unless it was
    evicted; the answer is the count. *)
Lemma record_usage_spec ks t0 t_add t_incr t_retry c :
  slice_end s - t0 < 2592000 -> steady (mc c) t0 -> t0 <= t_add <= t_incr -> t_incr <= t_retry < slice_end s ->
  let n := if bool_decide (key ∈ ks) then 1 else uses (mc c) t0 + 1 in
  exists c', record_usage prefix s t_add t_incr t_retry (evict_all ks) c = (c', Ok n) /\
    steady (mc c') t_retry /\ uses (mc c') t_retry = n.
Proof.
  intros Hw Hst [Ht1 Ht2] [Hlt1 Hlt2] n. unfold record_usage, rl_add.
  rewrite (proj2 (Z.ltb_ge (remaining s t_add) 0)) by (unfold remaining; lia).
  set (l := match local c !! key with Some _ => _ | None => _ end). cbn [local mc].
  set (m1 := (mc_add key 0 (remaining s t_add) t_add (mc c)).1).
  assert (Hexp : forall t time, 0 <= time <= 2592000 -> expiry t time = t + time).
  { intros t time Ht. unfold expiry. by rewrite (proj2 (Z.leb_le time 2592000)) by lia. }
  assert (Hm1 : forall t, t_incr <= t < slice_end s -> live m1 t key = Some (uses (mc c) t0)).
  { intros t Ht. unfold m1. rewrite mc_add_live by lia. rewrite (Hst t_add) by lia.
    rewrite (Hst t) by lia. unfold uses. destruct (live (mc c) t0 key) as [v|].
    - by rewrite bool_decide_false by naive_solver.
    - rewrite !bool_decide_true; [done| |done]. right. unfold remaining. rewrite Hexp by lia. lia. }
  unfold rl_incr. cbn [local mc fst snd]. fold m1. subst n. case_bool_decide as Hk.
  - assert (Hnone : forall t, live (evict_all ks m1) t key = None) by (intros t; by rewrite evict_all_live, bool_decide_true).
    rewrite mc_incr_missing by done. cbn [fst snd local mc]. rewrite (proj2 (Z.ltb_lt t_retry _)) by lia.
    rewrite (proj2 (Z.ltb_ge (slice_end s - t_retry + 1) 0)) by lia. eexists. split; [done|]. cbn [mc fst].
    assert (Hm2 : forall t, t_retry <= t < slice_end s ->
      live (mc_add key 1 (slice_end s - t_retry + 1) t_retry (evict_all ks m1)).1 t key = Some 1).
    { intros t Ht. rewrite mc_add_live by lia. rewrite (bool_decide_true (key = key /\ _)) by done.
      rewrite bool_decide_true; [done|]. right. rewrite Hexp by lia. lia. }
    split; [intros t Ht; by rewrite !Hm2 by lia|]. unfold uses at 1. by rewrite Hm2 by lia.
  - assert (Hm1' : forall t, t_incr <= t < slice_end s -> live (evict_all ks m1) t key = Some (uses (mc c) t0)).
    { intros t Ht. rewrite evict_all_live, bool_decide_false by done. by apply Hm1. }
    rewrite (mc_incr_answer key t_incr _ _ (Hm1' t_incr ltac:(lia))). eexists. split; [done|]. cbn [mc].
    assert (Hm2 : forall t, t_incr <= t < slice_end s ->
      live (mc_incr key t_incr (evict_all ks m1)).1 t key = Some (uses (mc c) t0 + 1)).
    { intros t Ht. rewrite mc_incr_live, bool_decide_true, Hm1' by lia || done. done. }
    split; [intros t Ht; rewrite !Hm2 by lia; done|]. unfold uses at 1. by rewrite Hm2 by lia.
Qed.
End slice.

(** ** A record at the end of a slice *)

(** When the clock has reached the end of the slice at the time the remaining
    seconds are read, the counter is stored with time 0 and does not expire:
    the slice a day later, which has the same key, starts with that use. *)
Theorem late_record_counts_next_day prefix s t now (c : rlcache) :
  slice_end s = t -> slice_end s - beginning s < 86400 ->
  live (mc c) t (make_ratelimit_cache_key prefix s) = None -> t <= now ->
  (record_usage prefix s t t t id c).2 = Ok 1 /\
  (get_usage prefix (TimeSlice (beginning s + 86400) (slice_end s + 86400)) now
    (RLCache ∅ (mc (record_usage prefix s t t t id c).1))).2 = Some 1.
Proof.
  intros Ht Hw Hn Hnow. unfold get_usage, rl_get. cbn [local mc]. rewrite lookup_empty.
  assert (Hkey : make_ratelimit_cache_key prefix (TimeSlice (beginning s + 86400) (slice_end s + 86400))
    = make_ratelimit_cache_key prefix s).
  { unfold make_ratelimit_cache_key. cbn [beginning slice_end].
    rewrite !(proj2 (Z.leb_gt 86400 _)) by lia. unfold strftime_hms.
    replace ((beginning s + 86400) / 3600) with (beginning s / 3600 + 1 * 24).
    2:{ replace (beginning s + 86400) with (beginning s + 24 * 3600) by lia. rewrite Z.div_add by lia. lia. }
    replace ((beginning s + 86400) / 60) with (beginning s / 60 + 24 * 60).
    2:{ replace (beginning s + 86400) with (beginning s + 1440 * 60) by lia. rewrite Z.div_add by lia. lia. }
    replace (beginning s + 86400) with (beginning s + 1440 * 60) by lia. by rewrite !Z.mod_add by lia. }
  rewrite Hkey. clear Hkey. set (key := make_ratelimit_cache_key prefix s) in *.
  unfold record_usage, rl_add. fold key.
  assert (remaining s t = 0) as -> by (unfold remaining; lia). cbn [Z.ltb Z.compare].
  set (m1 := (mc_add key 0 0 t (mc c)).1).
  assert (Hm1 : forall t', t <= t' -> live m1 t' key = Some 0).
  { intros t' Ht'. unfold m1. rewrite mc_add_live, !bool_decide_true by (done || auto). done. }
  unfold rl_incr. cbn [local mc id]. fold m1. rewrite (mc_incr_answer key t m1 0) by (apply Hm1; lia).
  split; [done|]. cbn [mc fst]. rewrite mc_incr_live, bool_decide_true, Hm1 by done. done.
Qed.

(** ** Requests in turn are limited *)

(** A request starts with an empty local cache, checks the limit and, when it
    is below, records its use.  Memcached evicts items before the check,
    between it and the record, and between the two calls of the record. *)
Record request := Request {
  t_check : Z; t_add : Z; t_incr : Z; lost_before : list string; lost_unrecorded : list string; lost_between : list string
}.

Definition serve (r : ratelimit) (m : M) (q : request) : res (M * bool) :=
  let c := check r (t_check q) (RLCache ∅ (evict_all (lost_before q) m)) in
  if c.2 then
    match record r (t_check q) (t_add q) (t_incr q) (t_incr q) (evict_all (lost_between q))
            (RLCache (local c.1) (evict_all (lost_unrecorded q) (mc c.1))) with
    | (c, Raise e) => Raise e
    | (c, Ok _) => Ok (mc c, true)
    end
  else Ok (mc c.1, false).

Fixpoint serve_all (r : ratelimit) (m : M) (qs : list request) : res (M * list bool) :=
  match qs with
  | [] => Ok (m, [])
  | q :: qs =>
      let* mb := serve r m q in let* mbs := serve_all r mb.1 qs in Ok (mbs.1, mb.2 :: mbs.2)
  end.

(** Requests one after the other, all before the end. *)
Fixpoint in_turn (t0 stop : Z) (qs : list request) : Prop :=
  match qs with
  | [] => True
  | q :: qs => t0 <= t_check q <= t_add q /\ t_add q <= t_incr q < stop /\ in_turn (t_incr q) stop qs
  end.

(** How often a counter is evicted in the requests. *)
Definition count_key (key : string) (ks : list string) : Z := Z.of_nat (length (List.filter (String.eqb key) ks)).

Definition evictions (key : string) (q : request) : Z :=
  count_key key (lost_before q) + count_key key (lost_unrecorded q) + count_key key (lost_between q).

Definition all_evictions (key : string) (qs : list request) : Z := zsum_map (evictions key) qs.

Definition allowed (bs : list bool) : Z := Z.of_nat (length (List.filter id bs)).

Lemma count_key_nonneg key ks : 0 <= count_key key ks.
Proof. unfold count_key. lia. Qed.

Lemma count_key_elem key ks : key ∈ ks -> 1 <= count_key key ks.
Proof.
  unfold count_key. induction ks as [|k ks IH]; intros Hin; [by apply not_elem_of_nil in Hin|]. cbn [List.filter].
  destruct (String.eqb_spec key k) as [-> | Hne]; [cbn [length]; lia|]. apply IH. by apply elem_of_cons in Hin as [? | ?].
Qed.

Lemma count_key_lost key ks : (if bool_decide (key ∈ ks) then 1 else 0) <= count_key key ks.
Proof. case_bool_decide; [by apply count_key_elem|apply count_key_nonneg]. Qed.

Lemma count_key_none key ks : count_key key ks = 0 -> key ∉ ks.
Proof. intros Hz Hin%count_key_elem. lia. Qed.

Lemma evictions_nonneg key q : 0 <= evictions key q.
Proof.
  unfold evictions. pose proof (count_key_nonneg key (lost_before q)). pose proof (count_key_nonneg key (lost_unrecorded q)).
  pose proof (count_key_nonneg key (lost_between q)). lia.
Qed.

Lemma all_evictions_nonneg key qs : 0 <= all_evictions key qs.
Proof.
  unfold all_evictions. induction qs as [|q qs IH]; [done|]. rewrite zsum_map_cons. pose proof (evictions_nonneg key q). lia.
Qed.

Lemma check_spec r m t0 t :
  let s := get_timeslice (seconds r) t0 in
  0 < seconds r -> 0 < limit r -> steady (rl_key r) s m t0 -> t0 <= t < slice_end s ->
  get_timeslice (seconds r) t = s /\
  (check r t (RLCache ∅ m)).2 = (uses (rl_key r) s m t0 <? limit r) /\
  mc (check r t (RLCache ∅ m)).1 = m.
Proof.
  intros s Hs Hlim Hst Ht. assert (Hsl : get_timeslice (seconds r) t = s).
  { apply get_timeslice_same; [done|]. destruct (get_timeslice_contains (seconds r) t0 Hs) as [? _].
    subst s. lia. }
  split; [done|]. unfold check, get_usage, rl_get. rewrite Hsl. cbn [local mc]. rewrite lookup_empty.
  rewrite (Hst t Ht). unfold uses.
  destruct (live m t0 _); cbn; [done|]. split; [|done]. symmetry. by apply Z.ltb_lt.
Qed.

(** What is left of the limit. *)
Definition room (r : ratelimit) (s : timeslice) (m : M) (t : Z) : Z := Z.max 0 (limit r - uses (rl_key r) s m t).

(** A request uses up what is left by one when it is let through; an eviction
    gives back a limit at most. *)
Lemma serve_spec r m t0 q :
  let s := get_timeslice (seconds r) t0 in
  let key := make_ratelimit_cache_key (rl_key r) s in
  0 < seconds r < 2592000 -> 0 < limit r -> 0 <= uses (rl_key r) s m t0 -> steady (rl_key r) s m t0 ->
  t0 <= t_check q <= t_add q -> t_add q <= t_incr q < slice_end s ->
  exists m' b, serve r m q = Ok (m', b) /\ steady (rl_key r) s m' (t_incr q) /\ 0 <= uses (rl_key r) s m' (t_incr q) /\
    (if b : bool then 1 else 0) + room r s m' (t_incr q) <= room r s m t0 + evictions key q * limit r /\
    (evictions key q = 0 -> b = (uses (rl_key r) s m t0 <? limit r) /\
      uses (rl_key r) s m' (t_incr q) = uses (rl_key r) s m t0 + if b then 1 else 0).
Proof.
  intros s key Hs Hlim Hu0 Hst H1 H2. unfold serve. set (m0 := evict_all (lost_before q) m).
  assert (Hst0 : steady (rl_key r) s m0 t0) by by apply evict_all_steady.
  pose proof (evict_all_uses (rl_key r) s (lost_before q) m t0) as Hu. fold m0 key in Hu.
  destruct (check_spec r m0 t0 (t_check q) ltac:(lia) Hlim Hst0 ltac:(fold s; lia)) as (Hsl & Hc & Hmc).
  fold s in Hsl, Hc. rewrite Hc. pose proof (count_key_nonneg key (lost_before q)). pose proof (count_key_nonneg key (lost_unrecorded q)).
  pose proof (count_key_nonneg key (lost_between q)).
  pose proof (count_key_lost key (lost_before q)) as Hb.
  set (ev := evictions key q * limit r).
  assert (Hev : 0 <= ev /\ (1 <= evictions key q -> limit r <= ev)) by (unfold ev; pose proof (evictions_nonneg key q); nia).
  assert (Hcount : evictions key q = count_key key (lost_before q) + count_key key (lost_unrecorded q) + count_key key (lost_between q)) by done.
  assert (Hwidth : slice_end s - t0 < 2592000) by (destruct (get_timeslice_contains (seconds r) t0 ltac:(lia)) as (? & ? & _); subst s; lia).
  destruct (uses (rl_key r) s m0 t0 <? limit r) eqn:Eu.
  - unfold record. rewrite Hsl, Hmc. set (m1 := evict_all (lost_unrecorded q) m0).
    pose proof (evict_all_uses (rl_key r) s (lost_unrecorded q) m0 t0) as Hu1. fold m1 key in Hu1.
    destruct (record_usage_spec (rl_key r) s (lost_between q) t0 (t_add q) (t_incr q) (t_incr q)
      (RLCache (local (check r (t_check q) (RLCache ∅ m0)).1) m1)) as (c' & -> & Hst' & Hu'); cbn [mc]; [done|by apply evict_all_steady|lia..|].
    fold key in Hu'. exists (mc c'), true. split; [done|]. split; [done|]. cbn [mc] in Hu'. unfold room. rewrite Hu'.
    pose proof (count_key_lost key (lost_unrecorded q)) as Hn. pose proof (count_key_lost key (lost_between q)) as Hn'.
    split; [repeat case_bool_decide; lia|]. split; [clearbody ev; repeat case_bool_decide; lia|]. intros Hz.
    assert (Hno : key ∉ lost_before q /\ key ∉ lost_unrecorded q /\ key ∉ lost_between q) by (split_and!; apply count_key_none; lia).
    destruct Hno as (N1 & N2 & N3). rewrite !bool_decide_false in * by done. split; [by rewrite <- Hu|lia].
  - apply Z.ltb_ge in Eu. exists m0, false. rewrite Hmc.
    destruct (steady_later (rl_key r) s m0 t0 (t_incr q) ltac:(lia) Hst0) as [Hst1 Hu1]. unfold room. rewrite Hu1.
    clearbody ev. assert (Hlost : uses (rl_key r) s m0 t0 = uses (rl_key r) s m t0 \/ 1 <= evictions key q)
      by (rewrite Hu; case_bool_decide; [right|left]; lia).
    split; [done|]. split; [done|]. split; [lia|]. split; [simpl; lia|].
    intros Hz. split; [symmetry; apply Z.ltb_ge; lia|lia].
Qed.

(** C39. Of the requests of one slice, coming one after the other, as many are
    let through as the limit leaves, and the limit once more for every time
    that memcached evicts the counter; without evictions these are exactly the
    first ones.  Slices are shorter than thirty days. *)
Theorem requests_in_turn_limited r m t0 qs :
  let s := get_timeslice (seconds r) t0 in
  let key := make_ratelimit_cache_key (rl_key r) s in
  0 < seconds r < 2592000 -> 0 < limit r -> 0 <= uses (rl_key r) s m t0 -> steady (rl_key r) s m t0 ->
  in_turn t0 (slice_end s) qs ->
  let free := Z.to_nat (limit r - uses (rl_key r) s m t0) in
  exists m' bs, serve_all r m qs = Ok (m', bs) /\ length bs = length qs /\
    allowed bs <= Z.of_nat free + all_evictions key qs * limit r /\
    (all_evictions key qs = 0 -> bs = repeat true (Nat.min free (length qs)) ++ repeat false (length qs - free)).
Proof.
  intros s key Hs Hlim. assert (Hsame : forall t, t0 <= t < slice_end s -> get_timeslice (seconds r) t = s).
  { intros t Ht. apply get_timeslice_same; [lia|].
    destruct (get_timeslice_contains (seconds r) t0 ltac:(lia)) as [? _]. subst s. lia. }
  assert (Hgo : forall qs t m, t0 <= t < slice_end s -> 0 <= uses (rl_key r) s m t -> steady (rl_key r) s m t -> in_turn t (slice_end s) qs ->
    exists m' bs, serve_all r m qs = Ok (m', bs) /\ length bs = length qs /\
      allowed bs <= room r s m t + all_evictions key qs * limit r /\
      (all_evictions key qs = 0 -> let free := Z.to_nat (limit r - uses (rl_key r) s m t) in
        bs = repeat true (Nat.min free (length qs)) ++ repeat false (length qs - free))).
  { clear qs m. induction qs as [|q qs IH]; intros t m Ht Hu Hst Hq.
    { exists m, []. split; [done|]. split; [done|]. split; [unfold allowed, all_evictions, zsum_map, room; simpl; lia|].
      intros _. cbv zeta. by rewrite Nat.min_0_r. }
    destruct Hq as (H1 & H2 & Hq). pose proof (serve_spec r m t q) as Hserve. cbv zeta in Hserve.
    rewrite (Hsame t Ht) in Hserve. fold key in Hserve. destruct (Hserve Hs Hlim Hu Hst H1 H2) as (m1 & b & Hm1 & Hst1 & Hu1 & Hroom & Hex).
    destruct (IH (t_incr q) m1 ltac:(lia) Hu1 Hst1 Hq) as (m' & bs & Hm' & Hlen & Hall & Hexact). exists m', (b :: bs).
    cbn [serve_all]. rewrite Hm1. cbn [res_bind fst snd]. rewrite Hm'. cbn [res_bind fst snd length].
    split; [done|]. split; [by rewrite Hlen|]. unfold all_evictions in *. rewrite zsum_map_cons. split.
    - unfold allowed in *. cbn [List.filter id]. destruct b; cbn [length] in *; lia.
    - pose proof (evictions_nonneg key q). pose proof (all_evictions_nonneg key qs) as Hnn. unfold all_evictions in Hnn.
      intros Hz. destruct (Hex ltac:(lia)) as [-> Hu']. rewrite (Hexact ltac:(lia)), Hu'.
      destruct (Z.ltb_spec (uses (rl_key r) s m t) (limit r)).
      + replace (Z.to_nat (limit r - uses (rl_key r) s m t))
          with (Datatypes.S (Z.to_nat (limit r - (uses (rl_key r) s m t + 1)))) by lia. done.
      + replace (Z.to_nat (limit r - uses (rl_key r) s m t)) with 0%nat by lia.
        replace (Z.to_nat (limit r - (uses (rl_key r) s m t + 0))) with 0%nat by lia. cbn. by rewrite Nat.sub_0_r. }
  intros Hu Hst Hq free. destruct qs as [|q qs].
  - exists m, []. split; [done|]. split; [done|]. split; [unfold allowed, all_evictions, zsum_map; simpl; lia|]. intros _. by rewrite Nat.min_0_r.
  - destruct (Hgo (q :: qs) t0 m) as (m' & bs & H1 & H2 & H3 & H4); [destruct Hq; lia|done..|]. exists m', bs. split_and!; try done.
    unfold room in H3. unfold free. lia.
Qed.
End memcached.

(** ** A concrete client *)

(** Values with the time they expire. *)
Notation items := (gmap string (Z * option Z)).

Definition items_live (m : items) (now : Z) (key : string) : option Z :=
  match m !! key with
  | Some (v, None) => Some v
  | Some (v, Some e) => if bool_decide (now < e) then Some v else None
  | None => None
  end.

Definition items_add (key : string) (v time now : Z) (m : items) : items * bool :=
  match items_live m now key with
  | Some _ => (m, false)
  | None => (<[key := (v, if bool_decide (time = 0) then None else Some (expiry now time))]> m, true)
  end.

Definition items_incr (key : string) (now : Z) (m : items) : items * res Z :=
  match items_live m now key with
  | Some n => (alter (fun x => (Z.succ x.1, x.2)) key m, Ok (n + 1))
  | None => (m, Raise NotFound)
  end.

Definition items_incr_multi (keys : list string) (now : Z) (m : items) : items * res (list Z) :=
  foldl (fun st k =>
    match st with
    | (m, Ok us) => match items_incr k now m with
                    | (m, Ok u) => (m, Ok (us ++ [u]))
                    | (m, Raise e) => (m, Raise e)
                    end
    | _ => st
    end) (m, Ok []) keys.

#[export] Program Instance items_memcached : Memcached items := {|
  live := items_live; mc_add := items_add; mc_incr := items_incr; mc_incr_multi := items_incr_multi;
  mc_evict := fun key m => delete key m
|}.
Next Obligation.
  intros m now now' key v Hle. unfold items_live. destruct (m !! key) as [[? [?|]]|]; [|done|done].
  repeat case_bool_decide; naive_solver lia.
Qed.
Next Obligation. intros. unfold items_add. destruct (items_live m now key); [by rewrite bool_decide_false|done]. Qed.
Next Obligation.
  intros key v time now m now' key' Hle. unfold items_add.
  destruct (items_live m now key) eqn:E; [by rewrite bool_decide_false by naive_solver|].
  cbn [fst]. destruct (decide (key' = key)) as [->|Hk].
  - rewrite (bool_decide_true (key = key /\ _)) by done. unfold items_live. rewrite lookup_insert_eq.
    repeat case_bool_decide; naive_solver lia.
  - rewrite (bool_decide_false (key' = key /\ _)) by naive_solver.
    unfold items_live. by rewrite lookup_insert_ne.
Qed.
Next Obligation. intros key now m E. unfold items_incr. by rewrite E. Qed.
Next Obligation. intros key now m n E. unfold items_incr. by rewrite E. Qed.
Next Obligation.
  intros key now m now' key' Hle. unfold items_incr. destruct (items_live m now key) as [n|] eqn:E; cbn [fst].
  - unfold items_live. case_bool_decide as Hk; [subst key'; rewrite lookup_alter_eq|by rewrite lookup_alter_ne].
    destruct (m !! key) as [[v [e|]]|]; simpl; [by case_bool_decide|done|done].
  - case_bool_decide as Hk; [subst key'|done]. destruct (items_live m now' key) eqn:E'; [|done].
    assert (items_live m now key = Some z); [|congruence]. revert E'. unfold items_live.
    destruct (m !! key) as [[? [?|]]|]; [|done|done]. repeat case_bool_decide; naive_solver lia.
Qed.

Next Obligation.
  intros key m now key'. unfold items_live. case_bool_decide as Hk; [subst key'; by rewrite lookup_delete_eq|by rewrite lookup_delete_ne].
Qed.

(** ** Instances *)

Lemma slice_keys_distinct_witness :
  make_ratelimit_cache_key "a" (get_timeslice 60 65) <> make_ratelimit_cache_key "a" (get_timeslice 60 125).
Proof. intros E%(slice_keys_distinct "a" 60 65 125); [discriminate E|lia|right; reflexivity]. Defined.

(** One-time passwords: 30 tries in ten minutes, 100 counted already. *)
Definition otp : ratelimit := RateLimit "otp-t2_8" 30 600.

Definition busy : items := {[ "rl:otp-t2_8-001000" := (100, Some 1200) ]}.

Lemma record_and_check_sees_itself_witness :
  (record_and_check otp 700 700 700 700 700 id (RLCache ∅ busy)).2 = Ok true /\
  (record otp 700 700 700 700 id (RLCache ∅ busy)).2 = Ok 101.
Proof.
  assert (E : (record otp 700 700 700 700 id (RLCache ∅ busy)).2 = Ok 101) by reflexivity.
  split; [|exact E].
  apply (record_and_check_sees_itself otp 700 700 700 700 700 id (RLCache ∅ busy) 101);
    [cbn; lia|cbn; lia|split; vm_compute; [discriminate|reflexivity]|reflexivity|exact E].
Defined.

Lemma late_record_counts_next_day_witness :
  (get_usage "a" (TimeSlice 86400 87000) 86500
    (RLCache ∅ (mc (record_usage "a" (TimeSlice 0 600) 600 600 600 id (RLCache ∅ (∅ : items))).1))).2 = Some 1.
Proof.
  apply (late_record_counts_next_day "a" (TimeSlice 0 600) 600 86500 (RLCache ∅ (∅ : items)));
    [reflexivity|cbn; lia|reflexivity|lia].
Defined.

(** Two uses in ten minutes; the counter is evicted before the fourth request. *)
Lemma requests_in_turn_limited_witness : exists m' bs,
  serve_all (RateLimit "a" 2 600) (∅ : items)
    [Request 1 1 1 [] [] []; Request 2 3 4 [] [] []; Request 5 5 5 ["b"] [] []; Request 6 6 6 ["rl:a-000000"] [] []]
  = Ok (m', bs) /\ bs = [true; true; false; true] /\ allowed bs <= 2 + 1 * 2.
Proof.
  destruct (requests_in_turn_limited (RateLimit "a" 2 600) (∅ : items) 1
    [Request 1 1 1 [] [] []; Request 2 3 4 [] [] []; Request 5 5 5 ["b"] [] []; Request 6 6 6 ["rl:a-000000"] [] []])
    as (m' & bs & H & _ & Hall & _); [cbn; lia|cbn; lia|vm_compute; discriminate|by apply steady_fresh| |].
  { repeat split; vm_compute; (discriminate || reflexivity). }
  exists m', bs. split; [exact H|]. split; [|vm_compute in Hall |- *; exact Hall]. vm_compute in H. by injection H as _ <-.
Defined.

(** When the counters are evicted between the calls and the slice is over,
    the handler leaves [recent_usage] without a value. *)
Theorem evicted_multi_unbound :
  (record_usage_multi [("a", TimeSlice 0 600)] 600 600 600 (fun _ => ∅) (RLCache ∅ (∅ : items))).2
  = Raise UnboundLocalError.
Proof. reflexivity. Qed.
End RateLimit.
