(* ===== verification/Feature.v ===== *)
(** * Feature flags and experiments

    r2/config/feature: the state of a feature from its live configuration and
    the world, the buckets of experiments, and the world of a request.  The
    JSON parser, SHA-1 and [int(s, 36)] are parameters. *)

From Stdlib Require Import Ascii QArith Lqa.
From S2P Require Import Prelude.
#[local] Open Scope Z_scope.

Module Feature.

(** ** Configurations *)

(** What [json.loads] makes; the pairs of an object have distinct keys. *)
Inductive json :=
  | JNull | JBool (b : bool) | JNum (q : Q) | JStr (s : string)
  | JArr (l : list json) | JObj (l : list (string * json)).

(** [bool(v)]. *)
Definition truthy (v : json) : bool :=
  match v with
  | JNull => false
  | JBool b => b
  | JNum q => negb (Qeq_bool q 0)
  | JStr s => negb (String.eqb s "")
  | JArr l => match l with [] => false | _ => true end
  | JObj l => match l with [] => false | _ => true end
  end.

Fixpoint assoc {A} (key : string) (l : list (string * A)) : option A :=
  match l with
  | [] => None
  | (k, v) :: l => if String.eqb k key then Some v else assoc key l
  end.

(** [cfg.get(key, dflt)]; other values have no [get]. *)
Definition jget (cfg : json) (key : string) (dflt : json) : res json :=
  match cfg with JObj l => Ok (default dflt (assoc key l)) | _ => Raise AttributeError end.

(** [s.lower()] of a byte string. *)
Definition lower_char (a : ascii) : ascii :=
  let n := nat_of_ascii a in if (65 <=? n)%nat && (n <=? 90)%nat then ascii_of_nat (n + 32) else a.

Fixpoint lower (s : string) : string :=
  match s with EmptyString => EmptyString | String a s => String (lower_char a) (lower s) end.

(** The items of a list of strings. *)
Definition strings_of (v : json) : res (list string) :=
  match v with
  | JArr l => res_mapM (fun x => match x with JStr s => Ok s | _ => Raise AttributeError end) l
  | _ => Raise TypeError
  end.

(** [n < v] in Python 2: numbers come before strings and containers. *)
Definition int_lt (n : Z) (v : json) : bool :=
  match v with
  | JNull => false
  | JBool b => n <? (if b then 1 else 0)
  | JNum q => negb (Qle_bool q (inject_Z n))
  | JStr _ | JArr _ | JObj _ => true
  end.

(** ** The world *)

Record account := Account {
  acc_name : string; acc_fullname : string; acc_id : Z;
  employee : bool; pref_beta : bool; gold : bool
}.

(** What a [FeatureState] asks its world. *)
Record world := World {
  is_admin : option account -> bool;
  is_employee : option account -> bool;
  user_has_beta_enabled : option account -> bool;
  has_gold : option account -> bool;
  is_user_loggedin : option account -> bool;
  url_features : list string;
  live_config : string -> option string;
  live_config_items : list (string * string);
  current_loid : option string;
  valid_experiment_request : res bool
}.

(** The thread-local state of a request and the globals [World] reads. *)
Record context := MkContext {
  c_user : option account;
  site_name : string;
  c_subdomain : option string;
  oauth2_client : option string;
  c_loid : option string;
  features_param : list string;
  g_admins : list string;
  g_live_config : list (string * string)
}.

Definition if_user (f : account -> bool) (user : option account) : bool :=
  match user with Some u => f u | None => false end.

(** [world.World].  It has no [valid_experiment_request]. *)
Definition app_world (cx : context) : world := {|
  is_admin := if_user (fun u => bool_decide (acc_name u ∈ g_admins cx));
  is_employee := if_user employee;
  user_has_beta_enabled := if_user pref_beta;
  has_gold := if_user gold;
  is_user_loggedin user := match user, c_user cx with None, None => false | _, _ => true end;
  url_features := features_param cx;
  live_config name := assoc name (g_live_config cx);
  live_config_items := g_live_config cx;
  current_loid := c_loid cx;
  valid_experiment_request := Raise AttributeError
|}.

(** ** Variants *)

Definition NUM_BUCKETS : Z := 1000.
Definition GLOBALLY_ON : string := "on".
Definition GLOBALLY_OFF : string := "off".
Definition DISABLED_CFG : json := JObj [("enabled", JStr GLOBALLY_OFF)].
Definition ENABLED_CFG : json := JObj [("enabled", JStr GLOBALLY_ON)].
Definition DEFAULT_CONTROL_GROUPS : gmap string Q := {[ "control_1" := inject_Z 10; "control_2" := inject_Z 10 ]}.

(** The names of the variants, sorted. *)
Definition variant_names (all_variants : gmap string Q) : list string :=
  isort String.leb (map_to_list all_variants).*1.

(** [_choose_variant]: the candidate of the bucket, if the bucket is far
    enough left.  The arithmetic is exact. *)
Definition choose_variant (bucket : Z) (variants : gmap string Q) : option string :=
  let all_variants := variants ∪ DEFAULT_CONTROL_GROUPS in
  let num_variants := Z.of_nat (size all_variants) in
  match variant_names all_variants !! Z.to_nat (bucket mod num_variants) with
  | None => None
  | Some candidate_variant =>
      let percent := default 0%Q (all_variants !! candidate_variant) in
      let bucket_multiplier := NUM_BUCKETS / 100 in
      if Qle_bool (percent * inject_Z num_variants * inject_Z bucket_multiplier) (inject_Z bucket)
      then None else Some candidate_variant
  end.

Definition is_variant_enabled (variant : option string) : bool :=
  match variant with None => false | Some v => bool_decide (DEFAULT_CONTROL_GROUPS !! v = None) end.

(** The same of a value of the configuration. *)
Definition is_value_enabled (v : json) : res bool :=
  match v with
  | JNull => Ok false
  | JStr s => Ok (is_variant_enabled (Some s))
  | JArr _ | JObj _ => Raise TypeError
  | _ => Ok true
  end.

(** [experiment.get('variants', {})], with numbers. *)
Definition variants_of (experiment : json) : res (gmap string Q) :=
  let* v := jget experiment "variants" (JObj []) in
  match v with
  | JObj l =>
      let* kqs := res_mapM (fun kv => match kv.2 with JNum q => Ok (kv.1, q) | _ => Raise TypeError end) l in
      Ok (list_to_map kqs)
  | _ => Raise TypeError
  end.

(** ** Configured flags *)

Definition orelse (m k : res bool) : res bool := let* b := m in if b then Ok true else k.

Definition is_str (v : json) (s : string) : bool := match v with JStr s' => String.eqb s' s | _ => false end.

(** [cfg.get(key) and b]. *)
Definition flag (cfg : json) (key : string) (b : bool) : res bool :=
  let* v := jget cfg key JNull in Ok (truthy v && b).

(** What the [url] flag decides, if anything. *)
Definition url_answer (w : world) (url_flag : json) : res (option bool) :=
  if negb (truthy url_flag) then Ok None else
  match url_flag with
  | JObj l =>
      match list_find (fun f => is_Some (assoc f l)) (url_features w) with
      | Some (_, f) => let* b := is_value_enabled (default JNull (assoc f l)) in Ok (Some b)
      | None => Ok None
      end
  | JStr s => Ok (if bool_decide (s ∈ url_features w) then Some true else None)
  | JArr _ => Raise TypeError
  | _ => Ok None
  end.

(** [x and x.lower() in [s.lower() for s in cfg.get(key, [])]]. *)
Definition listed (cfg : json) (key : string) (x : option string) : res bool :=
  let* v := jget cfg key (JArr []) in
  let* l := strings_of v in
  Ok (match x with
      | Some x => negb (String.eqb x "") && bool_decide (lower x ∈ lower <$> l)
      | None => false
      end).

Definition listed_client (cfg : json) (x : option string) : res bool :=
  let* v := jget cfg "oauth_clients" (JArr []) in
  let* l := strings_of v in
  Ok (match x with Some x => negb (String.eqb x "") && bool_decide (x ∈ l) | None => false end).

(** The visitor a feature is asked for. *)
Record visitor := Visitor {
  v_user : option account; v_subreddit : option string;
  v_subdomain : option string; v_oauth_client : option string
}.

Definition is_config_enabled (w : world) (cfg : json) (v : visitor) : res bool :=
  if negb (truthy cfg) then Ok false else
  let* enabled := jget cfg "enabled" JNull in
  if is_str enabled GLOBALLY_ON then Ok true else
  if is_str enabled GLOBALLY_OFF then Ok false else
  let* url_flag := jget cfg "url" JNull in
  let* answer := url_answer w url_flag in
  match answer with
  | Some b => Ok b
  | None =>
      let user := v_user v in
      let loggedin := is_user_loggedin w user in
      orelse (flag cfg "admin" (is_admin w user)) (
      orelse (flag cfg "employee" (is_employee w user)) (
      orelse (flag cfg "beta" (user_has_beta_enabled w user)) (
      orelse (flag cfg "gold" (has_gold w user)) (
      orelse (flag cfg "loggedin" loggedin) (
      orelse (flag cfg "loggedout" (negb loggedin)) (
      orelse (listed cfg "users" (acc_name <$> user)) (
      orelse (listed cfg "subreddits" (v_subreddit v)) (
      orelse (listed cfg "subdomains" (v_subdomain v)) (
      listed_client cfg (v_oauth_client v))))))))))
  end.

(** ** Buckets *)

Section buckets.
(** [long(hashlib.sha1(s).hexdigest(), 16)], [json.loads], and [int(s, 36)]. *)
Context (sha1 : string -> Z) (json_loads : string -> option json) (int36 : string -> option Z).

(** [_calculate_bucket]: [experiment_seed] is not used. *)
Definition calculate_bucket (name seed : string) (experiment_seed : option json) : Z :=
  sha1 (name +:+ seed) mod NUM_BUCKETS.

(** [loid[-4:]]. *)
Definition last4 (s : string) : string := String.substring (String.length s - 4) 4 s.

Definition nonempty (s : option string) : option string :=
  match s with Some "" => None | _ => s end.

Definition is_percent_enabled (w : world) (name : string) (cfg : json) (user : option account) : res bool :=
  let loggedin := is_user_loggedin w user in
  let* percent_loggedin := jget cfg "percent_loggedin" (JNum 0) in
  orelse
    (if truthy percent_loggedin && loggedin then
       let* u := of_option AttributeError user in
       let scaled_percent := calculate_bucket name (acc_fullname u) None / (NUM_BUCKETS / 100) in
       Ok (int_lt scaled_percent percent_loggedin)
     else Ok false)
    (let* percent_loggedout := jget cfg "percent_loggedout" (JNum 0) in
     if truthy percent_loggedout && negb loggedin then
       match nonempty (current_loid w) with
       | Some loid =>
           match int36 (last4 loid) with
           | Some n => Ok (int_lt (n mod 100) percent_loggedout)
           | None => Ok false
           end
       | None => Ok false
       end
     else Ok false).

(** ** Experiments *)

Record settings := Settings { running_as_script : bool; enable_loggedout_experiments : bool }.

Definition is_page_experiment (experiment : json) : res bool :=
  let* v := jget experiment "page" JNull in Ok (truthy v).

(** [get_content_id] reads [request], which r2/config/feature/state.py does not import. *)
Definition get_content_id : res (option string * option string) := Raise NameError.

Definition get_user_experiment_variant (cf : settings) (w : world) (name : string) (experiment : json)
    (user : option account) : res (option string) :=
  let choose seed :=
    let* variants := variants_of experiment in
    Ok (choose_variant (calculate_bucket name seed None) variants) in
  if is_user_loggedin w user then
    let* u := of_option AttributeError user in choose (acc_fullname u)
  else if enable_loggedout_experiments cf then
    match nonempty (current_loid w) with None => Ok None | Some loid => choose loid end
  else Ok None.

Definition get_page_experiment_variant (name : string) (experiment : json) : res (option string) :=
  let* ct := get_content_id in
  match ct with
  | (None, _) => Ok None
  | (Some content_id, type_name) =>
      let* subreddit_only := flag experiment "subreddit_only" (negb (bool_decide (type_name = Some "subreddit"))) in
      if subreddit_only then Ok None else
      let* link_only := flag experiment "link_only"
        (negb (bool_decide (type_name = Some "link")) && negb (bool_decide (type_name = Some "comment"))) in
      if link_only then Ok None else
      let* experiment_seed := jget experiment "experiment_seed" JNull in
      let* variants := variants_of experiment in
      Ok (choose_variant (calculate_bucket name content_id (Some experiment_seed)) variants)
  end.

(** The bucketing events: what was sent in this request, and to whom. *)
Inductive bucketing_id := ById (id : Z) | ByLoid (loid : option string) | ByPage (content_id : option string).

#[export] Instance bucketing_id_eq_dec : EqDecision bucketing_id.
Proof. solve_decision. Defined.

Record event := Event { ev_name : string; ev_variant : string; ev_id : bucketing_id }.

Record request := Request { have_sent_bucketing_event : list (string * bucketing_id); events : list event }.

Definition send_event (cf : settings) (name variant : string) (id : bucketing_id) (rq : request) : request :=
  if running_as_script cf || negb (bool_decide ((name, id) ∈ have_sent_bucketing_event rq)) then
    Request ((name, id) :: have_sent_bucketing_event rq) (events rq ++ [Event name variant id])
  else rq.

(** [_is_experiment_enabled]; the events sent before a raise stay sent. *)
Definition is_experiment_enabled (cf : settings) (w : world) (name : string) (experiment : json)
    (user : option account) (rq : request) : request * res bool :=
  let pre :=
    let* enabled := jget experiment "enabled" (JBool true) in
    if negb (truthy enabled) then Ok None else
    let* page := is_page_experiment experiment in
    let* content_id := if page then let* ct := get_content_id in Ok ct.1 else Ok None in
    let* variant := if page then get_page_experiment_variant name experiment
                    else get_user_experiment_variant cf w name experiment user in
    match variant with
    | None => Ok (Some (None, ByPage None))
    | Some v =>
        let* valid := valid_experiment_request w in
        let* id := if page then Ok (ByPage content_id)
          else if is_user_loggedin w user then let* u := of_option AttributeError user in Ok (ById (acc_id u))
          else Ok (ByLoid (current_loid w)) in
        Ok (Some (Some (v, valid), id))
    end in
  match pre with
  | Raise e => (rq, Raise e)
  | Ok None => (rq, Ok false)
  | Ok (Some (None, _)) => (rq, Ok false)
  | Ok (Some (Some (v, valid), id)) =>
      (if valid : bool then send_event cf name v id rq else rq, Ok (is_variant_enabled (Some v)))
  end.

(** [FeatureState.is_enabled]. *)
Definition is_enabled (cf : settings) (w : world) (name : string) (cfg : json) (v : visitor) (rq : request)
  : request * res bool :=
  match orelse (is_config_enabled w cfg v) (is_percent_enabled w name cfg (v_user v)) with
  | Raise e => (rq, Raise e)
  | Ok true => (rq, Ok true)
  | Ok false =>
      match (let* experiment := jget cfg "experiment" JNull in
             let* b := is_config_enabled w experiment v in Ok (experiment, b)) with
      | Raise e => (rq, Raise e)
      | Ok (experiment, true) => is_experiment_enabled cf w name experiment (v_user v) rq
      | Ok (_, false) => (rq, Ok false)
      end
  end.

(** [FeatureState.variant]: a variant named by the url, else that of the
    experiment. *)
Definition variant (cf : settings) (w : world) (name : string) (cfg : json) (user : option account) : res json :=
  let of_experiment :=
    let* experiment := jget cfg "experiment" JNull in
    if negb (truthy experiment) then Ok JNull else
    let* page := is_page_experiment experiment in
    let* v := if page then get_page_experiment_variant name experiment
              else get_user_experiment_variant cf w name experiment user in
    Ok (match v with Some v => JStr v | None => JNull end) in
  let* url_flag := jget cfg "url" JNull in
  match url_flag with
  | JObj l =>
      match list_find (fun f => is_Some (assoc f l)) (url_features w) with
      | Some (_, f) => Ok (default JNull (assoc f l))
      | None => of_experiment
      end
  | _ => of_experiment
  end.

(** ** Features by name *)

(** [_parse_config]; an empty text counts as missing. *)
Definition parse_config (w : world) (name : string) (config_name config_str : option string) : json :=
  let config_name := default ("feature_" +:+ name) (nonempty config_name) in
  let config_str := match nonempty config_str with Some s => Some s | None => live_config w config_name end in
  match nonempty config_str with
  | None => DISABLED_CFG
  | Some s =>
      if String.eqb s GLOBALLY_OFF then DISABLED_CFG else
      if String.eqb s GLOBALLY_ON then ENABLED_CFG else
      match json_loads s with
      | Some (JObj l) => JObj l
      | _ => DISABLED_CFG
      end
  end.

(** [get_all]: names and configurations of the features of the live
    configuration. *)
Definition get_all (w : world) : list (string * json) :=
  (fun kv : string * string =>
     let name := String.substring 8 (String.length kv.1 - 8) kv.1 in
     (name, parse_config w name (Some kv.1) (Some kv.2))) <$>
  List.filter (fun kv => py_startswith "feature_" kv.1) (live_config_items w).

(** The module's cache of feature states, kept until the live configuration
    changes. *)
Definition get_featurestate (w : world) (name : string) (cache : gmap string json) : gmap string json * json :=
  match cache !! name with
  | Some cfg => (cache, cfg)
  | None => let cfg := parse_config w name None None in (<[name := cfg]> cache, cfg)
  end.

(** [feature.is_enabled]: what is not given is that of the request. *)
Definition feature_is_enabled (cf : settings) (cx : context) (name : string) (user : option account)
    (subreddit : option string) (cache : gmap string json) (rq : request) : gmap string json * (request * res bool) :=
  let w := app_world cx in
  let v := Visitor (match user with Some _ => user | None => c_user cx end)
    (match nonempty subreddit with Some s => Some s | None => Some (site_name cx) end)
    (c_subdomain cx) (oauth2_client cx) in
  let st := get_featurestate w name cache in (st.1, is_enabled cf w name st.2 v rq).

Definition feature_variant (cf : settings) (cx : context) (name : string) (user : option account)
    (cache : gmap string json) : gmap string json * res json :=
  let w := app_world cx in
  let user := match user with Some _ => user | None => c_user cx end in
  let st := get_featurestate w name cache in (st.1, variant cf w name st.2 user).

(** What [all_enabled] reports of a feature. *)
Inductive activity := Enabled | InVariant (experiment_id variant : json).

(** [all_enabled]; a feature asked for [is_enabled] may send events. *)
Definition one_enabled (cf : settings) (w : world) (user : option account) (name : string) (cfg : json)
    (rq : request) : request * res (option activity) :=
  match (let* experiment := jget cfg "experiment" JNull in
         if truthy experiment then
           let* page := is_page_experiment experiment in Ok (experiment, negb page)
         else Ok (experiment, false)) with
  | Raise e => (rq, Raise e)
  | Ok (experiment, true) =>
      (rq, let* v := variant cf w name cfg user in
           if truthy v then let* id := jget experiment "experiment_id" JNull in Ok (Some (InVariant id v))
           else Ok None)
  | Ok (_, false) =>
      let r := is_enabled cf w name cfg (Visitor user None None None) rq in
      (r.1, let* b := r.2 in Ok (if b : bool then Some Enabled else None))
  end.

Fixpoint all_enabled_from (cf : settings) (w : world) (user : option account) (fs : list (string * json))
    (rq : request) : request * res (list (string * activity)) :=
  match fs with
  | [] => (rq, Ok [])
  | (name, cfg) :: fs =>
      match one_enabled cf w user name cfg rq with
      | (rq, Raise e) => (rq, Raise e)
      | (rq, Ok a) =>
          let r := all_enabled_from cf w user fs rq in
          (r.1, let* l := r.2 in Ok (match a with Some a => (name, a) :: l | None => l end))
      end
  end.

Definition all_enabled (cf : settings) (cx : context) (user : option account) (rq : request)
  : request * res (list (string * activity)) :=
  let w := app_world cx in all_enabled_from cf w user (get_all w) rq.
End buckets.
End Feature.
