(* ===== verification/FeatureProps.v ===== *)
(** * Experiments: who gets which variant

    The variants as shares of the buckets, what raising a percentage changes,
    when the bucketing event is sent, and what the application's world makes
    of experiments. *)

From Stdlib Require Import QArith Lqa.
From S2P Require Import Prelude Feature.
#[local] Open Scope Z_scope.

Module FeatureProps.
Import Feature.

(** ** Names in order *)

Lemma variant_names_perm (m : gmap string Q) : variant_names m ≡ₚ elements (dom m).
Proof.
  unfold variant_names. rewrite isort_perm. apply NoDup_Permutation; [apply NoDup_fst_map_to_list|apply NoDup_elements|].
  intros k. rewrite elem_of_elements, elem_of_dom, list_elem_of_fmap. split.
  - intros ([k' q] & -> & Hin%elem_of_map_to_list). eauto.
  - intros [q Hq%elem_of_map_to_list]. by exists (k, q).
Qed.

Lemma variant_names_dom (m m' : gmap string Q) : dom m = dom m' -> variant_names m = variant_names m'.
Proof.
  intros Hd. apply (StronglySorted_unique (leP String.leb)).
  1,2: apply isort_sorted; [apply leb_string_total|apply leb_string_trans].
  by rewrite !variant_names_perm, Hd.
Qed.

Lemma length_variant_names m : length (variant_names m) = size m.
Proof. unfold variant_names. by rewrite length_isort, length_fmap, length_map_to_list. Qed.

Lemma NoDup_variant_names m : NoDup (variant_names m).
Proof. rewrite variant_names_perm. apply NoDup_elements. Qed.

(** ** Variants *)

(** The effective variants: the given ones and the control groups. *)
Definition effective (variants : gmap string Q) : gmap string Q := variants ∪ DEFAULT_CONTROL_GROUPS.

Definition num_variants (variants : gmap string Q) : Z := Z.of_nat (size (effective variants)).

(** The bucket is a candidate's, and within its percentage. *)
Lemma choose_variant_Some bucket variants v :
  choose_variant bucket variants = Some v <->
  variant_names (effective variants) !! Z.to_nat (bucket mod num_variants variants) = Some v /\
  (inject_Z bucket < default 0 (effective variants !! v) * inject_Z (num_variants variants) * inject_Z 10)%Q.
Proof.
  unfold choose_variant. fold (effective variants) (num_variants variants).
  change (NUM_BUCKETS / 100) with 10.
  destruct (variant_names _ !! _) as [cand|]; [|split; [done|]; by intros [? _]].
  destruct (Qle_bool _ _) eqn:E.
  - apply Qle_bool_iff in E. split; [done|]. intros [[= ->] Hlt]. lra.
  - split; [|by intros [[= ->] _]]. intros [= ->]. split; [done|].
    apply Qnot_le_lt. intros Hle%Qle_bool_iff. congruence.
Qed.

(** Raising percentages of the same variants keeps every bucket that had a
    variant in it. *)
Theorem raising_keeps_buckets bucket variants variants' v :
  dom variants = dom variants' ->
  (forall k p p', variants !! k = Some p -> variants' !! k = Some p' -> (p <= p')%Q) ->
  choose_variant bucket variants = Some v -> choose_variant bucket variants' = Some v.
Proof.
  intros Hd Hp. rewrite !choose_variant_Some.
  assert (Hde : dom (effective variants) = dom (effective variants')) by (unfold effective; rewrite !dom_union_L; by rewrite Hd).
  assert (Hn : num_variants variants' = num_variants variants).
  { unfold num_variants. by rewrite <- !(size_dom (D := gset string)), Hde. }
  rewrite (variant_names_dom _ _ Hde), Hn. intros [Hc Hlt]. split; [done|]. eapply Qlt_le_trans; [exact Hlt|].
  assert (Hle : (default 0 (effective variants !! v) <= default 0 (effective variants' !! v))%Q).
  { unfold effective. rewrite !lookup_union.
    destruct (variants !! v) as [p|] eqn:E, (variants' !! v) as [p'|] eqn:E'.
    - rewrite !union_Some_l. simpl. by apply (Hp v).
    - apply elem_of_dom_2 in E. rewrite Hd in E. apply elem_of_dom in E as [? E]. congruence.
    - apply elem_of_dom_2 in E'. rewrite <- Hd in E'. apply elem_of_dom in E' as [? E']. congruence.
    - apply Qle_refl. }
  apply Qmult_le_compat_r; [|by compute]. apply Qmult_le_compat_r; [done|].
  unfold num_variants. rewrite <- (Zle_Qle 0). lia.
Qed.

(** The buckets of a variant. *)
Definition buckets_of (variants : gmap string Q) (v : string) : list Z :=
  List.filter (fun b => bool_decide (choose_variant b variants = Some v)) (seqZ 0 NUM_BUCKETS).

Lemma buckets_of_perm variants v i m :
  variant_names (effective variants) !! i = Some v ->
  (default 0 (effective variants !! v) * inject_Z 10 == inject_Z m)%Q ->
  0 <= m -> m * num_variants variants <= NUM_BUCKETS ->
  buckets_of variants v ≡ₚ (fun k => Z.of_nat i + k * num_variants variants) <$> seqZ 0 m.
Proof.
  intros Hi Hm Hm0 Hcap. pose proof (lookup_lt_Some _ _ _ Hi) as Hil. rewrite length_variant_names in Hil.
  fold (num_variants variants) in *. set (n := num_variants variants) in *.
  assert (Hn : Z.of_nat i < n) by (unfold n, num_variants; lia).
  apply NoDup_Permutation.
  - apply NoDup_filter_bool, NoDup_seqZ.
  - apply NoDup_fmap_2_strong; [|apply NoDup_seqZ]. intros x y _ _ E. nia.
  - intros b. unfold buckets_of. rewrite elem_of_filter_bool, bool_decide_eq_true, elem_of_seqZ, choose_variant_Some.
    fold n. rewrite list_elem_of_fmap. setoid_rewrite elem_of_seqZ.
    assert (Hlt : (inject_Z b < default 0 (effective variants !! v) * inject_Z n * inject_Z 10)%Q <-> b < m * n).
    { rewrite <- Qmult_assoc, (Qmult_comm (inject_Z n)), Qmult_assoc, Hm, <- inject_Z_mult. by rewrite <- Zlt_Qlt. }
    rewrite Hlt. pose proof (Z.div_mod b n ltac:(lia)) as Hdm. pose proof (Z.mod_pos_bound b n ltac:(lia)) as Hmb.
    split.
    + intros [[Hc Hb] [Hb0 _]]. exists (b / n).
      assert (b mod n = Z.of_nat i).
      { assert (Z.to_nat (b mod n) = i); [|lia]. by eapply NoDup_lookup; [apply NoDup_variant_names|..]. }
      split; [lia|]. assert (0 <= b / n) by (apply Z.div_pos; lia). split; [lia|]. nia.
    + intros (k & -> & Hk1 & Hk2). rewrite Z.mod_add, (Z.mod_small (Z.of_nat i)) by lia.
      rewrite Nat2Z.id. split; [split; [done|nia]|]. unfold NUM_BUCKETS in *. nia.
Qed.

(** A variant gets the share of its percentage: as many of the thousand
    buckets as tenths of a percent, while all variants together could have
    that much. *)
Theorem variant_share variants v p m :
  effective variants !! v = Some p -> (p * inject_Z 10 == inject_Z m)%Q ->
  0 <= m -> m * num_variants variants <= NUM_BUCKETS ->
  Z.of_nat (length (buckets_of variants v)) = m.
Proof.
  intros Hv Hp Hm Hcap.
  assert (Hin : v ∈ variant_names (effective variants)).
  { rewrite variant_names_perm, elem_of_elements, elem_of_dom. eauto. }
  apply list_elem_of_lookup in Hin as [i Hi].
  rewrite (buckets_of_perm variants v i m), length_fmap, length_seqZ; [lia|done| |done|done].
  by rewrite Hv.
Qed.

(** ** Experiments *)

Section experiments.
Context (sha1 : string -> Z).
Notation is_experiment_enabled := (is_experiment_enabled sha1).
Notation get_user_experiment_variant := (get_user_experiment_variant sha1).

(** [get_content_id] always raises, and so does every page experiment. *)
Lemma page_experiment_raises cf w name experiment user rq enabled :
  jget experiment "enabled" (JBool true) = Ok enabled -> truthy enabled = true ->
  is_page_experiment experiment = Ok true ->
  is_experiment_enabled cf w name experiment user rq = (rq, Raise NameError).
Proof. intros He Ht Hp. unfold Feature.is_experiment_enabled. rewrite He. cbn [res_bind]. rewrite Ht. cbn. by rewrite Hp. Qed.

(** A user experiment: the variant of the user, one event for it per request
    and visitor, and whether it is a variant that is not a control group. *)
Lemma user_experiment_cases cf w name experiment user rq enabled :
  jget experiment "enabled" (JBool true) = Ok enabled -> truthy enabled = true ->
  is_page_experiment experiment = Ok false ->
  is_experiment_enabled cf w name experiment user rq =
    match get_user_experiment_variant cf w name experiment user with
    | Raise e => (rq, Raise e)
    | Ok None => (rq, Ok false)
    | Ok (Some v) =>
        match valid_experiment_request w with
        | Raise e => (rq, Raise e)
        | Ok valid =>
            let id := if is_user_loggedin w user then ById (default 0 (acc_id <$> user)) else ByLoid (current_loid w) in
            (if valid then send_event cf name v id rq else rq, Ok (is_variant_enabled (Some v)))
        end
    end.
Proof.
  intros He Ht Hp. unfold Feature.is_experiment_enabled. rewrite He. cbn [res_bind]. rewrite Ht. cbn. rewrite Hp. cbn.
  unfold Feature.get_user_experiment_variant. destruct (is_user_loggedin w user) eqn:El.
  - destruct user as [u|]; cbn; [|done]. destruct (variants_of experiment) as [vs|e]; cbn; [|done].
    destruct (choose_variant _ vs); cbn; [|done]. by destruct (valid_experiment_request w).
  - destruct (enable_loggedout_experiments cf); cbn; [|done]. destruct (nonempty _); cbn; [|done].
    destruct (variants_of experiment) as [vs|e]; cbn; [|done].
    destruct (choose_variant _ vs); cbn; [|done]. by destruct (valid_experiment_request w).
Qed.

(** In the application's world no experiment enables its feature or sends an
    event: [World] has no [valid_experiment_request], and page experiments
    read a name that is not imported. *)
Theorem no_experiment_enabled cf cx name experiment user rq :
  let r := is_experiment_enabled cf (app_world cx) name experiment user rq in
  r.1 = rq /\ r.2 <> Ok true.
Proof.
  cbv zeta. destruct (jget experiment "enabled" (JBool true)) as [enabled|e] eqn:He.
  2:{ unfold Feature.is_experiment_enabled. by rewrite He. }
  destruct (truthy enabled) eqn:Ht.
  2:{ unfold Feature.is_experiment_enabled. rewrite He. cbn [res_bind]. by rewrite Ht. }
  destruct (is_page_experiment experiment) as [[|]|e] eqn:Hp.
  - by rewrite (page_experiment_raises _ _ _ _ _ _ enabled).
  - rewrite (user_experiment_cases _ _ _ _ _ _ enabled) by done.
    by destruct (get_user_experiment_variant _ _ _ _ _) as [[v|]|e].
  - unfold Feature.is_experiment_enabled. rewrite He. cbn [res_bind]. rewrite Ht. cbn. by rewrite Hp.
Qed.

(** In a world where experiments work: asking again in the same request gives
    the same answer and sends nothing more. *)
Theorem bucketing_event_once cf w name experiment user rq :
  running_as_script cf = false ->
  let r := is_experiment_enabled cf w name experiment user rq in
  is_experiment_enabled cf w name experiment user r.1 = r /\
  (forall b, r.2 = Ok b -> exists l, events r.1 = events rq ++ l /\ (length l <= 1)%nat).
Proof.
  intros Hs. cbv zeta. destruct (jget experiment "enabled" (JBool true)) as [enabled|e] eqn:He.
  2:{ unfold Feature.is_experiment_enabled. rewrite He. split; [done|]. done. }
  destruct (truthy enabled) eqn:Ht.
  2:{ unfold Feature.is_experiment_enabled. rewrite He. cbn [res_bind]. rewrite Ht. cbn. split; [done|].
      exists []. rewrite app_nil_r. split; [done|simpl; lia]. }
  destruct (is_page_experiment experiment) as [[|]|e] eqn:Hp.
  - rewrite !(page_experiment_raises _ _ _ _ _ _ enabled) by done. split; [done|discriminate].
  - rewrite !(user_experiment_cases _ _ _ _ _ _ enabled) by done.
    destruct (get_user_experiment_variant _ _ _ _ _) as [[v|]|e]; [|split; [done|exists []; rewrite app_nil_r; split; [done|simpl; lia]]|done].
    destruct (valid_experiment_request w) as [[|]|e]; [|split; [done|exists []; rewrite app_nil_r; split; [done|simpl; lia]]|done].
    set (id := if is_user_loggedin w user then _ else _). cbn [fst snd].
    unfold send_event. rewrite Hs. cbn [orb].
    destruct (bool_decide_reflect ((name, id) ∈ have_sent_bucketing_event rq)) as [Hin|Hin]; cbn [negb].
    + rewrite bool_decide_true by done. split; [done|]. exists []. rewrite app_nil_r. split; [done|simpl; lia].
    + cbn [have_sent_bucketing_event]. rewrite bool_decide_true by left. split; [done|].
      eexists. split; [done|]. simpl. lia.
  - unfold Feature.is_experiment_enabled. rewrite He. cbn [res_bind]. rewrite Ht. cbn. rewrite Hp. split; [done|discriminate].
Qed.
End experiments.

(** ** Instances *)

Definition button (q : Q) : gmap string Q := {[ "blue" := q; "green" := inject_Z 5 ]}.

Lemma raising_keeps_buckets_witness :
  choose_variant 8 (button (inject_Z 2)) = Some "blue" /\ choose_variant 8 (button (3 # 2)%Q) = Some "blue".
Proof.
  split; [|vm_compute; reflexivity].
  apply (raising_keeps_buckets 8 (button (3 # 2)%Q)); [vm_compute; reflexivity| |vm_compute; reflexivity].
  intros k p p'. unfold button. rewrite !lookup_insert_Some, !lookup_singleton_Some.
  intros [[<- <-]|[Hne [<- <-]]].
  - intros [[_ <-]|[? _]]; [by compute|done].
  - intros [[? _]|[_ [_ <-]]]; [done|apply Qle_refl].
Defined.

Lemma variant_share_witness : Z.of_nat (length (buckets_of (button (3 # 2)%Q) "blue")) = 15.
Proof.
  apply (variant_share (button (3 # 2)%Q) "blue" (3 # 2)%Q 15);
    [vm_compute; reflexivity|vm_compute; reflexivity|lia|vm_compute; discriminate].
Defined.

(** A world in which experiments can be asked for, and its one experiment. *)
Definition test_world : world :=
  World (fun _ => false) (fun _ => false) (fun _ => false) (fun _ => false) (fun u => bool_decide (u <> None))
    [] (fun _ => None) [] None (Ok true).

Definition test_experiment : json :=
  JObj [("loggedin", JBool true); ("variants", JObj [("larger", JNum (inject_Z 33))])].

Definition visitor8 : option account := Some (Account "reader" "t2_8" 8 false false false).

Lemma bucketing_event_once_witness :
  let ask rq := is_experiment_enabled (fun s => Z.of_nat (String.length s)) (Settings false false) test_world
    "layout" test_experiment visitor8 rq in
  let r := ask (Request [] []) in
  length (events r.1) = 1%nat /\ r.2 = Ok false /\ ask r.1 = r.
Proof.
  intros ask r. split; [vm_compute; reflexivity|]. split; [vm_compute; reflexivity|].
  apply (bucketing_event_once (fun s => Z.of_nat (String.length s)) (Settings false false) test_world
    "layout" test_experiment visitor8 (Request [] [])). reflexivity.
Defined.
End FeatureProps.
