(* ===== verification/Builder.v ===== *)
(** * Listing builders

    r2/models/builder.py (QueryBuilder, IDBuilder and the builders that only
    change how names are found) and the links between pages of
    r2/models/listing.py.  Things are their fullnames; whether a visitor may
    see one, and whether the listing keeps it, are parameters.  The last part
    is the scores [Builder.wrap_items] gives a wrapped item. *)

From Stdlib Require Import QArith.
From S2P Require Import Prelude Vote.
#[local] Open Scope Z_scope.

Module Builder.

(** ** Pages *)

(** [num] is 0 for a builder without a limit. *)
Record builder := Builder {
  num : nat; skip : bool; start_count : Z; after : option string; reverse : bool
}.

(** What [get_items] returns: the items with the numbers they are shown
    with, the items the links to the previous and next page name, and the
    counts of those links. *)
Record page := Page {
  items : list (string * Z); first_item : option string; last_item : option string;
  before_count : Z; after_count : Z
}.

Section get_items.
Context (must_skip keep_item : string -> bool).

(** [not (must_skip(i) or self.skip and not keep_item(i))]. *)
Definition shown (b : builder) (i : string) : bool :=
  negb (must_skip i || skip b && negb (keep_item i)).

(** [int(num_need * EXTRA_FACTOR)], [self.num // 2] or 1. *)
Definition slice_size (b : builder) (num_need : nat) : nat :=
  Nat.max (Nat.max (num_need * 3 / 2) (num b / 2)) 1.

(** The inner loop over the converted items. *)
Fixpoint show_items (b : builder) (new_items : list string) (num_have : nat) (count : Z)
    (items : list (string * Z)) : nat * Z * list (string * Z) :=
  match new_items with
  | [] => (num_have, count, items)
  | i :: new_items' =>
      if (num b =? 0)%nat || (num_have <? num b)%nat then
        if shown b i then
          let count := if reverse b then count - 1 else count + 1 in
          show_items b new_items' (Datatypes.S num_have) count (items ++ [(i, count)])
        else show_items b new_items' num_have count items
      else (num_have, count, items)
  end.

(** The main loop, for a builder that finds its items by [fetch_more]: from
    the state, the last item fetched and the number of items, the new state,
    whether this was all, and the items, if any were asked for.  [loops] is
    20 less the loop count. *)
Section loop.
Context {St : Type} (fetch_more : St -> option string -> nat -> St * (bool * option (list string))).

Fixpoint fetch_loop (loops : nat) (b : builder) (st : St) (fetch_after : option string) (num_have : nat)
    (count : Z) (items : list (string * Z)) : nat * Z * list (string * Z) * bool :=
  match loops with
  | O => (num_have, count, items, true)
  | Datatypes.S loops' =>
      let stopped_early := (loops' =? 0)%nat in
      match fetch_more st fetch_after num_have with
      | (_, (_, None)) | (_, (_, Some [])) => (num_have, count, items, stopped_early)
      | (st, (done, Some fetched_items)) =>
          let done := done || stopped_early
            || negb (num b =? 0)%nat && (length fetched_items <? num b - num_have)%nat in
          let '(num_have, count, items) := show_items b fetched_items num_have count items in
          if done then (num_have, count, items, stopped_early)
          else fetch_loop loops' b st (last fetched_items) num_have count items
      end
  end.

(** [QueryBuilder.get_items]. *)
Definition get_items (b : builder) (st : St) : page :=
  let '(num_have, count, items, stopped_early) := fetch_loop 20 b st None 0 (start_count b) [] in
  let have_next := negb (negb (num b =? 0)%nat && (num_have <? num b)%nat && negb stopped_early) in
  let first_item := if 0 <? start_count b then head items else None in
  let last_item := last items in
  let name := fmap (M := option) (fst : string * Z -> string) in
  if reverse b then
    Page (List.rev items) (if have_next then name last_item else None) (name first_item)
      count (start_count b - 1)
  else
    Page items (name first_item) (if have_next then name last_item else None) (start_count b + 1) count.
End loop.

(** ** Builders *)

(** [QueryBuilder.fetch_more]: [run] is the query after a thing, with a limit.
    The first time the query starts after [b]'s [after]. *)
Definition query_fetch_more (run : option string -> option nat -> list string) (b : builder)
    (st : unit) (last_item : option string) (num_have : nat) : unit * (bool * option (list string)) :=
  let start := match last_item with Some _ => last_item | None => after b end in
  if (num b =? 0)%nat then (tt, (true, Some (run start None))) else
  if (num b <=? num_have)%nat then (tt, (true, None)) else
  (tt, (false, Some (run start (Some (slice_size b (num b - num_have)))))).

Definition query_builder (run : option string -> option nat -> list string) (b : builder) : page :=
  get_items (query_fetch_more run b) b tt.

(** [l.index(x)] and what follows it. *)
Fixpoint after_index (x : string) (l : list string) : list string :=
  match l with
  | [] => []
  | y :: l => if String.eqb y x then l else after_index x l
  end.

(** [IDBuilder._get_after]: a name that is not there gives no items. *)
Definition get_after (l : list string) (after : option string) (reverse : bool) : list string :=
  let names := if reverse then List.rev l else l in
  match after with None => names | Some a => after_index a names end.

(** [IDBuilder.fetch_more]; the state is [self.names]. *)
Definition id_fetch_more (b : builder) (names : list string) (last_item : option string) (num_have : nat)
  : list string * (bool * option (list string)) :=
  if (num b =? 0)%nat then ([], (true, Some names)) else
  if (num b <=? num_have)%nat then (names, (true, None)) else
  let slice := slice_size b (num b - num_have) in
  (drop slice names, (false, Some (take slice names))).

Definition id_builder (query : list string) (b : builder) : page :=
  get_items (id_fetch_more b) b (get_after query (after b) (reverse b)).

(** [ActionBuilder]: the ids of the triples, and the action of each item;
    the last triple of an id counts. *)
Definition action_builder (query : list (string * Z * string)) (b : builder) : page * (string -> option string) :=
  let actions : gmap string string := list_to_map (List.rev ((fun t => (t.1.1, t.2)) <$> query)) in
  (id_builder ((fun t => t.1.1) <$> query) b, fun i => actions !! i).

(** [CampaignBuilder._get_after]: the last promotion of a link counts, and
    without [after] nothing is reversed. *)
Fixpoint after_last_index (x : string) (l : list string) : option (list string) :=
  match l with
  | [] => None
  | y :: l =>
      match after_last_index x l with
      | Some r => Some r
      | None => if String.eqb y x then Some l else None
      end
  end.

Definition campaign_after (promo_links : list string) (after : option string) (reverse : bool) : list string :=
  match after with
  | None => promo_links
  | Some a => default [] (after_last_index a (if reverse then List.rev promo_links else promo_links))
  end.

Definition campaign_builder (promo_links : list string) (b : builder) : page :=
  get_items (id_fetch_more b) b (campaign_after promo_links (after b) (reverse b)).

(** [SimpleBuilder] iterates over objects found by their ids. *)
Definition simple_builder (query : list string) (b : builder) : page :=
  get_items (id_fetch_more b) b (get_after query (after b) (reverse b)).

(** ** Links between pages *)

(** The links of [Listing.listing]: the item and the count each carries. *)
Record nav := Nav { prev_link : option (string * Z); next_link : option (string * Z) }.

Definition listing_nav (nextprev : bool) (p : page) : nav :=
  Nav (match first_item p with
       | Some prev => if nextprev && (1 <? before_count p) then Some (prev, before_count p) else None
       | None => None
       end)
      (match last_item p with
       | Some next => if nextprev then Some (next, after_count p) else None
       | None => None
       end).

Definition max_num (p : page) : Z := Z.max (after_count p) (before_count p).

(** The builder of the page a link leads to. *)
Definition follow_next (b : builder) (l : string * Z) : builder := Builder (num b) (skip b) l.2 (Some l.1) false.
Definition follow_prev (b : builder) (l : string * Z) : builder := Builder (num b) (skip b) l.2 (Some l.1) true.

(** ** Items in turn *)

Definition step (b : builder) : Z := if reverse b then -1 else 1.

(** Items with the numbers following a count. *)
Fixpoint number (b : builder) (count : Z) (l : list string) : list (string * Z) :=
  match l with [] => [] | i :: l => (i, count + step b) :: number b (count + step b) l end.

Definition visible (b : builder) (l : list string) : list string := List.filter (shown b) l.

Lemma number_app b count l1 l2 :
  number b count (l1 ++ l2) = number b count l1 ++ number b (count + step b * Z.of_nat (length l1)) l2.
Proof.
  revert count. induction l1 as [|i l1 IH]; intros count; simpl.
  - f_equal. lia.
  - rewrite IH. do 3 f_equal. lia.
Qed.

Lemma number_step b b' count l : step b = step b' -> number b count l = number b' count l.
Proof. intros Hs. revert count. induction l as [|i l IH]; intros count; simpl; [done|]. by rewrite Hs, IH. Qed.

Lemma number_names b count l : (number b count l).*1 = l.
Proof. revert count. induction l as [|i l IH]; intros count; simpl; [done|]. by rewrite IH. Qed.

Lemma length_number b count l : length (number b count l) = length l.
Proof. revert count. induction l as [|i l IH]; intros count; simpl; [done|]. by rewrite IH. Qed.

Lemma last_number b count l : fst <$> last (number b count l) = last l.
Proof. by rewrite <- fmap_last, number_names. Qed.

Lemma head_number b count l : fst <$> head (number b count l) = head l.
Proof. by destruct l. Qed.

Lemma visible_app b l1 l2 : visible b (l1 ++ l2) = visible b l1 ++ visible b l2.
Proof. apply List.filter_app. Qed.

Lemma show_items_spec b new have count its :
  (0 < num b)%nat -> (have <= num b)%nat ->
  let t := take (num b - have) (visible b new) in
  show_items b new have count its
  = ((have + length t)%nat, count + step b * Z.of_nat (length t), its ++ number b count t).
Proof.
  intros Hn. revert have count its. induction new as [|i new IH]; intros have count its Hh; simpl.
  { rewrite take_nil, app_nil_r. simpl. do 2 f_equal; lia. }
  rewrite (proj2 (Nat.eqb_neq _ _)) by lia. cbn [orb].
  destruct (Nat.ltb_spec have (num b)) as [Hlt|Hge].
  - unfold visible. cbn [List.filter]. destruct (shown b i) eqn:Es.
    + fold (visible b new). rewrite IH by lia.
      replace (num b - have)%nat with (Datatypes.S (num b - Datatypes.S have)) by lia. cbn [take length].
      assert (Hc : (if reverse b then count - 1 else count + 1) = count + step b) by (unfold step; destruct (reverse b); lia).
      rewrite Hc, <- app_assoc. simpl. do 2 f_equal; lia.
    + fold (visible b new). by rewrite IH.
  - replace (num b - have)%nat with 0%nat by lia. rewrite take_0, app_nil_r. simpl. do 2 f_equal; lia.
Qed.

(** Every pass of the loop fetches at least that many names, if there are. *)
Definition least_slice (b : builder) : nat := Nat.max (num b / 2) 1.

Lemma slice_size_bounds b need : (need <= slice_size b need)%nat /\ (least_slice b <= slice_size b need)%nat.
Proof.
  unfold slice_size, least_slice. split; [|lia].
  assert (need <= need * 3 / 2)%nat; [|lia]. apply Nat.div_le_lower_bound; lia.
Qed.

(** The loop of an [IDBuilder]: it shows what is visible of a prefix of the
    names, and ends when the page is full, all names have been seen, or it
    has gone round twenty times. *)
Lemma id_loop_spec b loops names fa have count its :
  (0 < num b)%nat -> (have <= num b)%nat -> (0 < loops)%nat ->
  exists pre suf stopped, names = pre ++ suf /\
    let t := take (num b - have) (visible b pre) in
    fetch_loop (id_fetch_more b) loops b names fa have count its
    = ((have + length t)%nat, count + step b * Z.of_nat (length t), its ++ number b count t, stopped) /\
    ((have + length t)%nat = num b \/ suf = [] \/ (stopped = true /\ (loops * least_slice b <= length pre)%nat)).
Proof.
  intros Hn. revert names fa have count its. induction loops as [|loops IH]; intros names fa have count its Hh Hl; [lia|].
  cbn [fetch_loop]. unfold id_fetch_more at 1. rewrite (proj2 (Nat.eqb_neq _ _)) by lia. cbn [negb andb].
  destruct (Nat.leb_spec (num b) have) as [Hfull|Hneed].
  { exists [], names, (loops =? 0)%nat. split; [done|]. change (visible b []) with (@nil string). cbv zeta. rewrite take_nil, app_nil_r. simpl. split; [|left; lia].
    do 3 f_equal; lia. }
  destruct (slice_size_bounds b (num b - have)) as [Hs1 Hs2]. set (sl := slice_size b (num b - have)) in *.
  destruct (take sl names) as [|f fs] eqn:Ef.
  { exists [], names, (loops =? 0)%nat. split; [done|]. change (visible b []) with (@nil string). cbv zeta. rewrite take_nil, app_nil_r. simpl.
    assert (names = []) as -> by (destruct names; [done|]; destruct sl; [lia|done]).
    split; [|by right; left]. do 3 f_equal; lia. }
  rewrite <- Ef. clear f fs Ef. rewrite show_items_spec by lia. set (t := take _ (visible b (take sl names))).
  assert (Ht : (have + length t <= num b)%nat) by (unfold t; rewrite length_take; lia).
  destruct (Nat.eqb_spec loops 0) as [Hl0|Hl0]; cbn [orb].
  { exists (take sl names), (drop sl names), true. rewrite take_drop. split; [done|]. split; [done|].
    destruct (Nat.le_gt_cases (length names) sl) as [Hle|Hgt]; [right; left; by apply drop_ge|].
    right; right. split; [done|]. rewrite length_take. lia. }
  destruct (Nat.ltb_spec (length (take sl names)) (num b - have)) as [Hfew|Hmany].
  { exists (take sl names), (drop sl names), false. rewrite take_drop. split; [done|]. split; [done|].
    right; left. apply drop_ge. rewrite length_take in Hfew. lia. }
  destruct (IH (drop sl names) (last (take sl names)) (have + length t)%nat (count + step b * Z.of_nat (length t))
    (its ++ number b count t) Ht ltac:(lia)) as (pre & suf & stopped & Hsplit & Hloop & Hend).
  exists (take sl names ++ pre), suf, stopped. rewrite <- app_assoc, <- Hsplit, take_drop. split; [done|].
  assert (Htt : take (num b - have) (visible b (take sl names ++ pre))
    = t ++ take (num b - (have + length t)) (visible b pre)).
  { unfold t. rewrite visible_app, take_app. f_equal. rewrite length_take. f_equal. lia. }
  cbv zeta. rewrite Htt, length_app, number_app, app_assoc. split.
  - rewrite Hloop. do 3 f_equal; lia.
  - destruct Hend as [He|[He|[He Hlen]]]; [left; lia|by right; left|]. right; right. split; [done|].
    rewrite length_app, length_take. rewrite length_take in Hmany.
    destruct (Nat.le_gt_cases (length names) sl) as [Hle|Hgt]; [|lia].
    rewrite drop_ge in Hsplit by done. symmetry in Hsplit. apply app_nil in Hsplit as [-> _]. simpl in Hlen.
    assert (1 <= least_slice b)%nat by (unfold least_slice; lia). nia.
Qed.

(** The page of an [IDBuilder] with a limit. *)
Lemma id_builder_spec query b :
  (0 < num b)%nat -> let rest := get_after query (after b) (reverse b) in
  exists pre suf (stopped : bool), rest = pre ++ suf /\
    let t := take (num b) (visible b pre) in
    let p := id_builder query b in
    let last_count := start_count b + step b * Z.of_nat (length t) in
    let first := if 0 <? start_count b then head t else None in
    let next := if bool_decide (length t < num b)%nat && negb stopped then None else last t in
    (length t = num b \/ suf = [] \/ (stopped = true /\ (20 * least_slice b <= length pre)%nat)) /\
    p = if reverse b
        then Page (List.rev (number b (start_count b) t)) next first last_count (start_count b - 1)
        else Page (number b (start_count b) t) first next (start_count b + 1) last_count.
Proof.
  intros Hn rest. destruct (id_loop_spec b 20 rest None 0 (start_count b) [] Hn ltac:(lia) ltac:(lia))
    as (pre & suf & stopped & Hsplit & Hloop & Hend).
  rewrite Nat.sub_0_r in Hloop, Hend. exists pre, suf, stopped. split; [done|].
  set (t := take (num b) (visible b pre)) in *. cbv zeta. split; [exact Hend|].
  unfold id_builder, get_items. fold rest. rewrite Hloop. cbn [app Nat.add].
  rewrite (proj2 (Nat.eqb_neq _ _)) by lia. cbn [negb andb].
  assert (Hlt : (length t <? num b)%nat = bool_decide (length t < num b)%nat).
  { destruct (Nat.ltb_spec (length t) (num b)); [by rewrite bool_decide_true|by rewrite bool_decide_false by lia]. }
  rewrite Hlt, last_number.
  assert (Hhead : fst <$> (if 0 <? start_count b then head (number b (start_count b) t) else None)
    = if 0 <? start_count b then head t else None) by (destruct (0 <? _); [apply head_number|done]).
  rewrite Hhead. by destruct (bool_decide _), stopped.
Qed.

Lemma after_index_split x l r : x ∉ l -> after_index x (l ++ x :: r) = r.
Proof.
  induction l as [|y l IH]; intros Hx; simpl; [by rewrite String.eqb_refl|].
  apply not_elem_of_cons in Hx as [Hxy Hx]. rewrite (proj2 (String.eqb_neq _ _)) by done. by apply IH.
Qed.

(** What is shown of a prefix, and what is left after its last item. *)
Lemma take_visible_split b n l x :
  last (take n (visible b l)) = Some x ->
  exists l1 l2, l = l1 ++ x :: l2 /\ take n (visible b l) = visible b (l1 ++ [x]) /\
    visible b l = take n (visible b l) ++ visible b l2.
Proof.
  revert n. induction l as [|y l IH]; intros n Hlast.
  { change (visible b []) with (@nil string) in Hlast. by rewrite take_nil in Hlast. }
  unfold visible in Hlast |- *. cbn [List.filter] in *. fold (visible b l) in *.
  destruct (shown b y) eqn:Ey.
  - destruct n as [|n]; [done|]. cbn [take] in *. destruct (last (take n (visible b l))) as [z|] eqn:Ez.
    + rewrite last_cons, Ez in Hlast. injection Hlast as ->.
      destruct (IH n Ez) as (l1 & l2 & -> & Ht & Hv). exists (y :: l1), l2. split; [done|].
      unfold visible in *. cbn [app List.filter]. rewrite Ey. split; [by rewrite Ht|]. by rewrite Hv at 1.
    + rewrite last_cons, Ez in Hlast. injection Hlast as <-. apply last_None in Ez.
      exists [], l. split; [done|]. cbn [app List.filter]. rewrite Ey, Ez. split; [done|done].
  - destruct (IH n Hlast) as (l1 & l2 & -> & Ht & Hv). exists (y :: l1), l2. split; [done|].
    unfold visible in *. cbn [app List.filter]. rewrite Ey. split; [exact Ht|exact Hv].
Qed.

(** Following the links to the next page. *)
Fixpoint pages (fuel : nat) (query : list string) (b : builder) : list (string * Z) :=
  let p := id_builder query b in
  items p ++ match fuel, next_link (listing_nav true p) with
             | Datatypes.S fuel, Some l => pages fuel query (follow_next b l)
             | _, _ => []
             end.

(** The names end, or begin with a run of hidden ones that twenty passes do not
    get through. *)
Definition nothing_in_reach (b : builder) (l : list string) : Prop :=
  visible b l = [] \/ exists run l', l = run ++ l' /\ (20 * least_slice b <= length run)%nat /\ visible b run = [].

Lemma pages_from fuel query b seen rest :
  NoDup query -> (0 < num b)%nat -> reverse b = false ->
  query = seen ++ rest -> get_after query (after b) false = rest -> (length rest <= fuel)%nat ->
  exists reached beyond, rest = reached ++ beyond /\
    pages fuel query b = number b (start_count b) (visible b reached) /\ nothing_in_reach b beyond.
Proof.
  intros Hnd Hn. revert b seen rest Hn. induction fuel as [|fuel IH]; intros b seen rest Hn Hrev Hq Hafter Hfuel;
    (destruct (id_builder_spec query b Hn) as (pre & suf & stopped & Hsplit & Hend & Hp));
    rewrite Hrev, Hafter in Hsplit; rewrite Hrev in Hp; cbn [pages]; rewrite Hp; cbn [items next_link listing_nav last_item].
  { destruct rest; [|simpl in Hfuel; lia]. symmetry in Hsplit. apply app_nil in Hsplit as [-> ->].
    change (visible b []) with (@nil string). rewrite take_nil. exists [], []. split; [done|]. split; [|by left]. cbn. by destruct (_ && _). }
  destruct (if _ : bool then None else _) as [x|] eqn:Enext; [destruct (_ && _) in Enext; [done|]|].
  - (* there is a next page *)
    destruct (take_visible_split b (num b) pre x Enext) as (l1 & l2 & Hpre & Ht & _).
    clear Hp Hend. subst pre. rewrite Hsplit in Hq, Hfuel |- *. clear Hafter Hsplit rest.
    rewrite <- app_assoc in Hq. cbn [app] in Hq. cbv beta iota.
    match goal with |- context [pages fuel query ?b'] => set (b2 := b') end.
    destruct (IH b2 (seen ++ l1 ++ [x]) (l2 ++ suf) Hn eq_refl) as (reached & beyond & Hr & Hpages & Hbeyond).
    + rewrite Hq, <- !app_assoc. done.
    + unfold get_after. rewrite Hq, app_assoc. apply after_index_split.
      rewrite Hq, app_assoc in Hnd. apply NoDup_app in Hnd as (_ & Hd & _). intros Hin. apply (Hd x Hin). left.
    + rewrite !length_app in Hfuel. simpl in Hfuel. rewrite length_app. lia.
    + exists ((l1 ++ [x]) ++ reached), beyond.
      split; [rewrite <- !app_assoc; cbn [app]; by rewrite Hr|]. split; [|exact Hbeyond].
      rewrite Hpages, (visible_app b _ reached), <- Ht, number_app. f_equal. apply number_step. unfold step. by rewrite Hrev.
  - (* the last page *)
    rewrite app_nil_r, Hsplit.
    destruct (bool_decide_reflect (length (take (num b) (visible b pre)) < num b)%nat) as [Hlt|Hlt];
      rewrite length_take in Hlt.
    + rewrite take_ge in Enext, Hend |- * by lia. destruct Hend as [He|[->|[-> Hlen]]]; [lia|..].
      * exists pre, []. split; [done|]. split; [done|by left].
      * cbn in Enext. apply last_None in Enext. exists [], (pre ++ suf). split; [done|]. rewrite Enext. split; [done|].
        right. by exists pre, suf.
    + cbn in Enext. apply last_None, (f_equal length) in Enext. rewrite length_take in Enext. simpl in Enext. lia.
Qed.

(** C24. Following the next links from the first page shows what is visible,
    once, in order, with consecutive numbers: all of it, or what comes before
    a run of hidden names as long as twenty fetches. *)
Theorem paging_shows_everything query b :
  NoDup query -> (0 < num b)%nat -> after b = None -> reverse b = false ->
  exists reached beyond, query = reached ++ beyond /\
    pages (length query) query b = number b (start_count b) (visible b reached) /\
    (visible b beyond = [] \/
     exists run l, beyond = run ++ l /\ (20 * Nat.max (num b / 2) 1 <= length run)%nat /\ visible b run = []).
Proof. intros Hnd Hn Ha Hrev. apply (pages_from _ _ _ [] query Hnd Hn Hrev); [done|by rewrite Ha|done]. Qed.

(** ** Going back *)

(** What twenty passes see fills a page. *)
Definition dense (b : builder) (l : list string) : Prop :=
  forall l1 l2 l3, l = l1 ++ l2 ++ l3 -> (20 * least_slice b <= length l2)%nat ->
  (num b <= length (visible b l2))%nat.

(** On a dense list a page shows the first visible names after its start. *)
Lemma dense_page query b rest l :
  (0 < num b)%nat -> get_after query (after b) (reverse b) = rest ->
  (exists l0, l = l0 ++ rest) -> dense b l ->
  let t := take (num b) (visible b rest) in
  let last_count := start_count b + step b * Z.of_nat (length t) in
  let first := if 0 <? start_count b then head t else None in
  exists next, (next = None \/ next = last t) /\
    id_builder query b =
      if reverse b
      then Page (List.rev (number b (start_count b) t)) next first last_count (start_count b - 1)
      else Page (number b (start_count b) t) first next (start_count b + 1) last_count.
Proof.
  intros Hn Hrest [l0 Hl] Hd. destruct (id_builder_spec query b Hn) as (pre & suf & stopped & Hsplit & Hend & Hp).
  rewrite Hrest in Hsplit.
  assert (Ht : take (num b) (visible b pre) = take (num b) (visible b rest)).
  { rewrite Hsplit, visible_app. destruct Hend as [He|[->|[_ Hlen]]].
    - rewrite length_take in He. by rewrite take_app_le by lia.
    - change (visible b []) with (@nil string). by rewrite app_nil_r.
    - specialize (Hd l0 pre suf ltac:(by rewrite Hl, Hsplit) Hlen). by rewrite take_app_le. }
  rewrite Hp, Ht. eexists. split; [|reflexivity]. clear Hp. case_match; [by left|by right].
Qed.

Lemma dense_rev b l : dense b l -> dense b (List.rev l).
Proof.
  intros Hd l1 l2 l3 E Hlen. apply (f_equal (@List.rev string)) in E.
  rewrite rev_involutive, !rev_app_distr, <- app_assoc in E.
  specialize (Hd _ _ _ E). rewrite length_rev in Hd. specialize (Hd Hlen).
  unfold visible in *. by rewrite List.filter_rev, length_rev in Hd.
Qed.

Lemma after_index_suffix x l : x ∈ l -> exists l0, l = l0 ++ x :: after_index x l /\ x ∉ l0.
Proof.
  intros Hin. apply list_elem_of_split_l in Hin as (l1 & l2 & -> & Hx).
  exists l1. by rewrite after_index_split.
Qed.

Lemma number_rev b b' count l :
  step b = 1 -> step b' = -1 ->
  List.rev (number b' (count + Z.of_nat (length l) + 1) (List.rev l)) = number b count l.
Proof.
  intros Hb Hb'. induction l as [|i l IH] using rev_ind; [done|].
  rewrite rev_app_distr, (number_app b count l [i]), length_app. cbn [List.rev app number length].
  rewrite Hb, Hb', <- IH.
  replace (count + Z.of_nat (length l + 1) + 1 + -1) with (count + Z.of_nat (length l) + 1) by lia.
  do 3 f_equal. lia.
Qed.

Lemma get_after_suffix (l : list string) (a : option string) (r : bool) :
  exists l0 : list string, (if r then List.rev l else l) = l0 ++ get_after l a r.
Proof.
  unfold get_after. set (names := if r then _ else _). destruct a as [a|]; [|by exists (@nil string)].
  destruct (decide (a ∈ names)) as [Hin|Hin].
  - apply after_index_suffix in Hin as (l0 & Hl & _). exists (l0 ++ [a]). by rewrite <- app_assoc.
  - exists names. assert (after_index a names = []) as ->; [|by rewrite app_nil_r].
    clearbody names. induction names as [|y names IH]; [done|]. simpl.
    apply not_elem_of_cons in Hin as [Hy Hin]. rewrite (proj2 (String.eqb_neq _ _)) by done. by apply IH.
Qed.

Lemma visible_head b l y t : visible b l = y :: t ->
  exists m1 m2, l = m1 ++ y :: m2 /\ visible b m1 = [].
Proof.
  unfold visible. induction l as [|z l IH]; intros E; [done|]. cbn [List.filter] in E.
  destruct (shown b z) eqn:Ez.
  - injection E as -> _. by exists [], l.
  - destruct (IH E) as (m1 & m2 & -> & Hm). exists (z :: m1), m2. split; [done|]. cbn [List.filter]. by rewrite Ez.
Qed.

(** The page a link back leads to, from the item [y] that follows [ys]. *)
Lemma prev_page_items query b ys y zs seen t m count :
  NoDup query -> (0 < num b)%nat -> reverse b = false -> dense b query ->
  query = ys ++ y :: zs -> visible b ys = visible b seen ++ t ++ visible b m ->
  visible b m = [] -> length t = num b ->
  items (id_builder query (follow_prev b (y, count + Z.of_nat (length t) + 1))) = number b count t.
Proof.
  intros Hnd Hn Hrev Hd Hq Hv Hm Hlen. set (b3 := follow_prev b _).
  assert (Hrest : get_after query (Some y) true = List.rev ys).
  { unfold get_after. rewrite Hq, rev_app_distr. cbn [List.rev]. rewrite <- app_assoc. apply after_index_split.
    rewrite Hq in Hnd. apply NoDup_app in Hnd as (_ & _ & [Hy _]%NoDup_cons). by rewrite list_elem_of_In, <- in_rev, <- list_elem_of_In. }
  destruct (dense_page query b3 (List.rev ys) (List.rev query) Hn Hrest) as (next3 & _ & Hp3).
  { exists (List.rev zs ++ [y]). by rewrite Hq, rev_app_distr. }
  { by apply dense_rev. }
  assert (Ht3 : take (num b3) (visible b3 (List.rev ys)) = List.rev t).
  { change (take (num b) (visible b (List.rev ys)) = List.rev t).
    unfold visible in *. rewrite List.filter_rev, Hv, Hm, app_nil_r, rev_app_distr, <- Hlen, <- (length_rev t).
    apply take_app_length. }
  rewrite Hp3, Ht3. cbn [b3 follow_prev reverse items start_count snd].
  apply number_rev; unfold step; [by rewrite Hrev|done].
Qed.

(** A full page, its next page and that page's link back: the same items
    with the same numbers. *)
Theorem back_shows_previous_page query b l l' :
  NoDup query -> (0 < num b)%nat -> reverse b = false -> dense b query ->
  let p1 := id_builder query b in
  length (items p1) = num b -> next_link (listing_nav true p1) = Some l ->
  let p2 := id_builder query (follow_next b l) in
  prev_link (listing_nav true p2) = Some l' ->
  items (id_builder query (follow_prev b l')) = items p1.
Proof.
  intros Hnd Hn Hrev Hd p1 Hfull Hnext p2 Hprev.
  destruct (get_after_suffix query (after b) false) as [seen Hq]. set (rest := get_after query (after b) false) in *.
  destruct (dense_page query b rest query Hn) as (next & Hnx & Hp1); [by rewrite Hrev|by exists seen|done|].
  rewrite Hrev in Hp1. fold p1 in Hp1. set (t := take (num b) (visible b rest)) in *.
  assert (Hlen : length t = num b) by (rewrite Hp1 in Hfull; rewrite <- Hfull; symmetry; apply length_number).
  rewrite Hp1 in Hnext |- *. cbn [listing_nav next_link last_item after_count items] in Hnext |- *.
  destruct Hnx as [-> | ->]; [done|]. destruct (last t) as [x|] eqn:Hx; [|done]. injection Hnext as <-.
  destruct (take_visible_split b (num b) rest x Hx) as (l1 & l2 & Hrest & Ht & _). fold t in Ht.
  set (b2 := follow_next b _) in *.
  assert (Hrest2 : get_after query (Some x) false = l2).
  { unfold get_after. rewrite Hq, Hrest, app_assoc. apply after_index_split.
    rewrite Hq, Hrest, app_assoc in Hnd. apply NoDup_app in Hnd as (_ & Hdj & _). intros Hin. apply (Hdj x Hin). left. }
  destruct (dense_page query b2 l2 query Hn Hrest2) as (next2 & _ & Hp2);
    [exists (seen ++ l1 ++ [x]); by rewrite Hq, Hrest, <- !app_assoc|exact Hd|].
  fold p2 in Hp2. cbn [b2 follow_next reverse start_count num snd] in Hp2. rewrite Hp2 in Hprev.
  cbn [listing_nav prev_link first_item before_count] in Hprev.
  destruct (0 <? _); [|done]. destruct (head (take _ _)) as [y|] eqn:Hy; [|done].
  destruct (_ && _); [|done]. injection Hprev as <-.
  destruct (visible b2 l2) as [|y' ys] eqn:Hv2; [by rewrite take_nil in Hy|].
  assert (y' = y) as -> by (destruct (num b); [lia|by injection Hy]).
  destruct (visible_head b l2 y ys Hv2) as (m1 & m2 & Hl2 & Hm1).
  assert (Hstep : step b = 1) by (unfold step; by rewrite Hrev).
  rewrite Hstep, Z.mul_1_l.
  change (items (id_builder query (follow_prev b (y, start_count b + Z.of_nat (length t) + 1))) = number b (start_count b) t).
  apply (prev_page_items query b (seen ++ (l1 ++ [x]) ++ m1) y m2 seen t m1); try done.
  - rewrite Hq, Hrest, Hl2. by rewrite <- !app_assoc.
  - by rewrite !visible_app, Ht, visible_app.
Qed.
End get_items.

(** ** Scores of wrapped items *)

(** What [wrap_items] reads of an item: its counters, and whether and how the
    visitor voted. *)
Record scored := Scored { ups : Z; downs : Z; num_votes : Z; user_vote_dir : option Vote.direction }.

(** [w.likes] and [w.dislikes], [None] as [false]. *)
Definition arrows (d : option Vote.direction) : bool * bool :=
  match d with
  | Some Vote.onon => (true, true)
  | Some Vote.onoff | Some Vote.up => (true, false)
  | Some Vote.offon | Some Vote.down => (false, true)
  | _ => (false, false)
  end.

Record wrapped := Wrapped {
  likes : bool; dislikes : bool; upvote_ratio : Q; score : Z;
  voting_score : list Z; voting_score_ups : list Z; voting_score_downs : list Z
}.

Definition wrap_scores (i : scored) : wrapped :=
  let '(likes, dislikes) := arrows (user_vote_dir i) in
  let total_votes := Z.max (num_votes i) 1 in
  let score := ups i + ups i + downs i in
  let base_ups_score := if likes then ups i - 1 else ups i in
  let base_downs_score := if dislikes then downs i - 1 else downs i in
  let base_score := match user_vote_dir i with
    | Some Vote.onon => score - 3
    | Some Vote.onoff => score - 2
    | Some Vote.offon => score - 1
    | _ => score
    end in
  Wrapped likes dislikes (inject_Z (ups i) / inject_Z total_votes) score
    [base_score + 1; base_score; base_score + 2; base_score + 3]
    [base_ups_score; base_ups_score; base_ups_score + 1; base_ups_score + 1]
    [base_downs_score + 1; base_downs_score; base_downs_score; base_downs_score + 1].

(** [_is_controversial], with the bounds of the live configuration. *)
Definition is_controversial (cflag_min_votes : Z) (lower upper : Q) (i : scored) : bool :=
  if ups i + downs i <? cflag_min_votes then false
  else Qle_bool lower (upvote_ratio (wrap_scores i)) && Qle_bool (upvote_ratio (wrap_scores i)) upper.

(** The position of a pair of arrows in the lists of scores. *)
Definition arrow_index (a : bool * bool) : nat :=
  match a with
  | (false, true) => 0 | (false, false) => 1 | (true, false) => 2 | (true, true) => 3
  end%nat.

(** The scores at the position of the arrows [(l, d)] are those the item has
    when the visitor's vote is changed to them: the counters less the present
    vote, plus the new one, the score two for a like and one for a dislike. *)
Theorem voting_scores_predict i l d :
  user_vote_dir i <> Some Vote.up -> user_vote_dir i <> Some Vote.down ->
  let '(likes, dislikes) := arrows (user_vote_dir i) in
  let ups' := ups i - Z.b2z likes + Z.b2z l in
  let downs' := downs i - Z.b2z dislikes + Z.b2z d in
  let w := wrap_scores i in
  voting_score w !! arrow_index (l, d) = Some (2 * ups' + downs') /\
  voting_score_ups w !! arrow_index (l, d) = Some ups' /\
  voting_score_downs w !! arrow_index (l, d) = Some downs'.
Proof.
  intros Hup Hdown. unfold wrap_scores. destruct (user_vote_dir i) as [[]|]; try done;
    destruct l, d; cbn; repeat split; f_equal; lia.
Qed.

(** A vote stored with the former directions lights the arrow but is not
    taken off the score: the scores of all four states are two too high. *)
Example former_upvote_counts_twice :
  let w := wrap_scores (Scored 1 0 1 (Some Vote.up)) in
  likes w = true /\ score w = 2 /\ voting_score w !! arrow_index (true, false) = Some 4.
Proof. done. Qed.

(** ** Instances *)

Definition frontpage : list string := ["t3_1"; "t3_2"; "t3_3"; "t3_4"; "t3_5"].

Definition not_spam (i : string) : bool := negb (String.eqb i "t3_2").

Lemma paging_shows_everything_witness :
  pages (fun _ => false) not_spam (length frontpage) frontpage (Builder 2 true 0 None false)
  = [("t3_1", 1); ("t3_3", 2); ("t3_4", 3); ("t3_5", 4)] /\
  exists reached beyond, frontpage = reached ++ beyond /\
    [("t3_1", 1); ("t3_3", 2); ("t3_4", 3); ("t3_5", 4)]
    = number (Builder 2 true 0 None false) 0 (visible (fun _ => false) not_spam (Builder 2 true 0 None false) reached).
Proof.
  split; [reflexivity|].
  destruct (paging_shows_everything (fun _ => false) not_spam frontpage (Builder 2 true 0 None false)) as (reached & beyond & Hq & Hp & _);
    [apply (bool_decide_unpack _); reflexivity|cbn; lia|reflexivity|reflexivity|].
  exists reached, beyond. split; [exact Hq|exact Hp].
Defined.

Lemma back_shows_previous_page_witness :
  items (id_builder (fun _ => false) not_spam frontpage (Builder 2 true 3 (Some "t3_4") true))
  = [("t3_1", 1); ("t3_3", 2)].
Proof.
  refine (eq_trans (back_shows_previous_page (fun _ => false) not_spam frontpage (Builder 2 true 0 None false)
    ("t3_3", 2) ("t3_4", 3) _ ltac:(cbn; lia) eq_refl _ eq_refl eq_refl eq_refl) eq_refl).
  - apply (bool_decide_unpack _). reflexivity.
  - intros l1 l2 l3 E Hlen. apply (f_equal length) in E. rewrite !length_app in E. cbn in E, Hlen. lia.
Defined.

Lemma voting_scores_predict_witness :
  voting_score (wrap_scores (Scored 5 3 7 (Some Vote.onoff))) !! arrow_index (false, true) = Some (2 * 4 + 4).
Proof.
  destruct (voting_scores_predict (Scored 5 3 7 (Some Vote.onoff)) false true) as [H _]; [discriminate|discriminate|].
  exact H.
Defined.

(** Twenty passes over hidden items end a listing: what follows them cannot
    be reached. *)
Example hidden_run_ends_listing :
  let query := repeat "t3_2" 20 ++ ["t3_1"] in
  id_builder (fun _ => false) not_spam query (Builder 1 true 0 None false) = Page [] None None 1 0 /\
  visible (fun _ => false) not_spam (Builder 1 true 0 None false) query = ["t3_1"].
Proof. split; reflexivity. Qed.
End Builder.
