(* ===== verification/TryLater.v ===== *)
(** * Delayed execution

    r2/models/trylater.py: items kept in the row of a system, one column per
    item named by the time it is due, handed to the system's hook once that
    time has come and then removed; and the index by subject through which
    items are unscheduled.  Over the column families of QueryCache. *)

From S2P Require Import Prelude QueryCache QueryProps QueryExamples.

Module TryLater.
Import QueryCache QueryProps QueryExamples.

Section trylater.
(** [convert_uuid_to_time]: the time a column name stands for. *)
Context (due : string -> Z).
Context {CF : Type} `{ColumnFamily CF string}.

Notation column := (string * (string * Z))%type.

(** [TryLater.schedule]: [key] is the time id of now and the delay, made
    unique by the driver; [now] the timestamp of the write. *)
Definition schedule (system key data : string) (now : Z) (cf : CF) : CF := insert_col system key data now cf.

Definition is_ready (cutoff : Z) (c : column) : bool := due c.1 <=? cutoff.

(** The loop of [process_ready_items] over the columns of the row. *)
Definition ready_columns (rowkey : string) (cutoff : Z) (cf : CF) : list column :=
  List.filter (is_ready cutoff) (columns cf rowkey).

Definition unripe_columns (rowkey : string) (cutoff : Z) (cf : CF) : list column :=
  List.filter (fun c => negb (is_ready cutoff c)) (columns cf rowkey).

Definition item_of (c : column) : string * string := (c.1, c.2.1).

(** [cleanup], with the time of the removal for the columns removed by
    name. *)
Definition cleanup (rowkey : string) (ready_items : list (string * string))
    (ready_timestamps unripe_timestamps : list Z) (now : Z) (cf : CF) : res CF :=
  let* max_ready := of_option ValueError (py_max ready_timestamps) in
  if match py_min unripe_timestamps with None => true | Some min_unripe => max_ready <? min_unripe end
  then Ok (remove_row rowkey max_ready cf)
  else Ok (foldl (fun cf name => remove_col rowkey name now cf) cf ready_items.*1).

(** [process_ready_items]: the items given to [ready_fn], whose exceptions are
    swallowed, and the cleanup, which runs on what the row has become. *)
Definition process_ready_items (rowkey : string) (cutoff now : Z) (cf : CF)
  : list (string * string) * (CF -> res CF) :=
  let ready := ready_columns rowkey cutoff cf in
  let unripe := unripe_columns rowkey cutoff cf in
  match ready with
  | [] => ([], Ok)
  | _ =>
      let ready_items := item_of <$> ready in
      (ready_items, cleanup rowkey ready_items (snd <$> ready.*2) (snd <$> unripe.*2) now)
  end.

(** [run]: the systems of the hooks named "trylater.", in the order of the
    dictionary; [hooks] are the suffixes. *)
Fixpoint run (hooks : list string) (cutoff now : Z) (cf : CF) : res (CF * list (string * list (string * string))) :=
  match hooks with
  | [] => Ok (cf, [])
  | rowkey :: hooks =>
      let p := process_ready_items rowkey cutoff now cf in
      let* cf := p.2 cf in
      let* r := run hooks cutoff now cf in
      Ok (r.1, match p.1 with [] => r.2 | items => (rowkey, items) :: r.2 end)
  end.

(** [search] by a time, and [unschedule]. *)
Definition search (rowkey : string) (when : Z) (cf : CF) : list (string * string) :=
  item_of <$> List.filter (fun c => due c.1 =? when) (columns cf rowkey).

Definition unschedule (rowkey : string) (column_keys : list string) (now : Z) (cf : CF) : CF :=
  foldl (fun cf name => remove_col rowkey name now cf) cf column_keys.

(** ** By subject *)

(** [TryLaterBySubject]: beside the item, the time it is due under the
    subject.  The columns of the index expire ten minutes after that time. *)
Record index_entry := IndexEntry { when : Z; expires : Z }.

Notation index := (gmap (string * string) index_entry).

Definition schedule_subject (system subject key data : string) (trylater_rowkey : option string) (now delay : Z)
    (st : CF * index) : CF * index :=
  let rowkey := default system trylater_rowkey in
  (schedule rowkey key data now st.1,
   <[(system, subject) := IndexEntry (due key) (now + delay + 600)]> st.2).

Definition search_subject (system subject : string) (now : Z) (ix : index) : option Z :=
  match ix !! (system, subject) with
  | Some e => if now <? expires e then Some (when e) else None
  | None => None
  end.

Definition unschedule_subject (system subject schedule_rowkey : string) (now : Z) (st : CF * index) : CF * index :=
  let cf := match search_subject system subject now st.2 with
    | Some when => unschedule schedule_rowkey (search schedule_rowkey when st.1).*1 now st.1
    | None => st.1
    end in
  (cf, delete (system, subject) st.2).

(** ** Traces *)

(** The calls on the systems over time. *)
Inductive event :=
| Schedule (system key data : string)
| Run (hooks : list string).

Notation deliveries := (list (string * list (string * string))).

Definition step (e : Z * event) (st : CF * list (Z * deliveries)) : res (CF * list (Z * deliveries)) :=
  match e.2 with
  | Schedule system key data => Ok (schedule system key data e.1 st.1, st.2)
  | Run hooks => let* r := run hooks e.1 e.1 st.1 in Ok (r.1, st.2 ++ [(e.1, r.2)])
  end.

Fixpoint play (trace : list (Z * event)) (st : CF * list (Z * deliveries)) : res (CF * list (Z * deliveries)) :=
  match trace with
  | [] => Ok st
  | e :: trace => let* st := step e st in play trace st
  end.

(** A run at [t] finds an item of [system] scheduled under [key] at [t0] due. *)
Definition due_run (trace : list (Z * event)) (system key : string) (t0 t : Z) : Prop :=
  t0 < t /\ due key <= t /\ exists hooks, (t, Run hooks) ∈ trace /\ system ∈ hooks.

(** What the log of a trace holds of a system, with multiplicity. *)
Definition handed (system : string) (log : list (Z * deliveries)) : list (Z * (string * string)) :=
  log ≫= fun e => e.2 ≫= fun b => if String.eqb b.1 system then pair e.1 <$> b.2 else [].

(** Calls happen one after the other, hooks are the keys of a dictionary, and
    the driver does not give out a time id twice. *)
Record orderly (start : Z) (trace : list (Z * event)) : Prop := {
  ord_times : StronglySorted Z.lt (start :: trace.*1);
  ord_hooks t hooks : (t, Run hooks) ∈ trace -> NoDup hooks;
  ord_keys t t' system key data data' :
    (t, Schedule system key data) ∈ trace -> (t', Schedule system key data') ∈ trace -> t = t' /\ data = data'
}.

(** ** What a run removes *)

Lemma elem_of_ready rowkey cutoff cf c :
  c ∈ ready_columns rowkey cutoff cf <-> c ∈ columns cf rowkey /\ due c.1 <= cutoff.
Proof. unfold ready_columns, is_ready. rewrite elem_of_filter_bool, Z.leb_le. tauto. Qed.

Lemma elem_of_unripe rowkey cutoff cf c :
  c ∈ unripe_columns rowkey cutoff cf <-> c ∈ columns cf rowkey /\ cutoff < due c.1.
Proof. unfold unripe_columns, is_ready. rewrite elem_of_filter_bool, negb_true_iff, Z.leb_gt. tauto. Qed.

Lemma timestamps_of (l : list column) t : t ∈ snd <$> l.*2 <-> exists c, c ∈ l /\ t = c.2.2.
Proof.
  rewrite <- list_fmap_compose, list_elem_of_fmap. naive_solver.
Qed.

Lemma foldl_max_ge l x : x <= foldl Z.max x l /\ forall y, y ∈ l -> y <= foldl Z.max x l.
Proof.
  revert x. induction l as [|z l IH]; intros x; simpl; [split; [lia|set_solver]|].
  destruct (IH (Z.max x z)) as [H1 H2]. split; [lia|].
  intros y [->|Hy]%elem_of_cons; [lia|auto].
Qed.

Lemma py_max_ge l m : py_max l = Some m -> forall y, y ∈ l -> y <= m.
Proof.
  destruct l as [|x l]; intros [= <-] y Hy. destruct (foldl_max_ge l x) as [H1 H2].
  apply elem_of_cons in Hy as [->|Hy]; auto.
Qed.

(** On the row as it was read, or with columns written since, a cleanup
    removes the items that were handed to the hook and nothing else. *)
Lemma process_removes rowkey cutoff now cf cf1 :
  (forall c, c ∈ columns cf rowkey -> c.2.2 <= now) ->
  (forall c, c ∈ columns cf1 rowkey -> c ∈ columns cf rowkey \/
    (c.1 ∉ (columns cf rowkey).*1 /\ forall c0, c0 ∈ columns cf rowkey -> c0.2.2 < c.2.2)) ->
  exists cf2, (process_ready_items rowkey cutoff now cf).2 cf1 = Ok cf2 /\
    forall key c, c ∈ columns cf2 key <->
      c ∈ columns cf1 key /\ ~ (key = rowkey /\ c ∈ columns cf rowkey /\ due c.1 <= cutoff).
Proof.
  intros Hnow Hsince. unfold process_ready_items.
  set (ready := ready_columns rowkey cutoff cf). set (unripe := unripe_columns rowkey cutoff cf).
  assert (Hr : forall c, c ∈ ready <-> c ∈ columns cf rowkey /\ due c.1 <= cutoff) by apply elem_of_ready.
  assert (Hu : forall c, c ∈ unripe <-> c ∈ columns cf rowkey /\ cutoff < due c.1) by apply elem_of_unripe.
  destruct ready as [|r0 rs] eqn:Eready.
  { exists cf1. split; [done|]. intros key c. split; [|tauto]. intros Hc. split; [done|].
    intros (-> & Hin & Hle). destruct (not_elem_of_nil c). by apply Hr. }
  rewrite <- Eready in Hr |- *. unfold cleanup.
  destruct (py_max_in (snd <$> ready.*2)) as (mx & Hmx & Hin); [by rewrite Eready|].
  rewrite Hmx. simpl. apply timestamps_of in Hin as (cm & Hcm & ->).
  pose proof (py_max_ge _ _ Hmx) as Hge.
  assert (Hrt : forall c, c ∈ ready -> c.2.2 <= cm.2.2) by (intros c Hc; apply Hge, timestamps_of; eauto).
  case_match eqn:Eb.
  - eexists. split; [done|]. intros key c. rewrite remove_row_spec. split; intros [Hc Hn]; (split; [done|]).
    + intros (-> & Hin & Hle). apply Hn. split; [done|]. by apply Hrt, Hr.
    + intros [-> Ht]. apply Hn. split; [done|].
      destruct (Hsince c Hc) as [Hold|[_ Hnew]]; [|specialize (Hnew cm (proj1 (proj1 (Hr _) Hcm))); lia].
      split; [done|]. apply Z.nlt_ge. intros Hlt.
      assert (Hts : c.2.2 ∈ snd <$> unripe.*2) by (apply timestamps_of; exists c; split; [by apply Hu|done]).
      destruct (py_min_le _ _ Hts) as (mn & Hmn & Hmin). rewrite Hmn in Eb. specialize (Hmin _ Hts). lia.
  - eexists. split; [done|]. intros key c. rewrite remove_cols_spec.
    assert (Hnames : forall n, n ∈ (item_of <$> ready).*1 <-> exists c, c ∈ ready /\ n = c.1).
    { intros n. rewrite <- list_fmap_compose, list_elem_of_fmap. naive_solver. }
    split; intros [Hc Hn]; (split; [done|]).
    + intros (-> & Hin & Hle). apply Hn. split; [done|]. split; [|by apply Hnow].
      apply Hnames. exists c. by rewrite Hr.
    + intros (-> & (c' & Hc' & E)%Hnames & Ht). apply Hn. apply Hr in Hc' as [Hc' Hle].
      split; [done|]. rewrite E. split; [|done].
      destruct (Hsince c Hc) as [Hold|[Hnew _]].
      * done.
      * destruct Hnew. rewrite E. by apply list_elem_of_fmap_2.
Qed.

Lemma process_latest rowkey cutoff now cf cf1 cf2 :
  (forall c, c ∈ columns cf rowkey -> c.2.2 <= now) ->
  (process_ready_items rowkey cutoff now cf).2 cf1 = Ok cf2 ->
  forall key c, latest cf2 key c <= Z.max (latest cf1 key c) now.
Proof.
  intros Hnow Hp key c. unfold process_ready_items in Hp.
  assert (Hr : forall c, c ∈ ready_columns rowkey cutoff cf -> c.2.2 <= now) by
    (intros c' [? _]%elem_of_ready; auto).
  destruct (ready_columns rowkey cutoff cf) as [|r0 rs] eqn:Er; [simpl in Hp; simplify_eq; lia|].
  rewrite <- Er in Hp, Hr. simpl in Hp. unfold cleanup in Hp.
  destruct (py_max_in (snd <$> (ready_columns rowkey cutoff cf).*2)) as (mx & Hmx & Hin); [by rewrite Er|].
  rewrite Hmx in Hp. simpl in Hp. apply timestamps_of in Hin as (cm & Hcm & ->). specialize (Hr _ Hcm).
  case_match; simplify_eq.
  - rewrite remove_row_latest. case_bool_decide; lia.
  - rewrite remove_cols_latest. case_bool_decide; lia.
Qed.

Lemma handed_app system l1 l2 : handed system (l1 ++ l2) = handed system l1 ++ handed system l2.
Proof. apply bind_app. Qed.

Lemma process_items rowkey cutoff now cf :
  (process_ready_items rowkey cutoff now cf).1 = item_of <$> ready_columns rowkey cutoff cf.
Proof. unfold process_ready_items. by destruct (ready_columns rowkey cutoff cf). Qed.

Definition ready_of (hooks : list string) (cutoff : Z) (cf : CF) (system : string) : list (string * string) :=
  if bool_decide (system ∈ hooks) then item_of <$> ready_columns system cutoff cf else [].

Lemma ready_columns_perm rowkey cutoff cf cf' :
  (forall c, c ∈ columns cf rowkey <-> c ∈ columns cf' rowkey) ->
  ready_columns rowkey cutoff cf ≡ₚ ready_columns rowkey cutoff cf'.
Proof.
  intros Heq. apply NoDup_Permutation.
  1, 2: apply NoDup_filter_bool, (NoDup_fmap_1 fst), columns_nodup.
  intros c. rewrite !elem_of_ready, Heq. done.
Qed.

Lemma run_correct hooks cutoff now cf :
  NoDup hooks -> (forall system c, c ∈ columns cf system -> c.2.2 <= now) ->
  exists cf' outs, run hooks cutoff now cf = Ok (cf', outs) /\
    (forall system c, c ∈ columns cf' system <-> c ∈ columns cf system /\ ~ (system ∈ hooks /\ due c.1 <= cutoff)) /\
    (forall system, handed system [(cutoff, outs)] ≡ₚ pair cutoff <$> ready_of hooks cutoff cf system) /\
    forall system key, latest cf' system key <= Z.max (latest cf system key) now.
Proof.
  intros Hnd. revert cf. induction Hnd as [|h hooks Hh Hnd IH]; intros cf Hnow.
  { exists cf, []. split; [done|]. split; [set_solver|]. split; [done|lia]. }
  destruct (process_removes h cutoff now cf cf (Hnow h)) as (cf1 & Hp & Hcols); [by left|].
  pose proof (process_latest h cutoff now cf cf cf1 (Hnow h) Hp) as Hlat.
  destruct (IH cf1) as (cf2 & outs & Hrun & Hcols2 & Hout & Hlat2).
  { intros s c Hc. apply Hcols in Hc as [Hc _]. eauto. }
  simpl. rewrite Hp. simpl. rewrite Hrun. simpl. eexists _, _. split; [done|]. split_and!.
  - intros s c. rewrite Hcols2, Hcols, elem_of_cons. naive_solver.
  - intros s. rewrite process_items.
    transitivity ((if String.eqb h s then pair cutoff <$> (item_of <$> ready_columns h cutoff cf) else []) ++
      handed s [(cutoff, outs)]).
    { destruct (item_of <$> ready_columns h cutoff cf); [by destruct (String.eqb h s)|].
      unfold handed. simpl. by rewrite !app_nil_r. }
    rewrite Hout. unfold ready_of. destruct (String.eqb_spec h s) as [-> | Hne].
    + rewrite bool_decide_false by done. rewrite bool_decide_true by (by left). by rewrite app_nil_r.
    + simpl. f_equiv. rewrite (bool_decide_ext (s ∈ h :: hooks) (s ∈ hooks)) by (rewrite elem_of_cons; naive_solver).
      case_bool_decide; [|done]. f_equiv.
      apply ready_columns_perm. intros c. rewrite Hcols. naive_solver.
  - intros s k. specialize (Hlat2 s k). specialize (Hlat s k). lia.
Qed.

(** ** Every item is handed over once *)

(** The items of a trace still waiting, and those handed over, when [log] is
    what its runs gave to the hooks. *)
Record ledger (trace : list (Z * event)) (cf : CF) (log : list (Z * deliveries)) : Prop := {
  led_waiting system key data ts : (key, (data, ts)) ∈ columns cf system <->
    (ts, Schedule system key data) ∈ trace /\ forall t, ~ due_run trace system key ts t;
  led_handed system t key data : (t, (key, data)) ∈ handed system log <->
    exists ts, (ts, Schedule system key data) ∈ trace /\ due_run trace system key ts t /\
      forall t', due_run trace system key ts t' -> t <= t';
  led_once system : NoDup (handed system log)
}.

Lemma due_run_snoc trace e system key t0 t :
  due_run (trace ++ [e]) system key t0 t <->
  due_run trace system key t0 t \/
    (t = e.1 /\ t0 < t /\ due key <= t /\ exists hooks, e.2 = Run hooks /\ system ∈ hooks).
Proof.
  unfold due_run. destruct e as [te [s k d|hs]]; setoid_rewrite elem_of_app; setoid_rewrite list_elem_of_singleton;
    naive_solver.
Qed.

Lemma due_run_before trace system key t0 t bound :
  (forall e, e ∈ trace -> e.1 < bound) -> due_run trace system key t0 t -> t < bound.
Proof. intros Hb (_ & _ & hooks & Hin & _). by apply (Hb (t, Run hooks)). Qed.

Lemma ledger_schedule trace cf log t system key data :
  ledger trace cf log -> (forall e, e ∈ trace -> e.1 < t) -> (forall s c, latest cf s c < t) ->
  (forall t' data', (t', Schedule system key data') ∉ trace) ->
  ledger (trace ++ [(t, Schedule system key data)]) (schedule system key data t cf) log.
Proof.
  intros [Hw Hh Ho] Hb Hl Hfresh.
  assert (Hdue : forall s k t0 t', due_run (trace ++ [(t, Schedule system key data)]) s k t0 t' <-> due_run trace s k t0 t').
  { intros s k t0 t'. rewrite due_run_snoc. naive_solver. }
  assert (Hlater : forall s k t', ~ due_run trace s k t t').
  { intros s k t' Hd. pose proof (due_run_before _ _ _ _ _ _ Hb Hd). destruct Hd. lia. }
  constructor; [| |done].
  - intros s k d ts. unfold schedule. rewrite insert_spec by auto. setoid_rewrite Hdue. rewrite Hw.
    rewrite elem_of_app, list_elem_of_singleton. simpl. split.
    + intros [[-> ?]|[[Hin Hn] _]]; [simplify_eq|]; auto.
    + intros [[Hin|?] Hn]; [right|left; by simplify_eq]. split; [done|]. intros [-> ->]. by apply Hfresh in Hin.
  - intros s t' k d. rewrite Hh. setoid_rewrite Hdue. setoid_rewrite elem_of_app. setoid_rewrite list_elem_of_singleton.
    naive_solver.
Qed.

Lemma NoDup_fst_filter (f : column -> bool) l : NoDup l.*1 -> NoDup (List.filter f l).*1.
Proof.
  induction l as [|c l IH]; simpl; [done|]. intros [Hn Hnd]%NoDup_cons. case_match; [|auto].
  apply NoDup_cons. split; [|auto]. intros (x & E & [_ Hin]%elem_of_filter_bool)%list_elem_of_fmap. apply Hn, list_elem_of_fmap. eauto.
Qed.

Lemma elem_of_handed_run hooks t cf system outs :
  handed system [(t, outs)] ≡ₚ pair t <$> ready_of hooks t cf system ->
  NoDup (handed system [(t, outs)]) /\
  forall t' key data, (t', (key, data)) ∈ handed system [(t, outs)] <->
    t' = t /\ system ∈ hooks /\ due key <= t /\ exists ts, (key, (data, ts)) ∈ columns cf system.
Proof.
  intros Hp. split.
  - rewrite Hp. apply NoDup_fmap_2; [congruence|]. unfold ready_of. case_bool_decide; [|constructor].
    apply (NoDup_fmap_1 fst). rewrite <- list_fmap_compose. unfold compose, item_of. simpl.
    apply (NoDup_fst_filter (is_ready t)), columns_nodup.
  - intros t' k d. rewrite Hp, list_elem_of_fmap. unfold ready_of. case_bool_decide as Hs.
    + setoid_rewrite list_elem_of_fmap. setoid_rewrite elem_of_ready. unfold item_of. split.
      * intros (x & E & [k' [d' ts]] & E' & Hin & Hle). simpl in *. simplify_eq. eauto.
      * intros (-> & _ & Hle & ts & Hin). exists (k, d). split; [done|]. by exists (k, (d, ts)).
    + split; [|tauto]. by intros (x & _ & ?%elem_of_nil).
Qed.

Lemma ledger_run trace cf log t hooks :
  ledger trace cf log -> (forall e, e ∈ trace -> e.1 < t) -> NoDup hooks ->
  exists cf' outs, run hooks t t cf = Ok (cf', outs) /\ ledger (trace ++ [(t, Run hooks)]) cf' (log ++ [(t, outs)]) /\
    forall s c, latest cf' s c <= Z.max (latest cf s c) t.
Proof.
  intros [Hw Hh Ho] Hb Hnd. destruct (run_correct hooks t t cf Hnd) as (cf' & outs & Hrun & Hcols & Hout & Hlat).
  { intros s [k [d ts]] [Hin _]%Hw. simpl. specialize (Hb _ Hin). simpl in Hb. lia. }
  exists cf', outs. split; [done|]. split; [|done].
  assert (Hold : forall s k t0 t', due_run trace s k t0 t' -> t' < t) by (intros *; by apply due_run_before).
  constructor.
  - intros s k d ts. rewrite Hcols, Hw, elem_of_app, list_elem_of_singleton. setoid_rewrite due_run_snoc. simpl. split.
    + intros [[Hin Hn] Hr]. split; [by left|]. intros t' [?|(-> & _ & Hle & hs & E & Hs)]; [by eapply Hn|].
      injection E as <-. by apply Hr.
    + intros [[Hin|?] Hn]; [|done]. split; [split; [done|]; naive_solver|]. intros [Hs Hle].
      apply (Hn t). right. specialize (Hb _ Hin). simpl in Hb. eauto 10.
  - intros s t' k d. rewrite handed_app, elem_of_app, Hh. destruct (elem_of_handed_run _ _ _ _ _ (Hout s)) as [_ ->].
    setoid_rewrite elem_of_app. setoid_rewrite list_elem_of_singleton. setoid_rewrite due_run_snoc. simpl. split.
    + intros [(ts & Hin & Hd & Hmin)|(-> & Hs & Hle & ts & [Hin Hn]%Hw)]; exists ts; (split; [by left|]).
      * split; [by left|]. intros t1 [?|(-> & _)]; [auto|]. specialize (Hold _ _ _ _ Hd). lia.
      * specialize (Hb _ Hin). simpl in Hb. split; [right; eauto 10|]. intros t1 [Hd|(-> & _)]; [by destruct (Hn t1)|lia].
    + intros (ts & [Hin|?] & Hd & Hmin); [|done]. destruct Hd as [Hd|(-> & Hlt & Hle & hs & ? & Hs)].
      * left. exists ts. eauto 10.
      * right. simplify_eq. split_and!; try done. exists ts. apply Hw. split; [done|]. intros t1 Hd.
        specialize (Hmin t1 (or_introl Hd)). specialize (Hold _ _ _ _ Hd). lia.
  - intros s. rewrite handed_app. destruct (elem_of_handed_run _ _ _ _ _ (Hout s)) as [Hnd' Hin'].
    apply NoDup_app. split; [done|]. split; [|done]. intros [t' [k d]] (ts & _ & Hd & _)%Hh.
    rewrite Hin'. intros [-> _]. specialize (Hold _ _ _ _ Hd). lia.
Qed.

Lemma orderly_mid start pre e trace :
  orderly start (pre ++ e :: trace) ->
  (forall e', e' ∈ pre -> e'.1 < e.1) /\ (forall e', e' ∈ trace -> e.1 < e'.1) /\ start < e.1.
Proof.
  intros [Ht _ _]. rewrite fmap_app, fmap_cons in Ht. apply StronglySorted_inv in Ht as [Ht Hs].
  rewrite Forall_forall in Hs. split_and!.
  - intros e' Hin. apply (StronglySorted_app_1_elem_of Z.lt pre.*1 (e.1 :: trace.*1)); [done| |by left].
    by apply list_elem_of_fmap_2.
  - intros e' Hin. apply StronglySorted_app_1_r in Ht. apply StronglySorted_inv in Ht as [_ Hf].
    rewrite Forall_forall in Hf. by apply Hf, list_elem_of_fmap_2.
  - apply Hs. apply elem_of_app. right. by left.
Qed.

Lemma play_ledger start trace pre cf log :
  orderly start (pre ++ trace) -> ledger pre cf log ->
  (forall e s c, e ∈ trace -> latest cf s c < e.1) ->
  exists cf' log', play trace (cf, log) = Ok (cf', log') /\ ledger (pre ++ trace) cf' log'.
Proof.
  revert pre cf log. induction trace as [|[t e] trace IH]; intros pre cf log Hord Hled Hlat.
  { rewrite app_nil_r. eauto. }
  destruct (orderly_mid _ _ _ _ Hord) as (Hpre & Hpost & _). simpl in Hpre, Hpost.
  assert (Hnow : forall s c, latest cf s c < t) by (intros s c; apply (Hlat (t, e)); by left).
  rewrite (cons_middle (t, e) pre trace) in Hord |- *. rewrite app_assoc in Hord |- *.
  assert (Hin : (t, e) ∈ (pre ++ [(t, e)]) ++ trace) by set_solver-.
  destruct e as [system key data|hooks]; simpl.
  - apply IH; [done|apply ledger_schedule; try done|].
    + intros t' data' Hin'. destruct (ord_keys _ _ Hord t t' system key data data') as [<- _]; [done| |].
      * rewrite <- app_assoc. apply elem_of_app. by left.
      * specialize (Hpre _ Hin'). simpl in Hpre. lia.
    + intros e' s c He'. unfold schedule. rewrite insert_latest. specialize (Hpost _ He'). specialize (Hnow s c).
      case_bool_decide; lia.
  - destruct (ledger_run pre cf log t hooks Hled Hpre (ord_hooks _ _ Hord t hooks Hin))
      as (cf' & outs & Hrun & Hled' & Hlat'). unfold step. simpl. rewrite Hrun. simpl. apply IH; [done|done|].
    intros e' s c He'. specialize (Hpost _ He'). specialize (Hnow s c). specialize (Hlat' s c). lia.
Qed.

Lemma due_run_first trace system key t0 :
  (exists t, due_run trace system key t0 t /\ forall t', due_run trace system key t0 t' -> t <= t') \/
  (forall t, ~ due_run trace system key t0 t).
Proof.
  induction trace as [|e trace IH] using rev_ind.
  { right. by intros t (_ & _ & hooks & ?%elem_of_nil & _). }
  setoid_rewrite due_run_snoc.
  assert (Hdec : (t0 < e.1 /\ due key <= e.1 /\ exists hooks, e.2 = Run hooks /\ system ∈ hooks) \/
    ~ (t0 < e.1 /\ due key <= e.1 /\ exists hooks, e.2 = Run hooks /\ system ∈ hooks)).
  { destruct e as [t [s k d|hooks]]; [right; naive_solver|]. simpl.
    destruct (decide (t0 < t)), (decide (due key <= t)), (decide (system ∈ hooks)); naive_solver. }
  destruct Hdec as [Hd|Hd], IH as [(t & Ht & Hmin)|Hno].
  - left. destruct (decide (t <= e.1)).
    + exists t. split; [auto|]. intros t' [?|[-> _]]; auto.
    + exists e.1. split; [auto|]. intros t' [Ht'|[-> _]]; [|lia]. specialize (Hmin _ Ht'). lia.
  - left. exists e.1. split; [auto|]. intros t' [?|[-> _]]; [by destruct (Hno t')|lia].
  - left. exists t. split; [auto|]. intros t' [?|[-> ?]]; [auto|tauto].
  - right. intros t [?|[-> ?]]; [by eapply Hno|tauto].
Qed.

(** C28. However the runs and the calls that schedule items follow each other,
    the runs never fail, an item is handed to the hook of its system exactly
    once, by the first run that finds it due, with the data it was scheduled
    with, and no other item is; in particular an item found due by some run is
    handed over, no later than by that run. *)
Theorem delivered_once start trace cf :
  orderly start trace -> (forall system, columns cf system = []) -> (forall s c, latest cf s c <= start) ->
  exists cf' log, play trace (cf, []) = Ok (cf', log) /\
    (forall system t key data, (t, (key, data)) ∈ handed system log <->
      exists t0, (t0, Schedule system key data) ∈ trace /\ due_run trace system key t0 t /\
        forall t', due_run trace system key t0 t' -> t <= t') /\
    (forall system t0 t key data, (t0, Schedule system key data) ∈ trace -> due_run trace system key t0 t ->
      (key, data) ∈ (handed system log).*2) /\
    (forall system, NoDup (handed system log).*2.*1).
Proof.
  intros Hord Hempty Hlat.
  destruct (play_ledger start trace [] cf []) as (cf' & log & Hplay & [_ Hh Ho]); [done|..].
  { constructor; [|set_solver|constructor]. intros s k d ts. rewrite Hempty. set_solver. }
  { intros e s c (l1 & l2 & ->)%list_elem_of_split. destruct (orderly_mid _ _ _ _ Hord) as (_ & _ & ?).
    specialize (Hlat s c). lia. }
  simpl in Hh. exists cf', log. split; [done|]. split; [done|]. split.
  - intros s t0 t k d Hin Hdue. destruct (due_run_first trace s k t0) as [(t1 & ? & ?)|Hno]; [|by destruct (Hno t)].
    apply (list_elem_of_fmap_2 snd _ (t1, (k, d))), Hh. eauto.
  - intros s. rewrite <- list_fmap_compose. apply NoDup_fmap_2_strong; [|done].
    intros [t [k d]] [t' [k' d']] (ts & Hin & Hd & Hmin)%Hh (ts' & Hin' & Hd' & Hmin')%Hh E. simpl in E. subst k'.
    destruct (ord_keys _ _ Hord _ _ _ _ _ _ Hin Hin') as [<- <-].
    specialize (Hmin _ Hd'). specialize (Hmin' _ Hd). by replace t' with t by lia.
Qed.
End trylater.

(** ** A day of it *)

(** Two items with different delays, and one scheduled after the first run:
    the first run removes by name, since the item of the longer delay is the
    older one, the second removes the row. *)
Definition due_of (key : string) : Z :=
  if String.eqb key "k1" then 100 else if String.eqb key "k2" then 30 else if String.eqb key "k3" then 60 else 0.

Definition day : list (Z * event) :=
  [(10, Schedule "wash" "k1" "spam"); (20, Schedule "wash" "k2" "eggs"); (40, Run ["dry"; "wash"]);
   (50, Schedule "wash" "k3" "ham"); (110, Run ["dry"; "wash"])].

Definition no_rows : cfam string := Cfam ∅ (fun _ _ => 0).

Lemma delivered_once_witness :
  exists cf' log, play due_of day (no_rows, []) = Ok (cf', log) /\
    (110, ("k1", "spam")) ∈ handed "wash" log.
Proof.
  assert (Hord : orderly 0 day).
  { constructor.
    - repeat constructor.
    - intros t hooks Hin. unfold day in Hin. set_unfold in Hin. by destruct_or?; simplify_eq; apply (bool_decide_unpack _).
    - intros t t' s k d d' Hin Hin'. unfold day in Hin, Hin'. set_unfold in Hin. set_unfold in Hin'.
      destruct_or?; simplify_eq; done. }
  destruct (delivered_once due_of 0 day no_rows Hord) as (cf' & log & Hplay & Hh & _).
  - done.
  - intros s c. vm_compute. discriminate.
  - exists cf', log. split; [done|]. apply Hh. exists 10. unfold due_run, day. split_and!.
    + by left.
    + lia.
    + done.
    + exists ["dry"; "wash"]. clear. set_solver.
    + intros t' (_ & Hd & hooks & Hin & _). clear - Hd Hin. set_unfold in Hin. change (due_of "k1") with 100 in Hd.
      destruct_or?; simplify_eq; lia.
Defined.
End TryLater.
