(* ===== verification/Tdb.v ===== *)
(** * Column-family things

    lib/db/tdb_cassandra.py: the typed columns of a class of things, the
    attributes of a thing between two writes, what a commit writes, and the
    lookup of things through the cache of the request.  The cache keeps the
    objects themselves, so objects live in a heap and the cache holds their
    addresses. *)

From S2P Require Import Prelude.
From Stdlib Require Import Ascii.

Module Tdb.

(** ** Values and columns *)

(** Python values: a text is given by its UTF-8 encoding, a date by its
    microseconds since the epoch; [VFloat] and [VObj] are other floats and
    objects, by identity. *)
Inductive value :=
  | VNone
  | VBool (b : bool)
  | VInt (n : Z)
  | VFloat (f : Z)
  | VStr (u : string)
  | VBytes (s : string)
  | VDate (d : Z)
  | VObj (o : Z).

#[export] Instance value_eq_dec : EqDecision value.
Proof. solve_decision. Defined.

(** What pycassa hands over and takes: bytes, or for columns with a validator
    a date or a time id. *)
Inductive colval := CBytes (s : string) | CDate (d : Z) | CUuid (u : string).

#[export] Instance colval_eq_dec : EqDecision colval.
Proof. solve_decision. Defined.

(** The types of columns, in the order of the tests of [_deserialize_column]. *)
Inductive ptype := TInt | TFloat | TBool | TPickle | TJson | TDate | TBytes | TStr.

#[export] Instance ptype_eq_dec : EqDecision ptype.
Proof. solve_decision. Defined.

(** The attributes of a class: [_int_props] and so on, [_value_type],
    [_timestamp_prop], [_defaults], [_ttl], [_default_ttls], and the validators
    of its column family. *)
Record schema := Schema {
  type_prefix : string;
  int_props : list string;
  float_props : list string;
  bool_props : list string;
  pickle_props : list string;
  json_props : list string;
  date_props : list string;
  bytes_props : list string;
  value_type : option ptype;
  timestamp_prop : option string;
  defaults : gmap string value;
  class_ttl : option Z;
  default_ttls : gmap string Z;
  validator : string -> string
}.

Definition is_value_type (cls : schema) (t : ptype) : bool := bool_decide (value_type cls = Some t).

Definition is_prop (cls : schema) (attr : string) (props : list string) (t : ptype) : bool :=
  bool_decide (attr ∈ props) || is_value_type cls t.

Definition is_date (cls : schema) (attr : string) : bool :=
  bool_decide (attr ∈ date_props cls) || bool_decide (timestamp_prop cls = Some attr) || is_value_type cls TDate.

Fixpoint is_ascii (s : string) : bool :=
  match s with EmptyString => true | String a s => (N_of_ascii a <? 128)%N && is_ascii s end.

(** What the code takes from elsewhere: [pickle] and [json]; [str] and
    [float], and the integer a float equals; [str] and truth of the other values; and of pycassa the packing of
    dates in eight bytes, what a column with a validator keeps of a value, the
    date of a time id, and the date of the seconds of an old column. *)
Class Codecs := {
  pickle_dumps : value -> string;
  pickle_loads : string -> res value;
  json_dumps : value -> string;
  json_loads : string -> res value;
  float_str : Z -> string;
  float_of : string -> option Z;
  date_str : Z -> string;
  obj_str : Z -> string;
  float_int : Z -> option Z;
  float_true : Z -> bool;
  obj_true : Z -> bool;
  pack_date : value -> res string;
  unpack_date : string -> Z;
  validated : value -> res colval;
  uuid_date : string -> value;
  seconds_date : Z -> Z
}.

Section codec.
Context `{Codecs}.

(** [str(val)], as text. *)
Definition py_str (v : value) : string :=
  match v with
  | VNone => "None"
  | VBool b => if b then "True" else "False"
  | VInt n => py_str_int n
  | VFloat f => float_str f
  | VStr u | VBytes u => u
  | VDate d => date_str d
  | VObj o => obj_str o
  end.

Definition truthy (v : value) : bool :=
  match v with
  | VNone => false
  | VBool b => b
  | VInt n => negb (n =? 0)
  | VFloat f => float_true f
  | VStr u | VBytes u => negb (String.eqb u "")
  | VDate _ => true
  | VObj o => obj_true o
  end.

(** A str or unicode given to [int], [float] or a date: its bytes. *)
Definition col_bytes (c : colval) : res string :=
  match c with CBytes s => Ok s | _ => Raise TypeError end.

(** [ThingBase._deserialize_date]. *)
Definition deserialize_date (c : colval) : res value :=
  match c with
  | CDate d => Ok (VDate d)
  | CUuid u => Ok (uuid_date u)
  | CBytes s =>
      if bool_decide (String.length s = 8%nat) then Ok (VDate (unpack_date s))
      else let* f := of_option ValueError (float_of s) in Ok (VDate (seconds_date f))
  end.

(** [ThingBase._deserialize_column]. *)
Definition deserialize_column (cls : schema) (attr : string) (c : colval) : res value :=
  if is_prop cls attr (int_props cls) TInt then
    let* s := col_bytes c in let* n := of_option ValueError (py_int_str s) in Ok (VInt n)
  else if is_prop cls attr (float_props cls) TFloat then
    let* s := col_bytes c in let* f := of_option ValueError (float_of s) in Ok (VFloat f)
  else if is_prop cls attr (bool_props cls) TBool then Ok (VBool (bool_decide (c = CBytes "1")))
  else if is_prop cls attr (pickle_props cls) TPickle then let* s := col_bytes c in pickle_loads s
  else if is_prop cls attr (json_props cls) TJson then let* s := col_bytes c in json_loads s
  else if is_date cls attr then deserialize_date c
  else if is_prop cls attr (bytes_props cls) TBytes then
    Ok match c with CBytes s => VBytes s | CDate d => VDate d | CUuid u => uuid_date u end
  else match c with
    | CBytes s => if valid_utf8 s then Ok (VStr s) else Raise ValueError
    | _ => Raise AttributeError
    end.

Definition is_typed_date (cls : schema) (attr : string) : bool :=
  bool_decide (validator cls attr ∈ ["DateType"; "TimeUUIDType"]).

(** [ThingBase._serialize_column]; [str] of a text that is not ASCII and
    [unicode] of such bytes raise. *)
Definition serialize_column (cls : schema) (attr : string) (v : value) : res colval :=
  if is_prop cls attr (int_props cls ++ float_props cls) TFloat || is_value_type cls TInt then
    match v with
    | VStr u => if is_ascii u then Ok (CBytes u) else Raise ValueError
    | _ => Ok (CBytes (py_str v))
    end
  else if is_prop cls attr (bool_props cls) TBool then Ok (CBytes (if truthy v then "1" else "0"))
  else if is_prop cls attr (pickle_props cls) TPickle then Ok (CBytes (pickle_dumps v))
  else if is_prop cls attr (json_props cls) TJson then Ok (CBytes (json_dumps v))
  else if is_date cls attr then
    if is_typed_date cls attr then validated v else let* s := pack_date v in Ok (CBytes s)
  else if is_prop cls attr (bytes_props cls) TBytes then
    match v with VStr u | VBytes u => Ok (CBytes u) | _ => Raise TypeError end
  else match v with
    | VBytes s => if is_ascii s then Ok (CBytes s) else Raise ValueError
    | _ => Ok (CBytes (py_str v))
    end.

(** ** Things *)

(** An instance: what was read or last written, what has changed since, what
    is to be removed, the times to live of single columns. *)
Record thing := Thing {
  t_id : option string;
  orig : gmap string value;
  dirties : gmap string value;
  deletes : gset string;
  column_ttls : gmap string Z;
  committed : bool;
  partial : option (gset string)
}.

Definition set_orig (m : gmap string value) (t : thing) : thing :=
  Thing (t_id t) m (dirties t) (deletes t) (column_ttls t) (committed t) (partial t).
Definition set_dirties (m : gmap string value) (t : thing) : thing :=
  Thing (t_id t) (orig t) m (deletes t) (column_ttls t) (committed t) (partial t).

(** [ThingBase.__init__] and [_from_columns]. *)
Definition new_thing (id : option string) (kw : gmap string value) : thing :=
  Thing id ∅ kw ∅ ∅ false None.

Definition from_columns (id : string) (columns : gmap string value) : thing :=
  Thing (Some id) columns ∅ ∅ ∅ true None.

(** The serialised columns of a dictionary, or those of a row. *)
Definition res_map {A B} (f : string -> A -> res B) (m : gmap string A) : res (gmap string B) :=
  let* l := res_mapM (fun kv : string * A => let* v := f kv.1 kv.2 in Ok (kv.1, v)) (map_to_list m) in
  Ok (list_to_map l).

Definition from_serialized_columns (cls : schema) (id : string) (columns : gmap string colval) : res thing :=
  let* d := res_map (deserialize_column cls) columns in Ok (from_columns id d).

(** [_dirty]. *)
Definition dirty (t : thing) : bool :=
  negb (bool_decide (dirties t = ∅)) || negb (bool_decide (deletes t = ∅)) || negb (committed t).

(** [_t]. *)
Definition t_values (t : thing) : gmap string value :=
  filter (fun kv => kv.1 ∉ deletes t) (dirties t ∪ orig t).

(** [__getattr__] of attributes that do not start with an underscore. *)
Definition getattr (cls : schema) (t : thing) (attr : string) : res value :=
  if bool_decide (attr ∈ deletes t) then Raise AttributeError
  else match dirties t !! attr with
  | Some v => Ok v
  | None => match orig t !! attr with
    | Some v => Ok v
    | None => of_option AttributeError (defaults cls !! attr)
    end
  end.

(** [__setattr__]. *)
Definition setattr (cls : schema) (attr : string) (v : value) (t : thing) : thing :=
  Thing (t_id t) (orig t) (<[attr := v]> (dirties t)) (deletes t ∖ {[attr]})
    match default_ttls cls !! attr with Some ttl => <[attr := ttl]> (column_ttls t) | None => column_ttls t end
    (committed t) (partial t).

Definition set_id (id : string) (t : thing) : res thing :=
  if committed t then Raise ValueError
  else Ok (Thing (Some id) (orig t) (dirties t) (deletes t) (column_ttls t) (committed t) (partial t)).

(** [__delitem__]. *)
Definition delitem (attr : string) (t : thing) : thing :=
  Thing (t_id t) (orig t) (delete attr (dirties t)) ({[attr]} ∪ deletes t) (delete attr (column_ttls t))
    (committed t) (partial t).

Definition asked_for (columns : option (gset string)) (k : string) : bool :=
  match columns with Some p => bool_decide (k ∈ p) | None => true end.

(** [_get]. *)
Definition get (cls : schema) (t : thing) (key : string) (dflt : value) : res value :=
  match getattr cls t key with
  | Raise AttributeError => if asked_for (partial t) key then Ok dflt else Raise AttributeError
  | r => r
  end.

(** [_set_ttl]. *)
Definition set_ttl (key : string) (ttl : Z) (t : thing) : res thing :=
  match dirties t !! key with
  | None => Raise AssertionError
  | Some _ => Ok (Thing (t_id t) (orig t) (dirties t) (deletes t) (<[key := ttl]> (column_ttls t)) (committed t) (partial t))
  end.

(** [_revert]. *)
Definition revert (t : thing) : res thing :=
  if committed t then Ok (Thing (t_id t) (orig t) ∅ ∅ ∅ (committed t) (partial t)) else Raise TdbException.

Definition nonempty (p : option (gset string)) : bool :=
  match p with Some p => negb (bool_decide (p = ∅)) | None => false end.

(** [==] of values: numbers by what they stand for, texts and bytes when
    ASCII. *)
Definition number (v : value) : option Z :=
  match v with
  | VBool b => Some (if b then 1 else 0)
  | VInt n => Some n
  | VFloat f => float_int f
  | _ => None
  end.

Definition py_eq (v w : value) : bool :=
  bool_decide (v = w) ||
  match v, w with
  | VStr u, VBytes s | VBytes s, VStr u => is_ascii s && String.eqb u s
  | _, _ => match number v, number w with Some n, Some m => n =? m | _, _ => false end
  end.

Definition values_eq (m1 m2 : gmap string value) : bool :=
  bool_decide (dom m1 = dom m2) &&
  forallb (fun kv => match m2 !! kv.1 with Some w => py_eq kv.2 w | None => false end) (map_to_list m1).

(** [__eq__] of two things of one class: [and] binds before [or]. *)
Definition eq_things (t u : thing) : res bool :=
  if nonempty (partial t) || (nonempty (partial u) && negb (bool_decide (partial t = partial u))) then Raise ValueError
  else Ok (bool_decide (t_id t = t_id u) && values_eq (t_values t) (t_values u)).

(** ** Commits *)

(** A stored column, and the time it expires at. *)
Record column := Column { c_val : colval; c_expires : option Z }.

Notation row := (gmap string column).

(** What has changed, of the values to be written. *)
Definition changed (t : thing) : gmap string value :=
  filter (fun kv => match orig t !! kv.1 with Some w => negb (py_eq kv.2 w) | None => true end = true) (dirties t).

(** The first half of [_commit]: for a new thing everything is dirty; then
    the serialised columns, with a timestamp for new things of classes that
    want one. *)
Definition commit_updates (cls : schema) (now : Z) (t : thing) : thing * res (gmap string colval) :=
  let t := if committed t then t else set_dirties (dirties t ∪ orig t) (set_orig ∅ t) in
  match res_map (serialize_column cls) (changed t) with
  | Raise e => (t, Raise e)
  | Ok updates =>
      match timestamp_prop cls with
      | Some prop =>
          if negb (committed t) && bool_decide (updates !! prop = None) then
            match
              let* s_now := pack_date (VDate now) in
              let* v := deserialize_date (CBytes s_now) in
              let* c := if bool_decide (validator cls prop = "DateType") then validated v else Ok (CBytes s_now) in
              Ok (v, c)
            with
            | Raise e => (t, Raise e)
            | Ok (v, c) => (set_dirties (<[prop := v]> (dirties t)) t, Ok (<[prop := c]> updates))
            end
          else (t, Ok updates)
      | None => (t, Ok updates)
      end
  end.

Definition column_ttl (cls : schema) (t : thing) (attr : string) : option Z :=
  match column_ttls t !! attr with Some ttl => Some ttl | None => class_ttl cls end.

(** The batch: insertions, then removals. *)
Definition written (cls : schema) (now : Z) (t : thing) (updates : gmap string colval) (r : row) : row :=
  filter (fun kv => kv.1 ∉ deletes t)
    (map_imap (fun k c => Some (Column c (Z.add now <$> column_ttl cls t k))) updates ∪ r).

Record world := World { rows : gmap string row; heap : list thing; cache : gmap string nat }.

Definition row_of (w : world) (id : string) : row := default ∅ (rows w !! id).

(** [_commit] of the thing at an address; the hooks of the base class do
    nothing. *)
Definition commit (cls : schema) (now : Z) (l : nat) (w : world) : world * res unit :=
  match heap w !! l with
  | None => (w, Ok tt)
  | Some t =>
      if negb (dirty t) then (w, Ok tt)
      else match t_id t with
      | None => (w, Raise TdbException)
      | Some id =>
          let p := commit_updates cls now t in
          match p.2 with
          | Raise e => (World (rows w) (<[l := p.1]> (heap w)) (cache w), Raise e)
          | Ok updates =>
              if bool_decide (updates = ∅) && bool_decide (deletes p.1 = ∅) then
                (World (rows w) (<[l := set_dirties ∅ p.1]> (heap w)) (cache w), Ok tt)
              else
                (World (<[id := written cls now p.1 updates (row_of w id)]> (rows w))
                   (<[l := Thing (Some id) (t_values p.1) ∅ ∅ ∅ true (partial p.1)]> (heap w))
                   (<[id := l]> (cache w)), Ok tt)
          end
      end
  end.

(** ** Lookups *)

Definition is_live (now : Z) (c : column) : bool :=
  match c_expires c with Some t => now <? t | None => true end.

(** A row as the driver returns it: the columns that have not expired, of
    those asked for. *)
Definition read_row (now : Z) (columns : option (gset string)) (r : row) : gmap string colval :=
  c_val <$> filter (fun kv => is_live now kv.2 && asked_for columns kv.1 = true) r.

(** [multiget]: rows without columns are not returned. *)
Definition multiget (now : Z) (columns : option (gset string)) (ids : list string) (w : world)
  : list (string * gmap string colval) :=
  omap (M := list) (fun id =>
    let r := read_row now columns (row_of w id) in if decide (r = ∅) then None else Some (id, r)) ids.

(** The test of [reject_bad_partials]. *)
Definition bad_partial (properties : option (gset string)) (t : thing) : bool :=
  match partial t, properties with
  | None, _ => false
  | Some _, None => true
  | Some p, Some asked => negb (bool_decide (asked ⊆ p))
  end.

Definition cached_things (ids : list string) (w : world) : list (string * nat * thing) :=
  omap (M := list) (fun id =>
    match cache w !! id with
    | Some l => match heap w !! l with Some t => Some (id, l, t) | None => None end
    | None => None
    end) ids.

(** [willask_properties]: what was asked for, and what the rejected partials
    held. *)
Definition willask (properties : option (gset string)) (cached : list (string * nat * thing)) : option (gset string) :=
  match properties with
  | None => None
  | Some asked => Some (asked ∪ ⋃ ((fun c => default ∅ (partial c.2)) <$> List.filter (fun c => bad_partial properties c.2) cached))
  end.

(** The objects made of the rows, stored in the cache by [sgm]. *)
Definition add_things (l : list (string * thing)) (w : world) : world * gmap string nat :=
  foldl (fun p x =>
    let n := length (heap p.1) in
    (World (rows p.1) (heap p.1 ++ [x.2]) (<[x.1 := n]> (cache p.1)), <[x.1 := n]> p.2)) (w, ∅) l.

(** [_byID] of a list of different ids, as a dictionary. *)
Definition by_ids (cls : schema) (now : Z) (ids : list string) (properties : option (gset string)) (w : world)
  : res (world * gmap string nat) :=
  let cached := cached_things ids w in
  let hits : gmap string nat := list_to_map (fst <$> List.filter (fun c => negb (bad_partial properties c.2)) cached) in
  let need := filter (fun id => hits !! id = None) ids in
  let ask := willask properties cached in
  let* found := res_mapM (fun r : string * gmap string colval =>
      let* t := from_serialized_columns cls r.1 r.2 in
      Ok (r.1, Thing (t_id t) (orig t) (dirties t) (deletes t) (column_ttls t) (committed t) ask))
    (multiget now ask need w) in
  let p := add_things found w in
  Ok (p.1, p.2 ∪ hits).

(** [_byID] of one id, and with [return_dict=False]. *)
Definition by_id (cls : schema) (now : Z) (id : string) (properties : option (gset string)) (w : world)
  : res (world * nat) :=
  let* p := by_ids cls now [id] properties w in
  let* l := of_option NotFound (p.2 !! id) in Ok (p.1, l).

Definition by_id_list (cls : schema) (now : Z) (ids : list string) (properties : option (gset string)) (w : world)
  : res (world * list nat) :=
  let* p := by_ids cls now (remove_dups ids) properties w in
  Ok (p.1, omap (M := list) (fun id => p.2 !! id) ids).

(** ** Rows written without their thing *)

Definition truthy_ttl (ttl : option Z) : option Z :=
  match ttl with Some ttl => if ttl =? 0 then None else Some ttl | None => None end.

(** [View._set_values] and [View._remove]; [_destroy] leaves the cache. *)
Definition set_values (cls : schema) (now : Z) (row_key : string) (col_values : gmap string value) (ttl : option Z)
    (w : world) : world * res unit :=
  match res_map (serialize_column cls) col_values with
  | Raise e => (w, Raise e)
  | Ok updates =>
      let default_ttl := match truthy_ttl ttl with Some ttl => Some ttl | None => class_ttl cls end in
      let cols := map_imap (fun k c =>
        Some (Column c (Z.add now <$> match default_ttls cls !! k with Some t => Some t | None => default_ttl end))) updates in
      (World (<[row_key := cols ∪ row_of w row_key]> (rows w)) (heap w) (delete row_key (cache w)), Ok tt)
  end.

Definition remove_columns (key : string) (columns : list string) (w : world) : world :=
  World (<[key := filter (fun kv => kv.1 ∉ columns) (row_of w key)]> (rows w)) (heap w) (delete key (cache w)).

Definition destroy (l : nat) (w : world) : world :=
  match heap w !! l with
  | Some t => match t_id t with Some id => World (delete id (rows w)) (heap w) (cache w) | None => w end
  | None => w
  end.

(** ** Sequences of operations on one thing *)

Inductive op := OSet (attr : string) (v : value) | ODel (attr : string) | ORevert | OCommit (now : Z).

Definition on_heap (l : nat) (f : thing -> thing) (w : world) : world :=
  World (rows w) (alter f l (heap w)) (cache w).

Definition run_op (cls : schema) (l : nat) (o : op) (w : world) : world * res unit :=
  match o with
  | OSet attr v => (on_heap l (setattr cls attr v) w, Ok tt)
  | ODel attr => (on_heap l (delitem attr) w, Ok tt)
  | ORevert =>
      match revert <$> heap w !! l with
      | Some (Ok t) => (on_heap l (fun _ => t) w, Ok tt)
      | Some (Raise e) => (w, Raise e)
      | None => (w, Ok tt)
      end
  | OCommit now => commit cls now l w
  end.

Fixpoint run_ops (cls : schema) (l : nat) (ops : list op) (w : world) : world * res unit :=
  match ops with
  | [] => (w, Ok tt)
  | o :: ops =>
      let p := run_op cls l o w in
      match p.2 with Ok _ => run_ops cls l ops p.1 | Raise e => p end
  end.
End codec.
End Tdb.
