(* ===== verification/TdbProps.v ===== *)
(** * Column-family things: properties

    Typed columns give back what they store; a thing between two writes is a
    map beside the map of its row; lookups answer with the stored values
    whatever partial objects the cache of the request holds.  Values are
    compared with Python's [==], which the code uses to leave out columns that
    have not changed. *)

From S2P Require Import Prelude Tdb.

Module TdbProps.
Import Tdb.

(** ** Dictionaries mapped by a function that may raise *)

Lemma res_mapM_Forall2 {A B} (f : A -> res B) l l' :
  res_mapM f l = Ok l' -> Forall2 (fun x y => f x = Ok y) l l'.
Proof.
  revert l'. induction l as [|x l IH]; simpl; intros l' Hm; [by simplify_eq|].
  apply res_bind_Ok in Hm as (y & Hy & (ys & Hys & [= <-])%res_bind_Ok). auto.
Qed.

Lemma res_mapM_total {A B} (f : A -> res B) l :
  (forall x, x ∈ l -> exists y, f x = Ok y) -> exists l', res_mapM f l = Ok l'.
Proof.
  induction l as [|x l IH]; intros Hf; simpl; [by eexists|].
  destruct (Hf x) as [y ->]; [left|]. destruct IH as [ys ->]; [intros z ?; apply Hf; by right|]. by eexists.
Qed.

Lemma res_map_Forall2 {A B} (f : string -> A -> res B) m m' :
  res_map f m = Ok m' -> map_Forall2 (fun k v w => f k v = Ok w) m m'.
Proof.
  unfold res_map. intros (l & Hl%res_mapM_Forall2 & [= <-])%res_bind_Ok.
  assert (Hl' : Forall2 (fun kv kw => kv.1 = kw.1 /\ f kv.1 kv.2 = Ok kw.2) (map_to_list m) l).
  { eapply Forall2_impl; [exact Hl|]. by intros [k v] [k' w] (w' & Hw & [= <- <-])%res_bind_Ok. }
  assert (Hkeys : l.*1 = (map_to_list m).*1).
  { clear -Hl'. induction Hl' as [|? ? ? ? [E _] _ IH]; [done|]. by rewrite !fmap_cons, IH, E. }
  assert (Hnd : NoDup l.*1) by (rewrite Hkeys; apply NoDup_fst_map_to_list).
  intros k. destruct (m !! k) as [v|] eqn:Ek; simpl.
  - apply elem_of_map_to_list, list_elem_of_lookup in Ek as [i Hi].
    destruct (Forall2_lookup_l _ _ _ _ _ Hl' Hi) as ([k' w] & Hi' & E & Hf). simpl in E, Hf. subst k'.
    apply list_elem_of_lookup_2 in Hi'. apply (elem_of_list_to_map_1 _ _ _ Hnd) in Hi'. rewrite Hi'. by constructor.
  - assert (Hn : (list_to_map l : gmap string B) !! k = None); [|rewrite Hn; constructor].
    apply not_elem_of_list_to_map. rewrite Hkeys. intros ([k' v] & -> & Hin)%list_elem_of_fmap.
    apply elem_of_map_to_list in Hin. simpl in *. congruence.
Qed.

Lemma res_map_Ok {A B} (f : string -> A -> res B) m m' :
  res_map f m = Ok m' <-> map_Forall2 (fun k v w => f k v = Ok w) m m'.
Proof.
  split; [apply res_map_Forall2|]. intros Hm.
  destruct (res_mapM_total (fun kv : string * A => let* v := f kv.1 kv.2 in Ok (kv.1, v)) (map_to_list m)) as [l Hl].
  { intros [k v] Hin%elem_of_map_to_list. specialize (Hm k). rewrite Hin in Hm. inversion Hm as [? w Hw|]; simplify_eq.
    simpl. rewrite Hw. by eexists. }
  assert (Hr : res_map f m = Ok (list_to_map l)) by (unfold res_map; by rewrite Hl).
  rewrite Hr. f_equal. apply map_eq. intros k. pose proof (res_map_Forall2 _ _ _ Hr k) as Hk. specialize (Hm k).
  destruct (m !! k); inversion Hk; inversion Hm; congruence.
Qed.

(** ** Types of columns *)

(** The type by which the columns of an attribute are stored. *)
Definition ptype_of (cls : schema) (attr : string) : ptype :=
  if is_prop cls attr (int_props cls) TInt then TInt
  else if is_prop cls attr (float_props cls) TFloat then TFloat
  else if is_prop cls attr (bool_props cls) TBool then TBool
  else if is_prop cls attr (pickle_props cls) TPickle then TPickle
  else if is_prop cls attr (json_props cls) TJson then TJson
  else if is_date cls attr then TDate
  else if is_prop cls attr (bytes_props cls) TBytes then TBytes
  else TStr.

(** A float that [float] reads back from its text: [str] gives twelve
    significant digits, so others lose some. *)
Definition kept_float `{Codecs} (f : Z) : Prop := float_of (float_str f) = Some f.

(** What the libraries document: loading what was dumped, for JSON of the
    values it can express; dates of the resolution of the packing. *)
Class CodecLaws (C : Codecs) := {
  json_ok : value -> Prop;
  precise : Z -> Prop;
  pickle_roundtrip v : pickle_loads (pickle_dumps v) = Ok v;
  json_roundtrip v : json_ok v -> json_loads (json_dumps v) = Ok v;
  date_roundtrip d : precise d ->
    exists s, pack_date (VDate d) = Ok s /\ String.length s = 8%nat /\ unpack_date s = d;
  validated_date d : precise d -> validated (VDate d) = Ok (CDate d);
  pack_precise d : exists s, pack_date (VDate d) = Ok s /\ String.length s = 8%nat /\ precise (unpack_date s)
}.

Section codec.
Context `{C : Codecs} `{!CodecLaws C}.

Definition has_ptype (t : ptype) (v : value) : Prop :=
  match t with
  | TInt => exists n, v = VInt n
  | TFloat => exists f, v = VFloat f /\ kept_float f
  | TBool => exists b, v = VBool b
  | TPickle => True
  | TJson => json_ok v
  | TDate => exists d, v = VDate d /\ precise d
  | TBytes => exists s, v = VBytes s
  | TStr => exists u, v = VStr u /\ valid_utf8 u = true
  end.

Definition well_typed (cls : schema) (attr : string) (v : value) : Prop := has_ptype (ptype_of cls attr) v.

Lemma is_prop_app cls attr l1 l2 t :
  is_prop cls attr (l1 ++ l2) t = bool_decide (attr ∈ l1) || is_prop cls attr l2 t.
Proof. unfold is_prop. rewrite orb_assoc. f_equal. rewrite (bool_decide_ext _ _ (elem_of_app _ _ _)). apply bool_decide_or. Qed.

Lemma serialize_numbers cls attr :
  is_prop cls attr (int_props cls ++ float_props cls) TFloat || is_value_type cls TInt =
  is_prop cls attr (int_props cls) TInt || is_prop cls attr (float_props cls) TFloat.
Proof.
  rewrite is_prop_app. unfold is_prop. by destruct (bool_decide (attr ∈ int_props cls)), (bool_decide (attr ∈ float_props cls)),
    (is_value_type cls TInt), (is_value_type cls TFloat).
Qed.

Lemma serialize_deserialize cls attr v :
  well_typed cls attr v ->
  exists c, serialize_column cls attr v = Ok c /\ deserialize_column cls attr c = Ok v.
Proof.
  unfold well_typed, ptype_of, serialize_column, deserialize_column. rewrite serialize_numbers.
  destruct (is_prop cls attr (int_props cls) TInt); simpl.
  { intros [n ->]. eexists. split; [done|]. simpl. by rewrite py_int_str_int. }
  destruct (is_prop cls attr (float_props cls) TFloat); simpl.
  { intros (f & -> & Hf). eexists. split; [done|]. simpl. by rewrite Hf. }
  destruct (is_prop cls attr (bool_props cls) TBool).
  { intros [b ->]. by destruct b; eexists. }
  destruct (is_prop cls attr (pickle_props cls) TPickle).
  { intros _. eexists. split; [done|]. apply pickle_roundtrip. }
  destruct (is_prop cls attr (json_props cls) TJson).
  { intros Hv. eexists. split; [done|]. by apply json_roundtrip. }
  destruct (is_date cls attr).
  { intros (d & -> & Hd). destruct (is_typed_date cls attr); [rewrite validated_date by done; by eexists|].
    destruct (date_roundtrip d Hd) as (s & -> & Hl & Hu). eexists. split; [done|]. simpl.
    rewrite bool_decide_true by done. by rewrite Hu. }
  destruct (is_prop cls attr (bytes_props cls) TBytes); [intros [s ->]|intros (u & -> & Hu)]; eexists; (split; [done|]); [done|].
  simpl. by rewrite Hu.
Qed.

(** ** Equality of values *)

(** What [==] looks at. *)
Inductive face := FNum (n : Z) | FText (u : string) | FBytes (s : string) | FOther (v : value).

Definition face_of (v : value) : face :=
  match number v with
  | Some n => FNum n
  | None => match v with
    | VStr u => FText u
    | VBytes s => if is_ascii s then FText s else FBytes s
    | v => FOther v
    end
  end.

Lemma py_eq_face v w : py_eq v w = true <-> face_of v = face_of w.
Proof.
  unfold py_eq. rewrite orb_true_iff, bool_decide_eq_true.
  split; [intros [-> | He]; [done|revert He]|];
    destruct v as [|b|n|f|u|s|d|o], w as [|b'|n'|f'|u'|s'|d'|o']; unfold face_of; simpl;
    repeat match goal with |- context [float_int ?f] => destruct (float_int f) eqn:? end;
    repeat match goal with |- context [is_ascii ?u] => destruct (is_ascii u) eqn:? end;
    simpl; rewrite ?Z.eqb_eq, ?String.eqb_eq; intuition congruence.
Qed.

#[export] Instance value_equiv : Equiv value := fun v w => py_eq v w = true.

#[export] Instance value_equivalence : Equivalence (≡@{value}).
Proof.
  unfold equiv, value_equiv. split.
  - intros v. by apply py_eq_face.
  - intros v w. rewrite !py_eq_face. congruence.
  - intros v w x. rewrite !py_eq_face. congruence.
Qed.

(** ** Commits write the values of the thing *)

(** A row whose columns do not expire, holding [m]. *)
Definition row_holds (cls : schema) (r : gmap string column) (m : gmap string value) : Prop :=
  (forall k c, r !! k = Some c -> c_expires c = None) /\
  res_map (deserialize_column cls) (c_val <$> r) = Ok m.

Lemma row_holds_lookup cls r m :
  row_holds cls r m <->
  forall k, match r !! k with
    | Some c => c_expires c = None /\ exists v, deserialize_column cls k (c_val c) = Ok v /\ m !! k = Some v
    | None => m !! k = None
    end.
Proof.
  unfold row_holds. rewrite res_map_Ok. split.
  - intros [He Hm] k. specialize (He k). specialize (Hm k). rewrite lookup_fmap in Hm.
    destruct (r !! k); inversion Hm; eauto.
  - intros Hr. split.
    + intros k c Hk. specialize (Hr k). rewrite Hk in Hr. tauto.
    + intros k. specialize (Hr k). rewrite lookup_fmap. destruct (r !! k) as [c|]; simpl.
      * destruct Hr as (_ & v & Hv & ->). by constructor.
      * rewrite Hr. constructor.
Qed.

Definition typed_map (cls : schema) (m : gmap string value) : Prop := map_Forall (well_typed cls) m.

(** A class whose columns have no time to live. *)
Definition permanent (cls : schema) : Prop := class_ttl cls = None /\ default_ttls cls = ∅.

Lemma serialize_typed cls m :
  typed_map cls m -> exists u, res_map (serialize_column cls) m = Ok u /\
    forall k, match m !! k with
      | Some v => exists c, u !! k = Some c /\ deserialize_column cls k c = Ok v
      | None => u !! k = None
      end.
Proof.
  intros Hm.
  set (g k v := match serialize_column cls k v with Ok c => c | Raise _ => CBytes "" end).
  assert (Hg : forall k v, m !! k = Some v -> serialize_column cls k v = Ok (g k v) /\ deserialize_column cls k (g k v) = Ok v).
  { intros k v Hk. destruct (serialize_deserialize cls k v (Hm k v Hk)) as (c & Hs & Hd). unfold g. by rewrite Hs. }
  exists (map_imap (fun k v => Some (g k v)) m). split.
  - apply res_map_Ok. intros k. rewrite map_lookup_imap. destruct (m !! k) as [v|] eqn:Ek; simpl; constructor.
    by apply Hg.
  - intros k. rewrite map_lookup_imap. destruct (m !! k) as [v|] eqn:Ek; simpl; [|done]. eexists. split; [done|].
    by apply Hg.
Qed.

(** A row written by a commit holds what the row held, with the changed values
    put in and the deleted ones taken out. *)
Lemma written_holds cls now t r m d u :
  permanent cls -> column_ttls t = ∅ -> row_holds cls r m ->
  (forall k, match d !! k with
    | Some v => exists c, u !! k = Some c /\ deserialize_column cls k c = Ok v
    | None => u !! k = None
    end) ->
  row_holds cls (written cls now t u r) (filter (fun kv => kv.1 ∉ deletes t) (d ∪ m)).
Proof.
  intros [Hc Hd] Ht Hr Hu. rewrite row_holds_lookup in Hr |- *. intros k. specialize (Hr k). specialize (Hu k).
  unfold written. destruct (decide (k ∈ deletes t)) as [Hin|Hin].
  { rewrite map_lookup_filter_None_2 by (right; naive_solver). apply map_lookup_filter_None_2. naive_solver. }
  rewrite !map_lookup_filter, !lookup_union, map_lookup_imap. unfold column_ttl. rewrite Ht, Hc, lookup_empty.
  destruct (d !! k) as [v|].
  - destruct Hu as (c & -> & Hdes). simpl. rewrite !union_Some_l by done. simpl.
    rewrite option_guard_True by done. simpl. split; [done|]. exists v. split; [done|].
    destruct (r !! k), (m !! k); simpl; by rewrite option_guard_True by done.
  - rewrite Hu. simpl. destruct (r !! k) as [c|]; simpl.
    + destruct Hr as (? & v & ? & ->). simpl. rewrite !option_guard_True by done. simpl. eauto.
    + by rewrite Hr.
Qed.

Lemma changed_union t m : m ≡ orig t -> changed t ∪ m ≡ dirties t ∪ orig t.
Proof.
  rewrite !map_equiv_iff. intros Hm k. specialize (Hm k). rewrite !lookup_union. unfold changed.
  rewrite map_lookup_filter. destruct (dirties t !! k) as [v|] eqn:Ed; simpl.
  - case_guard as Hg; simpl.
    + by destruct (m !! k), (orig t !! k).
    + destruct (orig t !! k) as [w|] eqn:Eo; [|by destruct Hg]. apply not_true_is_false, negb_false_iff in Hg.
      inversion Hm as [v' ? Hv|]; simplify_eq. simpl. constructor. etrans; [exact Hv|]. by symmetry.
  - by destruct (m !! k), (orig t !! k); inversion Hm.
Qed.

(** ** A thing refines a pair of maps *)

(** What is stored, and what the object shows. *)
Record two_maps := TwoMaps { stored : gmap string value; view : gmap string value }.

Definition abs_op (o : op) (a : two_maps) : two_maps :=
  match o with
  | OSet attr v => TwoMaps (stored a) (<[attr := v]> (view a))
  | ODel attr => TwoMaps (stored a) (delete attr (view a))
  | ORevert => TwoMaps (stored a) (stored a)
  | OCommit _ => TwoMaps (view a) (view a)
  end.

Definition op_typed (cls : schema) (o : op) : Prop :=
  match o with OSet attr v => well_typed cls attr v | _ => True end.

Definition refines (cls : schema) (l : nat) (id : string) (w : world) (a : two_maps) : Prop :=
  exists t m, heap w !! l = Some t /\ t_id t = Some id /\ committed t = true /\ column_ttls t = ∅ /\
    typed_map cls (dirties t) /\ t_values t ≡ view a /\ orig t ≡ stored a /\
    row_holds cls (row_of w id) m /\ m ≡ orig t.

Lemma t_values_lookup t k :
  t_values t !! k = if decide (k ∈ deletes t) then None else dirties t !! k ∪ orig t !! k.
Proof.
  unfold t_values. rewrite map_lookup_filter, lookup_union. case_decide.
  - destruct (dirties t !! k ∪ orig t !! k); simpl; [|done]. by rewrite option_guard_False by naive_solver.
  - destruct (dirties t !! k ∪ orig t !! k); simpl; [|done]. by rewrite option_guard_True by done.
Qed.

Lemma t_values_set cls attr v t : t_values (setattr cls attr v t) = <[attr := v]> (t_values t).
Proof.
  apply map_eq. intros k. destruct (decide (k = attr)) as [-> | Hne];
    rewrite ?lookup_insert_eq, ?lookup_insert_ne, !t_values_lookup by done; unfold setattr; simpl.
  - rewrite decide_False by set_solver. rewrite lookup_insert_eq. by apply union_Some_l.
  - rewrite lookup_insert_ne by done. by rewrite (decide_ext _ (k ∈ deletes t)) by set_solver.
Qed.

Lemma t_values_del attr t : t_values (delitem attr t) = delete attr (t_values t).
Proof.
  apply map_eq. intros k. destruct (decide (k = attr)) as [-> | Hne];
    rewrite ?lookup_delete_eq, ?lookup_delete_ne, !t_values_lookup by done; unfold delitem; simpl.
  - by rewrite decide_True by set_solver.
  - rewrite lookup_delete_ne by done. by rewrite (decide_ext _ (k ∈ deletes t)) by set_solver.
Qed.

Lemma t_values_clean t : dirties t = ∅ -> deletes t = ∅ -> t_values t = orig t.
Proof.
  intros Hd He. apply map_eq. intros k. rewrite t_values_lookup, Hd, He, decide_False by set_solver.
  rewrite lookup_empty. by destruct (orig t !! k).
Qed.

Lemma typed_set cls attr v t :
  well_typed cls attr v -> typed_map cls (dirties t) -> typed_map cls (dirties (setattr cls attr v t)).
Proof. intros Hv Ht. unfold typed_map. simpl. by apply map_Forall_insert_2. Qed.

Lemma commit_updates_stored cls now t u :
  committed t = true -> res_map (serialize_column cls) (changed t) = Ok u -> commit_updates cls now t = (t, Ok u).
Proof. intros Hc Hu. unfold commit_updates. rewrite !Hc, Hu. by destruct (timestamp_prop cls). Qed.

(** A commit of a thing that has been stored before. *)
Lemma commit_stored cls now l id w t m :
  permanent cls -> heap w !! l = Some t -> t_id t = Some id -> committed t = true -> column_ttls t = ∅ ->
  typed_map cls (dirties t) -> row_holds cls (row_of w id) m -> m ≡ orig t ->
  exists w' t' m', commit cls now l w = (w', Ok tt) /\ heap w' !! l = Some t' /\ t_id t' = Some id /\
    committed t' = true /\ column_ttls t' = ∅ /\ dirties t' = ∅ /\ deletes t' = ∅ /\ orig t' ≡ t_values t /\
    row_holds cls (row_of w' id) m' /\ m' ≡ orig t' /\
    (forall id', id' <> id -> row_of w' id' = row_of w id') /\
    (forall l', l' <> l -> heap w' !! l' = heap w !! l').
Proof.
  intros Hper Hl Hid Hc Httl Hty Hrow Hm. unfold commit. rewrite Hl.
  destruct (dirty t) eqn:Ed; simpl.
  2:{ unfold dirty in Ed. rewrite Hc in Ed. apply orb_false_iff in Ed as [[Ed1 Ed2]%orb_false_iff _].
    apply negb_false_iff, bool_decide_eq_true in Ed1, Ed2.
    exists w, t, m. rewrite t_values_clean by done. done. }
  rewrite Hid.
  assert (Hlen : (l < length (heap w))%nat) by by eapply lookup_lt_Some.
  assert (Hcty : typed_map cls (changed t)).
  { intros k v [Hk _]%map_lookup_filter_Some. by apply Hty. }
  destruct (serialize_typed cls (changed t) Hcty) as (u & Hu & Hlook).
  rewrite (commit_updates_stored _ _ _ _ Hc Hu).
  simpl. destruct (bool_decide (u = ∅) && bool_decide (deletes t = ∅)) eqn:En.
  - apply andb_true_iff in En as [->%bool_decide_eq_true Hdel%bool_decide_eq_true].
    eexists _, _, m. split; [done|]. simpl. rewrite list_lookup_insert_eq by done.
    split; [done|]. simpl. do 5 (split; [done|]). split; [|split; [done|split; [done|split; [done|]]]].
    + rewrite map_equiv_iff. intros k. rewrite t_values_lookup, Hdel, decide_False by set_solver.
      assert (Hch : changed t = ∅).
      { apply map_eq. intros k'. specialize (Hlook k'). rewrite lookup_empty.
        destruct (changed t !! k'); [|done]. by destruct Hlook as (? & ? & _). }
      pose proof (changed_union t (orig t) (reflexivity _)) as Hun. rewrite Hch, (left_id_L ∅ _) in Hun.
      specialize (Hun k). by rewrite lookup_union in Hun.
    + intros l' Hne. by rewrite list_lookup_insert_ne.
  - eexists _, _, _. split; [done|]. simpl. rewrite list_lookup_insert_eq by done.
    split; [done|]. simpl. do 5 (split; [done|]). split; [done|].
    unfold row_of at 1. simpl. rewrite lookup_insert_eq. simpl.
    split; [by apply written_holds|]. split; [|split].
    + rewrite map_equiv_iff. intros k. unfold t_values. rewrite !map_lookup_filter.
      pose proof (changed_union t m Hm k) as Hk.
      inversion Hk as [? ? Hv E1 E2|E1 E2]; simpl; [|done]. case_guard; simpl; [by constructor|done].
    + intros id' Hne. unfold row_of. simpl. by rewrite lookup_insert_ne.
    + intros l' Hne. by rewrite list_lookup_insert_ne.
Qed.

Lemma run_op_refines cls l id w a o :
  permanent cls -> refines cls l id w a -> op_typed cls o ->
  exists w', run_op cls l o w = (w', Ok tt) /\ refines cls l id w' (abs_op o a) /\
    forall id', id' <> id -> row_of w' id' = row_of w id'.
Proof.
  intros Hper (t & m & Hl & Hid & Hc & Httl & Hty & Hview & Hst & Hrow & Hm) Ho.
  destruct o as [attr v|attr| |now]; simpl in *.
  - eexists. split; [done|]. split; [|done]. exists (setattr cls attr v t), m. simpl.
    rewrite list_lookup_alter_eq, Hl. rewrite t_values_set. destruct Hper as [_ ->]. rewrite lookup_empty.
    split_and!; try done; [by apply map_Forall_insert_2|by rewrite Hview].
  - eexists. split; [done|]. split; [|done]. exists (delitem attr t), m. simpl.
    rewrite list_lookup_alter_eq, Hl. rewrite t_values_del, Httl, delete_empty.
    split_and!; try done; [by apply map_Forall_delete|by rewrite Hview].
  - rewrite Hl. simpl. unfold revert. rewrite Hc. eexists. split; [done|]. split; [|done].
    eexists _, m. simpl. rewrite list_lookup_alter_eq, Hl. split; [done|].
    rewrite t_values_clean by done. simpl. by split_and!.
  - destruct (commit_stored cls now l id w t m) as (w' & t' & m' & Hcommit & Hl' & Hid' & Hc' & Httl' & Hd & He & Ho' & Hr' & Hm' & Hrows & _);
      try done.
    rewrite Hcommit. eexists. split; [done|]. split; [|done]. exists t', m'. rewrite t_values_clean, Hd by done.
    rewrite Ho'. split_and!; try done. by rewrite Hm'.
Qed.


(** ** Lookups *)

(** Of what was asked for, an object holds the values of its row. *)
Definition agrees (cls : schema) (now : Z) (w : world) (id : string) (t : thing) : Prop :=
  forall k, asked_for (partial t) k = true ->
    match read_row now None (row_of w id) !! k with
    | Some c => exists v, deserialize_column cls k c = Ok v /\ orig t !! k ≡ Some v
    | None => orig t !! k = None
    end.

Definition coherent (cls : schema) (now : Z) (w : world) : Prop :=
  forall id l, cache w !! id = Some l ->
    exists t, heap w !! l = Some t /\ t_id t = Some id /\ agrees cls now w id t.

Definition readable (cls : schema) (now : Z) (w : world) (id : string) : Prop :=
  forall k c, read_row now None (row_of w id) !! k = Some c -> exists v, deserialize_column cls k c = Ok v.

Lemma read_row_lookup now columns r k :
  read_row now columns r !! k = if asked_for columns k then read_row now None r !! k else None.
Proof.
  unfold read_row. rewrite !lookup_fmap, !map_lookup_filter. destruct (r !! k) as [c|]; simpl; [|by case_match].
  rewrite andb_true_r. destruct (asked_for columns k) eqn:Ea.
  - rewrite andb_true_r. by case_guard.
  - rewrite andb_false_r. by rewrite option_guard_False.
Qed.

Lemma add_things_spec l w m p :
  NoDup l.*1 ->
  p = foldl (fun (p : world * gmap string nat) (x : string * thing) =>
    let n := length (heap p.1) in
    (World (rows p.1) (heap p.1 ++ [x.2]) (<[x.1 := n]> (cache p.1)), <[x.1 := n]> p.2)) (w, m) l ->
  rows p.1 = rows w /\ heap p.1 = heap w ++ l.*2 /\
  (forall id t, (id, t) ∈ l -> exists n, heap p.1 !! n = Some t /\ p.2 !! id = Some n /\ cache p.1 !! id = Some n) /\
  (forall id, id ∉ l.*1 -> p.2 !! id = m !! id /\ cache p.1 !! id = cache w !! id).
Proof.
  revert w m. induction l as [|[id t] l IH]; intros w m Hnd Hp.
  { simpl in Hp. subst p. rewrite app_nil_r. split_and!; try done. by intros ? ? ?%elem_of_nil. }
  rewrite fmap_cons in Hnd. apply NoDup_cons in Hnd as [Hn Hnd]. simpl in Hn. cbn [foldl] in Hp.
  destruct (IH _ _ Hnd Hp) as (Hr & Hh & Hin & Hout). clear IH Hp. simpl in *. split_and!.
  - done.
  - by rewrite Hh, <- app_assoc.
  - intros id' t' [[= -> ->]|Hin']%elem_of_cons; [|auto]. destruct (Hout _ Hn) as [-> ->]. exists (length (heap w)).
    rewrite !lookup_insert_eq, Hh. split; [|done]. rewrite <- app_assoc. by apply list_lookup_middle.
  - intros id' [Hne Hn']%not_elem_of_cons. destruct (Hout _ Hn') as [-> ->]. by rewrite !lookup_insert_ne.
Qed.

Lemma elem_of_cached ids w id l t :
  (id, l, t) ∈ cached_things ids w <-> id ∈ ids /\ cache w !! id = Some l /\ heap w !! l = Some t.
Proof.
  unfold cached_things. rewrite list_elem_of_omap. split.
  - intros (id' & Hin & Hm). destruct (cache w !! id') as [l'|] eqn:El; [|done].
    destruct (heap w !! l') eqn:Et; naive_solver.
  - intros (Hin & Hl & Ht). exists id. split; [done|]. by rewrite Hl, Ht.
Qed.

Lemma cached_keys ids w : NoDup ids -> NoDup (cached_things ids w).*1.*1.
Proof.
  induction ids as [|id ids IH]; intros Hnd; [constructor|]. apply NoDup_cons in Hnd as [Hn Hnd].
  unfold cached_things. simpl. destruct (cache w !! id) as [l|]; [|auto]. destruct (heap w !! l) as [t|]; [|auto].
  simpl. constructor; [|auto]. intros ([id' l'] & E & ([[? ?] t'] & E' & Hin)%list_elem_of_fmap)%list_elem_of_fmap.
  simpl in *. simplify_eq. by apply elem_of_cached in Hin as [? _].
Qed.

(** An object made of the columns asked for agrees with its row. *)
Lemma made_agrees cls now w id ask d :
  res_map (deserialize_column cls) (read_row now ask (row_of w id)) = Ok d ->
  forall t, orig t = d -> partial t = ask -> agrees cls now w id t.
Proof.
  intros Hd%res_map_Ok t <- <- k Hk. specialize (Hd k). rewrite read_row_lookup, Hk in Hd.
  destruct (read_row now None (row_of w id) !! k); inversion Hd; simplify_eq; [|done].
  eexists. split; [done|]. by constructor.
Qed.

Lemma hits_spec ids w properties id l :
  NoDup ids ->
  (list_to_map (fst <$> List.filter (fun c => negb (bad_partial properties c.2)) (cached_things ids w)) : gmap string nat) !! id
    = Some l <->
  id ∈ ids /\ cache w !! id = Some l /\ exists t, heap w !! l = Some t /\ bad_partial properties t = false.
Proof.
  intros Hnd. rewrite <- elem_of_list_to_map.
  - rewrite list_elem_of_fmap. setoid_rewrite elem_of_filter_bool. setoid_rewrite negb_true_iff. split.
    + intros ([[id' l'] t] & E & Hb & Hin). simpl in *. simplify_eq. apply elem_of_cached in Hin. naive_solver.
    + intros (Hin & Hc & t & Ht & Hb). exists (id, l, t). split_and!; try done. by apply elem_of_cached.
  - pose proof (cached_keys ids w Hnd) as Hk. induction (cached_things ids w) as [|c cs IH]; simpl; [constructor|].
    apply NoDup_cons in Hk as [Hn Hk]. destruct (negb _); simpl; [|auto]. constructor; [|auto].
    intros ([id' l'] & E & (c' & E' & [_ Hin]%elem_of_filter_bool)%list_elem_of_fmap)%list_elem_of_fmap. simpl in *.
    apply Hn. rewrite E. apply list_elem_of_fmap. exists c'.1.
    split; [by rewrite <- E'|by apply (list_elem_of_fmap_2 fst)].
Qed.

Lemma good_partial properties t k :
  bad_partial properties t = false -> asked_for properties k = true -> asked_for (partial t) k = true.
Proof.
  unfold bad_partial, asked_for. destruct (partial t) as [p|], properties as [asked|]; try done.
  intros Hb%negb_false_iff Hk. apply bool_decide_eq_true in Hb, Hk. apply bool_decide_eq_true. set_solver.
Qed.

Lemma willask_asks properties cached k :
  asked_for properties k = true -> asked_for (willask properties cached) k = true.
Proof.
  unfold willask, asked_for. destruct properties; [|done]. rewrite !bool_decide_eq_true. set_solver.
Qed.

Lemma multiget_cons now ask id need w :
  multiget now ask (id :: need) w =
    if decide (read_row now ask (row_of w id) = ∅) then multiget now ask need w
    else (id, read_row now ask (row_of w id)) :: multiget now ask need w.
Proof. unfold multiget. simpl. by case_decide. Qed.

(** The objects built for the rows that were not found. *)
Lemma found_things cls now ask need w :
  NoDup need -> (forall id, id ∈ need -> readable cls now w id) ->
  exists found,
    res_mapM (fun r : string * gmap string colval =>
      let* t := from_serialized_columns cls r.1 r.2 in
      Ok (r.1, Thing (t_id t) (orig t) (dirties t) (deletes t) (column_ttls t) (committed t) ask))
      (multiget now ask need w) = Ok found /\ NoDup found.*1 /\
    (forall id, id ∈ found.*1 <-> id ∈ need /\ read_row now ask (row_of w id) <> ∅) /\
    (forall id t, (id, t) ∈ found -> t_id t = Some id /\ partial t = ask /\ agrees cls now w id t).
Proof.
  induction need as [|id need IH]; intros Hnd Hread.
  { exists []. simpl. split_and!; [done|constructor|set_solver|set_solver]. }
  apply NoDup_cons in Hnd as [Hn Hnd]. destruct IH as (found & Hm & Hndf & Hdom & Hag); [done|intros; apply Hread; by right|].
  rewrite multiget_cons. case_decide as Hr.
  { exists found. split_and!; try done. intros id'. rewrite Hdom, elem_of_cons. naive_solver. }
  assert (Hd : exists d, res_map (deserialize_column cls) (read_row now ask (row_of w id)) = Ok d).
  { destruct (res_mapM_total (fun kv : string * colval => let* v := deserialize_column cls kv.1 kv.2 in Ok (kv.1, v))
      (map_to_list (read_row now ask (row_of w id)))) as [l Hl].
    - intros [k c] Hin%elem_of_map_to_list. rewrite read_row_lookup in Hin. case_match; [|done].
      destruct (Hread id (list_elem_of_here _ _) k c Hin) as [v Hv]. simpl. rewrite Hv. by eexists.
    - unfold res_map. rewrite Hl. by eexists. }
  destruct Hd as [d Hd]. cbn [res_mapM fst snd]. rewrite Hm. unfold from_serialized_columns. rewrite Hd. simpl.
  eexists. split; [done|]. split_and!.
  - simpl. constructor; [|done]. rewrite Hdom. tauto.
  - intros id'. rewrite fmap_cons, !elem_of_cons, Hdom. naive_solver.
  - intros id' t [[= -> ->]|Hin]%elem_of_cons; [|auto]. simpl. split_and!; try done. by apply (made_agrees _ _ _ _ _ _ Hd).
Qed.

Lemma agrees_rows cls now w w' id t : rows w' = rows w -> agrees cls now w id t -> agrees cls now w' id t.
Proof. unfold agrees, row_of. by intros ->. Qed.

(** Whatever objects the cache of the request holds, partial or not,
    clean or changed, a lookup of ids answers for each of them that has a
    column asked for with an object of that id holding, of everything asked
    for, what its row holds; objects that are there already are not touched,
    and the cache stays so. *)
Theorem by_ids_correct cls now ids properties w :
  NoDup ids -> coherent cls now w -> (forall id, id ∈ ids -> readable cls now w id) ->
  exists w' found, by_ids cls now ids properties w = Ok (w', found) /\
    rows w' = rows w /\ heap w `prefix_of` heap w' /\ coherent cls now w' /\
    (forall id, id ∈ ids -> read_row now properties (row_of w id) <> ∅ -> is_Some (found !! id)) /\
    forall id l, found !! id = Some l -> id ∈ ids /\
      exists t, heap w' !! l = Some t /\ t_id t = Some id /\ agrees cls now w id t /\
        forall k, asked_for properties k = true -> asked_for (partial t) k = true.
Proof.
  intros Hnd Hco Hread. unfold by_ids. cbv zeta.
  set (cached := cached_things ids w). set (hits := list_to_map _ : gmap string nat).
  set (need := filter (fun id => hits !! id = None) ids). set (ask := willask properties cached).
  pose proof (fun id l => hits_spec ids w properties id l Hnd) as Hhits. fold cached in Hhits. fold hits in Hhits.
  destruct (found_things cls now ask need w) as (found & -> & Hndf & Hdom & Hag).
  { by apply NoDup_filter. }
  { intros id [_ Hin]%list_elem_of_filter. auto. }
  simpl. destruct (add_things_spec found w ∅ (add_things found w) Hndf eq_refl) as (Hr & Hh & Hin & Hout).
  set (p := add_things found w) in *. exists p.1, (p.2 ∪ hits). split; [done|]. split; [done|].
  assert (Hpre : heap w `prefix_of` heap p.1) by (rewrite Hh; by apply prefix_app_r).
  split; [done|].
  assert (Hnew : forall id, id ∈ found.*1 -> exists t n, (id, t) ∈ found /\ heap p.1 !! n = Some t /\
      p.2 !! id = Some n /\ cache p.1 !! id = Some n).
  { intros id ([id' t] & -> & Hf)%list_elem_of_fmap. destruct (Hin _ _ Hf) as (n & ? & ? & ?). eauto 10. }
  split; [|split].
  - intros id l Hl. destruct (decide (id ∈ found.*1)) as [Hf|Hf].
    + destruct (Hnew _ Hf) as (t & n & Hft & Hn & _ & Hc). destruct (Hag _ _ Hft) as (? & _ & Hagt).
      exists t. rewrite Hc in Hl. simplify_eq. split_and!; try done. by apply (agrees_rows _ _ w).
    + destruct (Hout _ Hf) as [_ Hc]. rewrite Hc in Hl. destruct (Hco _ _ Hl) as (t & Ht & Hid & Hagt).
      exists t. split_and!; try done; [by eapply prefix_lookup_Some|by apply (agrees_rows _ _ w)].
  - intros id Hid Hne. destruct (hits !! id) as [l|] eqn:El.
    { rewrite lookup_union, El. by destruct (p.2 !! id). }
    assert (Hf : id ∈ found.*1).
    { apply Hdom. split; [by apply list_elem_of_filter|]. intros He. apply Hne. apply map_eq. intros k.
      apply (f_equal (lookup k)) in He. rewrite read_row_lookup in He |- *. rewrite lookup_empty in He |- *.
      destruct (asked_for properties k) eqn:Ek; [|done]. unfold ask in He. by rewrite willask_asks in He. }
    destruct (Hnew _ Hf) as (t & n & _ & _ & Hn & _). rewrite lookup_union, Hn. by destruct (hits !! id).
  - intros id l Hl. rewrite lookup_union in Hl. destruct (decide (id ∈ found.*1)) as [Hf|Hf].
    + destruct (Hnew _ Hf) as (t & n & Hft & Hn & Hp & _). destruct (Hag _ _ Hft) as (? & Hpt & Hagt).
      rewrite Hp in Hl. rewrite union_Some_l in Hl. injection Hl as <-.
      split; [by apply Hdom in Hf as [[_ ?]%list_elem_of_filter _]|]. exists t. split_and!; try done.
      intros k Hk. rewrite Hpt. by apply willask_asks.
    + destruct (Hout _ Hf) as [Hp _]. rewrite Hp, lookup_empty in Hl.
      assert (Hl' : hits !! id = Some l) by (revert Hl; by destruct (hits !! id)).
      apply Hhits in Hl' as (Hid & Hc & t & Ht & Hb). split; [done|]. destruct (Hco _ _ Hc) as (t' & Ht' & ? & ?).
      simplify_eq. exists t. split_and!; try done; [by eapply prefix_lookup_Some|].
      intros k. by apply good_partial.
Qed.

(** ** Reading what was created *)

Lemma deserialize_dates cls attr c : ptype_of cls attr = TDate -> deserialize_column cls attr c = deserialize_date c.
Proof.
  unfold ptype_of, deserialize_column. intros Ht. by repeat (case_match; [try done|]).
Qed.

(** The type of the values read from columns kept as bytes. *)
Definition of_ptype (t : ptype) (v : value) : Prop :=
  match t with
  | TInt => exists n, v = VInt n
  | TFloat => exists f, v = VFloat f
  | TBool => exists b, v = VBool b
  | TPickle | TJson => True
  | TDate => exists d, v = VDate d
  | TBytes => exists s, v = VBytes s
  | TStr => exists u, v = VStr u /\ valid_utf8 u = true
  end.

(** Columns are typed by the attribute lists of their class: reading one
    raises or gives a value of its type, and a value of the type is stored in
    a form from which it is read back unchanged, a float if [str] keeps it. *)
Theorem columns_typed cls attr :
  (forall s v, deserialize_column cls attr (CBytes s) = Ok v -> of_ptype (ptype_of cls attr) v) /\
  (forall v, has_ptype (ptype_of cls attr) v ->
    exists c, serialize_column cls attr v = Ok c /\ deserialize_column cls attr c = Ok v).
Proof.
  split; [|intros v; apply serialize_deserialize].
  intros s v. unfold deserialize_column, ptype_of.
  destruct (is_prop cls attr (int_props cls) TInt); simpl.
  { destruct (py_int_str s); naive_solver. }
  destruct (is_prop cls attr (float_props cls) TFloat); simpl.
  { destruct (float_of s); naive_solver. }
  destruct (is_prop cls attr (bool_props cls) TBool); [naive_solver|].
  destruct (is_prop cls attr (pickle_props cls) TPickle); [done|].
  destruct (is_prop cls attr (json_props cls) TJson); [done|].
  destruct (is_date cls attr); simpl.
  { case_bool_decide; [naive_solver|]. destruct (float_of s); naive_solver. }
  destruct (is_prop cls attr (bytes_props cls) TBytes); simpl; [naive_solver|].
  destruct (valid_utf8 s) eqn:E; naive_solver.
Qed.

(** What is stored of a new thing: its values, and the time of creation. *)
Definition created (cls : schema) (now : Z) (kw : gmap string value) : gmap string value :=
  match timestamp_prop cls with
  | Some p =>
      match kw !! p, pack_date (VDate now) with
      | None, Ok s => <[p := VDate (unpack_date s)]> kw
      | _, _ => kw
      end
  | None => kw
  end.

Lemma changed_new id kw : changed (Thing id ∅ kw ∅ ∅ false None) = kw.
Proof. apply map_filter_id. intros k v _. simpl. by rewrite lookup_empty. Qed.

Lemma commit_updates_new cls now id kw :
  typed_map cls kw -> (forall p, timestamp_prop cls = Some p -> ptype_of cls p = TDate) ->
  exists u, commit_updates cls now (new_thing (Some id) kw) =
      (Thing (Some id) ∅ (created cls now kw) ∅ ∅ false None, Ok u) /\
    forall k, match created cls now kw !! k with
      | Some v => exists c, u !! k = Some c /\ deserialize_column cls k c = Ok v
      | None => u !! k = None
      end.
Proof.
  intros Hty Hts. unfold commit_updates, new_thing, set_dirties, set_orig. simpl.
  rewrite (right_id_L ∅ _), changed_new. destruct (serialize_typed cls kw Hty) as (u & -> & Hu). unfold created.
  destruct (timestamp_prop cls) as [p|]; [|by exists u]. specialize (Hts p eq_refl).
  pose proof (Hu p) as Hp. destruct (kw !! p) as [v|] eqn:Ep.
  { destruct Hp as (c & -> & _). simpl. by exists u. }
  rewrite Hp. simpl. destruct (pack_precise now) as (s & -> & Hl & Hpr). simpl.
  rewrite bool_decide_true by done. simpl.
  assert (Hc : exists c, (if bool_decide (validator cls p = "DateType") then validated (VDate (unpack_date s)) else Ok (CBytes s))
      = Ok c /\ deserialize_column cls p c = Ok (VDate (unpack_date s))).
  { case_bool_decide.
    - rewrite validated_date by done. eexists. split; [done|]. by rewrite deserialize_dates.
    - eexists. split; [done|]. rewrite deserialize_dates by done. simpl. by rewrite bool_decide_true. }
  destruct Hc as (c & -> & Hc). simpl. exists (<[p := c]> u). split; [done|]. intros k.
  destruct (decide (k = p)) as [-> | Hne]; [rewrite !lookup_insert_eq; eauto|]. rewrite !lookup_insert_ne by done. apply Hu.
Qed.

Lemma read_row_permanent cls now r m : row_holds cls r m -> read_row now None r = c_val <$> r.
Proof.
  intros [He _]. unfold read_row. f_equal. apply map_filter_id. intros k c Hk. unfold is_live. simpl. by rewrite (He k c Hk).
Qed.

Lemma row_holds_empty cls : row_holds cls ∅ ∅.
Proof. apply row_holds_lookup. intros k. by rewrite !lookup_empty. Qed.

(** A lookup of one id by a request whose cache is empty. *)
Lemma by_id_request cls now id rs :
  by_id cls now id None (World rs [] ∅) =
    let r := read_row now None (row_of (World rs [] ∅) id) in
    if decide (r = ∅) then Raise NotFound
    else let* d := res_map (deserialize_column cls) r in
      Ok (World rs [from_columns id d] {[ id := 0%nat ]}, 0%nat).
Proof.
  unfold by_id, by_ids. cbv zeta.
  assert (Hcached : cached_things [id] (World rs [] ∅) = []) by (unfold cached_things; simpl; by rewrite lookup_empty).
  rewrite Hcached. simpl. rewrite filter_cons_True, filter_nil by apply lookup_empty.
  rewrite multiget_cons. change (multiget now None [] (World rs [] ∅)) with (@nil (string * gmap string colval)).
  case_decide as Hr.
  - simpl. by rewrite lookup_union, !lookup_empty.
  - simpl. unfold from_serialized_columns. destruct (res_map _ _) as [d|e]; [|done]. simpl. unfold add_things. simpl.
    rewrite lookup_union, lookup_insert_eq. done.
Qed.

(** A thing that was created with values of the right types and committed
    is found by a later request, with exactly those values and the time of its
    creation, in the resolution dates are stored with. *)
Theorem create_then_load cls now later w l id kw :
  permanent cls -> typed_map cls kw -> (forall p, timestamp_prop cls = Some p -> ptype_of cls p = TDate) ->
  heap w !! l = Some (new_thing (Some id) kw) -> row_of w id = ∅ -> created cls now kw <> ∅ ->
  exists w', commit cls now l w = (w', Ok tt) /\
    by_id cls later id None (World (rows w') [] ∅) =
      Ok (World (rows w') [from_columns id (created cls now kw)] {[ id := 0%nat ]}, 0%nat).
Proof.
  intros Hper Hty Hts Hl Hrow Hne. destruct (commit_updates_new cls now id kw Hty Hts) as (u & Hu & Hlook).
  unfold commit. rewrite Hl. unfold dirty at 1. simpl. rewrite orb_true_r. simpl. rewrite Hu. simpl.
  assert (Hune : u <> ∅).
  { intros ->. apply Hne. apply map_eq. intros k. specialize (Hlook k). rewrite lookup_empty.
    destruct (created cls now kw !! k); [|done]. by destruct Hlook as (? & ? & _). }
  rewrite (bool_decide_false _ Hune). simpl. eexists. split; [done|]. simpl. rewrite Hrow.
  set (t := Thing (Some id) ∅ (created cls now kw) ∅ ∅ false None).
  assert (Hholds : row_holds cls (written cls now t u ∅) (created cls now kw)).
  { pose proof (written_holds cls now t ∅ ∅ (created cls now kw) u Hper eq_refl (row_holds_empty cls) Hlook) as Hw.
    rewrite (right_id_L ∅ _), map_filter_id in Hw by set_solver. done. }
  set (rs := <[id := written cls now t u ∅]> (rows w)). rewrite by_id_request. cbv zeta.
  assert (Hrs : row_of (World rs [] ∅) id = written cls now t u ∅) by (unfold row_of, rs; simpl; by rewrite lookup_insert_eq).
  rewrite Hrs.
  rewrite (read_row_permanent _ _ _ _ Hholds). case_decide as Hemp.
  { destruct Hholds as [_ Hh]. rewrite Hemp in Hh. vm_compute in Hh. by simplify_eq. }
  destruct Hholds as [_ ->]. done.
Qed.
End codec.
End TdbProps.
