(* ===== verification/TdbExamples.v ===== *)
(** * Column-family things on concrete classes

    Codecs that satisfy the laws, the instances of the theorems of TdbProps,
    and behaviours of the code as written that its comments do not announce. *)

From S2P Require Import Prelude Tdb TdbProps.
From Stdlib Require Import Ascii.

Module TdbExamples.
Import Tdb TdbProps.

(** ** Codecs *)

Definition demo_dumps (v : value) : string :=
  match v with
  | VNone => "N"
  | VBool b => if b then "T" else "F"
  | VInt n => "i" +:+ py_str_int n
  | VFloat f => "f" +:+ py_str_int f
  | VStr u => "s" +:+ u
  | VBytes s => "b" +:+ s
  | VDate d => "d" +:+ py_str_int d
  | VObj o => "o" +:+ py_str_int o
  end.

Definition demo_loads (s : string) : res value :=
  match s with
  | String "N" _ => Ok VNone
  | String "T" _ => Ok (VBool true)
  | String "F" _ => Ok (VBool false)
  | String "i" s => of_option ValueError (VInt <$> py_int_str s)
  | String "f" s => of_option ValueError (VFloat <$> py_int_str s)
  | String "s" s => Ok (VStr s)
  | String "b" s => Ok (VBytes s)
  | String "d" s => of_option ValueError (VDate <$> py_int_str s)
  | String "o" s => of_option ValueError (VObj <$> py_int_str s)
  | _ => Raise ValueError
  end.

(** Dates of a resolution of 256, in the last of eight bytes. *)
Definition demo_pack (v : value) : res string :=
  match v with
  | VDate d => Ok ("0000000" +:+ String (ascii_of_N (Z.to_N (d mod 256))) "")
  | _ => Raise TypeError
  end.

Definition demo_unpack (s : string) : Z :=
  match String.get 7 s with Some a => Z.of_N (N_of_ascii a) | None => 0 end.

(** Floats in tenths, of which the text gives the whole part only. *)
Definition demo_float (f : Z) : string := py_str_int (f / 10).

Definition demo_float_of (s : string) : option Z := (fun n => n * 10) <$> py_int_str s.

#[export] Instance demo_codecs : Codecs := {|
  pickle_dumps := demo_dumps; pickle_loads := demo_loads; json_dumps := demo_dumps; json_loads := demo_loads;
  float_str := demo_float; float_of := demo_float_of; date_str := py_str_int; obj_str := py_str_int;
  float_int := fun _ => None; float_true := fun _ => true; obj_true := fun _ => true;
  pack_date := demo_pack; unpack_date := demo_unpack;
  validated := fun v => match v with VDate d => Ok (CDate d) | _ => Raise TypeError end;
  uuid_date := fun _ => VNone; seconds_date := fun n => n
|}.

#[local] Arguments py_str_int : simpl never.
#[local] Arguments py_int_str : simpl never.

Lemma demo_roundtrip v : demo_loads (demo_dumps v) = Ok v.
Proof. destruct v as [| [] | | | | | | ]; simpl;
  try match goal with |- context [EmptyString +:+ ?x] => change (EmptyString +:+ x) with x end;
  rewrite ?py_int_str_int; done.
Qed.

Lemma demo_unpack_pack d : demo_unpack ("0000000" +:+ String (ascii_of_N (Z.to_N (d mod 256))) "") = d mod 256.
Proof.
  unfold demo_unpack. simpl. pose proof (Z.mod_pos_bound d 256 eq_refl) as Hb.
  rewrite N_ascii_embedding by lia. lia.
Qed.

#[export] Program Instance demo_laws : CodecLaws demo_codecs := {|
  json_ok := fun _ => True; precise := fun d => 0 <= d < 256
|}.
Next Obligation. intros. apply demo_roundtrip. Qed.
Next Obligation. intros. apply demo_roundtrip. Qed.
Next Obligation.
  intros d Hd. eexists. split; [done|]. split; [done|]. cbn [unpack_date demo_codecs].
  rewrite demo_unpack_pack. by apply Z.mod_small.
Qed.
Next Obligation. done. Qed.
Next Obligation.
  intros d. eexists. split; [done|]. split; [done|]. cbn [unpack_date demo_codecs].
  rewrite demo_unpack_pack. by apply Z.mod_pos_bound.
Qed.

(** ** A class *)

(** A class of things as [Thing] makes them, with a timestamp. *)
Definition wiki_page : schema :=
  Schema "WikiPage" ["views"] [] ["special"] [] [] [] [] None (Some "date")
    {[ "views" := VInt 0 ]} None ∅ (fun _ => "UTF8Type").

Definition page_row : gmap string column :=
  {[ "title" := Column (CBytes "index") None; "views" := Column (CBytes "3") None; "special" := Column (CBytes "1") None ]}.

Definition page_values : gmap string value :=
  {[ "title" := VStr "index"; "views" := VInt 3; "special" := VBool true ]}.

(** The wiki_page loaded by the request, once whole and once its title only. *)
Definition page_world : world :=
  World {[ "p1" := page_row ]} [from_columns "p1" page_values] {[ "p1" := 0%nat ]}.

Lemma page_permanent : permanent wiki_page.
Proof. done. Qed.

Lemma page_holds : row_holds wiki_page page_row page_values.
Proof.
  split; [|vm_compute; reflexivity]. intros k c Hk. unfold page_row in Hk.
  rewrite !lookup_insert_Some, lookup_singleton_Some in Hk. naive_solver.
Qed.

Ltac check_type := unfold well_typed;
  match goal with |- has_ptype ?t _ => let x := eval vm_compute in t in change t with x end; simpl; eauto.

(** The views are counted, the title changed back, a mark removed. *)
Definition edits : list op :=
  [OSet "title" (VStr "main"); OSet "views" (VInt 4); OCommit 10; OSet "title" (VStr "index"); ODel "special"; OCommit 20;
   OSet "views" (VInt 9); ORevert].


(** The request holds a part of the wiki_page; it is asked for another part. *)
Definition partial_world : world :=
  World {[ "p1" := page_row ]}
    [Thing (Some "p1") {[ "title" := VStr "index" ]} ∅ ∅ ∅ true (Some {[ "title" ]})] {[ "p1" := 0%nat ]}.

Lemma partial_readable id : id ∈ ["p1"; "p2"] -> readable wiki_page 5 partial_world id.
Proof.
  intros [-> | [-> | []%elem_of_nil]%elem_of_cons]%elem_of_cons k c Hk.
  - change (read_row 5 None (row_of partial_world "p1")) with (read_row 5 None page_row) in Hk.
    rewrite (read_row_permanent _ _ _ _ page_holds) in Hk. destruct page_holds as [_ Hd%res_map_Ok]. specialize (Hd k).
    rewrite Hk in Hd. inversion Hd. eauto.
  - change (read_row 5 None (row_of partial_world "p2")) with (read_row 5 None ∅) in Hk.
    unfold read_row in Hk. by rewrite map_filter_empty, fmap_empty, lookup_empty in Hk.
Qed.

Lemma partial_coherent : coherent wiki_page 5 partial_world.
Proof.
  intros id l Hl. unfold partial_world in Hl. simpl in Hl. apply lookup_singleton_Some in Hl as [<- <-]. eexists. split; [done|]. split; [done|]. intros k Hk.
  apply bool_decide_eq_true in Hk. apply elem_of_singleton in Hk as ->.
  assert (read_row 5 None (row_of partial_world "p1") !! "title" = Some (CBytes "index")) as -> by (vm_compute; reflexivity).
  exists (VStr "index"). split; [vm_compute; reflexivity|]. simpl. by rewrite lookup_singleton_eq.
Qed.

Lemma by_ids_correct_witness :
  exists w' found l, by_ids wiki_page 5 ["p1"; "p2"] (Some {[ "views" ]}) partial_world = Ok (w', found) /\
    found !! "p1" = Some l /\ coherent wiki_page 5 w'.
Proof.
  destruct (by_ids_correct wiki_page 5 ["p1"; "p2"] (Some {[ "views" ]}) partial_world) as (w' & found & Hby & _ & _ & Hco & Hf & _).
  - by apply (bool_decide_unpack _).
  - apply partial_coherent.
  - apply partial_readable.
  - destruct (Hf "p1") as [l Hl]; [by left|vm_compute; discriminate|]. exists w', found, l. split; [exact Hby|split; [exact Hl|exact Hco]].
Defined.

Lemma create_then_load_witness :
  exists w', commit wiki_page 300 0 (World ∅ [new_thing (Some "p2") {[ "title" := VStr "new" ]}] ∅) = (w', Ok tt) /\
    by_id wiki_page 400 "p2" None (World (rows w') [] ∅) =
      Ok (World (rows w') [from_columns "p2" {[ "title" := VStr "new"; "date" := VDate 44 ]}] {[ "p2" := 0%nat ]}, 0%nat).
Proof.
  assert (E : created wiki_page 300 {[ "title" := VStr "new" ]} = {[ "title" := VStr "new"; "date" := VDate 44 ]})
    by (vm_compute; reflexivity).
  rewrite <- E.
  apply (create_then_load wiki_page 300 400 (World ∅ [new_thing (Some "p2") {[ "title" := VStr "new" ]}] ∅) 0 "p2"
    {[ "title" := VStr "new" ]} page_permanent).
  - apply map_Forall_singleton. check_type.
  - intros p [= <-]. vm_compute; reflexivity.
  - reflexivity.
  - reflexivity.
  - rewrite E. intros Habs%(f_equal (lookup "title")). by rewrite lookup_insert_eq in Habs.
Defined.

Lemma columns_typed_witness :
  serialize_column wiki_page "views" (VInt (-12)) = Ok (CBytes "-12") /\
  deserialize_column wiki_page "views" (CBytes "-12") = Ok (VInt (-12)).
Proof.
  destruct (columns_typed wiki_page "views") as [_ Hrt]. destruct (Hrt (VInt (-12))) as (c & Hs & Hd); [vm_compute; eauto|].
  assert (Hc : serialize_column wiki_page "views" (VInt (-12)) = Ok (CBytes "-12")) by (vm_compute; reflexivity).
  rewrite Hc in Hs. injection Hs as <-. split; [exact Hc|exact Hd].
Defined.

(** ** Behaviours of the code as written *)

(** The time to live set for a write that changes nothing stays and is used
    for a later write of the column. *)
Example unused_ttl_stays :
  let w := World {[ "p1" := page_row ]} [from_columns "p1" page_values] ∅ in
  let w1 := on_heap 0 (fun t => match set_ttl "views" 10 (setattr wiki_page "views" (VInt 3) t) with Ok t => t | _ => t end) w in
  let w2 := (commit wiki_page 0 0 w1).1 in
  let w3 := (commit wiki_page 1000 0 (on_heap 0 (setattr wiki_page "views" (VInt 4)) w2)).1 in
  rows w2 = rows w /\ row_of w3 "p1" !! "views" = Some (Column (CBytes "4") (Some 1010)).
Proof. split; vm_compute; reflexivity. Qed.

(** A partial object cannot be compared with itself. *)
Example partial_not_comparable :
  eq_things (Thing (Some "p1") ∅ ∅ ∅ ∅ true (Some {[ "title" ]})) (Thing (Some "p1") ∅ ∅ ∅ ∅ true (Some {[ "title" ]}))
    = Raise ValueError.
Proof. vm_compute. reflexivity. Qed.

(** A destroyed thing is still found through the cache. *)
Example destroyed_still_found :
  let w := destroy 0 page_world in
  row_of w "p1" = ∅ /\ by_id wiki_page 5 "p1" None w = Ok (w, 0%nat).
Proof. split; vm_compute; reflexivity. Qed.

(** A deleted attribute has no value, until the commit gives it its default
    back. *)
Example default_returns :
  let w := on_heap 0 (delitem "views") page_world in
  ((fun t => getattr wiki_page t "views") <$> heap w !! 0%nat) = Some (Raise AttributeError) /\
  ((fun t => getattr wiki_page t "views") <$> heap (commit wiki_page 5 0 w).1 !! 0%nat) = Some (Ok (VInt 0)).
Proof. split; vm_compute; reflexivity. Qed.
End TdbExamples.
