(* ===== verification/TdbQuery.v ===== *)
(** * Queries across rows of columns

    [ColumnQuery] and [MultiColumnQuery] of lib/db/tdb_cassandra.py: the
    columns of rows in their order, fetched in chunks, and the merge of several
    such queries. *)

From S2P Require Import Prelude.

Module TdbQuery.

Section columns.
(** The names of columns, in the order of the comparator. *)
Context {K V : Type} `{EqDecision K} (leb : K -> K -> bool).

Notation column := (K * V)%type.

(** ** Slices *)

Definition not_after (reversed : bool) (a b : K) : bool := if reversed then leb b a else leb a b.

(** What the driver returns of a row: from [column_start] to [column_finish],
    both included, an empty bound being none; [row] is in ascending order. *)
Definition in_slice (reversed : bool) (start finish : option K) (c : column) : bool :=
  match start with Some s => not_after reversed s c.1 | None => true end &&
  match finish with Some f => not_after reversed c.1 f | None => true end.

Definition in_order (reversed : bool) (row : list column) : list column := if reversed then reverse row else row.

Definition slice (reversed : bool) (start finish : option K) (count : nat) (row : list column) : list column :=
  take count (List.filter (in_slice reversed start finish) (in_order reversed row)).

(** [dict.update]: a name that is there keeps its place. *)
Fixpoint update_one (c : column) (d : list column) : list column :=
  match d with
  | [] => [c]
  | x :: d => if decide (x.1 = c.1) then c :: d else x :: update_one c d
  end.

Definition updated (d d' : list column) : list column := foldl (fun d c => update_one c d) d d'.

(** The columns of the rows returned: those of one row as they are, those of
    several combined and sorted. *)
Definition combined (reversed : bool) (r : list (list column)) : list column :=
  match r with
  | [d] => d
  | _ => isort (fun a b => not_after reversed a.1 b.1) (foldl updated [] r)
  end.

(** The start of the slice is taken off; without it, a reversed query takes
    off its first column. *)
Definition drop_start (reversed : bool) (start : option K) (columns : list column) : list column :=
  match start with
  | None => columns
  | Some s =>
      if bool_decide (s ∈ columns.*1) then List.filter (fun c => negb (bool_decide (c.1 = s))) columns
      else if reversed then tail columns else columns
  end.

Definition chunk_size : nat := 100.

(** [ColumnQuery.__iter__]: the columns given to [column_to_obj]; [fuel] bounds
    the chunks. *)
Fixpoint column_query (rows : list (list column)) (finish : option K) (reversed : bool) (limit fuel retrieved : nat)
    (start : option K) : list column :=
  match fuel with
  | 0%nat => []
  | S fuel =>
      if (retrieved <? limit)%nat then
        let count := (Nat.min chunk_size (limit - retrieved) + match start with Some _ => 1 | None => 0 end)%nat in
        match List.filter (fun d => negb (bool_decide (length d = 0%nat))) (slice reversed start finish count <$> rows) with
        | [] => []
        | r =>
            let columns := drop_start reversed start (combined reversed r) in
            match last columns with
            | None => []
            | Some c => columns ++ column_query rows finish reversed limit fuel (retrieved + chunk_size) (Some c.1)
            end
        end
      else []
  end.

Definition run_query (rows : list (list column)) (start finish : option K) (reversed : bool) (limit : nat) : list column :=
  column_query rows finish reversed limit (S limit) 0 start.

(** What [yield_column_names] gives for a chunk: names zipped with the
    objects. *)
Definition with_names {A} (columns : list column) (objs : list A) : list (K * A) := zip columns.*1 objs.

(** ** Several queries *)

Section merge.
Context {T : Type} (key_leb : T -> T -> bool).

Definition top_leb (a b : T * list T) : bool := key_leb a.1 b.1.

(** The first item of each query that has one, sorted. *)
Definition top_items (gens : list (list T)) : list (T * list T) :=
  isort top_leb (omap (M := list) (fun gen : list T => match gen with [] => None | x :: gen => Some (x, gen) end) gens).

(** The loop of [MultiColumnQuery.__iter__]. *)
Fixpoint merge_loop (num : nat) (tops : list (T * list T)) : list T :=
  match num, tops with
  | S num, (x, gen) :: tops =>
      x :: merge_loop num match gen with [] => tops | y :: gen => isort top_leb (tops ++ [(y, gen)]) end
  | _, _ => []
  end.

Definition multi_column_query (num : nat) (gens : list (list T)) : list T := merge_loop num (top_items gens).
End merge.

(** ** The columns of one row *)

Hypothesis leb_total : forall a b, leb a b = true \/ leb b a = true.
Hypothesis leb_antisym : forall a b, leb a b = true -> leb b a = true -> a = b.
Hypothesis leb_trans : forall a b c, leb a b = true -> leb b c = true -> leb a c = true.

Definition strictly (reversed : bool) (a b : column) : Prop := not_after reversed a.1 b.1 = true /\ a.1 <> b.1.

Lemma not_after_antisym reversed a b : not_after reversed a b = true -> not_after reversed b a = true -> a = b.
Proof. destruct reversed; simpl; auto. Qed.

Lemma not_after_refl reversed a : not_after reversed a a = true.
Proof. destruct reversed, (leb_total a a); done. Qed.

(** The columns between two bounds, in the order of the query. *)
Definition until_finish (reversed : bool) (finish : option K) (row : list column) : list column :=
  List.filter (in_slice reversed None finish) (in_order reversed row).

Lemma filter_all {A} (f : A -> bool) l : (forall x, x ∈ l -> f x = true) -> List.filter f l = l.
Proof.
  induction l as [|x l IH]; intros Hf; simpl; [done|]. rewrite Hf by left. f_equal. apply IH. intros y Hy. apply Hf. by right.
Qed.

Lemma filter_none {A} (f : A -> bool) l : (forall x, x ∈ l -> f x = false) -> List.filter f l = [].
Proof.
  induction l as [|x l IH]; intros Hf; simpl; [done|]. rewrite Hf by left. apply IH. intros y Hy. apply Hf. by right.
Qed.

Lemma filter_and {A} (f g : A -> bool) l : List.filter (fun x => f x && g x) l = List.filter f (List.filter g l).
Proof.
  induction l as [|x l IH]; simpl; [done|]. destruct (g x); simpl; [|by rewrite andb_false_r].
  rewrite andb_true_r. by destruct (f x); rewrite IH.
Qed.

Lemma filter_from pre s v post reversed :
  StronglySorted (strictly reversed) (pre ++ (s, v) :: post) ->
  List.filter (fun c => not_after reversed s c.1) (pre ++ (s, v) :: post) = (s, v) :: post /\
  forall c, c ∈ post -> c.1 <> s.
Proof.
  intros Hs. apply StronglySorted_app in Hs as (Hpre & _ & Hs). apply StronglySorted_inv in Hs as [_ Hpost].
  rewrite Forall_forall in Hpost. split; [|intros c Hc; destruct (Hpost c Hc); simpl in *; congruence].
  rewrite List.filter_app. simpl. rewrite not_after_refl, filter_none, filter_all; [done|..].
  - intros c Hc. by destruct (Hpost c Hc).
  - intros c Hc. destruct (Hpre c (s, v)) as [Hle Hne]; [done|by left|]. simpl in Hle, Hne.
    apply not_true_is_false. intros E. destruct Hne. by eapply not_after_antisym.
Qed.

(** What is left of the row at a start. *)
Definition left_at (reversed : bool) (finish start : option K) (row rest : list column) : Prop :=
  match start with
  | None => until_finish reversed finish row = rest
  | Some s => exists pre v, until_finish reversed finish row = pre ++ (s, v) :: rest
  end.

Lemma slice_left reversed finish start row rest count :
  StronglySorted (strictly reversed) (until_finish reversed finish row) -> left_at reversed finish start row rest ->
  drop_start reversed start
    (slice reversed start finish (count + match start with Some _ => 1 | None => 0 end) row) = take count rest /\
  (start = None \/ slice reversed start finish (count + match start with Some _ => 1 | None => 0 end) row <> []).
Proof.
  intros Hs Hl. unfold slice. destruct start as [s|]; simpl in *.
  - destruct Hl as (pre & v & Hl). rewrite Hl in Hs. destruct (filter_from _ _ _ _ _ Hs) as (Hf & Hn).
    assert (List.filter (in_slice reversed (Some s) finish) (in_order reversed row) = (s, v) :: rest) as ->.
    { rewrite <- Hf, <- Hl. unfold until_finish. rewrite <- filter_and. done. }
    rewrite Nat.add_1_r. simpl. split; [|by right]. rewrite bool_decide_true by left.
    rewrite bool_decide_true by done. simpl. apply filter_all. intros c Hc.
    rewrite bool_decide_false; [done|]. apply Hn. apply elem_of_take in Hc as (i & Hi & _).
    by eapply list_elem_of_lookup_2.
  - rewrite Nat.add_0_r. unfold until_finish in Hl. rewrite Hl. by split; [|left].
Qed.

Lemma query_left reversed finish limit row : forall fuel retrieved start rest,
  StronglySorted (strictly reversed) (until_finish reversed finish row) -> left_at reversed finish start row rest ->
  (limit <= retrieved + chunk_size * fuel)%nat ->
  column_query [row] finish reversed limit fuel retrieved start = take (limit - retrieved) rest.
Proof.
  intros fuel. induction fuel as [|fuel IH]; intros retrieved start rest Hs Hl Hfuel; cbn [column_query]; cbv zeta.
  { by replace (limit - retrieved)%nat with 0%nat by lia. }
  destruct (Nat.ltb_spec retrieved limit) as [Hlt|Hge]; [|by replace (limit - retrieved)%nat with 0%nat by lia].
  set (count := Nat.min chunk_size (limit - retrieved)).
  destruct (slice_left reversed finish start row rest count Hs Hl) as [Hdrop Hne].
  set (d := slice reversed start finish _ row) in *.
  change (slice reversed start finish (count + match start with Some _ => 1 | None => 0 end) <$> [row]) with [d].
  cbn [List.filter]. destruct (bool_decide (length d = 0%nat)) eqn:Ed; cbn [negb combined].
  { apply bool_decide_eq_true, nil_length_inv in Ed. destruct Hne as [-> | Hne]; [|done]. rewrite Ed in Hdrop. simpl in Hdrop.
    destruct rest; [by rewrite take_nil|]. unfold count, chunk_size in Hdrop. by destruct (limit - retrieved)%nat eqn:?; [lia|]. }
  rewrite Hdrop. destruct (last (take count rest)) as [c|] eqn:Elast.
  - assert (Hsplit : exists init, take count rest = init ++ [c]).
    { apply last_Some in Elast. exact Elast. }
    destruct Hsplit as [init Hinit]. rewrite (IH (retrieved + chunk_size)%nat (Some c.1) (drop count rest)).
    + unfold count. destruct (Nat.min_spec chunk_size (limit - retrieved)) as [[? ->]|[? ->]].
      * rewrite <- (take_drop chunk_size (take (limit - retrieved) rest)), take_take, skipn_firstn_comm.
        rewrite Nat.min_l by lia. f_equal. f_equal. lia.
      * replace (limit - (retrieved + chunk_size))%nat with 0%nat by lia. simpl. by rewrite app_nil_r.
    + done.
    + simpl. destruct start as [s|]; simpl in Hl.
      * destruct Hl as (pre & v & Hl). exists (pre ++ (s, v) :: init), c.2. rewrite Hl, <- app_assoc. simpl. do 2 f_equal.
        rewrite <- (take_drop count rest) at 1. rewrite Hinit, <- app_assoc. by destruct c.
      * exists init, c.2. rewrite Hl. rewrite <- (take_drop count rest) at 1. rewrite Hinit, <- app_assoc. by destruct c.
    + lia.
  - apply last_None in Elast. destruct rest; [by rewrite take_nil|]. exfalso. unfold count, chunk_size in Elast.
    destruct (limit - retrieved)%nat eqn:?; [lia|]. done.
Qed.

Lemma sorted_filter {A} (R : A -> A -> Prop) (f : A -> bool) l : StronglySorted R l -> StronglySorted R (List.filter f l).
Proof.
  induction 1 as [|x l Hl IH Hx]; simpl; [constructor|]. destruct (f x); [|done]. constructor; [done|].
  rewrite Forall_forall in Hx |- *. intros y [_ Hy]%elem_of_filter_bool. auto.
Qed.

Lemma sorted_impl {A} (R R' : A -> A -> Prop) l : (forall x y, R x y -> R' x y) -> StronglySorted R l -> StronglySorted R' l.
Proof.
  intros HR. induction 1 as [|x l Hl IH Hx]; constructor; [done|]. eapply Forall_impl; [exact Hx|auto].
Qed.

Lemma sorted_reverse {A} (R : A -> A -> Prop) l : StronglySorted R l -> StronglySorted (flip R) (reverse l).
Proof.
  induction 1 as [|x l Hl IH Hx]; [constructor|]. rewrite reverse_cons. apply StronglySorted_app_2.
  - intros y z Hy ->%list_elem_of_singleton. rewrite elem_of_reverse in Hy. rewrite Forall_forall in Hx. by apply Hx.
  - done.
  - by repeat constructor.
Qed.

(** A query across one row, fetched in chunks of a hundred, gives the
    columns of the row in their order, from the one after the given start to
    the finish, up to the limit: none twice, none left out at the chunk
    boundaries. *)
Theorem column_query_correct row start finish reversed limit rest :
  StronglySorted (fun a b => leb a.1 b.1 = true /\ a.1 <> b.1) row -> left_at reversed finish start row rest ->
  run_query [row] start finish reversed limit = take limit rest.
Proof.
  intros Hrow Hl. unfold run_query.
  assert (Hs : StronglySorted (strictly reversed) (until_finish reversed finish row)).
  2: { rewrite (query_left reversed finish limit row (S limit) 0 start rest Hs Hl) by (unfold chunk_size; lia).
       by rewrite Nat.sub_0_r. }
  unfold until_finish. apply sorted_filter. destruct reversed; simpl; [|exact Hrow].
  eapply sorted_impl; [|exact (sorted_reverse _ _ Hrow)]. intros a b [Hle Hne]. split; [exact Hle|congruence].
Qed.
End columns.

(** ** The merge of several queries *)

Section merged.
Context {T : Type} (key_leb : T -> T -> bool).
Hypothesis key_total : forall x y, key_leb x y = false -> key_leb y x = true.
Hypothesis key_trans : forall x y z, key_leb x y = true -> key_leb y z = true -> key_leb x z = true.

Notation sorted := (StronglySorted (fun x y => key_leb x y = true)).

(** What the tops still hold. *)
Definition held (tops : list (T * list T)) : list T := tops ≫= fun t => t.1 :: t.2.

Lemma held_perm tops tops' : tops ≡ₚ tops' -> held tops ≡ₚ held tops'.
Proof. intros Hp. unfold held. by rewrite Hp. Qed.

Lemma sort_tops tops : StronglySorted (fun a b => top_leb key_leb a b = true) (isort (top_leb key_leb) tops).
Proof.
  apply (isort_sorted_on _ (fun _ => True)); [|intros x y z _ _ _; apply key_trans|done]. intros x y. apply key_total.
Qed.

Lemma merge_loop_spec tops :
  StronglySorted (fun a b => top_leb key_leb a b = true) tops -> (forall t, t ∈ tops -> sorted (t.1 :: t.2)) ->
  exists l, l ≡ₚ held tops /\ sorted l /\ forall num, merge_loop key_leb num tops = take num l.
Proof.
  remember (length (held tops)) as n eqn:Hn. revert tops Hn. induction n as [|n IH]; intros tops Hn Hs Hg.
  { destruct tops as [|[x gen] tops]; [|done]. exists []. split_and!; [done|constructor|]. by intros [|num]. }
  destruct tops as [|[x gen] tops]; [done|]. apply StronglySorted_inv in Hs as [Hs Hx]. rewrite Forall_forall in Hx.
  pose proof (Hg (x, gen) ltac:(by left)) as Hgen. simpl in Hgen. apply StronglySorted_inv in Hgen as [Hgen Hxgen].
  rewrite Forall_forall in Hxgen.
  set (next := match gen with [] => tops | y :: gen => isort (top_leb key_leb) (tops ++ [(y, gen)]) end).
  assert (Hheld : held next ≡ₚ gen ++ held tops).
  { unfold next. destruct gen as [|y gen]; [done|]. rewrite (held_perm _ _ (isort_perm _ _)). unfold held at 1.
    rewrite bind_app. simpl. rewrite app_nil_r. fold (held tops). by rewrite Permutation_app_comm. }
  assert (Hnext : forall t, t ∈ next -> sorted (t.1 :: t.2)).
  { intros t. unfold next. destruct gen as [|y gen]; [intros Ht; apply Hg; by right|].
    rewrite elem_of_isort, elem_of_app, list_elem_of_singleton. intros [Ht| ->]; [apply Hg; by right|done]. }
  assert (Hsn : StronglySorted (fun a b => top_leb key_leb a b = true) next).
  { unfold next. destruct gen; [done|apply sort_tops]. }
  destruct (IH next) as (l & Hp & Hsl & Hl); [|done|done|].
  { assert (Hlen : length (held ((x, gen) :: tops)) = S (length gen + length (held tops)))
      by (unfold held; simpl; by rewrite length_app).
    rewrite Hheld, length_app. lia. }
  exists (x :: l). split_and!.
  - rewrite Hp, Hheld. done.
  - constructor; [done|]. rewrite Forall_forall. intros y Hy. rewrite Hp, Hheld in Hy. apply elem_of_app in Hy as [Hy|Hy]; [auto|].
    unfold held in Hy. apply list_elem_of_bind in Hy as ([z g] & Hin & Ht). simpl in Hin.
    specialize (Hx _ Ht). unfold top_leb in Hx. simpl in Hx. apply elem_of_cons in Hin as [-> | Hin]; [done|].
    pose proof (Hg (z, g) ltac:(by right)) as Hzg. apply StronglySorted_inv in Hzg as [_ Hzg]. rewrite Forall_forall in Hzg.
    eapply key_trans; [exact Hx|]. by apply Hzg.
  - intros [|num]; [done|]. simpl. by rewrite <- Hl.
Qed.

(** Queries merged by a sort key, each giving its items in the order of the
    key, give together the first [num] of all their items in that order. *)
Theorem multi_column_query_correct num gens :
  (forall gen, gen ∈ gens -> sorted gen) ->
  exists l, l ≡ₚ concat gens /\ sorted l /\ multi_column_query key_leb num gens = take num l.
Proof.
  intros Hg. destruct (merge_loop_spec (top_items key_leb gens)) as (l & Hp & Hs & Hl).
  - apply sort_tops.
  - intros t. unfold top_items. rewrite elem_of_isort, list_elem_of_omap. intros ([|x gen] & Hin & [= <-]).
    by apply Hg.
  - exists l. split_and!; [|done|apply Hl]. rewrite Hp. unfold top_items. rewrite (held_perm _ _ (isort_perm _ _)).
    clear. induction gens as [|[|x gen] gens IH]; simpl; [done|done|]. f_equiv. f_equiv. exact IH.
Qed.
End merged.

(** ** Queries on concrete rows *)

Definition numbers (from n : nat) : list (Z * unit) := (fun i => (Z.of_nat i, tt)) <$> seq from n.

Lemma numbers_sorted from n : StronglySorted (fun a b => Z.leb a.1 b.1 = true /\ a.1 <> b.1) (numbers from n).
Proof.
  revert from. induction n as [|n IH]; intros from; [constructor|]. constructor; [apply (IH (S from))|].
  rewrite Forall_forall. intros c (i & -> & Hi%elem_of_seq)%list_elem_of_fmap. simpl. lia.
Qed.

(** A hundred and fifty columns from the tenth on, in two chunks. *)
Lemma column_query_correct_witness :
  run_query Z.leb [numbers 1 200] (Some 10) None false 150 = numbers 11 150.
Proof.
  rewrite (column_query_correct Z.leb ltac:(lia) ltac:(lia) (numbers 1 200) (Some 10) None false 150 (numbers 11 190)).
  - vm_compute. reflexivity.
  - apply numbers_sorted.
  - exists (numbers 1 9), tt. vm_compute. reflexivity.
Defined.

Lemma multi_column_query_correct_witness :
  exists l, l ≡ₚ [1; 4; 2; 3; 9] /\ multi_column_query Z.leb 3 [[1; 4]; []; [2; 3; 9]] = take 3 l.
Proof.
  destruct (multi_column_query_correct Z.leb ltac:(lia) ltac:(lia) 3 [[1; 4]; []; [2; 3; 9]]) as (l & Hp & _ & Hl).
  - intros gen Hin. repeat (apply elem_of_cons in Hin as [-> | Hin]; [repeat constructor|]). by apply elem_of_nil in Hin.
  - exists l. split; [exact Hp|exact Hl].
Defined.

(** Across several rows a chunk starts after the last column of the one
    before, in whichever row that was: of rows of which one precedes the other
    only the first hundred columns of each are seen. *)
Example rows_lose_columns :
  let got := run_query Z.leb [numbers 1 120; numbers 121 120] None None false 1000 in
  length got = 220%nat /\ bool_decide ((110, tt) ∈ got) = false.
Proof. vm_compute. done. Qed.

(** A reversed query that starts after a column which is gone loses the first
    column it should give. *)
Example gone_start_loses_column :
  run_query Z.leb [[(1, tt); (2, tt); (4, tt)]] (Some 3) None true 10 = [(1, tt)].
Proof. vm_compute. done. Qed.

(** When an object is missing, names are zipped with the objects of others. *)
Example names_misaligned :
  with_names [(1, "a"); (2, "gone"); (3, "c")] ["object a"; "object c"] = [(1, "object a"); (2, "object c")].
Proof. done. Qed.
End TdbQuery.
