(* ===== verification/Saves.v ===== *)
(** * Relations by account: saved and hidden things

    The relations of lib/db/tdb_cassandra.py ([DenormalizedRelation]) with the
    last-modified times that spare lookups (models/last_modified.py), and the
    saves and hides of models/link.py, which keep a relation, the listings of
    cached queries, and the views of the categories and subreddits a user has
    saved in.  A listing is the set of the names it holds. *)

From S2P Require Import Prelude.
From Stdlib Require Import Ascii.

Module Saves.

(** ** The stores *)

(** A column of a relation: its value and when it expires. *)
Record relcol := RelCol { r_value : string; r_expires : option Z }.

(** The cached queries of a user: what is saved, by subreddit or in any
    ("none"), and by category; what is hidden. *)
Inductive qkey :=
  | QSaved (user sr : string)
  | QCategorized (user sr category : string)
  | QHidden (user : string).

#[export] Instance qkey_eq_dec : EqDecision qkey.
Proof. solve_decision. Defined.
#[export] Program Instance qkey_countable : Countable qkey :=
  inj_countable' (fun k => match k with
    | QSaved u s => inl (inl (u, s))
    | QCategorized u s c => inl (inr (u, s, c))
    | QHidden u => inr u
    end) (fun x => match x with
    | inl (inl (u, s)) => QSaved u s
    | inl (inr (u, s, c)) => QCategorized u s c
    | inr u => QHidden u
    end) _.
Next Obligation. by intros []. Qed.

Notation listings := (gmap qkey (gset string)).
Notation view := (gmap string (gset string)).

(** A class of relations with its views and queries; the last-modified times
    are kept by user and name. *)
Record stores := Stores {
  rel : gmap (string * string) relcol;
  stamps : gmap (string * string) Z;
  queries : listings;
  by_category : view;
  by_subreddit : view
}.

Record relation := Relation {
  last_modified_name : option string;
  write_last_modified : bool;
  rel_ttl : option Z
}.

Definition LinkSavesByAccount : relation := Relation (Some "Save") true None.
Definition CommentSavesByAccount : relation := Relation (Some "CommentSave") true None.
Definition LinkHidesByAccount : relation := Relation (Some "Hide") true None.

Section saves.
(** Things by their id: the subreddit and the creation time of each; and the
    resolution in which dates are stored. *)
Context (sr_of : string -> string) (date_of : string -> Z) (trunc : Z -> Z).

(** ** Relations *)

(** [LastModified.touch] and [get]. *)
Definition touch (now : Z) (user name : string) (s : gmap (string * string) Z) : gmap (string * string) Z :=
  <[(user, name) := trunc now]> s.

Definition with_rel (r : gmap (string * string) relcol) (st : stores) : stores :=
  Stores r (stamps st) (queries st) (by_category st) (by_subreddit st).

(** [DenormalizedRelation.create]: the columns, the views, the time. *)
Definition create (cls : relation) (value : string -> string) (views : list string -> stores -> stores)
    (now : Z) (user : string) (things : list string) (st : stores) : stores :=
  let rel' := foldl (fun r x => <[(user, x) := RelCol (value x) (Z.add now <$> rel_ttl cls)]> r) (rel st) things in
  let st := views things (with_rel rel' st) in
  if write_last_modified cls then
    Stores (rel st) (touch now user (default "" (last_modified_name cls)) (stamps st)) (queries st) (by_category st) (by_subreddit st)
  else st.

(** [destroy], with the views given what was passed on to them. *)
Definition destroy (views : list string -> stores -> stores) (user : string) (things : list string) (st : stores) : stores :=
  views things (with_rel (foldl (fun r x => delete (user, x) r) (rel st) things) st).

(** The columns of a user's row among those asked for. *)
Definition related (now : Z) (user : string) (things : list string) (st : stores) : gmap string string :=
  list_to_map (omap (M := list) (fun x =>
    match rel st !! (user, x) with
    | Some c => if match r_expires c with Some t => now <? t | None => true end then Some (x, r_value c) else None
    | None => None
    end) things).

(** The things a lookup asks for: those created before the last relation. *)
Definition asked (cls : relation) (user : string) (things : list string) (st : stores) : list string :=
  match last_modified_name cls with
  | Some name =>
      match stamps st !! (user, name) with
      | Some t => List.filter (fun x => date_of x <=? t) things
      | None => []
      end
  | None => things
  end.

(** [fast_query] of a list, and of a single thing, where nothing left to ask
    for is the empty dictionary and not [NotFound]. *)
Definition fast_query (cls : relation) (now : Z) (user : option string) (things : list string) (st : stores)
  : gmap string string :=
  match user with
  | None => ∅
  | Some user => related now user (asked cls user things st) st
  end.

Inductive single := NoRelations | Value (v : string).

Definition fast_query_one (cls : relation) (now : Z) (user : option string) (x : string) (st : stores) : res single :=
  match user with
  | None => Ok NoRelations
  | Some user =>
      match asked cls user [x] st with
      | [] => Ok NoRelations
      | things => match related now user things st !! x with Some v => Ok (Value v) | None => Raise NotFound end
      end
  end.

(** ** Listings *)

Definition members (l : listings) (q : qkey) : gset string := default ∅ (l !! q).

(** The loops of [_savehide] and [_unsavehide] over the cached queries. *)
Definition insert_all (qs : string -> list qkey) (things : list string) (l : listings) : listings :=
  foldl (fun l x => foldl (fun l q => <[q := {[x]} ∪ members l q]> l) l (qs x)) l things.

Definition delete_all (qs : string -> list qkey) (things : list string) (l : listings) : listings :=
  foldl (fun l x => foldl (fun l q => <[q := members l q ∖ {[x]}]> l) l (qs x)) l things.

Definition with_queries (l : listings) (st : stores) : stores :=
  Stores (rel st) (stamps st) l (by_category st) (by_subreddit st).

(** [_SaveHideByAccount._savehide] and [_unsavehide]. *)
Definition savehide (cls : relation) (value : string -> string) (views : list string -> stores -> stores)
    (qs : string -> list qkey) (now : Z) (user : string) (things : list string) (st : stores) : stores :=
  create cls value views now user things (with_queries (insert_all qs things (queries st)) st).

Definition unsavehide (views : list string -> stores -> stores) (qs : string -> list qkey)
    (user : string) (things : list string) (st : stores) : stores :=
  destroy views user things (with_queries (delete_all qs things (queries st)) st).

(** ** The views of saved things *)

Definition shown (v : view) (user : string) : gset string := default ∅ (v !! user).

(** [_cached_queries_category]; an empty category is none. *)
Definition cached_queries (user : string) (category : option string) (x : string) : list qkey :=
  [QSaved user "none"; QSaved user (sr_of x)] ++
  match category with
  | Some c => if String.eqb c "" then [] else [QCategorized user "none" c; QCategorized user (sr_of x) c]
  | None => []
  end.

(** [_ThingSavesBySubreddit.create] and [_ThingSavesByCategory.create]. *)
Definition add_views (user : string) (category : option string) (things : list string) (st : stores) : stores :=
  Stores (rel st) (stamps st) (queries st)
    (match category with
     | Some c => if String.eqb c "" then by_category st
                 else foldl (fun v _ => <[user := {[c]} ∪ shown v user]> v) (by_category st) things
     | None => by_category st
     end)
    (foldl (fun v x => <[user := {[sr_of x]} ∪ shown v user]> v) (by_subreddit st) things).

(** Their [destroy]: what no listing holds any more goes. *)
Definition is_empty (st : stores) (q : qkey) : bool := bool_decide (members (queries st) q = ∅).

Definition drop_views (user : string) (categories : gmap string string) (things : list string) (st : stores) : stores :=
  Stores (rel st) (stamps st) (queries st)
    (foldl (fun v c =>
      if String.eqb c "" || negb (is_empty st (QCategorized user "none" c)) then v
      else <[user := shown v user ∖ {[c]}]> v) (by_category st) (elements (map_img (SA := gset string) categories)))
    (foldl (fun v s =>
      if negb (is_empty st (QSaved user s)) then v else <[user := shown v user ∖ {[s]}]> v) (by_subreddit st)
      (remove_dups (sr_of <$> things))).

(** ** Saving *)

(** [str.lower]. *)
Definition lower_ascii (a : ascii) : ascii :=
  let n := N_of_ascii a in if (65 <=? n)%N && (n <=? 90)%N then ascii_of_N (n + 32) else a.

Fixpoint lower (s : string) : string :=
  match s with EmptyString => EmptyString | String a s => String (lower_ascii a) (lower s) end.

(** [_ThingSavesByAccount._unsavehide]. *)
Definition unsavehide_categories (user : string) (categories : gmap string string) (things : list string) (st : stores)
  : stores :=
  unsavehide (drop_views user categories) (fun x => cached_queries user (categories !! x) x) user things st.

(** [oldcategories.get((user, thing)) or None]. *)
Definition old_category (categories : gmap string string) (x : string) : option string :=
  match categories !! x with Some c => if String.eqb c "" then None else Some c | None => None end.

(** [_remove_from_category_listings]. *)
Definition remove_from_category_listings (cls : relation) (now : Z) (user : string) (things : list string)
    (category : option string) (st : stores) : stores :=
  let oldcategories := fast_query cls now (Some user) things st in
  let changedthings := List.filter (fun x => negb (bool_decide (old_category oldcategories x = category))) things in
  unsavehide_categories user oldcategories changedthings st.

(** [_save]; [value_for] is the category or the empty text. *)
Definition save_category (category : option string) : option string :=
  match category with Some c => if String.eqb c "" then None else Some (lower c) | None => None end.

Definition save (cls : relation) (now : Z) (user : string) (things : list string) (category : option string) (st : stores)
  : stores :=
  let category := save_category category in
  let st := remove_from_category_listings cls now user things category st in
  savehide cls (fun _ => default "" category) (add_views user category) (cached_queries user category) now user things st.

(** [_unsave]. *)
Definition unsave (cls : relation) (now : Z) (user : string) (things : list string) (st : stores) : stores :=
  unsavehide_categories user (fast_query cls now (Some user) things st) things st.

(** [_hide] and [_unhide], without views. *)
Definition hide (cls : relation) (now : Z) (user : string) (things : list string) (st : stores) : stores :=
  savehide cls (fun _ => "") (fun _ st => st) (fun _ => [QHidden user]) now user things st.

Definition unhide (user : string) (things : list string) (st : stores) : stores :=
  unsavehide (fun _ st => st) (fun _ => [QHidden user]) user things st.

(** [get_saved_values] and [get_saved_categories]. *)
Definition get_saved_categories (user : string) (st : stores) : gset string := shown (by_category st) user.

Definition get_saved_subreddits (user : string) (st : stores) : gset string := shown (by_subreddit st) user.

(** ** Sequences of saves *)

Inductive event :=
  | Save (user : string) (things : list string) (category : option string)
  | Unsave (user : string) (things : list string).

Definition apply_event (cls : relation) (st : stores) (e : Z * event) : stores :=
  match e.2 with
  | Save user things category => save cls e.1 user things category st
  | Unsave user things => unsave cls e.1 user things st
  end.

Definition no_stores : stores := Stores ∅ ∅ ∅ ∅ ∅.
End saves.
End Saves.
