(* ===== verification/SavesProps.v ===== *)
(** * Saved things: properties

    The listings and the views of what a user has saved follow the relation,
    over any sequence of saves and removals; the last-modified times never
    hide a relation from a lookup. *)

From S2P Require Import Prelude Saves.

Module SavesProps.
Import Saves.

(** ** Loops over sets kept in maps *)

Lemma members_insert l q X q' : members (<[q := X]> l) q' = if decide (q' = q) then X else members l q'.
Proof.
  unfold members. case_decide as Hq; [subst; by rewrite lookup_insert_eq|by rewrite lookup_insert_ne].
Qed.

Lemma shown_insert (v : gmap string (gset string)) u X u' : shown (<[u := X]> v) u' = if decide (u' = u) then X else shown v u'.
Proof.
  unfold shown. case_decide as Hq; [subst; by rewrite lookup_insert_eq|by rewrite lookup_insert_ne].
Qed.

Lemma elem_of_insert_all qs things l q x :
  x ∈ members (insert_all qs things l) q <-> x ∈ members l q \/ (x ∈ things /\ q ∈ qs x).
Proof.
  unfold insert_all. revert l. induction things as [|y things IH]; intros l; simpl; [set_solver|].
  rewrite IH. clear IH. enough (forall keys l, x ∈ members (foldl (fun l q => <[q := {[y]} ∪ members l q]> l) l keys) q <->
    x ∈ members l q \/ (x = y /\ q ∈ keys)) as ->.
  { rewrite elem_of_cons. naive_solver. }
  clear l. induction keys as [|k keys IH]; intros l; simpl; [set_solver|].
  rewrite IH, members_insert, elem_of_cons. case_decide; set_solver.
Qed.

Lemma elem_of_delete_all qs things l q x :
  x ∈ members (delete_all qs things l) q <-> x ∈ members l q /\ ~ (x ∈ things /\ q ∈ qs x).
Proof.
  unfold delete_all. revert l. induction things as [|y things IH]; intros l; simpl; [set_solver|].
  rewrite IH. clear IH. enough (forall keys l, x ∈ members (foldl (fun l q => <[q := members l q ∖ {[y]}]> l) l keys) q <->
    x ∈ members l q /\ ~ (x = y /\ q ∈ keys)) as ->.
  { rewrite elem_of_cons. naive_solver. }
  clear l. induction keys as [|k keys IH]; intros l; simpl; [set_solver|].
  rewrite IH, members_insert, elem_of_cons. case_decide; set_solver.
Qed.

Lemma elem_of_shown_drop (keep : string -> bool) u cs v u' y :
  y ∈ shown (foldl (fun v c => if keep c then v else <[u := shown v u ∖ {[c]}]> v) v cs) u' <->
  y ∈ shown v u' /\ ~ (u' = u /\ y ∈ cs /\ keep y = false).
Proof.
  revert v. induction cs as [|c cs IH]; intros v; simpl; [set_solver|]. rewrite IH, elem_of_cons.
  destruct (keep c) eqn:Ek; [naive_solver congruence|]. rewrite shown_insert. case_decide; set_solver.
Qed.

Lemma elem_of_shown_add {A} (f : A -> string) u (things : list A) v u' y :
  y ∈ shown (foldl (fun v x => <[u := {[f x]} ∪ shown v u]> v) v things) u' <->
  y ∈ shown v u' \/ (u' = u /\ y ∈ f <$> things).
Proof.
  revert v. induction things as [|x things IH]; intros v; [set_solver|]. cbn [foldl]. rewrite IH, fmap_cons, elem_of_cons, shown_insert.
  case_decide; set_solver.
Qed.

Lemma lookup_rel_delete {A} (r : gmap (string * string) A) user (things : list string) u x :
  foldl (fun r x => delete (user, x) r) r things !! (u, x) = if decide (u = user /\ x ∈ things) then None else r !! (u, x).
Proof.
  revert r. induction things as [|y things IH]; intros r; simpl.
  { rewrite decide_False; [done|]. set_solver. }
  rewrite IH. destruct (decide ((u, x) = (user, y))) as [[= -> ->]|Hne].
  - rewrite lookup_delete_eq. case_decide; case_decide; set_solver.
  - rewrite lookup_delete_ne by congruence.
    rewrite (decide_ext _ (u = user /\ x ∈ y :: things)); [done|]. rewrite elem_of_cons. naive_solver.
Qed.

Lemma lookup_rel_insert {A} (r : gmap (string * string) A) user (col : string -> A) things u x :
  foldl (fun r x => <[(user, x) := col x]> r) r things !! (u, x) =
    if decide (u = user /\ x ∈ things) then Some (col x) else r !! (u, x).
Proof.
  revert r. induction things as [|y things IH]; intros r; simpl.
  { rewrite decide_False; [done|]. set_solver. }
  rewrite IH. destruct (decide ((u, x) = (user, y))) as [[= -> ->]|Hne].
  - rewrite lookup_insert_eq. case_decide; case_decide; set_solver.
  - rewrite lookup_insert_ne by congruence.
    rewrite (decide_ext _ (u = user /\ x ∈ y :: things)); [done|]. rewrite elem_of_cons. naive_solver.
Qed.

Lemma elem_of_cached_queries sr_of user c x q :
  q ∈ cached_queries sr_of user c x <->
    q = QSaved user "none" \/ q = QSaved user (sr_of x) \/
    exists v, c = Some v /\ v <> "" /\ (q = QCategorized user "none" v \/ q = QCategorized user (sr_of x) v).
Proof.
  unfold cached_queries. rewrite elem_of_app, elem_of_cons, list_elem_of_singleton. destruct c as [v|]; [|set_solver].
  destruct (String.eqb_spec v "") as [-> | Hv]; [rewrite elem_of_nil; naive_solver|].
  rewrite elem_of_cons, list_elem_of_singleton. naive_solver.
Qed.

(** ** The stores follow the relation *)

Section saved.
Context (sr_of : string -> string) (date_of : string -> Z) (trunc : Z -> Z).
Hypothesis trunc_mono : forall s t, s <= t -> trunc s <= trunc t.
Hypothesis sr_not_none : forall x, sr_of x <> "none".

(** A relation that is stored for good and keeps its last-modified time, as
    those of saves do. *)
Context (cls : relation) (name : string).
Hypothesis cls_name : last_modified_name cls = Some name.
Hypothesis cls_writes : write_last_modified cls = true.
Hypothesis cls_ttl : rel_ttl cls = None.

Record consistent (clock : Z) (st : stores) : Prop := {
  con_queries q x : x ∈ members (queries st) q <->
    exists u c, rel st !! (u, x) = Some c /\ q ∈ cached_queries sr_of u (Some (r_value c)) x;
  con_category u v : v ∈ shown (by_category st) u <->
    v <> "" /\ exists x c, rel st !! (u, x) = Some c /\ r_value c = v;
  con_subreddit u s : s ∈ shown (by_subreddit st) u <-> exists x c, rel st !! (u, x) = Some c /\ sr_of x = s;
  con_stored u x c : rel st !! (u, x) = Some c ->
    r_expires c = None /\ exists t, stamps st !! (u, name) = Some t /\ date_of x <= t;
  con_clock u t : stamps st !! (u, name) = Some t -> t <= trunc clock
}.

Lemma related_spec now user things st x v :
  (forall u x c, rel st !! (u, x) = Some c -> r_expires c = None) ->
  related now user things st !! x = Some v <-> x ∈ things /\ exists c, rel st !! (user, x) = Some c /\ r_value c = v.
Proof.
  intros Hp. unfold related.
  set (l := omap _ things : list (string * string)).
  assert (Hl : forall x v, (x, v) ∈ l <-> x ∈ things /\ exists c, rel st !! (user, x) = Some c /\ r_value c = v).
  { intros y w. unfold l. rewrite list_elem_of_omap. split.
    - intros (z & Hz & Hm). destruct (rel st !! (user, z)) as [c|] eqn:E; [|done]. rewrite (Hp _ _ _ E) in Hm. naive_solver.
    - intros (Hy & c & Hc & Hv). exists y. rewrite Hc, (Hp _ _ _ Hc). naive_solver. }
  clearbody l. rewrite <- Hl. split; [apply elem_of_list_to_map_2|]. intros Hin. apply elem_of_list_to_map_1'; [|done].
  intros w [_ (c & Hc & <-)]%Hl. apply Hl in Hin as [_ (c' & Hc' & <-)]. congruence.
Qed.

(** The last-modified time leaves out of a lookup nothing that is related. *)
Lemma fast_query_spec clock st now user things x v :
  consistent clock st ->
  fast_query date_of cls now (Some user) things st !! x = Some v <->
    x ∈ things /\ exists c, rel st !! (user, x) = Some c /\ r_value c = v.
Proof.
  intros Hc. unfold fast_query, asked. rewrite cls_name.
  assert (Hp : forall u x c, rel st !! (u, x) = Some c -> r_expires c = None) by (intros; by eapply con_stored).
  destruct (stamps st !! (user, name)) as [t|] eqn:Et; rewrite related_spec by done.
  - rewrite elem_of_filter_bool, Z.leb_le. split; [naive_solver|]. intros (Hin & c & Hrel & Hv).
    destruct (con_stored _ _ Hc _ _ _ Hrel) as (_ & t' & Ht' & Hle). rewrite Et in Ht'. simplify_eq. eauto.
  - split; [by intros [?%elem_of_nil _]|]. intros (_ & c & Hrel & _).
    destruct (con_stored _ _ Hc _ _ _ Hrel) as (_ & t' & Ht' & _). congruence.
Qed.

(** The queries of an item, by what the lookup found of it. *)
Lemma found_queries user c (cats : gmap string string) x :
  cats !! x = Some (r_value c) -> cached_queries sr_of user (cats !! x) x = cached_queries sr_of user (Some (r_value c)) x.
Proof. by intros ->. Qed.

Lemma cached_queries_user u c x q u' c' : q ∈ cached_queries sr_of u c x -> q ∈ cached_queries sr_of u' c' x -> u = u'.
Proof. rewrite !elem_of_cached_queries. naive_solver. Qed.

(** Taking things off, as [_unsave] and the first half of [_save] do. *)
Lemma unsavehide_consistent clock st user (things all : list string) (cats : gmap string string) :
  consistent clock st -> (forall x, x ∈ things -> x ∈ all) ->
  (forall x v, cats !! x = Some v <-> x ∈ all /\ exists c, rel st !! (user, x) = Some c /\ r_value c = v) ->
  consistent clock (unsavehide_categories sr_of user cats things st) /\
  (forall u x, rel (unsavehide_categories sr_of user cats things st) !! (u, x) =
    if decide (u = user /\ x ∈ things) then None else rel st !! (u, x)) /\
  stamps (unsavehide_categories sr_of user cats things st) = stamps st.
Proof.
  intros Hc Hall Hcats. unfold unsavehide_categories, unsavehide, destroy.
  set (qs := fun x => cached_queries sr_of user (cats !! x) x).
  set (queries' := delete_all qs things (queries st)).
  assert (Hrel : forall u x, foldl (fun r x => delete (user, x) r) (rel st) things !! (u, x) =
    if decide (u = user /\ x ∈ things) then None else rel st !! (u, x)) by (intros u x; exact (lookup_rel_delete (rel st) user things u x)).
  set (rel' := foldl _ (rel st) things) in *.
  assert (Hq : forall q x, x ∈ members queries' q <->
    exists u c, rel' !! (u, x) = Some c /\ q ∈ cached_queries sr_of u (Some (r_value c)) x).
  { intros q x. unfold queries'. rewrite elem_of_delete_all, (con_queries _ _ Hc). setoid_rewrite Hrel. split.
    - intros [(u & c & Hr & Hin) Hn]. exists u, c. split; [|done]. rewrite decide_False; [done|]. intros [-> Hx].
      apply Hn. split; [done|]. unfold qs. rewrite (found_queries user c); [done|]. apply Hcats. eauto.
    - intros (u & c & Hr & Hin). case_decide as Hd; [done|]. split; [eauto|]. intros [Hx Hin'].
      apply Hd. split; [|done]. by eapply cached_queries_user. }
  split; [|split; [exact Hrel|done]].
  assert (Hsub : forall u x c, rel' !! (u, x) = Some c -> rel st !! (u, x) = Some c).
  { intros u x c. rewrite Hrel. by case_decide. }
  assert (Hgone : forall u x c, rel st !! (u, x) = Some c -> rel' !! (u, x) = Some c \/ (u = user /\ x ∈ things)).
  { intros u x c Hr. destruct (decide (u = user /\ x ∈ things)) as [?|Hd] eqn:Ed; [by right|left]. by rewrite Hrel, Ed. }
  constructor.
  - exact Hq.
  - intros u v. unfold drop_views. cbn [by_category queries with_rel with_queries]. rewrite elem_of_shown_drop, (con_category _ _ Hc).
    unfold is_empty. cbn [queries with_rel with_queries]. fold queries'.
    rewrite orb_false_iff, String.eqb_neq, negb_false_iff, bool_decide_eq_true, elem_of_elements, elem_of_map_img. split.
    + intros [(Hv & x & c & Hr & Hcv) Hn]. split; [done|].
      destruct (Hgone _ _ _ Hr) as [Hr'|[-> Hx]]; [eauto|].
      destruct (decide (members queries' (QCategorized user "none" v) = ∅)) as [He|He].
      * destruct Hn. split_and!; try done. exists x. apply Hcats. eauto.
      * apply set_choose_L in He as [y Hy]. apply Hq in Hy as (u' & c' & Hr' & Hin).
        apply elem_of_cached_queries in Hin as [?|[?|(w & [= <-] & _ & [[= -> Hw]|[= -> Hs Hw]])]]; [done|done| |].
        -- eauto.
        -- by destruct (sr_not_none y).
    + intros (Hv & x & c & Hr & Hcv). split; [split; [done|]; eauto|]. intros (-> & _ & _ & He).
      assert (Hx : x ∈ members queries' (QCategorized user "none" v)).
      { apply Hq. exists user, c. split; [done|]. apply elem_of_cached_queries. right. right. exists v. subst v. eauto. }
      rewrite He in Hx. set_solver.
  - intros u s. unfold drop_views. cbn [by_subreddit queries with_rel with_queries].
    rewrite elem_of_shown_drop, (con_subreddit _ _ Hc). unfold is_empty. cbn [queries with_rel with_queries].
    fold queries'. rewrite negb_false_iff, bool_decide_eq_true, elem_of_remove_dups.
    split.
    + intros [(x & c & Hr & Hs) Hn]. destruct (Hgone _ _ _ Hr) as [Hr'|[-> Hx]]; [eauto|].
      destruct (decide (members queries' (QSaved user s) = ∅)) as [He|He].
      * destruct Hn. split_and!; try done. rewrite <- Hs. by apply list_elem_of_fmap_2.
      * apply set_choose_L in He as [y Hy]. apply Hq in Hy as (u' & c' & Hr' & Hin).
        apply elem_of_cached_queries in Hin as [[= -> ->]|[[= -> ->]|(w & [= <-] & _ & [?|?])]]; [|eauto|done|done].
        by destruct (sr_not_none x).
    + intros (x & c & Hr & Hs). split; [eauto|]. intros (-> & _ & He).
      assert (Hx : x ∈ members queries' (QSaved user s)).
      { apply Hq. exists user, c. split; [done|]. apply elem_of_cached_queries. right. left. by subst s. }
      rewrite He in Hx. set_solver.
  - intros u x c Hr. apply Hsub in Hr. exact (con_stored _ _ Hc _ _ _ Hr).
  - exact (con_clock _ _ Hc).
Qed.

Lemma cached_queries_default user category x :
  cached_queries sr_of user category x = cached_queries sr_of user (Some (default "" category)) x.
Proof. unfold cached_queries. by destruct category. Qed.

(** Putting things on. *)
Lemma savehide_consistent clock now st user things category :
  consistent clock st -> clock <= now -> (forall x, x ∈ things -> date_of x <= trunc now) ->
  (forall x c, x ∈ things -> rel st !! (user, x) = Some c -> r_value c = default "" category) ->
  consistent now (savehide trunc cls (fun _ => default "" category) (add_views sr_of user category)
    (cached_queries sr_of user category) now user things st) /\
  forall u x, rel (savehide trunc cls (fun _ => default "" category) (add_views sr_of user category)
    (cached_queries sr_of user category) now user things st) !! (u, x) =
      if decide (u = user /\ x ∈ things) then Some (RelCol (default "" category) None) else rel st !! (u, x).
Proof.
  intros Hc Hclock Hdate Hval. unfold savehide, create. rewrite cls_writes, cls_ttl, cls_name. cbn [default fmap option_fmap option_map].
  set (rel' := foldl _ (rel (with_queries _ st)) things).
  assert (Hrel : forall u x, rel' !! (u, x) =
    if decide (u = user /\ x ∈ things) then Some (RelCol (default "" category) None) else rel st !! (u, x)).
  { intros u x. exact (lookup_rel_insert (rel st) user (fun _ => RelCol (default "" category) None) things u x). }
  assert (Hkeep : forall u x c, rel st !! (u, x) = Some c -> exists c', rel' !! (u, x) = Some c' /\ r_value c' = r_value c).
  { intros u x c Hr. rewrite Hrel. case_decide as Hd; [|eauto]. destruct Hd as [-> Hx]. eexists. split; [done|].
    simpl. by rewrite (Hval x c Hx Hr). }
  assert (Hback : forall u x c, rel' !! (u, x) = Some c ->
    (u = user /\ x ∈ things /\ r_value c = default "" category) \/ rel st !! (u, x) = Some c).
  { intros u x c. rewrite Hrel. case_decide; naive_solver. }
  assert (Hnew : forall x, x ∈ things -> rel' !! (user, x) = Some (RelCol (default "" category) None)).
  { intros x Hx. by rewrite Hrel, decide_True. }
  split; [|exact Hrel]. constructor; unfold add_views; cbn [rel stamps queries by_category by_subreddit with_rel with_queries].
  - intros q x. rewrite elem_of_insert_all, (con_queries _ _ Hc), (cached_queries_default user category). split.
    + intros [(u & c & Hr & Hin)|[Hx Hin]]; [|eauto]. destruct (Hkeep _ _ _ Hr) as (c' & Hr' & Hv). exists u, c'. by rewrite Hv.
    + intros (u & c & [(-> & Hx & Hv)|Hr]%Hback & Hin); [right|left; eauto]. by rewrite Hv in Hin.
  - intros u v.
    assert (Hadd : v ∈ shown match category with
        | Some c => if String.eqb c "" then by_category st
                    else foldl (fun v0 (_ : string) => <[user := {[c]} ∪ shown v0 user]> v0) (by_category st) things
        | None => by_category st end u <->
      v ∈ shown (by_category st) u \/ (u = user /\ v <> "" /\ category = Some v /\ exists x, x ∈ things)).
    { destruct category as [c|]; [|naive_solver]. destruct (String.eqb_spec c "") as [-> | Hne]; [naive_solver|].
      rewrite (elem_of_shown_add (fun _ => c)), list_elem_of_fmap. naive_solver. }
    rewrite Hadd, (con_category _ _ Hc). split.
    + intros [(Hv & x & c & Hr & Hcv)|(-> & Hv & -> & x & Hx)]; (split; [done|]).
      * destruct (Hkeep _ _ _ Hr) as (c' & Hr' & Hv'). exists x, c'. by rewrite Hv'.
      * exists x. eauto.
    + intros (Hv & x & c & [(-> & Hx & Hcv)|Hr]%Hback & Hvc); [right|left; eauto]. split_and!; [done|done| |eauto].
      destruct category; simpl in *; congruence.
  - intros u s. rewrite (elem_of_shown_add sr_of), (con_subreddit _ _ Hc), list_elem_of_fmap. split.
    + intros [(x & c & Hr & Hs)|(-> & x & -> & Hx)]; [|eauto]. destruct (Hkeep _ _ _ Hr) as (c' & Hr' & _). eauto.
    + intros (x & c & [(-> & Hx & Hcv)|Hr]%Hback & Hs); [right|left; eauto]. eauto.
  - intros u x c. rewrite Hrel. unfold touch. cbn [default]. case_decide as Hd.
    + destruct Hd as [-> Hx]. intros [= <-]. split; [done|]. rewrite lookup_insert_eq. eauto.
    + intros Hr. destruct (con_stored _ _ Hc _ _ _ Hr) as (? & t & Ht & Hle). split; [done|].
      destruct (decide (u = user)) as [-> | Hu]; [|rewrite lookup_insert_ne by congruence; eauto].
      rewrite lookup_insert_eq. eexists. split; [done|]. pose proof (con_clock _ _ Hc _ _ Ht).
      pose proof (trunc_mono _ _ Hclock). lia.
  - intros u t. unfold touch. cbn [default]. destruct (decide (u = user)) as [-> | Hu].
    + rewrite lookup_insert_eq. intros [= <-]. done.
    + rewrite lookup_insert_ne by congruence. intros Ht. pose proof (con_clock _ _ Hc _ _ Ht).
      pose proof (trunc_mono _ _ Hclock). lia.
Qed.

(** ** What a user has saved *)

(** The category under which each user has saved each thing. *)
Notation saved := (gmap (string * string) string).

Definition abs_event (m : saved) (e : Z * event) : saved :=
  match e.2 with
  | Save user things category => foldl (fun m x => <[(user, x) := default "" (save_category category)]> m) m things
  | Unsave user things => foldl (fun m x => delete (user, x) m) m things
  end.

(** The things saved exist by then. *)
Definition event_ok (e : Z * event) : Prop :=
  match e.2 with
  | Save _ things _ => forall x, x ∈ things -> date_of x <= trunc e.1
  | Unsave _ _ => True
  end.

Definition implements (m : saved) (st : stores) : Prop :=
  forall u x, m !! (u, x) = r_value <$> rel st !! (u, x).

Lemma old_category_spec clock st now user things x c :
  consistent clock st -> x ∈ things -> rel st !! (user, x) = Some c ->
  default "" (old_category (fast_query date_of cls now (Some user) things st) x) = r_value c.
Proof.
  intros Hc Hx Hr. unfold old_category.
  assert (fast_query date_of cls now (Some user) things st !! x = Some (r_value c)) as ->.
  { apply (fast_query_spec clock); [done|]. eauto. }
  by destruct (String.eqb_spec (r_value c) "").
Qed.

Lemma apply_event_consistent clock st m e :
  consistent clock st -> implements m st -> clock <= e.1 -> event_ok e ->
  consistent e.1 (apply_event sr_of date_of trunc cls st e) /\
  implements (abs_event m e) (apply_event sr_of date_of trunc cls st e).
Proof.
  destruct e as [now [user things category|user things]]; simpl; intros Hc Him Hclock Hok.
  - unfold apply_event. simpl. unfold save, remove_from_category_listings.
    set (cat := save_category category). set (old := fast_query date_of cls now (Some user) things st).
    set (changed := List.filter _ things).
    destruct (unsavehide_consistent clock st user changed things old Hc) as (Hc1 & Hrel1 & _).
    { intros x [_ Hx]%elem_of_filter_bool. done. }
    { intros x v. exact (fast_query_spec clock st now user things x v Hc). }
    destruct (savehide_consistent clock now (unsavehide_categories sr_of user old changed st) user things cat Hc1 Hclock Hok)
      as (Hc2 & Hrel2).
    { intros x c Hx. rewrite Hrel1. case_decide as Hd; [done|]. intros Hr. rewrite <- (old_category_spec clock st now user things x c Hc Hx Hr).
      fold old. destruct (decide (old_category old x = cat)) as [-> | Hne]; [done|]. destruct Hd. split; [done|].
      apply elem_of_filter_bool. split; [|done]. by rewrite bool_decide_false. }
    split; [exact Hc2|]. intros u x. unfold abs_event. cbn [snd]. fold cat. rewrite lookup_rel_insert, Hrel2, Hrel1.
    case_decide as Hd; [done|]. rewrite decide_False; [apply Him|]. intros [-> [_ Hx]%elem_of_filter_bool]. tauto.
  - unfold apply_event. simpl. unfold unsave.
    destruct (unsavehide_consistent clock st user things things (fast_query date_of cls now (Some user) things st) Hc)
      as (Hc1 & Hrel1 & _); [done|intros x v; exact (fast_query_spec clock st now user things x v Hc)|].
    split.
    + destruct Hc1 as [H1 H2 H3 H4 H5]. constructor; try done. intros u t Ht. specialize (H5 u t Ht).
      pose proof (trunc_mono _ _ Hclock). lia.
    + intros u x. unfold abs_event. cbn [snd]. rewrite lookup_rel_delete, Hrel1. case_decide; [done|]. apply Him.
Qed.

(** C8. After any saves and removals by any users, over time, a lookup finds
    exactly what a user has saved, under the category it was last saved with,
    although it asks only for things older than the user's last save; the
    listings, of all saved things, by subreddit, and by category, hold exactly
    those; and the categories and subreddits shown to a user are those of
    things still saved. *)
Theorem saves_follow_relation (events : list (Z * event)) start :
  StronglySorted Z.le (start :: events.*1) -> Forall event_ok events ->
  let st := foldl (apply_event sr_of date_of trunc cls) no_stores events in
  let m := foldl abs_event ∅ events in
  (forall now u (things : list string) x v, fast_query date_of cls now (Some u) things st !! x = Some v <->
    x ∈ things /\ m !! (u, x) = Some v) /\
  (forall u x, x ∈ members (queries st) (QSaved u "none") <-> is_Some (m !! (u, x))) /\
  (forall u s x, s <> "none" -> x ∈ members (queries st) (QSaved u s) <-> is_Some (m !! (u, x)) /\ sr_of x = s) /\
  (forall u v x, x ∈ members (queries st) (QCategorized u "none" v) <-> v <> "" /\ m !! (u, x) = Some v) /\
  (forall u v, v ∈ get_saved_categories u st <-> v <> "" /\ exists x, m !! (u, x) = Some v) /\
  (forall u s, s ∈ get_saved_subreddits u st <-> exists x, is_Some (m !! (u, x)) /\ sr_of x = s).
Proof.
  intros Hsorted Hok. cbv zeta.
  assert (Hfinal : exists clock, consistent clock (foldl (apply_event sr_of date_of trunc cls) no_stores events) /\
    implements (foldl abs_event ∅ events) (foldl (apply_event sr_of date_of trunc cls) no_stores events)).
  { assert (Hc : consistent start no_stores).
    { constructor; unfold members, shown, no_stores; simpl; intros *; setoid_rewrite lookup_empty; simpl; set_solver. }
    assert (Him : implements ∅ no_stores) by (intros u x; simpl; by rewrite !lookup_empty).
    revert Hsorted Hc Him. generalize no_stores (∅ : saved). revert start.
    induction Hok as [|e events He Hok IH]; intros clock st m Hs Hc Him; simpl; [eauto|].
    rewrite fmap_cons in Hs. apply StronglySorted_inv in Hs as [Hs Hle]. apply Forall_cons in Hle as [Hle _].
    destruct (apply_event_consistent clock st m e Hc Him Hle He) as [Hc1 Him1]. by apply (IH e.1). }
  destruct Hfinal as (clock & Hc & Him).
  set (st := foldl _ no_stores events) in *. set (m := foldl _ ∅ events) in *. clearbody st m.
  assert (Hm : forall u x v, m !! (u, x) = Some v <-> exists c, rel st !! (u, x) = Some c /\ r_value c = v).
  { intros u x v. rewrite (Him u x). destruct (rel st !! (u, x)); simpl; naive_solver. }
  split_and!.
  - intros now u things x v. by rewrite (fast_query_spec clock st now u things x v Hc), Hm.
  - intros u x. rewrite (con_queries _ _ Hc), (Him u x), fmap_is_Some. setoid_rewrite elem_of_cached_queries. unfold is_Some.
    pose proof (sr_not_none x). naive_solver.
  - intros u s x Hs. rewrite (con_queries _ _ Hc), (Him u x), fmap_is_Some. setoid_rewrite elem_of_cached_queries.
    unfold is_Some. naive_solver.
  - intros u v x. rewrite (con_queries _ _ Hc), Hm. setoid_rewrite elem_of_cached_queries.
    pose proof (sr_not_none x). naive_solver.
  - intros u v. unfold get_saved_categories. rewrite (con_category _ _ Hc). setoid_rewrite Hm. naive_solver.
  - intros u s. unfold get_saved_subreddits. rewrite (con_subreddit _ _ Hc). unfold is_Some. setoid_rewrite Hm. naive_solver.
Qed.
End saved.

(** ** A user's saves *)

(** Things of two subreddits; a link saved under one category and then under
    another, one saved without, one taken off again. *)
Definition sr_of_demo (x : string) : string := if String.eqb x "l1" then "sr1" else "sr2".
Definition date_of_demo (x : string) : Z := if String.eqb x "l1" then 3 else if String.eqb x "l2" then 12 else 8.

Definition some_saves : list (Z * event) :=
  [(10, Save "u" ["l1"; "l3"] (Some "Cats")); (20, Save "u" ["l1"] (Some "dogs")); (20, Save "u" ["l2"] None);
   (30, Unsave "u" ["l3"])].

Lemma saves_follow_relation_witness :
  let st := foldl (apply_event sr_of_demo date_of_demo id LinkSavesByAccount) no_stores some_saves in
  fast_query date_of_demo LinkSavesByAccount 40 (Some "u") ["l1"; "l2"; "l3"] st !! "l1" = Some "dogs" /\
  get_saved_categories "u" st = {[ "dogs" ]} /\ "l3" ∉ members (queries st) (QSaved "u" "sr2").
Proof.
  intros st.
  assert (Hsr_none : forall x, sr_of_demo x <> "none") by (intros x; unfold sr_of_demo; by destruct (String.eqb x "l1")).
  assert (Htimes : StronglySorted Z.le (0 :: some_saves.*1)) by (repeat constructor; simpl; lia).
  assert (Hok : Forall (event_ok date_of_demo id) some_saves).
  { unfold some_saves. rewrite !Forall_cons, Forall_nil. unfold event_ok. simpl. split_and!; try exact I;
      intros x Hx; repeat (apply elem_of_cons in Hx as [-> | Hx]; [vm_compute; congruence|]); by apply elem_of_nil in Hx. }
  destruct (saves_follow_relation sr_of_demo date_of_demo id (fun _ _ H => H) Hsr_none LinkSavesByAccount "Save" eq_refl eq_refl
    eq_refl some_saves 0 Htimes Hok) as (Hfast & _ & Hsr & _ & Hcat & _).
  fold st in Hfast, Hsr, Hcat. split; [|split].
  - apply Hfast. split; [by left|]. vm_compute. reflexivity.
  - vm_compute. reflexivity.
  - rewrite Hsr by done. intros [Hs _]. vm_compute in Hs. by destruct Hs.
Defined.

(** Asking about one thing created after the last relation gives the empty
    dictionary, asking about an earlier one raises [NotFound]. *)
Example new_thing_not_found :
  let st := save sr_of_demo date_of_demo id LinkSavesByAccount 10 "u" ["l1"] None no_stores in
  fast_query_one date_of_demo LinkSavesByAccount 20 (Some "u") "l2" st = Ok NoRelations /\
  fast_query_one date_of_demo LinkSavesByAccount 20 (Some "u") "l3" st = Raise NotFound.
Proof. split; vm_compute; reflexivity. Qed.
End SavesProps.
