(* ===== verification/PyString.v ===== *)
(** * Python's string methods

    [split], [join], [partition] and the like on texts, with the lemmas the
    encoders and parsers of the components share. *)

From S2P Require Import Prelude.
From Stdlib Require Import Ascii.

Module PyString.

(** [s.split(sep)] for a separator of one character. *)
Fixpoint py_split (sep : ascii) (s : string) : list string :=
  match s with
  | EmptyString => [EmptyString]
  | String a s =>
      if Ascii.eqb a sep then EmptyString :: py_split sep s
      else match py_split sep s with
        | [] => [String a EmptyString]
        | w :: ws => String a w :: ws
        end
  end.

(** [sep.join(l)]. *)
Fixpoint py_join (sep : string) (l : list string) : string :=
  match l with
  | [] => EmptyString
  | [w] => w
  | w :: l => w +:+ sep +:+ py_join sep l
  end.

(** [c in s]. *)
Fixpoint contains (c : ascii) (s : string) : bool :=
  match s with EmptyString => false | String a s => Ascii.eqb a c || contains c s end.

(** [s.replace(a, b)] of characters. *)
Fixpoint replace_char (a b : ascii) (s : string) : string :=
  match s with
  | EmptyString => EmptyString
  | String c s => String (if Ascii.eqb c a then b else c) (replace_char a b s)
  end.

(** [s.partition(sep)]: before the first separator, whether there is one, and
    after it; [s.rpartition(sep)] by the last one. *)
Fixpoint partition (sep : ascii) (s : string) : string * bool * string :=
  match s with
  | EmptyString => (EmptyString, false, EmptyString)
  | String a s =>
      if Ascii.eqb a sep then (EmptyString, true, s)
      else let r := partition sep s in (String a r.1.1, r.1.2, r.2)
  end.

Fixpoint rpartition (sep : ascii) (s : string) : string * bool * string :=
  match s with
  | EmptyString => (EmptyString, false, EmptyString)
  | String a s' =>
      let r := rpartition sep s' in
      if r.1.2 then (String a r.1.1, true, r.2)
      else if Ascii.eqb a sep then (EmptyString, true, s')
      else (EmptyString, false, s)
  end.

(** ** Laws *)

Lemma string_app_cons a s t : String a s +:+ t = String a (s +:+ t).
Proof. done. Qed.

Lemma string_app_assoc (s t u : string) : s +:+ t +:+ u = (s +:+ t) +:+ u.
Proof. induction s as [|a s IH]; [done|]. rewrite !string_app_cons. by f_equal. Qed.

Lemma string_app_nil_r (s : string) : s +:+ "" = s.
Proof. induction s as [|a s IH]; [done|]. rewrite string_app_cons. by f_equal. Qed.

Lemma contains_app c s t : contains c (s +:+ t) = contains c s || contains c t.
Proof. induction s as [|a s IH]; [done|]. rewrite string_app_cons. simpl. by rewrite IH, orb_assoc. Qed.

Lemma py_split_nonempty sep s : py_split sep s <> [].
Proof. destruct s as [|a s]; simpl; [done|]. destruct (Ascii.eqb a sep); [done|]. by destruct (py_split sep s). Qed.

Lemma py_split_none sep s : contains sep s = false -> py_split sep s = [s].
Proof.
  induction s as [|a s IH]; simpl; [done|]. intros [Ha Hs]%orb_false_iff. by rewrite Ha, IH.
Qed.

Lemma py_split_app sep w s : contains sep w = false -> py_split sep (w +:+ String sep s) = w :: py_split sep s.
Proof.
  induction w as [|a w IH]; intros Hw; [simpl; by rewrite Ascii.eqb_refl|].
  simpl in Hw. apply orb_false_iff in Hw as [Ha Hw]. rewrite string_app_cons. simpl. by rewrite Ha, IH.
Qed.

Lemma py_join_cons sep w w' l : py_join sep (w :: w' :: l) = w +:+ sep +:+ py_join sep (w' :: l).
Proof. done. Qed.

(** Joining is undone by splitting, for words without the separator. *)
Lemma py_split_join sep l :
  l <> [] -> Forall (fun w => contains sep w = false) l -> py_split sep (py_join (String sep "") l) = l.
Proof.
  intros Hne Hl. induction Hl as [|w l Hw Hl IH]; [done|]. destruct l as [|w' l]; [by apply py_split_none|].
  rewrite py_join_cons. change (String sep "" +:+ py_join (String sep "") (w' :: l)) with (String sep (py_join (String sep "") (w' :: l))).
  rewrite py_split_app by done. by rewrite IH.
Qed.

Lemma py_split_words sep s : Forall (fun w => contains sep w = false) (py_split sep s).
Proof.
  induction s as [|a s IH]; simpl; [by constructor|]. destruct (Ascii.eqb a sep) eqn:E; [by constructor|].
  destruct (py_split sep s) as [|w ws]; [constructor; [simpl; by rewrite E|done]|].
  apply Forall_cons in IH as [Hw Hws]. constructor; [simpl; by rewrite E|done].
Qed.

Lemma py_join_split sep s : py_join (String sep "") (py_split sep s) = s.
Proof.
  induction s as [|a s IH]; [done|]. cbn [py_split]. destruct (Ascii.eqb_spec a sep) as [-> |].
  - destruct (py_split sep s) as [|w ws] eqn:E; [by apply py_split_nonempty in E|]. rewrite py_join_cons, IH. done.
  - destruct (py_split sep s) as [|w [|w' ws]]; [by simpl in IH; subst|by simpl in IH |- *; subst|].
    rewrite py_join_cons in IH |- *. rewrite string_app_cons. by f_equal.
Qed.

Lemma py_join_contains c sep l :
  contains c sep = false -> Forall (fun w => contains c w = false) l -> contains c (py_join sep l) = false.
Proof.
  intros Hs Hl. induction Hl as [|w l Hw Hl IH]; [done|]. destruct l as [|w' l]; [done|].
  rewrite py_join_cons. by rewrite !contains_app, Hw, Hs, IH.
Qed.

Lemma rpartition_none sep s : contains sep s = false -> rpartition sep s = (EmptyString, false, s).
Proof.
  induction s as [|a s IH]; simpl; [done|]. intros [Ha Hs]%orb_false_iff. by rewrite IH, Ha.
Qed.

Lemma rpartition_app sep s t : contains sep t = false -> rpartition sep (s +:+ String sep t) = (s, true, t).
Proof.
  intros Ht. induction s as [|a s IH].
  - change (EmptyString +:+ String sep t) with (String sep t). simpl. by rewrite rpartition_none, Ascii.eqb_refl.
  - rewrite string_app_cons. cbn [rpartition]. by rewrite IH.
Qed.

Lemma partition_none sep s : contains sep s = false -> partition sep s = (s, false, EmptyString).
Proof. induction s as [|a s IH]; simpl; [done|]. intros [Ha Hs]%orb_false_iff. by rewrite Ha, IH. Qed.

Lemma partition_app sep s t : contains sep s = false -> partition sep (s +:+ String sep t) = (s, true, t).
Proof.
  induction s as [|a s IH].
  - intros _. change (EmptyString +:+ String sep t) with (String sep t). simpl. by rewrite Ascii.eqb_refl.
  - cbn [contains]. intros [Ha Hs]%orb_false_iff. rewrite string_app_cons. cbn [partition]. by rewrite Ha, IH.
Qed.

Lemma replace_char_none a b s : contains a s = false -> replace_char a b s = s.
Proof. induction s as [|c s IH]; simpl; [done|]. intros [Hc Hs]%orb_false_iff. by rewrite Hc, IH. Qed.
(** ** Texts of one kind of characters *)

Fixpoint str_forall (f : ascii -> bool) (s : string) : bool :=
  match s with EmptyString => true | String a s => f a && str_forall f s end.

Definition is_digit (a : ascii) : bool := (48 <=? nat_of_ascii a)%nat && (nat_of_ascii a <=? 57)%nat.

Lemma str_forall_app f s t : str_forall f (s +:+ t) = str_forall f s && str_forall f t.
Proof. induction s as [|a s IH]; [done|]. rewrite string_app_cons. simpl. by rewrite IH, andb_assoc. Qed.

Lemma str_forall_contains f c s : str_forall f s = true -> f c = false -> contains c s = false.
Proof.
  induction s as [|a s IH]; simpl; [done|]. intros [Ha Hs]%andb_true_iff Hc. rewrite IH by done.
  destruct (Ascii.eqb_spec a c) as [-> |]; [congruence|done].
Qed.

Lemma digits_uint (d : Decimal.uint) : str_forall is_digit (DecimalString.NilEmpty.string_of_uint d) = true.
Proof. induction d; simpl; [done|..]; rewrite IHd; done. Qed.

Lemma digits_str_int n : 0 <= n -> str_forall is_digit (py_str_int n) = true /\ py_str_int n <> EmptyString.
Proof.
  intros Hn. unfold py_str_int. assert (E : exists u, Z.to_int n = Decimal.Pos u) by (destruct n; [by eexists..|lia]).
  destruct E as [u ->]. simpl. destruct u; [done|..]; simpl; (split; [by rewrite digits_uint|done]).
Qed.

Lemma int_of_digits s : str_forall is_digit s = true -> s <> EmptyString -> exists n, py_int_str s = Some n /\ 0 <= n.
Proof.
  intros Hs Hne. assert (Hu : exists u, DecimalString.NilEmpty.uint_of_string s = Some u).
  { clear Hne. induction s as [|a s IH]; simpl; [by eexists|]. simpl in Hs. apply andb_true_iff in Hs as [Ha Hs].
    destruct (IH Hs) as [u ->]. destruct a as [[] [] [] [] [] [] [] []]; try discriminate Ha; by eexists. }
  destruct Hu as [u Hu]. exists (Z.of_uint u). split.
  - unfold py_int_str. destruct s as [|a s]; [done|].
    assert (E : DecimalString.NilZero.int_of_string (String a s) = Some (Decimal.Pos u)); [|by rewrite E].
    unfold DecimalString.NilZero.int_of_string, DecimalString.NilZero.uint_of_string. simpl in Hs. apply andb_true_iff in Hs as [Ha _].
    rewrite Hu. destruct a as [[] [] [] [] [] [] [] []]; try discriminate Ha; done.
  - unfold Z.of_uint. apply N2Z.is_nonneg.
Qed.
(** ** More of Python's methods *)

(** [s.lower()] of a byte string. *)
Definition lower_char (a : ascii) : ascii :=
  let n := nat_of_ascii a in if (65 <=? n)%nat && (n <=? 90)%nat then ascii_of_nat (n + 32) else a.

Fixpoint py_lower (s : string) : string :=
  match s with EmptyString => EmptyString | String a s => String (lower_char a) (py_lower s) end.

(** The text up to the first character of a kind, and from there on. *)
Fixpoint break_at (f : ascii -> bool) (s : string) : string * string :=
  match s with
  | EmptyString => (EmptyString, EmptyString)
  | String a s' => if f a then (EmptyString, s) else let r := break_at f s' in (String a r.1, r.2)
  end.

(** [s.lstrip(chars)] and [s.rstrip(chars)], for characters of a kind. *)
Fixpoint py_lstrip (f : ascii -> bool) (s : string) : string :=
  match s with String a s' => if f a then py_lstrip f s' else s | EmptyString => EmptyString end.

Fixpoint py_rstrip (f : ascii -> bool) (s : string) : string :=
  match s with
  | EmptyString => EmptyString
  | String a s => match py_rstrip f s with EmptyString => if f a then EmptyString else String a EmptyString | s' => String a s' end
  end.

Definition is_space (a : ascii) : bool := let n := nat_of_ascii a in (n =? 32)%nat || ((9 <=? n)%nat && (n <=? 13)%nat).

Lemma digit_not_space a : is_digit a = true -> is_space a = false /\ Ascii.eqb a "-" = false /\ Ascii.eqb a "+" = false.
Proof. destruct a as [[] [] [] [] [] [] [] []]; intros Ha; try discriminate Ha; repeat split; reflexivity. Qed.

(** [int(s)]: spaces around it and a sign are allowed. *)
Definition py_int (s : string) : option Z :=
  let digits r := if negb (String.eqb r "") && str_forall is_digit r then py_int_str r else None in
  match py_rstrip is_space (py_lstrip is_space s) with
  | String a r as s => if Ascii.eqb a "-" then Z.opp <$> digits r else if Ascii.eqb a "+" then digits r else digits s
  | EmptyString => None
  end.

(** [s.count(c)] and [s.endswith(t)]. *)
Fixpoint count_char (c : ascii) (s : string) : nat :=
  match s with EmptyString => 0 | String a s => (if Ascii.eqb a c then 1 else 0) + count_char c s end.

Fixpoint str_filter (f : ascii -> bool) (s : string) : string :=
  match s with EmptyString => EmptyString | String a s => if f a then String a (str_filter f s) else str_filter f s end.
(** ** Slices *)

Lemma length_str_app s t : String.length (s +:+ t) = (String.length s + String.length t)%nat.
Proof. induction s as [|a s IH]; [done|]. rewrite string_app_cons. simpl. by rewrite IH. Qed.

Lemma substring_all t m : (String.length t <= m)%nat -> String.substring 0 m t = t.
Proof.
  revert m. induction t as [|a t IH]; intros [|m] Hm; simpl in *; [done|done|lia|]. f_equal. apply IH. lia.
Qed.

Lemma substring_prefix s t : String.substring 0 (String.length s) (s +:+ t) = s.
Proof. induction s as [|a s IH]; [by destruct t|]. rewrite string_app_cons. simpl. by rewrite IH. Qed.

Lemma substring_drop s t m : String.substring (String.length s) m (s +:+ t) = String.substring 0 m t.
Proof. induction s as [|a s IH]; [done|]. rewrite string_app_cons. simpl. exact IH. Qed.

Lemma substring_split k s : (k <= String.length s)%nat -> s = String.substring 0 k s +:+ String.substring k (String.length s - k) s.
Proof.
  revert k. induction s as [|a s IH]; intros k Hk; [by destruct k|]. destruct k as [|k].
  - simpl. by rewrite substring_all.
  - simpl in Hk |- *. rewrite string_app_cons. f_equal. apply IH. lia.
Qed.

Lemma py_endswith_spec suffix s : py_endswith suffix s = true <-> exists p, s = p +:+ suffix.
Proof.
  unfold py_endswith. rewrite andb_true_iff, Nat.leb_le, String.eqb_eq. split.
  - intros [Hl E]. exists (String.substring 0 (String.length s - String.length suffix) s). rewrite <- E at 2.
    rewrite (substring_split (String.length s - String.length suffix) s) at 1 by lia. do 2 f_equal. lia.
  - intros [p ->]. rewrite length_str_app. split; [lia|].
    replace (String.length p + String.length suffix - String.length suffix)%nat with (String.length p) by lia.
    by rewrite substring_drop, substring_all.
Qed.
End PyString.
