(* ===== verification/Effects.v ===== *)
(** * Effects: computations that change a world and may raise

    A handler of the code changes what is stored as it goes; when it raises,
    what it changed before stays.  The monad of such computations, over any
    type of worlds, with the rules its properties are proved by: what a
    computation does in steps, and its triples. *)

From S2P Require Import Prelude.

Section effects.
Context {W : Type}.

Definition effect (A : Type) : Type := W -> W * res A.
Definition ret {A} (a : A) : effect A := fun w => (w, Ok a).
Definition bind {A B} (m : effect A) (k : A -> effect B) : effect B :=
  fun w => let '(w', r) := m w in match r with Ok a => k a w' | Raise e => (w', Raise e) end.
Definition lift {A} (r : res A) : effect A := fun w => (w, r).
Definition ask {A} (f : W -> A) : effect A := fun w => (w, Ok (f w)).
Definition modify (f : W -> W) : effect unit := fun w => (f w, Ok tt).
Definition when (b : bool) (m : effect unit) : effect unit := if b then m else ret tt.
Fixpoint mapM_ {A} (f : A -> effect unit) (l : list A) : effect unit :=
  match l with [] => ret tt | x :: l => bind (f x) (fun _ => mapM_ f l) end.

(** The world after a computation, whether it raised or not. *)
Definition after {A} (m : effect A) (w : W) : W := (m w).1.

(** What holds of a world before and after. *)
Definition steps {A} (R : W -> W -> Prop) (m : effect A) : Prop := forall w, R w (after m w).

Context (R : W -> W -> Prop) `{!PreOrder R}.

Lemma steps_ret {A} (a : A) : steps R (ret a).
Proof. intros w. reflexivity. Qed.

Lemma steps_lift {A} (r : res A) : steps R (lift r).
Proof. intros w. reflexivity. Qed.

Lemma steps_ask {A} (f : W -> A) : steps R (ask f).
Proof. intros w. reflexivity. Qed.

Lemma steps_modify f : (forall w, R w (f w)) -> steps R (modify f).
Proof. intros Hf w. apply Hf. Qed.

(** A computation of which the next one knows the result and the world. *)
Lemma after_bind {A B} (m : effect A) (k : A -> effect B) w :
  R w (after m w) -> (forall a, (m w).2 = Ok a -> R (after m w) (after (k a) (after m w))) -> R w (after (bind m k) w).
Proof.
  unfold after, bind. destruct (m w) as [w' [a|e]]; cbn; [|done]. intros H1 H2. transitivity w'; [done|]. by apply H2.
Qed.

Lemma steps_bind {A B} (m : effect A) (k : A -> effect B) : steps R m -> (forall a, steps R (k a)) -> steps R (bind m k).
Proof. intros Hm Hk w. apply after_bind; [apply Hm|]. intros a _. apply Hk. Qed.

Lemma steps_when b m : steps R m -> steps R (when b m).
Proof. intros Hm. destruct b; [done|apply steps_ret]. Qed.

Lemma steps_mapM {A} (f : A -> effect unit) l : (forall x, steps R (f x)) -> steps R (mapM_ f l).
Proof. intros Hf. induction l as [|x l IH]; [apply steps_ret|]. apply steps_bind; [apply Hf|done]. Qed.
End effects.

#[global] Arguments effect : clear implicits.

Notation "x <~ m ;; k" := (bind m (fun x => k)) (at level 100, m at next level, k at level 200, right associativity).
Notation "m ;;; k" := (bind m (fun _ => k)) (at level 100, k at level 200, right associativity).

(** ** Triples

    What holds before and after a computation, with what holds of the world
    when it raises. *)

Section triples.
Context {W : Type}.

Definition triple {A} (P : W -> Prop) (m : effect W A) (Q : A -> W -> Prop) (E : W -> Prop) : Prop :=
  forall w, P w -> match (m w).2 with Ok a => Q a (m w).1 | Raise _ => E (m w).1 end.

Lemma t_conseq {A} (P P' : W -> Prop) (m : effect W A) (Q Q' : A -> W -> Prop) (E E' : W -> Prop) :
  triple P' m Q' E' -> (forall w, P w -> P' w) -> (forall a w, Q' a w -> Q a w) -> (forall w, E' w -> E w) -> triple P m Q E.
Proof. intros Hm HP HQ HE w Hw. specialize (Hm w (HP w Hw)). destruct (m w).2; auto. Qed.

Lemma t_pre {A} (P P' : W -> Prop) (m : effect W A) Q E : triple P' m Q E -> (forall w, P w -> P' w) -> triple P m Q E.
Proof. intros Hm HP w Hw. apply Hm. auto. Qed.

Lemma t_ret {A} (a : A) (P : W -> Prop) Q E : (forall w, P w -> Q a w) -> triple P (ret a) Q E.
Proof. intros HP w Hw. by apply HP. Qed.

Lemma t_raise {A} e (P : W -> Prop) (Q : A -> W -> Prop) (E : W -> Prop) : (forall w, P w -> E w) -> triple P (lift (Raise e)) Q E.
Proof. intros HP w Hw. by apply HP. Qed.

Lemma t_ask {A} (f : W -> A) (P : W -> Prop) Q E : (forall w, P w -> Q (f w) w) -> triple P (ask f) Q E.
Proof. intros HP w Hw. by apply HP. Qed.

Lemma t_modify f (P : W -> Prop) Q E : (forall w, P w -> Q tt (f w)) -> triple P (modify f) Q E.
Proof. intros HP w Hw. by apply HP. Qed.

Lemma t_bind {A B} (m : effect W A) (k : A -> effect W B) P Q R E : triple P m Q E -> (forall a, triple (Q a) (k a) R E) -> triple P (bind m k) R E.
Proof.
  intros Hm Hk w Hw. specialize (Hm w Hw). unfold bind. destruct (m w) as [w' [a|e]]; cbn in *; [by apply Hk|done].
Qed.

(** A step that keeps what holds. *)
Lemma t_seq {A B} (m : effect W A) (k : A -> effect W B) (I : W -> Prop) R E : triple I m (fun _ => I) E -> (forall a, triple I (k a) R E) -> triple I (bind m k) R E.
Proof. apply t_bind. Qed.

Lemma t_when b (m : effect W unit) P Q E : (b = true -> triple P m Q E) -> (b = false -> forall w, P w -> Q tt w) -> triple P (when b m) Q E.
Proof. destruct b; cbn; intros H1 H2; [by apply H1|by apply t_ret, H2]. Qed.

Lemma t_mapM {A} (f : A -> effect W unit) l (I : W -> Prop) E : (forall x, x ∈ l -> triple I (f x) (fun _ => I) E) -> triple I (mapM_ f l) (fun _ => I) E.
Proof.
  induction l as [|x l IH]; intros Hf; [by apply t_ret|]. cbn. eapply t_bind; [apply Hf; by left|]. intros []. apply IH. intros y Hy. apply Hf. by right.
Qed.

(** What does not depend on what a computation changes stays. *)
Lemma t_steps {A} (R : W -> W -> Prop) (m : effect W A) (P : W -> Prop) : steps R m -> (forall w w', R w w' -> P w -> P w') -> triple P m (fun _ => P) P.
Proof. intros Hm HP w Hw. specialize (Hm w). unfold after in Hm. destruct (m w) as [w' [a|e]]; cbn in *; by eapply HP. Qed.

(** What a computation cannot change goes along. *)
Lemma t_frame {A} (R : W -> W -> Prop) (m : effect W A) (P F : W -> Prop) Q (E : W -> Prop) : triple P m Q E -> steps R m -> (forall w w', R w w' -> F w -> F w') ->
  triple (fun w => P w /\ F w) m (fun a w => Q a w /\ F w) E.
Proof.
  intros Hm HR HF w [HP Hw]. specialize (Hm w HP). specialize (HR w). unfold after in HR. destruct (m w) as [w' [a|e]]; cbn in *; [|done]. split; [done|by eapply HF].
Qed.

Lemma t_exists {A X} (P : X -> W -> Prop) (m : effect W A) Q E : (forall x, triple (P x) m Q E) -> triple (fun w => exists x, P x w) m Q E.
Proof. intros Hm w [x Hw]. by apply (Hm x). Qed.

Lemma t_pure {A} (F : Prop) (P : W -> Prop) (m : effect W A) Q E : (F -> triple P m Q E) -> triple (fun w => F /\ P w) m Q E.
Proof. intros Hm w [HF Hw]. by apply Hm. Qed.

(** A triple is about the world after, whether there is a result or not. *)
Lemma t_after {A} (P : W -> Prop) (m : effect W A) (Q : W -> Prop) w : triple P m (fun _ => Q) Q -> P w -> Q (after m w).
Proof. intros Hm Hw. specialize (Hm w Hw). unfold after. by destruct (m w).2. Qed.

Lemma t_steps_iff {A} (R : W -> W -> Prop) (m : effect W A) : (forall w0, triple (fun w => w = w0) m (fun _ => R w0) (R w0)) -> steps R m.
Proof. intros Hm w. by apply (t_after _ _ _ _ (Hm w)). Qed.
End triples.
