(* ===== verification/Members.v ===== *)
(** * Members of subreddits

    Permission sets and their encoding (lib/permissions.py), the relations
    between things and users with their memoized lists (lib/db/userrel.py),
    and what they decide on a subreddit: who may view it, who moderates it
    with which permissions, and who may remove a moderator
    (models/subreddit.py). *)

From S2P Require Import Prelude PyString.
From Stdlib Require Import Ascii.

Module Members.
Import PyString.

(** ** Permission sets *)

Notation perms := (gmap string bool).

Definition ALL : string := "all".

(** The [info] of [ModeratorPermissionSet]. *)
Definition moderator_info : gset string := {[ "access"; "config"; "flair"; "mail"; "posts"; "wiki" ]}.

Definition is_superuser (p : perms) : bool := default false (p !! ALL).

(** A term of the encoding. *)
Definition load_term (term : string) : res (string * bool) :=
  match term with
  | EmptyString => Raise IndexError
  | String a k => Ok (k, Ascii.eqb a "+")
  end.

Section permissions.
(** The [info] of the class. *)
Context (info : option (gset string)).

Definition is_valid (p : perms) : bool :=
  match info with
  | None => false
  | Some i => bool_decide (i <> ∅) && bool_decide (dom p ⊆ {[ ALL ]} ∪ i)
  end.

(** [PermissionSet.loads]. *)
Definition loads (encoded : string) (validate : bool) : res perms :=
  if String.eqb encoded "" then Ok ∅
  else
    let* terms := res_mapM load_term (py_split "," encoded) in
    let result : perms := foldl (fun p kv => <[kv.1 := kv.2]> p) ∅ terms in
    let result := if bool_decide (result !! ALL = Some false) then delete ALL result else result in
    if validate && negb (is_valid result) then Raise ValueError else Ok result.

Definition dump_term (kv : string * bool) : string := (if kv.2 then "+" else "-") +:+ kv.1.

Definition sorted_items (p : perms) : list (string * bool) :=
  isort (fun a b => String.leb a.1 b.1) (map_to_list p).

(** [dumps]. *)
Definition dumps (p : perms) : string :=
  if is_superuser p then "+all" else py_join "," (dump_term <$> sorted_items p).

(** [get] and [__getitem__]; an empty [info] counts as none. *)
Definition has_info : bool := match info with Some i => bool_decide (i <> ∅) | None => false end.

Definition in_info (key : string) : bool := match info with Some i => bool_decide (key ∈ i) | None => false end.

Definition perm_get (p : perms) (key : string) (dflt : option bool) : option bool :=
  if has_info && is_superuser p then if in_info key then Some true else dflt
  else match p !! key with Some b => Some b | None => dflt end.

Definition getitem (p : perms) (key : string) : bool :=
  if has_info && is_superuser p then String.eqb key ALL || in_info key else default false (p !! key).
End permissions.

(** [ModeratorPermissionSet.loads]: no encoding is full permissions. *)
Definition moderator_loads (encoded : option string) : res perms :=
  match encoded with None => Ok {[ ALL := true ]} | Some e => loads (Some moderator_info) e false end.

(** ** Members *)

(** A relation of a thing to a user: [SRMember] under one of its names. *)
Record member := Member { m_date : Z; encoded_permissions : option string; m_note : option string }.

Definition with_permissions (e : option string) (m : member) : member := Member (m_date m) e (m_note m).

(** [get_permissions], [has_permission] and [is_superuser] of a moderator. *)
Definition get_permissions (m : member) : res perms := moderator_loads (encoded_permissions m).

Definition has_permission (m : member) (perm : string) : res bool :=
  let* p := get_permissions m in Ok (default false (perm_get (Some moderator_info) p perm (Some false))).

Definition is_super (m : member) : res bool := let* p := get_permissions m in Ok (is_superuser p).

(** [update_permissions]: named grants, denials and returns to the default. *)
Definition update_perms (p : perms) (kwargs : list (string * option bool)) : perms :=
  foldl (fun p kv => match kv.2 with None => delete kv.1 p | Some v => <[kv.1 := v]> p end) p kwargs.

Definition update_permissions (m : member) (kwargs : list (string * option bool)) : res member :=
  let* p := get_permissions m in Ok (with_permissions (Some (dumps (update_perms p kwargs))) m).

(** ** Relations to users *)

(** The relations by thing, user and name, and the memoized lists of
    [thing_ids] and [user_ids] under the names of their functions. *)
Record stores := Stores {
  rels : gmap (Z * Z * string) member;
  ids_memo : gmap (string * Z) (list Z);
  reverse_memo : gmap (string * Z) (list Z)
}.

(** A manager: the name of the relation and what is memoized. *)
Record manager := Manager { rel_name : string; disable_ids_fn : bool; disable_reverse_ids_fn : bool }.

Definition moderator : manager := Manager "moderator" false false.
Definition moderator_invite : manager := Manager "moderator_invite" false false.
Definition contributor : manager := Manager "contributor" true false.

(** [UserRelManager.get]. *)
Definition rel_get (mgr : manager) (thing user : Z) (st : stores) : option member := rels st !! (thing, user, rel_name mgr).

Definition with_rels (r : gmap (Z * Z * string) member) (st : stores) : stores := Stores r (ids_memo st) (reverse_memo st).

(** [add] and [remove] of [UserRelManager]; [now] dates the relation. *)
Definition rel_add (mgr : manager) (now : Z) (thing user : Z) (permissions : option perms) (note : option string) (st : stores)
  : stores * option member :=
  match rel_get mgr thing user st with
  | Some _ => (st, None)
  | None =>
      let m := Member now (dumps <$> permissions) note in
      (with_rels (<[(thing, user, rel_name mgr) := m]> (rels st)) st, Some m)
  end.

Definition rel_remove (mgr : manager) (thing user : Z) (st : stores) : stores * bool :=
  match rel_get mgr thing user st with
  | Some _ => (with_rels (delete (thing, user, rel_name mgr) (rels st)) st, true)
  | None => (st, false)
  end.

(** The queries of [ids], by date, and of [reverse_ids]; what the code leaves
    to the database is in the order of the ids. *)
Definition by_date (a b : Z * Z) : bool := (a.2 <? b.2) || ((a.2 =? b.2) && (a.1 <=? b.1)).

Definition dated (mgr : manager) (thing : Z) (st : stores) : list (Z * Z) :=
  omap (M := list) (fun e : Z * Z * string * member =>
    if bool_decide (e.1.1.1 = thing /\ e.1.2 = rel_name mgr) then Some (e.1.1.2, m_date e.2) else None) (map_to_list (rels st)).

Definition rel_ids (mgr : manager) (thing : Z) (st : stores) : list Z := fst <$> isort by_date (dated mgr thing st).

Definition related_things (mgr : manager) (user : Z) (st : stores) : list Z :=
  omap (M := list) (fun e : Z * Z * string * member =>
    if bool_decide (e.1.1.2 = user /\ e.1.2 = rel_name mgr) then Some e.1.1.1 else None) (map_to_list (rels st)).

Definition rel_reverse_ids (mgr : manager) (user : Z) (st : stores) : list Z := zsort (related_things mgr user st).

(** The memoized functions; [update] is [_update=True]. *)
Definition ids (mgr : manager) (thing : Z) (update : bool) (st : stores) : stores * list Z :=
  match ids_memo st !! (rel_name mgr, thing), update with
  | Some l, false => (st, l)
  | _, _ =>
      let l := rel_ids mgr thing st in
      (Stores (rels st) (<[(rel_name mgr, thing) := l]> (ids_memo st)) (reverse_memo st), l)
  end.

Definition reverse_ids (mgr : manager) (user : Z) (update : bool) (st : stores) : stores * list Z :=
  match reverse_memo st !! (rel_name mgr, user), update with
  | Some l, false => (st, l)
  | _, _ =>
      let l := rel_reverse_ids mgr user st in
      (Stores (rels st) (ids_memo st) (<[(rel_name mgr, user) := l]> (reverse_memo st)), l)
  end.

(** [_update_caches], and the methods it wraps. *)
Definition update_caches (mgr : manager) (thing user : Z) (st : stores) : stores :=
  let st := if disable_ids_fn mgr then st else (ids mgr thing true st).1 in
  if disable_reverse_ids_fn mgr then st else (reverse_ids mgr user true st).1.

Definition add_member (mgr : manager) (now : Z) (thing user : Z) (permissions : option perms) (note : option string) (st : stores)
  : stores * option member :=
  let r := rel_add mgr now thing user permissions note st in (update_caches mgr thing user r.1, r.2).

Definition remove_member (mgr : manager) (thing user : Z) (st : stores) : stores * bool :=
  let r := rel_remove mgr thing user st in (update_caches mgr thing user r.1, r.2).

(** [mutate] of the note, and [update_moderator_permissions]. *)
Definition mutate (mgr : manager) (now : Z) (thing user : Z) (note : option string) (st : stores) : stores :=
  match rel_get mgr thing user st with
  | Some m => with_rels (<[(thing, user, rel_name mgr) := Member (m_date m) (encoded_permissions m) note]> (rels st)) st
  | None => (add_member mgr now thing user None note st).1
  end.

Definition update_moderator_permissions (thing user : Z) (kwargs : list (string * option bool)) (st : stores) : res stores :=
  match rel_get moderator thing user st with
  | None => Ok st
  | Some m =>
      let* m := update_permissions m kwargs in
      Ok (with_rels (<[(thing, user, "moderator") := m]> (rels st)) st)
  end.

(** Any calls on a manager. *)
Inductive call :=
  | Add (thing user : Z) (permissions : option perms) (note : option string)
  | Remove (thing user : Z)
  | Mutate (thing user : Z) (note : option string)
  | Ids (thing : Z)
  | ReverseIds (user : Z).

Definition run_call (mgr : manager) (st : stores) (c : Z * call) : stores :=
  match c.2 with
  | Add thing user p note => (add_member mgr c.1 thing user p note st).1
  | Remove thing user => (remove_member mgr thing user st).1
  | Mutate thing user note => mutate mgr c.1 thing user note st
  | Ids thing => (ids mgr thing false st).1
  | ReverseIds user => (reverse_ids mgr user false st).1
  end.

(** ** Access to a subreddit *)

Record subreddit := Subreddit { sr_id : Z; sr_type : string; quarantine : bool; spammy : bool }.

Record visitor := Visitor { v_id : Z; is_global_banned : bool; gold : bool; gold_charter : bool; email_verified : bool }.

Section access.
(** The request: is the visitor an admin, and logged in; and the stores. *)
Context (user_is_admin user_is_loggedin : bool) (opted_in : Z -> Z -> bool) (st : stores).

Definition related (mgr : manager) (sr : subreddit) (u : visitor) : bool :=
  match rel_get mgr (sr_id sr) (v_id u) st with Some _ => true | None => false end.

(** [is_allowed_to_view]; a visitor of none is not logged in. *)
Definition is_allowed_to_view (sr : subreddit) (u : option visitor) : bool :=
  if bool_decide (sr_type sr ∈ ["public"; "restricted"; "gold_restricted"; "archived"]) then true
  else if user_is_loggedin then
    match u with
    | None => false
    | Some u =>
        if String.eqb (sr_type sr) "gold_only" then
          gold u || gold_charter u || related moderator sr u || related moderator_invite sr u
        else related contributor sr u || related moderator sr u || related moderator_invite sr u
    end
  else false.

(** [is_exposed]. *)
Definition is_exposed (sr : subreddit) (u : option visitor) : bool :=
  if negb (quarantine sr) then true
  else match u with None => false | Some u => email_verified u && opted_in (v_id u) (sr_id sr) end.

(** [can_view] and [can_view_in_modlist]. *)
Definition can_view (sr : subreddit) (u : option visitor) : bool :=
  if user_is_admin then true
  else if spammy sr || negb (is_exposed sr u) then false
  else is_allowed_to_view sr u.

Definition can_view_in_modlist (sr : subreddit) (u : option visitor) : bool :=
  if user_is_admin then true else if spammy sr then false else is_allowed_to_view sr u.

(** [is_moderator_with_perms], [is_limited_moderator] and
    [is_unlimited_moderator]; no moderator is no permission. *)
Fixpoint all_perms (m : member) (ps : list string) : res bool :=
  match ps with
  | [] => Ok true
  | p :: ps => let* b := has_permission m p in if b then all_perms m ps else Ok false
  end.

Definition is_moderator_with_perms (sr : subreddit) (u : visitor) (ps : list string) : res bool :=
  if is_global_banned u then Ok false
  else match rel_get moderator (sr_id sr) (v_id u) st with Some m => all_perms m ps | None => Ok false end.

Definition is_limited_moderator (sr : subreddit) (u : visitor) : res bool :=
  if is_global_banned u then Ok false
  else match rel_get moderator (sr_id sr) (v_id u) st with Some m => let* b := is_super m in Ok (negb b) | None => Ok false end.

Definition is_unlimited_moderator (sr : subreddit) (u : visitor) : res bool :=
  if is_global_banned u then Ok false
  else match rel_get moderator (sr_id sr) (v_id u) st with Some m => is_super m | None => Ok false end.

(** [can_demod]. *)
Definition can_demod (sr bully victim : Z) : res bool :=
  match rel_get moderator sr bully st with
  | None => Ok false
  | Some b =>
      if bully =? victim then Ok true
      else match rel_get moderator sr victim st with
        | None => Ok false
        | Some v => let* s := is_super b in Ok (s && (m_date b <=? m_date v))
        end
  end.
End access.

(** ** Handlers *)

(** Who makes a request: a user who is logged in, may act as an admin, and may
    be marked as spam or in timeout. *)
Record requester := Requester { r_user : visitor; r_admin : bool; r_spam : bool; in_timeout : bool }.

(** [POST_unfriend] of a moderator, [abort(403)] being [Forbidden], and whether
    one was removed. *)
Definition unfriend_moderator (q : requester) (sr : subreddit) (victim : Z) (st : stores) : res (stores * bool) :=
  let me := v_id (r_user q) in
  let self := me =? victim in
  if negb self && is_global_banned (r_user q) then Raise Forbidden
  else if negb self && r_spam q then Ok (st, false)
  else if negb self && in_timeout q then Raise Forbidden
  else
    let required_perms := if self then [] else ["access"] in
    let* ok := if r_admin q then Ok true else is_moderator_with_perms st sr (r_user q) required_perms in
    if negb ok then Raise Forbidden
    else
      let* ok := if r_admin q then Ok true else can_demod st (sr_id sr) me victim in
      if negb ok then Raise Forbidden else Ok (remove_member moderator (sr_id sr) victim st).

(** [VPermissions] of a moderator; [None] is an error of the form. *)
Definition v_permissions (permissions : option string) : res (option perms) :=
  match permissions with
  | None => Ok (Some {[ ALL := true ]})
  | Some e =>
      match loads (Some moderator_info) e true with
      | Ok p => Ok (Some p)
      | Raise ValueError => Ok None
      | Raise e => Raise e
      end
  end.

(** [POST_setpermissions] of a moderator, with its [VSrModerator]. *)
Definition set_permissions (q : requester) (sr : subreddit) (target : Z) (permissions : option string) (st : stores)
  : res (stores * bool) :=
  let me := v_id (r_user q) in
  let* mod_here := if r_admin q then Ok true else is_moderator_with_perms st sr (r_user q) [] in
  if negb mod_here then Raise Forbidden
  else
    let* p := v_permissions permissions in
    match p with
    | None => Ok (st, false)
    | Some p =>
        if is_global_banned (r_user q) then Raise Forbidden
        else if r_spam q then Ok (st, false)
        else
          let* ok := if r_admin q then Ok true else if me =? target then Ok false else can_demod st (sr_id sr) me target in
          if negb ok then Raise Forbidden
          else if negb (r_admin q) && in_timeout q then Raise Forbidden
          else
            match rel_get moderator (sr_id sr) target st with
            | None => Raise AttributeError
            | Some m => Ok (with_rels (<[(sr_id sr, target, "moderator") := with_permissions (Some (dumps p)) m]> (rels st)) st, true)
            end
    end.

(** [POST_leavemoderator]. *)
Definition leave_moderator (sr user : Z) (st : stores) : stores :=
  match rel_get moderator sr user st with Some _ => (remove_member moderator sr user st).1 | None => st end.

(** ** Moderation over time *)

(** The requests that change the moderators of subreddits; a user becomes one
    by creating the subreddit or by an invitation. *)
Inductive event :=
  | Join (sr user : Z) (p : option perms)
  | Unfriend (q : requester) (sr : subreddit) (victim : Z)
  | SetPermissions (q : requester) (sr : subreddit) (target : Z) (permissions : option string)
  | Leave (sr user : Z).

(** A handler that raises changes nothing. *)
Definition kept_on_error (st : stores) (r : res (stores * bool)) : stores := match r with Ok r => r.1 | Raise _ => st end.

Definition mod_event (st : stores) (e : Z * event) : stores :=
  match e.2 with
  | Join sr user p => (add_member moderator e.1 sr user p None st).1
  | Unfriend q sr victim => kept_on_error st (unfriend_moderator q sr victim st)
  | SetPermissions q sr target p => kept_on_error st (set_permissions q sr target p st)
  | Leave sr user => leave_moderator sr user st
  end.
End Members.
