(* ===== verification/MembersProps.v ===== *)
(** * Members of subreddits: properties

    Permissions survive their encoding; the memoized lists of members and of
    things are those of the relations after any calls; the senior moderator
    of a subreddit cannot be removed by another. *)

From S2P Require Import Prelude PyString Members.
From Stdlib Require Import Ascii.

Module MembersProps.
Import PyString Members.

(** ** Encoding of permissions *)

Definition comma : ascii := ",".

Definition plain (p : perms) : Prop := forall k b, p !! k = Some b -> contains comma k = false.

Lemma load_dump_term kv : load_term (dump_term kv) = Ok kv.
Proof. destruct kv as [k []]; done. Qed.

Lemma dump_term_plain p kv : plain p -> kv ∈ map_to_list p -> contains comma (dump_term kv) = false.
Proof.
  intros Hp. destruct kv as [k b]. intros Hin%elem_of_map_to_list. unfold dump_term. rewrite contains_app. simpl.
  rewrite (Hp k b Hin). by destruct b.
Qed.

Lemma res_mapM_load l : res_mapM load_term (dump_term <$> l) = Ok l.
Proof. induction l as [|kv l IH]; [done|]. rewrite fmap_cons. cbn [res_mapM]. rewrite load_dump_term, IH. done. Qed.

Lemma insert_items (l : list (string * bool)) (p : perms) :
  foldl (fun p kv => <[kv.1 := kv.2]> p) p l = list_to_map (reverse l) ∪ p.
Proof.
  revert p. induction l as [|[k b] l IH]; intros p; simpl; [by rewrite (left_id_L ∅ _)|].
  rewrite IH, reverse_cons, list_to_map_app. rewrite <- (assoc_L (∪)). f_equal.
  simpl. by rewrite insert_empty, insert_union_singleton_l.
Qed.

Lemma load_items p : foldl (fun p kv => <[kv.1 := kv.2]> p) (∅ : perms) (sorted_items p) = p.
Proof.
  rewrite insert_items, (right_id_L ∅ _). unfold sorted_items.
  rewrite (list_to_map_proper _ (map_to_list p)).
  - apply list_to_map_to_list.
  - rewrite reverse_Permutation, isort_perm. apply NoDup_fst_map_to_list.
  - by rewrite reverse_Permutation, isort_perm.
Qed.

Lemma join_terms_nonempty l : l <> [] -> String.eqb (py_join "," (dump_term <$> l)) "" = false.
Proof.
  destruct l as [|[k b] [|x l]]; [done|..]; intros _; [by destruct b|].
  rewrite !fmap_cons, py_join_cons. by destruct b.
Qed.

(** What the encoding of a set of permissions loads as. *)
Lemma loads_dumps info p :
  plain p -> loads info (dumps p) false = Ok (if is_superuser p then {[ ALL := true ]} else delete ALL p).
Proof.
  intros Hp. unfold dumps. destruct (is_superuser p) eqn:Es; [done|].
  destruct (decide (p = ∅)) as [-> | Hne].
  { vm_compute. done. }
  assert (Hitems : sorted_items p <> []).
  { unfold sorted_items. intros He. apply (f_equal length) in He. rewrite length_isort in He. simpl in He.
    apply nil_length_inv, map_to_list_empty_iff in He. done. }
  unfold loads. rewrite join_terms_nonempty by done.
  rewrite py_split_join.
  - rewrite res_mapM_load. simpl. rewrite load_items. f_equal. case_bool_decide as Hall; [done|].
    symmetry. apply delete_id. unfold is_superuser in Es. destruct (p !! ALL) as [[]|]; done.
  - by intros ?%fmap_nil_inv.
  - apply Forall_fmap, Forall_forall. intros kv Hkv%elem_of_isort. by apply (dump_term_plain p).
Qed.

(** A set of moderator permissions that was encoded and loaded again is a
    superuser's exactly if it was, and answers for every permission as
    before. *)
Theorem permissions_roundtrip p :
  plain p ->
  exists p', moderator_loads (Some (dumps p)) = Ok p' /\ is_superuser p' = is_superuser p /\
    (forall key dflt, key <> ALL -> perm_get (Some moderator_info) p' key dflt = perm_get (Some moderator_info) p key dflt) /\
    (forall key, getitem (Some moderator_info) p' key = getitem (Some moderator_info) p key).
Proof.
  intros Hp. simpl. rewrite loads_dumps by done. eexists. split; [done|].
  assert (Hs : is_superuser (if is_superuser p then {[ ALL := true ]} else delete ALL p) = is_superuser p).
  { destruct (is_superuser p) eqn:Es; [done|]. unfold is_superuser. by rewrite lookup_delete_eq. }
  split; [done|]. split.
  - intros key dflt Hk. unfold perm_get. rewrite Hs. destruct (is_superuser p); [done|]. rewrite andb_false_r.
    by rewrite lookup_delete_ne.
  - intros key. unfold getitem. rewrite Hs. destruct (is_superuser p) eqn:Es; [done|]. rewrite andb_false_r.
    destruct (decide (key = ALL)) as [-> | Hk]; [|by rewrite lookup_delete_ne].
    rewrite lookup_delete_eq. by unfold is_superuser in Es; rewrite Es.
Qed.

(** ** Memoized lists *)

Lemma elem_of_dated mgr thing st u d :
  (u, d) ∈ dated mgr thing st <-> m_date <$> rels st !! (thing, u, rel_name mgr) = Some d.
Proof.
  unfold dated. rewrite list_elem_of_omap, fmap_Some. split.
  - intros ([[[t v] n] m] & Hin%elem_of_map_to_list & Hm). simpl in Hm. case_bool_decide as Hd; [|done].
    destruct Hd as [-> ->]. simplify_eq. eauto.
  - intros (m & Hm & ->). exists (thing, u, rel_name mgr, m). split; [by apply elem_of_map_to_list|]. simpl.
    by rewrite bool_decide_true.
Qed.

Lemma NoDup_dated mgr thing st : NoDup (dated mgr thing st).
Proof.
  unfold dated. pose proof (NoDup_map_to_list (rels st)) as Hnd.
  assert (Hin : forall e, e ∈ map_to_list (rels st) -> rels st !! e.1 = Some e.2) by (intros [k m]; apply elem_of_map_to_list).
  induction (map_to_list (rels st)) as [|[[[t u] n] m] l IH]; [constructor|].
  apply NoDup_cons in Hnd as [Hn Hnd]. simpl. specialize (IH Hnd (fun e He => Hin e (list_elem_of_further _ _ _ He))).
  case_bool_decide as Hd; [|done]. destruct Hd as [-> ->]. constructor; [|done].
  rewrite list_elem_of_omap. intros ([[[t' u'] n'] m'] & Hin' & Hm). simpl in Hm. case_bool_decide as Hd; [|done].
  destruct Hd as [-> ->]. injection Hm as Hu Hdate. subst u'. apply Hn.
  pose proof (Hin _ (list_elem_of_here _ _)) as H1. pose proof (Hin _ (list_elem_of_further _ _ _ Hin')) as H2. simpl in *.
  by simplify_eq.
Qed.

#[export] Instance by_date_antisym : AntiSymm (=) (leP by_date).
Proof.
  intros [u d] [v e] Ha%Is_true_true Hb%Is_true_true. unfold by_date in *. simpl in *.
  assert (d = e /\ u = v) as [-> ->]; [|done]. lia.
Qed.

Lemma by_date_sorted l : StronglySorted (leP by_date) (isort by_date l).
Proof.
  apply isort_sorted.
  - intros [u d] [v e]. unfold by_date. simpl. lia.
  - intros [u d] [v e] [w f]. unfold by_date. simpl. lia.
Qed.

(** The lists depend on the dates of the relations only. *)
Definition same_dates (n : string) (thing : Z) (st st' : stores) : Prop :=
  forall u, m_date <$> rels st !! (thing, u, n) = m_date <$> rels st' !! (thing, u, n).

Lemma rel_ids_ext mgr thing st st' : same_dates (rel_name mgr) thing st st' -> rel_ids mgr thing st = rel_ids mgr thing st'.
Proof.
  intros Hd. unfold rel_ids. f_equal. apply (StronglySorted_unique (leP by_date)); try apply by_date_sorted.
  rewrite !isort_perm. apply NoDup_Permutation; [apply NoDup_dated..|]. intros [u d]. rewrite !elem_of_dated, Hd. done.
Qed.

Lemma elem_of_related_things mgr user st t :
  t ∈ related_things mgr user st <-> is_Some (rels st !! (t, user, rel_name mgr)).
Proof.
  unfold related_things. rewrite list_elem_of_omap. split.
  - intros ([[[t' v] n] m] & Hin%elem_of_map_to_list & Hm). simpl in Hm. case_bool_decide as Hd; [|done].
    destruct Hd as [-> ->]. simplify_eq. eauto.
  - intros [m Hm]. exists (t, user, rel_name mgr, m). split; [by apply elem_of_map_to_list|]. simpl.
    by rewrite bool_decide_true.
Qed.

Lemma NoDup_related_things mgr user st : NoDup (related_things mgr user st).
Proof.
  unfold related_things. pose proof (NoDup_fst_map_to_list (rels st)) as Hnd.
  induction (map_to_list (rels st)) as [|[[[t u] n] m] l IH]; [constructor|].
  rewrite fmap_cons in Hnd. apply NoDup_cons in Hnd as [Hn Hnd]. simpl in *. specialize (IH Hnd).
  case_bool_decide as Hd; [|done]. destruct Hd as [-> ->]. constructor; [|done].
  rewrite list_elem_of_omap. intros ([[[t' u'] n'] m'] & Hin' & Hm). simpl in Hm. case_bool_decide as Hd; [|done].
  destruct Hd as [-> ->]. injection Hm as Ht. subst t'. apply Hn. apply list_elem_of_fmap.
  eexists. split; [|exact Hin']. done.
Qed.

Lemma rel_reverse_ids_ext mgr user st st' :
  (forall t, is_Some (rels st !! (t, user, rel_name mgr)) <-> is_Some (rels st' !! (t, user, rel_name mgr))) ->
  rel_reverse_ids mgr user st = rel_reverse_ids mgr user st'.
Proof.
  intros Hd. unfold rel_reverse_ids. apply (StronglySorted_unique Z.le); try apply zsort_sorted.
  unfold zsort. rewrite !isort_perm. apply NoDup_Permutation; [apply NoDup_related_things..|]. intros t.
  by rewrite !elem_of_related_things, Hd.
Qed.

(** What is memoized is what the queries give. *)
Record fresh (mgr : manager) (st : stores) : Prop := {
  fresh_ids thing l : ids_memo st !! (rel_name mgr, thing) = Some l -> l = rel_ids mgr thing st;
  fresh_reverse user l : reverse_memo st !! (rel_name mgr, user) = Some l -> l = rel_reverse_ids mgr user st
}.

Lemma fresh_rels mgr st r thing user :
  disable_ids_fn mgr = false -> disable_reverse_ids_fn mgr = false -> fresh mgr st ->
  (forall t u, (t, u) <> (thing, user) -> r !! (t, u, rel_name mgr) = rels st !! (t, u, rel_name mgr)) ->
  fresh mgr (update_caches mgr thing user (with_rels r st)).
Proof.
  intros Hi Hr [Hids Hrev] Hsame. unfold update_caches. rewrite Hi, Hr. unfold ids, reverse_ids. simpl.
  destruct (ids_memo st !! _) as [l1|]; simpl; destruct (reverse_memo st !! _) as [l2|]; simpl.
  all: constructor; simpl.
  1, 3, 5, 7: intros t l; destruct (decide (t = thing)) as [-> | Hne];
    [rewrite lookup_insert_eq; by intros [= <-]|rewrite lookup_insert_ne by congruence; intros ->%Hids;
     apply rel_ids_ext; intros u; simpl; by rewrite Hsame by congruence].
  all: intros u l; destruct (decide (u = user)) as [-> | Hne];
    [rewrite lookup_insert_eq; intros [= <-]; apply rel_reverse_ids_ext; done
    |rewrite lookup_insert_ne by congruence; intros ->%Hrev; apply rel_reverse_ids_ext; intros t; simpl;
     by rewrite Hsame by congruence].
Qed.

Lemma fresh_same mgr st st' :
  fresh mgr st -> ids_memo st' = ids_memo st -> reverse_memo st' = reverse_memo st ->
  (forall t, same_dates (rel_name mgr) t st st') -> fresh mgr st'.
Proof.
  intros [Hids Hrev] Ei Er Hd. constructor.
  - intros t l. rewrite Ei. intros ->%Hids. by apply rel_ids_ext.
  - intros u l. rewrite Er. intros ->%Hrev. apply rel_reverse_ids_ext. intros t. specialize (Hd t u).
    destruct (rels st !! _), (rels st' !! _); simpl in Hd; try done; split; intros [? ?]; eauto; done.
Qed.

Lemma run_call_fresh mgr st c :
  disable_ids_fn mgr = false -> disable_reverse_ids_fn mgr = false -> fresh mgr st -> fresh mgr (run_call mgr st c).
Proof.
  intros Hi Hr Hf.
  assert (Hadd : forall now thing user p note, fresh mgr (add_member mgr now thing user p note st).1).
  { intros now thing user p note. unfold add_member, rel_add. destruct (rel_get mgr thing user st) as [m|]; simpl.
    - destruct st as [r i v]. by apply (fresh_rels mgr (Stores r i v) r thing user).
    - apply fresh_rels; [done..|]. intros t u Hne. by rewrite lookup_insert_ne by congruence. }
  destruct c as [now [thing user p note|thing user|thing user note|thing|user]]; unfold run_call; cbn [snd fst].
  - apply Hadd.
  - unfold remove_member, rel_remove. destruct (rel_get mgr thing user st) as [m|]; simpl.
    + apply fresh_rels; [done..|]. intros t u Hne. by rewrite lookup_delete_ne by congruence.
    + destruct st as [r i v]. by apply (fresh_rels mgr (Stores r i v) r thing user).
  - unfold mutate. destruct (rel_get mgr thing user st) as [m|] eqn:Em; [|apply Hadd].
    apply (fresh_same mgr st); try done. intros t u. unfold rel_get in Em. simpl.
    destruct (decide ((t, u) = (thing, user))) as [[= -> ->]|Hne]; [by rewrite lookup_insert_eq, Em|].
    by rewrite lookup_insert_ne by congruence.
  - unfold ids. destruct (ids_memo st !! (rel_name mgr, thing)) as [l|] eqn:El; [done|]. destruct Hf as [Hids Hrev].
    constructor; simpl; [|exact Hrev]. intros t l. destruct (decide (t = thing)) as [-> | Hne].
    + rewrite lookup_insert_eq. by intros [= <-].
    + rewrite lookup_insert_ne by congruence. apply Hids.
  - unfold reverse_ids. destruct (reverse_memo st !! (rel_name mgr, user)) as [l|] eqn:El; [done|].
    destruct Hf as [Hids Hrev]. constructor; simpl; [exact Hids|]. intros u l. destruct (decide (u = user)) as [-> | Hne].
    + rewrite lookup_insert_eq. by intros [= <-].
    + rewrite lookup_insert_ne by congruence. apply Hrev.
Qed.

(** Whatever calls add, remove and change members and ask for lists in
    between, the lists a manager remembers are those the database would give:
    the members of a thing by date, and the things of a user. *)
Theorem memoized_lists_fresh mgr start (calls : list (Z * call)) :
  disable_ids_fn mgr = false -> disable_reverse_ids_fn mgr = false ->
  ids_memo start = ∅ -> reverse_memo start = ∅ ->
  let st := foldl (run_call mgr) start calls in
  (forall thing, (ids mgr thing false st).2 = rel_ids mgr thing st) /\
  (forall user, (reverse_ids mgr user false st).2 = rel_reverse_ids mgr user st) /\
  forall thing user, user ∈ rel_ids mgr thing st <-> is_Some (rel_get mgr thing user st).
Proof.
  intros Hi Hr Ei Er. cbv zeta.
  assert (Hf : fresh mgr (foldl (run_call mgr) start calls)).
  { assert (Hs : fresh mgr start) by (constructor; intros ? ?; rewrite ?Ei, ?Er; by rewrite lookup_empty).
    clear Ei Er. revert start Hs. induction calls as [|c calls IH]; intros start Hs; simpl; [done|].
    apply IH. by apply run_call_fresh. }
  set (st := foldl _ _ _) in *. clearbody st. split_and!.
  - intros thing. unfold ids. destruct (ids_memo st !! _) as [l|] eqn:El; [|done]. by apply (fresh_ids _ _ Hf).
  - intros user. unfold reverse_ids. destruct (reverse_memo st !! _) as [l|] eqn:El; [|done]. by apply (fresh_reverse _ _ Hf).
  - intros thing user. unfold rel_ids, rel_get. rewrite list_elem_of_fmap. split.
    + intros ([u d] & -> & Hin%elem_of_isort). apply elem_of_dated, fmap_Some in Hin as (m & Hm & _). simpl. eauto.
    + intros [m Hm]. exists (user, m_date m). split; [done|]. apply elem_of_isort, elem_of_dated. by rewrite Hm.
Qed.

(** ** Seniority *)

Lemma rels_update_caches mgr thing user st : rels (update_caches mgr thing user st) = rels st.
Proof.
  unfold update_caches, ids, reverse_ids.
  destruct (disable_ids_fn mgr), (disable_reverse_ids_fn mgr), (ids_memo st !! (rel_name mgr, thing)); simpl; try done;
    by destruct (reverse_memo st !! (rel_name mgr, user)).
Qed.

Section senior.
Variables (sr user : Z) (m0 : member) (start : stores).

(** The moderators who joined no later than [user], who is one of them. *)
Definition elder (u : Z) : Prop := exists m, rel_get moderator sr u start = Some m /\ m_date m <= m_date m0.

(** Neither admins nor [user] remove [user] or set the permissions of those who
    joined no later. *)
Definition spares (e : event) : Prop :=
  match e with
  | Join _ _ _ => True
  | Unfriend q s v => sr_id s = sr -> v = user -> r_admin q = false /\ v_id (r_user q) <> user
  | SetPermissions q s v _ => sr_id s = sr -> elder v -> r_admin q = false /\ v_id (r_user q) <> user
  | Leave s u => ~ (s = sr /\ u = user)
  end.

(** [user] is a moderator, and no other who joined no later has full
    permissions. *)
Record unchallenged (st : stores) : Prop := {
  uc_user : rel_get moderator sr user st = Some m0;
  uc_elder u m : u <> user -> rel_get moderator sr u st = Some m -> m_date m <= m_date m0 -> elder u /\ is_super m = Ok false
}.

Lemma unchallenged_rels st st' : rels st' = rels st -> unchallenged st -> unchallenged st'.
Proof. intros E [H1 H2]. unfold rel_get in *. by split; unfold rel_get; rewrite E. Qed.

Lemma unchallenged_insert st s u m :
  unchallenged st -> (s, u) <> (sr, user) -> (s = sr -> m_date m <= m_date m0 -> elder u /\ is_super m = Ok false) ->
  unchallenged (with_rels (<[(s, u, "moderator") := m]> (rels st)) st).
Proof.
  intros [Hu He] Hne Hm. unfold rel_get in *. split; unfold rel_get; simpl in *.
  - by rewrite lookup_insert_ne by congruence.
  - intros v m' Hv. destruct (decide ((s, u) = (sr, v))) as [[= -> ->]|Hne'].
    + rewrite lookup_insert_eq. intros [= <-]. by apply Hm.
    + rewrite lookup_insert_ne by congruence. by apply He.
Qed.

Lemma unchallenged_remove st s v : unchallenged st -> (s, v) <> (sr, user) -> unchallenged (remove_member moderator s v st).1.
Proof.
  intros [Hu He] Hne. unfold remove_member. cbn [fst]. eapply unchallenged_rels; [apply rels_update_caches|]. unfold rel_remove.
  destruct (rel_get moderator s v st); [|done]. cbn [fst]. unfold rel_get in *. split; unfold rel_get; simpl in *.
  - by rewrite lookup_delete_ne by congruence.
  - intros u m' Hv [_ Hm]%lookup_delete_Some. by eapply He.
Qed.

(** Of the others only one with full permissions passes [can_demod]. *)
Lemma nobody_demods st bully victim :
  unchallenged st -> bully <> user -> (exists m, rel_get moderator sr victim st = Some m /\ m_date m <= m_date m0) ->
  victim <> bully -> can_demod st sr bully victim <> Ok true.
Proof.
  intros [_ He] Hb (m & Hm & Hd) Hne. unfold can_demod. destruct (rel_get moderator sr bully st) as [b|] eqn:Eb; [|done].
  rewrite (proj2 (Z.eqb_neq bully victim)), Hm by done. destruct (is_super b) as [s|e] eqn:Es; [|done]. cbn [res_bind]. intros [= Hok].
  apply andb_true_iff in Hok as [-> Hle%Z.leb_le]. destruct (He bully b Hb Eb ltac:(lia)) as [_ Hs]. congruence.
Qed.

Lemma unfriend_unchallenged st q s v :
  unchallenged st -> spares (Unfriend q s v) -> unchallenged (kept_on_error st (unfriend_moderator q s v st)).
Proof.
  intros Hst Hsp. unfold unfriend_moderator. set (me := v_id (r_user q)).
  destruct (_ && is_global_banned _); [done|]. destruct (_ && r_spam q); [done|]. destruct (_ && in_timeout q); [done|].
  destruct (if r_admin q then _ else _) as [[]|]; [|done..]. cbn [res_bind negb].
  destruct (decide ((sr_id s, v) = (sr, user))) as [[= Es ->]|Hne].
  - destruct (Hsp Es eq_refl) as [-> Hme]. fold me in Hme.
    destruct (can_demod st (sr_id s) me user) as [[]|] eqn:Ec; [|done..]. exfalso. rewrite Es in Ec.
    eapply nobody_demods; [done|exact Hme| |exact (not_eq_sym Hme)|exact Ec]. exists m0. split; [by apply (uc_user st)|lia].
  - destruct (if r_admin q then _ else _) as [[]|]; [|done..]. cbn [res_bind negb kept_on_error]. by apply unchallenged_remove.
Qed.

Lemma set_permissions_unchallenged st q s v p :
  elder user -> unchallenged st -> spares (SetPermissions q s v p) -> unchallenged (kept_on_error st (set_permissions q s v p st)).
Proof.
  intros Hel Hst Hsp. unfold set_permissions. set (me := v_id (r_user q)).
  destruct (if r_admin q then _ else _) as [[]|]; [|done..]. cbn [res_bind negb].
  destruct (v_permissions p) as [[p'|]|]; [|done..]. cbn [res_bind]. destruct (is_global_banned _); [done|]. destruct (r_spam q); [done|].
  destruct (if r_admin q then _ else _) as [[]|] eqn:Ec; [|done..]. cbn [res_bind negb]. destruct (_ && in_timeout q); [done|].
  destruct (rel_get moderator (sr_id s) v st) as [m|] eqn:Ev; [|done]. cbn [kept_on_error fst].
  assert (Hnot : sr_id s = sr -> m_date m <= m_date m0 -> elder v -> False).
  { intros Es Hd Hv. destruct (Hsp Es Hv) as [Ha Hme]. fold me in Hme. rewrite Ha in Ec.
    destruct (Z.eqb_spec me v) as [|Hmv]; [done|]. rewrite Es in Ec, Ev.
    by eapply nobody_demods; [exact Hst|exact Hme|exists m; split; [exact Ev|exact Hd]|exact (not_eq_sym Hmv)|exact Ec]. }
  apply unchallenged_insert; [done| |].
  - intros [= Es ->]. rewrite Es in Ev. pose proof (uc_user st Hst) as Hu. apply Hnot; [done| |done]. rewrite Hu in Ev. injection Ev as <-. lia.
  - cbn [with_permissions m_date]. intros Es Hd. exfalso. destruct (decide (v = user)) as [-> |Hvu]; [by apply Hnot|].
    apply Hnot; [done..|]. rewrite Es in Ev. by apply (uc_elder st Hst v m).
Qed.

Lemma mod_event_unchallenged st e :
  elder user -> unchallenged st -> m_date m0 < e.1 -> spares e.2 -> unchallenged (mod_event st e).
Proof.
  intros Hel Hst Hnow Hsp. destruct e as [now [s u p|q s v|q s v p|s u]]; unfold mod_event; cbn [fst snd] in *.
  - unfold add_member. cbn [fst]. eapply unchallenged_rels; [apply rels_update_caches|]. unfold rel_add.
    destruct (rel_get moderator s u st) as [m|] eqn:Em; cbn [fst]; [done|]. apply unchallenged_insert; [done| |].
    + intros [= -> ->]. by rewrite (uc_user st Hst) in Em.
    + cbn [m_date]. lia.
  - by apply unfriend_unchallenged.
  - by apply set_permissions_unchallenged.
  - unfold leave_moderator. destruct (rel_get moderator s u st); [|done]. apply unchallenged_remove; [done|].
    intros [= -> ->]. by apply Hsp.
Qed.
End senior.

(** C17. A moderator stays one with the permissions it has, over any
    invitations, removals, changes of permissions and departures, when no other
    moderator who joined no later has full permissions, and as long as it does
    not leave and neither an admin removes it nor an admin or itself sets
    permissions of those who joined no later. *)
Theorem senior_moderator_stays sr user m0 st (events : list (Z * event)) :
  unchallenged sr user m0 st st ->
  (forall e, e ∈ events -> m_date m0 < e.1 /\ spares sr user m0 st e.2) ->
  rel_get moderator sr user (foldl mod_event st events) = Some m0.
Proof.
  intros Hst. assert (Hel : elder sr m0 st user) by (exists m0; split; [by apply (uc_user _ _ _ _ _ Hst)|lia]).
  pose proof Hst as Hcur. revert Hcur. generalize st at 2 4 as cur. induction events as [|e events IH]; intros cur Hcur He; simpl.
  { by apply (uc_user _ _ _ _ _ Hcur). }
  destruct (He e) as (Hnow & Hsp); [left|]. apply IH; [by apply mod_event_unchallenged|]. intros e' He'. apply He. by right.
Qed.

(** ** Viewing *)

(** A visitor who is not an admin sees a private subreddit only as one of its
    members or invited moderators, and a quarantined one only after opting in
    with a verified address. *)
Lemma can_view_restricted loggedin opted st sr u :
  can_view false loggedin opted st sr (Some u) = true ->
  (quarantine sr = true -> email_verified u = true /\ opted (v_id u) (sr_id sr) = true) /\
  (sr_type sr = "private" ->
    loggedin = true /\ (is_Some (rel_get contributor (sr_id sr) (v_id u) st) \/
      is_Some (rel_get moderator (sr_id sr) (v_id u) st) \/ is_Some (rel_get moderator_invite (sr_id sr) (v_id u) st))).
Proof.
  unfold can_view. destruct (spammy sr || negb (is_exposed opted sr (Some u))) eqn:E; [done|].
  apply orb_false_iff in E as [_ Hexp%negb_false_iff]. intros Hview. split.
  - intros Hq. unfold is_exposed in Hexp. rewrite Hq in Hexp. simpl in Hexp. by apply andb_true_iff in Hexp.
  - intros Ht. unfold is_allowed_to_view in Hview. rewrite Ht in Hview. simpl in Hview. destruct loggedin; [|done].
    split; [done|]. unfold related in Hview.
    destruct (rel_get contributor (sr_id sr) (v_id u) st), (rel_get moderator (sr_id sr) (v_id u) st),
      (rel_get moderator_invite (sr_id sr) (v_id u) st); try done; eauto.
Qed.

(** ** Instances *)

Lemma permissions_roundtrip_witness :
  let p : perms := {[ "access" := true; "mail" := false ]} in
  exists p', moderator_loads (Some (dumps p)) = Ok p' /\ getitem (Some moderator_info) p' "access" = true.
Proof.
  intros p. destruct (permissions_roundtrip p) as (p' & Hl & _ & _ & Hg).
  - intros k b. unfold p. rewrite lookup_insert_Some, lookup_singleton_Some.
    intros [[<- _]|[_ [<- _]]]; reflexivity.
  - exists p'. split; [exact Hl|]. rewrite Hg. vm_compute. reflexivity.
Defined.

Definition no_members : stores := Stores ∅ ∅ ∅.

Definition some_calls : list (Z * call) :=
  [(10, Ids 1); (10, Add 1 7 None None); (12, Add 1 5 None None); (12, Add 2 7 None None); (13, Ids 1);
   (20, Mutate 1 7 (Some "founder")); (21, Remove 1 5)].

Lemma memoized_lists_fresh_witness :
  let st := foldl (run_call moderator) no_members some_calls in
  (ids moderator 1 false st).2 = rel_ids moderator 1 st /\ rel_ids moderator 1 st = [7].
Proof.
  intros st. destruct (memoized_lists_fresh moderator no_members some_calls eq_refl eq_refl eq_refl eq_refl) as (Hi & _ & _).
  split; [exact (Hi 1)|]. vm_compute. reflexivity.
Defined.

(** The founder, a moderator of limited permissions who tries to remove the
    founder, one who does not get away with it, and one who gives the first
    full permissions and is removed by an admin. *)
Definition founder : member := Member 5 None None.

Definition somewhere : subreddit := Subreddit 1 "public" false false.
Definition acting (admin : bool) (i : Z) : requester := Requester (Visitor i false false false true) admin false false.

Definition intrigue : list (Z * event) :=
  [(10, Join 1 8 (Some {[ "access" := true ]})); (11, Join 1 9 None); (12, Unfriend (acting false 8) somewhere 7);
   (13, Unfriend (acting false 9) somewhere 7); (14, SetPermissions (acting false 9) somewhere 8 (Some "+all"));
   (15, SetPermissions (acting false 7) somewhere 8 (Some "+all")); (16, Unfriend (acting false 8) somewhere 7);
   (17, Unfriend (acting false 8) somewhere 9); (18, Unfriend (acting true 99) somewhere 8)].

Definition founded : stores := Stores {[ (1, 7, "moderator") := founder ]} ∅ ∅.

Lemma senior_moderator_stays_witness :
  rel_get moderator 1 7 (foldl mod_event founded intrigue) = Some founder /\
  rel_ids moderator 1 (foldl mod_event founded (take 7 intrigue)) = [7; 8; 9] /\
  rel_ids moderator 1 (foldl mod_event founded intrigue) = [7].
Proof.
  split; [|split; vm_compute; reflexivity].
  apply (senior_moderator_stays 1 7 founder founded intrigue).
  - split; [reflexivity|]. intros u m Hne. unfold rel_get. simpl. rewrite lookup_singleton_Some. intros [[= <-] _]. done.
  - intros e He.
    assert (Hel : forall u, elder 1 founder founded u -> u = 7)
      by (intros u (m & Hm & _); unfold rel_get in Hm; simpl in Hm; apply lookup_singleton_Some in Hm as [[= <-] _]; reflexivity).
    assert (Hev : Forall (fun e : Z * event => m_date founder < e.1 /\ spares 1 7 founder founded e.2) intrigue).
    { unfold intrigue. repeat (apply Forall_cons_2 || apply Forall_nil_2). all: split; [simpl; lia|].
      all: cbn [snd spares]; try exact I. all: intros _ E; try apply Hel in E; try discriminate E. all: split; [reflexivity|discriminate]. }
    exact (proj1 (Forall_forall _ _) Hev e He).
Defined.

(** A denial to a moderator with full permissions has no effect: the encoding
    of a superuser holds nothing else. *)
Example denial_of_superuser_ignored :
  (let* m := update_permissions founder [("posts", Some false)] in has_permission m "posts") = Ok true.
Proof. vm_compute. reflexivity. Qed.

(** Asked for [all], a superuser's set gives the default. *)
Example superuser_get_all :
  perm_get (Some moderator_info) {[ ALL := true ]} ALL None = None /\ getitem (Some moderator_info) {[ ALL := true ]} ALL = true.
Proof. vm_compute. done. Qed.
End MembersProps.
