(* ===== verification/Tokens.v ===== *)
(** * OAuth tokens

    models/token.py: the scopes a token carries, authorization codes as
    column-family things that are used once, access and refresh tokens with
    their lists by user, and the developers of a client. *)

From S2P Require Import Prelude PyString Tdb.
From Stdlib Require Import Ascii.

Module Tokens.
Import PyString Tdb.

(** ** Scopes *)

(** [OAuth2Scope]; without subreddits, the set is empty. *)
Record scope := Scope { subreddit_only : bool; subreddits : gset string; scopes : gset string }.

Definition FULL_ACCESS : string := "*".

Definition sorted_set (s : gset string) : list string := isort String.leb (elements s).

(** [_parse_scope_str] and [__init__] of a text; an empty one is no scope. *)
Definition parse_scope_str (s : string) : scope :=
  let p := rpartition ":" s in
  let scopes := list_to_set (py_split " " (replace_char "," " " p.2)) in
  if p.1.2 then Scope true (list_to_set (py_split "+" p.1.1)) scopes else Scope false ∅ scopes.

Definition scope_of_str (s : string) : scope := if String.eqb s "" then Scope false ∅ ∅ else parse_scope_str s.

(** [__str__]. *)
Definition scope_str (s : scope) : string :=
  (if subreddit_only s then py_join "+" (sorted_set (subreddits s)) +:+ ":" else "") +:+ py_join " " (sorted_set (scopes s)).

Definition has_access (s : scope) (subreddit : string) (required_scopes : gset string) : bool :=
  if bool_decide (FULL_ACCESS ∈ scopes s) then true
  else if subreddit_only s && bool_decide (subreddit ∉ subreddits s) then false
  else bool_decide (required_scopes ⊆ scopes s).

Definition has_any_scope (s : scope) (required_scopes : gset string) : bool :=
  if bool_decide (FULL_ACCESS ∈ scopes s) then true else negb (bool_decide (scopes s ∩ required_scopes = ∅)).

(** The names in [scope_info], with the id each is described by. *)
Definition scope_ids : gmap string string := list_to_map
  ((fun n => (n, if String.eqb n "wikiedit" then "wiki" else n)) <$>
   ["account"; "creddits"; "edit"; "flair"; "history"; "identity"; "modcontributors"; "modflair"; "modposts"; "modconfig";
    "modlog"; "modothers"; "modself"; "modtraffic"; "modwiki"; "mysubreddits"; "privatemessages"; "read"; "report"; "save";
    "submit"; "subscribe"; "vote"; "wikiedit"; "wikiread"]).

Definition scope_is_valid (s : scope) : bool := bool_decide (scopes s ⊆ dom scope_ids).

(** [merge_scopes]: the sets of scopes are objects; a subreddit seen first in
    a scope gets that scope's own set, which later updates change. *)
Definition places (s : scope) : list (option string) :=
  if subreddit_only s then Some <$> elements (subreddits s) else [None].

Definition merge_place (i : nat) (m : gmap nat (gset string) * gmap (option string) nat) (sr : option string)
  : gmap nat (gset string) * gmap (option string) nat :=
  match m.2 !! sr with
  | Some r => (<[r := default ∅ (m.1 !! r) ∪ default ∅ (m.1 !! i)]> m.1, m.2)
  | None => (m.1, <[sr := i]> m.2)
  end.

Definition merge_all (l : list (nat * scope)) (m : gmap nat (gset string) * gmap (option string) nat) :=
  foldl (fun m x => foldl (merge_place x.1) m (places x.2)) m l.

Definition merge_scopes (l : list scope) : gmap (option string) (gset string) :=
  let indexed := imap pair l in
  let m := merge_all indexed (list_to_map (prod_map id scopes <$> indexed), ∅) in
  (fun r => default ∅ (m.1 !! r)) <$> m.2.

(** ** Authorization codes *)

(** The class of codes; a code's columns expire together. *)
Definition AuthorizationCode : schema :=
  Schema "OAuth2AuthorizationCode" [] [] ["used"; "refreshable"] [] [] [] [] None (Some "date")
    (list_to_map [("used", VBool false); ("client_id", VStr ""); ("redirect_uri", VStr ""); ("scope", VStr "");
      ("refreshable", VBool false)])
    (Some 600) ∅ (fun attr => if String.eqb attr "date" then "DateType" else "UTF8Type").

Section codes.
Context `{Codecs}.

(** [OAuth2AuthorizationCode._new]: the thing that is committed. *)
Definition new_code (id client redirect user scope : string) (refreshable : bool) : thing :=
  new_thing (Some id) (list_to_map [("client_id", VStr client); ("redirect_uri", VStr redirect); ("user_id", VStr user);
    ("scope", VStr scope); ("refreshable", VBool refreshable)]).

(** [_generate_unique_token], given three random tokens. *)
Fixpoint unique_token (cls : schema) (now : Z) (candidates : list string) (w : world) : res (world * string) :=
  match candidates with
  | [] => Raise ValueError
  | token :: candidates =>
      match by_id cls now token None w with
      | Ok (w, _) => unique_token cls now candidates w
      | Raise NotFound => Ok (w, token)
      | Raise e => Raise e
      end
  end.

(** [ConsumableToken.get_token]. *)
Definition get_token (cls : schema) (now : Z) (id : option string) (w : world) : res (world * option nat) :=
  match id with
  | None => Ok (w, None)
  | Some id =>
      match by_id cls now id None w with
      | Raise NotFound => Ok (w, None)
      | Raise e => Raise e
      | Ok (w, l) =>
          match heap w !! l with
          | None => Ok (w, None)
          | Some t => let* used := getattr cls t "used" in Ok (w, if truthy used then None else Some l)
          end
      end
  end.

(** [consume]. *)
Definition consume (cls : schema) (now : Z) (l : nat) (w : world) : world * res unit :=
  commit cls now l (on_heap l (setattr cls "used" (VBool true)) w).

(** [use_token]. *)
Definition use_token (cls : schema) (now : Z) (id : option string) (client redirect : string) (w : world)
  : res (world * option nat) :=
  let* p := get_token cls now id w in
  match p.2 with
  | None => Ok (p.1, None)
  | Some l =>
      match heap p.1 !! l with
      | None => Ok (p.1, None)
      | Some t =>
          let* c := getattr cls t "client_id" in
          let* r := getattr cls t "redirect_uri" in
          if py_eq c (VStr client) && py_eq r (VStr redirect) then
            let q := consume cls now l p.1 in
            let* _ := q.2 in Ok (q.1, Some l)
          else Ok (p.1, None)
      end
  end.

(** A request starts with an empty cache. *)
Definition request (w : world) : world := World (rows w) [] ∅.
End codes.

(** ** Access and refresh tokens *)

Record token := Token {
  t_client : string;
  t_user : option string;
  t_scope : string;
  t_refresh : option string;
  t_expires : option Z;
  revoked : bool
}.

Definition with_revoked (t : token) : token :=
  Token (t_client t) (t_user t) (t_scope t) (t_refresh t) (t_expires t) true.

(** The tokens of both classes and their lists by user, whose entries expire
    too; which clients and accounts are there, and deleted. *)
Record tokens := Tokens {
  access : gmap string token;
  refresh : gmap string token;
  access_by_user : gmap (string * string) (option Z);
  refresh_by_user : gmap (string * string) (option Z)
}.

Definition alive (now : Z) (e : option Z) : bool := match e with Some e => now <? e | None => true end.

(** The life of an access token, and of its entry. *)
Definition access_ttl : Z := 3600.

Section lifecycle.
Context (client_deleted account_deleted : string -> option bool).

(** [_byID] of a token. *)
Definition find (now : Z) (m : gmap string token) (id : string) : option token :=
  match m !! id with Some t => if alive now (t_expires t) then Some t else None | None => None end.

(** [OAuth2AccessToken.check_valid]. *)
Definition check_valid (t : token) : bool :=
  if revoked t then false
  else if match client_deleted (t_client t) with Some d => d | None => true end then false
  else match t_user t with
    | None => true
    | Some u => negb (match account_deleted u with Some d => d | None => true end)
    end.

(** [_new] with [_on_create]: a token, and its entry in the user's list. *)
Definition new_access (now : Z) (id client : string) (user : option string) (scope : string) (refresh_token : option string)
    (s : tokens) : tokens :=
  let e := Some (now + access_ttl) in
  Tokens (<[id := Token client user scope refresh_token e false]> (access s)) (refresh s)
    match user with Some u => <[(u, id) := e]> (access_by_user s) | None => access_by_user s end (refresh_by_user s).

Definition new_refresh (id client user scope : string) (s : tokens) : tokens :=
  Tokens (access s) (<[id := Token client (Some user) scope None None false]> (refresh s)) (access_by_user s)
    (<[(user, id) := None]> (refresh_by_user s)).

(** [_by_user]: the ids of a user's list whose token is there and valid. *)
Definition by_user (now : Z) (index : gmap (string * string) (option Z)) (m : gmap string token) (user : string) : list string :=
  omap (M := list) (fun e : string * string * option Z =>
    if bool_decide (e.1.1 = user) && alive now e.2 then
      match find now m e.1.2 with Some t => if check_valid t then Some e.1.2 else None | None => None end
    else None) (map_to_list index).

(** [OAuth2AccessToken.revoke]. *)
Definition revoke_access (id : string) (s : tokens) : tokens :=
  match access s !! id with
  | None => s
  | Some t =>
      Tokens (<[id := with_revoked t]> (access s)) (refresh s)
        match t_user t with Some u => delete (u, id) (access_by_user s) | None => access_by_user s end (refresh_by_user s)
  end.

(** [OAuth2RefreshToken.revoke]: the token, and the access tokens made from
    it; without a user it stops after the token itself. *)
Definition revoke_refresh (now : Z) (id : string) (s : tokens) : tokens :=
  match refresh s !! id with
  | None => s
  | Some t =>
      let revoked := <[id := with_revoked t]> (refresh s) in
      match t_user t with
      | None => Tokens (access s) revoked (access_by_user s) (refresh_by_user s)
      | Some u =>
          let s := Tokens (access s) revoked (access_by_user s) (delete (u, id) (refresh_by_user s)) in
          foldl (fun s a =>
            match access s !! a with
            | Some t => if bool_decide (t_refresh t = Some id) then revoke_access a s else s
            | None => s
            end) s (by_user now (access_by_user s) (access s) u)
      end
  end.

(** [OAuth2Client.revoke] and [revoke_all_by_user]. *)
Definition revoke_client (now : Z) (client user : string) (s : tokens) : tokens :=
  let s := foldl (fun s r =>
    match refresh s !! r with
    | Some t => if String.eqb (t_client t) client then revoke_refresh now r s else s
    | None => s
    end) s (by_user now (refresh_by_user s) (refresh s) user) in
  foldl (fun s a =>
    match access s !! a with
    | Some t => if String.eqb (t_client t) client then revoke_access a s else s
    | None => s
    end) s (by_user now (access_by_user s) (access s) user).

Definition revoke_all_by_user (now : Z) (user : string) (s : tokens) : tokens :=
  foldl (fun s a => revoke_access a s) s (by_user now (access_by_user s) (access s) user).

(** The calls over time. *)
Inductive token_event :=
  | NewAccess (id client : string) (user : option string) (scope : string) (refresh_token : option string)
  | NewRefresh (id client user scope : string)
  | RevokeAccess (id : string)
  | RevokeRefresh (id : string)
  | RevokeClient (client user : string)
  | RevokeAll (user : string).

Definition run_token_event (s : tokens) (e : Z * token_event) : tokens :=
  match e.2 with
  | NewAccess id client user scope r => new_access e.1 id client user scope r s
  | NewRefresh id client user scope => new_refresh id client user scope s
  | RevokeAccess id => revoke_access id s
  | RevokeRefresh id => revoke_refresh e.1 id s
  | RevokeClient client user => revoke_client e.1 client user s
  | RevokeAll user => revoke_all_by_user e.1 user s
  end.

(** A request is let in with a token that is found and valid. *)
Definition accepted (now : Z) (m : gmap string token) (id : string) : bool :=
  match find now m id with Some t => check_valid t | None => false end.
End lifecycle.

(** ** Developers of a client *)

(** The developer columns of clients, the clients deleted, and the index of
    clients by developer. *)
Record clients := Clients {
  developers : gmap string (gset string);
  deleted : gset string;
  by_dev : gmap string (gset string)
}.

Definition max_developers : nat := 20.

Definition devs (c : clients) (client : string) : gset string := default ∅ (developers c !! client).

Definition clients_of (c : clients) (user : string) : gset string := default ∅ (by_dev c !! user).

Section developers.
Context (gone : string -> bool).

(** [has_developer]; [gone] accounts are deleted ones. *)
Definition has_developer (c : clients) (client user : string) : bool :=
  negb (gone user) && bool_decide (user ∈ devs c client).

(** [add_developer]. *)
Definition add_developer (client user : string) (force : bool) (c : clients) : option clients :=
  let ds := devs c client in
  if bool_decide (user ∉ ds) && negb force && (max_developers <=? size ds)%nat then None
  else Some (Clients (<[client := {[user]} ∪ ds]> (developers c)) (deleted c)
    (<[user := {[client]} ∪ clients_of c user]> (by_dev c))).

(** [remove_developer]: a client that no undeleted developer is left of is
    deleted. *)
Definition remove_developer (client user : string) (c : clients) : clients :=
  let ds := devs c client in
  let c := if bool_decide (user ∈ ds) then
      let ds' := ds ∖ {[user]} in
      Clients (<[client := ds']> (developers c))
        (if bool_decide (set_Forall (fun d => gone d = true) ds') then {[client]} ∪ deleted c else deleted c) (by_dev c)
    else c in
  Clients (developers c) (deleted c) (<[user := clients_of c user ∖ {[client]}]> (by_dev c)).

(** [_by_developer]. *)
Definition by_developer (c : clients) (user : string) : gset string :=
  if gone user then ∅
  else filter (fun client => client ∉ deleted c /\ user ∈ devs c client) (clients_of c user).

(** Calls on the developers of clients; a refused addition changes nothing. *)
Definition run_developer (c : clients) (e : bool * string * string) : clients :=
  let '(add, client, user) := e in
  if (add : bool) then default c (add_developer client user false c) else remove_developer client user c.
End developers.
End Tokens.
