(* ===== verification/TokensProps.v ===== *)
(** * OAuth tokens: properties

    Scopes survive their text; merging keeps every scope and, of scopes for
    one place each, is exact; a code is used once; revoking a refresh token
    takes the access tokens made from it; the index of developers is that of
    the developer columns, and their number is bounded. *)

From S2P Require Import Prelude PyString Tdb TdbProps Tokens.
From Stdlib Require Import Ascii.

Module TokensProps.
Import PyString Tdb TdbProps Tokens.

(** ** Scopes as text *)

Definition space : ascii := " ".
Definition comma : ascii := ",".
Definition colon : ascii := ":".
Definition plus : ascii := "+".

Lemma elem_of_sorted_set s x : x ∈ sorted_set s <-> x ∈ s.
Proof. unfold sorted_set. by rewrite elem_of_isort, elem_of_elements. Qed.

Lemma sorted_set_to_set s : list_to_set (sorted_set s) = s.
Proof. apply set_eq. intros x. by rewrite elem_of_list_to_set, elem_of_sorted_set. Qed.

Lemma sorted_set_nonempty s : s <> ∅ -> sorted_set s <> [].
Proof. intros Hs He. apply Hs. by rewrite <- (sorted_set_to_set s), He. Qed.

Lemma split_sorted_set sep s :
  s <> ∅ -> (forall x, x ∈ s -> contains sep x = false) ->
  list_to_set (py_split sep (py_join (String sep "") (sorted_set s))) = s.
Proof.
  intros Hs Hsep. rewrite py_split_join; [apply sorted_set_to_set|by apply sorted_set_nonempty|].
  apply Forall_forall. intros x Hx%elem_of_sorted_set. auto.
Qed.

Lemma join_sorted_contains c sep s :
  contains c sep = false -> (forall x, x ∈ s -> contains c x = false) -> contains c (py_join sep (sorted_set s)) = false.
Proof. intros Hs Hx. apply py_join_contains; [done|]. apply Forall_forall. intros x Hin%elem_of_sorted_set. auto. Qed.

Lemma join_nonempty sep l : l <> [] -> Forall (fun w => w <> "") l -> py_join sep l <> "".
Proof.
  intros Hl Hf. destruct Hf as [|w l Hw Hf]; [done|]. destruct l as [|w' l]; [done|].
  rewrite py_join_cons. by destruct w.
Qed.

(** The scopes that have a text: some scope, names without the separators, and
    subreddits exactly when it is limited to them. *)
Record expressible (s : scope) : Prop := {
  ex_scopes : scopes s <> ∅;
  ex_names n : n ∈ scopes s -> n <> "" /\ contains space n = false /\ contains comma n = false /\ contains colon n = false;
  ex_subreddits : if subreddit_only s then subreddits s <> ∅ else subreddits s = ∅;
  ex_sr_names n : n ∈ subreddits s -> contains plus n = false
}.

(** A scope is read back from its text, in which its subreddits and the
    names of what it allows are sorted. *)
Theorem scope_roundtrip s : expressible s -> scope_of_str (scope_str s) = s.
Proof.
  intros [Hne Hnames Hsr Hplus].
  assert (Hcolon : contains colon (py_join " " (sorted_set (scopes s))) = false).
  { apply join_sorted_contains; [done|]. intros x Hx. by apply Hnames in Hx as (_ & _ & _ & ?). }
  assert (Hparse : list_to_set (py_split " " (replace_char "," " " (py_join " " (sorted_set (scopes s))))) = scopes s).
  { rewrite replace_char_none.
    - apply split_sorted_set; [done|]. intros x Hx. by apply Hnames in Hx as (_ & ? & _).
    - apply join_sorted_contains; [done|]. intros x Hx. by apply Hnames in Hx as (_ & _ & ? & _). }
  assert (Hjoin : py_join " " (sorted_set (scopes s)) <> "").
  { apply join_nonempty; [by apply sorted_set_nonempty|]. apply Forall_forall. intros x Hx%elem_of_sorted_set.
    by apply Hnames in Hx as (? & _). }
  unfold scope_of_str, scope_str. destruct s as [so srs sc]; simpl in *. destruct so.
  - set (a := py_join "+" (sorted_set srs)). set (b := py_join " " (sorted_set sc)) in *.
    assert (Hs : (a +:+ ":") +:+ b = a +:+ String colon b) by (rewrite <- string_app_assoc; done). rewrite Hs.
    assert (String.eqb (a +:+ String colon b) "" = false) as -> by (by destruct a).
    unfold parse_scope_str. change ":"%char with colon. rewrite rpartition_app by done. simpl. rewrite Hparse. f_equal.
    unfold a. by apply split_sorted_set.
  - change ("" +:+ py_join " " (sorted_set sc)) with (py_join " " (sorted_set sc)).
    destruct (String.eqb_spec (py_join " " (sorted_set sc)) ""); [done|].
    unfold parse_scope_str. change ":"%char with colon. rewrite rpartition_none by done. simpl. by rewrite Hparse, Hsr.
Qed.

(** ** Merging *)

(** The union of the scopes for a place. *)
Definition scopes_for (sr : option string) (l : list scope) : gset string :=
  ⋃ (scopes <$> List.filter (fun s => bool_decide (sr ∈ places s)) l).

Definition one_place (s : scope) : Prop := exists sr, places s = [sr].

Lemma scopes_for_snoc sr l s :
  scopes_for sr (l ++ [s]) = scopes_for sr l ∪ (if bool_decide (sr ∈ places s) then scopes s else ∅).
Proof.
  unfold scopes_for. rewrite List.filter_app, fmap_app, union_list_app_L. f_equal. simpl. case_bool_decide; simpl; set_solver.
Qed.

(** What the merge of some scopes has come to. *)
Definition merged_so_far (done rest : list (nat * scope)) (m : gmap nat (gset string) * gmap (option string) nat) : Prop :=
  (forall i s, (i, s) ∈ rest -> m.1 !! i = Some (scopes s)) /\
  forall sr, match m.2 !! sr with
    | Some r => (exists s, (r, s) ∈ done /\ places s = [sr]) /\ m.1 !! r = Some (scopes_for sr done.*2)
    | None => forall i s, (i, s) ∈ done -> places s <> [sr]
    end.

Lemma merge_one done rest i s sr m :
  NoDup (done ++ (i, s) :: rest).*1 -> (forall x, x ∈ done -> one_place x.2) -> places s = [sr] -> merged_so_far done ((i, s) :: rest) m ->
  merged_so_far (done ++ [(i, s)]) rest (merge_place i m sr).
Proof.
  intros Hnd Hone Hpl [Hrest Hm]. rewrite fmap_app, fmap_cons in Hnd. apply NoDup_app in Hnd as (Hdone & Hdis & Hnd).
  apply NoDup_cons in Hnd as [Hi Hnd]. simpl in Hi.
  assert (Hheap : m.1 !! i = Some (scopes s)) by (apply Hrest; left).
  assert (Hnone : forall sr', (if bool_decide (sr' ∈ places s) then scopes s else ∅) = if decide (sr' = sr) then scopes s else ∅).
  { intros sr'. rewrite Hpl. rewrite (bool_decide_ext _ _ (list_elem_of_singleton _ _)). by case_bool_decide; case_decide. }
  unfold merge_place. pose proof (Hm sr) as Hsr. destruct (m.2 !! sr) as [r|] eqn:Er.
  - destruct Hsr as [(sd & Hsd & Hpd) Hr]. rewrite Hr, Hheap. simpl.
    assert (Hri : r <> i).
    { intros ->. apply (Hdis i); [by apply (list_elem_of_fmap_2 fst) in Hsd|by left]. }
    split.
    + intros j sj Hj. simpl. rewrite lookup_insert_ne; [apply Hrest; by right|]. intros <-.
      apply (Hdis r); [by apply (list_elem_of_fmap_2 fst) in Hsd|]. right. by apply (list_elem_of_fmap_2 fst) in Hj.
    + intros sr'. simpl. specialize (Hm sr'). destruct (m.2 !! sr') as [r'|] eqn:Er'.
      * destruct Hm as [(s' & Hs' & Hp') Hr']. split; [exists s'; split; [apply elem_of_app; by left|done]|].
        rewrite fmap_app. simpl. rewrite scopes_for_snoc, Hnone. case_decide as Hd.
        -- subst sr'. rewrite Er in Er'. injection Er' as <-. by rewrite lookup_insert_eq.
        -- rewrite lookup_insert_ne; [by rewrite (right_id_L ∅ _)|]. intros ->. apply Hd.
           assert (E : s' = sd); [|subst; congruence].
           clear -Hdone Hs' Hsd. induction done as [|x l IH]; [by apply elem_of_nil in Hsd|].
           apply NoDup_cons in Hdone as [Hx Hl].
           apply elem_of_cons in Hs' as [Hs' | Hs']; apply elem_of_cons in Hsd as [Hsd | Hsd]; [congruence|..|auto];
             destruct Hx; subst x; [by apply (list_elem_of_fmap_2 fst) in Hsd|by apply (list_elem_of_fmap_2 fst) in Hs'].
      * intros j sj Hj. apply elem_of_app in Hj as [Hj|Hj%list_elem_of_singleton]; [by eapply Hm|]. simplify_eq. congruence.
  - split.
    + intros j sj Hj. apply Hrest. by right.
    + intros sr'. simpl. rewrite fmap_app. simpl. rewrite scopes_for_snoc, Hnone.
      destruct (decide (sr' = sr)) as [-> | Hd].
      * rewrite lookup_insert_eq. split; [exists s; split; [apply elem_of_app; right; by left|done]|]. rewrite Hheap. f_equal.
        assert (scopes_for sr done.*2 = ∅) as ->; [|by rewrite (left_id_L ∅ _)].
        clear -Hsr Hone. unfold scopes_for. induction done as [|[j sj] l IH]; [done|]. rewrite fmap_cons. cbn [List.filter snd].
        rewrite bool_decide_false.
        -- apply IH; [intros x Hx; apply Hone; by right|]. intros k sk Hk. apply (Hsr k). by right.
        -- destruct (Hone (j, sj)) as [sr' Hp]; [by left|]. simpl in Hp. rewrite Hp, list_elem_of_singleton. intros ->.
           by apply (Hsr j sj); [left|].
      * rewrite lookup_insert_ne by done. specialize (Hm sr'). destruct (m.2 !! sr') as [r'|].
        -- destruct Hm as [(s' & Hs' & Hp') Hr']. rewrite (right_id_L ∅ _). split; [|done].
           exists s'. split; [apply elem_of_app; by left|done].
        -- intros j sj Hj. apply elem_of_app in Hj as [Hj|Hj%list_elem_of_singleton]; [by eapply Hm|]. simplify_eq. congruence.
Qed.

Lemma merge_all_spec done rest m :
  NoDup (done ++ rest).*1 -> (forall x, x ∈ done ++ rest -> one_place x.2) -> merged_so_far done rest m ->
  merged_so_far (done ++ rest) [] (merge_all rest m).
Proof.
  revert done m. induction rest as [|[i s] rest IH]; intros done m Hnd Hone Hm; [by rewrite app_nil_r|].
  destruct (Hone (i, s)) as [sr Hpl]; [apply elem_of_app; right; by left|]. simpl in Hpl.
  unfold merge_all. cbn [foldl fst snd]. rewrite Hpl. cbn [foldl].
  rewrite (cons_middle (i, s) done rest), app_assoc in Hnd, Hone |- *. apply IH; [done|done|].
  apply merge_one; [|intros x Hx; apply Hone; do 2 (apply elem_of_app; left); done|done|done].
  by rewrite <- app_assoc in Hnd.
Qed.

(** Of scopes for one place each, a subreddit or everywhere, merging gives
    for each place named exactly the union of the scopes for it. *)
Theorem merge_scopes_exact l :
  Forall one_place l ->
  forall sr, merge_scopes l !! sr = if bool_decide (Exists (fun s => sr ∈ places s) l) then Some (scopes_for sr l) else None.
Proof.
  intros Hone sr. unfold merge_scopes. set (indexed := imap pair l).
  assert (Hsnd : indexed.*2 = l).
  { unfold indexed. rewrite fmap_imap. apply list_eq. intros k. rewrite list_lookup_imap. by destruct (l !! k). }
  assert (Hnd : NoDup indexed.*1).
  { unfold indexed. rewrite fmap_imap. apply NoDup_alt. intros j k x. rewrite !list_lookup_imap.
    destruct (l !! j), (l !! k); simpl; congruence. }
  assert (Hstart : merged_so_far [] indexed (list_to_map (prod_map id scopes <$> indexed), ∅)).
  { split.
    - intros i s Hin. simpl. apply elem_of_list_to_map_1.
      + rewrite <- list_fmap_compose. exact Hnd.
      + apply list_elem_of_fmap. by exists (i, s).
    - intros sr'. simpl. rewrite lookup_empty. by intros i s ?%elem_of_nil. }
  assert (Hone' : forall x, x ∈ indexed -> one_place x.2).
  { intros x Hx. rewrite Forall_forall in Hone. apply Hone. rewrite <- Hsnd. by apply list_elem_of_fmap_2. }
  destruct (merge_all_spec [] indexed _ Hnd Hone' Hstart) as [_ Hm]. simpl in Hm.
  set (m := merge_all _ _) in *. specialize (Hm sr). rewrite lookup_fmap. rewrite Hsnd in Hm.
  destruct (m.2 !! sr) as [r|]; simpl.
  - destruct Hm as [(s & Hs & Hp) ->]. rewrite bool_decide_true; [done|]. apply Exists_exists. exists s.
    split; [rewrite <- Hsnd; by apply (list_elem_of_fmap_2 snd) in Hs|]. rewrite Hp. by left.
  - rewrite bool_decide_false; [done|]. intros (s & Hs & Hp)%Exists_exists. rewrite <- Hsnd in Hs.
    apply list_elem_of_fmap in Hs as ([i s'] & -> & Hin). apply (Hm i s' Hin). destruct (Hone' _ Hin) as [sr' Hp'].
    simpl in *. rewrite Hp' in Hp |- *. by apply list_elem_of_singleton in Hp as ->.
Qed.

(** ** Codes are used once *)

Section codes.
Context `{C : Codecs}.

Lemma deserialize_used c : deserialize_column AuthorizationCode "used" c = Ok (VBool (bool_decide (c = CBytes "1"))).
Proof. reflexivity. Qed.

Lemma serialize_used : serialize_column AuthorizationCode "used" (VBool true) = Ok (CBytes "1").
Proof. reflexivity. Qed.

Lemma getattr_used id d :
  getattr AuthorizationCode (from_columns id d) "used" = Ok (default (VBool false) (d !! "used")).
Proof. unfold getattr. simpl. rewrite lookup_empty. by destruct (d !! "used"). Qed.

Lemma code_column_ttl t attr : column_ttls t = ∅ -> column_ttl AuthorizationCode t attr = Some 600.
Proof. unfold column_ttl. intros ->. reflexivity. Qed.

Lemma code_default_ttls attr : default_ttls AuthorizationCode !! attr = None.
Proof. reflexivity. Qed.

#[local] Opaque AuthorizationCode.

(** What a row shows of the column [used]. *)
Lemma row_used now r d :
  res_map (deserialize_column AuthorizationCode) (read_row now None r) = Ok d ->
  d !! "used" = (fun c => VBool (bool_decide (c = CBytes "1"))) <$> read_row now None r !! "used".
Proof.
  intros Hd%res_map_Ok. specialize (Hd "used"). destruct (read_row now None r !! "used") as [c|]; inversion Hd as [? v Hv|]; [|done].
  rewrite deserialize_used in Hv. simpl. congruence.
Qed.

Lemma read_row_some now r k c : read_row now None r !! k = Some c <-> exists col, r !! k = Some col /\ is_live now col = true /\ c = c_val col.
Proof.
  unfold read_row. rewrite lookup_fmap, fmap_Some. setoid_rewrite map_lookup_filter_Some. simpl.
  setoid_rewrite andb_true_r. naive_solver.
Qed.

Lemma not_deleted (k attr : string) : k ∉ (∅ ∖ {[attr]} : gset string).
Proof. intros [Hk _]%elem_of_difference. by apply elem_of_empty in Hk. Qed.

(** A commit that marks a code as used. *)
Lemma consume_used now id d rs :
  d !! "used" <> Some (VBool true) -> (forall v, d !! "used" = Some v -> exists b, v = VBool b) ->
  exists h c, consume AuthorizationCode now 0 (World rs [from_columns id d] {[ id := 0%nat ]}) =
    (World (<[id := <["used" := Column (CBytes "1") (Some (now + 600))]> (default ∅ (rs !! id))]> rs) h c, Ok tt).
Proof.
  intros Hu Hty. unfold consume, commit, on_heap. simpl.
  set (t := setattr AuthorizationCode "used" (VBool true) (from_columns id d)).
  assert (Hch : changed t = {[ "used" := VBool true ]}).
  { apply map_eq. intros k. unfold changed, t. rewrite map_lookup_filter. simpl.
    destruct (decide (k = "used")) as [-> | Hk].
    - rewrite lookup_insert_eq, lookup_singleton_eq. simpl. rewrite option_guard_True; [done|].
      destruct (d !! "used") as [v|] eqn:Ev; [|done]. destruct (Hty v eq_refl) as [[] ->]; done.
    - by rewrite lookup_insert_ne, lookup_empty, lookup_singleton_ne by done. }
  assert (Hres : res_map (serialize_column AuthorizationCode) (changed t) = Ok {[ "used" := CBytes "1" ]}).
  { rewrite Hch. apply res_map_Ok. intros k. destruct (decide (k = "used")) as [-> | Hk].
    - rewrite !lookup_singleton_eq. constructor. apply serialize_used.
    - rewrite !lookup_singleton_ne by done. constructor. }
  rewrite (commit_updates_stored AuthorizationCode now t _ eq_refl Hres). simpl.
  rewrite bool_decide_false by apply map_non_empty_singleton. simpl. do 2 eexists. f_equal. f_equal. f_equal.
  unfold row_of. simpl. apply map_eq. intros k. unfold written. rewrite map_lookup_filter, lookup_union, map_lookup_imap. simpl.
  destruct (decide (k = "used")) as [-> | Hk].
  - rewrite lookup_singleton_eq, lookup_insert_eq. simpl.
    rewrite code_column_ttl by (unfold t, setattr; simpl; by rewrite code_default_ttls). simpl.
    rewrite union_Some_l. simpl. by rewrite option_guard_True by apply not_deleted.
  - rewrite lookup_singleton_ne, lookup_insert_ne by done. simpl. destruct (default ∅ (rs !! id) !! k); simpl; [|done].
    by rewrite option_guard_True by apply not_deleted.
Qed.

(** A request for a code whose live columns include the mark finds nothing. *)
Lemma used_code_refused later id client redirect rs :
  (forall k c, default ∅ (rs !! id) !! k = Some c -> is_live later c = true ->
    exists v, deserialize_column AuthorizationCode k (c_val c) = Ok v) ->
  (exists c, default ∅ (rs !! id) !! "used" = Some c /\ c_val c = CBytes "1" /\
    forall k c', default ∅ (rs !! id) !! k = Some c' -> is_live later c' = true -> is_live later c = true) ->
  exists w2, use_token AuthorizationCode later (Some id) client redirect (World rs [] ∅) = Ok (w2, None).
Proof.
  intros Hread (c & Hc & Hval & Hlive). unfold use_token, get_token. rewrite by_id_request. cbv zeta.
  unfold row_of. simpl. set (r := default ∅ (rs !! id)) in *. case_decide as Hr; [simpl; by eexists|].
  destruct (map_choose _ Hr) as (k & cv & (col & Hcol & Hl & ->)%read_row_some).
  assert (Hu : read_row later None r !! "used" = Some (CBytes "1")) by (apply read_row_some; exists c; eauto).
  destruct (res_map (deserialize_column AuthorizationCode) (read_row later None r)) as [d|e] eqn:Ed.
  - simpl. rewrite getattr_used, (row_used _ _ _ Ed), Hu. simpl. by eexists.
  - exfalso. unfold res_map in Ed.
    destruct (res_mapM_total (fun kv : string * colval => let* v := deserialize_column AuthorizationCode kv.1 kv.2 in Ok (kv.1, v))
      (map_to_list (read_row later None r))) as [l Hl']; [|by rewrite Hl' in Ed].
    intros [k' cv'] (col' & Hcol' & Hl' & ->)%elem_of_map_to_list%read_row_some. simpl.
    destruct (Hread _ _ Hcol' Hl') as [v ->]. by eexists.
Qed.

(** C18. Once an authorization code has been used, no later request can use it
    again, with whatever client and address, however far its columns have
    expired by then. *)
Theorem code_used_once now later id client client' redirect redirect' w w1 l :
  (forall k c, row_of w id !! k = Some c -> exists e, c_expires c = Some e /\ e <= now + 600) -> now <= later ->
  use_token AuthorizationCode now (Some id) client redirect (request w) = Ok (w1, Some l) ->
  exists w2, use_token AuthorizationCode later (Some id) client' redirect' (request w1) = Ok (w2, None).
Proof.
  intros Hexp Hlater Huse. unfold use_token, get_token, request in Huse. rewrite by_id_request in Huse. cbv zeta in Huse.
  set (r := row_of w id) in *. change (row_of (World (rows w) [] ∅) id) with r in Huse.
  case_decide as Hr; [done|]. destruct (res_map _ (read_row now None r)) as [d|e] eqn:Ed; [|by destruct e].
  pose proof (row_used _ _ _ Ed) as Hu. cbn [res_bind] in Huse.
  change (heap (World (rows w) [from_columns id d] {[ id := 0%nat ]}) !! 0%nat) with (Some (from_columns id d)) in Huse.
  cbv iota in Huse. rewrite getattr_used in Huse. cbn [res_bind] in Huse.
  destruct (truthy (default (VBool false) (d !! "used"))) eqn:Et; [done|]. cbn [snd fst] in Huse.
  change (heap (World (rows w) [from_columns id d] {[ id := 0%nat ]}) !! 0%nat) with (Some (from_columns id d)) in Huse.
  cbv iota in Huse. apply res_bind_Ok in Huse as (c & _ & (red & _ & Huse)%res_bind_Ok).
  destruct (_ && _); [|discriminate Huse].
  destruct (consume_used now id d (rows w)) as (h & ca & Hcons).
  { intros E. rewrite E in Et. discriminate Et. }
  { intros v Hv. rewrite Hu in Hv. apply fmap_Some in Hv as (c0 & _ & ->). by eexists. }
  rewrite Hcons in Huse. simpl in Huse. injection Huse as <- <-. unfold request. simpl.
  assert (Hrow : default ∅ (<[id := <["used" := Column (CBytes "1") (Some (now + 600))]> (default ∅ (rows w !! id))]> (rows w) !! id) =
    <["used" := Column (CBytes "1") (Some (now + 600))]> r) by by rewrite lookup_insert_eq.
  apply used_code_refused; rewrite Hrow; clear Hrow Hcons.
  - intros k col. destruct (decide (k = "used")) as [-> | Hk].
    + rewrite lookup_insert_eq. intros [= <-] _. exists (VBool (bool_decide (CBytes "1" = CBytes "1"))).
      apply deserialize_used.
    + rewrite lookup_insert_ne by done. intros Hcol Hl. apply res_map_Ok in Ed. specialize (Ed k).
      assert (Hnow : read_row now None r !! k = Some (c_val col)).
      { apply read_row_some. exists col. split; [exact Hcol|]. split; [|reflexivity]. unfold is_live in *. destruct (c_expires col); [lia|done]. }
      rewrite Hnow in Ed. inversion Ed. eauto.
  - eexists. rewrite lookup_insert_eq. split; [reflexivity|]. split; [reflexivity|]. intros k col. destruct (decide (k = "used")) as [-> | Hk].
    + rewrite lookup_insert_eq. intros [= <-] Hl. exact Hl.
    + rewrite lookup_insert_ne by done. intros Hcol. destruct (Hexp k col Hcol) as (e & He & Hle).
      unfold is_live. rewrite He. simpl. lia.
Qed.
End codes.

(** ** Revocation *)

Section revocation.
Context (client_deleted account_deleted : string -> option bool).

Notation revoke_refresh := (revoke_refresh client_deleted account_deleted).
Notation by_user := (by_user client_deleted account_deleted).
Notation accepted := (accepted client_deleted account_deleted).

(** Every access token that was not revoked is in its user's list, for as long
    as it lives. *)
Definition indexed (s : tokens) : Prop :=
  forall id t u, access s !! id = Some t -> t_user t = Some u -> revoked t = false ->
    access_by_user s !! (u, id) = Some (t_expires t).

Lemma elem_of_by_user now index m user id :
  id ∈ by_user now index m user <->
  (exists e, index !! (user, id) = Some e /\ alive now e = true) /\
  exists t, find now m id = Some t /\ check_valid client_deleted account_deleted t = true.
Proof.
  unfold Tokens.by_user. rewrite list_elem_of_omap. split.
  - intros ([[u a] e] & Hin%elem_of_map_to_list & Hm). simpl in Hm.
    destruct (bool_decide (u = user) && alive now e) eqn:Eb; [|done]. apply andb_true_iff in Eb as [->%bool_decide_eq_true Ha].
    destruct (find now m a) as [t|] eqn:Et; [|done]. destruct (check_valid _ _ t) eqn:Ev; [|done]. simplify_eq. split; eauto.
  - intros [(e & He & Ha) (t & Ht & Hv)]. exists ((user, id), e). split; [by apply elem_of_map_to_list|]. simpl.
    by rewrite bool_decide_true, Ha, Ht, Hv.
Qed.

Lemma access_revoke_access a s b :
  access (revoke_access a s) !! b = if decide (a = b) then with_revoked <$> access s !! b else access s !! b.
Proof.
  unfold revoke_access. destruct (access s !! a) as [t|] eqn:Ea; simpl.
  - case_decide as Hd; [subst; by rewrite lookup_insert_eq, Ea|by rewrite lookup_insert_ne].
  - case_decide as Hd; [subst; by rewrite Ea|done].
Qed.

Lemma revoke_access_indexed a s : indexed s -> indexed (revoke_access a s).
Proof.
  intros Hs id t u. rewrite access_revoke_access. case_decide as Hd.
  - intros (t' & _ & ->)%fmap_Some _ Hr. done.
  - intros Ht Hu Hr. specialize (Hs id t u Ht Hu Hr). unfold revoke_access. destruct (access s !! a) as [ta|]; [|done].
    simpl. destruct (t_user ta); [|done]. by rewrite lookup_delete_ne by congruence.
Qed.

(** A loop that revokes the access tokens of a list that are of some kind. *)
Definition revoke_those (P : token -> bool) (l : list string) (s : tokens) : tokens :=
  foldl (fun s a => match access s !! a with Some t => if P t then revoke_access a s else s | None => s end) s l.

Lemma access_revoke_those P l s b :
  (forall t, P (with_revoked t) = P t) ->
  access (revoke_those P l s) !! b =
    (fun t => if bool_decide (b ∈ l) && P t then with_revoked t else t) <$> access s !! b.
Proof.
  intros HP. revert s. induction l as [|a l IH]; intros s; simpl.
  { destruct (access s !! b); done. }
  unfold revoke_those in *. rewrite IH. clear IH.
  assert (Hstep : access (match access s !! a with Some t => if P t then revoke_access a s else s | None => s end) !! b =
    (fun t => if bool_decide (a = b) && P t then with_revoked t else t) <$> access s !! b).
  { destruct (access s !! a) as [t|] eqn:Ea.
    - destruct (P t) eqn:Et; [rewrite access_revoke_access|]; case_bool_decide as Hd; simpl.
      + rewrite decide_True by done. subst. rewrite Ea; simpl; by rewrite Et.
      + rewrite decide_False by done. by destruct (access s !! b).
      + subst. rewrite Ea; simpl; by rewrite Et.
      + by destruct (access s !! b).
    - case_bool_decide as Hd; [subst; by rewrite Ea|by destruct (access s !! b)]. }
  rewrite Hstep. destruct (access s !! b) as [t|]; [|done]. simpl. f_equal.
  rewrite (bool_decide_ext (b ∈ a :: l) (a = b \/ b ∈ l)) by (rewrite elem_of_cons; naive_solver).
  rewrite bool_decide_or. destruct (bool_decide (a = b)), (bool_decide (b ∈ l)), (P t) eqn:Et; simpl; rewrite ?HP, ?Et; done.
Qed.

Lemma revoke_those_rest P l s : refresh (revoke_those P l s) = refresh s /\ refresh_by_user (revoke_those P l s) = refresh_by_user s.
Proof.
  revert s. induction l as [|a l IH]; intros s; [done|]. unfold revoke_those in *. cbn [foldl].
  destruct (IH (match access s !! a with Some t => if P t then revoke_access a s else s | None => s end)) as [-> ->].
  destruct (access s !! a) as [t|] eqn:Ea; [|done]. destruct (P t); [|done]. unfold revoke_access. by rewrite Ea.
Qed.

Lemma revoke_those_indexed P l s : indexed s -> indexed (revoke_those P l s).
Proof.
  revert s. induction l as [|a l IH]; intros s Hs; [done|]. unfold revoke_those in *. cbn [foldl]. apply IH.
  destruct (access s !! a) as [t|]; [|done]. destruct (P t); [|done]. by apply revoke_access_indexed.
Qed.

Definition made_from (id : string) (t : token) : bool := bool_decide (t_refresh t = Some id).

Lemma revoke_refresh_eq now id s t u :
  refresh s !! id = Some t -> t_user t = Some u ->
  revoke_refresh now id s =
    revoke_those (made_from id) (by_user now (access_by_user s) (access s) u)
      (Tokens (access s) (<[id := with_revoked t]> (refresh s)) (access_by_user s) (delete (u, id) (refresh_by_user s))).
Proof. intros Ht Hu. unfold Tokens.revoke_refresh. by rewrite Ht, Hu. Qed.

Lemma revoke_refresh_indexed now id s : indexed s -> indexed (revoke_refresh now id s).
Proof.
  intros Hs. destruct (refresh s !! id) as [t|] eqn:Et; [|unfold Tokens.revoke_refresh; by rewrite Et].
  destruct (t_user t) as [u|] eqn:Eu; [|unfold Tokens.revoke_refresh; by rewrite Et, Eu].
  rewrite (revoke_refresh_eq now id s t u Et Eu). by apply revoke_those_indexed.
Qed.

Lemma run_token_event_indexed s e : indexed s -> indexed (run_token_event client_deleted account_deleted s e).
Proof.
  intros Hs. destruct e as [now []]; unfold run_token_event; cbn [fst snd].
  - intros a t u. unfold new_access. simpl. destruct (decide (id = a)) as [-> | Hne].
    + rewrite lookup_insert_eq. intros [= <-]. simpl. intros -> _. by rewrite lookup_insert_eq.
    + rewrite lookup_insert_ne by done. intros Ht Hu Hr. destruct user; [rewrite lookup_insert_ne by congruence|]; by apply Hs.
  - done.
  - by apply revoke_access_indexed.
  - by apply revoke_refresh_indexed.
  - unfold revoke_client. apply (revoke_those_indexed (fun t => String.eqb (t_client t) client)).
    generalize (Tokens.by_user client_deleted account_deleted now (refresh_by_user s) (refresh s) user). intros l. revert s Hs.
    induction l as [|r l IH]; intros s Hs; simpl; [done|]. apply IH. destruct (refresh s !! r) as [t|]; [|done].
    destruct (String.eqb _ _); [|done]. by apply revoke_refresh_indexed.
  - unfold revoke_all_by_user. generalize (Tokens.by_user client_deleted account_deleted now (access_by_user s) (access s) user).
    intros l. revert s Hs. induction l as [|a l IH]; intros s Hs; simpl; [done|]. apply IH. by apply revoke_access_indexed.
Qed.

Lemma revoked_refused m now id : (forall t, m !! id = Some t -> revoked t = true) -> accepted now m id = false.
Proof.
  intros Hr. unfold Tokens.accepted, find. destruct (m !! id) as [t|]; [|done]. destruct (alive now (t_expires t)); [|done].
  unfold check_valid. by rewrite (Hr t).
Qed.

(** C19. Whatever tokens were given out and revoked before, once a refresh
    token is revoked neither it nor any of its user's access tokens made from
    it is accepted from then on, and every other access token is accepted as
    before. *)
Theorem revocation_cascades (events : list (Z * token_event)) now id t u :
  let s := foldl (run_token_event client_deleted account_deleted) (Tokens ∅ ∅ ∅ ∅) events in
  let s' := revoke_refresh now id s in
  refresh s !! id = Some t -> t_user t = Some u ->
  (forall later, accepted later (refresh s') id = false) /\
  (forall later a ta, now <= later -> access s !! a = Some ta -> t_user ta = Some u -> t_refresh ta = Some id ->
    accepted later (access s') a = false) /\
  (forall later a ta, access s !! a = Some ta -> t_refresh ta <> Some id ->
    accepted later (access s') a = accepted later (access s) a).
Proof.
  intros s s' Ht Hu.
  assert (Hs : indexed s).
  { unfold s. assert (H0 : indexed (Tokens ∅ ∅ ∅ ∅)) by (intros a ta v; simpl; by rewrite lookup_empty).
    revert H0. generalize (Tokens ∅ ∅ ∅ ∅). clear. induction events as [|e events IH]; intros s Hs; simpl; [done|].
    apply IH. by apply run_token_event_indexed. }
  unfold s'. rewrite (revoke_refresh_eq now id s t u Ht Hu). clearbody s. clear s'.
  set (s1 := Tokens (access s) _ _ _). set (l := by_user now (access_by_user s) (access s) u).
  pose proof (fun b => access_revoke_those (made_from id) l s1 b (fun t => eq_refl)) as Hacc. simpl in Hacc.
  destruct (revoke_those_rest (made_from id) l s1) as [Href _]. split_and!.
  - intros later. apply revoked_refused. rewrite Href. simpl. rewrite lookup_insert_eq. by intros t' [= <-].
  - intros later a ta Hlater Ha Hua Hra. unfold Tokens.accepted, find. rewrite Hacc, Ha. simpl.
    unfold made_from. rewrite (bool_decide_true (t_refresh ta = Some id)) by done. rewrite andb_true_r.
    case_bool_decide as Hin; simpl; [by destruct (alive later (t_expires ta))|].
    destruct (alive later (t_expires ta)) eqn:El; [|done]. destruct (check_valid client_deleted account_deleted ta) eqn:Ev; [|done].
    destruct Hin. apply elem_of_by_user.
    assert (Hnow : alive now (t_expires ta) = true) by (unfold alive in *; destruct (t_expires ta); [lia|done]).
    split.
    + exists (t_expires ta). split; [|done]. apply Hs; [done|done|]. unfold check_valid in Ev. by destruct (revoked ta).
    + exists ta. split; [|done]. unfold find. by rewrite Ha, Hnow.
  - intros later a ta Ha Hra. unfold Tokens.accepted, find. rewrite Hacc, Ha. simpl. unfold made_from.
    rewrite (bool_decide_false (t_refresh ta = Some id)) by done. by rewrite andb_false_r.
Qed.
End revocation.

(** ** Developers *)

(** The index lists for every account the clients it develops. *)
Definition dev_consistent (c : clients) : Prop :=
  (forall client user, client ∈ clients_of c user <-> user ∈ devs c client) /\
  forall client, (size (devs c client) <= max_developers)%nat.

Lemma devs_insert c client ds client' d b :
  devs (Clients (<[client := ds]> (developers c)) d b) client' = if decide (client' = client) then ds else devs c client'.
Proof. unfold devs. simpl. case_decide as Hd; [subst; by rewrite lookup_insert_eq|by rewrite lookup_insert_ne]. Qed.

Lemma clients_of_insert c d e user X user' :
  clients_of (Clients d e (<[user := X]> (by_dev c))) user' = if decide (user' = user) then X else clients_of c user'.
Proof. unfold clients_of. simpl. case_decide as Hd; [subst; by rewrite lookup_insert_eq|by rewrite lookup_insert_ne]. Qed.

Lemma elem_of_devs_insert c client ds client' d b user :
  user ∈ devs (Clients (<[client := ds]> (developers c)) d b) client' <->
    (client' = client /\ user ∈ ds) \/ (client' <> client /\ user ∈ devs c client').
Proof. rewrite devs_insert. case_decide; naive_solver. Qed.

Lemma elem_of_clients_insert c d e user X user' client :
  client ∈ clients_of (Clients d e (<[user := X]> (by_dev c))) user' <->
    (user' = user /\ client ∈ X) \/ (user' <> user /\ client ∈ clients_of c user').
Proof. rewrite clients_of_insert. case_decide; naive_solver. Qed.

Lemma add_developer_consistent client user force c c' :
  dev_consistent c -> force = false -> add_developer client user force c = Some c' -> dev_consistent c'.
Proof.
  intros [Hix Hsize] -> Hadd. unfold add_developer in Hadd. rewrite andb_true_r in Hadd.
  destruct (bool_decide (user ∉ devs c client) && (max_developers <=? size (devs c client))%nat) eqn:E; [done|].
  injection Hadd as <-. split.
  - intros client' user'. rewrite elem_of_clients_insert, elem_of_devs_insert, !elem_of_union, !elem_of_singleton, !Hix.
    destruct (decide (client' = client)), (decide (user' = user)); naive_solver.
  - intros client'. rewrite devs_insert. destruct (decide (client' = client)) as [Hd|Hd]; [|apply Hsize].
    destruct (decide (user ∉ devs c client)) as [Hin|Hin].
    + rewrite bool_decide_true in E by done. cbn [andb] in E. apply Nat.leb_gt in E. rewrite size_union by set_solver. rewrite size_singleton. lia.
    + apply dec_stable in Hin. replace ({[user]} ∪ devs c client) with (devs c client) by set_solver. apply Hsize.
Qed.

Lemma remove_developer_consistent gone client user c :
  dev_consistent c -> dev_consistent (remove_developer gone client user c).
Proof.
  intros [Hix Hsize]. unfold remove_developer. case_bool_decide as Hin; simpl; split.
  - intros client' user'. rewrite elem_of_clients_insert, elem_of_devs_insert, !elem_of_difference, !elem_of_singleton.
    unfold clients_of. simpl. fold (clients_of c user) (clients_of c user'). rewrite !Hix.
    destruct (decide (client' = client)), (decide (user' = user)); naive_solver.
  - intros client'. rewrite devs_insert. destruct (decide (client' = client)); [|apply Hsize].
    etrans; [|apply (Hsize client)]. apply subseteq_size. set_solver.
  - intros client' user'. rewrite elem_of_clients_insert, elem_of_difference, elem_of_singleton, !Hix. unfold devs. simpl.
    fold (devs c client'). destruct (decide (client' = client)), (decide (user' = user)); naive_solver.
  - intros client'. apply (Hsize client').
Qed.

(** After any additions and removals of developers, an account is offered
    exactly the undeleted clients it develops, no client has more than twenty
    developers, and removing one leaves a client that no other account
    develops deleted. *)
Theorem developers_indexed gone (calls : list (bool * string * string)) :
  let c := foldl (run_developer gone) (Clients ∅ ∅ ∅) calls in
  (forall client user, client ∈ by_developer gone c user <-> has_developer gone c client user = true /\ client ∉ deleted c) /\
  (forall client, (size (devs c client) <= max_developers)%nat) /\
  (forall client user, user ∈ devs c client -> (forall d, d ∈ devs c client -> d = user \/ gone d = true) ->
    client ∈ deleted (remove_developer gone client user c)).
Proof.
  intros c.
  assert (Hc : dev_consistent c).
  { unfold c. assert (H0 : dev_consistent (Clients ∅ ∅ ∅)).
    { split; [intros client user; unfold clients_of, devs; simpl; rewrite !lookup_empty; set_solver|].
      intros client. unfold devs. simpl. rewrite lookup_empty. change (size (∅ : gset string) <= max_developers)%nat.
      rewrite size_empty. lia. }
    revert H0. generalize (Clients ∅ ∅ ∅). clear. induction calls as [|[[add client] user] calls IH]; intros c Hc; simpl; [done|].
    apply IH. destruct add; [|by apply remove_developer_consistent].
    destruct (add_developer client user false c) as [c'|] eqn:E; [|done]. by apply (add_developer_consistent client user false c). }
  destruct Hc as [Hix Hsize]. clearbody c. split_and!; [|done|].
  - intros client user. unfold by_developer, has_developer. destruct (gone user); simpl; [set_solver|].
    rewrite elem_of_filter, Hix, bool_decide_eq_true. tauto.
  - intros client user Hin Hall. unfold remove_developer. rewrite bool_decide_true by done. simpl.
    rewrite bool_decide_true; [set_solver|]. intros d [Hd Hne]%elem_of_difference. rewrite elem_of_singleton in Hne.
    destruct (Hall d Hd); [done|done].
Qed.
End TokensProps.
