(* ===== verification/TokensExamples.v ===== *)
(** * OAuth tokens on concrete values

    The instances of the theorems of TokensProps, and behaviours of the code
    as written that its comments do not announce. *)

From S2P Require Import Prelude PyString Tdb TdbExamples Tokens TokensProps.

Module TokensExamples.
Import Tdb TdbExamples Tokens TokensProps.

Definition two_places : scope := Scope true {[ "pics"; "askreddit" ]} {[ "vote"; "read" ]}.

Lemma scope_roundtrip_witness :
  scope_str two_places = "askreddit+pics:read vote" /\ scope_of_str "askreddit+pics:read vote" = two_places.
Proof.
  assert (E : scope_str two_places = "askreddit+pics:read vote") by (vm_compute; reflexivity).
  split; [exact E|]. rewrite <- E. apply (scope_roundtrip two_places). split.
  - intros Habs. assert (Hin : "vote" ∈ (∅ : gset string)) by (rewrite <- Habs; apply (bool_decide_unpack _); vm_compute; exact I).
    by apply elem_of_empty in Hin.
  - intros n Hn. apply elem_of_union in Hn as [-> %elem_of_singleton | ->%elem_of_singleton]; split_and!; done.
  - simpl. intros Habs. assert (Hin : "pics" ∈ (∅ : gset string)) by (rewrite <- Habs; apply (bool_decide_unpack _); vm_compute; exact I).
    by apply elem_of_empty in Hin.
  - intros n Hn. apply elem_of_union in Hn as [->%elem_of_singleton | ->%elem_of_singleton]; done.
Defined.

Lemma merge_scopes_exact_witness :
  merge_scopes [Scope true {[ "pics" ]} {[ "read" ]}; Scope false ∅ {[ "identity" ]}; Scope true {[ "pics" ]} {[ "vote" ]}]
    !! Some "pics" = Some {[ "read"; "vote" ]}.
Proof.
  rewrite (merge_scopes_exact [Scope true {[ "pics" ]} {[ "read" ]}; Scope false ∅ {[ "identity" ]}; Scope true {[ "pics" ]} {[ "vote" ]}]).
  - vm_compute. reflexivity.
  - apply Forall_cons; split; [exists (Some "pics"); vm_compute; reflexivity|].
    apply Forall_cons; split; [exists None; vm_compute; reflexivity|].
    apply Forall_cons; split; [exists (Some "pics"); vm_compute; reflexivity|apply Forall_nil; exact I].
Defined.

(** A code, given out at time 0. *)
Definition code_world : world :=
  (commit AuthorizationCode 0 0 (World ∅ [new_code "c0de" "app" "https://a" "7" "read" false] ∅)).1.

Lemma code_expiry k c : row_of code_world "c0de" !! k = Some c -> exists e, c_expires c = Some e /\ e <= 5 + 600.
Proof.
  intros Hk. assert (Hall : map_Forall (fun _ c => bool_decide (c_expires c = Some 600) = true) (row_of code_world "c0de"))
    by (apply (bool_decide_unpack _); vm_compute; exact I).
  exists 600. specialize (Hall k c Hk). simpl in Hall. apply bool_decide_eq_true in Hall. split; [exact Hall|lia].
Qed.

Lemma code_used_once_witness :
  exists w1 l, use_token AuthorizationCode 5 (Some "c0de") "app" "https://a" (request code_world) = Ok (w1, Some l) /\
    exists w2, use_token AuthorizationCode 6 (Some "c0de") "app" "https://a" (request w1) = Ok (w2, None).
Proof.
  destruct (use_token AuthorizationCode 5 (Some "c0de") "app" "https://a" (request code_world)) as [[w1 [l|]]|e] eqn:E.
  - exists w1, l. split; [reflexivity|].
    apply (code_used_once 5 6 "c0de" "app" "app" "https://a" "https://a" code_world w1 l); [apply code_expiry|lia|exact E].
  - vm_compute in E. discriminate E.
  - vm_compute in E. discriminate E.
Defined.

(** An app of one user, with tokens from a refresh token and one without. *)
Definition no_one (_ : string) : option bool := Some false.
Definition given : list (Z * token_event) :=
  [(0, NewRefresh "r1" "app" "7" "read"); (1, NewAccess "a1" "app" (Some "7") "read" (Some "r1"));
   (2, NewAccess "a2" "app" (Some "7") "read" None); (50, NewAccess "a3" "app" (Some "7") "read" (Some "r1"))].

Lemma revocation_cascades_witness :
  let s := foldl (run_token_event no_one no_one) (Tokens ∅ ∅ ∅ ∅) given in
  accepted no_one no_one 100 (access s) "a3" = true /\
  accepted no_one no_one 100 (access (revoke_refresh no_one no_one 100 "r1" s)) "a3" = false /\
  accepted no_one no_one 100 (access (revoke_refresh no_one no_one 100 "r1" s)) "a2" = true.
Proof.
  destruct (revocation_cascades no_one no_one given 100 "r1" (Token "app" (Some "7") "read" None None false) "7"
    eq_refl eq_refl) as (_ & Hgone & Hkept).
  split; [vm_compute; reflexivity|]. split.
  - apply (Hgone 100 "a3" (Token "app" (Some "7") "read" (Some "r1") (Some 3650) false)); [lia|vm_compute; reflexivity|reflexivity|reflexivity].
  - rewrite (Hkept 100 "a2" (Token "app" (Some "7") "read" None (Some 3602) false)); [vm_compute; reflexivity|vm_compute; reflexivity|discriminate].
Defined.

Lemma developers_indexed_witness :
  let c := foldl (run_developer (fun _ => false)) (Clients ∅ ∅ ∅) [(true, "app", "7"); (true, "app", "8"); (false, "app", "8")] in
  "app" ∈ deleted (remove_developer (fun _ => false) "app" "7" c).
Proof.
  destruct (developers_indexed (fun _ => false) [(true, "app", "7"); (true, "app", "8"); (false, "app", "8")]) as (_ & _ & Hlast).
  apply (Hlast "app" "7").
  - apply (bool_decide_unpack _). vm_compute. exact I.
  - intros d Hd. left. cut (set_Forall (fun d => d = "7") (devs (foldl (run_developer (fun _ => false)) (Clients ∅ ∅ ∅)
      [(true, "app", "7"); (true, "app", "8"); (false, "app", "8")]) "app")).
    { intros Hall. exact (Hall d Hd). }
    apply (bool_decide_unpack _). vm_compute. exact I.
Defined.

(** ** Behaviours of the code as written *)

(** A scope for two subreddits has one set of scopes: what a later scope adds
    for the one is granted for the other. *)
Example merge_leaks :
  let m := merge_scopes [Scope true {[ "a"; "b" ]} {[ "read" ]}; Scope true {[ "a" ]} {[ "vote" ]}] in
  m !! Some "a" = Some {[ "read"; "vote" ]} /\ m !! Some "b" = Some {[ "read"; "vote" ]}.
Proof. split; vm_compute; reflexivity. Qed.

(** No scope that is described has the id that the one for editing wikis
    gives. *)
Example wiki_scope_id : scope_ids !! "wikiedit" = Some "wiki" /\ scope_ids !! "wiki" = None.
Proof. split; vm_compute; reflexivity. Qed.

(** Two requests that both look a code up before either consumes it both may
    use it. *)
Example code_used_twice :
  let first := get_token AuthorizationCode 5 (Some "c0de") (request code_world) in
  let second := get_token AuthorizationCode 5 (Some "c0de") (request code_world) in
  exists w l, first = Ok (w, Some l) /\ second = Ok (w, Some l) /\
    (consume AuthorizationCode 6 l w).2 = Ok tt /\
    (consume AuthorizationCode 7 l (World (rows (consume AuthorizationCode 6 l w).1) (heap w) (cache w))).2 = Ok tt.
Proof. do 2 eexists. split; [vm_compute; reflexivity|]. split; [vm_compute; reflexivity|]. split; vm_compute; reflexivity. Qed.

(** The last developer that is left deletes the client; added again by force
    or not, the account develops it but is not offered it. *)
Example deleted_client_not_offered :
  let c := foldl (run_developer (fun _ => false)) (Clients ∅ ∅ ∅) [(true, "app", "7"); (false, "app", "7"); (true, "app", "7")] in
  has_developer (fun _ => false) c "app" "7" = true /\ by_developer (fun _ => false) c "7" = ∅.
Proof. split; vm_compute; reflexivity. Qed.

End TokensExamples.
