(* ===== verification/Thing.v ===== *)
(** * Things and their storage

    lib/db/thing.py with the data tables of lib/db/tdb_sql.py: the attributes
    of an object, what it has changed, its rows in the database, and the
    copies that processes share through memcached.  Objects and their
    dictionaries live in the heap of a process; what is cached locally is the
    object itself, what is in memcached a pickled copy. *)

From S2P Require Import Prelude Tdb.

Module Thing.
Import Tdb.

(** ** Rows of the data tables *)

(** A value as text, or NULL, and its kind. *)
Record cell := Cell { c_value : option string; c_kind : string }.

(** What the code takes from elsewhere: the sum of a float and an integer, and
    the text of a number after [cast(value as float) + amount] in SQL, where
    the cast may fail. *)
Class Numbers := {
  float_add : Z -> Z -> Z;
  sql_incr : string -> Z -> option string
}.

Section rows.
Context `{Codecs} `{Numbers}.

Definition py2db (v : value) : cell :=
  match v with
  | VBool b => Cell (Some (if b then "t" else "f")) "bool"
  | VStr s | VBytes s => Cell (Some s) "str"
  | VInt n => Cell (Some (py_str_int n)) "num"
  | VFloat f => Cell (Some (float_str f)) "num"
  | VNone => Cell None "none"
  | v => Cell (Some (pickle_dumps v)) "pickle"
  end.

(** Texts come back as bytes (the engine has no native unicode). *)
Definition db2py (c : cell) : res value :=
  if String.eqb (c_kind c) "bool" then Ok (VBool (bool_decide (c_value c = Some "t")))
  else if String.eqb (c_kind c) "num" then
    match c_value c with
    | None => Raise TypeError
    | Some s =>
        match py_int_str s with Some n => Ok (VInt n) | None => of_option ValueError (VFloat <$> float_of s) end
    end
  else if String.eqb (c_kind c) "none" then Ok VNone
  else if String.eqb (c_kind c) "pickle" then match c_value c with Some s => pickle_loads s | None => Raise TypeError end
  else Ok match c_value c with Some s => VBytes s | None => VNone end.

(** [val + amt]. *)
Definition py_add (v : value) (amt : Z) : res value :=
  match v with
  | VInt n => Ok (VInt (n + amt))
  | VBool b => Ok (VInt ((if b then 1 else 0) + amt))
  | VFloat f => Ok (VFloat (float_add f amt))
  | _ => Raise TypeError
  end.
End rows.

(** The tables of one class: the columns of its things, under the names of the
    attributes, their data rows, and the next id. *)
Record table := Table {
  t_props : gmap Z (gmap string value);
  t_data : gmap Z (gmap string cell);
  next_id : Z
}.

(** ** Objects *)

(** A class: [_base_props], [_int_props], [_data_int_props],
    [_int_prop_suffix], [_defaults], [_essentials]. *)
Record class := Class {
  base_props : list string;
  base_ints : list string;
  data_ints : list string;
  int_suffix : option string;
  th_defaults : gmap string value;
  essentials : list string
}.

(** An object, with the address of its [_t]. *)
Record obj := Obj {
  o_id : option Z;
  base : gmap string value;
  t_ref : nat;
  o_dirties : gmap string (value * value);
  created : bool
}.

Definition with_base (b : gmap string value) (o : obj) : obj := Obj (o_id o) b (t_ref o) (o_dirties o) (created o).
Definition with_dirties (d : gmap string (value * value)) (o : obj) : obj := Obj (o_id o) (base o) (t_ref o) d (created o).
Definition with_ref (r : nat) (o : obj) : obj := Obj (o_id o) (base o) r (o_dirties o) (created o).

(** A process while it answers a request: its objects, their dictionaries, and
    its local cache. *)
Record process := Process {
  objs : list obj;
  dicts : list (gmap string value);
  local : gmap Z nat
}.

(** A pickled object. *)
Record copy := Copy { c_base : gmap string value; c_t : gmap string value; c_dirties : gmap string (value * value); c_created : bool }.

Notation memcache := (gmap Z copy).

Definition dict_of (p : process) (o : obj) : gmap string value := default ∅ (dicts p !! t_ref o).

Section thing.
Context `{Codecs} `{Numbers} (cls : class).

(** [self._t.get(attr, self._defaults.get(attr))]. *)
Definition stored (t : gmap string value) (attr : string) : value :=
  default VNone (match t !! attr with Some v => Some v | None => th_defaults cls !! attr end).

(** [__setattr__] of an object with its dictionary; other private attributes
    are not part of the thing. *)
Definition setattr (attr : string) (val : value) (make_dirty : bool) (ot : obj * gmap string value)
  : res (obj * gmap string value) :=
  let '(o, t) := ot in
  let mark old o := if make_dirty && negb (py_eq val old) then with_dirties (<[attr := (old, val)]> (o_dirties o)) o else o in
  if py_startswith "_" attr then
    if bool_decide (attr ∉ base_props cls) then Ok (o, t)
    else
      let o' := with_base (<[attr := val]> (base o)) o in
      if make_dirty then
        match base o !! attr with
        | Some old => Ok (mark old o', t)
        | None => Raise UnboundLocalError
        end
      else Ok (o', t)
  else Ok (mark (stored t attr) o, <[attr := val]> t).

(** An attribute as it is read: of the object, its dictionary, the defaults. *)
Definition getattr (attr : string) (ot : obj * gmap string value) : res value :=
  match base ot.1 !! attr with
  | Some v => Ok v
  | None => match ot.2 !! attr with Some v => Ok v | None => of_option AttributeError (th_defaults cls !! attr) end
  end.

(** Access through addresses. *)
Definition on_obj (a : nat) (f : obj * gmap string value -> res (obj * gmap string value)) (p : process) : res process :=
  match objs p !! a with
  | None => Ok p
  | Some o =>
      let* ot := f (o, dict_of p o) in
      Ok (Process (<[a := ot.1]> (objs p)) (<[t_ref ot.1 := ot.2]> (dicts p)) (local p))
  end.

(** A new object of the class in memory: [__init__] with attributes. *)
Definition init (b : gmap string value) (attrs : list (string * value)) (p : process) : res (process * nat) :=
  let o := Obj None b (length (dicts p)) ∅ false in
  let* ot := res_foldl (fun ot kv => setattr kv.1 kv.2 true ot) (o, ∅) attrs in
  Ok (Process (objs p ++ [ot.1]) (dicts p ++ [ot.2]) (local p), length (objs p)).

(** Pickling, and unpickling at new addresses. *)
Definition freeze (p : process) (o : obj) : copy := Copy (base o) (dict_of p o) (o_dirties o) (created o).

Definition thaw (id : Z) (c : copy) (p : process) : process * nat :=
  (Process (objs p ++ [Obj (Some id) (c_base c) (length (dicts p)) (c_dirties c) (c_created c)]) (dicts p ++ [c_t c]) (local p),
   length (objs p)).

Definition set_local (id : Z) (a : nat) (p : process) : process := Process (objs p) (dicts p) (<[id := a]> (local p)).

(** ** Lookups *)

(** [get_things_from_cache] of an id, from the local cache or memcached. *)
Definition get_cached (allow_local : bool) (ch : memcache) (id : Z) (p : process) : process * option nat :=
  match (if allow_local then local p !! id else None) with
  | Some a => (p, Some a)
  | None =>
      match ch !! id with
      | Some c => let r := thaw id c p in (set_local id r.2 r.1, Some r.2)
      | None => (p, None)
      end
  end.

(** [get_things_from_db] of an id: a thing that misses an essential property
    is left out. *)
Definition read_row (tbl : table) (id : Z) : res (option copy) :=
  match t_props tbl !! id with
  | None => Ok None
  | Some b =>
      let* t := res_map (fun _ => db2py) (default ∅ (t_data tbl !! id)) in
      Ok (if forallb (fun e => bool_decide (is_Some (t !! e))) (essentials cls) then Some (Copy b t ∅ true) else None)
  end.

Definition read_rows (tbl : table) (ids : list Z) : res (list (Z * copy)) :=
  let* l := res_mapM (fun id => let* c := read_row tbl id in Ok (id, c)) (remove_dups ids) in
  Ok (omap (M := list) (fun ic : Z * option copy => (fun c => (ic.1, c)) <$> ic.2) l).

(** [write_things_to_cache]: what is there stays. *)
Definition add_things (l : list (Z * copy)) (pc : process * memcache) : process * memcache * gmap Z nat :=
  foldl (fun r ic =>
    let '(p, ch, found) := r in
    let q := thaw ic.1 ic.2 p in
    let p := match local q.1 !! ic.1 with Some _ => q.1 | None => set_local ic.1 q.2 q.1 end in
    let ch := match ch !! ic.1 with Some _ => ch | None => <[ic.1 := ic.2]> ch end in
    (p, ch, <[ic.1 := q.2]> found)) (pc.1, pc.2, ∅) l.

Definition get_all_cached (ch : memcache) (ids : list Z) (p : process) : process * gmap Z nat :=
  foldl (fun r id => let q := get_cached true ch id r.1 in
    (q.1, match q.2 with Some a => <[id := a]> r.2 | None => r.2 end)) (p, ∅) ids.

Definition MAX_THING_ID : Z := 9223372036854775807.
Definition MIN_THING_ID : Z := 0.

(** [_byID] of a list, as a dict of addresses. *)
Definition by_ids (ids : list Z) (ignore_missing : bool) (tbl : table) (p : process) (ch : memcache)
  : process * memcache * res (gmap Z nat) :=
  if existsb (fun id => (MAX_THING_ID <? id) || (id <? MIN_THING_ID)) ids then (p, ch, Raise NotFound)
  else
    let r := get_all_cached ch ids p in
    let missing := List.filter (fun id => bool_decide (r.2 !! id = None)) ids in
    match read_rows tbl missing with
    | Raise e => (r.1, ch, Raise e)
    | Ok l =>
        let '(p, ch, from_db) := add_things l (r.1, ch) in
        let found := from_db ∪ r.2 in
        (p, ch, if forallb (fun id => bool_decide (is_Some (found !! id))) ids || ignore_missing then Ok found else Raise NotFound)
    end.

(** A single id: the object, or nothing when it may be missing. *)
Definition by_id (id : Z) (ignore_missing : bool) (tbl : table) (p : process) (ch : memcache)
  : process * memcache * res (option nat) :=
  let '(p, ch, r) := by_ids [id] ignore_missing tbl p ch in
  (p, ch, let* found := r in Ok (found !! id)).

(** ** Commits *)

(** [set_thing_data], of new and of other things, and [set_thing_props], which
    updates no row that is not there. *)
Definition set_data (id : Z) (data : gmap string value) (tbl : table) : table :=
  if bool_decide (data = ∅) then tbl
  else Table (t_props tbl) (<[id := (py2db <$> data) ∪ default ∅ (t_data tbl !! id)]> (t_data tbl)) (next_id tbl).

Definition set_props (id : Z) (props : gmap string value) (tbl : table) : table :=
  if bool_decide (props = ∅) then tbl
  else Table (alter (fun row => props ∪ row) id (t_props tbl)) (t_data tbl) (next_id tbl).

(** [write_changes_to_db]. *)
Definition part_of (private : bool) (changes : gmap string (value * value)) : gmap string value :=
  snd <$> filter (fun kv => py_startswith "_" kv.1 = private) changes.

Definition write_changes (id : Z) (changes : gmap string (value * value)) (brand_new : bool) (tbl : table) : table :=
  let tbl := set_data id (part_of false changes) tbl in
  if brand_new then tbl else set_props id (part_of true changes) tbl.

(** [update_from_cache]: the object takes over the properties of the copy and
    shares the dictionary of the object made of it, then its changes are made
    again. *)
Definition take_over (c : copy) (r : nat) (o : obj) : obj :=
  with_dirties ∅ (with_ref r (with_base
    (foldl (fun b bp => match c_base c !! bp with Some v => <[bp := v]> b | None => b end) (base o) (base_props cls)) o)).

Definition reapply (a : nat) (changes : gmap string (value * value)) (p : process) : res process :=
  res_foldl (fun p kv => on_obj a (setattr kv.1 kv.2.2 true) p) p (map_to_list changes).

Definition update_from_cache (a : nat) (id : Z) (ch : memcache) (p : process) : res process :=
  match objs p !! a, ch !! id with
  | Some o, Some c =>
      let p' := (get_cached false ch id p).1 in
      let p' := Process (<[a := take_over c (length (dicts p)) o]> (objs p')) (dicts p') (local p') in
      reapply a (o_dirties o) p'
  | _, _ => Ok p
  end.

(** [write_thing_to_cache]: the object locally, a copy in memcached, which may
    fail. *)
Definition write_cache (cache_ok : bool) (a : nat) (id : Z) (p : process) (ch : memcache) : process * memcache * res unit :=
  match objs p !! a with
  | None => (p, ch, Ok tt)
  | Some o =>
      if cache_ok then (set_local id a p, <[id := freeze p o]> ch, Ok tt)
      else (set_local id a p, ch, Raise MemcachedError)
  end.

Definition clean (a : nat) (p : process) : process := Process (alter (with_dirties ∅) a (objs p)) (dicts p) (local p).

(** [_commit] of an object that is stored, up to the end of the transaction:
    what it has changed, if anything. *)
Definition commit_db (a : nat) (id : Z) (ch : memcache) (p : process) (tbl : table)
  : res (process * table * gmap string (value * value)) :=
  let* p := update_from_cache a id ch p in
  let changes := match objs p !! a with Some o => o_dirties o | None => ∅ end in
  if bool_decide (changes = ∅) then Ok (p, tbl, ∅)
  else Ok (clean a p, write_changes id changes false tbl, changes).

(** [_commit] of a new object, up to the same point: it gets its id, and its
    columns are its base. *)
Definition create_db (a : nat) (p : process) (tbl : table) : process * table * Z :=
  match objs p !! a with
  | None => (p, tbl, 0)
  | Some o =>
      let id := next_id tbl in
      let tbl := Table (<[id := base o]> (t_props tbl)) (t_data tbl) (id + 1) in
      (Process (<[a := Obj (Some id) (base o) (t_ref o) ∅ true]> (objs p)) (dicts p) (local p),
       write_changes id (o_dirties o) true tbl, id)
  end.

Definition commit (cache_ok : bool) (a : nat) (p : process) (ch : memcache) (tbl : table)
  : process * memcache * table * res unit :=
  match objs p !! a with
  | None => (p, ch, tbl, Ok tt)
  | Some o =>
      match o_id o with
      | None =>
          let '(p, tbl, id) := create_db a p tbl in
          let '(p, ch, r) := write_cache cache_ok a id p ch in (p, ch, tbl, r)
      | Some id =>
          match commit_db a id ch p tbl with
          | Raise e => (p, ch, tbl, Raise e)
          | Ok (p, tbl, changes) =>
              if bool_decide (changes = ∅) then (p, ch, tbl, Ok tt)
              else let '(p, ch, r) := write_cache cache_ok a id p ch in (p, ch, tbl, r)
          end
      end
  end.

(** ** Increments *)

Definition is_data_int (prop : string) : bool :=
  bool_decide (prop ∈ data_ints cls) || match int_suffix cls with Some s => negb (String.eqb s "") && py_endswith s prop | None => false end.

(** What the statement of [_incr] does: a column, a data row set from the
    default, or a data row, if there is one. *)
Definition incr_row (id : Z) (prop : string) (old new : value) (amt : Z) (tbl : table) : res table :=
  if bool_decide (prop ∈ base_ints cls) then
    match t_props tbl !! id with
    | None => Ok tbl
    | Some row =>
        match row !! prop with
        | None => Ok tbl
        | Some v => let* v := py_add v amt in Ok (Table (<[id := <[prop := v]> row]> (t_props tbl)) (t_data tbl) (next_id tbl))
        end
    end
  else if match th_defaults cls !! prop with Some d => py_eq d old | None => false end then
    Ok (Table (t_props tbl) (<[id := <[prop := py2db new]> (default ∅ (t_data tbl !! id))]> (t_data tbl)) (next_id tbl))
  else
    match t_data tbl !! id ≫= lookup prop with
    | None => Ok tbl
    | Some c =>
        let* value := match c_value c with
          | None => Ok None
          | Some s => let* s := of_option DBAPIError (sql_incr s amt) in Ok (Some s)
          end in
        Ok (Table (t_props tbl) (alter (<[prop := Cell value (c_kind c)]>) id (t_data tbl)) (next_id tbl))
    end.

(** [_incr]: memcached is written within the transaction, which is rolled
    back when that fails. *)
Definition incr (cache_ok : bool) (a : nat) (prop : string) (amt : Z) (p : process) (ch : memcache) (tbl : table)
  : process * memcache * table * res unit :=
  match objs p !! a with
  | None => (p, ch, tbl, Ok tt)
  | Some o =>
      if negb (bool_decide (o_dirties o = ∅)) || negb (bool_decide (prop ∈ base_ints cls) || is_data_int prop) then
        (p, ch, tbl, Raise AssertionError)
      else
        match o_id o with
        | None => (p, ch, tbl, Raise AttributeError)
        | Some id =>
            match
              let* p := update_from_cache a id ch p in
              match objs p !! a with
              | None => Ok (p, tbl)
              | Some o =>
                  let* old := getattr prop (o, dict_of p o) in
                  let* new := py_add old amt in
                  let* p := on_obj a (setattr prop new false) p in
                  let* tbl := incr_row id prop old new amt tbl in
                  Ok (p, tbl)
              end
            with
            | Raise e => (p, ch, tbl, Raise e)
            | Ok (p', tbl') =>
                let '(p', ch', r) := write_cache cache_ok a id p' ch in
                (p', ch', match r with Ok _ => tbl' | Raise _ => tbl end, r)
            end
        end
  end.
End thing.
End Thing.
