(* ===== verification/ThingProps.v ===== *)
(** * Things and their storage: properties

    What is stored is read back, a commit writes exactly what was changed over
    what any process committed before, and the copies that processes share
    stay those of the database, however loads, commits and increments of many
    processes interleave. *)

From S2P Require Import Prelude Tdb TdbProps Thing.

Module ThingProps.
Import Tdb TdbProps Thing.

(** What the development asks of the codecs: integral floats are printed as
    they are read, and SQL adds to integers that a double holds. *)
Class NumberLaws (C : Codecs) (N : Numbers) := {
  float_text f : kept_float f -> match py_int_str (float_str f) with Some n => float_int f = Some n | None => True end;
  sql_int s n amt : py_int_str s = Some n -> Z.abs n < 10 ^ 15 -> Z.abs (n + amt) < 10 ^ 15 ->
    exists s', sql_incr s amt = Some s' /\ py_int_str s' = Some (n + amt)
}.

Section thing.
Context `{C : Codecs} `{!CodecLaws C} `{N : Numbers} `{!NumberLaws C N}.

(** ** Values up to what the database keeps of them *)

Definition norm (v : value) : value := match v with VStr s => VBytes s | v => v end.

(** The same number, text or object. *)
Definition same (v w : value) : Prop := face_of (norm v) = face_of (norm w).

#[export] Instance same_equivalence : Equivalence same.
Proof. split; unfold same; [by intros v|by intros v w|intros v w x; congruence]. Qed.

Lemma py_eq_same v w : py_eq v w = true -> same v w.
Proof.
  rewrite py_eq_face. unfold same, face_of, norm.
  destruct v as [|b|n|f|u|s|d|o], w as [|b'|n'|f'|u'|s'|d'|o']; simpl;
    repeat match goal with |- context [float_int ?f] => destruct (float_int f) eqn:? end;
    repeat match goal with |- context [is_ascii ?u] => destruct (is_ascii u) eqn:? end; congruence.
Qed.

Lemma same_int v n : same v (VInt n) <-> number v = Some n.
Proof.
  unfold same, face_of, norm. destruct v as [|b|m|f|u|s|d|o]; simpl;
    repeat match goal with |- context [float_int ?f] => destruct (float_int f) eqn:? end;
    repeat match goal with |- context [is_ascii ?u] => destruct (is_ascii u) eqn:? end; split; congruence.
Qed.

(** Values that are read back as they were written. *)
Definition kept (v : value) : Prop := match v with VFloat f => kept_float f | _ => True end.

Lemma db2py_py2db v : kept v -> exists v', db2py (py2db v) = Ok v' /\ same v' v.
Proof.
  intros Hv. destruct v as [|b|n|f|u|s|d|o]; unfold py2db, db2py; cbn [c_kind c_value String.eqb Ascii.eqb Bool.eqb];
    try (eexists; split; [apply pickle_roundtrip|done]).
  - by eexists.
  - eexists. split; [done|]. by destruct b.
  - rewrite py_int_str_int. by eexists.
  - pose proof (float_text f Hv) as Hf. rewrite Hv. destruct (py_int_str (float_str f)) as [n|]; simpl; eexists; (split; [done|]).
    + unfold same, face_of. simpl. by rewrite Hf.
    + done.
  - by eexists.
  - by eexists.
Qed.

Lemma res_map_total {A B} (f : string -> A -> res B) m :
  (forall k x, m !! k = Some x -> exists v, f k x = Ok v) -> exists d, res_map f m = Ok d.
Proof.
  intros Hf. exists (map_imap (fun k x => match f k x with Ok v => Some v | Raise _ => None end) m).
  apply res_map_Ok. intros k. rewrite map_lookup_imap. destruct (m !! k) as [x|] eqn:Ek; [|constructor].
  destruct (Hf k x Ek) as [v Hv]. simpl. rewrite Hv. constructor. done.
Qed.

Context (cls : class).

(** Private names of the class are those of its base. *)
Definition attr_ok (attr : string) : Prop := py_startswith "_" attr = true -> attr ∈ base_props cls.

Definition full (b : gmap string value) : Prop := dom b = list_to_set (base_props cls).

Lemma full_lookup b attr : full b -> attr ∈ base_props cls -> exists v, b !! attr = Some v.
Proof. intros Hb Ha. apply elem_of_dom. rewrite Hb. by apply elem_of_list_to_set. Qed.

Lemma full_insert b attr v : full b -> attr ∈ base_props cls -> full (<[attr := v]> b).
Proof. unfold full. intros Hb Ha. rewrite dom_insert_L, Hb. apply subseteq_union_1_L. set_solver. Qed.

(** ** What an object shows *)

(** The attributes as they are read, the missing ones as [None]. *)
Definition view (b t : gmap string value) (attr : string) : value :=
  if py_startswith "_" attr then default VNone (b !! attr) else stored cls t attr.

Definition view_obj (p : process) (o : obj) : string -> value := view (base o) (dict_of p o).

Definition view_copy (c : copy) : string -> value := view (c_base c) (c_t c).

Lemma view_getattr attr o t v : getattr cls attr (o, t) = Ok v -> full (base o) -> attr_ok attr ->
  (forall bp, bp ∈ base_props cls -> py_startswith "_" bp = true) -> view (base o) t attr = v.
Proof.
  intros Hg Hf Ha Hbp. unfold getattr in Hg. unfold view, stored. cbn [fst snd] in Hg.
  destruct (py_startswith "_" attr) eqn:Ep.
  - destruct (full_lookup (base o) attr Hf (Ha Ep)) as [w Hw]. rewrite Hw in Hg |- *. simpl. congruence.
  - destruct (base o !! attr) as [w|] eqn:Ew.
    + assert (Hin : attr ∈ dom (base o)) by (apply elem_of_dom; eauto). rewrite Hf in Hin.
      apply elem_of_list_to_set, Hbp in Hin. congruence.
    + destruct (t !! attr); [by simplify_eq|]. apply of_option_Ok in Hg. by rewrite Hg.
Qed.

(** Two objects that differ in nothing but their attributes and changes. *)
Definition same_object (o o' : obj) : Prop := o_id o' = o_id o /\ t_ref o' = t_ref o /\ created o' = created o.

Lemma setattr_spec attr v o t :
  attr_ok attr -> full (base o) ->
  exists o' t', setattr cls attr v true (o, t) = Ok (o', t') /\ same_object o o' /\ full (base o') /\
    (forall k, view (base o') t' k = if decide (k = attr) then v else view (base o) t k) /\
    o_dirties o' = if py_eq v (view (base o) t attr) then o_dirties o
      else <[attr := (view (base o) t attr, v)]> (o_dirties o).
Proof.
  intros Ha Hf. unfold setattr. cbv zeta. destruct (py_startswith "_" attr) eqn:Ep.
  - rewrite bool_decide_false by (intros Hn; by apply Hn, Ha). destruct (full_lookup _ _ Hf (Ha Ep)) as [old Hold]. rewrite Hold.
    assert (Hview : view (base o) t attr = old) by (unfold view; by rewrite Ep, Hold). rewrite Hview.
    do 2 eexists. split; [reflexivity|].
    assert (Hk : forall k, view (<[attr := v]> (base o)) t k = if decide (k = attr) then v else view (base o) t k).
    { intros k. unfold view. case_decide as Hd; [subst; by rewrite Ep, lookup_insert_eq|]. by rewrite lookup_insert_ne. }
    cbn [andb]. destruct (py_eq v old); simpl; (split; [done|]); (split; [apply full_insert; [done|by apply Ha]|]);
      (split; [exact Hk|reflexivity]).
  - do 2 eexists. split; [reflexivity|].
    assert (Hview : view (base o) t attr = stored cls t attr) by (unfold view; by rewrite Ep). rewrite Hview.
    assert (Hk : forall k, view (base o) (<[attr := v]> t) k = if decide (k = attr) then v else view (base o) t k).
    { intros k. unfold view, stored. case_decide as Hd; [subst; by rewrite Ep, lookup_insert_eq|]. by rewrite lookup_insert_ne. }
    cbn [andb]. destruct (py_eq v (stored cls t attr)); simpl; (split; [done|]); (split; [done|]); (split; [exact Hk|reflexivity]).
Qed.

(** What a list of changes makes of a value. *)
Definition over (m : gmap string (value * value)) (f : string -> value) (k : string) : value :=
  match m !! k with Some c => c.2 | None => f k end.

Lemma set_list_spec l o t :
  NoDup l.*1 -> Forall (fun kc => attr_ok kc.1) l -> full (base o) ->
  exists o' t', res_foldl (fun ot (kv : string * (value * value)) => setattr cls kv.1 kv.2.2 true ot) (o, t) l = Ok (o', t') /\
    same_object o o' /\ full (base o') /\
    (forall k, view (base o') t' k = over (list_to_map l) (view (base o) t) k) /\
    (forall k, o_dirties o' !! k = match list_to_map (M := gmap string (value * value)) l !! k with
      | Some c => if py_eq c.2 (view (base o) t k) then o_dirties o !! k else Some (view (base o) t k, c.2)
      | None => o_dirties o !! k
      end).
Proof.
  revert o t. induction l as [|[a c] l IH]; intros o t Hnd Hok Hf.
  { exists o, t. split; [done|]. split; [done|]. split; [done|]. by split; intros k. }
  rewrite fmap_cons in Hnd. apply NoDup_cons in Hnd as [Ha Hnd]. apply Forall_cons in Hok as [Haok Hok]. simpl in Ha, Haok.
  destruct (setattr_spec a c.2 o t Haok Hf) as (o1 & t1 & Hset & Hs1 & Hf1 & Hv1 & Hd1).
  destruct (IH o1 t1 Hnd Hok Hf1) as (o2 & t2 & Hrun & Hs2 & Hf2 & Hv2 & Hd2).
  exists o2, t2. cbn [res_foldl fst snd]. rewrite Hset. cbn [res_bind].
  assert (Hnone : list_to_map (M := gmap string (value * value)) l !! a = None) by by apply not_elem_of_list_to_map_1.
  split; [exact Hrun|]. split; [unfold same_object in *; intuition congruence|]. split; [done|]. split.
  - intros k. rewrite Hv2. unfold over. simpl. destruct (decide (k = a)) as [-> | Hk].
    + rewrite lookup_insert_eq, Hnone, Hv1, decide_True by done. done.
    + rewrite lookup_insert_ne by done. destruct (list_to_map l !! k); [done|]. by rewrite Hv1, decide_False.
  - intros k. rewrite Hd2. simpl. destruct (decide (k = a)) as [-> | Hk].
    + rewrite lookup_insert_eq, Hnone, Hd1. destruct (py_eq c.2 (view (base o) t a)); [done|]. by rewrite lookup_insert_eq.
    + rewrite lookup_insert_ne by done. rewrite Hv1, decide_False by done.
      assert (Hdk : o_dirties o1 !! k = o_dirties o !! k) by (rewrite Hd1; destruct (py_eq c.2 _); [done|by rewrite lookup_insert_ne]).
      by rewrite Hdk.
Qed.

(** The same through addresses. *)
Lemma reapply_spec a l p o o' t' :
  objs p !! a = Some o -> is_Some (dicts p !! t_ref o) ->
  NoDup l.*1 -> Forall (fun kc => attr_ok kc.1) l -> full (base o) ->
  res_foldl (fun ot (kv : string * (value * value)) => setattr cls kv.1 kv.2.2 true ot) (o, dict_of p o) l = Ok (o', t') ->
  res_foldl (fun p (kv : string * (value * value)) => on_obj a (setattr cls kv.1 kv.2.2 true) p) p l =
    Ok (Process (<[a := o']> (objs p)) (<[t_ref o := t']> (dicts p)) (local p)).
Proof.
  revert p o. induction l as [|[k c] l IH]; intros p o Ho Hr Hnd Hok Hf Hrun.
  - simpl in *. injection Hrun as <- <-. destruct Hr as [d Hd]. destruct p as [os ds loc]. simpl in *. f_equal. f_equal.
    + by rewrite list_insert_id.
    + unfold dict_of. simpl. by rewrite Hd, list_insert_id.
  - rewrite fmap_cons in Hnd. apply NoDup_cons in Hnd as [Ha Hnd]. apply Forall_cons in Hok as [Hkok Hok]. simpl in Hkok.
    destruct (setattr_spec k c.2 o (dict_of p o) Hkok Hf) as (o1 & t1 & Hset & (Hid & Href & Hc) & Hf1 & _).
    cbn [res_foldl fst snd] in Hrun |- *. rewrite Hset in Hrun. cbn [res_bind] in Hrun.
    unfold on_obj at 1. rewrite Ho, Hset. cbn [res_bind fst snd]. rewrite Href.
    assert (Hlen : (a < length (objs p))%nat) by by apply lookup_lt_Some in Ho.
    assert (Hlen2 : (t_ref o < length (dicts p))%nat) by by apply lookup_lt_is_Some.
    rewrite (IH _ o1); [|..]; simpl.
    + by rewrite !list_insert_insert_eq, Href, list_insert_insert_eq.
    + by rewrite list_lookup_insert_eq.
    + rewrite Href, list_lookup_insert_eq by done. by eexists.
    + done.
    + done.
    + done.
    + unfold dict_of. simpl. rewrite Href, list_lookup_insert_eq by done. exact Hrun.
Qed.

(** ** Well-formed processes *)

(** Attributes that are counters hold integers, the others anything that the
    database keeps. *)
Definition int_prop (k : string) : Prop := k ∈ base_ints cls \/ is_data_int cls k = true.

Definition typed (k : string) (v : value) : Prop := kept v /\ (int_prop k -> exists n, v = VInt n).

Record obj_ok (n : nat) (o : obj) : Prop := {
  ob_ref : (t_ref o < n)%nat;
  ob_full : full (base o);
  ob_dirty k : is_Some (o_dirties o !! k) -> attr_ok k;
  ob_typed k x : o_dirties o !! k = Some x -> typed k x.2;
  ob_created : is_Some (o_id o) -> created o = true
}.

Definition held (p : process) (id : Z) : Prop := exists a o, objs p !! a = Some o /\ o_id o = Some id.

Record process_ok (p : process) : Prop := {
  p_objs a o : objs p !! a = Some o -> obj_ok (length (dicts p)) o;
  p_local id a : local p !! id = Some a -> exists o, objs p !! a = Some o /\ o_id o = Some id
}.

(** A copy as the code makes them: of a stored object without changes. *)
Definition copy_ok (c : copy) : Prop := full (c_base c) /\ c_dirties c = ∅ /\ c_created c = true.

Lemma thaw_ok id c p :
  process_ok p -> copy_ok c ->
  process_ok (set_local id (thaw id c p).2 (thaw id c p).1) /\ process_ok (thaw id c p).1.
Proof.
  intros [Ho Hl] (Hf & Hd & Hc).
  assert (Hobjs : forall a o, (objs p ++ [Obj (Some id) (c_base c) (length (dicts p)) (c_dirties c) (c_created c)]) !! a = Some o ->
    obj_ok (length (dicts p ++ [c_t c])) o).
  { intros a o [Hin | [Hlen Hin]]%lookup_app_Some.
    - destruct (Ho a o Hin) as [H1 H2 H3 H4 H5]. split; [simpl; rewrite length_app; lia|done..].
    - apply list_lookup_singleton_Some in Hin as [_ <-]. split; simpl; [rewrite length_app; simpl; lia|done|..]; [| |done].
      + intros k. rewrite Hd, lookup_empty. by intros [].
      + intros k x. by rewrite Hd, lookup_empty. }
  assert (Hloc : forall i a, local p !! i = Some a ->
    exists o, (objs p ++ [Obj (Some id) (c_base c) (length (dicts p)) (c_dirties c) (c_created c)]) !! a = Some o /\ o_id o = Some i).
  { intros i a Hi. destruct (Hl i a Hi) as (o & Hoa & Hid). exists o. split; [|done]. by apply lookup_app_l_Some. }
  split; split; simpl.
  - exact Hobjs.
  - intros i a. destruct (decide (i = id)) as [-> | Hne].
    + rewrite lookup_insert_eq. intros [= <-]. eexists. rewrite list_lookup_middle by done. by split.
    + rewrite lookup_insert_ne by done. apply Hloc.
  - exact Hobjs.
  - exact Hloc.
Qed.

Lemma held_thaw id c p i : held (thaw id c p).1 i <-> held p i \/ i = id.
Proof.
  unfold held. simpl. split.
  - intros (a & o & [Hin | [_ Hin]]%lookup_app_Some & Hid); [left; eauto|].
    apply list_lookup_singleton_Some in Hin as [_ <-]. right. simpl in Hid. congruence.
  - intros [(a & o & Ho & Hid) | ->].
    + exists a, o. split; [by apply lookup_app_l_Some|done].
    + exists (length (objs p)). eexists. by rewrite list_lookup_middle.
Qed.

Lemma taken_base b cb : full b -> full cb ->
  foldl (fun b bp => match cb !! bp with Some v => <[bp := v]> b | None => b end) b (base_props cls) = cb.
Proof.
  intros Hb Hcb. set (f := fun b bp => match cb !! bp with Some v => <[bp := v]> b | None => b end).
  assert (Hgen : forall l b k, foldl f b l !! k = if bool_decide (k ∈ l /\ is_Some (cb !! k)) then cb !! k else b !! k).
  { clear. intros l. induction l as [|x l IH]; intros b k; cbn [foldl].
    { rewrite bool_decide_false; [done|]. intros [Hk _]. by apply elem_of_nil in Hk. }
    rewrite IH. case_bool_decide as H1.
    - rewrite bool_decide_true; [done|]. split; [right|]; tauto.
    - unfold f. destruct (cb !! x) as [v|] eqn:Ex.
      + destruct (decide (x = k)) as [-> | Hne].
        * rewrite lookup_insert_eq, bool_decide_true; [done|]. split; [left|by rewrite Ex].
        * rewrite lookup_insert_ne, bool_decide_false; [done| |done]. rewrite elem_of_cons. naive_solver.
      + rewrite bool_decide_false; [done|]. rewrite elem_of_cons. intros [[-> | Hl] Hs]; [rewrite Ex in Hs; by destruct Hs|tauto]. }
  apply map_eq. intros k. rewrite Hgen. case_bool_decide as Hk; [done|].
  destruct (decide (k ∈ base_props cls)) as [Hin | Hin].
  - destruct (full_lookup cb k Hcb Hin) as [v Hv]. destruct Hk. split; [done|]. by rewrite Hv.
  - assert (Hn : forall m : gmap string value, full m -> m !! k = None).
    { intros m Hm. apply not_elem_of_dom. rewrite Hm. by rewrite elem_of_list_to_set. }
    by rewrite !Hn.
Qed.

Lemma update_from_cache_spec a id ch p o c :
  process_ok p -> objs p !! a = Some o -> o_id o = Some id -> ch !! id = Some c -> copy_ok c ->
  exists p' o', update_from_cache cls a id ch p = Ok p' /\ process_ok p' /\ (forall i, held p' i <-> held p i) /\
    objs p' !! a = Some o' /\ o_id o' = Some id /\ created o' = created o /\
    (forall k, view_obj p' o' k = over (o_dirties o) (view_copy c) k) /\
    (forall k, o_dirties o' !! k = match o_dirties o !! k with
      | Some x => if py_eq x.2 (view_copy c k) then None else Some (view_copy c k, x.2)
      | None => None
      end).
Proof.
  intros Hp Ho Hid Hch Hc. destruct (thaw_ok id c p Hp Hc) as [Hp1 _]. destruct Hc as (Hcf & Hcd & Hcc).
  destruct (p_objs p Hp a o Ho) as [Href Hfull Hdirty Htyped Hcreated].
  unfold update_from_cache. rewrite Ho, Hch. unfold get_cached. rewrite Hch. cbn [fst snd].
  set (p1 := set_local id (thaw id c p).2 (thaw id c p).1) in *. set (o1 := take_over cls c (length (dicts p)) o).
  assert (Hbase : base o1 = c_base c) by (unfold o1, take_over, with_base, with_ref, with_dirties; simpl; by apply taken_base).
  assert (Halen : (a < length (objs p1))%nat) by (apply lookup_lt_Some in Ho; simpl; rewrite length_app; lia).
  set (p2 := Process (<[a := o1]> (objs p1)) (dicts p1) (local p1)).
  assert (Hdict : dicts p2 !! t_ref o1 = Some (c_t c)) by (simpl; by rewrite list_lookup_middle).
  assert (Hdo : dict_of p2 o1 = c_t c) by (unfold dict_of; by rewrite Hdict).
  assert (Hl : list_to_map (map_to_list (o_dirties o)) = o_dirties o) by apply list_to_map_to_list.
  destruct (set_list_spec (map_to_list (o_dirties o)) o1 (c_t c)) as (o' & t' & Hrun & (Hs1 & Hs2 & Hs3) & Hf' & Hv & Hd).
  { apply NoDup_fst_map_to_list. }
  { apply Forall_forall. intros [k x] Hin%elem_of_map_to_list. apply Hdirty. by exists x. }
  { by rewrite Hbase. }
  rewrite <- Hdo in Hrun. unfold reapply. rewrite (reapply_spec a _ p2 o1 o' t'); [|..|done].
  2: { simpl. by rewrite list_lookup_insert_eq. }
  2: { rewrite Hdict. by eexists. }
  2: { apply NoDup_fst_map_to_list. }
  2: { apply Forall_forall. intros [k x] Hin%elem_of_map_to_list. apply Hdirty. by exists x. }
  2: { by rewrite Hbase. }
  cbn [objs dicts local p2]. rewrite list_insert_insert_eq. eexists _, o'. split; [reflexivity|].
  assert (Hsame : forall b x, <[a := o']> (objs p1) !! b = Some x ->
    (b = a /\ x = o') \/ (b <> a /\ objs p1 !! b = Some x)).
  { intros b x Hb. apply list_lookup_insert_Some in Hb as [(-> & <- & _) | [Hne Hx]]; [by left|right; split; [congruence|done]]. }
  assert (Hoid : o_id o' = Some id) by by rewrite Hs1.
  assert (Hdirt : forall k, o_dirties o' !! k = match o_dirties o !! k with
      | Some x => if py_eq x.2 (view_copy c k) then None else Some (view_copy c k, x.2) | None => None end).
  { intros k. rewrite Hd, Hl, Hbase. cbn [o_dirties o1 take_over with_dirties]. rewrite lookup_empty. done. }
  split_and!; [|..|exact (list_lookup_insert_eq (objs p1) a o' Halen)|done|by rewrite Hs3| |exact Hdirt].
  - split; simpl.
    + intros b x [[-> ->] | [_ Hx]]%Hsame.
      * split; simpl; [rewrite length_insert, Hs2; simpl; rewrite length_app; simpl; lia|done|..].
        -- intros k. rewrite Hdirt. destruct (o_dirties o !! k) eqn:Ek; [|by intros []]. intros _. apply Hdirty. by rewrite Ek.
        -- intros k x. rewrite Hdirt. destruct (o_dirties o !! k) as [y|] eqn:Ek; [|done]. destruct (py_eq _ _); [done|].
           intros [= <-]. by apply Htyped in Ek.
        -- intros _. rewrite Hs3. apply Hcreated. by rewrite Hid.
      * destruct (p_objs _ Hp1 b x Hx) as [H1 H2 H3 H4 H5]. split; [simpl; by rewrite length_insert|done..].
    + intros i b Hi. destruct (p_local _ Hp1 i b Hi) as (x & Hx & Hxi). destruct (decide (b = a)) as [-> | Hne].
      * exists o'. rewrite list_lookup_insert_eq by done. split; [done|].
        assert (E : objs p1 !! a = Some o) by (simpl; by apply lookup_app_l_Some). congruence.
      * exists x. by rewrite list_lookup_insert_ne.
  - intros i. trans (held p1 i).
    + unfold held. simpl. assert (E : objs p1 !! a = Some o) by (simpl; by apply lookup_app_l_Some). split.
      * intros (b & x & [[-> ->] | [_ Hx]]%Hsame & Hi); [exists a, o; split; [done|congruence]|eauto].
      * intros (b & x & Hx & Hi). destruct (decide (b = a)) as [-> | Hne].
        -- exists a, o'. rewrite list_lookup_insert_eq by done. split; [done|].
           change (objs p1 !! a = Some x) in Hx. congruence.
        -- exists b, x. by rewrite list_lookup_insert_ne.
    + change (held (thaw id c p).1 i <-> held p i). rewrite held_thaw. split; [|by left]. intros [Hi | ->]; [done|]. by exists a, o.
  - intros k. unfold view_obj, dict_of. cbn [dicts]. rewrite Hs2, list_lookup_insert_eq.
    + cbn [default]. change (default ∅ (Some t')) with t'. rewrite Hv, Hl, Hbase. done.
    + simpl. rewrite length_app. simpl. lia.
Qed.

(** The same whether there is a copy or not. *)
Lemma update_from_cache_any a id ch p o p' :
  process_ok p -> objs p !! a = Some o -> o_id o = Some id -> (forall c, ch !! id = Some c -> copy_ok c) ->
  update_from_cache cls a id ch p = Ok p' ->
  process_ok p' /\ (forall i, held p' i <-> held p i) /\
  exists o', objs p' !! a = Some o' /\ o_id o' = Some id /\ created o' = created o /\ (o_dirties o = ∅ -> o_dirties o' = ∅).
Proof.
  intros Hp Ho Hid Hc Hup. destruct (ch !! id) as [c|] eqn:Ec.
  - destruct (update_from_cache_spec a id ch p o c Hp Ho Hid Ec (Hc c eq_refl)) as (p1 & o1 & Hup1 & Hp1 & Hh & Ho1 & Hid1 & Hcr & _ & Hd).
    rewrite Hup in Hup1. injection Hup1 as <-. split; [done|]. split; [done|]. exists o1. split_and!; [done..|].
    intros He. apply map_eq. intros k. by rewrite Hd, He, lookup_empty.
  - unfold update_from_cache in Hup. rewrite Ho, Ec in Hup. injection Hup as <-. split; [done|]. split; [done|]. by exists o.
Qed.

(** ** What the database holds *)

(** The thing in the rows of an id, as an object would load it. *)
Definition db_copy (tbl : table) (id : Z) : option copy :=
  match t_props tbl !! id with
  | None => None
  | Some b =>
      match res_map (fun _ => db2py) (default ∅ (t_data tbl !! id)) with
      | Ok t => Some (Copy b t ∅ true)
      | Raise _ => None
      end
  end.

Lemma read_row_db_copy tbl id c : read_row cls tbl id = Ok (Some c) -> db_copy tbl id = Some c.
Proof.
  unfold read_row, db_copy. destruct (t_props tbl !! id) as [b|]; [|done]. intros (t & -> & Hf)%res_bind_Ok.
  destruct (forallb _ _); congruence.
Qed.

(** A thing is stored with every column of the base. *)
Definition in_db (tbl : table) (id : Z) (f : string -> value) : Prop :=
  exists row, db_copy tbl id = Some row /\ full (c_base row) /\ forall k, same (view_copy row k) (f k).

Lemma in_db_ext tbl id f g : in_db tbl id f -> (forall k, same (f k) (g k)) -> in_db tbl id g.
Proof. intros (row & Hr & Hf & Hv) Hfg. exists row. split_and!; [done..|]. intros k. by rewrite Hv, Hfg. Qed.

Lemma db_copy_other tbl tbl' id :
  t_props tbl' !! id = t_props tbl !! id -> t_data tbl' !! id = t_data tbl !! id -> db_copy tbl' id = db_copy tbl id.
Proof. intros Hp Hd. unfold db_copy. by rewrite Hp, Hd. Qed.

(** Cells over other cells. *)
Lemma read_cells (data : gmap string value) d t :
  (forall k v, data !! k = Some v -> kept v) ->
  res_map (fun _ => db2py) d = Ok t ->
  exists t', res_map (fun _ => db2py) ((py2db <$> data) ∪ d) = Ok t' /\
    forall k, match data !! k with
      | Some v => exists v', t' !! k = Some v' /\ same v' v
      | None => t' !! k = t !! k
      end.
Proof.
  intros Hkept Hd. destruct (res_map_total (fun _ => db2py) ((py2db <$> data) ∪ d)) as [t' Ht'].
  { intros k x [Hx | [_ Hx]]%lookup_union_Some_raw.
    - rewrite lookup_fmap in Hx. destruct (data !! k) as [v|] eqn:Ek; [|done]. injection Hx as <-.
      destruct (db2py_py2db v) as (v' & Hv' & _); [eauto|]. by exists v'.
    - apply res_map_Ok in Hd. specialize (Hd k). rewrite Hx in Hd. inversion Hd. by eexists. }
  exists t'. split; [done|]. intros k. apply res_map_Ok in Ht'. specialize (Ht' k). rewrite lookup_union, lookup_fmap in Ht'.
  destruct (data !! k) as [v|] eqn:Ek; simpl in Ht'.
  - rewrite union_Some_l in Ht'. inversion Ht' as [? v' Hv'|]. destruct (db2py_py2db v) as (w & Hw & Hs); [eauto|]. exists v'. split; [done|].
    congruence.
  - rewrite (left_id_L None _) in Ht'. apply res_map_Ok in Hd. specialize (Hd k).
    inversion Hd as [x y Hx Hdk Htk|Hdk Htk]; rewrite <- Hdk in Ht'; inversion Ht' as [? y' Hy' E1 E2|E1 E2]; congruence.
Qed.

Lemma set_data_other id id' data tbl : id' <> id -> db_copy (set_data id data tbl) id' = db_copy tbl id'.
Proof. intros Hne. unfold set_data. case_bool_decide; [done|]. apply db_copy_other; simpl; [done|by rewrite lookup_insert_ne]. Qed.

Lemma set_props_other id id' props tbl : id' <> id -> db_copy (set_props id props tbl) id' = db_copy tbl id'.
Proof. intros Hne. unfold set_props. case_bool_decide; [done|]. apply db_copy_other; simpl; [by rewrite lookup_alter_ne|done]. Qed.

Lemma write_changes_other id id' changes brand tbl :
  id' <> id -> db_copy (write_changes id changes brand tbl) id' = db_copy tbl id'.
Proof.
  intros Hne. unfold write_changes. cbv zeta. destruct brand; rewrite ?set_props_other by done; by apply set_data_other.
Qed.

(** Values over others. *)
Definition over_values (m : gmap string value) (f : string -> value) (k : string) : value := default (f k) (m !! k).

Lemma set_data_spec id data tbl f :
  in_db tbl id f -> (forall k v, data !! k = Some v -> py_startswith "_" k = false /\ kept v) ->
  in_db (set_data id data tbl) id (over_values data f).
Proof.
  intros (row & Hrow & Hfull & Hview) Hok. unfold db_copy in Hrow. destruct (t_props tbl !! id) as [b|] eqn:Eb; [|done].
  destruct (res_map _ (default ∅ (t_data tbl !! id))) as [t|] eqn:Et; [|done]. injection Hrow as <-. simpl in Hfull.
  assert (Hkept : forall k v, data !! k = Some v -> kept v) by (intros k v Hk; by apply (Hok k)).
  destruct (read_cells data _ t Hkept Et) as (t' & Ht' & Hcells).
  exists (Copy b t' ∅ true). split; [|split; [done|]].
  - unfold set_data. case_bool_decide as Hd; unfold db_copy; simpl; rewrite Eb.
    + rewrite Hd, fmap_empty, (left_id_L ∅ (∪)) in Ht'. by rewrite Ht'.
    + rewrite lookup_insert_eq. simpl. by rewrite Ht'.
  - intros k. unfold over_values. specialize (Hview k). unfold view_copy, view in *. simpl in *.
    destruct (data !! k) as [v|] eqn:Ek.
    + rewrite (proj1 (Hok k v Ek)). specialize (Hcells k). rewrite Ek in Hcells. destruct Hcells as (v' & Hv' & Hs).
      unfold stored. by rewrite Hv'.
    + simpl. destruct (py_startswith "_" k); [done|]. specialize (Hcells k). rewrite Ek in Hcells. unfold stored in *. by rewrite Hcells.
Qed.

Lemma set_props_spec id props tbl f :
  in_db tbl id f -> (forall k, is_Some (props !! k) -> py_startswith "_" k = true /\ k ∈ base_props cls) ->
  in_db (set_props id props tbl) id (over_values props f).
Proof.
  intros (row & Hrow & Hfull & Hview) Hok. unfold db_copy in Hrow. destruct (t_props tbl !! id) as [b|] eqn:Eb; [|done].
  destruct (res_map _ (default ∅ (t_data tbl !! id))) as [t|] eqn:Et; [|done]. injection Hrow as <-. simpl in Hfull.
  exists (Copy (props ∪ b) t ∅ true). split; [|split].
  - unfold set_props. case_bool_decide as Hd; unfold db_copy; simpl.
    + by rewrite Eb, Et, Hd, (left_id_L ∅ (∪)).
    + by rewrite lookup_alter_eq, Eb; simpl; rewrite Et.
  - simpl. unfold full. rewrite dom_union_L, Hfull. apply subseteq_union_1_L. intros k Hk%elem_of_dom.
    apply elem_of_list_to_set. by apply Hok.
  - intros k. unfold over_values. specialize (Hview k). unfold view_copy, view in *. simpl in *.
    destruct (props !! k) as [v|] eqn:Ek.
    + destruct (Hok k) as [-> _]; [by eexists|]. by rewrite lookup_union, Ek, union_Some_l.
    + simpl. by rewrite lookup_union, Ek, (left_id_L None _).
Qed.

Lemma lookup_part_of private changes k :
  part_of private changes !! k = if bool_decide (py_startswith "_" k = private) then snd <$> changes !! k else None.
Proof.
  unfold part_of. rewrite lookup_fmap, map_lookup_filter. destruct (changes !! k) as [c|]; simpl; [|by destruct (bool_decide _)].
  case_bool_decide as Hd; [by rewrite option_guard_True|by rewrite option_guard_False].
Qed.

Lemma write_changes_spec id changes tbl f :
  in_db tbl id f -> (forall k x, changes !! k = Some x -> attr_ok k /\ typed k x.2) ->
  in_db (write_changes id changes false tbl) id (over changes f).
Proof.
  intros Hdb Hok. unfold write_changes. cbv zeta.
  eapply in_db_ext.
  - apply set_props_spec; [apply set_data_spec; [exact Hdb|]|].
    + intros k v. rewrite lookup_part_of. case_bool_decide as Hd; [|done]. intros (x & Hx & ->)%fmap_Some.
      split; [done|]. by apply (Hok k x).
    + intros k. rewrite lookup_part_of. case_bool_decide as Hd; [|by intros []]. intros (v & (c & Hc & _)%fmap_Some).
      split; [done|]. by apply (Hok k c).
  - intros k. unfold over_values, over. rewrite !lookup_part_of.
    destruct (py_startswith "_" k), (changes !! k); simpl; done.
Qed.

(** ** A commit, with a copy in the cache *)

Lemma list_alter_Some {A} (f : A -> A) i (l : list A) j y :
  alter f i l !! j = Some y <-> (i = j /\ exists x, l !! j = Some x /\ y = f x) \/ (i <> j /\ l !! j = Some y).
Proof.
  destruct (decide (i = j)) as [-> | Hne].
  - rewrite list_lookup_alter_eq. destruct (l !! j); simpl; naive_solver.
  - rewrite list_lookup_alter_ne by done. naive_solver.
Qed.

Lemma clean_ok a p : process_ok p -> process_ok (clean a p).
Proof.
  intros [Ho Hl]. split; simpl.
  - intros b x. rewrite list_alter_Some. intros [(-> & y & Hy & ->) | [Hne Hx]]; [|by eapply Ho].
    destruct (Ho _ _ Hy) as [H1 H2 H3 H4 H5]. split; simpl; [done|done|..]; [| |done]; intros k; rewrite lookup_empty; by intros [].
  - intros id b Hb. destruct (Hl id b Hb) as (x & Hx & Hid). destruct (decide (b = a)) as [-> | Hne].
    + exists (with_dirties ∅ x). by rewrite list_lookup_alter_eq, Hx.
    + exists x. by rewrite list_lookup_alter_ne.
Qed.

Lemma held_clean a p i : held (clean a p) i <-> held p i.
Proof.
  unfold held. simpl. split.
  - intros (b & x & [(-> & y & Hy & ->) | [Hne Hx]]%list_alter_Some & Hid); eauto.
  - intros (b & x & Hx & Hid). destruct (decide (b = a)) as [-> | Hne].
    + exists a, (with_dirties ∅ x). by rewrite list_lookup_alter_eq, Hx.
    + exists b, x. by rewrite list_lookup_alter_ne.
Qed.

(** What [_commit] does before the cache is written: the database and the
    object have the changes over the copy. *)
Lemma commit_db_spec a id ch p o c tbl :
  process_ok p -> objs p !! a = Some o -> o_id o = Some id -> created o = true -> ch !! id = Some c -> copy_ok c ->
  in_db tbl id (view_copy c) ->
  exists p' tbl' changes o', commit_db cls a id ch p tbl = Ok (p', tbl', changes) /\
    process_ok p' /\ (forall i, held p' i <-> held p i) /\
    objs p' !! a = Some o' /\ o_id o' = Some id /\ created o' = true /\ o_dirties o' = ∅ /\
    (forall k, view_obj p' o' k = over (o_dirties o) (view_copy c) k) /\
    in_db tbl' id (view_obj p' o') /\
    ((changes = ∅ /\ tbl' = tbl) \/
     (changes <> ∅ /\ tbl' = write_changes id changes false tbl /\ forall k x, changes !! k = Some x -> typed k x.2)).
Proof.
  intros Hp Ho Hid Hcr Hch Hc Hdb.
  destruct (update_from_cache_spec a id ch p o c Hp Ho Hid Hch Hc) as (p1 & o1 & Hup & Hp1 & Hh1 & Ho1 & Hid1 & Hcr1 & Hv1 & Hd1).
  unfold commit_db. rewrite Hup. cbn [res_bind]. rewrite Ho1.
  assert (Hover : forall k, same (over (o_dirties o1) (view_copy c) k) (view_obj p1 o1 k)).
  { intros k. rewrite Hv1. unfold over. rewrite Hd1. destruct (o_dirties o !! k) as [x|]; [|done].
    destruct (py_eq x.2 (view_copy c k)) eqn:Ex; [|done]. symmetry. by apply py_eq_same. }
  case_bool_decide as Hempty.
  - exists p1, tbl, ∅, o1. split_and!; [done..|by rewrite Hcr1|done|done| |by left].
    eapply in_db_ext; [exact Hdb|]. intros k. rewrite <- Hover. unfold over. by rewrite Hempty, lookup_empty.
  - exists (clean a p1), (write_changes id (o_dirties o1) false tbl), (o_dirties o1), (with_dirties ∅ o1).
    split_and!; [done|by apply clean_ok| |simpl; by rewrite list_lookup_alter_eq, Ho1|done|by rewrite <- Hcr, <- Hcr1|done|exact Hv1| |].
    + intros i. by rewrite held_clean.
    + eapply in_db_ext; [apply write_changes_spec; [exact Hdb|]|exact Hover].
      intros k x Hx. split; [apply (ob_dirty _ _ (p_objs _ Hp1 a o1 Ho1)); by rewrite Hx|by apply (p_objs _ Hp1 a o1 Ho1)].
    + right. split_and!; [done|done|]. apply (p_objs _ Hp1 a o1 Ho1).
Qed.

(** The same whatever the cache has: the changes are those of the object that
    differ from the copy, if there is one. *)
Lemma commit_db_any a id ch p o tbl p' tbl' changes :
  process_ok p -> objs p !! a = Some o -> o_id o = Some id -> (forall c, ch !! id = Some c -> copy_ok c) ->
  commit_db cls a id ch p tbl = Ok (p', tbl', changes) ->
  process_ok p' /\ (forall i, held p' i <-> held p i) /\
  (exists o', objs p' !! a = Some o' /\ o_id o' = Some id /\ created o' = created o /\ o_dirties o' = ∅) /\
  ((changes = ∅ /\ tbl' = tbl) \/
   (changes <> ∅ /\ tbl' = write_changes id changes false tbl /\ forall k, is_Some (changes !! k) -> attr_ok k)).
Proof.
  intros Hp Ho Hid Hc Hcommit. unfold commit_db in Hcommit. apply res_bind_Ok in Hcommit as (p1 & Hup & Hrun).
  destruct (update_from_cache_any a id ch p o p1 Hp Ho Hid Hc Hup) as (Hp1 & Hh & o1 & Ho1 & Hid1 & Hcr & _). rewrite Ho1 in Hrun.
  case_bool_decide as He; injection Hrun as <- <- <-.
  - split; [done|]. split; [done|]. split; [by exists o1|by left].
  - split; [by apply clean_ok|]. split; [intros i; by rewrite held_clean|]. split.
    + exists (with_dirties ∅ o1). simpl. by rewrite list_lookup_alter_eq, Ho1.
    + right. split_and!; [done|done|]. apply (p_objs _ Hp1 a o1 Ho1).
Qed.

(** A new object: its id, its columns, and its changed data. *)
Lemma create_db_spec a p o tbl :
  process_ok p -> objs p !! a = Some o -> o_id o = None -> t_props tbl !! next_id tbl = None -> t_data tbl !! next_id tbl = None ->
  (forall k, py_startswith "_" k = false ->
    same (default (default VNone (th_defaults cls !! k)) (snd <$> o_dirties o !! k)) (view_obj p o k)) ->
  exists p' tbl' o', create_db a p tbl = (p', tbl', next_id tbl) /\ process_ok p' /\
    (forall i, held p' i <-> held p i \/ i = next_id tbl) /\
    objs p' !! a = Some o' /\ o_id o' = Some (next_id tbl) /\ created o' = true /\ o_dirties o' = ∅ /\
    view_obj p' o' = view_obj p o /\ in_db tbl' (next_id tbl) (view_obj p o) /\
    (forall i, i <> next_id tbl -> db_copy tbl' i = db_copy tbl i) /\ next_id tbl' = next_id tbl + 1.
Proof.
  intros Hp Ho Hid Hnp Hnd Hdata. unfold create_db. rewrite Ho. set (id := next_id tbl).
  set (o' := Obj (Some id) (base o) (t_ref o) ∅ true). destruct (p_objs p Hp a o Ho) as [H1 H2 H3 H4 H5].
  assert (Hlen : (a < length (objs p))%nat) by by apply lookup_lt_Some in Ho.
  eexists _, _, o'. split; [reflexivity|]. split_and!; simpl; [..|done|done|done|done| | |]; [..|unfold set_data; by case_bool_decide].
  - split; simpl.
    + intros b x [(-> & <- & _) | [_ Hx]]%list_lookup_insert_Some; [|by eapply p_objs].
      split; simpl; [done|done|..]; [| |done]; intros k; rewrite lookup_empty; by intros [].
    + intros i b Hb. destruct (p_local p Hp i b Hb) as (x & Hx & Hxi). destruct (decide (b = a)) as [-> | Hne]; [congruence|].
      exists x. by rewrite list_lookup_insert_ne.
  - intros i. unfold held. simpl. split.
    + intros (b & x & [(-> & <- & _) | [_ Hx]]%list_lookup_insert_Some & Hi); [right; simpl in Hi; congruence|left; eauto].
    + intros [(b & x & Hx & Hi) | ->].
      * exists b, x. rewrite list_lookup_insert_ne; [done|]. intros ->. congruence.
      * exists a, o'. by rewrite list_lookup_insert_eq.
  - by rewrite list_lookup_insert_eq.
  - set (tbl1 := Table (<[id := base o]> (t_props tbl)) (t_data tbl) (id + 1)).
    assert (Hdb1 : in_db tbl1 id (view (base o) ∅)).
    { exists (Copy (base o) ∅ ∅ true). split; [|done]. unfold db_copy. simpl. rewrite lookup_insert_eq.
      unfold id. rewrite Hnd. reflexivity. }
    eapply in_db_ext; [apply set_data_spec; [exact Hdb1|]|].
    + intros k v. rewrite lookup_part_of. case_bool_decide; [|done]. intros (x & Hx & ->)%fmap_Some.
      split; [done|]. by apply (H4 k x).
    + intros k. unfold over_values. rewrite lookup_part_of. specialize (Hdata k). unfold view_obj, view in *.
      destruct (py_startswith "_" k); simpl; [done|]. specialize (Hdata eq_refl). etrans; [|exact Hdata].
      destruct (o_dirties o !! k); simpl; [done|]. unfold stored. rewrite lookup_empty. by destruct (th_defaults cls !! k).
  - intros i Hi. rewrite set_data_other by done. apply db_copy_other; simpl; [by rewrite lookup_insert_ne|done].
Qed.

(** ** The other operations on well-formed processes *)

Lemma on_obj_gen a f p o o' t' :
  process_ok p -> objs p !! a = Some o -> f (o, dict_of p o) = Ok (o', t') -> same_object o o' -> full (base o') ->
  (forall k x, o_dirties o' !! k = Some x -> attr_ok k /\ typed k x.2) ->
  exists p', on_obj a f p = Ok p' /\ process_ok p' /\ (forall i, held p' i <-> held p i) /\
    objs p' !! a = Some o' /\ view_obj p' o' = view (base o') t'.
Proof.
  intros Hp Ho Hf (Hid & Href & Hcr) Hfull Hd. destruct (p_objs p Hp a o Ho) as [H1 H2 H3 H4 H5].
  assert (Hlen : (a < length (objs p))%nat) by by apply lookup_lt_Some in Ho.
  unfold on_obj. rewrite Ho, Hf. cbn [res_bind fst snd]. eexists. split; [reflexivity|]. split_and!.
  - split; simpl.
    + intros b x [(-> & <- & _) | [_ Hx]]%list_lookup_insert_Some.
      * split; [by rewrite length_insert, Href|done|..|by rewrite Hid, Hcr].
        -- intros k [x Hx]. by eapply Hd.
        -- intros k x Hx. by eapply Hd.
      * destruct (p_objs p Hp b x Hx) as [G1 G2 G3 G4 G5]. split; [by rewrite length_insert|done..].
    + intros i b Hb. destruct (p_local p Hp i b Hb) as (x & Hx & Hxi). destruct (decide (b = a)) as [Hba | Hne]; [subst b|].
      * exists o'. rewrite list_lookup_insert_eq by done. split; [done|]. congruence.
      * exists x. by rewrite list_lookup_insert_ne.
  - intros i. unfold held. simpl. split.
    + intros (b & x & [(-> & <- & _) | [_ Hx]]%list_lookup_insert_Some & Hi); [exists b, o; split; [done|congruence]|eauto].
    + intros (b & x & Hx & Hi). destruct (decide (b = a)) as [-> | Hne].
      * exists a, o'. rewrite list_lookup_insert_eq by done. split; [done|congruence].
      * exists b, x. by rewrite list_lookup_insert_ne.
  - simpl. by rewrite list_lookup_insert_eq.
  - unfold view_obj, dict_of. cbn [dicts]. by rewrite list_lookup_insert_eq by (by rewrite Href).
Qed.

Lemma setattr_dirty attr v o o' k x :
  attr_ok attr -> typed attr v -> (forall k x, o_dirties o !! k = Some x -> attr_ok k /\ typed k x.2) ->
  (o_dirties o' = o_dirties o \/ exists old, o_dirties o' = <[attr := (old, v)]> (o_dirties o)) ->
  o_dirties o' !! k = Some x -> attr_ok k /\ typed k x.2.
Proof.
  intros Ha Hty Hd [-> | [old ->]]; [apply Hd|]. rewrite lookup_insert_Some. intros [[<- <-] | [_ Hk]]; [done|by apply Hd].
Qed.

Lemma on_obj_ok a attr v p p' :
  process_ok p -> attr_ok attr -> typed attr v -> on_obj a (setattr cls attr v true) p = Ok p' ->
  process_ok p' /\ (forall i, held p' i <-> held p i).
Proof.
  intros Hp Ha Hty Hset. destruct (objs p !! a) as [o|] eqn:Ho; [|unfold on_obj in Hset; rewrite Ho in Hset; by simplify_eq].
  destruct (p_objs p Hp a o Ho) as [H1 H2 H3 H4 H5].
  destruct (setattr_spec attr v o (dict_of p o) Ha H2) as (o' & t' & Hs & Hsame & Hf & _ & Hd).
  destruct (on_obj_gen a _ p o o' t' Hp Ho Hs Hsame Hf) as (p1 & Hp1 & Hok & Hh & _).
  - intros k x. apply (setattr_dirty attr v o o' k x Ha Hty); [intros i y Hi; split; [apply H3|]; eauto|].
    rewrite Hd. destruct (py_eq _ _); eauto.
  - rewrite Hset in Hp1. by injection Hp1 as <-.
Qed.

(** Setting an attribute that does not count as a change. *)
Lemma setattr_quiet attr v o t :
  attr_ok attr -> full (base o) ->
  exists o' t', setattr cls attr v false (o, t) = Ok (o', t') /\ same_object o o' /\ full (base o') /\
    (forall k, view (base o') t' k = if decide (k = attr) then v else view (base o) t k) /\ o_dirties o' = o_dirties o.
Proof.
  intros Ha Hf. unfold setattr. cbv zeta. destruct (py_startswith "_" attr) eqn:Ep.
  - rewrite bool_decide_false by (intros Hn; by apply Hn, Ha). do 2 eexists. split; [reflexivity|]. split; [done|].
    split; [apply full_insert; [done|by apply Ha]|]. split; [|done]. intros k. unfold view. simpl.
    case_decide as Hd; [subst; by rewrite Ep, lookup_insert_eq|]. by rewrite lookup_insert_ne.
  - do 2 eexists. split; [reflexivity|]. split; [done|]. split; [done|]. split; [|done]. intros k. unfold view, stored. simpl.
    case_decide as Hd; [subst; by rewrite Ep, lookup_insert_eq|]. by rewrite lookup_insert_ne.
Qed.

Lemma write_cache_ok a id p o : process_ok p -> objs p !! a = Some o -> o_id o = Some id -> process_ok (set_local id a p).
Proof.
  intros [Ho Hl] Ha Hid. split; simpl; [done|]. intros i b. rewrite lookup_insert_Some.
  intros [[<- <-] | [_ Hb]]; [by exists o|by apply Hl].
Qed.

Lemma freeze_ok p o : process_ok p -> (exists a, objs p !! a = Some o) -> o_dirties o = ∅ -> created o = true -> copy_ok (freeze p o).
Proof. intros Hp [a Ha] Hd Hc. split; [|done]. apply (p_objs p Hp a o Ha). Qed.

Lemma get_cached_ok allow_local ch id p p' r :
  process_ok p -> (forall c, ch !! id = Some c -> copy_ok c) -> get_cached allow_local ch id p = (p', r) ->
  process_ok p' /\ (forall i, held p' i -> held p i \/ is_Some (ch !! i)).
Proof.
  intros Hp Hc Hget. unfold get_cached in Hget. destruct (if allow_local then _ else _) as [a|]; [simplify_eq; auto|].
  destruct (ch !! id) as [c|] eqn:Ec; [|simplify_eq; auto]. injection Hget as <- _. split.
  - by apply (thaw_ok id c p Hp (Hc c eq_refl)).
  - intros i Hi. change (held (thaw id c p).1 i) in Hi. apply held_thaw in Hi as [Hi | ->]; [by left|right; by eexists].
Qed.

Lemma add_things_ok l p ch p' ch' found :
  process_ok p -> (forall id c, (id, c) ∈ l -> copy_ok c) -> add_things l (p, ch) = (p', ch', found) ->
  process_ok p' /\ (forall i, held p' i -> held p i \/ exists c, (i, c) ∈ l) /\
  (forall i c, ch !! i = Some c -> ch' !! i = Some c) /\
  (forall i c, ch' !! i = Some c -> ch !! i = Some c \/ (i, c) ∈ l) /\
  (forall i c, (i, c) ∈ l -> is_Some (ch' !! i)).
Proof.
  unfold add_things. cbn [fst snd]. generalize (∅ : gmap Z nat). revert p ch.
  induction l as [|[id c] l IH]; intros p ch m Hp Hok Hadd.
  { simpl in Hadd. simplify_eq. split_and!; [done|by left|done|by left|]. intros i c Hin. by apply elem_of_nil in Hin. }
  cbn [foldl fst snd] in Hadd.
  destruct (thaw_ok id c p Hp) as [Hp1 Hp2]; [apply (Hok id); by left|].
  set (p1 := match local (thaw id c p).1 !! id with Some _ => _ | None => _ end) in Hadd.
  set (ch1 := match ch !! id with Some _ => ch | None => <[id := c]> ch end) in Hadd.
  assert (Hp3 : process_ok p1) by (unfold p1; destruct (local _ !! id); done).
  assert (Hh : forall i, held p1 i <-> held p i \/ i = id).
  { intros i. rewrite <- (held_thaw id c p i). unfold p1. by destruct (local _ !! id). }
  assert (Hok' : forall i c', (i, c') ∈ l -> copy_ok c') by (intros i c' Hin; apply (Hok i); by right).
  destruct (IH _ _ _ Hp3 Hok' Hadd) as (G1 & G2 & G3 & G4 & G5).
  assert (Hch1 : forall i c', ch !! i = Some c' -> ch1 !! i = Some c').
  { intros i c' Hi. unfold ch1. destruct (ch !! id) eqn:E; [done|]. rewrite lookup_insert_ne; [done|]. congruence. }
  split; [done|]. split; [|split; [|split]].
  - intros i [Hi | (c' & Hc')]%G2; [|right; exists c'; by right]. apply Hh in Hi as [Hi | ->]; [by left|right; exists c; by left].
  - intros i c' Hi. by apply G3, Hch1.
  - intros i c' [Hi | Hi]%G4; [|right; by right]. unfold ch1 in Hi. destruct (ch !! id) eqn:E; [by left|].
    apply lookup_insert_Some in Hi as [[-> ->] | [_ Hi]]; [right; by left|by left].
  - intros i c' [[= -> ->] | Hin]%elem_of_cons; [|by eapply G5].
    assert (Hs : is_Some (ch1 !! id)) by (unfold ch1; destruct (ch !! id) eqn:E; [by rewrite E|by rewrite lookup_insert_eq]).
    destruct Hs as [c2 Hc2]. exists c2. by apply G3.
Qed.
End thing.
End ThingProps.
