(* ===== verification/ThingCounters.v ===== *)
(** * New things and counters

    Attributes that are counters hold integers throughout; what [_incr] does
    to the database, the object and the cache; and what an object that is not
    stored yet shows and has changed. *)

From S2P Require Import Prelude Tdb TdbProps Thing ThingProps.

Module ThingCounters.
Import Tdb TdbProps Thing ThingProps.

Section counters.
Context `{C : Codecs} `{!CodecLaws C} `{N : Numbers} `{!NumberLaws C N} (cls : class).

(** Base attributes are private, data counters are not, and the defaults of
    counters are integers. *)
Class ClassOk := {
  base_private k : k ∈ base_props cls -> py_startswith "_" k = true;
  ints_base k : k ∈ base_ints cls -> k ∈ base_props cls;
  data_not_base k : is_data_int cls k = true -> k ∉ base_props cls;
  defaults_typed k v : th_defaults cls !! k = Some v -> typed cls k v
}.
Context {CO : ClassOk}.

(** A view of counters. *)
Definition tview (f : string -> value) : Prop := forall k, int_prop cls k -> f k = VNone \/ exists n, f k = VInt n.

(** The numbers SQL adds exactly. *)
Definition fits (n : Z) : Prop := Z.abs n < 10 ^ 15.

Definition incremented (prop : string) (amt : Z) (f : string -> value) (k : string) : value :=
  if String.eqb k prop then match f k with VInt n => VInt (n + amt) | v => v end else f k.

Lemma incremented_tview prop amt f : tview f -> tview (incremented prop amt f).
Proof.
  intros Hf k Hk. unfold incremented. destruct (Hf k Hk) as [-> | [n ->]]; destruct (String.eqb k prop); eauto.
Qed.

Lemma over_tview m f : tview f -> (forall k x, m !! k = Some x -> typed cls k x.2) -> tview (over m f).
Proof.
  intros Hf Hm k Hk. unfold over. destruct (m !! k) as [x|] eqn:Ex; [|by apply Hf]. right. by apply (Hm k x Ex).
Qed.

(** ** Typed rows *)

Definition row_typed (tbl : table) (id : Z) : Prop :=
  (forall b k v, t_props tbl !! id = Some b -> b !! k = Some v -> typed cls k v) /\
  (forall d k c, t_data tbl !! id = Some d -> d !! k = Some c -> is_data_int cls k = true ->
    exists s n, c = Cell (Some s) "num" /\ py_int_str s = Some n).

Lemma db2py_num s n : py_int_str s = Some n -> db2py (Cell (Some s) "num") = Ok (VInt n).
Proof. intros Hs. unfold db2py. simpl. by rewrite Hs. Qed.

Lemma db_copy_tview tbl id c :
  row_typed tbl id -> db_copy tbl id = Some c -> full cls (c_base c) -> tview (view_copy cls c).
Proof.
  intros [Hb Hd] Hc Hfull k Hk. unfold db_copy in Hc. destruct (t_props tbl !! id) as [b|] eqn:Eb; [|done].
  destruct (res_map _ _) as [t|] eqn:Et; [|done]. injection Hc as <-. unfold view_copy, view. simpl in *.
  destruct (py_startswith "_" k) eqn:Ep.
  - destruct (b !! k) as [v|] eqn:Ev; [|by left]. right. by apply (Hb b k v eq_refl Ev).
  - unfold stored. destruct (t !! k) as [v|] eqn:Ev.
    + right. apply res_map_Ok in Et. specialize (Et k). rewrite Ev in Et. inversion Et as [c ? Hc Hl|]; subst.
      destruct Hk as [Hk | Hk]; [apply ints_base, base_private in Hk; congruence|].
      destruct (t_data tbl !! id) as [d|] eqn:Ed; [|simpl in Hl; by rewrite lookup_empty in Hl]. simpl in Hl.
      destruct (Hd d k c eq_refl (eq_sym Hl) Hk) as (s & n & -> & Hs). rewrite (db2py_num s n Hs) in Hc. exists n. by injection Hc as <-.
    + destruct (th_defaults cls !! k) as [v|] eqn:Ev'; [|by left]. right. by apply (defaults_typed k v Ev').
Qed.

Lemma set_data_typed id i data tbl :
  row_typed tbl i -> (forall k v, data !! k = Some v -> typed cls k v) -> row_typed (set_data id data tbl) i.
Proof.
  intros [Hb Hd] Hty. unfold set_data. case_bool_decide; [done|]. split; simpl; [done|].
  intros d k c Hi Hc Hk. apply lookup_insert_Some in Hi as [[<- <-] | [_ Hi]]; [|by eapply Hd].
  rewrite lookup_union_Some_raw, lookup_fmap in Hc. destruct Hc as [Hc | [_ Hc]].
  - destruct (data !! k) as [v|] eqn:Ev; [|done]. injection Hc as <-. destruct (Hty k v Ev) as [_ [n ->]]; [by right|].
    do 2 eexists. split; [done|]. apply py_int_str_int.
  - destruct (t_data tbl !! id) as [d|] eqn:Ed; [by eapply Hd|]. simpl in Hc. by rewrite lookup_empty in Hc.
Qed.

Lemma set_props_typed id i props tbl :
  row_typed tbl i -> (forall k v, props !! k = Some v -> typed cls k v) -> row_typed (set_props id props tbl) i.
Proof.
  intros [Hb Hd] Hty. unfold set_props. case_bool_decide; [done|]. split; simpl; [|done].
  intros b k v Hi Hv. destruct (decide (i = id)) as [-> | Hne].
  - rewrite lookup_alter_eq in Hi. destruct (t_props tbl !! id) as [b'|] eqn:Eb; [|done]. injection Hi as <-.
    apply lookup_union_Some_raw in Hv as [Hv | [_ Hv]]; [by apply Hty|by eapply Hb].
  - rewrite lookup_alter_ne in Hi by done. by eapply Hb.
Qed.

Lemma part_of_typed private changes :
  (forall k x, changes !! k = Some x -> typed cls k x.2) -> forall k v, part_of private changes !! k = Some v -> typed cls k v.
Proof.
  intros Hty k v. rewrite lookup_part_of. case_bool_decide; [|done]. intros (x & Hx & ->)%fmap_Some. by apply Hty.
Qed.

Lemma write_changes_typed id i changes brand tbl :
  row_typed tbl i -> (forall k x, changes !! k = Some x -> typed cls k x.2) -> row_typed (write_changes id changes brand tbl) i.
Proof.
  intros Ht Hty. unfold write_changes. cbv zeta.
  assert (row_typed (set_data id (part_of false changes) tbl) i) by (apply set_data_typed; [done|by apply part_of_typed]).
  destruct brand; [done|]. apply set_props_typed; [done|by apply part_of_typed].
Qed.

(** ** Increments of a row *)

Definition other_rows (id : Z) (tbl tbl' : table) : Prop :=
  next_id tbl' = next_id tbl /\ forall i, i <> id -> t_props tbl' !! i = t_props tbl !! i /\ t_data tbl' !! i = t_data tbl !! i.

Lemma in_db_lookup tbl id f k :
  in_db cls tbl id f -> exists b t, t_props tbl !! id = Some b /\ full cls b /\
    res_map (fun _ => db2py) (default ∅ (t_data tbl !! id)) = Ok t /\ same (view cls b t k) (f k).
Proof.
  intros (row & Hrow & Hfull & Hv). unfold db_copy in Hrow. destruct (t_props tbl !! id) as [b|] eqn:Eb; [|done].
  destruct (res_map _ _) as [t|] eqn:Et; [|done]. injection Hrow as <-. exists b, t. split_and!; [done..|]. apply Hv.
Qed.

(** A row that holds the new value for one attribute and the others as
    before. *)
Lemma in_db_one prop amt n tbl f : f prop = VInt n ->
  forall id, in_db cls tbl id (over_values {[ prop := VInt (n + amt) ]} f) -> in_db cls tbl id (incremented prop amt f).
Proof.
  intros Hf id Hdb. eapply in_db_ext; [exact Hdb|]. intros k. unfold over_values, incremented.
  destruct (String.eqb_spec k prop) as [-> | Hne]; [by rewrite lookup_singleton_eq, Hf|].
  by rewrite lookup_singleton_ne by congruence.
Qed.

Lemma set_props_one id prop v tbl b :
  t_props tbl !! id = Some b ->
  set_props id {[ prop := v ]} tbl = Table (<[id := <[prop := v]> b]> (t_props tbl)) (t_data tbl) (next_id tbl).
Proof.
  intros Hb. unfold set_props. rewrite bool_decide_false by apply map_non_empty_singleton. f_equal.
  apply map_eq. intros i. destruct (decide (i = id)) as [-> | Hne].
  - by rewrite lookup_alter_eq, lookup_insert_eq, Hb, insert_union_singleton_l.
  - by rewrite lookup_alter_ne, lookup_insert_ne.
Qed.

Lemma set_data_one id prop v tbl :
  set_data id {[ prop := v ]} tbl =
    Table (t_props tbl) (<[id := <[prop := py2db v]> (default ∅ (t_data tbl !! id))]> (t_data tbl)) (next_id tbl).
Proof.
  unfold set_data. rewrite bool_decide_false by apply map_non_empty_singleton.
  by rewrite map_fmap_singleton, <- insert_union_singleton_l.
Qed.

Lemma singleton_typed prop n : forall k v, ({[ prop := VInt n ]} : gmap string value) !! k = Some v -> typed cls k v.
Proof. intros k v [<- <-]%lookup_singleton_Some. split; [done|]. intros _. by eexists. Qed.

Lemma set_data_rows id data tbl : other_rows id tbl (set_data id data tbl).
Proof. unfold set_data. case_bool_decide; split; simpl; try done. intros i Hi. by rewrite lookup_insert_ne. Qed.

Lemma set_props_rows id props tbl : other_rows id tbl (set_props id props tbl).
Proof. unfold set_props. case_bool_decide; split; simpl; try done. intros i Hi. by rewrite lookup_alter_ne. Qed.

Lemma write_changes_rows id changes brand tbl : other_rows id tbl (write_changes id changes brand tbl).
Proof.
  unfold write_changes. cbv zeta. pose proof (set_data_rows id (part_of false changes) tbl) as [H1 H2]. destruct brand; [done|].
  destruct (set_props_rows id (part_of true changes) (set_data id (part_of false changes) tbl)) as [G1 G2].
  split; [congruence|]. intros i Hi. destruct (H2 i Hi), (G2 i Hi). split; congruence.
Qed.

(** Every row has every column. *)
Definition rows_full (tbl : table) : Prop := forall id b, t_props tbl !! id = Some b -> full cls b.

Lemma write_changes_full id changes brand tbl :
  rows_full tbl -> (forall k, is_Some (changes !! k) -> attr_ok cls k) -> rows_full (write_changes id changes brand tbl).
Proof.
  intros Hf Hok. unfold write_changes. cbv zeta.
  assert (H1 : rows_full (set_data id (part_of false changes) tbl)) by (unfold set_data; by case_bool_decide).
  destruct brand; [done|]. unfold set_props. case_bool_decide; [done|]. intros i b Hi. simpl in Hi.
  destruct (decide (i = id)) as [-> | Hne]; [|rewrite lookup_alter_ne in Hi by done; by eapply H1].
  rewrite lookup_alter_eq in Hi. destruct (t_props _ !! id) as [b0|] eqn:E0; [|done]. injection Hi as <-.
  unfold full. rewrite dom_union_L, (H1 id b0 E0). apply subseteq_union_1_L. intros k [v Hk]%elem_of_dom.
  rewrite lookup_part_of in Hk. case_bool_decide as Ep; [|done]. apply elem_of_list_to_set, Hok; [|done].
  destruct (changes !! k); [by eexists|done].
Qed.

(** What is done to the rows of one thing. *)
Definition row_update (id : Z) (tbl tbl' : table) : Prop :=
  other_rows id tbl tbl' /\ (rows_full tbl -> rows_full tbl') /\ (t_props tbl' !! id = None <-> t_props tbl !! id = None).

Lemma row_update_refl id tbl : row_update id tbl tbl.
Proof. by split_and!. Qed.

Lemma write_changes_update id changes tbl :
  (forall k, is_Some (changes !! k) -> attr_ok cls k) -> row_update id tbl (write_changes id changes false tbl).
Proof.
  intros Hok. split; [apply write_changes_rows|]. split; [intros Hf; by apply write_changes_full|].
  unfold write_changes, set_props, set_data. cbv zeta.
  repeat case_bool_decide; simpl; rewrite ?lookup_alter_eq; by destruct (t_props tbl !! id).
Qed.

Lemma incr_row_update id prop old new amt tbl tbl' : incr_row cls id prop old new amt tbl = Ok tbl' -> row_update id tbl tbl'.
Proof.
  unfold incr_row. case_bool_decide.
  - destruct (t_props tbl !! id) as [b|] eqn:Eb; [|intros [= <-]; apply row_update_refl].
    destruct (b !! prop) as [v|] eqn:Ev; [|intros [= <-]; apply row_update_refl].
    intros (w & _ & [= <-])%res_bind_Ok. split; [split; [done|intros i Hi; simpl; by rewrite lookup_insert_ne]|]. split.
    + intros Hf i b' Hi. cbn [t_props] in Hi. apply lookup_insert_Some in Hi as [[<- <-] | [_ Hi]]; [|by eapply Hf]. unfold full. rewrite <- (Hf id b Eb).
      apply dom_insert_lookup_L. by eexists.
    + simpl. by rewrite lookup_insert_eq, Eb.
  - case_match.
    + intros [= <-]. split; [split; [done|intros i Hi; simpl; by rewrite lookup_insert_ne]|done].
    + destruct (t_data tbl !! id ≫= lookup prop) as [c|]; [|intros [= <-]; apply row_update_refl].
      intros (w & _ & [= <-])%res_bind_Ok. split; [split; [done|intros i Hi; simpl; by rewrite lookup_alter_ne]|done].
Qed.

Lemma res_map_insert {A B} (f : string -> A -> res B) m t k x y :
  res_map f m = Ok t -> f k x = Ok y -> res_map f (<[k := x]> m) = Ok (<[k := y]> t).
Proof.
  rewrite !res_map_Ok. intros Hm Hx i. specialize (Hm i). destruct (decide (k = i)) as [<- | Hne].
  - rewrite !lookup_insert_eq. by constructor.
  - by rewrite !lookup_insert_ne.
Qed.

Lemma number_typed k v n : typed cls k v -> int_prop cls k -> same v (VInt n) -> v = VInt n.
Proof. intros [_ Hty] Hk Hs. destruct (Hty Hk) as [m ->]. apply same_int in Hs. simpl in Hs. congruence. Qed.

Lemma incr_row_spec id prop amt n tbl tbl' f :
  in_db cls tbl id f -> f prop = VInt n -> row_typed tbl id -> attr_ok cls prop -> int_prop cls prop -> fits n -> fits (n + amt) ->
  incr_row cls id prop (VInt n) (VInt (n + amt)) amt tbl = Ok tbl' ->
  in_db cls tbl' id (incremented prop amt f) /\ row_typed tbl' id /\ other_rows id tbl tbl'.
Proof.
  intros Hdb Hf Hty Hok Hint Hn Hn' Hrow. destruct (in_db_lookup tbl id f prop Hdb) as (b & t & Hb & Hfull & Ht & Hs).
  rewrite Hf in Hs. unfold incr_row in Hrow. case_bool_decide as Hbase.
  - rewrite Hb in Hrow. destruct (full_lookup cls b prop Hfull (ints_base _ Hbase)) as [v Hv]. rewrite Hv in Hrow.
    assert (v = VInt n) as ->.
    { apply (number_typed prop); [by eapply Hty|done|]. unfold view in Hs. by rewrite base_private, Hv in Hs by by apply ints_base. }
    simpl in Hrow. injection Hrow as <-. rewrite <- (set_props_one id prop (VInt (n + amt)) tbl b Hb). split; [|split].
    + apply (in_db_one prop amt n); [done|]. apply set_props_spec; [done|].
      intros k [v [<- <-]%lookup_singleton_Some]. split; [by apply base_private, ints_base|by apply ints_base].
    + apply set_props_typed; [done|]. apply singleton_typed.
    + apply set_props_rows.
  - destruct Hint as [Hint | Hint]; [done|].
    assert (Hpub : py_startswith "_" prop = false).
    { destruct (py_startswith "_" prop) eqn:Ep; [|done]. by apply data_not_base in Hint; apply Hok in Ep. }
    unfold view in Hs. rewrite Hpub in Hs. unfold stored in Hs.
    destruct (match th_defaults cls !! prop with Some d => py_eq d (VInt n) | None => false end) eqn:Edef.
    + assert (tbl' = set_data id {[ prop := VInt (n + amt) ]} tbl) as -> by (rewrite set_data_one; congruence). split; [|split].
      * apply (in_db_one prop amt n); [done|]. apply set_data_spec; [done|]. by intros k v [<- <-]%lookup_singleton_Some.
      * apply set_data_typed; [done|]. apply singleton_typed.
      * apply set_data_rows.
    + assert (Hcell : exists v, t !! prop = Some v /\ same v (VInt n)).
      { destruct (t !! prop) as [v|]; [by exists v|]. exfalso. destruct (th_defaults cls !! prop) as [d|] eqn:Ed; simpl in Hs.
        - rewrite (number_typed prop d n) in Edef; [by unfold py_eq in Edef; rewrite bool_decide_true in Edef|by apply defaults_typed|by right|done].
        - apply same_int in Hs. done. }
      destruct Hcell as (v & Hv & Hvs). apply res_map_Ok in Ht as Hcells. specialize (Hcells prop). rewrite Hv in Hcells.
      destruct (t_data tbl !! id) as [d|] eqn:Ed; simpl in Hcells, Ht; [|rewrite lookup_empty in Hcells; inversion Hcells].
      simpl in Hrow. destruct (d !! prop) as [c|] eqn:Ec; inversion Hcells as [? ? Hdec|]; subst.
      destruct Hty as [Hty1 Hty2]. destruct (Hty2 d prop c Ed Ec Hint) as (s & m & -> & Hm).
      rewrite (db2py_num s m Hm) in Hdec. injection Hdec as <-. apply same_int in Hvs. injection Hvs as ->.
      destruct (sql_int s n amt Hm Hn Hn') as (s' & Hs' & Hint'). simpl in Hrow. rewrite Hs' in Hrow. simpl in Hrow.
      injection Hrow as <-.
      assert (Hd' : alter (<[prop := Cell (Some s') "num"]>) id (t_data tbl) !! id = Some (<[prop := Cell (Some s') "num"]> d))
        by by rewrite lookup_alter_eq, Ed.
      split; [|split].
      * destruct Hdb as (row & Hrow & Hrf & Hrv). unfold db_copy in Hrow. rewrite Hb, Ed in Hrow. simpl in Hrow.
        rewrite Ht in Hrow. injection Hrow as <-. exists (Copy b (<[prop := VInt (n + amt)]> t) ∅ true). split; [|split; [done|]].
        -- unfold db_copy. cbn [t_props t_data]. rewrite Hb, Hd'. simpl.
           rewrite (res_map_insert _ d t prop _ (VInt (n + amt)) Ht (db2py_num s' _ Hint')). done.
        -- intros k. specialize (Hrv k). unfold view_copy, view, incremented in *. simpl in *.
           destruct (String.eqb_spec k prop) as [-> | Hne].
           ++ rewrite Hpub, Hf. unfold stored. by rewrite lookup_insert_eq.
           ++ unfold stored. by rewrite lookup_insert_ne.
      * split; simpl; [done|]. intros d' k c Hi Hc Hk. rewrite Hd' in Hi. injection Hi as <-.
        apply lookup_insert_Some in Hc as [[<- <-] | [_ Hc]]; [eauto|by eapply Hty2].
      * split; simpl; [done|]. intros i Hi. by rewrite lookup_alter_ne.
Qed.

(** ** Increments *)

Lemma py_add_int v amt w : (v = VNone \/ exists n, v = VInt n) -> py_add v amt = Ok w -> exists n, v = VInt n /\ w = VInt (n + amt).
Proof. intros [-> | [n ->]]; simpl; [done|]. intros [= <-]. by exists n. Qed.

Lemma incr_spec (cache_ok : bool) a id prop amt p o ch c tbl p' ch' tbl' r :
  process_ok cls p -> objs p !! a = Some o -> o_id o = Some id -> ch !! id = Some c -> copy_ok cls c ->
  in_db cls tbl id (view_copy cls c) -> tview (view_copy cls c) -> row_typed tbl id -> attr_ok cls prop ->
  (forall n, view_copy cls c prop = VInt n -> fits n /\ fits (n + amt)) ->
  incr cls cache_ok a prop amt p ch tbl = (p', ch', tbl', r) ->
  process_ok cls p' /\ (forall i, held p' i <-> held p i) /\
  match r with
  | Ok _ => int_prop cls prop /\ exists o', objs p' !! a = Some o' /\ o_id o' = Some id /\ ch' = <[id := freeze p' o']> ch /\
      copy_ok cls (freeze p' o') /\
      (forall k, view_obj cls p' o' k = incremented prop amt (view_copy cls c) k) /\
      in_db cls tbl' id (incremented prop amt (view_copy cls c)) /\ row_typed tbl' id /\ other_rows id tbl tbl'
  | Raise _ => ch' = ch /\ tbl' = tbl
  end.
Proof.
  intros Hp Ho Hid Hch Hc Hdb Htv Htbl Hok Hfits Hincr. unfold incr in Hincr. rewrite Ho in Hincr.
  assert (Hnothing : (p, ch, tbl) = (p', ch', tbl') -> process_ok cls p' /\ (forall i, held p' i <-> held p i) /\ ch' = ch /\ tbl' = tbl)
    by (intros [= <- <- <-]; done).
  destruct (negb _ || negb _) eqn:Eg.
  { injection Hincr as <- <- <- <-. by apply Hnothing. }
  apply orb_false_iff in Eg as [Ed%negb_false_iff%bool_decide_eq_true Ei%negb_false_iff%orb_true_iff].
  assert (Hint : int_prop cls prop) by (destruct Ei as [Ei%bool_decide_eq_true | Ei]; [by left|by right]).
  rewrite Hid in Hincr.
  destruct (update_from_cache_spec cls a id ch p o c Hp Ho Hid Hch Hc) as (p1 & o1 & Hup & Hp1 & Hh1 & Ho1 & Hid1 & Hcr1 & Hv1 & Hd1).
  rewrite Hup in Hincr. cbn [res_bind] in Hincr. rewrite Ho1 in Hincr.
  assert (Hclean : o_dirties o1 = ∅) by (apply map_eq; intros k; by rewrite Hd1, Ed, lookup_empty).
  assert (Hview1 : forall k, view_obj cls p1 o1 k = view_copy cls c k) by (intros k; by rewrite Hv1, Ed; unfold over; rewrite lookup_empty).
  assert (Hcreated : created o1 = true) by (rewrite Hcr1; apply (p_objs cls p Hp a o Ho); by rewrite Hid).
  pose proof (ob_full cls _ _ (p_objs cls p1 Hp1 a o1 Ho1)) as Hfull1.
  destruct (getattr cls prop (o1, dict_of p1 o1)) as [old|e] eqn:Eold; cbn [res_bind] in Hincr;
    [|injection Hincr as <- <- <- <-; by apply Hnothing].
  pose proof (view_getattr cls prop o1 _ old Eold Hfull1 Hok base_private) as Hold.
  change (view cls (base o1) (dict_of p1 o1) prop) with (view_obj cls p1 o1 prop) in Hold. rewrite Hview1 in Hold.
  destruct (py_add old amt) as [new|e] eqn:Enew; cbn [res_bind] in Hincr; [|injection Hincr as <- <- <- <-; by apply Hnothing].
  destruct (py_add_int old amt new) as (n & -> & ->); [rewrite <- Hold; by apply Htv|done|]. destruct (Hfits n Hold) as [Hn Hn'].
  destruct (setattr_quiet cls prop (VInt (n + amt)) o1 (dict_of p1 o1) Hok Hfull1) as (o2 & t2 & Hset & Hs2 & Hf2 & Hv2 & Hd2).
  destruct (on_obj_gen cls a _ p1 o1 o2 t2 Hp1 Ho1 Hset Hs2 Hf2) as (p2 & Hon & Hp2 & Hh2 & Ho2 & Hv2').
  { intros k x. by rewrite Hd2, Hclean, lookup_empty. }
  rewrite Hon in Hincr. cbn [res_bind] in Hincr. destruct Hs2 as (Hid2 & _ & Hcr2).
  assert (Hh : forall i, held p2 i <-> held p i) by (intros i; by rewrite Hh2, Hh1).
  destruct (incr_row _ _ _ _ _ _ _) as [tbl2|e] eqn:Erow; cbn [res_bind] in Hincr;
    [|injection Hincr as <- <- <- <-; by apply Hnothing].
  destruct (incr_row_spec id prop amt n tbl tbl2 (view_copy cls c) Hdb Hold Htbl Hok Hint Hn Hn' Erow) as (Hdb' & Hty' & Hrows).
  unfold write_cache in Hincr. rewrite Ho2 in Hincr.
  assert (Hp3 : process_ok cls (set_local id a p2)) by (apply (write_cache_ok cls a id p2 o2); [done..|congruence]).
  destruct cache_ok; injection Hincr as <- <- <- <-; (split; [done|]); (split; [exact Hh|]); [|done].
  split; [exact Hint|]. exists o2. split; [done|]. split; [congruence|]. split; [done|]. split.
  { apply (freeze_ok cls p2); [done|by exists a|congruence|congruence]. }
  split; [|done]. intros k. change (view_obj cls (set_local id a p2) o2 k) with (view_obj cls p2 o2 k).
  rewrite Hv2', Hv2. unfold incremented. destruct (String.eqb_spec k prop) as [-> | Hne]; [by rewrite decide_True, Hold|].
  rewrite decide_False by done. apply Hview1.
Qed.

(** Whatever the cache has, an increment leaves a well-formed process, and the
    rows and copies of other things as they were. *)
Lemma incr_any (cache_ok : bool) a id prop amt p o ch tbl p' ch' tbl' r :
  process_ok cls p -> objs p !! a = Some o -> o_id o = Some id -> (forall c, ch !! id = Some c -> copy_ok cls c) ->
  attr_ok cls prop -> incr cls cache_ok a prop amt p ch tbl = (p', ch', tbl', r) ->
  process_ok cls p' /\ (forall i, held p' i <-> held p i) /\
  match r with
  | Ok _ => row_update id tbl tbl' /\ exists c, copy_ok cls c /\ ch' = <[id := c]> ch
  | Raise _ => ch' = ch /\ tbl' = tbl
  end.
Proof.
  intros Hp Ho Hid Hc Hok Hincr. unfold incr in Hincr. rewrite Ho in Hincr.
  assert (Hnothing : forall e, (p, ch, tbl, Raise e) = (p', ch', tbl', r) -> process_ok cls p' /\ (forall i, held p' i <-> held p i) /\
    match r with Ok _ => row_update id tbl tbl' /\ exists c, copy_ok cls c /\ ch' = <[id := c]> ch | Raise _ => ch' = ch /\ tbl' = tbl end)
    by (intros e [= <- <- <- <-]; done).
  destruct (negb _ || negb _) eqn:Eg; [by eapply Hnothing|].
  apply orb_false_iff in Eg as [Ed%negb_false_iff%bool_decide_eq_true _]. rewrite Hid in Hincr.
  destruct (update_from_cache cls a id ch p) as [p1|e] eqn:Hup; cbn [res_bind] in Hincr; [|by eapply Hnothing].
  destruct (update_from_cache_any cls a id ch p o p1 Hp Ho Hid Hc Hup) as (Hp1 & Hh1 & o1 & Ho1 & Hid1 & Hcr1 & Hcl). rewrite Ho1 in Hincr.
  pose proof (p_objs cls p1 Hp1 a o1 Ho1) as Hobj. pose proof (ob_full cls _ _ Hobj) as Hfull1.
  destruct (getattr cls prop (o1, dict_of p1 o1)) as [old|e]; cbn [res_bind] in Hincr; [|by eapply Hnothing].
  destruct (py_add old amt) as [new|e]; cbn [res_bind] in Hincr; [|by eapply Hnothing].
  destruct (setattr_quiet cls prop new o1 (dict_of p1 o1) Hok Hfull1) as (o2 & t2 & Hset & Hs2 & Hf2 & _ & Hd2).
  destruct (on_obj_gen cls a _ p1 o1 o2 t2 Hp1 Ho1 Hset Hs2 Hf2) as (p2 & Hon & Hp2 & Hh2 & Ho2 & _).
  { intros k x. by rewrite Hd2, Hcl, lookup_empty. }
  rewrite Hon in Hincr. cbn [res_bind] in Hincr. destruct Hs2 as (Hid2 & _ & Hcr2).
  destruct (incr_row _ _ _ _ _ _ _) as [tbl2|e] eqn:Erow; cbn [res_bind] in Hincr; [|by eapply Hnothing].
  unfold write_cache in Hincr. rewrite Ho2 in Hincr.
  assert (Hp3 : process_ok cls (set_local id a p2)) by (apply (write_cache_ok cls a id p2 o2); [done..|congruence]).
  assert (Hh : forall i, held (set_local id a p2) i <-> held p i) by (intros i; by rewrite <- Hh1, <- Hh2).
  destruct cache_ok; injection Hincr as <- <- <- <-; (split; [done|]); (split; [exact Hh|]); [|done].
  split; [by eapply incr_row_update|]. exists (freeze p2 o2). split; [|done].
  apply (freeze_ok cls p2); [done|by exists a|by rewrite Hd2, Hcl|].
  rewrite Hcr2, Hcr1. apply (p_objs cls p Hp a o Ho). by rewrite Hid.
Qed.

(** ** New objects *)

(** An object that is not stored shows its defaults, and what was set on it
    is marked as changed unless it is the default. *)
Record fresh (n : nat) (o : obj) (t : gmap string value) : Prop := {
  fr_full : full cls (base o);
  fr_dirty k x : o_dirties o !! k = Some x -> attr_ok cls k /\ typed cls k x.2;
  fr_id : o_id o = None;
  fr_ref : t_ref o = n;
  fr_data k : py_startswith "_" k = false ->
    same (default (default VNone (th_defaults cls !! k)) (snd <$> o_dirties o !! k)) (view cls (base o) t k);
  fr_tview : tview (view cls (base o) t);
  fr_base k : k ∈ base_props cls -> typed cls k (view cls (base o) t k)
}.

Lemma setattr_fresh n o t k v o' t' :
  fresh n o t -> attr_ok cls k -> typed cls k v -> setattr cls k v true (o, t) = Ok (o', t') -> fresh n o' t'.
Proof.
  intros [F1 F2 F3 F4 F5 F6 F7] Hk Hty Hset.
  destruct (setattr_spec cls k v o t Hk F1) as (o1 & t1 & Hs & (Hid & Href & _) & Hf & Hv & Hd).
  rewrite Hs in Hset. injection Hset as <- <-. split; [done|..|congruence|congruence| | |].
  - intros i x. apply (setattr_dirty cls k v o o1 i x Hk Hty F2). rewrite Hd. destruct (py_eq _ _); eauto.
  - intros i Hi. rewrite Hv, Hd. specialize (F5 i Hi). destruct (py_eq v (view cls (base o) t k)) eqn:Ee; case_decide as E; subst.
    + etrans; [exact F5|]. symmetry. by apply py_eq_same.
    + exact F5.
    + by rewrite lookup_insert_eq.
    + by rewrite lookup_insert_ne by done.
  - intros i Hi. rewrite Hv. case_decide; [subst; right; by apply Hty|by apply F6].
  - intros i Hi. rewrite Hv. case_decide; [by subst|by apply F7].
Qed.

Lemma init_spec b attrs p p1 a :
  process_ok cls p -> full cls b -> (forall k v, b !! k = Some v -> typed cls k v) ->
  Forall (fun kv => attr_ok cls kv.1 /\ typed cls kv.1 kv.2) attrs -> init cls b attrs p = Ok (p1, a) ->
  exists o, process_ok cls p1 /\ (forall i, held p1 i <-> held p i) /\ objs p1 !! a = Some o /\
    fresh (length (dicts p)) o (dict_of p1 o).
Proof.
  intros Hp Hb Hbt Hattrs Hinit. unfold init in Hinit. apply res_bind_Ok in Hinit as ([o t] & Hrun & [= <- <-]).
  assert (Hfr : fresh (length (dicts p)) o t).
  { assert (H0 : fresh (length (dicts p)) (Obj None b (length (dicts p)) ∅ false) ∅).
    { split; simpl; [done|..|done|done| | |].
      - intros k x. by rewrite lookup_empty.
      - intros k Hk. unfold view, stored. rewrite Hk, !lookup_empty. by destruct (th_defaults cls !! k).
      - intros k Hk. unfold view, stored. rewrite lookup_empty. destruct (py_startswith "_" k).
        + destruct (b !! k) as [v|] eqn:Ev; [right; by apply (Hbt k v)|by left].
        + destruct (th_defaults cls !! k) as [v|] eqn:Ev; [right; by apply (defaults_typed k v)|by left].
      - intros k Hk. unfold view. rewrite base_private by done. destruct (full_lookup cls b k Hb Hk) as [v Hv]. rewrite Hv. by apply (Hbt k v). }
    revert H0 Hrun. generalize (Obj None b (length (dicts p)) ∅ false) as o0, (∅ : gmap string value) as t0. clear -Hattrs CO NumberLaws0 CodecLaws0.
    induction Hattrs as [|[k v] l [Hk Hv] _ IH]; intros o0 t0 H0 Hrun; simpl in Hrun; [by injection Hrun as <- <-|].
    apply res_bind_Ok in Hrun as ([o1 t1] & Hset & Hrun). simpl in Hk, Hv. eapply IH; [|exact Hrun]. by eapply setattr_fresh. }
  destruct Hfr as [F1 F2 F3 F4 F5 F6 F7]. exists o.
  assert (Hdict : dict_of (Process (objs p ++ [o]) (dicts p ++ [t]) (local p)) o = t)
    by (unfold dict_of; simpl; by rewrite F4, list_lookup_middle).
  split_and!.
  - split; simpl.
    + intros b' x [Hin | [_ Hin]]%lookup_app_Some.
      * destruct (p_objs cls p Hp b' x Hin) as [G1 G2 G3 G4 G5]. split; [simpl; rewrite length_app; lia|done..].
      * apply list_lookup_singleton_Some in Hin as [_ <-]. split; [simpl; rewrite F4, length_app; simpl; lia|done|..].
        -- intros k [x Hx]. by eapply F2.
        -- intros k x Hx. by eapply F2.
        -- rewrite F3. by intros [].
    + intros i b' Hi. destruct (p_local cls p Hp i b' Hi) as (x & Hx & Hxi). exists x. split; [by apply lookup_app_l_Some|done].
  - intros i. unfold held. simpl. split.
    + intros (b' & x & [Hin | [_ Hin]]%lookup_app_Some & Hi); [eauto|]. apply list_lookup_singleton_Some in Hin as [_ <-]. congruence.
    + intros (b' & x & Hx & Hi). exists b', x. split; [by apply lookup_app_l_Some|done].
  - simpl. by rewrite list_lookup_middle.
  - by rewrite Hdict.
Qed.

(** A new object is in the database as it shows itself. *)
Lemma create_new b attrs p p1 a o tbl p' tbl' id :
  process_ok cls p -> full cls b -> (forall k v, b !! k = Some v -> typed cls k v) ->
  Forall (fun kv => attr_ok cls kv.1 /\ typed cls kv.1 kv.2) attrs -> init cls b attrs p = Ok (p1, a) ->
  t_props tbl !! next_id tbl = None -> t_data tbl !! next_id tbl = None -> objs p1 !! a = Some o ->
  create_db a p1 tbl = (p', tbl', id) ->
  id = next_id tbl /\ next_id tbl' = id + 1 /\ process_ok cls p' /\ (forall i, held p' i <-> held p i \/ i = id) /\
  (exists o', objs p' !! a = Some o' /\ o_id o' = Some id /\ created o' = true /\ o_dirties o' = ∅ /\
    view_obj cls p' o' = view_obj cls p1 o) /\
  in_db cls tbl' id (view_obj cls p1 o) /\ tview (view_obj cls p1 o) /\ row_typed tbl' id /\
  (rows_full tbl -> rows_full tbl') /\
  (forall i, i <> id -> t_props tbl' !! i = t_props tbl !! i /\ t_data tbl' !! i = t_data tbl !! i).
Proof.
  intros Hp Hb Hbt Hattrs Hinit Hnp Hnd Ho Hcreate.
  destruct (init_spec b attrs p p1 a Hp Hb Hbt Hattrs Hinit) as (o0 & Hp1 & Hh1 & Ho0 & [F1 F2 F3 F4 F5 F6 F7]).
  rewrite Ho in Ho0. injection Ho0 as <-.
  destruct (create_db_spec cls a p1 o tbl Hp1 Ho F3 Hnp Hnd F5)
    as (p2 & tbl2 & o2 & Hcr & Hp2 & Hh2 & Ho2 & Hid2 & Hc2 & Hd2 & Hv2 & Hdb2 & _ & Hn2).
  rewrite Hcr in Hcreate. injection Hcreate as <- <- <-.
  set (tbl1 := Table (<[next_id tbl := base o]> (t_props tbl)) (t_data tbl) (next_id tbl + 1)).
  assert (tbl2 = write_changes (next_id tbl) (o_dirties o) true tbl1) as ->.
  { unfold create_db in Hcr. rewrite Ho in Hcr. by injection Hcr as <- <-. }
  split_and!; [done|done|done| |by exists o2|done|done| | |].
  - intros i. by rewrite Hh2, Hh1.
  - apply write_changes_typed; [|intros k x Hx; by eapply F2]. split; simpl.
    + intros b' k v Hi Hv. rewrite lookup_insert_eq in Hi. injection Hi as <-.
      assert (Hk : k ∈ base_props cls) by (apply (elem_of_list_to_set (C := gset string)); rewrite <- F1; apply elem_of_dom; eauto).
      specialize (F7 k Hk). unfold view in F7. rewrite base_private, Hv in F7 by done. exact F7.
    + intros d k c Hi. by rewrite Hnd in Hi.
  - intros Hfull. apply write_changes_full; [|intros k [x Hx]; by eapply F2]. intros i b' Hi. cbn [t_props tbl1] in Hi.
    apply lookup_insert_Some in Hi as [[<- <-] | [_ Hi]]; [done|by eapply Hfull].
  - intros i Hi. destruct (write_changes_rows (next_id tbl) (o_dirties o) true tbl1) as [_ Hrows].
    destruct (Hrows i Hi) as [-> ->]. simpl. by rewrite lookup_insert_ne.
Qed.
End counters.
End ThingCounters.
