(* ===== verification/ThingSystem.v ===== *)
(** * Many processes on the same things

    The interleavings of lookups, creations, commits and increments of the
    processes of lib/db/thing.py over one database and one memcached, as a
    step relation: a lookup that misses the caches reads the database in one
    step and fills the caches in a later one; a creation and a commit write the
    cache in a step after that of their transaction, which may fail.  Memcached
    may lose any copy at any time.

    The history of what was done to the things also says which things were
    disturbed: those of which memcached lost the copy while a process had the
    thing, or did not take a new copy, and those changed by a process while
    another one was between its transaction and its writing of the cache, as
    happens to a thing that is found before its creation has reached the
    cache, or when the lock of a commit is lost. *)

From S2P Require Import Prelude Tdb TdbProps Thing ThingProps ThingCounters.

Module ThingSystem.
Import Tdb TdbProps Thing ThingProps ThingCounters.

(** What a process is doing: between two steps, with rows it has read, or with
    a creation or a commit of which the transaction is over. *)
Inductive status :=
  | Idle
  | Loading (l : list (Z * copy))
  | Creating (id : Z) (a : nat)
  | Committing (id : Z) (a : nat).

(** The thing that a process still has to write to the cache, and its object. *)
Definition writing (st : status) : option (Z * nat) :=
  match st with Creating id a | Committing id a => Some (id, a) | _ => None end.

Record system := System {
  s_table : table;
  s_cache : memcache;
  s_procs : gmap nat (process * status)
}.

(** What a step does to the things, and to the agreement of their copies. *)
Inductive event :=
  | Created (id : Z) (f : string -> value)
  | Committed (id : Z) (changes : gmap string (value * value))
  | Incremented (id : Z) (prop : string) (amt : Z)
  | Disturbed (id : Z).

(** The mark of a disturbance, when there is one. *)
Definition disturbs (disturbed : Prop) (id : Z) (l : list event) : Prop :=
  (l = [] /\ ~ disturbed) \/ (l = [Disturbed id] /\ disturbed).

Definition locked (s : system) (id : Z) : Prop :=
  exists pid p a, s_procs s !! pid = Some (p, Committing id a).

(** A creation or a commit has not reached the cache. *)
Definition unwritten (s : system) (id : Z) : Prop :=
  exists pid p st a, s_procs s !! pid = Some (p, st) /\ writing st = Some (id, a).

(** A thing is in use while a process has an object of it or is loading it. *)
Definition in_use (s : system) (id : Z) : Prop :=
  exists pid p st, s_procs s !! pid = Some (p, st) /\
    (held p id \/ exists l c, st = Loading l /\ (id, c) ∈ l).

Definition set_proc (pid : nat) (p : process) (st : status) (s : system) : system :=
  System (s_table s) (s_cache s) (<[pid := (p, st)]> (s_procs s)).

Section system.
Context `{C : Codecs} `{!CodecLaws C} `{N : Numbers} `{!NumberLaws C N} (cls : class).

(** A step of one process, or of memcached; what SQL adds is exact up to
    fifteen digits. *)
Inductive step : system -> list event -> system -> Prop :=
  | start_request pid s :
      s_procs s !! pid = None ->
      step s [] (set_proc pid (Process [] [] ∅) Idle s)
  | end_request pid p s :
      s_procs s !! pid = Some (p, Idle) ->
      step s [] (System (s_table s) (s_cache s) (delete pid (s_procs s)))
  | set_attribute pid p a attr v p' s :
      s_procs s !! pid = Some (p, Idle) -> attr_ok cls attr -> typed cls attr v ->
      on_obj a (setattr cls attr v true) p = Ok p' ->
      step s [] (set_proc pid p' Idle s)
  | lookup_cached pid p id p' a s :
      s_procs s !! pid = Some (p, Idle) -> get_cached true (s_cache s) id p = (p', Some a) ->
      step s [] (set_proc pid p' Idle s)
  | lookup_rows pid p ids l s :
      s_procs s !! pid = Some (p, Idle) -> read_rows cls (s_table s) ids = Ok l ->
      step s [] (set_proc pid p (Loading l) s)
  | fill_caches pid p l p' ch' found s :
      s_procs s !! pid = Some (p, Loading l) -> add_things l (p, s_cache s) = (p', ch', found) ->
      step s [] (System (s_table s) ch' (<[pid := (p', Idle)]> (s_procs s)))
  | create_rows pid p b attrs p1 a o p' tbl' id s :
      s_procs s !! pid = Some (p, Idle) -> full cls b -> (forall k v, b !! k = Some v -> typed cls k v) ->
      Forall (fun kv => attr_ok cls kv.1 /\ typed cls kv.1 kv.2) attrs -> init cls b attrs p = Ok (p1, a) ->
      objs p1 !! a = Some o -> create_db a p1 (s_table s) = (p', tbl', id) ->
      step s [Created id (view_obj cls p1 o)] (System tbl' (s_cache s) (<[pid := (p', Creating id a)]> (s_procs s)))
  | commit_rows pid p a o id p' tbl' changes marks s :
      s_procs s !! pid = Some (p, Idle) -> objs p !! a = Some o -> o_id o = Some id ->
      commit_db cls a id (s_cache s) p (s_table s) = Ok (p', tbl', changes) -> disturbs (unwritten s id) id marks ->
      step s (marks ++ [Committed id (o_dirties o)])
        (System tbl' (s_cache s) (<[pid := (p', if bool_decide (changes = ∅) then Idle else Committing id a)]> (s_procs s)))
  | commit_fails pid p a o id p' s :
      s_procs s !! pid = Some (p, Idle) -> objs p !! a = Some o -> o_id o = Some id ->
      update_from_cache cls a id (s_cache s) p = Ok p' ->
      step s [] (set_proc pid p' Idle s)
  | write_copy (cache_ok : bool) pid p st id a p' ch' r s :
      s_procs s !! pid = Some (p, st) -> writing st = Some (id, a) ->
      write_cache cache_ok a id p (s_cache s) = (p', ch', r) ->
      step s (if cache_ok then [] else [Disturbed id]) (System (s_table s) ch' (<[pid := (p', Idle)]> (s_procs s)))
  | increment (cache_ok : bool) pid p a o id prop amt p' ch' tbl' r marks s :
      s_procs s !! pid = Some (p, Idle) -> objs p !! a = Some o -> o_id o = Some id -> attr_ok cls prop ->
      (forall c n, s_cache s !! id = Some c -> view_copy cls c prop = VInt n -> fits n /\ fits (n + amt)) ->
      incr cls cache_ok a prop amt p (s_cache s) (s_table s) = (p', ch', tbl', r) -> disturbs (unwritten s id) id marks ->
      step s (match r with Ok _ => marks ++ [Incremented id prop amt] | Raise _ => [] end)
        (System tbl' ch' (<[pid := (p', Idle)]> (s_procs s)))
  | evict id marks s :
      disturbs (in_use s id) id marks -> step s marks (System (s_table s) (delete id (s_cache s)) (s_procs s)).

(** Reachable with what was done to the things, the last first. *)
Inductive reachable : list event -> system -> Prop :=
  | initially : reachable [] (System (Table ∅ ∅ 1) ∅ ∅)
  | then_step h s l s' : reachable h s -> step s l s' -> reachable (l ++ h) s'.

(** The things as a map, after a history. *)
Fixpoint things_after (h : list event) : gmap Z (string -> value) :=
  match h with
  | [] => ∅
  | Created id f :: h => <[id := f]> (things_after h)
  | Committed id changes :: h => alter (over changes) id (things_after h)
  | Incremented id prop amt :: h => alter (incremented prop amt) id (things_after h)
  | Disturbed _ :: h => things_after h
  end.
End system.
End ThingSystem.
