(* ===== verification/ThingSystemProps.v ===== *)
(** * Many processes on the same things: properties

    However the processes interleave, the database holds what the history of
    creations, commits and increments makes of every thing that was not
    disturbed, each attribute with its last write and each counter with all
    its increments, and its copy in memcached agrees with it whenever no
    commit of the thing is under way.  What is disturbed stays well-formed and
    does not touch the other things. *)

From S2P Require Import Prelude Tdb TdbProps Thing ThingProps ThingCounters ThingSystem.

Module ThingSystemProps.
Import Tdb TdbProps Thing ThingProps ThingCounters ThingSystem.

Section system.
Context `{C : Codecs} `{!CodecLaws C} `{N : Numbers} `{!NumberLaws C N} (cls : class) {CO : ClassOk cls}.

Notation tview := (tview cls).
Notation in_db := (in_db cls).
Notation view_copy := (view_copy cls).

(** ** The invariant *)

(** What a process has to do, for any thing. *)
Definition status_ok (next : Z) (p : process) (st : status) : Prop :=
  (forall l id c, st = Loading l -> (id, c) ∈ l -> copy_ok cls c /\ id < next) /\
  (forall id a, writing st = Some (id, a) ->
    exists o, objs p !! a = Some o /\ o_id o = Some id /\ created o = true /\ o_dirties o = ∅).

(** What holds of every thing, disturbed or not. *)
Record formed (h : list event) (s : system) : Prop := {
  f_procs pid p st : s_procs s !! pid = Some (p, st) ->
    process_ok cls p /\ (forall i, held p i -> i < next_id (s_table s)) /\ status_ok (next_id (s_table s)) p st;
  f_copies id c : s_cache s !! id = Some c -> copy_ok cls c /\ id < next_id (s_table s);
  f_rows : rows_full cls (s_table s);
  f_next id : next_id (s_table s) <= id -> t_props (s_table s) !! id = None /\ t_data (s_table s) !! id = None;
  f_dom id : is_Some (things_after h !! id) -> id < next_id (s_table s);
  f_only id : things_after h !! id = None -> t_props (s_table s) !! id = None
}.

(** A process and a thing that was not disturbed: the objects of the thing
    have a copy in the cache, the rows that were read are those of the
    database unless there is a copy, and what is to be written to the cache
    is what the database holds. *)
Definition proc_calm (tbl : table) (ch : memcache) (id : Z) (p : process) (st : status) : Prop :=
  (held p id -> is_Some (ch !! id) \/ exists a, st = Creating id a) /\
  (forall l c, st = Loading l -> (id, c) ∈ l -> tview (view_copy c) /\ (is_Some (ch !! id) \/ in_db tbl id (view_copy c))) /\
  (forall a, writing st = Some (id, a) ->
    exists o, objs p !! a = Some o /\ in_db tbl id (view_obj cls p o) /\ tview (view_obj cls p o)).

Record calm (h : list event) (s : system) (id : Z) : Prop := {
  c_thing f : things_after h !! id = Some f -> in_db (s_table s) id f /\ tview f;
  c_typed : row_typed cls (s_table s) id;
  c_writer pid p st a pid' p' st' a' :
    s_procs s !! pid = Some (p, st) -> writing st = Some (id, a) ->
    s_procs s !! pid' = Some (p', st') -> writing st' = Some (id, a') -> pid = pid';
  c_copy c : s_cache s !! id = Some c -> tview (view_copy c) /\ (~ locked s id -> in_db (s_table s) id (view_copy c));
  c_proc pid p st : s_procs s !! pid = Some (p, st) -> proc_calm (s_table s) (s_cache s) id p st
}.

Record inv (h : list event) (s : system) : Prop := {
  i_formed : formed h s;
  i_calm id : Disturbed id ∉ h -> calm h s id
}.

Lemma inv_initially : inv [] (System (Table ∅ ∅ 1) ∅ ∅).
Proof.
  split; [|intros id _]; split; simpl; try (intros *; by rewrite lookup_empty); try done.
Qed.

(** ** Steps and the well-formed state *)

(** A step of a process, of its new next id, copies and rows. *)
Lemma formed_step h h' s pid p' st' tbl' ch' :
  formed h s -> next_id (s_table s) <= next_id tbl' -> process_ok cls p' -> (forall i, held p' i -> i < next_id tbl') ->
  status_ok (next_id tbl') p' st' ->
  (forall id c, ch' !! id = Some c -> s_cache s !! id = Some c \/ (copy_ok cls c /\ id < next_id tbl')) ->
  rows_full cls tbl' -> (forall id, next_id tbl' <= id -> t_props tbl' !! id = None /\ t_data tbl' !! id = None) ->
  (forall id, is_Some (things_after h' !! id) -> id < next_id tbl') ->
  (forall id, things_after h' !! id = None -> t_props tbl' !! id = None) ->
  formed h' (System tbl' ch' (<[pid := (p', st')]> (s_procs s))).
Proof.
  intros [F1 F2 F3 F4 F5 F6] Hn Hp Hheld Hst Hch Hrows Hnext Hdom Honly. split; simpl; try done.
  - intros q x st [[<- [= <- <-]] | [_ Hq]]%lookup_insert_Some; [done|]. destruct (F1 q x st Hq) as (H1 & H2 & H3 & H4). split; [done|].
    split; [intros i Hi; specialize (H2 i Hi); lia|]. split; [|done]. intros l i c Hl Hin. destruct (H3 l i c Hl Hin). split; [done|lia].
  - intros id c [Hc | Hc]%Hch; [|done]. destruct (F2 id c Hc). split; [done|lia].
Qed.

(** One that leaves the database and the things. *)
Lemma formed_proc h s pid p' st' ch' :
  formed h s -> process_ok cls p' -> (forall i, held p' i -> i < next_id (s_table s)) -> status_ok (next_id (s_table s)) p' st' ->
  (forall id c, ch' !! id = Some c -> s_cache s !! id = Some c \/ (copy_ok cls c /\ id < next_id (s_table s))) ->
  formed h (System (s_table s) ch' (<[pid := (p', st')]> (s_procs s))).
Proof. intros Hf Hp Hheld Hst Hch. by apply (formed_step h h); try apply Hf. Qed.

(** One that changes the rows of a thing of which there is an object. *)
Lemma formed_at h h' s pid p' st' tbl' ch' id :
  formed h s -> row_update cls id (s_table s) tbl' -> id < next_id (s_table s) ->
  (forall i, things_after h' !! i = None <-> things_after h !! i = None) ->
  process_ok cls p' -> (forall i, held p' i -> i < next_id (s_table s)) -> status_ok (next_id (s_table s)) p' st' ->
  (forall i c, ch' !! i = Some c -> s_cache s !! i = Some c \/ (copy_ok cls c /\ i < next_id (s_table s))) ->
  formed h' (System tbl' ch' (<[pid := (p', st')]> (s_procs s))).
Proof.
  intros Hf [[Hn Hrows] [Hfull Hid]] Hlt Hh Hp Hheld Hst Hch. pose proof Hf as [_ _ F3 F4 F5 F6].
  apply (formed_step h h'); rewrite ?Hn; try done; [auto|..].
  - intros i Hi. destruct (Hrows i ltac:(lia)) as [-> ->]. by apply F4.
  - intros i Hi. apply F5. rewrite <- not_eq_None_Some in Hi |- *. by rewrite <- Hh.
  - intros i Hi%Hh. destruct (decide (i = id)) as [-> | Hne]; [by apply Hid, F6|]. destruct (Hrows i Hne) as [-> _]. by apply F6.
Qed.

Lemma status_idle n p : status_ok n p Idle.
Proof. by split. Qed.

(** ** Steps and the things that were not disturbed *)

Lemma in_db_same tbl tbl' id f :
  t_props tbl' !! id = t_props tbl !! id -> t_data tbl' !! id = t_data tbl !! id -> in_db tbl id f -> in_db tbl' id f.
Proof. intros Hp Hd (row & Hr & Hf & Hv). exists row. split; [|done]. by rewrite (db_copy_other tbl tbl'). Qed.

Lemma proc_calm_mono tbl tbl' ch ch' id p st :
  t_props tbl' !! id = t_props tbl !! id -> t_data tbl' !! id = t_data tbl !! id -> (is_Some (ch !! id) -> is_Some (ch' !! id)) ->
  proc_calm tbl ch id p st -> proc_calm tbl' ch' id p st.
Proof.
  intros Hp Hd Hch (H1 & H2 & H3). split; [|split].
  - intros [Hc | Ha]%H1; [left; by apply Hch|by right].
  - intros l c Hl Hin. destruct (H2 l c Hl Hin) as [Htv [Hc | Hdb]]; (split; [done|]); [left; by apply Hch|right; by eapply in_db_same].
  - intros a Ha. destruct (H3 a Ha) as (o & Ho & Hdb & Htv). exists o. split_and!; [done|by eapply in_db_same|done].
Qed.

Lemma proc_calm_idle tbl ch id p : (held p id -> is_Some (ch !! id)) -> proc_calm tbl ch id p Idle.
Proof. intros Hh. split; [intros Hi; left; by apply Hh|]. by split. Qed.

(** A step that leaves the rows of a thing, by a process that has nothing of it
    to write to the cache. *)
Lemma calm_frame h h' s id pid p' st' tbl' ch' :
  calm h s id -> (forall p st a, s_procs s !! pid = Some (p, st) -> writing st <> Some (id, a)) ->
  (forall a, writing st' <> Some (id, a)) -> things_after h' !! id = things_after h !! id ->
  t_props tbl' !! id = t_props (s_table s) !! id -> t_data tbl' !! id = t_data (s_table s) !! id ->
  (forall c, ch' !! id = Some c -> s_cache s !! id = Some c \/ (tview (view_copy c) /\ in_db (s_table s) id (view_copy c))) ->
  (is_Some (s_cache s !! id) -> is_Some (ch' !! id)) -> proc_calm tbl' ch' id p' st' ->
  calm h' (System tbl' ch' (<[pid := (p', st')]> (s_procs s))) id.
Proof.
  intros [C1 C2 C3 C4 C5] Hst Hst' Hh Hp Hd Hch Hmono Hcalm. split; simpl.
  - intros f. rewrite Hh. intros Hf. destruct (C1 f Hf). split; [by eapply in_db_same|done].
  - unfold row_typed. by rewrite Hp, Hd.
  - intros q x st a q' x' st2 a' [[<- [= <- <-]] | [_ Hq]]%lookup_insert_Some Hw; [by destruct (Hst' a)|].
    intros [[<- [= <- <-]] | [_ Hq']]%lookup_insert_Some Hw'; [by destruct (Hst' a')|]. by eapply C3.
  - intros c Hc. assert (Hl : ~ locked (System tbl' ch' (<[pid := (p', st')]> (s_procs s))) id -> ~ locked s id).
    { intros Hn (q & x & a & Hq). apply Hn. exists q, x, a. simpl. rewrite lookup_insert_ne; [done|]. intros ->. by apply (Hst _ _ a) in Hq. }
    apply Hch in Hc as [Hc | [Htv Hdb]]; [|split; [done|intros _; by eapply in_db_same]].
    destruct (C4 c Hc) as [Htv Hdb]. split; [done|]. intros Hn. eapply in_db_same; [done|done|]. by apply Hdb, Hl.
  - intros q x st [[<- [= <- <-]] | [_ Hq]]%lookup_insert_Some; [done|]. eapply proc_calm_mono; [done..|]. by eapply C5.
Qed.

(** A step that makes the rows and the copy of a thing what they are. *)
Lemma calm_at h' s id pid p' st' tbl' ch' f :
  (forall q x st, q <> pid -> s_procs s !! q = Some (x, st) -> (forall a, writing st <> Some (id, a)) /\ proc_calm tbl' ch' id x st) ->
  things_after h' !! id = Some f -> in_db tbl' id f -> tview f -> row_typed cls tbl' id ->
  (forall c, ch' !! id = Some c -> tview (view_copy c) /\ ((forall a, st' <> Committing id a) -> in_db tbl' id (view_copy c))) ->
  proc_calm tbl' ch' id p' st' -> calm h' (System tbl' ch' (<[pid := (p', st')]> (s_procs s))) id.
Proof.
  intros Hothers Hh Hdb Htv Hty Hch Hcalm.
  assert (Hall : forall q x st, <[pid := (p', st')]> (s_procs s) !! q = Some (x, st) -> q <> pid -> forall a, writing st <> Some (id, a)).
  { intros q x st [[<- _] | [Hne Hq]]%lookup_insert_Some Hqp; [done|]. by eapply Hothers. }
  split; simpl; [..|done| | |].
  - intros g. rewrite Hh. by intros [= <-].
  - intros q x st a q' x' st2 a' Hq Hw Hq' Hw'.
    destruct (decide (q = pid)) as [-> | Hne]; [|by destruct (Hall q x st Hq Hne a)].
    destruct (decide (q' = pid)) as [-> | Hne]; [done|by destruct (Hall q' x' st2 Hq' Hne a')].
  - intros c Hc. destruct (Hch c Hc) as [Hctv Hcdb]. split; [done|]. intros Hn. apply Hcdb. intros a ->. apply Hn.
    exists pid, p', a. simpl. by rewrite lookup_insert_eq.
  - intros q x st [[<- [= <- <-]] | [Hne Hq]]%lookup_insert_Some; [done|]. by eapply Hothers.
Qed.

(** The other processes, when there is a copy and none of them has to write
    one. *)
Lemma others_calm h s id pid tbl' ch' :
  calm h s id -> (forall q x st a, s_procs s !! q = Some (x, st) -> writing st = Some (id, a) -> q = pid) -> is_Some (ch' !! id) ->
  forall q x st, q <> pid -> s_procs s !! q = Some (x, st) -> (forall a, writing st <> Some (id, a)) /\ proc_calm tbl' ch' id x st.
Proof.
  intros Hc Hw Hch q x st Hne Hq. assert (Hn : forall a, writing st <> Some (id, a)) by (intros a Ha; by destruct Hne; eapply Hw).
  split; [done|]. destruct (c_proc h s id Hc q x st Hq) as (_ & H2 & _). split; [by left|]. split.
  - intros l c Hl Hin. destruct (H2 l c Hl Hin). split; [done|by left].
  - intros a Ha. by destruct (Hn a).
Qed.

(** ** Every step keeps the invariant *)

(** A step of a process alone, that has nothing to write to the cache. *)
Lemma inv_proc h s pid p' st' :
  inv h s -> (forall p st, s_procs s !! pid = Some (p, st) -> writing st = None) -> writing st' = None ->
  process_ok cls p' -> (forall i, held p' i -> i < next_id (s_table s)) -> status_ok (next_id (s_table s)) p' st' ->
  (forall id, Disturbed id ∉ h -> proc_calm (s_table s) (s_cache s) id p' st') -> inv h (set_proc pid p' st' s).
Proof.
  intros [Hf Hc] Hp Hst Hp' Hheld Hok Hcalm. split; [apply formed_proc; auto|]. intros id Hid.
  apply (calm_frame h h s); auto; [|congruence]. intros p st a Hq. rewrite (Hp p st Hq). done.
Qed.

Lemma idle_writes s pid p : s_procs s !! pid = Some (p, Idle) -> forall q st, s_procs s !! pid = Some (q, st) -> writing st = None.
Proof. intros Hp q st Hq. rewrite Hp in Hq. by injection Hq as _ <-. Qed.

Lemma calm_held h s pid p id : inv h s -> Disturbed id ∉ h -> s_procs s !! pid = Some (p, Idle) -> held p id -> is_Some (s_cache s !! id).
Proof. intros Hi Hid Hp Hh. destruct (c_proc h s id (i_calm h s Hi id Hid) pid p Idle Hp) as (Hc & _). by destruct (Hc Hh) as [? | [a Ha]]. Qed.

Lemma copies_ok h s id : inv h s -> forall c, s_cache s !! id = Some c -> copy_ok cls c.
Proof. intros Hi c Hc. by apply (f_copies h s (i_formed h s Hi) id c). Qed.

(** A step of an idle process alone to an idle one. *)
Lemma inv_idle h s pid p p' :
  inv h s -> s_procs s !! pid = Some (p, Idle) -> process_ok cls p' ->
  (forall i, held p' i -> held p i \/ is_Some (s_cache s !! i)) -> inv h (set_proc pid p' Idle s).
Proof.
  intros Hi Hp Hok Hh. destruct (f_procs h s (i_formed h s Hi) pid p Idle Hp) as (_ & Hlt & _).
  apply inv_proc; [done|by eapply idle_writes|done|done| |apply status_idle|].
  - intros i [Hi' | [c Hc]]%Hh; [by apply Hlt|by apply (f_copies h s (i_formed h s Hi) i c)].
  - intros id Hid. apply proc_calm_idle. intros [Hi' | Hi']%Hh; [by eapply calm_held|done].
Qed.

Lemma step_start h s pid : inv h s -> s_procs s !! pid = None -> inv h (set_proc pid (Process [] [] ∅) Idle s).
Proof.
  intros Hi Hp. assert (Hno : forall i, ~ held (Process [] [] ∅) i) by (by intros i (a & o & Ho & _)).
  apply inv_proc; [done|congruence|done| | |apply status_idle|].
  - split; simpl; [intros a o Ho; by rewrite lookup_nil in Ho|]. intros id a. by rewrite lookup_empty.
  - intros i Hh. by destruct (Hno i).
  - intros id _. apply proc_calm_idle. intros Hh. by destruct (Hno id).
Qed.

Lemma step_end h s pid p : inv h s -> s_procs s !! pid = Some (p, Idle) -> inv h (System (s_table s) (s_cache s) (delete pid (s_procs s))).
Proof.
  intros [[F1 F2 F3 F4 F5 F6] Hc] Hp. split.
  - split; simpl; try done. intros q x st [_ Hq]%lookup_delete_Some. by apply (F1 q x st).
  - intros id Hid. destruct (Hc id Hid) as [C1 C2 C3 C4 C5]. split; simpl; try done.
    + intros q x st a q' x' st' a' [_ Hq]%lookup_delete_Some Hw [_ Hq']%lookup_delete_Some Hw'. by eapply C3.
    + intros c Hcc. destruct (C4 c Hcc) as [Htv Hdb]. split; [done|]. intros Hn. apply Hdb. intros (q & x & a & Hq). apply Hn.
      exists q, x, a. simpl. rewrite lookup_delete_ne; [done|]. intros ->. congruence.
    + intros q x st [_ Hq]%lookup_delete_Some. by apply (C5 q x st).
Qed.

(** What a lookup reads. *)
Lemma row_read h s ids l id c :
  formed h s -> read_rows cls (s_table s) ids = Ok l -> (id, c) ∈ l ->
  copy_ok cls c /\ id < next_id (s_table s) /\ in_db (s_table s) id (view_copy c) /\
  (row_typed cls (s_table s) id -> tview (view_copy c)).
Proof.
  intros Hf Hread Hin. unfold read_rows in Hread. apply res_bind_Ok in Hread as (l' & Hl' & [= <-]).
  apply list_elem_of_omap in Hin as ([i oc] & Hin & Hoc). simpl in Hoc. destruct oc as [c'|]; [|done]. injection Hoc as -> ->.
  apply res_mapM_Forall2 in Hl'. apply list_elem_of_lookup in Hin as [n Hn].
  destruct (Forall2_lookup_r _ _ _ _ _ Hl' Hn) as (x & _ & Hx). apply res_bind_Ok in Hx as (oc & Hrow & [= -> ->]).
  apply read_row_db_copy in Hrow as Hdb.
  assert (Hc : full cls (c_base c) /\ c_dirties c = ∅ /\ c_created c = true /\ is_Some (t_props (s_table s) !! id)).
  { unfold db_copy in Hdb. destruct (t_props (s_table s) !! id) as [b|] eqn:Eb; [|done]. destruct (res_map _ _); [|done].
    injection Hdb as <-. split_and!; [by eapply f_rows|done..]. }
  destruct Hc as (Hc1 & Hc2 & Hc3 & [b Hb]). split_and!; [by split| |by exists c|].
  - destruct (decide (id < next_id (s_table s))) as [|Hge]; [done|]. destruct (f_next h s Hf id) as [Hn' _]; [lia|]. congruence.
  - intros Hty. by apply (db_copy_tview cls (s_table s) id c Hty Hdb).
Qed.

Lemma step_rows h s pid p ids l :
  inv h s -> s_procs s !! pid = Some (p, Idle) -> read_rows cls (s_table s) ids = Ok l -> inv h (set_proc pid p (Loading l) s).
Proof.
  intros Hi Hp Hread. destruct (f_procs h s (i_formed h s Hi) pid p Idle Hp) as (Hok & Hlt & _).
  assert (Hrow : forall id c, (id, c) ∈ l -> _) by (intros id c; apply (row_read h s ids l id c (i_formed h s Hi) Hread)).
  apply inv_proc; [done|by eapply idle_writes|done|done|done| |].
  - split; [|done]. intros l' id c [= <-] Hin. by apply Hrow in Hin as (? & ? & _).
  - intros id Hid. split; [intros Hh; left; by eapply calm_held|]. split; [|done].
    intros l' c [= <-] Hin. destruct (Hrow id c Hin) as (_ & _ & Hdb & Htv). split; [|by right]. by apply Htv, (c_typed h s id (i_calm h s Hi id Hid)).
Qed.

Lemma step_fill h s pid p l p' ch' found :
  inv h s -> s_procs s !! pid = Some (p, Loading l) -> add_things l (p, s_cache s) = (p', ch', found) ->
  inv h (System (s_table s) ch' (<[pid := (p', Idle)]> (s_procs s))).
Proof.
  intros Hi Hp Hadd. destruct (f_procs h s (i_formed h s Hi) pid p _ Hp) as (Hok & Hlt & Hload & _).
  destruct (add_things_ok cls l p (s_cache s) p' ch' found Hok) as (G1 & G2 & G3 & G4 & G5); [|done|].
  { intros id c Hin. by apply (Hload l id c). }
  assert (Hmono : forall i, is_Some (s_cache s !! i) -> is_Some (ch' !! i)) by (intros i [c Hc]; exists c; by apply G3).
  split.
  - apply formed_proc; [apply Hi|done| |apply status_idle|].
    + intros i [Hh | [c Hin]]%G2; [by apply Hlt|by apply (Hload l i c)].
    + intros i c [Hc | Hin]%G4; [by left|right; by apply (Hload l i c)].
  - intros id Hid. pose proof (i_calm h s Hi id Hid) as Hc. destruct (c_proc h s id Hc pid p _ Hp) as (H1 & H2 & _).
    apply (calm_frame h h s); try done.
    + intros q st a Hq. rewrite Hp in Hq. by injection Hq as _ <-.
    + intros c Hc'. destruct (s_cache s !! id) as [c0|] eqn:E0; [left; by rewrite <- (G3 id c0 E0)|].
      apply G4 in Hc' as [Hc' | Hin]; [congruence|right]. destruct (H2 l c eq_refl Hin) as [Htv [[c' Hs] | Hdb]]; [congruence|done].
    + auto.
    + apply proc_calm_idle. intros [Hh | [c Hin]]%G2; [|by eapply G5]. destruct (H1 Hh) as [Hs | [a Ha]]; [by apply Hmono|done].
Qed.

Lemma step_evict h s id l :
  inv h s -> disturbs (in_use s id) id l -> inv (l ++ h) (System (s_table s) (delete id (s_cache s)) (s_procs s)).
Proof.
  intros [[F1 F2 F3 F4 F5 F6] Hc] Hl.
  assert (Hh : things_after (l ++ h) = things_after h) by (by destruct Hl as [[-> _] | [-> _]]).
  split.
  - split; simpl; rewrite ?Hh; try done. intros i c [_ Hci]%lookup_delete_Some. by apply F2.
  - intros i Hi. assert (Hih : Disturbed i ∉ h) by (intros Hin; apply Hi, elem_of_app; by right).
    destruct (Hc i Hih) as [C1 C2 C3 C4 C5]. split; simpl; rewrite ?Hh; try done.
    + intros c [_ Hci]%lookup_delete_Some. by apply C4.
    + intros q x st Hq. destruct (decide (i = id)) as [-> | Hne].
      * assert (Hu : ~ in_use s id) by (destruct Hl as [[_ Hu] | [-> _]]; [done|by destruct Hi; left]).
        split; [|split].
        -- intros Hheld. destruct Hu. exists q, x, st. by auto.
        -- intros l' c -> Hin. destruct Hu. exists q, x, (Loading l'). split; [done|]. right. by exists l', c.
        -- intros a Ha. destruct Hu. exists q, x, st. split; [done|left]. destruct (F1 q x st Hq) as (_ & _ & _ & Hw).
           destruct (Hw id a Ha) as (o & Ho & Hoid & _). by exists a, o.
      * eapply proc_calm_mono; [done|done| |by apply (C5 q x st)]. by rewrite lookup_delete_ne.
Qed.

Lemma disturbed_app id l h : Disturbed id ∉ l ++ h -> Disturbed id ∉ l /\ Disturbed id ∉ h.
Proof. intros Hn. split; intros Hin; apply Hn, elem_of_app; auto. Qed.

(** A thing that gets its rows. *)
Lemma step_create h s pid p b attrs p1 a o p' tbl' id :
  inv h s -> s_procs s !! pid = Some (p, Idle) -> full cls b -> (forall k v, b !! k = Some v -> typed cls k v) ->
  Forall (fun kv => attr_ok cls kv.1 /\ typed cls kv.1 kv.2) attrs -> init cls b attrs p = Ok (p1, a) ->
  objs p1 !! a = Some o -> create_db a p1 (s_table s) = (p', tbl', id) ->
  inv (Created id (view_obj cls p1 o) :: h) (System tbl' (s_cache s) (<[pid := (p', Creating id a)]> (s_procs s))).
Proof.
  intros Hi Hp Hb Hbt Hattrs Hinit Ho Hcreate. pose proof (i_formed h s Hi) as Hf.
  destruct (f_procs h s Hf pid p _ Hp) as (Hpok & Hlt & _). destruct (f_next h s Hf (next_id (s_table s))) as [Hnp Hnd]; [lia|].
  destruct (create_new cls b attrs p p1 a o _ p' tbl' id Hpok Hb Hbt Hattrs Hinit Hnp Hnd Ho Hcreate)
    as (Eid & Hn & Hp' & Hheld & (o' & Ho' & Hid' & Hcr' & Hd' & Hv') & Hdb & Htv & Hty & Hfull & Hrows).
  set (f := view_obj cls p1 o) in *. split.
  - apply (formed_step h _ s); [done|lia|done| | | |by apply Hfull, Hf|..].
    + intros i [Hh | ->]%Hheld; [specialize (Hlt i Hh)|]; lia.
    + split; [done|]. intros i a' [= <- <-]. by exists o'.
    + by left.
    + intros i Hge. destruct (Hrows i) as [-> ->]; [lia|]. apply (f_next h s Hf). lia.
    + intros i. simpl. destruct (decide (i = id)) as [-> | Hne]; [lia|]. rewrite lookup_insert_ne by done.
      intros Hs. pose proof (f_dom h s Hf i Hs). lia.
    + intros i Hh. cbn [things_after] in Hh. apply lookup_insert_None in Hh as [Hh Hne]. destruct (Hrows i) as [-> _]; [done|]. by apply (f_only h s Hf).
  - intros i Hdi. assert (Hih : Disturbed i ∉ h) by (intros Hin; apply Hdi; by right).
    pose proof (i_calm h s Hi i Hih) as Hc. destruct (decide (i = id)) as [-> | Hne].
    + assert (Hfresh : forall c, s_cache s !! id <> Some c) by (intros c Hc'; apply (f_copies h s Hf) in Hc' as [_ ?]; lia).
      apply (calm_at _ s id pid _ _ tbl' _ f); try done.
      * intros q x st _ Hq. destruct (f_procs h s Hf q x st Hq) as (_ & Hx & Hload & Hw).
        assert (Hnw : forall a, writing st <> Some (id, a)).
        { intros a' Ha. destruct (Hw id a' Ha) as (y & Hy & Hyid & _). specialize (Hx id). lapply Hx; [lia|]. by exists a', y. }
        split; [done|]. split; [|split].
        -- intros Hh. specialize (Hx id Hh). lia.
        -- intros l c Hl Hin. destruct (Hload l id c Hl Hin). lia.
        -- intros a' Ha. by destruct (Hnw a').
      * simpl. by rewrite lookup_insert_eq.
      * intros c Hc'. by destruct (Hfresh c).
      * split; [intros _; right; by exists a|]. split; [done|]. intros a' [= <-]. exists o'. by rewrite Hv'.
    + destruct (Hrows i Hne) as [Hr1 Hr2]. apply (calm_frame h _ s); try done.
      * intros q st a' Hq. rewrite Hp in Hq. by injection Hq as _ <-.
      * intros a' [= E _]. by destruct Hne.
      * simpl. by rewrite lookup_insert_ne.
      * by left.
      * split; [|split; [done|intros a' [= E _]; by destruct Hne]]. intros [Hh | ->]%Hheld; [|done]. left. by eapply calm_held.
Qed.

(** Another thing stays as it is when a process that is idle, or has the first
    thing to write to the cache, changes the rows and the copy of that one. *)
Lemma calm_other h h' s id i pid p st p' st' tbl' ch' :
  calm h s i -> i <> id -> s_procs s !! pid = Some (p, st) -> (st = Idle \/ exists a, writing st = Some (id, a)) ->
  (st' = Idle \/ exists a, writing st' = Some (id, a)) -> (forall j, held p' j <-> held p j) ->
  things_after h' !! i = things_after h !! i -> other_rows id (s_table s) tbl' -> ch' !! i = s_cache s !! i ->
  calm h' (System tbl' ch' (<[pid := (p', st')]> (s_procs s))) i.
Proof.
  intros Hc Hne Hp Hst Hst' Hheld Hh [_ Hrows] Hch. destruct (Hrows i Hne) as [Hr1 Hr2].
  assert (Hw : forall st a, (st = Idle \/ exists a, writing st = Some (id, a)) -> writing st <> Some (i, a)).
  { intros st0 a [-> | [a' Ha]]; [done|]. rewrite Ha. intros [= E _]. by destruct Hne. }
  apply (calm_frame h h' s); auto.
  - intros q st0 a Hq. rewrite Hp in Hq. injection Hq as _ <-. by apply Hw.
  - intros c. rewrite Hch. by left.
  - by rewrite Hch.
  - destruct (c_proc h s i Hc pid p st Hp) as (H1 & H2 & _). split; [|split].
    + intros Hi%Hheld. rewrite Hch. destruct (H1 Hi) as [Hs | [a ->]]; [by left|]. exfalso.
      destruct Hst as [Hst | [a' Ha]]; [done|]. injection Ha as E _. by destruct Hne.
    + intros l c ->. by destruct Hst' as [Hst' | [a Ha]].
    + intros a Ha. by destruct (Hw st' a Hst').
Qed.

Lemma in_db_agree tbl id f g : in_db tbl id f -> in_db tbl id g -> forall k, same (f k) (g k).
Proof.
  intros (row & Hr & _ & Hf) (row' & Hr' & _ & Hg) k. assert (row' = row) as -> by congruence.
  transitivity (view_copy row k); [symmetry; apply Hf|apply Hg].
Qed.

Lemma in_db_thing h s id g : formed h s -> in_db (s_table s) id g -> exists f, things_after h !! id = Some f.
Proof.
  intros Hf (row & Hr & _). destruct (things_after h !! id) as [f|] eqn:Ef; [by eexists|].
  unfold db_copy in Hr. by rewrite (f_only h s Hf id Ef) in Hr.
Qed.

(** A thing held by an idle process, that was not disturbed and is not about to
    be written to the cache, has a copy that agrees with its rows. *)
Lemma held_copy h s pid p a o id :
  inv h s -> Disturbed id ∉ h -> s_procs s !! pid = Some (p, Idle) -> objs p !! a = Some o -> o_id o = Some id -> ~ unwritten s id ->
  exists c f, s_cache s !! id = Some c /\ copy_ok cls c /\ tview (view_copy c) /\ in_db (s_table s) id (view_copy c) /\
    row_typed cls (s_table s) id /\ things_after h !! id = Some f /\ in_db (s_table s) id f /\ tview f.
Proof.
  intros Hi Hd Hp Ho Hid Hn. destruct (calm_held h s pid p id Hi Hd Hp) as [c Hc]; [by exists a, o|].
  destruct (i_calm h s Hi id Hd) as [C1 C2 _ C4 _]. destruct (C4 c Hc) as [Htv Hdb].
  assert (Hcdb : in_db (s_table s) id (view_copy c)).
  { apply Hdb. intros (q & x & b & Hq). apply Hn. by exists q, x, (Committing id b), b. }
  destruct (in_db_thing h s id _ (i_formed h s Hi) Hcdb) as [f Hf]. destruct (C1 f Hf). exists c, f.
  split_and!; try done. by apply (f_copies h s (i_formed h s Hi) id).
Qed.

Lemma over_same m f g k : same (f k) (g k) -> same (over m f k) (over m g k).
Proof. unfold over. by destruct (m !! k). Qed.

Lemma incremented_same prop amt f g k :
  int_prop cls prop -> tview f -> tview g -> (forall k, same (f k) (g k)) -> same (incremented prop amt f k) (incremented prop amt g k).
Proof.
  intros Hk Hf Hg Hs. unfold incremented. destruct (String.eqb_spec k prop) as [-> | Hne]; [|apply Hs].
  specialize (Hs prop). destruct (Hf prop Hk) as [Ef | [n Ef]], (Hg prop Hk) as [Eg | [m Eg]]; rewrite Ef, Eg in *; try done.
  apply same_int in Hs. simpl in Hs. by injection Hs as ->.
Qed.

(** What a change does to the map of things. *)
Lemma things_marked l h : (exists d id, disturbs d id l) -> things_after (l ++ h) = things_after h.
Proof. by intros (d & id & [[-> _] | [-> _]]). Qed.

Lemma not_disturbed d id l h : disturbs d id l -> Disturbed id ∉ l ++ h -> ~ d.
Proof. intros [[_ Hd] | [-> _]] Hn; [done|]. destruct Hn. by left. Qed.

Lemma alter_none {V} (g : V -> V) id (m : gmap Z V) i : alter g id m !! i = None <-> m !! i = None.
Proof. apply lookup_alter_None. Qed.

Lemma step_commit h s pid p a o id p' tbl' changes l :
  inv h s -> s_procs s !! pid = Some (p, Idle) -> objs p !! a = Some o -> o_id o = Some id ->
  commit_db cls a id (s_cache s) p (s_table s) = Ok (p', tbl', changes) -> disturbs (unwritten s id) id l ->
  inv (l ++ Committed id (o_dirties o) :: h)
    (System tbl' (s_cache s) (<[pid := (p', if bool_decide (changes = ∅) then Idle else Committing id a)]> (s_procs s))).
Proof.
  intros Hi Hp Ho Hid Hcommit Hl. pose proof (i_formed h s Hi) as Hf.
  destruct (f_procs h s Hf pid p _ Hp) as (Hpok & Hlt & _). assert (Hids : held p id) by (by exists a, o).
  destruct (commit_db_any cls a id _ p o _ p' tbl' changes Hpok Ho Hid (copies_ok h s id Hi) Hcommit)
    as (Hp' & Hheld & (o' & Ho' & Hid' & Hcr' & Hd') & Hch).
  assert (Hcr : created o' = true) by (rewrite Hcr'; apply (p_objs cls p Hpok a o Ho); by rewrite Hid).
  assert (Hup : row_update cls id (s_table s) tbl').
  { destruct Hch as [[_ ->] | (_ & -> & Hok)]; [apply row_update_refl|by apply write_changes_update]. }
  set (st' := if bool_decide (changes = ∅) then Idle else Committing id a).
  assert (Hst' : st' = Idle \/ st' = Committing id a) by (unfold st'; case_bool_decide; auto).
  assert (Hwr : st' = Idle \/ exists b, writing st' = Some (id, b)) by (destruct Hst' as [-> | ->]; [by left|right; by exists a]).
  assert (Hthings : things_after (l ++ Committed id (o_dirties o) :: h) = alter (over (o_dirties o)) id (things_after h)).
  { rewrite things_marked by eauto. done. }
  split.
  - apply (formed_at h _ s pid p' st' tbl' (s_cache s) id); [done|done|by apply Hlt| |done| | |by left].
    + intros i. rewrite Hthings. apply alter_none.
    + intros i Hi'%Hheld. by apply Hlt.
    + split; [intros l0 i c Hl0; by destruct Hst' as [E | E]; rewrite E in Hl0|].
      intros i b Hb. destruct Hst' as [E | E]; rewrite E in Hb; [done|]. injection Hb as <- <-. by exists o'.
  - intros i Hdi. destruct (disturbed_app i l _ Hdi) as [_ Hih]. assert (Hih' : Disturbed i ∉ h) by (intros Hin; apply Hih; by right).
    pose proof (i_calm h s Hi i Hih') as Hc. destruct (decide (i = id)) as [-> | Hne].
    2:{ apply (calm_other h _ s id i pid p Idle); auto; [|by apply Hup]. by rewrite Hthings, lookup_alter_ne. }
    pose proof (not_disturbed _ _ _ _ Hl Hdi) as Hnw.
    destruct (held_copy h s pid p a o id Hi Hih' Hp Ho Hid Hnw) as (c & f & Hcc & Hcok & Hctv & Hcdb & Hty & Hft & Hfdb & Hftv).
    assert (Hcreated : created o = true) by congruence.
    destruct (commit_db_spec cls a id (s_cache s) p o c (s_table s) Hpok Ho Hid Hcreated Hcc Hcok Hcdb)
      as (p2 & tbl2 & ch2 & o2 & Hrun & _ & _ & G3 & _ & _ & _ & G7 & G8 & G9).
    rewrite Hcommit in Hrun. injection Hrun as <- <- <-. rewrite Ho' in G3. injection G3 as <-.
    assert (Htyd : forall k x, o_dirties o !! k = Some x -> typed cls k x.2) by apply (p_objs cls p Hpok a o Ho).
    assert (Htv : tview (view_obj cls p' o')) by (intros k Hk; rewrite G7; by apply (over_tview cls (o_dirties o) (view_copy c) Hctv Htyd)).
    apply (calm_at _ s id pid _ _ tbl' _ (over (o_dirties o) f)).
    + apply (others_calm h); [done| |by rewrite Hcc]. intros q x st b Hq Hw. destruct Hnw. by exists q, x, st, b.
    + by rewrite Hthings, lookup_alter_eq, Hft.
    + eapply in_db_ext; [exact G8|]. intros k. rewrite G7. apply over_same. by apply (in_db_agree (s_table s) id).
    + by apply over_tview.
    + destruct G9 as [[_ ->] | (_ & -> & Hcht)]; [done|]. by apply write_changes_typed.
    + intros c'. rewrite Hcc. intros [= <-]. split; [done|]. intros Hnc. unfold st' in Hnc.
      destruct G9 as [[_ ->] | [Hne _]]; [done|]. rewrite bool_decide_false in Hnc by done. by destruct (Hnc a).
    + split; [intros _; left; by rewrite Hcc|]. split; [intros l0 c' Hl0; by destruct Hst' as [E | E]; rewrite E in Hl0|].
      intros b Hb. destruct Hst' as [E | E]; rewrite E in Hb; [done|]. injection Hb as <-. by exists o'.
Qed.

Lemma step_write (cache_ok : bool) h s pid p st id a p' ch' r :
  inv h s -> s_procs s !! pid = Some (p, st) -> writing st = Some (id, a) -> write_cache cache_ok a id p (s_cache s) = (p', ch', r) ->
  inv ((if cache_ok then [] else [Disturbed id]) ++ h) (System (s_table s) ch' (<[pid := (p', Idle)]> (s_procs s))).
Proof.
  intros Hi Hp Hw Hwrite. pose proof (i_formed h s Hi) as Hf.
  destruct (f_procs h s Hf pid p _ Hp) as (Hpok & Hlt & _ & Hwo). destruct (Hwo id a Hw) as (o & Ho & Hid & Hcr & Hd).
  unfold write_cache in Hwrite. rewrite Ho in Hwrite.
  assert (Hcopy : copy_ok cls (freeze p o)) by (apply (freeze_ok cls p); [done|by exists a|done..]).
  assert (Hp' : p' = set_local id a p) by (destruct cache_ok; by injection Hwrite as <- _ _).
  assert (Hch : ch' = if cache_ok then <[id := freeze p o]> (s_cache s) else s_cache s) by (destruct cache_ok; by injection Hwrite as _ <- _).
  clear Hwrite. subst p'. assert (Hheld : forall i, held (set_local id a p) i <-> held p i) by done.
  assert (Hthings : things_after ((if cache_ok then [] else [Disturbed id]) ++ h) = things_after h) by (by destruct cache_ok).
  split.
  - apply (formed_at h _ s pid _ _ (s_table s) ch' id); [done|apply row_update_refl|apply Hlt; by exists a, o|by rewrite Hthings|..].
    + by apply (write_cache_ok cls a id p o).
    + done.
    + apply status_idle.
    + intros i c Hc. rewrite Hch in Hc. destruct cache_ok; [|by left]. apply lookup_insert_Some in Hc as [[<- <-] | [_ Hc]]; [right|by left].
      split; [done|]. apply Hlt. by exists a, o.
  - intros i Hdi. destruct (disturbed_app i _ _ Hdi) as [Hl Hih]. pose proof (i_calm h s Hi i Hih) as Hc.
    destruct (decide (i = id)) as [-> | Hne].
    2:{ apply (calm_other h _ s id i pid p st); [done|done|done|right; by exists a|by left|done|by rewrite Hthings|done|].
        rewrite Hch. destruct cache_ok; [|done]. by rewrite lookup_insert_ne. }
    destruct cache_ok; [|by destruct Hl; left].
    destruct (c_proc h s id Hc pid p st Hp) as (_ & _ & Hpend). destruct (Hpend a Hw) as (o1 & Ho1 & Hdb & Htv).
    rewrite Ho in Ho1. injection Ho1 as <-.
    destruct (in_db_thing h s id _ Hf Hdb) as [f Hft]. destruct (c_thing h s id Hc f Hft) as [Hfdb Hftv].
    apply (calm_at _ s id pid _ _ _ _ f); try done.
    + apply (others_calm h); [done| |by rewrite Hch, lookup_insert_eq]. intros q x st' b Hq Hwq. by eapply (c_writer h s id Hc).
    + by apply (c_typed h s id Hc).
    + intros c. rewrite Hch, lookup_insert_eq. intros [= <-]. by split.
    + apply proc_calm_idle. intros _. by rewrite Hch, lookup_insert_eq.
Qed.

Lemma step_incr (cache_ok : bool) h s pid p a o id prop amt p' ch' tbl' r l :
  inv h s -> s_procs s !! pid = Some (p, Idle) -> objs p !! a = Some o -> o_id o = Some id -> attr_ok cls prop ->
  (forall c n, s_cache s !! id = Some c -> view_copy c prop = VInt n -> fits n /\ fits (n + amt)) ->
  incr cls cache_ok a prop amt p (s_cache s) (s_table s) = (p', ch', tbl', r) -> disturbs (unwritten s id) id l ->
  inv (match r with Ok _ => l ++ [Incremented id prop amt] | Raise _ => [] end ++ h)
    (System tbl' ch' (<[pid := (p', Idle)]> (s_procs s))).
Proof.
  intros Hi Hp Ho Hid Hok Hfits Hincr Hl. pose proof (i_formed h s Hi) as Hf.
  destruct (f_procs h s Hf pid p _ Hp) as (Hpok & Hlt & _). assert (Hids : held p id) by (by exists a, o).
  destruct (incr_any cls cache_ok a id prop amt p o _ _ p' ch' tbl' r Hpok Ho Hid (copies_ok h s id Hi) Hok Hincr) as (Hp' & Hheld & Hr).
  destruct r as [u|e]; [|destruct Hr as [-> ->]; apply (inv_idle h s pid p); auto; intros i Hi'%Hheld; by left].
  destruct Hr as [Hup (cn & Hcn & Hch)]. rewrite <- app_assoc. cbn [app].
  assert (Hthings : things_after (l ++ Incremented id prop amt :: h) = alter (incremented prop amt) id (things_after h)).
  { rewrite things_marked by eauto. done. }
  split.
  - apply (formed_at h _ s pid p' _ tbl' ch' id); [done|done|by apply Hlt| |done| |apply status_idle|].
    + intros i. rewrite Hthings. apply alter_none.
    + intros i Hi'%Hheld. by apply Hlt.
    + intros i c. rewrite Hch. intros [[<- <-] | [_ Hc]]%lookup_insert_Some; [right|by left]. split; [done|by apply Hlt].
  - intros i Hdi. destruct (disturbed_app i l _ Hdi) as [_ Hih]. assert (Hih' : Disturbed i ∉ h) by (intros Hin; apply Hih; by right).
    pose proof (i_calm h s Hi i Hih') as Hc. destruct (decide (i = id)) as [-> | Hne].
    2:{ apply (calm_other h _ s id i pid p Idle); auto; [by rewrite Hthings, lookup_alter_ne|by apply Hup|by rewrite Hch, lookup_insert_ne]. }
    pose proof (not_disturbed _ _ _ _ Hl Hdi) as Hnw.
    destruct (held_copy h s pid p a o id Hi Hih' Hp Ho Hid Hnw) as (c & f & Hcc & Hcok & Hctv & Hcdb & Hty & Hft & Hfdb & Hftv).
    destruct (incr_spec cls cache_ok a id prop amt p o (s_cache s) c (s_table s) p' ch' tbl' (Ok u) Hpok Ho Hid Hcc Hcok Hcdb Hctv
      Hty Hok (fun n => Hfits c n Hcc) Hincr) as (_ & _ & Hint & o' & _ & _ & Hch' & _ & G7 & G8 & G9 & _).
    assert (Htv : tview (view_copy (freeze p' o'))).
    { intros k Hk. change (view_copy (freeze p' o') k) with (view_obj cls p' o' k). rewrite G7. by apply (incremented_tview cls). }
    apply (calm_at _ s id pid _ _ tbl' _ (incremented prop amt f)).
    + apply (others_calm h); [done| |by rewrite Hch, lookup_insert_eq]. intros q x st b Hq Hw. destruct Hnw. by exists q, x, st, b.
    + by rewrite Hthings, lookup_alter_eq, Hft.
    + eapply in_db_ext; [exact G8|]. intros k. apply incremented_same; [done|done|done|]. by apply (in_db_agree (s_table s) id).
    + by apply incremented_tview.
    + done.
    + intros c'. rewrite Hch', lookup_insert_eq. intros [= <-]. split; [done|]. intros _. eapply in_db_ext; [exact G8|].
      intros k. change (view_copy (freeze p' o') k) with (view_obj cls p' o' k). by rewrite G7.
    + apply proc_calm_idle. intros _. by rewrite Hch, lookup_insert_eq.
Qed.

Lemma step_inv h s l s' : inv h s -> step cls s l s' -> inv (l ++ h) s'.
Proof.
  intros Hi Hstep.
  destruct Hstep as [pid s Hp|pid p s Hp|pid p a attr v p' s Hp Hok Hty Hset|pid p id p' a s Hp Hget|pid p ids l s Hp Hread
    |pid p l p' ch' found s Hp Hadd|pid p b attrs p1 a o p' tbl' id s Hp Hb Hbt Hattrs Hinit Ho Hcreate
    |pid p a o id p' tbl' changes marks s Hp Ho Hid Hcommit Hm|pid p a o id p' s Hp Ho Hid Hup
    |cache_ok pid p st id a p' ch' r s Hp Hw Hwrite
    |cache_ok pid p a o id prop amt p' ch' tbl' r marks s Hp Ho Hid Hok Hfits Hincr Hm|id marks s Hm];
    try (destruct (f_procs h s (i_formed h s Hi) pid p _ Hp) as (Hpok & _)).
  - by apply step_start.
  - by eapply step_end.
  - destruct (on_obj_ok cls a attr v p p' Hpok Hok Hty Hset) as [Hp' Hh].
    apply (inv_idle h s pid p); auto. intros i Hi'%Hh. by left.
  - destruct (get_cached_ok cls true (s_cache s) id p p' (Some a) Hpok (copies_ok h s id Hi) Hget) as [Hp' Hh].
    by apply (inv_idle h s pid p).
  - by eapply step_rows.
  - by eapply step_fill.
  - by apply (step_create h s pid p b attrs p1 a o).
  - rewrite <- app_assoc. by apply (step_commit h s pid p a o).
  - destruct (update_from_cache_any cls a id _ p o p' Hpok Ho Hid (copies_ok h s id Hi) Hup) as (Hp' & Hh & _).
    apply (inv_idle h s pid p); auto. intros i Hi'%Hh. by left.
  - by eapply step_write.
  - by apply (step_incr cache_ok h s pid p a o).
  - by apply step_evict.
Qed.

Lemma reachable_inv h s : reachable cls h s -> inv h s.
Proof. induction 1; [apply inv_initially|by eapply step_inv]. Qed.

(** C4. Whatever lookups, creations, commits and increments of many processes
    interleave, the database holds of every thing exactly what the history of
    its creation, commits and increments makes of it: no process overwrites the
    attributes another has changed.  A thing is excepted from when it is
    disturbed, as [step] records: when memcached loses its copy while a
    process has the thing or does not take a new one, or when a process
    changes it while another one's creation or commit of it has not reached
    the cache. *)
Theorem database_follows_history h s :
  reachable cls h s ->
  (forall id f, Disturbed id ∉ h -> things_after h !! id = Some f -> in_db (s_table s) id f) /\
  (forall id, things_after h !! id = None -> t_props (s_table s) !! id = None).
Proof.
  intros [Hf Hc]%reachable_inv. split; [|apply Hf]. intros id f Hd Ht. by apply (c_thing h s id (Hc id Hd)).
Qed.

(** C5. The copy in memcached of a thing that was never disturbed shows the same
    values as the database whenever no commit of the thing is between its
    transaction and its writing of the cache. *)
Theorem shared_copies_agree h s id c :
  reachable cls h s -> Disturbed id ∉ h -> s_cache s !! id = Some c -> ~ locked s id -> in_db (s_table s) id (view_copy c).
Proof. intros [_ Hc]%reachable_inv Hd Hcc. by apply (c_copy h s id (Hc id Hd)). Qed.

(** ** Counters *)

(** Things are created where there was none. *)
Fixpoint once (h : list event) : Prop :=
  match h with
  | [] => True
  | Created id _ :: h => things_after h !! id = None /\ once h
  | _ :: h => once h
  end.

Lemma once_marks d id l h : disturbs d id l -> once h -> once (l ++ h).
Proof. by intros [[-> _] | [-> _]]. Qed.

Lemma step_once h s l s' : inv h s -> step cls s l s' -> once h -> once (l ++ h).
Proof.
  intros Hi Hstep Ho. destruct Hstep as [| | | | | |pid p b attrs p1 a o p' tbl' id s Hp Hb Hbt Hattrs Hinit Hao Hcreate
    |pid p a o id p' tbl' changes marks s _ _ _ _ Hm| |cache_ok| cache_ok pid p a o id prop amt p' ch' tbl' r marks s _ _ _ _ _ _ Hm|];
    try done.
  - split; [|done]. destruct (things_after h !! id) as [f|] eqn:Ef; [exfalso|done].
    pose proof (f_dom h s (i_formed h s Hi) id) as Hlt. rewrite Ef in Hlt. specialize (Hlt (mk_is_Some _ _ eq_refl)).
    unfold create_db in Hcreate. rewrite Hao in Hcreate. injection Hcreate as _ _ <-. lia.
  - rewrite <- app_assoc. by eapply once_marks.
  - by destruct cache_ok.
  - destruct r; [|done]. rewrite <- app_assoc. by eapply once_marks.
  - by eapply once_marks.
Qed.

Lemma reachable_once h s : reachable cls h s -> once h.
Proof. induction 1 as [|h s l s' Hr IH Hstep]; [done|]. eapply step_once; [by apply reachable_inv|done|done]. Qed.

(** The sum of the increments of an attribute of a thing. *)
Definition total (id : Z) (prop : string) (h : list event) : Z :=
  zsum_map (fun e => match e with
    | Incremented i p amt => if bool_decide (i = id /\ p = prop) then amt else 0
    | _ => 0
    end) h.

(** No commit of a thing that changes an attribute. *)
Definition only_incremented (id : Z) (prop : string) (e : event) : Prop :=
  match e with Committed i changes => i = id -> changes !! prop = None | _ => True end.

(** C6. Increments are never lost: an attribute that is only incremented after
    its thing was created shows its first value and the sum of all increments,
    whichever processes made them, for as long as the thing is not disturbed:
    as long as memcached keeps its copy while a process has it and takes new
    ones, and no process changes it while another one's creation or commit of
    it has not reached the cache. *)
Theorem increments_add_up h2 h1 s id prop f n :
  reachable cls (h2 ++ Created id f :: h1) s -> Disturbed id ∉ h2 ++ Created id f :: h1 ->
  Forall (only_incremented id prop) h2 -> f prop = VInt n ->
  exists g, in_db (s_table s) id g /\ g prop = VInt (n + total id prop h2).
Proof.
  intros Hr Hd Hall Hf.
  cut (exists g, things_after (h2 ++ Created id f :: h1) !! id = Some g /\ g prop = VInt (n + total id prop h2)).
  { intros (g & Hg & Hv). exists g. split; [|done]. apply reachable_inv in Hr as [_ Hc]. by apply (c_thing _ s id (Hc id Hd)). }
  apply reachable_once in Hr as Ho. clear Hr Hd. induction Hall as [|e h2 He _ IH].
  { exists f. simpl. rewrite lookup_insert_eq. split; [done|]. rewrite Hf. unfold total, zsum_map. simpl. by rewrite Z.add_0_r. }
  unfold total. rewrite zsum_map_cons. fold (total id prop h2). simpl app in *.
  destruct e as [i f'|i changes|i p amt|i]; cbn [things_after once] in *.
  - destruct Ho as [Hnone Ho]. destruct (IH Ho) as (g & Hg & Hv). destruct (decide (i = id)) as [-> | Hne]; [congruence|].
    exists g. rewrite lookup_insert_ne by done. split; [done|]. rewrite Hv. f_equal; lia.
  - destruct (IH Ho) as (g & Hg & Hv). destruct (decide (i = id)) as [-> | Hne].
    + exists (over changes g). rewrite lookup_alter_eq, Hg. split; [done|]. unfold over. rewrite He by done. rewrite Hv. f_equal; lia.
    + exists g. rewrite lookup_alter_ne by done. split; [done|]. rewrite Hv. f_equal; lia.
  - destruct (IH Ho) as (g & Hg & Hv). destruct (decide (i = id)) as [-> | Hne].
    + exists (incremented p amt g). rewrite lookup_alter_eq, Hg. split; [done|]. unfold incremented.
      destruct (String.eqb_spec prop p) as [<- | Hp].
      * rewrite Hv, bool_decide_true by done. f_equal; lia.
      * rewrite Hv, bool_decide_false by naive_solver. f_equal; lia.
    + exists g. rewrite lookup_alter_ne by done. split; [done|]. rewrite Hv, bool_decide_false by naive_solver. f_equal; lia.
  - destruct (IH Ho) as (g & Hg & Hv). exists g. split; [done|]. rewrite Hv. f_equal; lia.
Qed.
End system.
End ThingSystemProps.
