(* ===== verification/ThingLookup.v ===== *)
(** * Lookups of things

    What [_byID] gives: for every id the object of the local cache, or one
    that shows the copy of memcached, or one that shows the rows of the
    database, and an error exactly when an id that may not be missing is
    nowhere. *)

From S2P Require Import Prelude Tdb TdbProps Thing ThingProps.

Module ThingLookup.
Import Tdb TdbProps Thing ThingProps.

Section lookup.
Context `{C : Codecs} `{!CodecLaws C} `{N : Numbers} `{!NumberLaws C N} (cls : class) (tbl : table).

(** The copies of memcached are of stored objects without changes. *)
Definition copies_ok (ch : memcache) : Prop := forall id c, ch !! id = Some c -> copy_ok cls c.

(** What a lookup has to show of an id that is not in the local cache: the
    copy of memcached, or else the rows. *)
Definition source (ch : memcache) (id : Z) : res (option copy) :=
  match ch !! id with Some c => Ok (Some c) | None => read_row cls tbl id end.

(** Lookups only add objects. *)
Definition extends (p p' : process) : Prop := objs p `prefix_of` objs p' /\ dicts p `prefix_of` dicts p'.

(** An object that shows a copy. *)
Definition shows (p : process) (id : Z) (a : nat) (c : copy) : Prop :=
  exists o, objs p !! a = Some o /\ o_id o = Some id /\ view_obj cls p o = view_copy cls c.

Lemma shows_extends p p' id a c : process_ok cls p -> extends p p' -> shows p id a c -> shows p' id a c.
Proof.
  intros Hp [Ho Hd] (o & Hoa & Hid & Hdb). exists o. split; [by eapply prefix_lookup_Some|]. split; [done|].
  assert (E : view_obj cls p' o = view_obj cls p o); [|by rewrite E]. unfold view_obj, dict_of. f_equal. f_equal.
  pose proof (ob_ref cls _ _ (p_objs cls p Hp a o Hoa)) as Hlt. destruct (lookup_lt_is_Some_2 _ _ Hlt) as [d Hl].
  rewrite Hl. by eapply prefix_lookup_Some.
Qed.

Lemma extends_thaw id c p : extends p (thaw id c p).1.
Proof. split; simpl; by apply prefix_app_r. Qed.

Lemma thaw_shows id c p : shows (thaw id c p).1 id (thaw id c p).2 c.
Proof.
  eexists. simpl. rewrite list_lookup_middle by done. split; [done|]. split; [done|].
  unfold view_obj, dict_of. simpl. by rewrite list_lookup_middle.
Qed.

(** ** From the caches *)

Record cached_so_far (ch : memcache) (p : process) (done : list Z) (r : process * gmap Z nat) : Prop := {
  cs_ok : process_ok cls r.1;
  cs_extends : extends p r.1;
  cs_found id a : r.2 !! id = Some a ->
    id ∈ done /\ (local p !! id = Some a \/ (local p !! id = None /\ exists c, ch !! id = Some c /\ shows r.1 id a c));
  cs_missing id : id ∈ done -> r.2 !! id = None -> local p !! id = None /\ ch !! id = None;
  cs_local id : local r.1 !! id = match local p !! id with Some a => Some a | None => r.2 !! id end
}.

Lemma get_all_spec ch p ids :
  process_ok cls p -> copies_ok ch -> cached_so_far ch p ids (get_all_cached ch ids p).
Proof.
  intros Hp Hch. unfold get_all_cached.
  assert (H0 : cached_so_far ch p [] (p, ∅)).
  { split; simpl; [done|by split|..].
    - intros id a. by rewrite lookup_empty.
    - intros id Hin. by apply elem_of_nil in Hin.
    - intros id. rewrite lookup_empty. by destruct (local p !! id). }
  rewrite <- (app_nil_l ids) at 1. revert H0. generalize (p, ∅ : gmap Z nat) as r. generalize ([] : list Z) as l.
  induction ids as [|id ids IH]; intros l r Hr; simpl; [by rewrite app_nil_r|].
  rewrite (cons_middle id l ids), app_assoc. apply IH. clear IH. destruct Hr as [R1 R2 R3 R4 R5].
  unfold get_cached. destruct (local r.1 !! id) as [a|] eqn:El; [|destruct (ch !! id) as [c|] eqn:Ec]; simpl.
  - split; simpl; [done|done|..].
    + intros i b. rewrite lookup_insert_Some, elem_of_app, list_elem_of_singleton. intros [[<- <-] | [_ Hb]].
      * split; [by right|]. rewrite R5 in El. destruct (local p !! id) as [a'|] eqn:Elp; [left; done|right]. split; [done|].
        destruct (R3 id a El) as [_ [Habs | [_ Hs]]]; [congruence|done].
      * destruct (R3 i b Hb). split; [by left|done].
    + intros i [Hi | ->%list_elem_of_singleton]%elem_of_app [Hn Hne]%lookup_insert_None; [by apply R4|done].
    + intros i. rewrite R5. destruct (local p !! i) eqn:Ei; [done|]. destruct (decide (i = id)) as [-> | Hne].
      * rewrite lookup_insert_eq, <- El, R5, Ei. done.
      * by rewrite lookup_insert_ne.
  - pose proof (Hch id c Ec) as Hc. destruct (thaw_ok cls id c r.1 R1 Hc) as [Hok _].
    rewrite R5 in El. destruct (local p !! id) as [a'|] eqn:Elp; [discriminate El|].
    split; simpl; [exact Hok| |..].
    + destruct R2 as [G1 G2]. destruct (extends_thaw id c r.1) as [G3 G4]. split; etrans; eauto.
    + intros i b. rewrite lookup_insert_Some, elem_of_app, list_elem_of_singleton. intros [[<- <-] | [_ Hb]].
      * split; [by right|]. right. split; [done|]. exists c. split; [done|]. by apply (thaw_shows id c r.1).
      * destruct (R3 i b Hb) as [Hi Hs]. split; [by left|]. destruct Hs as [Hs | (Hs1 & c' & Hs2 & Hs3)]; [by left|]. right. split; [done|].
        exists c'. split; [done|]. apply (shows_extends r.1); [done|by apply extends_thaw|done].
    + intros i [Hi | ->%list_elem_of_singleton]%elem_of_app [Hn Hne]%lookup_insert_None; [by apply R4|done].
    + intros i. destruct (decide (i = id)) as [-> | Hne].
      * by rewrite !lookup_insert_eq, Elp.
      * rewrite !lookup_insert_ne by done. apply R5.
  - rewrite R5 in El. destruct (local p !! id) as [a'|] eqn:Elp; [discriminate El|].
    split; simpl; [done|done|..|done].
    + intros i b Hb. destruct (R3 i b Hb). split; [apply elem_of_app; by left|done].
    + intros i [Hi | ->%list_elem_of_singleton]%elem_of_app Hn; [by apply R4|done].
Qed.

(** ** From the database *)

(** Objects of the copies of a list, and the copies put into memcached where
    there was none. *)
Definition added (l : list (Z * copy)) (ch ch' : memcache) : Prop :=
  forall id, ch' !! id = match ch !! id with Some c => Some c | None => (list_to_map l : gmap Z copy) !! id end.

Lemma add_things_shows l p ch p' ch' found :
  process_ok cls p -> (forall id c, (id, c) ∈ l -> copy_ok cls c) -> NoDup l.*1 ->
  add_things l (p, ch) = (p', ch', found) ->
  process_ok cls p' /\ extends p p' /\ added l ch ch' /\
  (forall id a, found !! id = Some a -> exists c, (id, c) ∈ l /\ shows p' id a c) /\ (forall id, id ∈ l.*1 -> is_Some (found !! id)).
Proof.
  unfold add_things. cbn [fst snd]. intros Hp Hl Hnd.
  cut (forall m : gmap Z nat, 
    foldl (fun r ic => let '(p, ch, found) := r in
      let q := thaw ic.1 ic.2 p in
      let p := match local q.1 !! ic.1 with Some _ => q.1 | None => set_local ic.1 q.2 q.1 end in
      let ch := match ch !! ic.1 with Some _ => ch | None => <[ic.1 := ic.2]> ch end in
      (p, ch, <[ic.1 := q.2]> found)) (p, ch, m) l = (p', ch', found) ->
    process_ok cls p' /\ extends p p' /\ added l ch ch' /\
    (forall id a, found !! id = Some a -> m !! id = Some a \/ exists c, (id, c) ∈ l /\ shows p' id a c) /\
    (forall id, is_Some (m !! id) \/ id ∈ l.*1 -> is_Some (found !! id))).
  { intros Hgen Hrun. destruct (Hgen ∅ Hrun) as (G1 & G2 & G3 & G4 & G5). split_and!; [done..| |].
    - intros id a Ha. destruct (G4 id a Ha) as [Hn | Hs]; [by rewrite lookup_empty in Hn|done].
    - intros id Hin. apply G5. by right. }
  revert p ch Hp Hl Hnd. induction l as [|[id c] l IH]; intros p ch Hp Hl Hnd m Hrun.
  { simpl in Hrun. injection Hrun as <- <- <-. split; [done|]. split; [by split|]. split; [|split].
    - intros id. simpl. rewrite lookup_empty. by destruct (ch !! id).
    - by left.
    - intros id [Hs | Hin]; [done|]. by apply elem_of_nil in Hin. }
  cbn [foldl fst snd] in Hrun. cbv zeta in Hrun. assert (Hc : copy_ok cls c) by (apply (Hl id); by left).
  rewrite fmap_cons in Hnd. apply NoDup_cons in Hnd as [Hni Hnd]. simpl in Hni.
  destruct (thaw_ok cls id c p Hp Hc) as [Hp1 Hp2].
  set (p1 := match local (thaw id c p).1 !! id with Some _ => _ | None => _ end) in Hrun.
  set (ch1 := match ch !! id with Some _ => ch | None => <[id := c]> ch end) in Hrun.
  assert (Hsame : objs p1 = objs (thaw id c p).1 /\ dicts p1 = dicts (thaw id c p).1) by (unfold p1; by destruct (local _ !! id)).
  assert (Hok1 : process_ok cls p1) by (unfold p1; destruct (local _ !! id); done).
  assert (Hext : extends p p1) by (destruct Hsame as [E1 E2]; unfold extends; rewrite E1, E2; apply extends_thaw).
  assert (Hnew : shows p1 id (thaw id c p).2 c).
  { destruct Hsame as [E1 E2]. destruct (thaw_shows id c p) as (o & Ho & Hid & Hdb'). exists o. rewrite E1. split; [done|]. split; [done|].
    assert (E : view_obj cls p1 o = view_obj cls (thaw id c p).1 o) by (unfold view_obj, dict_of; by rewrite E2). by rewrite E. }
  destruct (IH p1 ch1 Hok1) with (m := <[id := (thaw id c p).2]> m) as (G1 & G2 & G3 & G4 & G5); [|done|exact Hrun|].
  { intros i c' Hin. apply (Hl i). by right. }
  split; [done|]. split; [destruct Hext, G2; split; by etrans|]. split; [|split].
  - intros i. rewrite (G3 i). simpl. unfold ch1. destruct (decide (i = id)) as [-> | Hne].
    + rewrite lookup_insert_eq. destruct (ch !! id) eqn:E; [by rewrite E|by rewrite lookup_insert_eq].
    + rewrite lookup_insert_ne by done. destruct (ch !! id) eqn:E; [done|]. by rewrite lookup_insert_ne.
  - intros i a Ha. destruct (G4 i a Ha) as [Hi | (c' & Hin & Hs)]; [|right; exists c'; split; [by right|done]].
    apply lookup_insert_Some in Hi as [[<- <-] | [_ Hi]]; [right|by left]. exists c. split; [by left|by apply (shows_extends p1)].
  - intros i Hi. apply G5. rewrite fmap_cons, elem_of_cons in Hi. rewrite lookup_insert_is_Some'. destruct Hi as [Hi | [-> | Hi]]; auto.
Qed.

Lemma forallb_false {A} (f : A -> bool) l : forallb f l = false -> exists x, x ∈ l /\ f x = false.
Proof.
  induction l as [|x l IH]; simpl; [done|]. intros [Hx | Hl]%andb_false_iff.
  - exists x. split; [by left|done].
  - destruct (IH Hl) as (y & Hy & Hfy). exists y. split; [by right|done].
Qed.

Lemma read_row_ok id c : read_row cls tbl id = Ok (Some c) -> full cls (c_base c) -> copy_ok cls c.
Proof.
  intros Hr%read_row_db_copy Hf. unfold db_copy in Hr. destruct (t_props tbl !! id); [|done].
  destruct (res_map _ _); [|done]. by injection Hr as <-.
Qed.

Lemma omap_keys (l : list (Z * option copy)) :
  NoDup l.*1 -> NoDup (omap (M := list) (fun ic : Z * option copy => (fun c => (ic.1, c)) <$> ic.2) l).*1.
Proof.
  induction l as [|[id [c|]] l IH]; intros Hnd; [constructor|..]; rewrite fmap_cons in Hnd; apply NoDup_cons in Hnd as [Hn Hnd]; simpl;
    [constructor|]; auto.
  intros ([i c'] & E & ([i' oc] & Hin & Hoc)%list_elem_of_omap)%list_elem_of_fmap. simpl in *.
  destruct oc as [c''|]; [|done]. simplify_eq/=. apply Hn, list_elem_of_fmap. by exists (i, Some c').
Qed.

(** The rows of some ids. *)
Lemma rows_of ids :
  (forall id, id ∈ ids -> exists oc, read_row cls tbl id = Ok oc) ->
  exists l, read_rows cls tbl ids = Ok l /\ NoDup l.*1 /\
    forall id c, (id, c) ∈ l <-> id ∈ ids /\ read_row cls tbl id = Ok (Some c).
Proof.
  intros Hids. unfold read_rows.
  set (g := fun id => (id, match read_row cls tbl id with Ok oc => oc | Raise _ => None end)).
  rewrite (res_mapM_fmap _ g).
  - cbn [res_bind]. eexists. split; [reflexivity|]. split.
    { apply omap_keys. rewrite <- list_fmap_compose. change (fst ∘ g) with (fun x : Z => x). rewrite list_fmap_id. apply NoDup_remove_dups. }
    intros id c. rewrite list_elem_of_omap. split.
    + intros ([i oc] & Hin & Hoc). apply list_elem_of_fmap in Hin as (j & [= -> ->] & Hj). rewrite elem_of_remove_dups in Hj.
      destruct (Hids j Hj) as [oc Hr]. rewrite Hr in Hoc. simpl in Hoc. destruct oc as [c'|]; [|done]. by injection Hoc as -> ->.
    + intros [Hid Hr]. exists (g id). split; [apply list_elem_of_fmap; exists id; split; [done|by apply elem_of_remove_dups]|].
      unfold g. simpl. by rewrite Hr.
  - intros id Hid. rewrite elem_of_remove_dups in Hid. destruct (Hids id Hid) as (oc & Hr). unfold g. by rewrite Hr.
Qed.

Lemma range_test ids :
  existsb (fun id => (MAX_THING_ID <? id) || (id <? MIN_THING_ID)) ids = negb (bool_decide (Forall (fun id => MIN_THING_ID <= id <= MAX_THING_ID) ids)).
Proof.
  induction ids as [|id l IH]; [done|]. cbn [existsb]. rewrite IH, (bool_decide_ext _ _ (Forall_cons _ _ _)), bool_decide_and.
  destruct (bool_decide (Forall _ l)); case_bool_decide; simpl; lia.
Qed.

End lookup.
End ThingLookup.
