(* ===== verification/ThingExamples.v ===== *)
(** * Things on a concrete class

    Codecs and numbers with the laws, a class of links, instances of the
    theorems of ThingSystemProps on two interleaved processes, and behaviours
    of the code as written that its comments do not announce. *)

From S2P Require Import Prelude Tdb TdbProps TdbExamples Thing ThingProps ThingCounters ThingSystem ThingSystemProps ThingLookup.
From Stdlib Require Import Ascii.

Module ThingExamples.
Import Tdb TdbProps TdbExamples Thing ThingProps ThingCounters ThingSystem ThingSystemProps ThingLookup.

(** ** Codecs and numbers *)

(** Floats in tenths, of which the text gives the whole part only. *)
Definition float_text_of (f : Z) : string := "f" +:+ py_str_int (f / 10).

Definition float_of_text (s : string) : option Z :=
  match s with String "f" s => (fun n => n * 10) <$> py_int_str s | _ => None end.

#[local] Instance row_codecs : Codecs := {|
  pickle_dumps := demo_dumps; pickle_loads := demo_loads; json_dumps := demo_dumps; json_loads := demo_loads;
  float_str := float_text_of; float_of := float_of_text; date_str := py_str_int; obj_str := py_str_int;
  float_int := fun _ => None; float_true := fun _ => true; obj_true := fun _ => true;
  pack_date := demo_pack; unpack_date := demo_unpack;
  validated := fun v => match v with VDate d => Ok (CDate d) | _ => Raise TypeError end;
  uuid_date := fun _ => VNone; seconds_date := fun n => n
|}.

#[local] Arguments py_str_int : simpl never.
#[local] Arguments py_int_str : simpl never.

#[local] Program Instance row_laws : CodecLaws row_codecs := {| json_ok := fun _ => True; precise := fun d => 0 <= d < 256 |}.
Next Obligation. intros. apply demo_roundtrip. Qed.
Next Obligation. intros. apply demo_roundtrip. Qed.
Next Obligation.
  intros d Hd. eexists. split; [done|]. split; [done|]. cbn [unpack_date row_codecs].
  rewrite demo_unpack_pack. by apply Z.mod_small.
Qed.
Next Obligation. done. Qed.
Next Obligation.
  intros d. eexists. split; [done|]. split; [done|]. cbn [unpack_date row_codecs].
  rewrite demo_unpack_pack. by apply Z.mod_pos_bound.
Qed.

#[local] Instance row_numbers : Numbers := {|
  float_add := fun f _ => f; sql_incr := fun s amt => (fun n => py_str_int (n + amt)) <$> py_int_str s
|}.

#[local] Program Instance row_number_laws : NumberLaws row_codecs row_numbers.
Next Obligation.
  intros f _. cbn [float_str row_codecs]. unfold float_text_of. assert (E : forall s, py_int_str ("f" +:+ s) = None); [|by rewrite E].
  intros s. change ("f" +:+ s) with (String "f" s). unfold py_int_str, DecimalString.NilZero.int_of_string,
    DecimalString.NilZero.uint_of_string. cbn. by destruct (DecimalString.NilEmpty.uint_of_string s).
Qed.
Next Obligation.
  intros s n amt Hs _ _. exists (py_str_int (n + amt)). cbn [sql_incr row_numbers]. rewrite Hs. split; [done|]. apply py_int_str_int.
Qed.

(** ** Links *)

Definition link_class : class :=
  Class ["_ups"; "_downs"; "_date"; "_deleted"; "_spam"] ["_ups"; "_downs"] ["num_comments"] (Some "_count")
    {[ "num_comments" := VInt 0; "over_18" := VBool false ]} ["title"].

#[local] Instance link_class_ok : ClassOk link_class.
Proof.
  split.
  - intros k Hk. simpl in Hk. repeat (apply elem_of_cons in Hk as [-> | Hk]; [reflexivity|]). by apply elem_of_nil in Hk.
  - intros k Hk. simpl in Hk. repeat (apply elem_of_cons in Hk as [-> | Hk]; [by apply (bool_decide_unpack _)|]). by apply elem_of_nil in Hk.
  - intros k Hk Hin. simpl in Hin.
    repeat (apply elem_of_cons in Hin as [-> | Hin]; [vm_compute in Hk; discriminate Hk|]). by apply elem_of_nil in Hin.
  - intros k v Hv. simpl in Hv. apply lookup_insert_Some in Hv as [[<- <-] | [_ [<- <-]%lookup_singleton_Some]]; (split; [done|]);
      intros Hint; [by eexists|].
    destruct Hint as [Hint | Hint]; [|vm_compute in Hint; discriminate Hint]. simpl in Hint.
    apply elem_of_cons in Hint as [Hint | Hint]; [discriminate Hint|]. apply list_elem_of_singleton in Hint. discriminate Hint.
Qed.

Definition link_base : gmap string value :=
  {[ "_ups" := VInt 1; "_downs" := VInt 0; "_date" := VDate 7; "_deleted" := VBool false; "_spam" := VBool false ]}.

Definition new_link : res (process * nat) := init link_class link_base [("title", VStr "a link")] (Process [] [] ∅).

Definition get_ok {A} (d : A) (r : res A) : A := match r with Ok x => x | Raise _ => d end.

(** A process that has created the link, and one that has looked it up. *)
Definition no_process : process := Process [] [] ∅.
Definition no_table : table := Table ∅ ∅ 1.
Definition new_obj : obj := Eval vm_compute in default (Obj None ∅ 0 ∅ false) (objs (get_ok (no_process, 0%nat) new_link).1 !! 0%nat).
Definition created_rows := Eval vm_compute in create_db 0 (get_ok (no_process, 0%nat) new_link).1 no_table.
Definition made := commit link_class true 0 (get_ok (no_process, 0%nat) new_link).1 ∅ no_table.
Definition author := Eval vm_compute in made.1.1.1.
Definition shared := Eval vm_compute in made.1.1.2.
Definition stored_rows := Eval vm_compute in made.1.2.
Definition reader := Eval vm_compute in (get_cached true shared 1 no_process).1.

(** ** Two processes *)

Definition set_at (a : nat) (attr : string) (v : value) (p : process) : process :=
  get_ok p (on_obj a (setattr link_class attr v true) p).

(** The reader marks the link as the author counts a comment; the reader's
    commit takes over the count. *)
Definition counted := Eval vm_compute in incr link_class true 0 "num_comments" 1 author shared stored_rows.
Definition marking := Eval vm_compute in set_at 0 "over_18" (VBool true) reader.
Definition marked := Eval vm_compute in
  get_ok (no_process, no_table, ∅) (commit_db link_class 0 1 counted.1.1.2 marking counted.1.2).
Definition finished := Eval vm_compute in write_cache true 0 1 marked.1.1 counted.1.1.2.

Definition run0 : system := System (Table ∅ ∅ 1) ∅ ∅.
Definition run1 : system := set_proc 0 no_process Idle run0.
Definition run1' : system := System created_rows.1.2 ∅ (<[0%nat := (created_rows.1.1, Creating 1 0)]> (s_procs run1)).
Definition run2 : system := System stored_rows shared (<[0%nat := (author, Idle)]> (s_procs run1')).
Definition run3 : system := set_proc 1 no_process Idle run2.
Definition run4 : system := set_proc 1 reader Idle run3.
Definition run5 : system := set_proc 1 marking Idle run4.
Definition run6 : system := System counted.1.2 counted.1.1.2 (<[0%nat := (counted.1.1.1, Idle)]> (s_procs run5)).
Definition run7 : system := System marked.1.2 (s_cache run6) (<[1%nat := (marked.1.1, Committing 1 0)]> (s_procs run6)).
Definition run8 : system := System (s_table run7) finished.1.2 (<[1%nat := (finished.1.1, Idle)]> (s_procs run7)).

Definition first_view : string -> value := view_obj link_class (get_ok (no_process, 0%nat) new_link).1 new_obj.

Definition mark : gmap string (value * value) := {[ "over_18" := (VBool false, VBool true) ]}.

Definition history : list event := [Committed 1 mark; Incremented 1 "num_comments" 1; Created 1 first_view].

Lemma mark_attr_ok k : k ∈ ["over_18"; "num_comments"; "title"] -> attr_ok link_class k.
Proof.
  intros Hk Hp. repeat (apply elem_of_cons in Hk as [-> | Hk]; [vm_compute in Hp; discriminate Hp|]). by apply elem_of_nil in Hk.
Qed.

Lemma not_counter k v : k ∈ ["over_18"; "title"] -> kept v -> typed link_class k v.
Proof.
  intros Hk Hv. split; [done|]. intros Hint. exfalso. apply elem_of_cons in Hk as [-> | Hk]; [|apply list_elem_of_singleton in Hk as ->];
    (destruct Hint as [Hint | Hint]; [|vm_compute in Hint; discriminate Hint]);
    apply (bool_decide_eq_true_2 _) in Hint; vm_compute in Hint; discriminate Hint.
Qed.

Lemma base_typed k v : link_base !! k = Some v -> typed link_class k v.
Proof.
  intros Hv. unfold link_base in Hv. rewrite !lookup_insert_Some, lookup_singleton_Some in Hv.
  destruct Hv as [[<- <-] | [_ [[<- <-] | [_ [[<- <-] | [_ [[<- <-] | [_ [<- <-]]]]]]]]]; (split; [exact I|]); intros Hint;
    try (eexists; reflexivity); exfalso;
    (destruct Hint as [Hint | Hint]; [|vm_compute in Hint; discriminate Hint]);
    apply (bool_decide_eq_true_2 _) in Hint; vm_compute in Hint; discriminate Hint.
Qed.

(** Nobody has anything to write, or is committing: the processes are idle. *)
Definition all_idle (s : system) : bool := forallb (fun x => match x.2.2 with Idle => true | _ => false end) (map_to_list (s_procs s)).

Lemma idle_quiet s : all_idle s = true -> (forall id, ~ unwritten s id) /\ (forall id, ~ locked s id).
Proof.
  unfold all_idle. rewrite forallb_forall. intros Hall.
  assert (H : forall pid p st, s_procs s !! pid = Some (p, st) -> st = Idle).
  { intros pid p st Hp. apply elem_of_map_to_list, list_elem_of_In, Hall in Hp. simpl in Hp. by destruct st. }
  split.
  - intros id (pid & p & st & a & Hp & Hw). apply H in Hp as ->. discriminate Hw.
  - intros id (pid & p & a & Hp). apply H in Hp. discriminate Hp.
Qed.

Lemma run2_reachable : reachable link_class [Created 1 first_view] run2.
Proof.
  assert (H1 : reachable link_class [] run1).
  { apply (then_step link_class [] run0 [] run1); [apply initially|]. by apply (start_request link_class 0). }
  assert (H1' : reachable link_class [Created 1 first_view] run1').
  { refine (then_step link_class [] run1 [Created 1 first_view] run1' H1 _).
    apply (create_rows link_class 0 no_process link_base [("title", VStr "a link")] (get_ok (no_process, 0%nat) new_link).1 0 new_obj).
    - vm_compute. reflexivity.
    - vm_compute. reflexivity.
    - exact base_typed.
    - apply Forall_cons. split; [|apply Forall_nil; exact I]. split; [apply mark_attr_ok|apply not_counter; [|exact I]]; by apply (bool_decide_unpack _).
    - vm_compute. reflexivity.
    - vm_compute. reflexivity.
    - vm_compute. reflexivity. }
  refine (then_step link_class _ run1' [] run2 H1' _).
  apply (write_copy link_class true 0 created_rows.1.1 (Creating 1 0) 1 0 author shared (Ok tt) run1'); vm_compute; reflexivity.
Qed.

Lemma run5_reachable : reachable link_class [Created 1 first_view] run5.
Proof.
  assert (H3 : reachable link_class [Created 1 first_view] run3).
  { refine (then_step link_class _ run2 [] run3 run2_reachable _). apply (start_request link_class 1). vm_compute. reflexivity. }
  assert (H4 : reachable link_class [Created 1 first_view] run4).
  { refine (then_step link_class _ run3 [] run4 H3 _). apply (lookup_cached link_class 1 no_process 1 reader 0); vm_compute; reflexivity. }
  refine (then_step link_class _ run4 [] run5 H4 _).
  apply (set_attribute link_class 1 reader 0 "over_18" (VBool true) marking).
  - vm_compute. reflexivity.
  - apply mark_attr_ok. by apply (bool_decide_unpack _).
  - apply not_counter; [|exact I]. by apply (bool_decide_unpack _).
  - vm_compute. reflexivity.
Qed.

Lemma run6_reachable : reachable link_class [Incremented 1 "num_comments" 1; Created 1 first_view] run6.
Proof.
  refine (then_step link_class _ run5 [Incremented 1 "num_comments" 1] run6 run5_reachable _).
  refine (increment link_class true 0 author 0 _ 1 "num_comments" 1 counted.1.1.1 counted.1.1.2 counted.1.2 (Ok tt) [] run5 _ _ _ _ _ _ _).
  - vm_compute. reflexivity.
  - vm_compute. reflexivity.
  - reflexivity.
  - apply mark_attr_ok. by apply (bool_decide_unpack _).
  - intros c n Hc Hn. vm_compute in Hc. injection Hc as <-. vm_compute in Hn. injection Hn as <-. split; vm_compute; reflexivity.
  - vm_compute. reflexivity.
  - left. split; [reflexivity|]. apply idle_quiet. vm_compute. reflexivity.
Qed.

Lemma run8_reachable : reachable link_class history run8.
Proof.
  assert (H7 : reachable link_class history run7).
  { refine (then_step link_class _ run6 [Committed 1 mark] run7 run6_reachable _).
    apply (commit_rows link_class 1 marking 0 (Obj (Some 1) link_base 0 mark true) 1 marked.1.1 marked.1.2 marked.2 [] run6).
    - vm_compute. reflexivity.
    - vm_compute. reflexivity.
    - reflexivity.
    - vm_compute. reflexivity.
    - left. split; [reflexivity|]. apply idle_quiet. vm_compute. reflexivity. }
  refine (then_step link_class _ run7 [] run8 H7 _).
  apply (write_copy link_class true 1 marked.1.1 (Committing 1 0) 1 0 finished.1.1 finished.1.2 (Ok tt) run7); vm_compute; reflexivity.
Qed.

Lemma calm_history : Disturbed 1 ∉ history.
Proof. intros Hin. repeat (apply elem_of_cons in Hin as [Hin | Hin]; [discriminate Hin|]). by apply elem_of_nil in Hin. Qed.

Lemma database_follows_history_witness :
  exists g, in_db link_class (s_table run8) 1 g /\ g "over_18" = VBool true /\ g "num_comments" = VInt 1.
Proof.
  destruct (database_follows_history link_class history run8 run8_reachable) as [Hdb _].
  eexists. split; [apply (Hdb 1); [exact calm_history|vm_compute; reflexivity]|]. split; vm_compute; reflexivity.
Defined.

Lemma shared_copies_agree_witness :
  exists c, s_cache run8 !! 1 = Some c /\ in_db link_class (s_table run8) 1 (view_copy link_class c).
Proof.
  eexists. split; [vm_compute; reflexivity|]. eapply (shared_copies_agree link_class history run8 1).
  - apply run8_reachable.
  - exact calm_history.
  - vm_compute. reflexivity.
  - apply idle_quiet. vm_compute. reflexivity.
Defined.

Lemma increments_add_up_witness :
  exists g, in_db link_class (s_table run8) 1 g /\ g "num_comments" = VInt 1.
Proof.
  apply (increments_add_up link_class [Committed 1 mark; Incremented 1 "num_comments" 1] [] run8 1 "num_comments" first_view 0).
  - apply run8_reachable.
  - exact calm_history.
  - apply Forall_cons. split; [intros _; vm_compute; reflexivity|]. apply Forall_cons. split; [exact I|apply Forall_nil; exact I].
  - vm_compute. reflexivity.
Defined.


(** ** Behaviours of the code as written *)

Definition shown (p : process) (a : nat) (attr : string) : option (res value) :=
  (fun o => getattr link_class attr (o, dict_of p o)) <$> objs p !! a.

(** When the copy has been evicted, a commit writes the whole object to the
    cache without reading the database, with what another process has changed
    since as it was before. *)
Example evicted_copy_goes_stale :
  let r1 := commit link_class true 0 (set_at 0 "title" (VStr "edited") author) shared stored_rows in
  let ch := delete 1 r1.1.1.2 in
  let r2 := commit link_class true 0 (set_at 0 "over_18" (VBool true) reader) ch r1.1.2 in
  (view_copy link_class <$> db_copy r2.1.2 1) ≫= (fun f => Some (f "title")) = Some (VBytes "edited") /\
  (view_copy link_class <$> r2.1.1.2 !! 1) ≫= (fun f => Some (f "title")) = Some (VStr "a link").
Proof. split; vm_compute; reflexivity. Qed.

(** [None] does not count as a change of an attribute without a value or a
    default: it is there until the commit, which takes it away. *)
Example none_not_stored :
  let p := set_at 0 "flair" VNone author in
  shown p 0 "flair" = Some (Ok VNone) /\
  shown (commit link_class true 0 p shared stored_rows).1.1.1 0 "flair" = Some (Raise AttributeError).
Proof. split; vm_compute; reflexivity. Qed.

(** After a commit that finds nothing to write, the object in the local cache
    is another one with the same dictionary: a lookup gives an object that
    shows what is set afterwards, without counting it as a change. *)
Example commit_shares_dictionary :
  let p := (commit link_class true 0 author shared stored_rows).1.1.1 in
  let p' := set_at 0 "title" (VStr "draft") p in
  get_cached true shared 1 p' = (p', Some 1%nat) /\ shown p' 1 "title" = Some (Ok (VStr "draft")) /\
  (o_dirties <$> objs p' !! 1%nat) = Some ∅.
Proof. split_and!; vm_compute; reflexivity. Qed.

(** An increment that could not be cached is rolled back, but the object of
    the process shows it. *)
Example failed_increment_shown :
  let r := incr link_class false 0 "num_comments" 1 author shared stored_rows in
  r.2 = Raise MemcachedError /\ r.1.2 = stored_rows /\ r.1.1.2 = shared /\ shown r.1.1.1 0 "num_comments" = Some (Ok (VInt 1)).
Proof. split_and!; vm_compute; reflexivity. Qed.

(** A new thing is in the database before it is in the cache: what a process
    that finds it in between commits is lost from the cache when the first one
    writes it, without a lock. *)
Example creation_overwrites_copy :
  let r := create_db 0 (get_ok (no_process, 0%nat) new_link).1 no_table in
  let other := by_id link_class 1 false r.1.2 no_process ∅ in
  let edited := commit link_class true 0 (set_at 0 "title" (VStr "edited") other.1.1) other.1.2 r.1.2 in
  let w := write_cache true 0 1 r.1.1 edited.1.1.2 in
  (view_copy link_class <$> db_copy edited.1.2 1) ≫= (fun f => Some (f "title")) = Some (VBytes "edited") /\
  (view_copy link_class <$> w.1.2 !! 1) ≫= (fun f => Some (f "title")) = Some (VStr "a link").
Proof. split; vm_compute; reflexivity. Qed.

(** A float of more digits than the database keeps: until its copy is
    evicted the link shows what was set, afterwards what the database has. *)
Example float_digits_lost :
  let r := commit link_class true 0 (set_at 0 "hotness" (VFloat 15) author) shared stored_rows in
  shown (get_cached true r.1.1.2 1 no_process).1 0 "hotness" = Some (Ok (VFloat 15)) /\
  shown (by_id link_class 1 false r.1.2 no_process ∅).1.1 0 "hotness" = Some (Ok (VFloat 10)).
Proof. split; vm_compute; reflexivity. Qed.
End ThingExamples.
