(* ===== verification/ThingQuery.v ===== *)
(** * Queries of things

    lib/db/thing.py and lib/db/operators.py: sorts, rules and what SQL makes of
    them, the filters for what comes before or after a thing, pages made with
    them, and the cursor that merges several queries. *)

From S2P Require Import Prelude.

Module ThingQuery.

(** ** Sorts and rules *)

(** [operators.asc] and [operators.desc] of a column. *)
Inductive sort := Asc (col : string) | Desc (col : string).

#[export] Instance sort_eq_dec : EqDecision sort.
Proof. solve_decision. Defined.

Definition s_col (s : sort) : string := match s with Asc c | Desc c => c end.

(** [_setsort]: without a date the newest come first among equals. *)
Definition set_sort (sorts : list sort) : list sort :=
  if bool_decide (sorts = []) || existsb (fun s => py_endswith "_date" (s_col s)) sorts then sorts
  else sorts ++ [Desc "_date"].

(** [_reverse]. *)
Definition reverse_sort (s : sort) : sort := match s with Asc c => Desc c | Desc c => Asc c end.

Inductive cmp := CEq | CNe | CLt | CLte | CGt | CGte.

(** A rule: an operator with the values of its right side, or a combination. *)
Inductive rule :=
  | Op (o : cmp) (col : string) (vals : list Z)
  | And (l : list rule)
  | Or (l : list rule)
  | Not (r : rule).

Definition compare (o : cmp) (x y : Z) : bool :=
  match o with
  | CEq => x =? y
  | CNe => negb (x =? y)
  | CLt => x <? y
  | CLte => x <=? y
  | CGt => y <? x
  | CGte => y <=? x
  end.

Section query.
(** Rows, and the value of a column. *)
Context {A : Type} (key : A -> string -> Z).

(** [sa_op], as a test of a row: one of the values does; of no values, none;
    an empty combination adds no condition. *)
Fixpoint holds (r : rule) (x : A) : bool :=
  match r with
  | Op o c vals => existsb (compare o (key x c)) vals
  | And l => forallb (fun r => holds r x) l
  | Or l => match l with [] => true | _ => existsb (fun r => holds r x) l end
  | Not r => negb (holds r x)
  end.

(** [_dir]: for each sort, the columns before equal and this one beyond. *)
Definition beyond (s : sort) (reverse : bool) (x : A) : rule :=
  let gt := match s with Asc _ => negb reverse | Desc _ => reverse end in
  Op (if gt then CGt else CLt) (s_col s) [key x (s_col s)].

Definition equal_on (x : A) (s : sort) : rule := Op CEq (s_col s) [key x (s_col s)].

Definition dir (primary_only : bool) (sorts : list sort) (reverse : bool) (x : A) : rule :=
  Or (imap (fun i s => And (beyond s reverse x :: (equal_on x <$> take i sorts)))
    (if primary_only then take 1 sorts else sorts)).

Definition after (sorts : list sort) (x : A) : rule := dir false sorts false x.
Definition before (sorts : list sort) (x : A) : rule := dir false sorts true x.

(** [ORDER BY]. *)
Definition beats (s : sort) (x y : A) : bool :=
  match s with Asc c => key x c <? key y c | Desc c => key y c <? key x c end.

Fixpoint precedes (sorts : list sort) (x y : A) : bool :=
  match sorts with
  | [] => false
  | s :: l => beats s x y || ((key x (s_col s) =? key y (s_col s)) && precedes l x y)
  end.

Definition no_later (sorts : list sort) (x y : A) : bool := negb (precedes sorts y x).

Definition run_query (sorts : list sort) (limit : option nat) (rules : list rule) (rows : list A) : list A :=
  let l := isort (no_later sorts) (List.filter (fun x => forallb (fun r => holds r x) rules) rows) in
  match limit with Some n => take n l | None => l end.

(** Pages: each query starts after the last row of the one before. *)
Fixpoint pages (fuel : nat) (primary_only : bool) (sorts : list sort) (limit : nat) (rules : list rule) (from : option A) (rows : list A)
  : list A :=
  match fuel with
  | O => []
  | S fuel =>
      let page := run_query sorts (Some limit) (rules ++ match from with Some x => [dir primary_only sorts false x] | None => [] end) rows in
      match last page with
      | None => []
      | Some x => page ++ pages fuel primary_only sorts limit rules (Some x) rows
      end
  end.

(** ** The merging cursor *)

(** A cursor: the rows to come, of which the broken ones raise [NotFound] when
    they are fetched; [safe_next] skips those. *)
Definition cursor := list (option A).

Fixpoint safe_next (c : cursor) : option (A * cursor) :=
  match c with
  | [] => None
  | Some x :: c => Some (x, c)
  | None :: c => safe_next c
  end.

(** The first of the best items for one sort, and whether all were equal to
    the best so far. *)
Definition best_step (s : sort) (st : nat * A * bool) (ix : nat * A) : nat * A * bool :=
  let '(i, x, all_equal) := st in
  let all_equal := all_equal && (key ix.2 (s_col s) =? key x (s_col s)) in
  if beats s ix.2 x then (ix, all_equal) else (i, x, all_equal).

Definition best (s : sort) (x : A) (xs : list A) : nat * A * bool :=
  foldl (best_step s) (0%nat, x, true) (imap (fun i y => (S i, y)) xs).

Fixpoint pick (sorts : list sort) (x : A) (xs : list A) : nat :=
  match sorts with
  | [] => 0%nat
  | s :: sorts => let '(i, _, all_equal) := best s x xs in if all_equal then pick sorts x xs else i
  end.

(** [MergeCursor._execute]: the pairs that are not done. *)
Fixpoint merge_cursor (fuel : nat) (sorts : list sort) (pairs : list (A * cursor)) : list A :=
  match fuel with
  | O => []
  | S fuel =>
      match pairs with
      | [] => []
      | [(x, c)] => x :: omap (M := list) id c
      | (x, _) :: rest =>
          let i := pick sorts x rest.*1 in
          match pairs !! i with
          | None => []
          | Some (y, c) =>
              y :: merge_cursor fuel sorts
                match safe_next c with Some p => <[i := p]> pairs | None => delete i pairs end
          end
      end
  end.

Definition merge (sorts : list sort) (cursors : list cursor) : list A :=
  merge_cursor (S (sum_list (length <$> cursors))) sorts (omap (M := list) safe_next cursors).
End query.
End ThingQuery.
