(* ===== verification/ThingQueryProps.v ===== *)
(** * Queries of things: properties

    The filters for what comes after and before a thing are the order of the
    query, so that pages made with them give every row once; merging gives
    every row of the queries once, in the order of the first sort, and of two
    queries in the order of all. *)

From S2P Require Import Prelude ThingQuery.

Module ThingQueryProps.
Import ThingQuery.

Section query.
Context {A : Type} (key : A -> string -> Z).

Notation precedes := (precedes key).
Notation no_later := (no_later key).
Notation holds := (holds key).
Notation beats := (beats key).

(** ** The order of a query *)

Lemma precedes_asym sorts x y : precedes sorts x y = true -> precedes sorts y x = false.
Proof.
  induction sorts as [|s sorts IH]; simpl; [done|]. destruct s as [c|c]; simpl;
    destruct (precedes sorts x y) eqn:Exy, (precedes sorts y x) eqn:Eyx; try (specialize (IH eq_refl); discriminate IH); lia.
Qed.

Lemma precedes_irrefl sorts x : precedes sorts x x = false.
Proof. destruct (precedes sorts x x) eqn:E; [|done]. by apply precedes_asym in E as E'; rewrite E in E'. Qed.

Lemma no_later_total sorts x y : no_later sorts x y = false -> no_later sorts y x = true.
Proof. unfold ThingQuery.no_later. intros H%negb_false_iff. by rewrite precedes_asym. Qed.

Lemma no_later_trans sorts x y z : no_later sorts x y = true -> no_later sorts y z = true -> no_later sorts x z = true.
Proof.
  unfold ThingQuery.no_later. rewrite !negb_true_iff. induction sorts as [|s sorts IH]; simpl; [done|].
  destruct s as [c|c]; simpl;
    destruct (precedes sorts y x) eqn:E1, (precedes sorts z y) eqn:E2, (precedes sorts z x) eqn:E3;
    try (specialize (IH eq_refl eq_refl); discriminate IH); lia.
Qed.

(** ** What comes after and before *)

Definition all_equal (sorts : list sort) (x y : A) : bool := forallb (fun s => key x (s_col s) =? key y (s_col s)) sorts.

Lemma holds_equal_on sorts x y : forallb (fun r => holds r y) (equal_on key x <$> sorts) = all_equal sorts x y.
Proof.
  induction sorts as [|s sorts IH]; [done|]. rewrite fmap_cons. cbn [forallb all_equal]. rewrite IH. unfold equal_on.
  cbn [ThingQuery.holds existsb compare]. rewrite orb_false_r, Z.eqb_sym. done.
Qed.

Lemma holds_beyond s reverse x y : holds (beyond key s reverse x) y = if reverse then beats s y x else beats s x y.
Proof. destruct s as [c|c], reverse; simpl; by rewrite orb_false_r. Qed.

Lemma holds_dir sorts pre reverse x y :
  existsb (fun r => holds r y)
    (imap (fun i s => And (beyond key s reverse x :: (equal_on key x <$> take (length pre + i) (pre ++ sorts)))) sorts) =
  all_equal pre x y && if reverse then precedes sorts y x else precedes sorts x y.
Proof.
  revert pre. induction sorts as [|s sorts IH]; intros pre; [simpl; destruct reverse; by rewrite andb_false_r|].
  rewrite imap_cons. cbn [existsb]. rewrite Nat.add_0_r, take_app_length.
  assert (E : imap ((fun i s0 => And (beyond key s0 reverse x :: (equal_on key x <$> take (length pre + i) (pre ++ s :: sorts)))) ∘ S) sorts =
    imap (fun i s0 => And (beyond key s0 reverse x :: (equal_on key x <$> take (length (pre ++ [s]) + i) ((pre ++ [s]) ++ sorts)))) sorts).
  { apply imap_ext. intros i s0 _. unfold compose. rewrite length_app. simpl. rewrite <- app_assoc. simpl. do 3 f_equal. f_equal. lia. }
  rewrite E, IH. clear E IH. cbn [ThingQuery.holds forallb]. rewrite holds_beyond, holds_equal_on.
  assert (Hpre : all_equal (pre ++ [s]) x y = all_equal pre x y && (key x (s_col s) =? key y (s_col s)))
    by (unfold all_equal; rewrite forallb_app; simpl; by rewrite andb_true_r).
  rewrite Hpre. destruct reverse; simpl; [rewrite (Z.eqb_sym (key y _))|];
    destruct (all_equal pre x y), (beats s _ _), (key x (s_col s) =? key y (s_col s)); simpl; by rewrite ?andb_false_r, ?orb_false_r.
Qed.

Lemma holds_dir_order sorts reverse x y :
  sorts <> [] -> holds (dir key false sorts reverse x) y = if reverse then precedes sorts y x else precedes sorts x y.
Proof.
  intros Hs. etrans; [|exact (holds_dir sorts [] reverse x y)]. destruct sorts as [|s l]; [done|].
  unfold dir. rewrite imap_cons. reflexivity.
Qed.

(** The rule for what comes after a thing holds of exactly the rows that
    its query sorts strictly later, the one for what comes before of those
    strictly earlier. *)
Theorem after_is_order sorts x y :
  sorts <> [] ->
  holds (after key sorts x) y = precedes sorts x y /\ holds (before key sorts x) y = precedes sorts y x.
Proof. intros Hs. split; [exact (holds_dir_order sorts false x y Hs)|exact (holds_dir_order sorts true x y Hs)]. Qed.

(** ** Pages *)

Lemma filter_app_rules (rules rules' : list rule) (l : list A) :
  List.filter (fun x => forallb (fun r => holds r x) (rules ++ rules')) l =
  List.filter (fun x => forallb (fun r => holds r x) rules') (List.filter (fun x => forallb (fun r => holds r x) rules) l).
Proof.
  induction l as [|x l IH]; simpl; [done|]. rewrite forallb_app.
  destruct (forallb (fun r => holds r x) rules); simpl; [|done]. destruct (forallb _ rules'); simpl; by rewrite IH.
Qed.

Definition strict (sorts : list sort) : relation A := fun x y => precedes sorts x y = true.

(** Rows that the sorts tell apart. *)
Definition distinct (sorts : list sort) (l : list A) : Prop :=
  NoDup l /\ forall x y, x ∈ l -> y ∈ l -> x <> y -> precedes sorts x y = true \/ precedes sorts y x = true.

Lemma isort_strict sorts l : distinct sorts l -> StronglySorted (strict sorts) (isort (no_later sorts) l).
Proof.
  intros [Hnd Hd].
  assert (Hs : StronglySorted (leP (no_later sorts)) (isort (no_later sorts) l))
    by (apply isort_sorted; [apply no_later_total|apply no_later_trans]).
  assert (Hnd' : NoDup (isort (no_later sorts) l)) by by apply NoDup_isort.
  assert (Hin : forall x, x ∈ isort (no_later sorts) l -> x ∈ l) by (intros x; by rewrite elem_of_isort).
  induction Hs as [|x l' Hs IH Hx]; constructor; apply NoDup_cons in Hnd' as [Hx' Hnd'].
  - apply IH; [done|]. intros y Hy. apply Hin. by right.
  - apply Forall_forall. intros y Hy. rewrite Forall_forall in Hx. specialize (Hx y Hy). unfold leP in Hx.
    apply Is_true_true, negb_true_iff in Hx. destruct (Hd x y) as [E | E]; [apply Hin; by left|apply Hin; by right|congruence|done|].
    congruence.
Qed.

Lemma strict_filter sorts l x suf : StronglySorted (strict sorts) (l ++ x :: suf) -> List.filter (precedes sorts x) (l ++ x :: suf) = suf.
Proof.
  intros Hs. assert (Hl : forall y, y ∈ l -> precedes sorts y x = true).
  { intros y Hy. apply StronglySorted_app in Hs as (Hlt & _). apply (Hlt y x Hy). by left. }
  assert (Hsuf : Forall (fun y => precedes sorts x y = true) suf).
  { apply StronglySorted_app in Hs as (_ & _ & Hs). by apply StronglySorted_inv in Hs as [_ Hs]. }
  rewrite List.filter_app.
  assert (List.filter (precedes sorts x) l = []) as ->.
  { clear -Hl. induction l as [|y l IH]; [done|]. simpl. rewrite precedes_asym by (apply Hl; by left). apply IH. intros z Hz. apply Hl. by right. }
  simpl. rewrite precedes_irrefl. clear -Hsuf. induction Hsuf as [|y l Hy _ IH]; simpl; [done|]. by rewrite Hy, IH.
Qed.

Lemma isort_filter_strict sorts l (f : A -> bool) :
  distinct sorts l -> isort (no_later sorts) (List.filter f l) = List.filter f (isort (no_later sorts) l).
Proof.
  intros Hd. assert (Hdf : distinct sorts (List.filter f l)).
  { destruct Hd as [Hnd Hd]. split; [by apply NoDup_filter_bool|]. intros x y [_ Hx]%elem_of_filter_bool [_ Hy]%elem_of_filter_bool. by apply Hd. }
  apply (StronglySorted_unique_strong (strict sorts)).
  - intros x y _ _ Hxy Hyx. unfold strict in *. apply precedes_asym in Hxy. congruence.
  - by apply isort_strict.
  - apply isort_strict in Hd. induction Hd as [|x l' Hs IH Hx]; simpl; [constructor|]. destruct (f x); [|done]. constructor; [done|].
    rewrite Forall_forall in Hx |- *. intros y [_ Hy]%elem_of_filter_bool. by apply Hx.
  - rewrite isort_perm. generalize (isort_perm (no_later sorts) l). generalize (isort (no_later sorts) l). intros l' Hp. symmetry.
    clear Hd Hdf. induction Hp as [|x l1 l2 _ IH|x y l1|l1 l2 l3 _ IH1 _ IH2]; simpl; [done|destruct (f x); by rewrite IH| |by etrans].
    destruct (f x), (f y); try done. apply Permutation_swap.
Qed.

(** C25. Asking for what comes after the last row of each page, in all sorts,
    gives all rows of a query once and in order, when its sorts tell the rows
    apart. *)
Theorem pages_complete sorts limit rules rows fuel :
  sorts <> [] -> (0 < limit)%nat -> distinct sorts (List.filter (fun x => forallb (fun r => holds r x) rules) rows) -> (length rows < fuel)%nat ->
  pages key fuel false sorts limit rules None rows = run_query key sorts None rules rows.
Proof.
  intros Hsorts Hlim Hd Hfuel. unfold run_query. set (rows' := List.filter _ rows) in *.
  set (L := isort (no_later sorts) rows').
  assert (HL : StronglySorted (strict sorts) L) by by apply isort_strict.
  assert (Hlen : (length L < fuel)%nat).
  { unfold L, rows'. rewrite length_isort. pose proof (List.filter_length_le (fun x => forallb (fun r => holds r x) rules) rows). lia. }
  cut (forall pre suf from, L = pre ++ suf -> from = last pre -> (length suf < fuel)%nat ->
    pages key fuel false sorts limit rules from rows = suf).
  { intros Hgen. by apply (Hgen [] L None). }
  clear Hlen Hfuel. induction fuel as [|fuel IH]; intros pre suf from HLs Hfrom Hfuel; [lia|]. cbn [pages].
  assert (Hrun : run_query key sorts (Some limit) (rules ++ match from with Some x => [dir key false sorts false x] | None => [] end) rows
    = take limit suf).
  { unfold run_query. rewrite filter_app_rules. fold rows'. f_equal. subst from. destruct pre as [|x pre _] using rev_ind.
    - simpl in HLs. rewrite <- HLs. unfold L. simpl. f_equal. clear. induction rows' as [|y l IH]; simpl; [done|]. by rewrite IH.
    - rewrite last_snoc. rewrite isort_filter_strict by done. fold L. rewrite HLs, <- app_assoc. simpl app.
      rewrite <- (strict_filter sorts pre x suf) at 2 by (by rewrite HLs, <- app_assoc in HL). apply List.filter_ext. intros y. cbn [forallb].
      rewrite andb_true_r. by apply holds_dir_order. }
  rewrite Hrun. destruct (last (take limit suf)) as [x|] eqn:Elast.
  - rewrite (IH (pre ++ take limit suf) (drop limit suf) (Some x)); [apply take_drop| | |].
    + by rewrite <- app_assoc, take_drop.
    + rewrite last_app, Elast. done.
    + rewrite length_drop. destruct suf; [by rewrite take_nil in Elast|]. simpl in *. lia.
  - apply last_None in Elast. destruct suf as [|y suf]; [done|]. destruct limit; [lia|]. discriminate Elast.
Qed.

(** ** Merging *)

(** The rows a cursor gives. *)
Definition live (c : cursor) : list A := omap (M := list) id c.

Lemma safe_next_live (c : cursor (A := A)) :
  match safe_next c with
  | Some (x, c') => live c = x :: live c' /\ (length c' < length c)%nat
  | None => live c = []
  end.
Proof.
  induction c as [|[x|] c IH]; simpl; [done|split; [done|lia]|]. destruct (safe_next c) as [[x c']|]; [|done].
  destruct IH. split; [done|lia].
Qed.

(** The rows still to come of pairs that are not done. *)
Definition pending (pairs : list (A * cursor)) : list A := concat ((fun p => p.1 :: live p.2) <$> pairs).

Definition size_of (pairs : list (A * cursor (A := A))) : nat := sum_list_with (fun p => S (length p.2)) pairs.

Definition replace (pairs : list (A * cursor (A := A))) (i : nat) (c : cursor) : list (A * cursor) :=
  match safe_next c with Some p => <[i := p]> pairs | None => delete i pairs end.

Lemma pending_replace pairs i y c :
  pairs !! i = Some (y, c) ->
  y :: pending (replace pairs i c) ≡ₚ pending pairs /\ (size_of (replace pairs i c) < size_of pairs)%nat /\
  (length (replace pairs i c) <= length pairs)%nat.
Proof.
  intros (l1 & l2 & -> & ->)%list_elem_of_split_length. pose proof (safe_next_live c) as Hc. unfold replace, pending, size_of.
  destruct (safe_next c) as [[x c']|].
  - destruct Hc as [Hc Hl]. rewrite <- (Nat.add_0_r (length l1)), insert_app_r. simpl.
    rewrite !fmap_app, !concat_app, !fmap_cons, !sum_list_with_app, !length_app. simpl. rewrite Hc. split; [apply Permutation_middle|split; lia].
  - rewrite delete_middle, !fmap_app, !concat_app, !fmap_cons, !sum_list_with_app, !length_app. simpl. rewrite Hc. split; [apply Permutation_middle|split; lia].
Qed.

Lemma merge_cursor_S fuel sorts pairs :
  merge_cursor key (S fuel) sorts pairs =
    match pairs with
    | [] => []
    | [(x, c)] => x :: live c
    | (x, _) :: rest =>
        match pairs !! pick key sorts x rest.*1 with
        | None => []
        | Some (y, c) => y :: merge_cursor key fuel sorts (replace pairs (pick key sorts x rest.*1) c)
        end
    end.
Proof. by destruct pairs as [|[x c] [|q pairs]]. Qed.

(** ** The choice of the cursor *)

(** What [best] has found among the items so far. *)
Record best_so_far (s : sort) (x : A) (done : list A) (st : nat * A * bool) : Prop := {
  bs_item : (x :: done) !! st.1.1 = Some st.1.2;
  bs_best z : z ∈ x :: done -> beats s z st.1.2 = false;
  bs_equal : st.2 = true -> forall z, z ∈ x :: done -> key z (s_col s) = key x (s_col s);
  bs_differ : st.2 = false -> exists z, z ∈ done /\ key z (s_col s) <> key x (s_col s)
}.

Lemma best_step_ok s x done st y :
  best_so_far s x done st -> best_so_far s x (done ++ [y]) (best_step key s st (S (length done), y)).
Proof.
  destruct st as [[i b] e]. intros [H1 H2 H3 H4]. unfold best_step. simpl in *.
  assert (Hy : (x :: done ++ [y]) !! S (length done) = Some y) by (simpl; by rewrite lookup_app_r, Nat.sub_diag by lia).
  assert (Hi : (x :: done ++ [y]) !! i = Some b) by (apply (lookup_app_l_Some (x :: done) [y]); done).
  assert (Hb : b ∈ x :: done) by by eapply list_elem_of_lookup_2.
  assert (Hin : forall z, z ∈ x :: done ++ [y] <-> z ∈ x :: done \/ z = y)
    by (intros z; rewrite app_comm_cons, elem_of_app, list_elem_of_singleton; done).
  assert (Heq : e && (key y (s_col s) =? key b (s_col s)) = true ->
    forall z, z ∈ x :: done ++ [y] -> key z (s_col s) = key x (s_col s)).
  { intros [He Hyb]%andb_true_iff z [Hz | ->]%Hin; [by apply H3|]. apply Z.eqb_eq in Hyb. rewrite Hyb. by apply H3. }
  assert (Hne : e && (key y (s_col s) =? key b (s_col s)) = false ->
    exists z, z ∈ done ++ [y] /\ key z (s_col s) <> key x (s_col s)).
  { intros He. destruct e; simpl in He.
    - exists y. split; [apply elem_of_app; right; by left|]. rewrite <- (H3 eq_refl b Hb). lia.
    - destruct (H4 eq_refl) as (z & Hz & Hzx). exists z. split; [apply elem_of_app; by left|done]. }
  destruct (beats s y b) eqn:Eb; split; simpl; [exact Hy| |exact Heq|exact Hne|exact Hi| |exact Heq|exact Hne].
  - intros z [Hz | ->]%Hin; [|destruct s; simpl; lia]. specialize (H2 z Hz). destruct s; simpl in *; lia.
  - intros z [Hz | ->]%Hin; [by apply H2|done].
Qed.

Lemma best_ok s x xs : best_so_far s x xs (best key s x xs).
Proof.
  unfold best. assert (H0 : best_so_far s x [] (0%nat, x, true)).
  { split; simpl; [done|intros z ->%list_elem_of_singleton; destruct s; simpl; lia|intros _ z ->%list_elem_of_singleton; done|done]. }
  cut (forall l done st, best_so_far s x done st ->
    best_so_far s x (done ++ l) (foldl (best_step key s) st (imap (fun i y => (S (length done + i), y)) l))).
  { intros Hgen. apply (Hgen xs [] _ H0). }
  clear H0. intros l. induction l as [|y l IH]; intros done st Hst; simpl; [by rewrite app_nil_r|].
  rewrite (cons_middle y done l), app_assoc, Nat.add_0_r.
  assert (E : imap ((fun i y => (S (length done + i), y)) ∘ S) l = imap (fun i y => (S (length (done ++ [y]) + i), y)) l).
  { apply imap_ext. intros i z _. unfold compose. rewrite length_app. simpl. f_equal. lia. }
  rewrite E. replace (imap (fun i y0 => (S (length (done ++ [y0]) + i), y0)) l)
    with (imap (fun i y0 => (S (length (done ++ [y]) + i), y0)) l) by (apply imap_ext; intros i z _; by rewrite !length_app).
  apply IH. by apply best_step_ok.
Qed.

Lemma pick_item sorts x xs : is_Some ((x :: xs) !! pick key sorts x xs).
Proof.
  induction sorts as [|s sorts IH]; [by eexists|]. cbn [pick]. destruct (best_ok s x xs) as [H1 _ _ _].
  destruct (best key s x xs) as [[i b] []]; [exact IH|]. simpl in H1. by eexists.
Qed.

(** The chosen item is not behind any other for the first sort. *)
Lemma pick_first s sorts x xs z :
  (x :: xs) !! pick key (s :: sorts) x xs = Some z -> forall y, y ∈ x :: xs -> beats s y z = false.
Proof.
  cbn [pick]. destruct (best_ok s x xs) as [H1 H2 H3 _]. destruct (best key s x xs) as [[i b] []]; simpl in *.
  - intros Hz y Hy. apply list_elem_of_lookup_2 in Hz. pose proof (H3 eq_refl y Hy) as E1. pose proof (H3 eq_refl z Hz) as E2.
    destruct s; simpl in *; lia.
  - intros Hz y Hy. assert (z = b) as -> by congruence. by apply H2.
Qed.

(** Of two items it is not behind the other for all sorts. *)
Lemma pick_two sorts x y z :
  [x; y] !! pick key sorts x [y] = Some z -> no_later sorts z x = true /\ no_later sorts z y = true.
Proof.
  unfold ThingQuery.no_later. rewrite !negb_true_iff. revert z. induction sorts as [|s sorts IH]; intros z; [done|]. cbn [pick].
  destruct (best_ok s x [y]) as [H1 H2 H3 H4]. destruct (best key s x [y]) as [[i b] []]; simpl in *.
  - intros Hz. destruct (IH z Hz) as [E1 E2]. apply list_elem_of_lookup_2 in Hz. rewrite E1, E2.
    pose proof (H3 eq_refl z Hz) as Ez. pose proof (H3 eq_refl y ltac:(right; by left)) as Ey. destruct s; simpl in *; lia.
  - intros Hz. assert (z = b) as -> by congruence. destruct (H4 eq_refl) as (y' & ->%list_elem_of_singleton & Hne).
    pose proof (H2 x ltac:(by left)) as Hx. pose proof (H2 y ltac:(right; by left)) as Hy.
    apply list_elem_of_lookup_2 in Hz. apply elem_of_cons in Hz as [-> | ->%list_elem_of_singleton]; rewrite precedes_irrefl;
      destruct s; simpl in *; lia.
Qed.

(** ** The merged rows *)

Lemma merge_cursor_perm fuel sorts pairs : (size_of pairs < fuel)%nat -> merge_cursor key fuel sorts pairs ≡ₚ pending pairs.
Proof.
  revert pairs. induction fuel as [|fuel IH]; intros pairs Hfuel; [lia|]. rewrite merge_cursor_S.
  destruct pairs as [|[x c] [|q rest]]; [done|unfold pending; simpl; by rewrite app_nil_r|].
  set (pairs := (x, c) :: q :: rest) in *. destruct (pick_item sorts x (q :: rest).*1) as [z Hz].
  assert (Hp : exists d, pairs !! pick key sorts x (q :: rest).*1 = Some (z, d)).
  { change (x :: (q :: rest).*1) with (pairs.*1) in Hz. rewrite list_lookup_fmap in Hz.
    destruct (pairs !! _) as [[z' d]|]; [|done]. simpl in Hz. exists d. congruence. }
  destruct Hp as [d Hp]. rewrite Hp. destruct (pending_replace pairs _ z d Hp) as (Hperm & Hsize & _).
  rewrite IH by lia. exact Hperm.
Qed.

Lemma merge_cursor_sorted (le : relation A) n fuel sorts pairs :
  Transitive le ->
  (forall x xs z, (length xs < n)%nat -> (x :: xs) !! pick key sorts x xs = Some z -> forall y, y ∈ x :: xs -> le z y) ->
  (length pairs <= n)%nat -> Forall (fun p => StronglySorted le (p.1 :: live p.2)) pairs -> (size_of pairs < fuel)%nat ->
  StronglySorted le (merge_cursor key fuel sorts pairs).
Proof.
  intros Htr Hpick. revert pairs. induction fuel as [|fuel IH]; intros pairs Hn Hs Hfuel; [lia|]. rewrite merge_cursor_S.
  destruct pairs as [|[x c] [|q rest]]; [constructor|by apply Forall_cons in Hs as [Hs _]|].
  set (pairs := (x, c) :: q :: rest) in *. destruct (pairs !! pick key sorts x (q :: rest).*1) as [[z d]|] eqn:Hp; [|constructor].
  destruct (pending_replace pairs _ z d Hp) as (Hperm & Hsize & Hlen).
  assert (Hhead : forall y, y ∈ pairs.*1 -> le z y).
  { intros y Hy. apply (Hpick x (q :: rest).*1 z); [rewrite length_fmap; unfold pairs in Hn; simpl in *; lia| |exact Hy].
    change (x :: (q :: rest).*1) with (pairs.*1). by rewrite list_lookup_fmap, Hp. }
  assert (Hs' : Forall (fun p => StronglySorted le (p.1 :: live p.2)) (replace pairs (pick key sorts x (q :: rest).*1) d)).
  { unfold replace. pose proof (safe_next_live d) as Hd. rewrite Forall_lookup in Hs. specialize (Hs _ _ Hp) as Hzd. simpl in Hzd.
    destruct (safe_next d) as [[w d']|].
    - apply Forall_insert; [by apply Forall_lookup|]. simpl. destruct Hd as [Hd _]. rewrite Hd in Hzd. by apply StronglySorted_inv in Hzd as [Hzd _].
    - apply Forall_delete. by apply Forall_lookup. }
  assert (Hfuel' : (size_of (replace pairs (pick key sorts x (q :: rest).*1) d) < fuel)%nat)
    by (eapply Nat.lt_le_trans; [exact Hsize|lia]).
  constructor; [apply IH; [etrans; [exact Hlen|exact Hn]|exact Hs'|exact Hfuel']|]. apply Forall_forall. intros y Hy.
  rewrite (merge_cursor_perm fuel sorts _ Hfuel') in Hy.
  assert (Hle : forall p, p ∈ replace pairs (pick key sorts x (q :: rest).*1) d -> le z p.1).
  { intros p Hin. unfold replace in Hin. pose proof (safe_next_live d) as Hd. destruct (safe_next d) as [[w d']|].
    - apply list_elem_of_lookup in Hin as [j Hj]. apply list_lookup_insert_Some in Hj as [(_ & <- & _) | [_ Hj]].
      + simpl. rewrite Forall_lookup in Hs. specialize (Hs _ _ Hp). simpl in Hs. destruct Hd as [Hd _]. rewrite Hd in Hs.
        apply StronglySorted_inv in Hs as [_ Hs]. by apply Forall_cons in Hs as [Hs _].
      + apply Hhead. apply list_elem_of_lookup_2 in Hj. by apply list_elem_of_fmap_2.
    - apply Hhead. apply list_elem_of_fmap_2. apply list_elem_of_lookup in Hin as [j Hj].
      destruct (decide (j < pick key sorts x (q :: rest).*1)%nat).
      + rewrite list_lookup_delete_lt in Hj by done. by apply list_elem_of_lookup_2 in Hj.
      + rewrite list_lookup_delete_ge in Hj by lia. by apply list_elem_of_lookup_2 in Hj. }
  unfold pending in Hy. apply list_elem_of_In, in_concat in Hy as (l & Hl & Hyl).
  apply list_elem_of_In, list_elem_of_fmap in Hl as (p & -> & Hp'). apply list_elem_of_In, elem_of_cons in Hyl as [-> | Hyl]; [by apply Hle|].
  transitivity p.1; [by apply Hle|]. rewrite Forall_forall in Hs'. specialize (Hs' p Hp'). apply StronglySorted_inv in Hs' as [_ Hs'].
  rewrite Forall_forall in Hs'. by apply Hs'.
Qed.

Lemma pending_start cursors :
  pending (omap (M := list) safe_next cursors) = concat (live <$> cursors) /\
  (size_of (omap (M := list) safe_next cursors) <= sum_list (length <$> cursors))%nat /\
  (length (omap (M := list) (safe_next (A := A)) cursors) <= length cursors)%nat.
Proof.
  induction cursors as [|c cursors (IH1 & IH2 & IH3)]; [done|]. unfold pending, size_of in *. pose proof (safe_next_live c) as Hc. simpl.
  destruct (safe_next c) as [[x c']|]; simpl.
  - destruct Hc as [-> Hl]. split; [exact (f_equal (app (x :: live c')) IH1)|split; [apply (Nat.add_le_mono _ _ _ _ Hl IH2)|exact (le_n_S _ _ IH3)]].
  - rewrite Hc. split; [exact IH1|split; [apply (Nat.le_trans _ _ _ IH2), Nat.le_add_l|exact (le_S _ _ IH3)]].
Qed.

Lemma start_sorted (le : relation A) cursors :
  Forall (fun c => StronglySorted le (live c)) cursors ->
  Forall (fun p => StronglySorted le (p.1 :: live p.2)) (omap (M := list) safe_next cursors).
Proof.
  induction 1 as [|c cursors Hc _ IH]; simpl; [constructor|]. pose proof (safe_next_live c) as Hl.
  destruct (safe_next c) as [[x c']|]; [|done]. constructor; [|done]. simpl. destruct Hl as [Hl _]. by rewrite <- Hl.
Qed.

(** Merging queries gives every row of each of them once, skipping broken
    ones; when the queries are in the order of their first sort so is the
    result, and of two queries in the order of all sorts the result is in that
    order too. *)
Theorem merge_correct sorts cursors :
  merge key sorts cursors ≡ₚ concat (live <$> cursors) /\
  (forall s l, sorts = s :: l -> Forall (fun c => StronglySorted (fun x y => beats s y x = false) (live c)) cursors ->
    StronglySorted (fun x y => beats s y x = false) (merge key sorts cursors)) /\
  ((length cursors <= 2)%nat -> Forall (fun c => StronglySorted (fun x y => no_later sorts x y = true) (live c)) cursors ->
    StronglySorted (fun x y => no_later sorts x y = true) (merge key sorts cursors)).
Proof.
  destruct (pending_start cursors) as (Hp & Hs & Hl). unfold merge. split; [|split].
  - rewrite merge_cursor_perm by lia. by rewrite Hp.
  - intros s l -> Hc. apply (merge_cursor_sorted _ (length cursors)); [|..|exact Hl|by apply start_sorted|lia].
    + intros x y z Hxy Hyz. destruct s; simpl in *; lia.
    + intros x xs z _ Hz y Hy. by eapply pick_first.
  - intros Hlen Hc. apply (merge_cursor_sorted _ 2); [|..|lia|by apply start_sorted|lia].
    + intros x y z. apply no_later_trans.
    + intros x xs z Hxs Hz y Hy. destruct xs as [|w [|w' xs]]; [|..|simpl in Hxs; lia].
      * assert (pick key sorts x [] = 0%nat) as E; [|rewrite E in Hz; injection Hz as <-; apply list_elem_of_singleton in Hy as ->].
        { clear. induction sorts as [|s sorts IH]; [done|]. simpl. exact IH. }
        unfold ThingQuery.no_later. by rewrite precedes_irrefl.
      * destruct (pick_two sorts x w z Hz) as [E1 E2]. by apply elem_of_cons in Hy as [-> | ->%list_elem_of_singleton].
Qed.
End query.

(** ** Instances *)

(** Rows with a score and a date. *)
Definition score_date (x : Z * Z) (c : string) : Z := if String.eqb c "_score" then x.1 else x.2.

Definition top : list sort := set_sort [Desc "_score"].

Lemma after_is_order_witness :
  holds score_date (after score_date top (5, 2)) (5, 1) = true /\ holds score_date (before score_date top (5, 2)) (5, 1) = false.
Proof. destruct (after_is_order score_date top (5, 2) (5, 1)) as [-> ->]; [discriminate|split; vm_compute; reflexivity]. Defined.

Lemma pages_complete_witness :
  pages score_date 5 false top 2 [Op CGt "_score" [0]] None [(3, 1); (5, 2); (0, 9); (3, 4)] = [(5, 2); (3, 4); (3, 1)].
Proof.
  rewrite (pages_complete score_date top 2 [Op CGt "_score" [0]] [(3, 1); (5, 2); (0, 9); (3, 4)] 5).
  - vm_compute. reflexivity.
  - discriminate.
  - lia.
  - split.
    + apply (bool_decide_unpack _). vm_compute. exact I.
    + intros x y Hx Hy Hne. vm_compute in Hx, Hy.
      repeat (apply elem_of_cons in Hx as [-> | Hx]; [|]); [..|by apply elem_of_nil in Hx];
        (repeat (apply elem_of_cons in Hy as [-> | Hy]; [|]); [..|by apply elem_of_nil in Hy]);
        first [by destruct Hne | by left | by right].
  - simpl. lia.
Defined.

Lemma merge_correct_witness :
  StronglySorted (fun x y => no_later score_date top x y = true)
    (merge score_date top [[Some (5, 2); None; Some (3, 1)]; [Some (5, 4); Some (1, 1)]]).
Proof.
  apply (merge_correct score_date top [[Some (5, 2); None; Some (3, 1)]; [Some (5, 4); Some (1, 1)]]).
  - simpl. lia.
  - apply Forall_cons. split; [|apply Forall_cons; split; [|apply Forall_nil; exact I]]; vm_compute;
      repeat (constructor; [|repeat (constructor; [reflexivity|]); constructor]); constructor.
Defined.

(** Of three queries the one with the best first column is taken without a
    look at the other sorts, although a second one has the same. *)
Example three_queries_unsorted :
  merge score_date top [[Some (1, 1)]; [Some (5, 2)]; [Some (5, 4)]] = [(5, 2); (5, 4); (1, 1)] /\
  precedes score_date top (5, 4) (5, 2) = true.
Proof. split; vm_compute; reflexivity. Qed.

(** With the filter on the first sort only, rows that have the value of the
    last row of a page are left out. *)
Example primary_only_loses_rows :
  pages score_date 9 true top 2 [] None [(3, 1); (3, 2); (3, 3); (2, 1)] = [(3, 3); (3, 2); (2, 1)].
Proof. vm_compute. reflexivity. Qed.

(** A rule without values holds of nothing, negated or not an inequality. *)
Example no_values x : holds score_date (Op CNe "_score" []) x = false.
Proof. done. Qed.
End ThingQueryProps.
