(* ===== verification/Lock.v ===== *)
(** * Locks of memcached

    lib/lock.py: [MemcacheLock], held by the one whose [add] of the key
    succeeded.  A lock expires after its time, a thread that has a lock enters
    further blocks of its key at once, and the release reads the key before it
    deletes it.  Threads use locks as context managers, so the blocks of a
    thread are nested; their steps interleave. *)

From S2P Require Import Prelude.

Module Lock.

(** [self.nonce]: host, process and the last calls of the stack. *)
Definition process := (string * Z)%type.

Definition nonce := (process * string)%type.

(** The commands of memcached a lock uses, with their documented behaviour:
    an item is there until its time is over, with time 0 forever. *)
Class LockCache (M : Type) := {
  holder : M -> Z -> string -> option nonce;
  lc_add : string -> nonce -> Z -> Z -> M -> M * bool;
  lc_delete : string -> M -> M;
  holder_earlier m now now' key n : now <= now' -> holder m now' key = Some n -> holder m now key = Some n;
  lc_add_answer key n time now m : (lc_add key n time now m).2 = bool_decide (holder m now key = None);
  lc_add_holder key n time now m now' key' : now <= now' ->
    holder (lc_add key n time now m).1 now' key' =
      if bool_decide (key' = key /\ holder m now key = None) then
        if bool_decide (time = 0 \/ now' < now + time) then Some n else None
      else holder m now' key';
  lc_delete_holder key m now key' :
    holder (lc_delete key m) now key' = if bool_decide (key' = key) then None else holder m now key'
}.

(** A lock object; [lk_at] is when it was acquired. *)
Record lock := MkLock {
  lk_key : string;
  lk_time : Z;
  lk_timeout : Z;
  lk_nonce : nonce;
  lk_have : bool;
  lk_owns : bool;
  lk_at : Z
}.

Definition set_owns (now : Z) (l : lock) : lock :=
  MkLock (lk_key l) (lk_time l) (lk_timeout l) (lk_nonce l) true true now.

Definition set_have (l : lock) : lock :=
  MkLock (lk_key l) (lk_time l) (lk_timeout l) (lk_nonce l) true (lk_owns l) (lk_at l).

Definition in_time (now : Z) (l : lock) : bool := bool_decide (lk_time l = 0 \/ now < lk_at l + lk_time l).

(** A thread: [locks.locks], the locks of the blocks it is in, the innermost
    first, and whether it is between two steps of a call. *)
Inductive status :=
  | Running
  | Waiting (l : lock) (start : Z)
  | Releasing.

Record thread := MkThread {
  t_process : process;
  t_locks : gset string;
  t_stack : list lock;
  t_status : status
}.

Definition set_status (st : status) (t : thread) : thread := MkThread (t_process t) (t_locks t) (t_stack t) st.

Definition push (l : lock) (t : thread) : thread := MkThread (t_process t) (t_locks t) (l :: t_stack t) Running.

Definition add_lock (key : string) (t : thread) : thread :=
  MkThread (t_process t) ({[key]} ∪ t_locks t) (t_stack t) (t_status t).

(** What an [add] of memcached does: it answers, or raises [MemcachedError]
    after or before it has taken effect. *)
Inductive outcome := Answered | Failed (effect : bool).

Section lock.
Context {M : Type} `{LockCache M}.

(** ** [acquire] *)

(** Up to the loop: a block within a block of the same key is entered. *)
Definition acquire_start (now : Z) (key : string) (time timeout : Z) (trace : string) (t : thread) : thread :=
  let l := MkLock key time timeout (t_process t, trace) false false now in
  if bool_decide (key ∈ t_locks t) then push (set_have l) t else set_status (Waiting l now) t.

(** Once around the loop. *)
Definition try_add (o : outcome) (now : Z) (l : lock) (m : M) : M * bool :=
  match o with
  | Answered => lc_add (lk_key l) (lk_nonce l) (lk_time l) now m
  | Failed effect =>
      let m := if effect then (lc_add (lk_key l) (lk_nonce l) (lk_time l) now m).1 else m in
      (m, bool_decide (holder m now (lk_key l) = Some (lk_nonce l)))
  end.

(** [timedelta.seconds] leaves the days out. *)
Definition seconds (start now : Z) : Z := (now - start) mod 86400.

Definition acquire_try (o : outcome) (now : Z) (l : lock) (start : Z) (t : thread) (m : M) : M * thread * res unit :=
  let '(m, got) := try_add o now l m in
  if got then (m, add_lock (lk_key l) (push (set_owns now l) t), Ok tt)
  else if lk_timeout l <? seconds start now then (m, set_status Running t, Raise TimeoutExpired)
  else (m, t, Ok tt).

(** ** [release] *)

Definition finish_release (l : lock) (t : thread) : thread * res unit :=
  if bool_decide (lk_key l ∈ t_locks t) then
    (MkThread (t_process t) (t_locks t ∖ {[lk_key l]}) (tail (t_stack t)) Running, Ok tt)
  else (set_status Running t, Raise KeyError).

(** Up to the reading of the key. *)
Definition release_check (now : Z) (l : lock) (t : thread) (m : M) : thread * res unit :=
  if lk_owns l then
    if bool_decide (holder m now (lk_key l) = Some (lk_nonce l)) then (set_status Releasing t, Ok tt)
    else finish_release l t
  else (MkThread (t_process t) (t_locks t) (tail (t_stack t)) Running, Ok tt).

Definition release_delete (l : lock) (t : thread) (m : M) : M * thread * res unit :=
  let '(t, r) := finish_release l t in (lc_delete (lk_key l) m, t, r).

(** ** Threads in parallel *)

Record system := System {
  s_now : Z;
  s_cache : M;
  s_started : list process;
  s_threads : gmap nat thread
}.

Definition set_thread (tid : nat) (m : M) (t : thread) (s : system) : system :=
  System (s_now s) m (s_started s) (<[tid := t]> (s_threads s)).

(** The label of a step is a key whose lock it may take from its holder:
    memcached evicts it, or it is deleted after its time. *)
Inductive step : system -> option string -> system -> Prop :=
  | spawn tid p s :
      p ∉ s_started s -> s_threads s !! tid = None ->
      step s None (System (s_now s) (s_cache s) (p :: s_started s) (<[tid := MkThread p ∅ [] Running]> (s_threads s)))
  | crash tid s : step s None (System (s_now s) (s_cache s) (s_started s) (delete tid (s_threads s)))
  | tick now s : s_now s <= now -> step s None (System now (s_cache s) (s_started s) (s_threads s))
  | evict m key s :
      (forall now k, s_now s <= now -> holder m now k = if bool_decide (k = key) then None else holder (s_cache s) now k) ->
      step s (Some key) (System (s_now s) m (s_started s) (s_threads s))
  | enter tid t key time timeout trace s :
      s_threads s !! tid = Some t -> t_status t = Running -> 0 <= time ->
      step s None (set_thread tid (s_cache s) (acquire_start (s_now s) key time timeout trace t) s)
  | attempt tid t l start o m t' r s :
      s_threads s !! tid = Some t -> t_status t = Waiting l start ->
      acquire_try o (s_now s) l start t (s_cache s) = (m, t', r) ->
      step s None (set_thread tid m t' s)
  | leave tid t l rest t' r s :
      s_threads s !! tid = Some t -> t_status t = Running -> t_stack t = l :: rest ->
      release_check (s_now s) l t (s_cache s) = (t', r) ->
      step s None (set_thread tid (s_cache s) t' s)
  | unlock tid t l rest m t' r s :
      s_threads s !! tid = Some t -> t_status t = Releasing -> t_stack t = l :: rest ->
      release_delete l t (s_cache s) = (m, t', r) ->
      step s (if in_time (s_now s) l then None else Some (lk_key l)) (set_thread tid m t' s).

(** The states that can be reached, with the labels of the steps. *)
Inductive reachable (m0 : M) : list string -> system -> Prop :=
  | initially now : (forall now key, holder m0 now key = None) -> reachable m0 [] (System now m0 [] ∅)
  | after ds s d s' : reachable m0 ds s -> step s d s' -> reachable m0 (option_list d ++ ds) s'.

(** A thread is within a block of a key with its lock in time. *)
Definition inside (now : Z) (key : string) (t : thread) : Prop :=
  exists l, l ∈ t_stack t /\ lk_key l = key /\ lk_owns l = true /\ in_time now l = true.
End lock.
Arguments System {M} _ _ _ _.
End Lock.
