(* ===== verification/LockProps.v ===== *)
(** * Locks of memcached: properties

    Where each process has one thread, no two threads are within blocks of one
    key while their locks are in time, unless memcached evicts the key or a
    holder deletes it too late; a thread's set of keys is that of the blocks it
    is in. *)

From S2P Require Import Prelude Lock.

Module LockProps.
Import Lock.

Section lock.
Context {M : Type} `{LockCache M}.

(** ** The blocks of a thread *)

(** The keys a stack of blocks owns. *)
Fixpoint owned (st : list lock) : gset string :=
  match st with
  | [] => ∅
  | l :: st => (if lk_owns l then {[lk_key l]} else ∅) ∪ owned st
  end.

(** A block owns its lock when no outer one does. *)
Fixpoint stack_ok (p : process) (st : list lock) : Prop :=
  match st with
  | [] => True
  | l :: st => (lk_have l = true /\ (lk_nonce l).1 = p /\ 0 <= lk_time l /\ (lk_owns l = true <-> lk_key l ∉ owned st)) /\ stack_ok p st
  end.

Definition status_ok (t : thread) : Prop :=
  match t_status t with
  | Running => True
  | Waiting l _ => lk_key l ∉ t_locks t /\ (lk_nonce l).1 = t_process t /\ 0 <= lk_time l
  | Releasing => exists l st, t_stack t = l :: st /\ lk_owns l = true
  end.

Record thread_ok (t : thread) : Prop := {
  to_stack : stack_ok (t_process t) (t_stack t);
  to_locks : t_locks t = owned (t_stack t);
  to_status : status_ok t
}.

Lemma elem_of_owned k st : k ∈ owned st <-> exists l, l ∈ st /\ lk_key l = k /\ lk_owns l = true.
Proof.
  induction st as [|l st IH]; simpl; [set_solver|]. rewrite elem_of_union, IH. split.
  - intros [Hk | (l' & Hl & Hk)]; [|exists l'; split; [by right|done]].
    destruct (lk_owns l) eqn:E; [|set_solver]. apply elem_of_singleton in Hk as ->. exists l. split; [by left|done].
  - intros (l' & [-> | Hl]%elem_of_cons & Hk & Ho); [left; rewrite Ho; set_solver|right; by exists l'].
Qed.

Lemma stack_ok_elem p st l : stack_ok p st -> l ∈ st -> lk_have l = true /\ (lk_nonce l).1 = p /\ 0 <= lk_time l.
Proof.
  induction st as [|l' st IH]; simpl; [by intros _ ?%elem_of_nil|]. intros [(H1 & H2 & H3 & _) Hst] [-> | Hl]%elem_of_cons; [done|by apply IH].
Qed.

(** The owner of a key is unique. *)
Lemma stack_ok_owner p st l l' :
  stack_ok p st -> l ∈ st -> l' ∈ st -> lk_key l = lk_key l' -> lk_owns l = true -> lk_owns l' = true -> l = l'.
Proof.
  induction st as [|l0 st IH]; simpl; [by intros _ ?%elem_of_nil|].
  intros [(_ & _ & _ & Ho) Hst] [-> | Hl]%elem_of_cons [-> | Hl']%elem_of_cons Hk Hol Hol'; [done|..|by apply IH]; exfalso.
  - apply Ho in Hol. apply Hol. rewrite elem_of_owned. by exists l'.
  - apply Ho in Hol'. apply Hol'. rewrite elem_of_owned. by exists l.
Qed.

Lemma thread_ok_pop l st t :
  thread_ok t -> t_stack t = l :: st -> lk_owns l = true ->
  finish_release l t = (MkThread (t_process t) (t_locks t ∖ {[lk_key l]}) st Running, Ok tt) /\
  thread_ok (MkThread (t_process t) (t_locks t ∖ {[lk_key l]}) st Running).
Proof.
  intros [Hst Hl _] E Ho. rewrite E in *. simpl in Hst, Hl. rewrite Ho in Hl. destruct Hst as [(_ & _ & _ & Hown) Hst].
  unfold finish_release. rewrite bool_decide_true by set_solver. rewrite E. split; [done|]. split; simpl; [done| |done].
  apply Hown in Ho. rewrite Hl. set_solver.
Qed.

Lemma thread_ok_start now key time timeout trace t :
  thread_ok t -> 0 <= time -> thread_ok (acquire_start now key time timeout trace t).
Proof.
  intros [Hst Hl Hs] Ht. unfold acquire_start. case_bool_decide as Hk; split; simpl; try done.
  - split; [|done]. repeat split; try done. intros Hn. destruct Hn. by rewrite <- Hl.
  - rewrite Hl. set_solver.
Qed.

Lemma thread_ok_acquired now l start t :
  thread_ok t -> t_status t = Waiting l start -> thread_ok (add_lock (lk_key l) (push (set_owns now l) t)).
Proof.
  intros [Hst Hl Hs] E. unfold status_ok in Hs. rewrite E in Hs. destruct Hs as (Hk & Hn & Ht). split; simpl; [|set_solver|done].
  split; [|done]. rewrite <- Hl. split; [done|split; [done|split; [done|by split]]].
Qed.

(** ** The invariant *)

Definition owns_key (t : thread) (k : string) (n : nonce) : Prop :=
  exists l, l ∈ t_stack t /\ lk_key l = k /\ lk_owns l = true /\ lk_nonce l = n.

Record inv (ds : list string) (s : system (M := M)) : Prop := {
  i_started tid t : s_threads s !! tid = Some t -> t_process t ∈ s_started s;
  i_one tid tid' t t' : s_threads s !! tid = Some t -> s_threads s !! tid' = Some t' -> t_process t = t_process t' -> tid = tid';
  i_thread tid t : s_threads s !! tid = Some t -> thread_ok t;
  i_holder k n : holder (s_cache s) (s_now s) k = Some n -> n.1 ∈ s_started s /\
    forall tid t, s_threads s !! tid = Some t -> t_process t = n.1 -> owns_key t k n;
  i_held tid t l now : s_threads s !! tid = Some t -> l ∈ t_stack t -> lk_owns l = true -> lk_key l ∉ ds ->
    s_now s <= now -> in_time now l = true -> holder (s_cache s) now (lk_key l) = Some (lk_nonce l)
}.

Lemma in_time_earlier now now' l : now <= now' -> in_time now' l = true -> in_time now l = true.
Proof. unfold in_time. rewrite !bool_decide_eq_true. lia. Qed.

(** In-time locks of one key belong to one thread. *)
Lemma inv_exclusive ds s tid tid' t t' l l' :
  inv ds s -> s_threads s !! tid = Some t -> s_threads s !! tid' = Some t' -> l ∈ t_stack t -> l' ∈ t_stack t' ->
  lk_owns l = true -> lk_owns l' = true -> lk_key l = lk_key l' -> lk_key l ∉ ds ->
  in_time (s_now s) l = true -> in_time (s_now s) l' = true -> tid = tid'.
Proof.
  intros [_ Hone Hth _ Hheld] Et Et' Hl Hl' Ho Ho' Ek Hds Hin Hin'.
  pose proof (Hheld tid t l (s_now s) Et Hl Ho Hds ltac:(lia) Hin) as E1.
  rewrite Ek in Hds. pose proof (Hheld tid' t' l' (s_now s) Et' Hl' Ho' Hds ltac:(lia) Hin') as E2.
  rewrite Ek, E2 in E1. injection E1 as E1. apply (Hone tid tid' t t' Et Et').
  destruct (stack_ok_elem _ _ l (to_stack t (Hth tid t Et)) Hl) as (_ & <- & _).
  destruct (stack_ok_elem _ _ l' (to_stack t' (Hth tid' t' Et')) Hl') as (_ & <- & _). by rewrite E1.
Qed.

Lemma surjective_status t : set_status (t_status t) t = t.
Proof. by destruct t. Qed.

(** A step of one thread. *)
Lemma inv_step ds ds' s tid t t' m :
  inv ds s -> s_threads s !! tid = Some t -> t_process t' = t_process t -> thread_ok t' -> (forall k, k ∉ ds' -> k ∉ ds) ->
  (forall k n, holder m (s_now s) k = Some n -> n.1 <> t_process t -> holder (s_cache s) (s_now s) k = Some n) ->
  (forall k n, holder m (s_now s) k = Some n -> n.1 = t_process t -> owns_key t' k n) ->
  (forall l now, l ∈ t_stack t' -> lk_owns l = true -> lk_key l ∉ ds' -> s_now s <= now -> in_time now l = true ->
    holder m now (lk_key l) = Some (lk_nonce l)) ->
  (forall tid' t0 l now, tid' <> tid -> s_threads s !! tid' = Some t0 -> l ∈ t_stack t0 -> lk_owns l = true -> lk_key l ∉ ds' ->
    s_now s <= now -> in_time now l = true -> holder m now (lk_key l) = Some (lk_nonce l)) ->
  inv ds' (set_thread tid m t' s).
Proof.
  intros Hinv Et Hp Hok Hds Hother Hown Hmine Htheirs. destruct Hinv as [Hst Hone Hth Hho _]. split; simpl.
  - intros tid0 t0 [(-> & <-) | [Hne E0]]%lookup_insert_Some; [rewrite Hp|]; by eapply Hst.
  - intros tid1 tid2 t1 t2 [(-> & <-) | [Hne1 E1]]%lookup_insert_Some [(-> & <-) | [Hne2 E2]]%lookup_insert_Some; rewrite ?Hp; intros E;
      [done|by apply (Hone tid1 tid2 t t2)|by apply (Hone tid1 tid2 t1 t)|by apply (Hone tid1 tid2 t1 t2)].
  - intros tid0 t0 [(-> & <-) | [Hne E0]]%lookup_insert_Some; [done|by eapply Hth].
  - intros k n Hk. destruct (decide (n.1 = t_process t)) as [E | E].
    + split; [rewrite E; by eapply Hst|]. intros tid0 t0 [(-> & <-) | [Hne E0]]%lookup_insert_Some Hn; [by apply Hown|].
      destruct Hne. apply (Hone tid tid0 t t0 Et E0). congruence.
    + destruct (Hho k n (Hother k n Hk E)) as [H1 H2]. split; [done|].
      intros tid0 t0 [(-> & <-) | [Hne E0]]%lookup_insert_Some Hn; [congruence|by eapply H2].
  - intros tid0 t0 l now [(-> & <-) | [Hne E0]]%lookup_insert_Some; [by apply Hmine|by eapply Htheirs].
Qed.

Lemma added_holder l now m k now' :
  now <= now' -> 0 <= lk_time l ->
  holder (lc_add (lk_key l) (lk_nonce l) (lk_time l) now m).1 now' k =
    if bool_decide (k = lk_key l /\ holder m now (lk_key l) = None) then if in_time now' (set_owns now l) then Some (lk_nonce l) else None
    else holder m now' k.
Proof. intros Hn Ht. rewrite lc_add_holder by done. unfold in_time. simpl. by repeat case_bool_decide. Qed.

Lemma in_time_now l now : 0 <= lk_time l -> in_time now (set_owns now l) = true.
Proof. unfold in_time. simpl. rewrite bool_decide_eq_true. lia. Qed.

(** An attempt that gets the lock finds the key free, and one that does not
    leaves memcached as it is. *)
Lemma try_add_spec o ds s tid t l start m got :
  inv ds s -> s_threads s !! tid = Some t -> t_status t = Waiting l start -> try_add o (s_now s) l (s_cache s) = (m, got) ->
  (forall now k, s_now s <= now -> holder m now k =
    if got && bool_decide (k = lk_key l) then if in_time now (set_owns (s_now s) l) then Some (lk_nonce l) else None
    else holder (s_cache s) now k) /\
  (got = true -> holder (s_cache s) (s_now s) (lk_key l) = None).
Proof.
  intros Hinv Et Es Htry. pose proof (i_thread ds s Hinv tid t Et) as [_ Hlocks Hs]. unfold status_ok in Hs. rewrite Es in Hs.
  destruct Hs as (Hk & Hn & Ht).
  assert (Hmine : holder (s_cache s) (s_now s) (lk_key l) <> Some (lk_nonce l)).
  { intros Hh. destruct (i_holder ds s Hinv _ _ Hh) as [_ Hh']. destruct (Hh' tid t Et ltac:(done)) as (l' & Hl' & Hk' & Ho & _).
    apply Hk. rewrite Hlocks, elem_of_owned. by exists l'. }
  destruct o as [|effect]; unfold try_add in Htry.
  - pose proof (lc_add_answer (lk_key l) (lk_nonce l) (lk_time l) (s_now s) (s_cache s)) as Ha. rewrite Htry in Ha. simpl in Ha.
    split; [|intros ->; by apply eq_sym, bool_decide_eq_true in Ha]. intros now k Hnow.
    pose proof (added_holder l (s_now s) (s_cache s) k now Hnow Ht) as E. rewrite Htry in E. simpl in E. rewrite E, Ha.
    destruct (decide (holder (s_cache s) (s_now s) (lk_key l) = None)) as [E0 | E0]; destruct (decide (k = lk_key l));
      rewrite ?(bool_decide_true (_ = None)), ?(bool_decide_false (_ = None)) by done; simpl;
      rewrite ?(bool_decide_true (k = _)), ?(bool_decide_false (k = _)) by done;
      rewrite ?(bool_decide_true (_ /\ _)), ?(bool_decide_false (_ /\ _)) by tauto; done.
  - injection Htry as <- <-. destruct effect; [|rewrite (bool_decide_false (_ = Some _)) by done; done].
    rewrite (added_holder l (s_now s) (s_cache s) (lk_key l) (s_now s)) by (done || lia). rewrite in_time_now by done.
    destruct (decide (holder (s_cache s) (s_now s) (lk_key l) = None)) as [E0 | E0].
    + rewrite (bool_decide_true (lk_key l = lk_key l /\ _)), (bool_decide_true (Some _ = _)) by done. split; [|done]. intros now k Hnow.
      rewrite added_holder by done. simpl. destruct (decide (k = lk_key l));
        rewrite ?(bool_decide_true (k = _)), ?(bool_decide_false (k = _)), ?(bool_decide_true (_ /\ _)), ?(bool_decide_false (_ /\ _)) by tauto; done.
    + rewrite (bool_decide_false (_ /\ _)) by tauto. rewrite bool_decide_false by done. split; [|done]. intros now k Hnow.
      rewrite added_holder by done. rewrite (bool_decide_false (_ /\ _)) by tauto. done.
Qed.

Lemma inv_set_status ds s tid t st :
  inv ds s -> s_threads s !! tid = Some t -> thread_ok (set_status st t) -> inv ds (set_thread tid (s_cache s) (set_status st t) s).
Proof.
  intros Hinv Et Hok. pose proof Hinv as [_ _ _ Hho Hheld]. eapply inv_step; try done.
  - intros k n Hk Hn. destruct (Hho k n Hk) as [_ Hk']. by apply (Hk' tid t).
  - intros l now Hl. by apply (Hheld tid t).
  - intros tid' t0 l now _ E0 Hl. by apply (Hheld tid' t0).
Qed.

Lemma inv_attempt ds s tid t l start o m t' r :
  inv ds s -> s_threads s !! tid = Some t -> t_status t = Waiting l start ->
  acquire_try o (s_now s) l start t (s_cache s) = (m, t', r) -> inv ds (set_thread tid m t' s).
Proof.
  intros Hinv Et Es Hacq. unfold acquire_try in Hacq. destruct (try_add o (s_now s) l (s_cache s)) as [m' got] eqn:Htry.
  destruct (try_add_spec o ds s tid t l start m' got Hinv Et Es Htry) as [Hm Hfree].
  pose proof Hinv as [_ _ Hth Hho Hheld]. pose proof (Hth tid t Et) as Hok.
  pose proof (to_status t Hok) as Hs. unfold status_ok in Hs. rewrite Es in Hs. destruct Hs as (Hk & Hn & Ht).
  destruct got; simpl in Hm.
  - injection Hacq as <- <- <-. specialize (Hfree eq_refl). eapply (inv_step ds); try done.
    + by eapply thread_ok_acquired.
    + intros k n. rewrite Hm by lia. case_bool_decide as Hkl; [|done]. destruct (in_time _ _); [|done]. intros [= <-] Hne. by destruct Hne.
    + intros k n. rewrite Hm by lia. case_bool_decide as Hkl.
      * destruct (in_time _ _); [|done]. intros [= <-] _. subst k. exists (set_owns (s_now s) l). split; [by left|done].
      * intros Hh Hne. destruct (Hho k n Hh) as [_ Hk']. destruct (Hk' tid t Et ltac:(done)) as (l' & Hl' & Hx). exists l'. split; [by right|done].
    + simpl. intros l' now [-> | Hl']%elem_of_cons Ho Hds Hnow Hin; rewrite Hm by lia.
      * simpl. rewrite bool_decide_true by done. by rewrite Hin.
      * rewrite bool_decide_false; [by apply (Hheld tid t)|]. intros E. apply Hk. rewrite (to_locks t Hok), elem_of_owned. by exists l'.
    + intros tid' t0 l' now Hne E0 Hl' Ho Hds Hnow Hin. rewrite Hm by lia. rewrite bool_decide_false; [by apply (Hheld tid' t0)|]. intros E.
      pose proof (Hheld tid' t0 l' (s_now s) E0 Hl' Ho Hds ltac:(lia) (in_time_earlier _ _ _ Hnow Hin)) as E1. congruence.
  - assert (Hsame : forall st, thread_ok (set_status st t) -> inv ds (set_thread tid m' (set_status st t) s)).
    { intros st Hst. eapply (inv_step ds); try done.
      - intros k n. by rewrite Hm by lia.
      - intros k n. rewrite Hm by lia. intros Hh Hne. destruct (Hho k n Hh) as [_ Hk']. by apply (Hk' tid t).
      - intros l' now Hl' Ho Hds Hnow Hin. rewrite Hm by lia. by apply (Hheld tid t).
      - intros tid' t0 l' now _ E0 Hl' Ho Hds Hnow Hin. rewrite Hm by lia. by apply (Hheld tid' t0). }
    destruct Hok as [Hst Hl Hs]. destruct (lk_timeout l <? _); injection Hacq as <- <- <-.
    + apply Hsame. by split.
    + rewrite <- (surjective_status t). apply Hsame. by split.
Qed.

(** A thread that leaves a block it owns, with memcached as it is or without
    the key. *)
Lemma inv_pop ds ds' s tid t l st m :
  inv ds s -> s_threads s !! tid = Some t -> t_stack t = l :: st -> lk_owns l = true -> (forall k, k ∉ ds' -> k ∉ ds) ->
  (forall now k, s_now s <= now -> holder m now k = if bool_decide (k = lk_key l) then None else holder (s_cache s) now k) \/
  m = s_cache s /\ holder (s_cache s) (s_now s) (lk_key l) <> Some (lk_nonce l) ->
  (lk_key l ∉ ds' -> forall now k, s_now s <= now -> holder m now k <> holder (s_cache s) now k -> in_time (s_now s) l = true) ->
  inv ds' (set_thread tid m (MkThread (t_process t) (t_locks t ∖ {[lk_key l]}) st Running) s).
Proof.
  intros Hinv Et Est Ho Hds Hm Hlate. pose proof Hinv as [_ _ Hth Hho Hheld]. pose proof (Hth tid t Et) as Hok.
  assert (Hsub : forall k n, holder m (s_now s) k = Some n -> holder (s_cache s) (s_now s) k = Some n /\ (k = lk_key l -> n.1 <> t_process t)).
  { intros k n Hk. destruct Hm as [Hm | [-> Hne]].
    - rewrite Hm in Hk by lia. case_bool_decide; [done|]. by split.
    - split; [done|]. intros -> Hp. apply Hne. destruct (Hho _ _ Hk) as [_ Hown]. destruct (Hown tid t Et (eq_sym Hp)) as (l' & Hl' & Ek & Ho' & <-).
      rewrite Hk. f_equal. f_equal. eapply stack_ok_owner; [exact (to_stack t Hok)|exact Hl'|rewrite Est; by left|done..]. }
  eapply (inv_step ds); try done.
  - by apply (thread_ok_pop l st t).
  - intros k n Hk _. by apply Hsub.
  - intros k n Hk Hp. destruct (Hsub k n Hk) as [Hk' Hne]. destruct (Hho k n Hk') as [_ Hown]. destruct (Hown tid t Et ltac:(done)) as (l' & Hl' & Ek & Ho' & En).
    exists l'. split; [|done]. simpl. rewrite Est in Hl'. apply elem_of_cons in Hl' as [-> | Hl']; [|done]. by destruct Hne.
  - simpl. intros l' now Hl' Ho' Hds' Hnow Hin.
    assert (Hh : holder (s_cache s) now (lk_key l') = Some (lk_nonce l')) by (apply (Hheld tid t); try done; [rewrite Est; by right|by apply Hds]).
    destruct Hm as [Hm | [-> _]]; [|done]. rewrite Hm by done. case_bool_decide as E; [|done].
    pose proof (to_stack t Hok) as Hst. rewrite Est in Hst. destruct Hst as [(_ & _ & _ & Hown) _]. apply Hown in Ho. destruct Ho.
    rewrite elem_of_owned. by exists l'.
  - intros tid' t0 l' now Hne E0 Hl' Ho' Hds' Hnow Hin.
    assert (Hh : holder (s_cache s) now (lk_key l') = Some (lk_nonce l')) by (apply (Hheld tid' t0); try done; by apply Hds).
    destruct Hm as [Hm | [-> _]]; [|done]. rewrite Hm by done. case_bool_decide as E; [|done]. exfalso. apply Hne.
    eapply (inv_exclusive ds s tid' tid t0 t l' l); try done; [rewrite Est; by left|by apply Hds|by eapply in_time_earlier|].
    rewrite E in Hds'. apply (Hlate Hds' now (lk_key l) Hnow). rewrite Hm, bool_decide_true by done. rewrite <- E, Hh. done.
Qed.

Lemma inv_leave ds s tid t l st t' r :
  inv ds s -> s_threads s !! tid = Some t -> t_status t = Running -> t_stack t = l :: st ->
  release_check (s_now s) l t (s_cache s) = (t', r) -> r = Ok tt /\ inv ds (set_thread tid (s_cache s) t' s).
Proof.
  intros Hinv Et Es Est Hrel. pose proof (i_thread ds s Hinv tid t Et) as Hok. unfold release_check in Hrel.
  destruct (lk_owns l) eqn:Ho.
  - case_bool_decide as Hh.
    + injection Hrel as <- <-. split; [done|]. apply inv_set_status; [done..|]. destruct Hok as [Hst Hl _]. split; simpl; try done.
      unfold status_ok. simpl. by exists l, st.
    + destruct (thread_ok_pop l st t Hok Est Ho) as [E _]. rewrite E in Hrel. injection Hrel as <- <-. split; [done|].
      eapply (inv_pop ds); try done. by right.
  - rewrite Est in Hrel. injection Hrel as <- <-. split; [done|]. pose proof Hinv as [_ _ Hth Hho Hheld]. destruct Hok as [Hst Hl _].
    rewrite Est in Hst, Hl. simpl in Hst, Hl. rewrite Ho, (left_id_L ∅ (∪)) in Hl.
    eapply (inv_step ds); try done.
    + split; simpl; [by destruct Hst|done|done].
    + intros k n Hk Hp. destruct (Hho k n Hk) as [_ Hown]. destruct (Hown tid t Et ltac:(done)) as (l' & Hl' & Ek & Ho' & En).
      exists l'. split; [|done]. rewrite Est in Hl'. apply elem_of_cons in Hl' as [-> | Hl']; [congruence|done].
    + intros l' now Hl' Ho' Hds Hnow Hin. apply (Hheld tid t); try done. rewrite Est. by right.
    + intros tid' t0 l' now _ E0 Hl'. by apply (Hheld tid' t0).
Qed.

Lemma inv_unlock ds s tid t l st m t' r :
  inv ds s -> s_threads s !! tid = Some t -> t_status t = Releasing -> t_stack t = l :: st -> release_delete l t (s_cache s) = (m, t', r) ->
  r = Ok tt /\ inv (option_list (if in_time (s_now s) l then None else Some (lk_key l)) ++ ds) (set_thread tid m t' s).
Proof.
  intros Hinv Et Es Est Hrel. pose proof (i_thread ds s Hinv tid t Et) as Hok.
  assert (Ho : lk_owns l = true).
  { destruct Hok as [_ _ Hs]. unfold status_ok in Hs. rewrite Es in Hs. destruct Hs as (l' & st' & E & Ho). congruence. }
  unfold release_delete in Hrel. destruct (thread_ok_pop l st t Hok Est Ho) as [E _]. rewrite E in Hrel. injection Hrel as <- <- <-. split; [done|].
  eapply (inv_pop ds); try done.
  - intros k Hk Hin. apply Hk. apply elem_of_app. by right.
  - left. intros now k _. by rewrite lc_delete_holder.
  - intros Hds now k _ _. destruct (in_time (s_now s) l); [done|]. destruct Hds. apply elem_of_app. left. simpl. by left.
Qed.

Lemma lock_step_inv ds s d s' : inv ds s -> step s d s' -> inv (option_list d ++ ds) s'.
Proof.
  intros Hinv Hs. destruct Hs; simpl; try rewrite app_nil_l.
  - pose proof Hinv as [Hst Hone Hth Hho Hheld]. split; simpl.
    + intros tid0 t0 [(-> & <-) | [Hne E]]%lookup_insert_Some; [by left|right; by eapply Hst].
    + intros tid1 tid2 t1 t2 [(-> & <-) | [Hne1 E1]]%lookup_insert_Some [(-> & <-) | [Hne2 E2]]%lookup_insert_Some; simpl; intros E;
        [done|exfalso..|by apply (Hone tid1 tid2 t1 t2)]; [apply Hst in E2|apply Hst in E1]; congruence.
    + intros tid0 t0 [(-> & <-) | [Hne E]]%lookup_insert_Some; [by split|by eapply Hth].
    + intros k n Hk. destruct (Hho k n Hk) as [H1' H2']. split; [by right|].
      intros tid0 t0 [(-> & <-) | [Hne E]]%lookup_insert_Some; simpl; [intros ->; done|by eapply H2'].
    + intros tid0 t0 l now [(-> & <-) | [Hne E]]%lookup_insert_Some; simpl; [by intros ?%elem_of_nil|by apply (Hheld tid0 t0)].
  - pose proof Hinv as [Hst Hone Hth Hho Hheld]. split; simpl.
    + intros tid0 t0 [_ E]%lookup_delete_Some. by eapply Hst.
    + intros tid1 tid2 t1 t2 [_ E1]%lookup_delete_Some [_ E2]%lookup_delete_Some. by apply (Hone tid1 tid2 t1 t2).
    + intros tid0 t0 [_ E]%lookup_delete_Some. by eapply Hth.
    + intros k n Hk. destruct (Hho k n Hk) as [H1' H2']. split; [done|]. intros tid0 t0 [_ E]%lookup_delete_Some. by eapply H2'.
    + intros tid0 t0 l now [_ E]%lookup_delete_Some. by apply (Hheld tid0 t0).
  - pose proof Hinv as [Hst Hone Hth Hho Hheld]. split; simpl; try done.
    + intros k n Hk. apply (Hho k n). by eapply holder_earlier.
    + intros tid0 t0 l now' E Hl Ho Hds Hnow. apply (Hheld tid0 t0); try done. lia.
  - rename select (forall now k, _) into Hm. pose proof Hinv as [Hst Hone Hth Hho Hheld]. split; simpl; try done.
    + intros k n. rewrite Hm by lia. case_bool_decide; [done|apply Hho].
    + intros tid0 t0 l now' E Hl Ho Hds Hnow Hin. rewrite Hm by done. apply not_elem_of_cons in Hds as [Hne Hds].
      rewrite bool_decide_false by done. by apply (Hheld tid0 t0).
  - rename select (s_threads s !! tid = Some t) into Et. pose proof (i_thread ds s Hinv tid t Et) as Hok.
    pose proof (thread_ok_start (s_now s) key time timeout trace t Hok ltac:(done)) as Hok'. pose proof Hinv as [Hst Hone Hth Hho Hheld].
    assert (Hst' : exists pre, t_stack (acquire_start (s_now s) key time timeout trace t) = pre ++ t_stack t /\ Forall (fun l => lk_owns l = false) pre
      /\ t_process (acquire_start (s_now s) key time timeout trace t) = t_process t).
    { unfold acquire_start. case_bool_decide; [eexists [_]|exists []]; (split; [done|split; [|done]]); [by constructor|constructor]. }
    destruct Hst' as (pre & E & Hpre & Ep). eapply (inv_step ds); try done.
    + intros k n Hk Hp. destruct (Hho k n Hk) as [_ Hown]. destruct (Hown tid t Et ltac:(done)) as (l & Hl & Hx). exists l. split; [|done].
      rewrite E. apply elem_of_app. by right.
    + intros l now Hl Ho. rewrite E in Hl. apply elem_of_app in Hl as [Hl | Hl]; [|by apply (Hheld tid t)].
      rewrite Forall_forall in Hpre. by rewrite (Hpre l Hl) in Ho.
    + intros tid' t0 l now _ E0 Hl. by apply (Hheld tid' t0).
  - by eapply inv_attempt.
  - by eapply inv_leave.
  - by eapply inv_unlock.
Qed.

Lemma lock_reachable_inv m0 ds s : reachable m0 ds s -> inv ds s.
Proof.
  induction 1 as [now Hm|]; [|by eapply lock_step_inv]. split; simpl; try done. intros k n. by rewrite Hm.
Qed.

(** C7. Where each process has one thread, two threads are never within blocks
    of one key while their locks are in time, unless memcached lost the key or
    a lock was deleted after its time. *)
Theorem mutual_exclusion m0 ds s key tid tid' t t' :
  reachable m0 ds s -> key ∉ ds -> s_threads s !! tid = Some t -> s_threads s !! tid' = Some t' ->
  inside (s_now s) key t -> inside (s_now s) key t' -> tid = tid'.
Proof.
  intros Hr Hds Et Et' (l & Hl & Hk & Ho & Hin) (l' & Hl' & Hk' & Ho' & Hin'). apply lock_reachable_inv in Hr.
  eapply (inv_exclusive ds s tid tid' t t' l l'); try done; congruence.
Qed.

(** Within its blocks a thread has every lock, the keys it knows are those
    of the blocks with a lock of their own, of which each key has one, and
    releasing never fails. *)
Theorem blocks_nested m0 ds s tid t :
  reachable m0 ds s -> s_threads s !! tid = Some t ->
  (forall l, l ∈ t_stack t -> lk_have l = true /\ lk_key l ∈ t_locks t) /\
  (forall k, k ∈ t_locks t <-> exists l, l ∈ t_stack t /\ lk_key l = k /\ lk_owns l = true) /\
  (forall l l', l ∈ t_stack t -> l' ∈ t_stack t -> lk_key l = lk_key l' -> lk_owns l = true -> lk_owns l' = true -> l = l') /\
  (forall l st, t_status t = Running -> t_stack t = l :: st -> (release_check (s_now s) l t (s_cache s)).2 = Ok tt) /\
  (forall l st, t_status t = Releasing -> t_stack t = l :: st -> (release_delete l t (s_cache s)).2 = Ok tt).
Proof.
  intros Hr Et. apply lock_reachable_inv in Hr as Hinv. pose proof (i_thread ds s Hinv tid t Et) as [Hst Hl _].
  split; [|split; [intros k; by rewrite Hl, elem_of_owned|split; [intros l l'; by apply stack_ok_owner with (p := t_process t)|split]]].
  - intros l Hin. split; [by eapply stack_ok_elem|]. rewrite Hl. clear -Hst Hin. induction (t_stack t) as [|l' st IH]; [by apply elem_of_nil in Hin|].
    simpl in Hst |- *. destruct Hst as [(_ & _ & _ & Ho) Hst]. apply elem_of_cons in Hin as [-> | Hin]; [|set_solver].
    destruct (lk_owns l'); [set_solver|]. destruct (decide (lk_key l' ∈ owned st)); [set_solver|]. by apply Ho in n.
  - intros l st Es E. destruct (release_check (s_now s) l t (s_cache s)) as [t' r] eqn:Hrel. by destruct (inv_leave ds s tid t l st t' r Hinv Et Es E Hrel).
  - intros l st Es E. destruct (release_delete l t (s_cache s)) as [[m t'] r] eqn:Hrel.
    by destruct (inv_unlock ds s tid t l st m t' r Hinv Et Es E Hrel).
Qed.
End lock.

(** ** An implementation and instances *)

Notation items := (gmap string (nonce * option Z)).

Definition items_holder (m : items) (now : Z) (key : string) : option nonce :=
  match m !! key with
  | Some (n, Some e) => if bool_decide (now < e) then Some n else None
  | Some (n, None) => Some n
  | None => None
  end.

#[export] Program Instance items_cache : LockCache items := {
  holder := items_holder;
  lc_add key n time now m :=
    if bool_decide (items_holder m now key = None) then (<[key := (n, if bool_decide (time = 0) then None else Some (now + time))]> m, true)
    else (m, false);
  lc_delete key m := delete key m
}.
Next Obligation.
  intros m now now' key n Hle. unfold items_holder. destruct (m !! key) as [[n' [e|]]|]; [|done..].
  case_bool_decide; [|done]. by rewrite bool_decide_true by lia.
Qed.
Next Obligation. intros key n time now m. simpl. by destruct (bool_decide _). Qed.
Next Obligation.
  intros key n time now m now' key' Hle. simpl. case_bool_decide as E; simpl.
  - rewrite E. unfold items_holder. destruct (decide (key' = key)) as [-> | Hne].
    + rewrite lookup_insert_eq, (bool_decide_true (key = key /\ _)) by done. destruct (decide (time = 0)) as [-> | Ht].
      * by rewrite bool_decide_true by lia.
      * rewrite !(bool_decide_false (time = 0)) by done.
        destruct (decide (now' < now + time)); [by rewrite !bool_decide_true by lia|by rewrite !bool_decide_false by lia].
    + rewrite lookup_insert_ne by done. rewrite (bool_decide_false (key' = key /\ _)) by tauto. done.
  - rewrite bool_decide_false by tauto. done.
Qed.
Next Obligation.
  intros key m now key'. unfold items_holder. case_bool_decide as E; [subst; by rewrite lookup_delete_eq|by rewrite lookup_delete_ne].
Qed.

(** Two processes, of which the first has the lock and the second waits. *)
Definition key0 : string := "commit_t3_1".

Definition owner0 : thread := acquire_start 5 key0 30 30 "a" (MkThread ("h", 1) ∅ [] Running).

Definition waiter0 : thread := acquire_start 6 key0 30 30 "a" (MkThread ("h", 2) ∅ [] Running).

Definition got0 : items * thread := (acquire_try (M := items) Answered 5 (MkLock key0 30 30 ("h", 1, "a") false false 5) 5 owner0 ∅).1.

Definition state0 : system (M := items) :=
  System 6 got0.1 [("h", 2); ("h", 1)] (<[2%nat := waiter0]> (<[2%nat := MkThread ("h", 2) ∅ [] Running]> (<[1%nat := got0.2]> (<[1%nat := owner0]> (<[1%nat := MkThread ("h", 1) ∅ [] Running]> ∅))))).

Lemma state0_reachable : reachable ∅ [] state0.
Proof.
  set (t1 := MkThread ("h", 1) ∅ [] Running). set (t2 := MkThread ("h", 2) ∅ [] Running).
  assert (H0 : reachable (M := items) ∅ [] (System 5 ∅ [] ∅)) by (apply initially; intros now key; reflexivity).
  unshelve epose proof (after _ _ _ _ _ H0 (spawn 1 ("h", 1) _ _ _)) as H1; [apply not_elem_of_nil|reflexivity|].
  unshelve epose proof (after _ _ _ _ _ H1 (enter 1 t1 key0 30 30 "a" _ _ eq_refl _)) as H2; [reflexivity|lia|].
  unshelve epose proof (after _ _ _ _ _ H2 (attempt 1 owner0 (MkLock key0 30 30 ("h", 1, "a") false false 5) 5 Answered got0.1 got0.2 (Ok tt) _ _ eq_refl _)) as H3; [reflexivity..|].
  unshelve epose proof (after _ _ _ _ _ H3 (tick 6 _ _)) as H4; [simpl; lia|].
  unshelve epose proof (after _ _ _ _ _ H4 (spawn 2 ("h", 2) _ _ _)) as H5; [simpl; intros ?%list_elem_of_singleton; discriminate|reflexivity|].
  unshelve epose proof (after _ _ _ _ _ H5 (enter 2 t2 key0 30 30 "a" _ _ eq_refl _)) as H6; [reflexivity|lia|]. exact H6.
Qed.

Lemma mutual_exclusion_witness : inside 6 key0 got0.2 /\ ~ inside 6 key0 waiter0.
Proof.
  assert (Hin : inside 6 key0 got0.2) by (eexists; split; [left|split; [|split]]; reflexivity).
  split; [exact Hin|]. intros Hin'.
  pose proof (mutual_exclusion ∅ [] state0 key0 1 2 got0.2 waiter0 state0_reachable (not_elem_of_nil _) eq_refl eq_refl Hin Hin') as E. discriminate E.
Defined.

Lemma blocks_nested_witness : t_locks got0.2 = {[key0]} /\ exists l, l ∈ t_stack got0.2 /\ lk_key l = key0 /\ lk_owns l = true.
Proof.
  split; [reflexivity|]. pose proof (blocks_nested ∅ [] state0 1 got0.2 state0_reachable eq_refl) as (_ & Hk & _).
  apply (Hk key0). apply elem_of_union. left. apply elem_of_singleton. reflexivity.
Defined.

(** A block within a block is entered at once, and leaving it releases
    nothing. *)
Example inner_block :
  let t := acquire_start 7 key0 30 30 "b" got0.2 in
  t_status t = Running /\ (t_stack t = [] -> False) /\
  match t_stack t with l :: _ => release_check 8 l t got0.1 = (got0.2, Ok tt) | [] => False end.
Proof. vm_compute. repeat split. discriminate. Qed.

(** Two threads of one process that wait at one place have one nonce: when the
    [add] of the second raises, it takes the lock of the first for its own. *)
Example same_process_both_inside :
  let l := MkLock key0 30 30 ("h", 1, "a") false false 6 in
  let '(_, t, r) := acquire_try (Failed false) 7 l 6 (set_status (Waiting l 6) (MkThread ("h", 1) ∅ [] Running)) got0.1 in
  r = Ok tt /\ t_locks t = {[key0]}.
Proof. vm_compute. repeat split. Qed.

(** A holder that reads the key in time and deletes it too late deletes the
    lock of the next holder, so that a third one gets it as well. *)
Example late_delete :
  let l p := MkLock key0 30 30 ("h", p, "a") false false 0 in
  let l1 := set_owns 0 (l 1) in
  let m1 := (try_add Answered 0 (l 1) (∅ : items)).1 in
  holder m1 29 key0 = Some (lk_nonce l1) /\
  let m2 := try_add Answered 31 (l 2) m1 in
  let m3 := lc_delete key0 m2.1 in
  let m4 := try_add Answered 32 (l 3) m3 in
  m2.2 = true /\ m4.2 = true /\ in_time 32 (set_owns 31 (l 2)) = true.
Proof. vm_compute. repeat split. Qed.

(** When the clock is set back while a thread waits, it gives up at once. *)
Example clock_set_back : seconds 100 99 = 86399.
Proof. done. Qed.
End LockProps.
