(* ===== verification/Signing.v ===== *)
(** * Signed requests

    lib/signing.py with [VSigned] of lib/validator/validator.py: signatures of
    the headers and the body of a request, parsed by two regular expressions
    and checked against an HMAC under a secret derived from the platform and
    the version of the client. *)

From S2P Require Import Prelude PyString.
From Stdlib Require Import Ascii.

Module Signing.
Import PyString.

(** What the code takes from elsewhere: the hexadecimal HMAC-SHA256 under a
    secret, and the server's own secret. *)
Class Hmac := {
  hmac_sha256 : string -> string -> string;
  request_signature_secret : string
}.

(** Digests are made of hexadecimal digits. *)
Definition is_hex (a : ascii) : bool := is_digit a || ((97 <=? nat_of_ascii a)%nat && (nat_of_ascii a <=? 102)%nat).

Class HmacLaws (H : Hmac) : Prop := { hmac_hex secret body : str_forall is_hex (hmac_sha256 secret body) = true }.

(** ** Results *)

Definition GLOBAL_TOKEN_VERSION : Z := 1.

(** The errors this code sets. *)
Inductive code := INVALID_FORMAT | UNKOWN_GLOBAL_VERSION | UNPARSEABLE | INVALIDATED_TOKEN | EXPIRED_TOKEN | SIGNATURE_MISMATCH | MULTISIG_MISMATCH.

#[export] Instance code_eq_dec : EqDecision code.
Proof. solve_decision. Defined.

#[export] Instance code_countable : Countable code.
Proof.
  refine (inj_countable' (fun c => match c with INVALID_FORMAT => 1 | UNKOWN_GLOBAL_VERSION => 2 | UNPARSEABLE => 3 | INVALIDATED_TOKEN => 4
    | EXPIRED_TOKEN => 5 | SIGNATURE_MISMATCH => 6 | MULTISIG_MISMATCH => 7 end%nat)
    (fun n => match n with 1 => INVALID_FORMAT | 2 => UNKOWN_GLOBAL_VERSION | 3 => UNPARSEABLE | 4 => INVALIDATED_TOKEN
    | 5 => EXPIRED_TOKEN | 6 => SIGNATURE_MISMATCH | _ => MULTISIG_MISMATCH end%nat) _).
  by intros [].
Defined.

(** What is kept with an error: nothing, an epoch, the name of an attribute. *)
Inductive details := NoDetails | Epoch (n : Z) | Attr (a : string).

Record signing_result := MkResult {
  global_version : Z;
  platform : option string;
  version : Z;
  mac : option string;
  valid_hmac : bool;
  epoch : option Z;
  ignored_errors : list code;
  errors : gmap (code * option string) details
}.

Definition empty_result : signing_result := MkResult (-1) None (-1) None false None [] ∅.

Definition add_error (e : code) (field : option string) (d : details) (r : signing_result) : signing_result :=
  MkResult (global_version r) (platform r) (version r) (mac r) (valid_hmac r) (epoch r) (ignored_errors r) (<[(e, field) := d]> (errors r)).

Definition add_ignore (e : code) (r : signing_result) : signing_result :=
  MkResult (global_version r) (platform r) (version r) (mac r) (valid_hmac r) (epoch r) (ignored_errors r ++ [e]) (errors r).

Definition set_global_version (n : Z) (r : signing_result) : signing_result :=
  MkResult n (platform r) (version r) (mac r) (valid_hmac r) (epoch r) (ignored_errors r) (errors r).

Definition set_hmac (b : bool) (r : signing_result) : signing_result :=
  MkResult (global_version r) (platform r) (version r) (mac r) b (epoch r) (ignored_errors r) (errors r).

Definition error_codes (r : signing_result) : gset code := list_to_set ((map_to_list (errors r)).*1.*1).

Definition has_errors (r : signing_result) : bool :=
  match ignored_errors r with
  | [] => negb (bool_decide (errors r = ∅))
  | ig => negb (bool_decide (error_codes r ⊆ list_to_set ig))
  end.

Definition is_valid (r : signing_result) : bool := valid_hmac r && negb (has_errors r).

(** [update]: the first attribute that differs is noted. *)
Definition mismatch (a b : signing_result) : option string :=
  if negb (global_version a =? global_version b) then Some "global_version"
  else if negb (bool_decide (platform a = platform b)) then Some "platform"
  else if negb (version a =? version b) then Some "version"
  else None.

Definition update (a b : signing_result) : signing_result :=
  let a' := MkResult (global_version a) (platform a) (version a) (mac a) (valid_hmac a) (epoch a) (ignored_errors a) (errors b ∪ errors a) in
  let a' := match mismatch a b with Some attr => add_error MULTISIG_MISMATCH None (Attr attr) a' | None => a' end in
  set_hmac (valid_hmac a && valid_hmac b) a'.

(** ** The regular expressions *)

Definition newline : ascii := "010"%char.

(** [(.* )$]: a newline may only end the text, and is left out. *)
Definition dot_star_end (s : string) : option string :=
  let '(t, found, rest) := partition newline s in
  if negb found then Some s else if String.eqb rest "" then Some t else None.

(** [(\d+?):] and what follows. *)
Definition digits_colon (s : string) : option (string * string) :=
  let '(d, found, rest) := partition ":" s in
  if found && negb (String.eqb d "") && str_forall is_digit d then Some (d, rest) else None.

(** [SIG_HEADER_RE]. *)
Definition match_header (s : string) : option (string * string) :=
  match digits_colon s with
  | Some (d, rest) => (fun p => (d, p)) <$> dot_star_end rest
  | None => None
  end.

(** [SIG_CONTENT_V1_RE]: the shortest platform after which the rest fits. *)
Definition match_rest (s : string) : option (string * string * string) :=
  match digits_colon s with
  | Some (v, s) => match digits_colon s with Some (e, s) => (fun m => (v, e, m)) <$> dot_star_end s | None => None end
  | None => None
  end.

Fixpoint match_platform (pre s : string) : option (string * (string * string * string)) :=
  match s with
  | EmptyString => None
  | String a s =>
      match (if negb (String.eqb pre "") && Ascii.eqb a ":" then match_rest s else None) with
      | Some r => Some (pre, r)
      | None => if Ascii.eqb a newline then None else match_platform (pre +:+ String a "") s
      end
  end.

Definition match_v1 (s : string) : option (string * (string * string * string)) := match_platform "" s.

(** ** Signatures *)

(** [constant_time_compare] of lib/utils/utils.py. *)
Definition byte_at (s : string) (i : nat) : Z := match String.get i s with Some a => Z.of_nat (nat_of_ascii a) | None => 0 end.

Definition constant_time_compare (actual expected : string) : bool :=
  let actual_len := String.length actual in
  let expected_len := String.length expected in
  let result := Z.lxor (Z.of_nat actual_len) (Z.of_nat expected_len) in
  let result :=
    if (0 <? expected_len)%nat then
      foldl (fun r i => Z.lor r (Z.lxor (byte_at actual i) (byte_at expected (i mod expected_len)))) result (seq 0 actual_len)
    else result in
  result =? 0.

Section signing.
Context `{Hmac}.

Definition valid_epoch (now epoch : Z) : bool := Z.abs (now - epoch) <? 5 * 60.

Definition epoch_wrap (epoch : Z) (payload : string) : string := "Epoch:" +:+ py_str_int epoch +:+ "|" +:+ payload.

Definition versioned_hmac (secret body : string) (gv : Z) : res string :=
  let* _ := py_assert (gv <=? GLOBAL_TOKEN_VERSION) in Ok (hmac_sha256 secret body).

Definition get_secret_token (platform : string) (version gv : Z) : res string :=
  versioned_hmac request_signature_secret (py_str_int gv +:+ ":" +:+ platform +:+ ":" +:+ py_str_int version) gv.

Definition is_invalid_token (platform : string) (version : Z) : bool := false.

(** [valid_signature]; a missing header is no text. *)
Definition valid_signature (now : Z) (payload : string) (signature : option string) (field : option string) : res signing_result :=
  match match_header (default "" signature) with
  | None => Ok (add_error INVALID_FORMAT field NoDetails empty_result)
  | Some (gv, content) =>
      let* gv := of_option ValueError (py_int_str gv) in
      let result := set_global_version gv empty_result in
      if GLOBAL_TOKEN_VERSION <? gv then Ok (add_error UNKOWN_GLOBAL_VERSION field NoDetails result)
      else
        match match_v1 content with
        | None => Ok (add_error UNPARSEABLE field NoDetails result)
        | Some (p, (v, e, m)) =>
            let* v := of_option ValueError (py_int_str v) in
            let* e := of_option ValueError (py_int_str e) in
            let result := MkResult gv (Some p) v (Some m) false (Some e) [] ∅ in
            if is_invalid_token p v then Ok (add_error INVALIDATED_TOKEN field NoDetails result)
            else
              let result := if valid_epoch now e then result else add_error EXPIRED_TOKEN field (Epoch e) result in
              let* secret_token := get_secret_token p v gv in
              let* expected := versioned_hmac secret_token (epoch_wrap e payload) gv in
              let valid := constant_time_compare m expected in
              let result := set_hmac valid result in
              Ok (if valid then result else add_error SIGNATURE_MISMATCH field NoDetails result)
        end
  end.

(** [sign_v1_message]; an epoch of 0 stands for the current one. *)
Definition sign_v1_message (now : Z) (body platform : string) (version : Z) (epoch : option Z) : res string :=
  let* token := get_secret_token platform version 1 in
  let epoch := match epoch with Some 0 | None => now | Some e => e end in
  let* signature := versioned_hmac token (epoch_wrap epoch body) 1 in
  Ok (py_str_int 1 +:+ ":" +:+ platform +:+ ":" +:+ py_str_int version +:+ ":" +:+ py_str_int epoch +:+ ":" +:+ signature).

(** ** Requests *)

Record request := MkRequest { method : string; headers : gmap string string; body : string }.

Definition SIGNATURE_UA_HEADER : string := "X-hmac-signed-result".
Definition SIGNATURE_BODY_HEADER : string := "X-hmac-signed-body".

Definition ua_payload (q : request) : string :=
  py_join "|" ((fun h => h +:+ ":" +:+ default "" (headers q !! h)) <$> ["User-Agent"; "Client-Vendor-ID"]).

Definition valid_post_signature (now : Z) (q : request) : res signing_result :=
  valid_signature now ("Body:" +:+ body q) (headers q !! SIGNATURE_BODY_HEADER) (Some "body").

Definition valid_ua_signature (now : Z) (q : request) : res signing_result :=
  valid_signature now (ua_payload q) (headers q !! SIGNATURE_UA_HEADER) (Some "ua").

(** The clocks of the first Android client are not trusted. *)
Definition ignore_skew (signature : signing_result) : signing_result :=
  if bool_decide (platform signature = Some "android") && (version signature =? 1) then add_ignore EXPIRED_TOKEN signature
  else signature.

(** [VSigned.run]; the method is in upper case. *)
Definition v_signed (now : Z) (q : request) : res signing_result :=
  let* signature := valid_ua_signature now q in
  let* signature :=
    if bool_decide (method q ∈ ["POST"; "PUT"]) then
      let* post := valid_post_signature now q in Ok (update signature post)
    else Ok signature in
  Ok (ignore_skew signature).
End signing.
End Signing.
