(* ===== verification/SigningProps.v ===== *)
(** * Signed requests: properties

    What is signed is verified, a request that is found valid was signed under
    the secret of the platform and version it names, and no header makes the
    check fail with an exception. *)

From S2P Require Import Prelude PyString Signing.
From Stdlib Require Import Ascii.

Module SigningProps.
Import PyString Signing.

(** ** Comparison *)

Lemma foldl_lor {A} (f : A -> Z) r l : foldl (fun r i => Z.lor r (f i)) r l = 0 <-> r = 0 /\ forall i, i ∈ l -> f i = 0.
Proof.
  revert r. induction l as [|x l IH]; intros r; simpl.
  - split; [intros ->; split; [done|by intros i ?%elem_of_nil]|by intros [? _]].
  - rewrite IH, Z.lor_eq_0_iff. split.
    + intros [[Hr Hx] Hl]. split; [done|]. by intros i [-> | Hi]%elem_of_cons; [|apply Hl].
    + intros [Hr Hl]. split; [split; [done|apply Hl; by left]|]. intros i Hi. apply Hl. by right.
Qed.

Lemma lxor_zero a b : Z.lxor a b = 0 <-> a = b.
Proof. split; [apply Z.lxor_eq|intros ->; apply Z.lxor_nilpotent]. Qed.

Lemma byte_at_ext s t :
  String.length s = String.length t -> (forall i, (i < String.length s)%nat -> byte_at s i = byte_at t i) -> s = t.
Proof.
  revert t. induction s as [|a s IH]; intros [|b t] Hl Hi; [done|discriminate..|]. injection Hl as Hl. f_equal.
  - pose proof (Hi 0%nat ltac:(simpl; lia)) as E. unfold byte_at in E. simpl in E. apply Nat2Z.inj in E.
    by rewrite <- (ascii_nat_embedding a), E, ascii_nat_embedding.
  - apply IH; [done|]. intros i Hlt. apply (Hi (S i)). simpl. lia.
Qed.

Lemma constant_time_compare_spec a b : constant_time_compare a b = bool_decide (a = b).
Proof.
  apply eq_bool_prop_intro. rewrite !Is_true_true, bool_decide_eq_true. unfold constant_time_compare.
  rewrite Z.eqb_eq. destruct (Nat.ltb_spec 0 (String.length b)) as [Hb | Hb].
  - rewrite foldl_lor, lxor_zero. split.
    + intros [Hl Hi]. apply Nat2Z.inj in Hl. apply byte_at_ext; [done|]. intros i Hlt. specialize (Hi i). rewrite lxor_zero in Hi.
      rewrite Hi by (apply elem_of_seq; lia). by rewrite Nat.mod_small by lia.
    + intros ->. split; [done|]. intros i Hi%elem_of_seq. by rewrite lxor_zero, Nat.mod_small by lia.
  - rewrite lxor_zero. split; [|by intros ->]. intros Hl%Nat2Z.inj. destruct a, b; simpl in *; try done; lia.
Qed.

(** ** Parsing *)

Lemma digits_colon_app d s : str_forall is_digit d = true -> d <> "" -> digits_colon (d +:+ String ":" s) = Some (d, s).
Proof.
  intros Hd Hne. unfold digits_colon. rewrite partition_app by (by eapply str_forall_contains).
  rewrite Hd. apply String.eqb_neq in Hne. by rewrite Hne.
Qed.

Lemma dot_star_end_app s : contains newline s = false -> dot_star_end s = Some s.
Proof. intros Hs. unfold dot_star_end. by rewrite partition_none. Qed.

Lemma match_platform_app pre p s r :
  contains ":" p = false -> contains newline p = false -> pre +:+ p <> "" -> match_rest s = Some r ->
  match_platform pre (p +:+ String ":" s) = Some (pre +:+ p, r).
Proof.
  revert pre. induction p as [|a p IH]; intros pre Hc Hn Hne Hs.
  - simpl. assert (E : pre +:+ "" = pre) by (clear; induction pre as [|a pre IH]; [done|by rewrite string_app_cons, IH]).
    rewrite E in *. apply String.eqb_neq in Hne. by rewrite Hne, Hs.
  - rewrite string_app_cons. simpl in Hc, Hn |- *. apply orb_false_iff in Hc as [Ha Hc], Hn as [Hna Hn].
    rewrite Ha, andb_false_r, Hna.
    assert (E : (pre +:+ String a "") +:+ p = pre +:+ String a p) by (by rewrite <- string_app_assoc).
    rewrite IH; [by rewrite E|done..|by rewrite E|done].
Qed.

Section signing.
Context `{H : Hmac}.

Lemma no_assertion {gv} secret b : gv <= 1 -> versioned_hmac secret b gv = Ok (hmac_sha256 secret b).
Proof. intros Hgv. unfold versioned_hmac, py_assert, GLOBAL_TOKEN_VERSION. by rewrite (proj2 (Z.leb_le gv 1)). Qed.

(** The token of a client. *)
Definition client_token (gv : Z) (p : string) (v : Z) : string :=
  hmac_sha256 request_signature_secret (py_str_int gv +:+ ":" +:+ p +:+ ":" +:+ py_str_int v).

Lemma get_secret_token_ok gv p v : gv <= 1 -> get_secret_token p v gv = Ok (client_token gv p v).
Proof. intros Hgv. unfold get_secret_token. by rewrite no_assertion. Qed.

(** The MAC a client of a platform and version puts on a payload. *)
Definition client_mac (gv : Z) (p : string) (v e : Z) (payload : string) : string :=
  hmac_sha256 (client_token gv p v) (epoch_wrap e payload).

(** What a signature that is parsed leads to. *)
Definition parsed_result (now : Z) (payload : string) (gv : Z) (p : string) (v e : Z) (m : string) (field : option string) : signing_result :=
  let valid := bool_decide (m = client_mac gv p v e payload) in
  MkResult gv (Some p) v (Some m) valid (Some e) []
    ((if valid then ∅ else {[(SIGNATURE_MISMATCH, field) := NoDetails]}) ∪
     (if valid_epoch now e then ∅ else {[(EXPIRED_TOKEN, field) := Epoch e]})).

Lemma parsed_signature now payload field gv p v e m sgv sv se :
  gv <= 1 -> py_int_str sgv = Some gv -> py_int_str sv = Some v -> py_int_str se = Some e ->
  forall content, match_v1 content = Some (p, (sv, se, m)) ->
  forall s, match_header s = Some (sgv, content) ->
  valid_signature now payload (Some s) field = Ok (parsed_result now payload gv p v e m field).
Proof.
  intros Hgv Egv Ev Ee content Hc s Hs. unfold valid_signature. simpl. rewrite Hs, Egv. simpl.
  destruct (Z.ltb_spec GLOBAL_TOKEN_VERSION gv) as [Hlt | _]; [unfold GLOBAL_TOKEN_VERSION in Hlt; lia|]. rewrite Hc, Ev. simpl. rewrite Ee. simpl.
  rewrite get_secret_token_ok by done. simpl. rewrite no_assertion by done. simpl. rewrite constant_time_compare_spec. fold (client_mac gv p v e payload).
  unfold parsed_result. destruct (bool_decide (m = _)), (valid_epoch now e); unfold set_hmac, add_error; simpl; repeat f_equal; try done.
  - by rewrite (left_id_L ∅ (∪)), insert_empty.
  - by rewrite (right_id_L ∅ (∪)), insert_empty.
  - by rewrite insert_union_singleton_l, insert_empty.
Qed.

Lemma digits_colon_int s d t : digits_colon s = Some (d, t) -> exists n, py_int_str d = Some n /\ 0 <= n.
Proof.
  unfold digits_colon. destruct (partition ":" s) as [[d' found] rest]. intros E.
  destruct (found && negb (String.eqb d' "") && str_forall is_digit d') eqn:Eb; [|done]. injection E as -> ->.
  apply andb_true_iff in Eb as [[_ Hne]%andb_true_iff Hd]. apply int_of_digits; [done|]. by apply negb_true_iff, String.eqb_neq in Hne.
Qed.

Lemma match_platform_int pre s p sv se m :
  match_platform pre s = Some (p, (sv, se, m)) -> exists v e, py_int_str sv = Some v /\ py_int_str se = Some e.
Proof.
  revert pre. induction s as [|a s IH]; intros pre; simpl; [done|].
  destruct (negb (String.eqb pre "") && Ascii.eqb a ":").
  - destruct (match_rest s) as [r|] eqn:Er; [|destruct (Ascii.eqb a newline); [done|by apply IH]].
    intros [= <- ->]. unfold match_rest in Er. destruct (digits_colon s) as [[v' s1]|] eqn:E1; [|done].
    destruct (digits_colon s1) as [[e' s2]|] eqn:E2; [|done]. destruct (dot_star_end s2); [|done]. injection Er as -> -> _.
    destruct (digits_colon_int _ _ _ E1) as (v & ? & _), (digits_colon_int _ _ _ E2) as (e & ? & _). by exists v, e.
  - destruct (Ascii.eqb a newline); [done|by apply IH].
Qed.

(** The check gives a result; one with a valid MAC is that of a parsed header. *)
Lemma signature_result now payload sig field :
  exists r, valid_signature now payload sig field = Ok r /\ ignored_errors r = [] /\
  (valid_hmac r = true -> exists gv p v e, 0 <= gv <= 1 /\ r = parsed_result now payload gv p v e (client_mac gv p v e payload) field).
Proof.
  destruct (match_header (default "" sig)) as [[sgv content]|] eqn:Eh; [|eexists; unfold valid_signature; by rewrite Eh].
  assert (Hgv : exists gv, py_int_str sgv = Some gv /\ 0 <= gv).
  { unfold match_header in Eh. destruct (digits_colon (default "" sig)) as [[d rest]|] eqn:Ed; [|done].
    destruct (dot_star_end rest); [|done]. injection Eh as <- <-. by eapply digits_colon_int. }
  destruct Hgv as (gv & Egv & Hpos). destruct (decide (gv <= 1)) as [Hle | Hgt].
  2:{ eexists. split; [unfold valid_signature; rewrite Eh, Egv; simpl; unfold GLOBAL_TOKEN_VERSION; rewrite (proj2 (Z.ltb_lt 1 gv)) by lia; reflexivity|done]. }
  destruct (match_v1 content) as [[p [[sv se] m]]|] eqn:Ec.
  2:{ eexists. split; [unfold valid_signature; rewrite Eh, Egv; simpl; unfold GLOBAL_TOKEN_VERSION; rewrite (proj2 (Z.ltb_ge 1 gv)) by lia; by rewrite Ec|done]. }
  destruct (match_platform_int _ _ _ _ _ _ Ec) as (v & e & Ev & Ee).
  assert (Es : valid_signature now payload sig field = Ok (parsed_result now payload gv p v e m field)).
  { destruct sig as [s|]; [|discriminate Eh]. by eapply parsed_signature. }
  eexists. split; [exact Es|split; [done|]]. simpl. intros Hm%bool_decide_eq_true. exists gv, p, v, e. split; [lia|by rewrite Hm].
Qed.

Lemma parsed_valid now payload gv p v e field :
  let r := parsed_result now payload gv p v e (client_mac gv p v e payload) field in
  errors r = (if valid_epoch now e then ∅ else {[(EXPIRED_TOKEN, field) := Epoch e]}) /\ valid_hmac r = true.
Proof. unfold parsed_result. cbv zeta. rewrite bool_decide_true by done. by rewrite (left_id_L ∅ (∪)). Qed.

Lemma valid_epoch_spec now e : valid_epoch now e = true <-> Z.abs (now - e) < 300.
Proof. unfold valid_epoch. lia. Qed.

(** Whatever the header says the check gives a result, and one with a valid
    MAC names a client whose token made the MAC of the payload at an epoch. *)
Theorem signature_sound now payload sig field :
  exists r, valid_signature now payload sig field = Ok r /\
  (valid_hmac r = true -> exists gv p v e, global_version r = gv /\ platform r = Some p /\ version r = v /\ epoch r = Some e /\
    0 <= gv <= 1 /\ mac r = Some (client_mac gv p v e payload) /\ (is_valid r = true <-> Z.abs (now - e) < 300)).
Proof.
  destruct (signature_result now payload sig field) as (r & Er & Hig & Hr). exists r. split; [done|]. intros Hv.
  destruct (Hr Hv) as (gv & p & v & e & Hgv & ->). exists gv, p, v, e. repeat (split; [done|]).
  destruct (parsed_valid now payload gv p v e field) as [He _]. unfold is_valid, has_errors. rewrite Hv, Hig, He. simpl.
  rewrite <- valid_epoch_spec, negb_involutive, bool_decide_eq_true. destruct (valid_epoch now e); [done|].
  split; [|done]. intros Hx. exfalso. revert Hx. apply map_non_empty_singleton.
Qed.

(** ** What is signed is verified *)

Context `{!HmacLaws H}.

Lemma hex_no_newline secret b : contains newline (hmac_sha256 secret b) = false.
Proof. eapply str_forall_contains; [apply hmac_hex|done]. Qed.

Lemma digits_no_newline n : 0 <= n -> contains newline (py_str_int n) = false.
Proof. intros Hn. eapply str_forall_contains; [by apply digits_str_int|done]. Qed.

(** A signature made with [sign_v1_message] is found valid for five minutes
    before and after, when the platform has no colon and no newline. *)
Theorem sign_then_verify now now' payload p v ep e field :
  p <> "" -> contains ":" p = false -> contains newline p = false -> 0 <= v -> 0 <= e ->
  e = match ep with Some 0 | None => now | Some e => e end -> Z.abs (now' - e) < 300 ->
  exists s, sign_v1_message now payload p v ep = Ok s /\
    valid_signature now' payload (Some s) field = Ok (MkResult 1 (Some p) v (Some (client_mac 1 p v e payload)) true (Some e) [] ∅).
Proof.
  intros Hp Hcolon Hnl Hv He Eep Hage. set (m := client_mac 1 p v e payload).
  set (content := p +:+ String ":" (py_str_int v +:+ String ":" (py_str_int e +:+ String ":" m))).
  exists (py_str_int 1 +:+ String ":" content). split.
  - unfold sign_v1_message. rewrite get_secret_token_ok by done. cbn [res_bind]. cbv zeta. rewrite <- Eep, no_assertion by done. reflexivity.
  - destruct (digits_str_int v Hv) as [Dv Nv], (digits_str_int e He) as [De Ne].
    assert (Hm : contains newline m = false) by apply hex_no_newline.
    assert (Hc : contains newline content = false).
    { unfold content. repeat (rewrite contains_app; cbn [contains]). rewrite Hnl, !digits_no_newline, Hm by done. done. }
    rewrite (parsed_signature now' payload field 1 p v e m (py_str_int 1) (py_str_int v) (py_str_int e)) with (content := content).
    + f_equal. unfold parsed_result, valid_epoch. rewrite bool_decide_true by done. rewrite (proj2 (Z.ltb_lt _ _)) by lia.
      by rewrite (left_id_L ∅ (∪)).
    + done.
    + apply py_int_str_int.
    + apply py_int_str_int.
    + apply py_int_str_int.
    + unfold match_v1, content. apply (match_platform_app ""); [done..|]. unfold match_rest.
      rewrite digits_colon_app by done. rewrite digits_colon_app by done. by rewrite dot_star_end_app.
    + unfold match_header. rewrite digits_colon_app by done. by rewrite dot_star_end_app.
Qed.

(** ** Requests *)

(** An error that is not ignored makes a result invalid. *)
Lemma valid_errors r k : is_valid r = true -> k ∈ (map_to_list (errors r)).*1 -> k.1 ∈ ignored_errors r.
Proof.
  unfold is_valid, has_errors. intros [_ He]%andb_true_iff Hk. destruct (ignored_errors r) as [|c l] eqn:El.
  - apply negb_true_iff, negb_false_iff, bool_decide_eq_true in He. rewrite He, map_to_list_empty in Hk. by apply elem_of_nil in Hk.
  - apply negb_true_iff, negb_false_iff, bool_decide_eq_true in He. apply (elem_of_list_to_set (C := gset code)). apply He. unfold error_codes.
    apply elem_of_list_to_set. by apply list_elem_of_fmap_2.
Qed.

Lemma error_in r c field d : errors r !! (c, field) = Some d -> (c, field) ∈ (map_to_list (errors r)).*1.
Proof. intros E. apply list_elem_of_fmap. exists (c, field, d). split; [done|]. by apply elem_of_map_to_list. Qed.

(** A result is valid for a client: its MAC is right, and its epoch is recent
    or the client's clock is not trusted. *)
Definition authentic (now : Z) (payload : string) (r : signing_result) (gv : Z) (p : string) (v : Z) : Prop :=
  exists e, mac r = Some (client_mac gv p v e payload) /\ epoch r = Some e /\ (Z.abs (now - e) < 300 \/ p = "android" /\ v = 1).

(** What may be wrong with a valid result. *)
Definition ignorable (r : signing_result) : Prop :=
  (forall k, is_Some (errors r !! k) -> k.1 = EXPIRED_TOKEN) /\
  (forall k, is_Some (errors r !! k) -> platform r = Some "android" /\ version r = 1).

Lemma ignore_skew_valid r : ignored_errors r = [] -> is_valid (ignore_skew r) = true -> valid_hmac r = true /\ ignorable r.
Proof.
  intros Hig Hv. assert (Hk : forall k, is_Some (errors r !! k) -> k.1 ∈ ignored_errors (ignore_skew r)).
  { intros [c f] [d Hd]. apply (valid_errors _ (c, f) Hv). apply (error_in _ c f d). unfold ignore_skew. by destruct (_ && _). }
  unfold ignore_skew, ignorable in *. destruct (bool_decide _ && _) eqn:E.
  - simpl in Hk. rewrite Hig in Hk. apply andb_true_iff in E as [E1%bool_decide_eq_true E2%Z.eqb_eq]. unfold is_valid in Hv. simpl in Hv.
    apply andb_true_iff in Hv as [Hv _]. split; [done|split; [|done]]. intros k He. by apply Hk, list_elem_of_singleton in He.
  - rewrite Hig in Hk. unfold is_valid in Hv. apply andb_true_iff in Hv as [Hv _].
    split; [done|split; intros k He; by apply Hk, elem_of_nil in He].
Qed.

Lemma update_fields a b :
  ignored_errors (update a b) = ignored_errors a /\ platform (update a b) = platform a /\ version (update a b) = version a /\
  valid_hmac (update a b) = valid_hmac a && valid_hmac b /\
  (forall k, is_Some (errors a !! k) \/ is_Some (errors b !! k) -> is_Some (errors (update a b) !! k)) /\
  (mismatch a b = None \/ is_Some (errors (update a b) !! (MULTISIG_MISMATCH, None))).
Proof.
  assert (Hu : forall k, is_Some (errors a !! k) \/ is_Some (errors b !! k) -> is_Some ((errors b ∪ errors a) !! k))
    by (intros k [[x Hx] | [x Hx]]; rewrite lookup_union, Hx; [destruct (errors b !! k)|destruct (errors a !! k)]; by eexists).
  unfold update. destruct (mismatch a b) as [attr|]; simpl; do 4 (split; [done|]); split.
  - intros k Hk. rewrite lookup_insert_is_Some'. right. by apply Hu.
  - right. rewrite lookup_insert_eq. by eexists.
  - exact Hu.
  - by left.
Qed.

Lemma mismatch_None a b : mismatch a b = None -> global_version a = global_version b /\ platform a = platform b /\ version a = version b.
Proof.
  unfold mismatch. destruct (Z.eqb_spec (global_version a) (global_version b)); [|done]. simpl. case_bool_decide; [|done]. simpl.
  by destruct (Z.eqb_spec (version a) (version b)).
Qed.

Lemma authentic_parsed now payload gv p v e field :
  let r := parsed_result now payload gv p v e (client_mac gv p v e payload) field in
  (is_Some (errors r !! (EXPIRED_TOKEN, field)) -> p = "android" /\ v = 1) -> authentic now payload r gv p v.
Proof.
  intros r Hk. exists e. split; [done|split; [done|]]. destruct (parsed_valid now payload gv p v e field) as [He _]. fold r in He.
  rewrite He in Hk. destruct (valid_epoch now e) eqn:Ev; [left; by apply valid_epoch_spec|]. right. apply Hk.
  rewrite lookup_singleton_eq. by eexists.
Qed.

(** C26. The check of a request never raises, and when it is found valid one
    client has made the MAC of its headers, and that of its body if it is a
    POST or PUT, within five minutes unless it is the first Android client. *)
Theorem signed_requests_authentic now q :
  exists r, v_signed now q = Ok r /\ (is_valid r = true -> exists gv p v ua, 0 <= gv <= 1 /\
    valid_ua_signature now q = Ok ua /\ authentic now (ua_payload q) ua gv p v /\
    (method q ∈ ["POST"; "PUT"] -> exists b, valid_post_signature now q = Ok b /\ authentic now ("Body:" +:+ body q) b gv p v)).
Proof.
  destruct (signature_result now (ua_payload q) (headers q !! SIGNATURE_UA_HEADER) (Some "ua")) as (ua & Eua & Hua0 & Hua).
  destruct (signature_result now ("Body:" +:+ body q) (headers q !! SIGNATURE_BODY_HEADER) (Some "body")) as (b & Eb & _ & Hb).
  unfold v_signed. fold (valid_ua_signature now q) in Eua. fold (valid_post_signature now q) in Eb. rewrite Eua. simpl. rewrite Eb. simpl.
  destruct (bool_decide (method q ∈ ["POST"; "PUT"])) eqn:Em; (eexists; split; [reflexivity|]); intros Hval.
  - apply bool_decide_eq_true in Em. destruct (update_fields ua b) as (U1 & U2 & U3 & U4 & U5 & U6).
    apply ignore_skew_valid in Hval as [Hv [He Ha]]; [|by rewrite U1]. rewrite U4 in Hv. apply andb_true_iff in Hv as [Hvu Hvb].
    destruct U6 as [Hm | Hm]; [|by apply He in Hm]. apply mismatch_None in Hm as (M1 & M2 & M3). rewrite U2, U3 in Ha.
    destruct (Hua Hvu) as (gv & p & v & e & Hgv & Eu), (Hb Hvb) as (gv' & p' & v' & e' & _ & Eb'). subst ua b. simpl in M1, M2, M3.
    subst gv' v'. injection M2 as <-. exists gv, p, v. eexists. split; [done|split; [reflexivity|split]].
    + apply authentic_parsed. intros Hk. destruct (Ha _ (U5 _ (or_introl Hk))) as [Hp Hv']. simpl in Hp, Hv'. split; congruence.
    + intros _. eexists. split; [reflexivity|]. apply authentic_parsed. intros Hk. destruct (Ha _ (U5 _ (or_intror Hk))) as [Hp Hv'].
      simpl in Hp, Hv'. split; congruence.
  - apply bool_decide_eq_false in Em. apply ignore_skew_valid in Hval as [Hv [_ Ha]]; [|done].
    destruct (Hua Hv) as (gv & p & v & e & Hgv & Eu). subst ua. exists gv, p, v. eexists. split; [done|split; [reflexivity|split; [|done]]].
    apply authentic_parsed. intros Hk. destruct (Ha _ Hk) as [Hp Hv']. simpl in Hp, Hv'. split; congruence.
Qed.
End signing.
End SigningProps.
