(* ===== verification/Sessions.v ===== *)
(** * Sessions, passwords and one-time passwords

    The cookies of models/account.py and lib/providers/auth/cookie.py that
    keep a user, an administrator and a second factor logged in, passwords and
    their upgrade, the passwords of lib/totp.py with their validator in
    lib/validator/validator.py, and the padding and encryption of
    lib/tracking.py. *)

From S2P Require Import Prelude PyString Signing RateLimit.
From Stdlib Require Import Ascii.

Module Sessions.
Import PyString Signing.

(** What the code takes from elsewhere: digests as hexadecimal text, the
    secrets and limits of the configuration, the clock in the format of the
    cookies, of the server's zone and UTC, [datetime.strptime] and [int]. *)
Class Server := {
  sha1 : string -> string;
  hmac_sha1 : string -> string -> string;
  SECRET : string;
  FEEDSECRET : string;
  ADMIN_COOKIE_TTL : Z;
  ADMIN_COOKIE_MAX_IDLE : Z;
  OTP_COOKIE_TTL : Z;
  local_time : Z -> string;
  utc_time : Z -> string;
  strptime : string -> option Z;
  py_int : string -> option Z
}.

Class ServerLaws (S : Server) : Prop := {
  sha1_hex s : str_forall is_hex (sha1 s) = true;
  hmac_sha1_hex k s : str_forall is_hex (hmac_sha1 k s) = true;
  local_time_text t : local_time t <> "" /\ contains "," (local_time t) = false;
  strptime_nothing : strptime "" = None;
  py_int_of_str n : py_int (py_str_int n) = Some n
}.

Record account := Account {
  a_id : Z;
  a_name : string;
  a_password : string;
  a_otp_secret : string;
  a_private_feeds : bool;
  a_deleted : bool
}.

Definition with_password (p : string) (a : account) : account :=
  Account (a_id a) (a_name a) p (a_otp_secret a) (a_private_feeds a) (a_deleted a).

(** The request a cookie comes with. *)
Record client := Client { ip : string; user_agent : string }.

Section server.
Context `{Server}.

(** ** Session cookies *)

(** [s or now]. *)
Definition or_now (s now : string) : string := if String.eqb s "" then now else s.

Definition make_cookie (now : Z) (a : account) (timestr : string) : string :=
  let timestr := or_now timestr (local_time now) in
  let id_time := py_str_int (a_id a) +:+ "," +:+ timestr in
  let to_hash := py_join "," [id_time; a_password a; SECRET] in
  id_time +:+ "," +:+ sha1 to_hash.

(** [get_authenticated_account], with the lookup of accounts; the cookie is
    unquoted. *)
Definition get_authenticated_account (now : Z) (by_id : Z -> option account) (session_cookie : option string) : option account :=
  match session_cookie with
  | None => None
  | Some c =>
      if String.eqb c "" then None
      else
        match py_split "," c with
        | [uid; timestr; hash] =>
            match py_int uid with
            | None => None
            | Some uid =>
                match by_id uid with
                | None => None
                | Some a => if constant_time_compare c (make_cookie now a timestr) then Some a else None
                end
            end
        | _ => None
        end
  end.

(** ** Cookies of administrators and of second factors *)

Definition make_admin_cookie (now : Z) (q : client) (a : account) (first_login last_request : string) : string :=
  let first_login := or_now first_login (utc_time now) in
  let last_request := or_now last_request (utc_time now) in
  let hashable := py_join "," [first_login; last_request; ip q; user_agent q; a_password a] in
  let mac := hmac_sha1 SECRET hashable in
  py_join "," [first_login; last_request; mac].

Definition make_otp_cookie (now : Z) (q : client) (a : account) (timestamp : string) : string :=
  let timestamp := or_now timestamp (utc_time now) in
  let signature := hmac_sha1 SECRET (py_join "," [timestamp; user_agent q; a_otp_secret a; a_password a]) in
  py_join "," [timestamp; signature].

(** A time that is parsed and at most so many seconds ago. *)
Definition not_older (now ttl : Z) (s : string) : bool :=
  match strptime s with Some t => negb (ttl <? now - t) | None => false end.

Definition valid_admin_cookie (read_only : bool) (now : Z) (q : client) (user : account) (cookie : string) : bool * option string :=
  if read_only then (false, None)
  else
    match py_split "," cookie with
    | [first_login; last_request; hash] =>
        if negb (bool_decide (is_Some (strptime first_login) /\ is_Some (strptime last_request))) then (false, None)
        else if negb (not_older now ADMIN_COOKIE_TTL first_login) then (false, None)
        else if negb (not_older now ADMIN_COOKIE_MAX_IDLE last_request) then (false, None)
        else (constant_time_compare cookie (make_admin_cookie now q user first_login last_request), Some first_login)
    | _ => (false, None)
    end.

Definition valid_otp_cookie (read_only : bool) (now : Z) (q : client) (user : account) (cookie : string) : bool :=
  if read_only then false
  else
    match py_split "," cookie with
    | [remembered_at; signature] =>
        not_older now OTP_COOKIE_TTL remembered_at && constant_time_compare cookie (make_otp_cookie now q user remembered_at)
    | _ => false
    end.

(** ** Feeds *)

Definition make_feedhash (user : account) (path : string) : string :=
  sha1 (py_join "" [a_name user; a_password user; FEEDSECRET]).

Definition valid_feed (by_name : string -> option account) (name feedhash path : string) : option account :=
  if String.eqb name "" || String.eqb feedhash "" || String.eqb path "" then None
  else
    match by_name name with
    | None => None
    | Some user => if a_private_feeds user && constant_time_compare feedhash (make_feedhash user path) then Some user else None
    end.

(** ** Passwords *)

(** [bcrypt.hashpw], which raises on null characters and bad salts, and
    [bcrypt.gensalt] of the configured work factor. *)
Class Bcrypt := {
  hashpw : string -> string -> option string;
  gensalt : Z -> string;
  work_factor : Z
}.

Class BcryptLaws (B : Bcrypt) : Prop := {
  hashpw_again p w h : hashpw p (gensalt w) = Some h -> hashpw p h = Some h;
  hashpw_format p w h : hashpw p (gensalt w) = Some h -> exists rest,
    h = "$2a$" +:+ py_str_int w +:+ "$" +:+ rest /\ contains "$" (py_str_int w) = false
}.

Context `{Bcrypt}.

Definition bcrypt_password (password : string) : res string := of_option ValueError (hashpw password (gensalt work_factor)).

Definition passhash (username password salt : string) : string :=
  let tohash := salt +:+ username +:+ " " +:+ password in salt +:+ sha1 tohash.

(** [valid_password], with the account as it is stored afterwards. *)
Definition valid_password (a : account) (password : string) (compare : option string) : res (bool * account) :=
  if String.eqb password "" then Ok (false, a)
  else
    let convert := match compare with None => true | Some _ => false end in
    let compare_password := default (a_password a) compare in
    let upgrade :=
      if convert then let* h := bcrypt_password password in Ok (true, with_password h a) else Ok (true, a) in
    if py_startswith "$2a$" compare_password then
      match hashpw password compare_password with
      | None => Ok (false, a)
      | Some expected_hash =>
          if negb (constant_time_compare compare_password expected_hash) then Ok (false, a)
          else
            let* field := of_option IndexError (py_split "$" compare_password !! 2%nat) in
            let* wf := of_option ValueError (py_int field) in
            if wf =? work_factor then Ok (true, a) else upgrade
      end
    else
      let salt := if (String.length compare_password =? 43)%nat then String.substring 0 3 compare_password else "" in
      if negb (constant_time_compare compare_password (passhash (a_name a) password salt)) then Ok (false, a) else upgrade.
End server.

(** ** One-time passwords *)

Definition PERIOD : Z := 30.

(** [struct.pack(">q", n)]. *)
Definition pack_q (n : Z) : list Z := (fun i => Z.shiftr n (8 * (7 - Z.of_nat i)) mod 256) <$> seq 0 8.

(** [struct.unpack(">L", bytes)]. *)
Definition unpack_l (l : list Z) : Z := foldl (fun n b => n * 256 + b) 0 l.

(** ["%06d" % n] of a number that is not negative. *)
Definition format_06d (n : Z) : string :=
  let s := py_str_int n in String.concat "" (replicate (6 - String.length s) "0") +:+ s.

Section totp.
(** The HMAC-SHA1 of a message under a decoded secret, as bytes. *)
Context (hmac_digest : string -> list Z -> list Z).

Definition make_hotp (secret : string) (counter : Z) : string :=
  let hmac_result := hmac_digest secret (pack_q counter) in
  let offset := Z.to_nat (Z.land (default 0 (last hmac_result)) 15) in
  let truncated_hash := take 4 (drop offset hmac_result) in
  let code_bits := unpack_l truncated_hash in
  let htop := Z.land code_bits 2147483647 mod 1000000 in
  format_06d htop.

Definition make_totp (secret : string) (skew timestamp : Z) : string :=
  let counter := timestamp / PERIOD in make_hotp secret (counter - skew).

Definition allowed_skew : list Z := [-1; 0; 1].

Context {M : Type} `{RateLimit.Memcached M} (py_int : string -> option Z).

(** [VOneTimePassword.validate_otp]: a password is marked as used for four
    periods before it is compared. *)
Definition otp_key (user_id36 : string) (password : Z) : string := "otp:used_" +:+ user_id36 +:+ "_" +:+ py_str_int password.

Definition validate_otp (user_id36 secret password : string) (now : Z) (m : M) : M * bool :=
  match py_int password with
  | None => (m, false)
  | Some n =>
      let r := RateLimit.mc_add (otp_key user_id36 n) 1 (PERIOD * (Z.of_nat (length allowed_skew) + 1)) now m in
      (r.1, r.2 && existsb (fun skew => constant_time_compare password (make_totp secret skew now)) allowed_skew)
  end.
End totp.

(** ** Encryption *)

Definition BLOCK_SIZE : nat := 16.
Definition SALT_SIZE : nat := 32.

Definition str_repeat (n : nat) (a : ascii) : string := String.concat "" (replicate n (String a "")).

Definition _pad_message (text : string) : string :=
  let padding_size := (BLOCK_SIZE - String.length text mod BLOCK_SIZE)%nat in
  let padding_size := if (padding_size =? 0)%nat then BLOCK_SIZE else padding_size in
  text +:+ str_repeat padding_size (ascii_of_nat padding_size).

(** The last [n] characters of a text, all of it when [n] is 0 or too large,
    and what is before them, as the slices [text[-n:]] and [text[:-n]]. *)
Definition tail_n (n : nat) (s : string) : string :=
  if (n =? 0)%nat then s else String.substring (String.length s - n) (String.length s) s.
Definition but_tail_n (n : nat) (s : string) : string := if (n =? 0)%nat then "" else String.substring 0 (String.length s - n) s.

Definition _unpad_message (text : string) : string :=
  match String.get (String.length text - 1) text with
  | None => ""
  | Some a =>
      let padding_size := nat_of_ascii a in
      if (BLOCK_SIZE <? padding_size)%nat then ""
      else if negb (str_forall (fun x => (nat_of_ascii x =? padding_size)%nat) (tail_n padding_size text)) then ""
      else but_tail_n padding_size text
  end.

(** AES in CBC mode with its key and initialization vector, base64 and the
    quoting of URLs. *)
Class Cipher := {
  aes_encrypt : string -> string -> string -> string;
  aes_decrypt : string -> string -> string -> option string;
  b64encode : string -> string;
  b64decode : string -> option string;
  quote_plus : string -> string;
  unquote_plus : string -> string
}.

Class CipherLaws (C : Cipher) : Prop := {
  aes_inverse k iv s : (String.length s mod BLOCK_SIZE = 0)%nat -> aes_decrypt k iv (aes_encrypt k iv s) = Some s;
  b64_inverse s : b64decode (b64encode s) = Some s;
  quote_inverse s : unquote_plus (quote_plus s) = s
}.

Section cipher.
Context `{Cipher}.

Definition KEY_SIZE : nat := 16.

Definition _encrypt (salt plaintext secret : string) : string :=
  let cipher := aes_encrypt (String.substring 0 KEY_SIZE secret) (String.substring 0 BLOCK_SIZE salt) in
  quote_plus (salt +:+ b64encode (cipher (_pad_message plaintext))).

(** [b64decode] raises [TypeError] on what is not base64, the cipher
    [ValueError] on what is not made of blocks. *)
Definition _decrypt (encrypted secret : string) : res string :=
  let encrypted := unquote_plus encrypted in
  let salt := String.substring 0 SALT_SIZE encrypted in
  let encoded := String.substring SALT_SIZE (String.length encrypted) encrypted in
  let* ciphertext := of_option TypeError (b64decode encoded) in
  let* padded := of_option ValueError (aes_decrypt (String.substring 0 KEY_SIZE secret) (String.substring 0 BLOCK_SIZE salt) ciphertext) in
  Ok (_unpad_message padded).
End cipher.

(** ** Logged out ids *)

(** [ensure_unquoted] of lib/loid.py: three rounds, of which none may be
    left. *)
Fixpoint ensure_unquoted (unquote : string -> string) (rounds : nat) (s : string) : option string :=
  match rounds with
  | O => None
  | S n => let new_str := unquote s in if String.eqb new_str s then Some new_str else ensure_unquoted unquote n new_str
  end.
End Sessions.
