(* ===== verification/SessionsProps.v ===== *)
(** * Sessions, passwords and one-time passwords: properties *)

From S2P Require Import Prelude PyString Signing SigningProps RateLimit Sessions.
From Stdlib Require Import Ascii.

Module SessionsProps.
Import PyString Signing SigningProps Sessions.

Section server.
Context `{S : Server} `{!ServerLaws S}.

(** ** Cookies *)

Lemma hex_no_comma s : str_forall is_hex s = true -> contains "," s = false.
Proof. intros Hs. by eapply str_forall_contains. Qed.

Lemma int_no_char c n : is_digit c = false -> Ascii.eqb "-" c = false -> contains c (py_str_int n) = false.
Proof.
  intros Hc Hm. destruct (Z.leb_spec 0 n) as [Hn | Hn].
  - eapply str_forall_contains; [by apply digits_str_int|done].
  - destruct n as [|p|p]; [lia..|]. change (py_str_int (Z.neg p)) with (String "-" (py_str_int (Z.pos p))).
    cbn [contains]. rewrite Hm. eapply str_forall_contains; [by apply digits_str_int|done].
Qed.

Lemma int_no_comma n : contains "," (py_str_int n) = false.
Proof. by apply int_no_char. Qed.

Definition id_time_hash (a : account) (timestr : string) : string :=
  py_join "," [py_str_int (a_id a) +:+ "," +:+ timestr; a_password a; SECRET].

Lemma or_now_given s now : s <> "" -> or_now s now = s.
Proof. intros Hs. unfold or_now. by rewrite (proj2 (String.eqb_neq _ _) Hs). Qed.

Lemma make_cookie_join now a timestr : timestr <> "" ->
  make_cookie now a timestr = py_join "," [py_str_int (a_id a); timestr; sha1 (id_time_hash a timestr)].
Proof. intros Ht. unfold make_cookie, id_time_hash. rewrite or_now_given by done. cbn [py_join]. by rewrite <- !string_app_assoc. Qed.

Lemma split_cookie now a timestr : timestr <> "" -> contains "," timestr = false ->
  py_split "," (make_cookie now a timestr) = [py_str_int (a_id a); timestr; sha1 (id_time_hash a timestr)].
Proof.
  intros Hne Ht. rewrite make_cookie_join by done. apply (py_split_join ","%char); [done|].
  repeat (apply Forall_cons; split); [apply int_no_comma|done|apply hex_no_comma, sha1_hex|by apply Forall_nil].
Qed.

(** A cookie without a time is compared with one of the time of the request,
    which it is not. *)
Lemma timeless_cookie now a c uid hash : py_split "," c = [uid; ""; hash] -> c <> make_cookie now a "".
Proof.
  intros Hs ->. destruct (local_time_text now) as [Hne Hc].
  assert (E : make_cookie now a "" = make_cookie now a (local_time now)) by (unfold make_cookie at 2; by rewrite or_now_given).
  rewrite E, split_cookie in Hs by done. injection Hs as _ Hs _. done.
Qed.

Lemma authenticated_cookie now by_id c a :
  get_authenticated_account now by_id (Some c) = Some a ->
  exists i timestr, by_id i = Some a /\ timestr <> "" /\ contains "," timestr = false /\ c = make_cookie now a timestr.
Proof.
  unfold get_authenticated_account. destruct (String.eqb c ""); [done|]. pose proof (py_split_words "," c) as Hw.
  destruct (py_split "," c) as [|uid [|timestr [|hash []]]] eqn:Es; try done. destruct (py_int uid) as [i|]; [|done].
  destruct (by_id i) as [b|] eqn:Eb; [|done]. rewrite constant_time_compare_spec. case_bool_decide as Ec; [|done]. intros [= ->].
  exists i, timestr. split; [done|]. split; [intros ->; by eapply timeless_cookie|].
  apply Forall_cons in Hw as [_ Hw]. by apply Forall_cons in Hw as [Ht _].
Qed.

(** C32. The cookies a user is logged in with are exactly those made, with a
    time, for the account that is found under the id. *)
Theorem session_cookie_exact now by_id c a :
  (forall i b, by_id i = Some b -> a_id b = i) ->
  get_authenticated_account now by_id (Some c) = Some a <->
  exists timestr, timestr <> "" /\ contains "," timestr = false /\ by_id (a_id a) = Some a /\ c = make_cookie now a timestr.
Proof.
  intros Hid. split.
  - intros (i & timestr & Hi & Hne & Ht & Hc)%authenticated_cookie. exists timestr. by rewrite (Hid i a Hi).
  - intros (timestr & Hne & Ht & Ha & ->). unfold get_authenticated_account. rewrite split_cookie by done.
    rewrite py_int_of_str, Ha, constant_time_compare_spec, bool_decide_true by done.
    destruct (String.eqb_spec (make_cookie now a timestr) "") as [E|]; [|done].
    apply (f_equal (py_split ",")) in E. rewrite split_cookie in E by done. discriminate E.
Qed.

(** A cookie that logs in before and after a change of the password gives
    a collision of the digest. *)
Theorem password_change_logs_out now now' by_id by_id' c a p a' :
  get_authenticated_account now by_id (Some c) = Some a -> get_authenticated_account now' by_id' (Some c) = Some a' ->
  a' = with_password p a -> p <> a_password a -> contains "," p = false -> contains "," (a_password a) = false ->
  exists x y, x <> y /\ sha1 x = sha1 y.
Proof.
  intros H1 H2 -> Hp Hc Hc'. apply authenticated_cookie in H1 as (_ & t & _ & Hne & Ht & ->), H2 as (_ & t' & _ & Hne' & Ht' & E).
  apply (f_equal (py_split ",")) in E. rewrite !split_cookie in E by done. injection E as <- E.
  exists (id_time_hash a t), (id_time_hash (with_password p a) t). split; [|done]. unfold id_time_hash. intros E'.
  apply (f_equal (py_split ",")) in E'. change (py_join "," [?x; ?y; ?z]) with (x +:+ "," +:+ y +:+ "," +:+ z) in E'.
  rewrite <- !string_app_assoc in E'.
  assert (Hs : forall i t p z, contains "," t = false -> contains "," p = false ->
    py_split "," (py_str_int i +:+ "," +:+ t +:+ "," +:+ p +:+ "," +:+ z) = [py_str_int i; t; p] ++ py_split "," z).
  { clear -S. intros i t p z Ht Hp. change ("," +:+ z) with (String "," z). change ("," +:+ p +:+ String "," z) with (String "," (p +:+ String "," z)).
    change ("," +:+ t +:+ String "," (p +:+ String "," z)) with (String "," (t +:+ String "," (p +:+ String "," z))).
    rewrite (py_split_app _ (py_str_int i)) by apply int_no_comma. rewrite (py_split_app _ t) by done. by rewrite (py_split_app _ p). }
  rewrite !Hs in E' by done. injection E' as E'. congruence.
Qed.

Lemma split_admin now q u fl lr : fl <> "" -> lr <> "" -> contains "," fl = false -> contains "," lr = false ->
  exists mac, py_split "," (make_admin_cookie now q u fl lr) = [fl; lr; mac].
Proof.
  intros Hfn Hln Hf Hl. unfold make_admin_cookie. rewrite !or_now_given by done. eexists. apply (py_split_join ","%char); [done|].
  repeat (apply Forall_cons; split); [done..|apply hex_no_comma, hmac_sha1_hex|by apply Forall_nil].
Qed.

(** The cookies of an administrator are exactly those made for the account
    and the client, when both times are recent enough. *)
Theorem admin_cookie_exact now q u c :
  (valid_admin_cookie false now q u c).1 = true <->
  exists fl lr t1 t2, contains "," fl = false /\ contains "," lr = false /\ c = make_admin_cookie now q u fl lr /\
    strptime fl = Some t1 /\ strptime lr = Some t2 /\ now - t1 <= ADMIN_COOKIE_TTL /\ now - t2 <= ADMIN_COOKIE_MAX_IDLE.
Proof.
  assert (Hold : forall ttl s, not_older now ttl s = true <-> exists t, strptime s = Some t /\ now - t <= ttl).
  { intros ttl s. unfold not_older. destruct (strptime s) as [t|]; [|split; [done|by intros (t & ? & _)]].
    rewrite negb_true_iff, Z.ltb_ge. split; [intros Hle; by exists t|by intros (t' & [= ->] & Hle)]. }
  unfold valid_admin_cookie. split.
  - pose proof (py_split_words "," c) as Hw. destruct (py_split "," c) as [|fl [|lr [|hash []]]]; try done.
    apply Forall_cons in Hw as [Hf Hw]. apply Forall_cons in Hw as [Hl _].
    case_bool_decide; [|done]. simpl. destruct (not_older now ADMIN_COOKIE_TTL fl) eqn:E1; [|done].
    destruct (not_older now ADMIN_COOKIE_MAX_IDLE lr) eqn:E2; [|done]. simpl. rewrite constant_time_compare_spec, bool_decide_eq_true.
    apply Hold in E1 as (t1 & E1 & H1), E2 as (t2 & E2 & H2). intros Hc. by exists fl, lr, t1, t2.
  - intros (fl & lr & t1 & t2 & Hf & Hl & -> & E1 & E2 & H1 & H2). assert (Hn : fl <> "" /\ lr <> "") by (split; intros ->; by rewrite strptime_nothing in *).
    destruct (split_admin now q u fl lr (proj1 Hn) (proj2 Hn) Hf Hl) as [mac ->].
    rewrite bool_decide_true by (split; eexists; done). simpl. rewrite (proj2 (Hold ADMIN_COOKIE_TTL fl)) by by exists t1.
    rewrite (proj2 (Hold ADMIN_COOKIE_MAX_IDLE lr)) by by exists t2. simpl. by rewrite constant_time_compare_spec, bool_decide_true.
Qed.

(** The two kinds of cookies are signed alike: the signature of a second
    factor remembered for one user agent is the MAC of an administrator for
    another. *)
Lemma otp_signature_is_admin_mac now t lr addr u :
  t <> "" -> lr <> "" ->
  make_admin_cookie now (Client addr (a_otp_secret u)) u t lr =
  py_join "," [t; lr; hmac_sha1 SECRET (py_join "," [t; lr +:+ "," +:+ addr; a_otp_secret u; a_password u])] /\
  make_otp_cookie now (Client addr (lr +:+ "," +:+ addr)) u t =
  py_join "," [t; hmac_sha1 SECRET (py_join "," [t; lr +:+ "," +:+ addr; a_otp_secret u; a_password u])].
Proof.
  intros Ht Hl. unfold make_admin_cookie, make_otp_cookie. rewrite !or_now_given by done. split; [|done].
  cbn [py_join ip user_agent]. by rewrite <- !string_app_assoc.
Qed.

(** ** Passwords *)

Context `{B : Bcrypt} `{!BcryptLaws B}.

Lemma starts_with_app p s : py_startswith p (p +:+ s) = true.
Proof. unfold py_startswith. induction p as [|a p IH]; [by destruct s|]. rewrite string_app_cons. simpl. by destruct (ascii_dec a a). Qed.

Lemma fresh_hash_valid a p h : hashpw p (gensalt work_factor) = Some h -> p <> "" ->
  valid_password (with_password h a) p None = Ok (true, with_password h a).
Proof.
  intros Hh Hp. unfold valid_password. apply String.eqb_neq in Hp. rewrite Hp. simpl.
  destruct (hashpw_format p work_factor h Hh) as (rest & E & Hd). pose proof (hashpw_again p _ _ Hh) as Ha.
  assert (Hs : py_startswith "$2a$" h = true) by (rewrite E; apply starts_with_app). rewrite Hs, Ha, constant_time_compare_spec, bool_decide_true by done.
  simpl. assert (Hsp : py_split "$" h !! 2%nat = Some (py_str_int work_factor)).
  { rewrite E. change ("$2a$" +:+ ?x) with (String "$" (String "2" (String "a" (String "$" x)))). cbn [py_split Ascii.eqb Bool.eqb].
    change ("$" +:+ rest) with (String "$" rest). by rewrite (py_split_app _ (py_str_int work_factor)). }
  rewrite Hsp. cbn [of_option res_bind]. rewrite py_int_of_str. cbn [of_option res_bind]. by rewrite Z.eqb_refl.
Qed.

(** A right password leaves the account with a hash of the current work
    factor, or as it is, and is right for the account it leaves, which it does
    not change again. *)
Theorem password_upgraded a p a' :
  p <> "" -> valid_password a p None = Ok (true, a') ->
  (a' = a \/ exists h, hashpw p (gensalt work_factor) = Some h /\ a' = with_password h a) /\ valid_password a' p None = Ok (true, a').
Proof.
  intros Hp Hv. assert (Hcase : a' = a \/ exists h, hashpw p (gensalt work_factor) = Some h /\ a' = with_password h a).
  { unfold valid_password in Hv. apply String.eqb_neq in Hp. rewrite Hp in Hv. simpl in Hv.
    assert (Hup : forall r, (let* h := bcrypt_password p in Ok (true, with_password h a)) = r -> r = Ok (true, a') ->
      a' = a \/ exists h, hashpw p (gensalt work_factor) = Some h /\ a' = with_password h a).
    { intros r <-. unfold bcrypt_password. destruct (hashpw p (gensalt work_factor)) as [h|]; [|done]. intros [= <-]. right. by exists h. }
    destruct (py_startswith "$2a$" (a_password a)).
    - destruct (hashpw p (a_password a)) as [h|]; [|done]. destruct (constant_time_compare _ _); [|done]. simpl in Hv.
      destruct (py_split "$" (a_password a) !! 2%nat) as [f|]; [|done]. simpl in Hv. destruct (py_int f) as [wf|]; [|done]. simpl in Hv.
      destruct (wf =? work_factor); [left; congruence|by eapply Hup].
    - destruct (negb _); [done|by eapply Hup]. }
  split; [done|]. destruct Hcase as [-> | (h & Hh & ->)]; [done|by apply fresh_hash_valid].
Qed.
End server.

(** ** Padding and encryption *)

Lemma str_repeat_S n a : str_repeat (Datatypes.S n) a = String a (str_repeat n a).
Proof. unfold str_repeat. by destruct n. Qed.

Lemma length_str_repeat n a : String.length (str_repeat n a) = n.
Proof. induction n as [|n IH]; [done|]. rewrite str_repeat_S. simpl. by rewrite IH. Qed.

Lemma get_str_repeat n a i : (i < n)%nat -> String.get i (str_repeat n a) = Some a.
Proof.
  revert i. induction n as [|n IH]; intros i Hi; [lia|]. rewrite str_repeat_S. destruct i as [|i]; [done|]. simpl. apply IH. lia.
Qed.

Lemma get_app_right s t i : String.get (String.length s + i) (s +:+ t) = String.get i t.
Proof. induction s as [|a s IH]; [done|]. rewrite string_app_cons. simpl. exact IH. Qed.

Lemma str_forall_repeat f n a : f a = true -> str_forall f (str_repeat n a) = true.
Proof. intros Ha. induction n as [|n IH]; [done|]. rewrite str_repeat_S. simpl. by rewrite Ha. Qed.

Lemma unpad_app t n : (0 < n <= 16)%nat -> _unpad_message (t +:+ str_repeat n (ascii_of_nat n)) = t.
Proof.
  intros Hn. unfold _unpad_message. rewrite length_str_app, length_str_repeat.
  replace (String.length t + n - 1)%nat with (String.length t + (n - 1))%nat by lia. rewrite get_app_right, get_str_repeat by lia.
  rewrite nat_ascii_embedding by lia. destruct (Nat.ltb_spec BLOCK_SIZE n) as [Hlt|_]; [unfold BLOCK_SIZE in Hlt; lia|].
  unfold tail_n, but_tail_n. rewrite length_str_app, length_str_repeat. destruct (Nat.eqb_spec n 0) as [|_]; [lia|].
  replace (String.length t + n - n)%nat with (String.length t) by lia. rewrite substring_drop, substring_all, substring_prefix by (rewrite length_str_repeat; lia).
  rewrite str_forall_repeat; [done|]. rewrite nat_ascii_embedding by lia. apply Nat.eqb_refl.
Qed.

Lemma padding_size t : exists n, (0 < n <= 16)%nat /\ _pad_message t = t +:+ str_repeat n (ascii_of_nat n) /\
  ((String.length t + n) mod BLOCK_SIZE = 0)%nat.
Proof.
  exists (16 - String.length t mod 16)%nat. pose proof (Nat.mod_upper_bound (String.length t) 16 ltac:(lia)) as Hm.
  split; [lia|split].
  - unfold _pad_message, BLOCK_SIZE. destruct (Nat.eqb_spec (16 - String.length t mod 16) 0); [lia|done].
  - unfold BLOCK_SIZE. rewrite (Nat.div_mod_eq (String.length t) 16) at 1.
    replace (16 * (String.length t / 16) + String.length t mod 16 + (16 - String.length t mod 16))%nat with ((String.length t / 16 + 1) * 16)%nat by lia.
    apply Nat.Div0.mod_mul.
Qed.

(** Decrypting gives back the text that was encrypted, for salts of the
    right size. *)
Theorem decrypt_encrypt `{C : Cipher} `{!CipherLaws C} salt text secret :
  String.length salt = SALT_SIZE -> _decrypt (_encrypt salt text secret) secret = Ok text.
Proof.
  intros Hs. unfold _decrypt, _encrypt. rewrite quote_inverse, <- Hs, substring_prefix, substring_drop.
  rewrite substring_all by (rewrite length_str_app; lia). rewrite b64_inverse. simpl.
  destruct (padding_size text) as (n & Hn & E & Hm). rewrite aes_inverse; [|by rewrite E, length_str_app, length_str_repeat].
  simpl. by rewrite E, unpad_app.
Qed.

(** Texts quoted more than three times are not unquoted. *)
Lemma unquoting_gives_up (quote unquote : string -> string) s :
  (forall s, unquote (quote s) = s) -> quote s <> s -> quote (quote s) <> quote s -> quote (quote (quote s)) <> quote (quote s) ->
  ensure_unquoted unquote 3 (quote (quote (quote s))) = None.
Proof.
  intros Hq H1 H2 H3. cbn [ensure_unquoted]. rewrite !Hq. by rewrite !(proj2 (String.eqb_neq _ _)) by done.
Qed.

(** ** One-time passwords *)

Section otp.
Context (hmac_digest : string -> list Z -> list Z) {M : Type} `{RateLimit.Memcached M} (py_int : string -> option Z).

Notation validate_otp := (validate_otp hmac_digest py_int).

(** What happens to the marks of used passwords: validations, and items that
    memcached evicts. *)
Inductive otp_event :=
  | Attempt (user secret password : string) (t : Z)
  | Evicted (key : string).

#[export] Instance otp_event_dec : EqDecision otp_event.
Proof. solve_decision. Defined.

Definition otp_step (m : M) (e : otp_event) : M :=
  match e with
  | Attempt user secret password t => (validate_otp user secret password t m).1
  | Evicted key => RateLimit.mc_evict key m
  end.

(** Validations are in the given time. *)
Definition during (t0 t1 : Z) (e : otp_event) : Prop :=
  match e with Attempt _ _ _ t => t0 <= t <= t1 | Evicted _ => True end.

Lemma mark_stays now key v m e :
  forall t, during t now e -> e <> Evicted key -> RateLimit.live m now key = Some v -> RateLimit.live (otp_step m e) now key = Some v.
Proof.
  intros t0. destruct e as [user secret password t|key']; simpl.
  - intros [_ Ht] _ Hl. unfold Sessions.validate_otp. destruct (py_int password) as [n|]; [|done].
    cbn [fst]. rewrite RateLimit.mc_add_live by done. rewrite bool_decide_false; [done|]. intros [-> Hn].
    apply (RateLimit.live_later m t now) in Hl; [congruence|done].
  - intros _ Hne Hl. by rewrite RateLimit.mc_evict_live, bool_decide_false by congruence.
Qed.

Lemma marks_stay t0 now key v l m :
  Forall (during t0 now) l -> Evicted key ∉ l -> RateLimit.live m now key = Some v -> RateLimit.live (foldl otp_step m l) now key = Some v.
Proof.
  revert m. induction l as [|e l IH]; intros m Hl He Hm; [done|]. apply Forall_cons in Hl as [Hq Hl].
  apply not_elem_of_cons in He as [Hne He]. simpl. apply IH; [done..|]. by apply (mark_stays now key v m e t0).
Qed.

(** C33. A one-time password that was accepted is accepted again for the same
    period only when memcached has evicted the mark of its use; whatever other
    passwords are tried in between, and whatever else is evicted. *)
Theorem otp_used_once user secret p now m l now' :
  (validate_otp user secret p now m).2 = true -> Forall (during now now') l -> now <= now' ->
  (validate_otp user secret p now' (foldl otp_step (validate_otp user secret p now m).1 l)).2 = true ->
  forall counter, Z.abs (now / PERIOD - counter) <= 1 -> Z.abs (now' / PERIOD - counter) <= 1 ->
  exists n, py_int p = Some n /\ Evicted (otp_key user n) ∈ l.
Proof.
  intros H1 Hl Hle H2 counter C1 C2. unfold Sessions.validate_otp in *. destruct (py_int p) as [n|]; [|done]. simpl in *.
  apply andb_true_iff in H1 as [H1 _], H2 as [H2 _]. rewrite RateLimit.mc_add_answer in H1, H2.
  apply bool_decide_eq_true in H1, H2. change (PERIOD * 4) with 120 in *. exists n. split; [done|].
  destruct (decide (Evicted (otp_key user n) ∈ l)) as [?|He]; [done|exfalso].
  destruct (decide (now' < now + 120)) as [Hlt | Hge].
  - assert (Hlive : RateLimit.live (RateLimit.mc_add (otp_key user n) 1 120 now m).1 now' (otp_key user n) = Some 1).
    { rewrite RateLimit.mc_add_live by done. by rewrite !bool_decide_true by (done || (right; exact Hlt)). }
    rewrite (marks_stay now now' (otp_key user n) 1 l) in H2 by done. done.
  - unfold PERIOD in *. assert (now / 30 + 4 <= now' / 30); [|lia].
    replace (now / 30 + 4) with ((now + 4 * 30) / 30) by (by rewrite Z.div_add). apply Z.div_le_mono; lia.
Qed.
End otp.
End SessionsProps.
