(* ===== verification/AuthExamples.v ===== *)
(** * Signed requests and sessions: instances

    Digests, hashes and ciphers with the laws, instances of the theorems, and
    what the code does with names that hold separators. *)

From S2P Require Import Prelude PyString Signing SigningProps RateLimit Sessions SessionsProps.
From Stdlib Require Import Ascii.

Module AuthExamples.
Import PyString Signing SigningProps RateLimit Sessions SessionsProps.

(** A digest as decimal text, of which the digits are hexadecimal. *)
Fixpoint hash (acc : Z) (s : string) : Z :=
  match s with EmptyString => acc | String a s => hash ((acc * 31 + Z.of_nat (nat_of_ascii a)) mod 1000003) s end.

Lemma hash_nonneg acc s : 0 <= acc -> 0 <= hash acc s.
Proof. revert acc. induction s as [|a s IH]; intros acc Ha; simpl; [done|]. apply IH, Z.mod_pos_bound. lia. Qed.

Definition digest (s : string) : string := py_str_int (hash 7 s).

Lemma digest_hex s : str_forall is_hex (digest s) = true.
Proof.
  destruct (digits_str_int (hash 7 s) (hash_nonneg 7 s ltac:(lia))) as [Hd _]. unfold digest. revert Hd.
  generalize (py_str_int (hash 7 s)). clear. intros s. induction s as [|a s IH]; simpl; [done|]. intros [Ha Hs]%andb_true_iff.
  rewrite IH by done. unfold is_hex. by rewrite Ha.
Qed.

#[export] Instance toy_hmac : Hmac := { hmac_sha256 k s := digest (k +:+ "|" +:+ s); request_signature_secret := "s" }.
#[export] Instance toy_hmac_laws : HmacLaws toy_hmac.
Proof. split. intros. apply digest_hex. Qed.

Lemma sign_then_verify_witness :
  exists s, sign_v1_message 5 "Body:{}" "ios" 3 (Some 1000) = Ok s /\
    valid_signature 1200 "Body:{}" (Some s) (Some "body") = Ok (MkResult 1 (Some "ios") 3 (Some (client_mac 1 "ios" 3 1000 "Body:{}")) true (Some 1000) [] ∅).
Proof. apply (sign_then_verify 5 1200 "Body:{}" "ios" 3 (Some 1000) 1000 (Some "body")); try reflexivity; try lia. discriminate. Defined.

(** A request signed by the first Android client a day ago. *)
Definition ua_sig : string := match sign_v1_message 5 "User-Agent:x|Client-Vendor-ID:" "android" 1 (Some 1000) with Ok s => s | Raise _ => "" end.
Definition body_sig : string := match sign_v1_message 5 "Body:b" "android" 1 (Some 1000) with Ok s => s | Raise _ => "" end.
Definition request0 : Signing.request :=
  MkRequest "POST" {["User-Agent" := "x"; SIGNATURE_UA_HEADER := ua_sig; SIGNATURE_BODY_HEADER := body_sig]} "b".

Example request0_valid : (let* r := v_signed 86400 request0 in Ok (is_valid r)) = Ok true.
Proof. vm_compute. reflexivity. Qed.

(** The documented form of a signature, without the epoch, is not one. *)
Example documented_form : (let* r := valid_signature 1000 "x" (Some "1:ios:3:abc") None in Ok (error_codes r)) = Ok {[UNPARSEABLE]}.
Proof. vm_compute. reflexivity. Qed.

(** A signature for a platform with a colon is read as one of another
    platform. *)
Example colon_platform :
  (let* s := sign_v1_message 5 "x" "a:1:2" 3 (Some 1000) in let* r := valid_signature 1000 "x" (Some s) None in Ok (platform r, valid_hmac r))
  = Ok (Some "a", false).
Proof. vm_compute. reflexivity. Qed.

(** Two requests with different headers have one payload. *)
Example payload_shared :
  ua_payload (MkRequest "GET" {["User-Agent" := "x|Client-Vendor-ID:1"]} "") =
  ua_payload (MkRequest "GET" {["User-Agent" := "x"; "Client-Vendor-ID" := "1|Client-Vendor-ID:"]} "").
Proof. vm_compute. reflexivity. Qed.

(** ** Sessions *)

#[export] Instance toy_server : Server := {
  sha1 := digest; hmac_sha1 k s := digest (k +:+ s); SECRET := "secret"; FEEDSECRET := "feed";
  ADMIN_COOKIE_TTL := 32400; ADMIN_COOKIE_MAX_IDLE := 900; OTP_COOKIE_TTL := 604800;
  local_time _ := "now"; utc_time _ := "now"; strptime := py_int_str; py_int := py_int_str
}.
#[export] Instance toy_server_laws : ServerLaws toy_server.
Proof. split; intros; [apply digest_hex..|done|done|apply Prelude.py_int_str_int]. Qed.

Definition user0 : account := Account 7 "u" "pw" "otp" true false.
Definition by_id0 (i : Z) : option account := if i =? 7 then Some user0 else None.

Lemma by_id0_id i b : by_id0 i = Some b -> a_id b = i.
Proof. unfold by_id0. destruct (Z.eqb_spec i 7) as [-> |]; [by intros [= <-]|done]. Qed.

Lemma session_cookie_exact_witness :
  get_authenticated_account 5 by_id0 (Some (make_cookie 0 user0 "2020-01-01T00:00:00")) = Some user0.
Proof.
  apply (session_cookie_exact 5 by_id0 _ user0 by_id0_id). exists "2020-01-01T00:00:00". split; [discriminate|]. repeat split.
Defined.

(** A cookie with an empty time, signed as such, does not log in. *)
Example timeless_cookie_refused : get_authenticated_account 5 by_id0 (Some ("7,," +:+ digest "7,,pw,secret")) = None.
Proof. vm_compute. reflexivity. Qed.

(** A server whose digest does not depend on the text. *)
Definition constant_server : Server := {|
  sha1 _ := "0"; hmac_sha1 _ _ := "0"; SECRET := "secret"; FEEDSECRET := "feed";
  ADMIN_COOKIE_TTL := 32400; ADMIN_COOKIE_MAX_IDLE := 900; OTP_COOKIE_TTL := 604800;
  local_time _ := "now"; utc_time _ := "now"; strptime := py_int_str; py_int := py_int_str |}.
Lemma constant_server_laws : ServerLaws constant_server.
Proof. split; intros; [done|done|done|done|apply Prelude.py_int_str_int]. Qed.

Definition by_id1 (i : Z) : option account := if i =? 7 then Some (with_password "new" user0) else None.

Lemma password_change_logs_out_witness :
  exists x y, x <> y /\ @sha1 constant_server x = @sha1 constant_server y.
Proof.
  apply (password_change_logs_out (S := constant_server) (ServerLaws0 := constant_server_laws) 0 9 by_id0 by_id1 "7,t,0" user0 "new" (with_password "new" user0)).
  - vm_compute. reflexivity.
  - vm_compute. reflexivity.
  - reflexivity.
  - discriminate.
  - reflexivity.
  - reflexivity.
Defined.

Lemma admin_cookie_exact_witness :
  (valid_admin_cookie false 1000 (Client "1.2.3.4" "ua, with a comma") user0
    (make_admin_cookie 0 (Client "1.2.3.4" "ua, with a comma") user0 "500" "900")).1 = true.
Proof. apply admin_cookie_exact. exists "500", "900", 500, 900. repeat split; vm_compute; congruence. Defined.

(** The hash of a feed is good for every path. *)
Example feed_of_another_path : make_feedhash user0 "/message/inbox" = make_feedhash user0 "/saved".
Proof. done. Qed.

(** ** Passwords *)

#[export] Instance toy_bcrypt : Bcrypt := {
  hashpw p s := match py_split "$" s with [""; "2a"; w; _] => Some ("$2a$" +:+ w +:+ "$" +:+ digest p) | _ => None end;
  gensalt w := "$2a$" +:+ py_str_int w +:+ "$";
  work_factor := 12
}.

Lemma split_salt w r : contains "$" w = false -> contains "$" r = false -> py_split "$" ("$2a$" +:+ w +:+ "$" +:+ r) = [""; "2a"; w; r].
Proof.
  intros Hw Hr. change ("$2a$" +:+ ?x) with (String "$" (String "2" (String "a" (String "$" x)))). cbn [py_split Ascii.eqb Bool.eqb].
  change ("$" +:+ r) with (String "$" r). rewrite (py_split_app _ w) by done. by rewrite py_split_none.
Qed.

Lemma digest_no_dollar p : contains "$" (digest p) = false.
Proof. eapply str_forall_contains; [apply digest_hex|done]. Qed.

#[export] Instance toy_bcrypt_laws : BcryptLaws toy_bcrypt.
Proof.
  assert (Hw : forall w, contains "$" (py_str_int w) = false) by (intros w; by apply int_no_char).
  assert (Hs : forall p w, hashpw p (gensalt w) = Some ("$2a$" +:+ py_str_int w +:+ "$" +:+ digest p)).
  { intros p w. cbn [hashpw gensalt toy_bcrypt]. change (py_str_int w +:+ "$") with (py_str_int w +:+ "$" +:+ ""). by rewrite split_salt. }
  split; intros p w h; rewrite Hs; intros [= <-].
  - cbn [hashpw toy_bcrypt]. by rewrite split_salt by (done || apply digest_no_dollar).
  - by exists (digest p).
Qed.

(** A password kept as a salted SHA-1 is upgraded. *)
Lemma password_upgraded_witness :
  exists h, valid_password (with_password (passhash "u" "hunter2" "") user0) "hunter2" None = Ok (true, with_password h user0) /\
    valid_password (with_password h user0) "hunter2" None = Ok (true, with_password h user0).
Proof.
  eexists. split; [vm_compute; reflexivity|].
  apply (password_upgraded (with_password (passhash "u" "hunter2" "") user0) "hunter2"); [discriminate|vm_compute; reflexivity].
Defined.

(** ** Encryption and one-time passwords *)

#[export] Instance toy_cipher : Cipher := {
  aes_encrypt _ _ s := s; aes_decrypt _ _ s := Some s; b64encode s := s; b64decode s := Some s; quote_plus s := s; unquote_plus s := s
}.
#[export] Instance toy_cipher_laws : CipherLaws toy_cipher.
Proof. by split. Qed.

Lemma decrypt_encrypt_witness : _decrypt (_encrypt (str_repeat 32 "a") "7|front-hot|en|False" "k") "k" = Ok "7|front-hot|en|False".
Proof. apply decrypt_encrypt. reflexivity. Defined.

Definition toy_hotp (secret : string) (msg : list Z) : list Z := replicate 20 (default 0 (last msg)).

Definition otp0 (p : string) (t : Z) (m : items) : items * bool := validate_otp toy_hotp py_int_str "1" "k" p t m.

Definition code0 : string := make_totp toy_hotp "k" 0 100.

Notation between := [Attempt "2" "k" "7" 105; Evicted (otp_key "1" 7)].

Lemma otp_used_once_witness : (otp0 code0 100 ∅).2 = true /\
  (otp0 code0 110 (foldl (otp_step toy_hotp py_int_str) (otp0 code0 100 ∅).1 between)).2 = false.
Proof.
  assert (H1 : (otp0 code0 100 ∅).2 = true) by (vm_compute; reflexivity). split; [exact H1|].
  destruct (otp0 code0 110 (foldl (otp_step toy_hotp py_int_str) (otp0 code0 100 ∅).1 between)).2 eqn:E; [|reflexivity]. exfalso.
  destruct (otp_used_once toy_hotp py_int_str "1" "k" code0 100 ∅ between 110 H1) with (counter := 3) as (n & Hn & He);
    [repeat constructor; simpl; lia|lia|exact E|vm_compute; discriminate|vm_compute; discriminate|].
  vm_compute in Hn. injection Hn as <-. vm_compute in He.
  repeat (apply elem_of_cons in He as [He|He]; [discriminate He|]). by apply not_elem_of_nil in He.
Defined.
End AuthExamples.
