(* ===== verification/Url.v ===== *)
(** * URLs

    [UrlParser] of lib/utils/utils.py with the functions of Python's module
    [urlparse] it stands on, [VDestination] of lib/validator/validator.py and
    the redirects of lib/base.py, and where a browser goes with the text of a
    link.  Texts are byte strings. *)

From S2P Require Import Prelude PyString.
From Stdlib Require Import Ascii.

Module Url.
Import PyString.

(** ** The standard library *)

Record split_result := Split { sp_scheme : string; sp_netloc : string; sp_path : string; sp_query : string; sp_fragment : string }.

Definition scheme_char (a : ascii) : bool :=
  let n := nat_of_ascii a in
  ((97 <=? n)%nat && (n <=? 122)%nat) || ((65 <=? n)%nat && (n <=? 90)%nat) || is_digit a || contains a "+-.".

Definition split_rest (scheme netloc url : string) : split_result :=
  let '(url, _, fragment) := partition "#" url in
  let '(url, _, query) := partition "?" url in
  Split scheme netloc url query fragment.

(** [_splitnetloc] and the check of its brackets. *)
Definition split_netloc (scheme url : string) : res split_result :=
  match url with
  | String a (String b rest) =>
      if Ascii.eqb a "/" && Ascii.eqb b "/" then
        let '(netloc, rest) := break_at (fun a => contains a "/?#") rest in
        if xorb (contains "[" netloc) (contains "]" netloc) then Raise ValueError else Ok (split_rest scheme netloc rest)
      else Ok (split_rest scheme "" url)
  | _ => Ok (split_rest scheme "" url)
  end.

Definition urlsplit (url : string) : res split_result :=
  let '(pre, found, rest) := partition ":" url in
  if negb found || String.eqb pre "" then split_netloc "" url
  else if String.eqb pre "http" then split_netloc "http" rest
  else if str_forall scheme_char pre && (String.eqb rest "" || negb (str_forall is_digit rest)) then split_netloc (py_lower pre) rest
  else split_netloc "" url.

Definition uses_params : list string :=
  ["ftp"; "hdl"; "prospero"; "http"; "imap"; "https"; "shttp"; "rtsp"; "rtspu"; "sip"; "sips"; "mms"; ""; "sftp"; "tel"].

Definition uses_netloc : list string :=
  ["ftp"; "http"; "gopher"; "nntp"; "telnet"; "imap"; "wais"; "file"; "mms"; "https"; "shttp"; "snews"; "prospero"; "rtsp"; "rtspu";
   "rsync"; ""; "svn"; "svn+ssh"; "sftp"; "nfs"; "git"; "git+ssh"].

(** [_splitparams]. *)
Definition splitparams (url : string) : string * string :=
  let '(dirs, slash, name) := rpartition "/" url in
  let '(name, found, params) := partition ";" name in
  if found then ((if slash then dirs +:+ "/" else "") +:+ name, params) else (url, "").

(** [hostname], [port], [username] and [password] of a netloc; [hasattr]
    makes nothing of a port that is no number. *)
Definition after_at (netloc : string) : string := let '(_, _, host) := rpartition "@" netloc in host.

Definition hostname_of (netloc : string) : option string :=
  let netloc := after_at netloc in
  if contains "[" netloc && contains "]" netloc then
    let '(inside, _, _) := partition "]" netloc in Some (py_lower (match inside with String _ s => s | EmptyString => EmptyString end))
  else if contains ":" netloc then let '(host, _, _) := partition ":" netloc in Some (py_lower host)
  else if String.eqb netloc "" then None
  else Some (py_lower netloc).

Definition port_of (netloc : string) : option Z :=
  let netloc := List.last (py_split "]" (after_at netloc)) "" in
  match py_split ":" netloc with
  | _ :: port :: _ =>
      match py_int port with
      | Some n => if (0 <=? n) && (n <=? 65535) then Some n else None
      | None => None
      end
  | _ => None
  end.

Definition userinfo (netloc : string) : option string :=
  let '(info, found, _) := rpartition "@" netloc in if found then Some info else None.

Definition username_of (netloc : string) : option string :=
  (fun info => let '(user, _, _) := partition ":" info in user) <$> userinfo netloc.

Definition password_of (netloc : string) : option string :=
  match userinfo netloc with
  | Some info => let '(_, found, pw) := partition ":" info in if found then Some pw else None
  | None => None
  end.

Definition urlunsplit (scheme netloc url query fragment : string) : string :=
  let url :=
    if negb (String.eqb netloc "") ||
       (negb (String.eqb scheme "") && bool_decide (scheme ∈ uses_netloc) && negb (py_startswith "//" url)) then
      "//" +:+ netloc +:+ (if negb (String.eqb url "") && negb (py_startswith "/" url) then "/" +:+ url else url)
    else url in
  let url := if String.eqb scheme "" then url else scheme +:+ ":" +:+ url in
  let url := if String.eqb query "" then url else url +:+ "?" +:+ query in
  if String.eqb fragment "" then url else url +:+ "#" +:+ fragment.

Definition urlunparse (scheme netloc url params query fragment : string) : string :=
  urlunsplit scheme netloc (if String.eqb params "" then url else url +:+ ";" +:+ params) query fragment.

(** [unquote_plus]: what is not two hexadecimal digits stays. *)
Definition hex_val (a : ascii) : option nat :=
  let n := nat_of_ascii a in
  if is_digit a then Some (n - 48)%nat
  else if (97 <=? n)%nat && (n <=? 102)%nat then Some (n - 87)%nat
  else if (65 <=? n)%nat && (n <=? 70)%nat then Some (n - 55)%nat
  else None.

Fixpoint unquote (s : string) : string :=
  match s with
  | EmptyString => EmptyString
  | String a s' =>
      match s' with
      | String h (String l s'') =>
          match (if Ascii.eqb a "%" then hex_val h else None), hex_val l with
          | Some h, Some l => String (ascii_of_nat (16 * h + l)) (unquote s'')
          | _, _ => String a (unquote s')
          end
      | _ => String a (unquote s')
      end
  end.

Definition unquote_plus (s : string) : string := unquote (replace_char "+" " " s).

(** ** The parser *)

(** An ordered dictionary of query parameters. *)
Notation odict := (list (string * string)).

Definition od_set (d : odict) (kv : string * string) : odict :=
  if existsb (fun p => String.eqb p.1 kv.1) d then (fun p => if String.eqb p.1 kv.1 then kv else p) <$> d else d ++ [kv].

Record url_parser := MkUrl {
  scheme : string;
  path : string;
  params : string;
  u_query : string;
  fragment : string;
  username : option string;
  password : option string;
  hostname : option string;
  port : option Z;
  _orig_url : string;
  _orig_netloc : string;
  _query_dict : option odict
}.

Definition parse (url : string) : res url_parser :=
  let* s := urlsplit url in
  let pp := if bool_decide (sp_scheme s ∈ uses_params) then splitparams (sp_path s) else (sp_path s, "") in
  let n := sp_netloc s in
  Ok (MkUrl (sp_scheme s) pp.1 pp.2 (sp_query s) (sp_fragment s) (username_of n) (password_of n) (hostname_of n) (port_of n) url n None).

Definition with_path (p : string) (u : url_parser) : url_parser :=
  MkUrl (scheme u) p (params u) (u_query u) (fragment u) (username u) (password u) (hostname u) (port u) (_orig_url u) (_orig_netloc u) (_query_dict u).

Definition with_hostname (h : string) (u : url_parser) : url_parser :=
  MkUrl (scheme u) (path u) (params u) (u_query u) (fragment u) (username u) (password u) (Some h) (port u) (_orig_url u) (_orig_netloc u) (_query_dict u).

Definition with_scheme (s : string) (u : url_parser) : url_parser :=
  MkUrl s (path u) (params u) (u_query u) (fragment u) (username u) (password u) (hostname u) (port u) (_orig_url u) (_orig_netloc u) (_query_dict u).

Definition with_query_dict (d : odict) (u : url_parser) : url_parser :=
  MkUrl (scheme u) (path u) (params u) (u_query u) (fragment u) (username u) (password u) (hostname u) (port u) (_orig_url u) (_orig_netloc u) (Some d).

(** No host name, or an empty one. *)
Definition no_hostname (u : url_parser) : bool := match hostname u with None => true | Some h => String.eqb h "" end.

Definition netloc (u : url_parser) : string :=
  match hostname u with
  | None => ""
  | Some h => if String.eqb h "" then "" else match port u with Some (Z.pos _ as p) => h +:+ ":" +:+ py_str_int p | _ => h end
  end.

Definition split_param (p : string) : string * string := let '(k, _, v) := partition "=" p in (unquote_plus k, unquote_plus v).

Definition query_dict (u : url_parser) : odict :=
  match _query_dict u with
  | Some d => d
  | None => foldl od_set [] (split_param <$> List.filter (fun p => negb (String.eqb p "")) (py_split "&" (u_query u)))
  end.

(** ** Extensions *)

Definition path_extension (u : url_parser) : string :=
  let filename := List.last (py_split "/" (path u)) "" in
  match py_split "." filename with
  | [_] => ""
  | parts => List.last parts ""
  end.

Definition has_image_extension (u : url_parser) : bool := bool_decide (py_lower (path_extension u) ∈ ["gif"; "jpeg"; "jpg"; "png"; "tiff"]).

Definition set_extension (extension : string) (u : url_parser) : url_parser :=
  let pieces := py_split "/" (path u) in
  let dirs := removelast pieces in
  let base := py_split "." (List.last pieces "") in
  let base := py_join "." (if (1 <? length base)%nat then removelast base else base) in
  let base := if String.eqb extension "" then base else base +:+ "." +:+ extension in
  with_path (py_join "/" (dirs ++ [base])) u.

(** ** Back to text *)

(** [s.replace('//', '/')]. *)
Fixpoint replace_slashes (s : string) : string :=
  match s with
  | String a s' =>
      match s' with
      | String b s'' => if Ascii.eqb a "/" && Ascii.eqb b "/" then String "/" (replace_slashes s'') else String a (replace_slashes s')
      | EmptyString => s
      end
  | EmptyString => EmptyString
  end.

(** [_force_unicode] of lib/unicode.py, of bytes, as the UTF-8 of its result:
    what is not UTF-8 is read as Latin-1. *)
Fixpoint latin1 (s : string) : string :=
  match s with
  | EmptyString => EmptyString
  | String a s =>
      let n := nat_of_ascii a in
      if (n <? 128)%nat then String a (latin1 s)
      else String (ascii_of_nat (192 + n / 64)) (String (ascii_of_nat (128 + n mod 64)) (latin1 s))
  end.

Definition _force_unicode (text : string) : string := if valid_utf8 text then text else latin1 text.

Definition update_query (updates : odict) (u : url_parser) : url_parser :=
  with_query_dict (foldl od_set (query_dict u) ((fun kv => (kv.1, _force_unicode kv.2)) <$> updates)) u.

(** What comes from elsewhere: mako's [url_escape], which takes unicode, and
    the configuration. *)
Class Site := {
  url_escape : string -> string;
  g_domain : string;
  g_domain_prefix : string;
  offsite_subdomains : list string;
  extension_subdomains : list (string * string);
  brander_community_abbr : string
}.

Section site.
Context `{Site}.

(** Of texts only, so that no value is [None] and nothing fails to decode. *)
Definition query_string (d : odict) : string :=
  match (fun kv => url_escape (_force_unicode kv.1) +:+ "=" +:+ url_escape (_force_unicode kv.2)) <$> d with
  | [] => ""
  | pairs => "?" +:+ py_join "&" pairs
  end.

(** [_unparse], with what it changes in the object. *)
Definition _unparse (u : url_parser) : url_parser * (string * string * string * string * string * string) :=
  let q := py_lstrip (fun a => Ascii.eqb a "?") (query_string (query_dict u)) in
  let u := match port u, hostname u with
    | Some (Z.pos _), Some h => if contains ":" h then with_hostname (let '(h, _, _) := partition ":" h in h) u else u
    | _, _ => u
    end in
  let u := if negb (String.eqb (netloc u) "") && String.eqb (scheme u) "" then with_scheme "http" u else u in
  (u, (scheme u, netloc u, replace_slashes (path u), params u, q, fragment u)).

Definition unparse (u : url_parser) : string :=
  let '(s, n, p, pa, q, f) := (_unparse u).2 in urlunparse s n p pa q f.

(** ** Checks *)

Definition valid_schemes : list string := ["http"; "https"; "ftp"; "mailto"].

(** [URL_PROBLEMATIC_RE] in a byte string, with the slashes before a
    character; a space is only a problem at the start. *)
Fixpoint problematic (slashes : nat) (s : string) : bool :=
  match s with
  | EmptyString => false
  | String a s =>
      let n := nat_of_ascii a in
      (if (n =? 160)%nat then (slashes <? 3)%nat else (n <=? 25)%nat || Ascii.eqb a "\") ||
      problematic (slashes + if Ascii.eqb a "/" then 1 else 0) s
  end.

Definition web_safe_once (u : url_parser) : bool :=
  negb (py_startswith "///" (_orig_url u)) &&
  negb (no_hostname u && py_startswith "//" (path u)) &&
  negb (negb (String.eqb (scheme u) "") && no_hostname u) &&
  negb (contains "@" (_orig_netloc u)) &&
  (String.eqb (scheme u) "" || bool_decide (py_lower (scheme u) ∈ valid_schemes)) &&
  negb (py_startswith " " (_orig_url u) || problematic 0 (_orig_url u)).

(** [is_web_safe_url], of the object, as [unparse] leaves it, and of what it is
    parsed to again. *)
Definition is_web_safe_url (u : url_parser) : res bool :=
  let* v := parse (unparse u) in Ok (web_safe_once (_unparse u).1 && web_safe_once v).

Definition is_subdomain (subdomain : option string) (base : string) : bool :=
  match subdomain with
  | None => false
  | Some s => String.eqb s base || py_endswith ("." +:+ base) s
  end.

(** [is_reddit_url], which looks at the host name only. *)
Definition reddit_hostname (site_domain hostname : option string) : bool :=
  let no_hostname := match hostname with None => true | Some h => String.eqb h "" end in
  let valid_subdomain :=
    no_hostname || is_subdomain hostname g_domain ||
    match site_domain with Some d => negb (String.eqb d "") && is_subdomain hostname d | None => false end in
  if negb valid_subdomain || no_hostname || bool_decide (offsite_subdomains = []) then valid_subdomain
  else negb (existsb (fun s => is_subdomain hostname (s +:+ "." +:+ g_domain)) offsite_subdomains).

Definition is_reddit_url (site_domain : option string) (u : url_parser) : bool := reddit_hostname site_domain (hostname u).

(** [VDestination.run]; [default] is the default or the front page. *)
Definition v_destination (site_domain : option string) (default dest : string) : res string :=
  let dest := if String.eqb dest "" then default else dest in
  let ld := py_lower dest in
  if py_startswith "/" ld || py_startswith "http://" ld || py_startswith "https://" ld then
    let* u := parse dest in
    if is_reddit_url site_domain u then
      let* safe := is_web_safe_url u in Ok (if safe then dest else "/")
    else Ok "/"
  else Ok "/".

(** [format_output_url]; [None] is the abort for a newline in the result. *)
Definition format_output_url (preserve_extension : bool) (extension : string) (url : string) : res (option string) :=
  let* u := parse url in
  let u := if is_reddit_url None u && preserve_extension && negb (String.eqb extension "") then set_extension extension u else u in
  let rv := unparse u in
  Ok (if contains "010"%char rv || contains "013"%char rv then None else Some rv).

(** ** Other uses *)

Definition switch_subdomain_by_extension (extension : string) (u : url_parser) : url_parser :=
  let new_subdomain := match List.find (fun p => String.eqb p.2 extension) extension_subdomains with Some p => p.1 | None => g_domain_prefix end in
  with_hostname (new_subdomain +:+ "." +:+ g_domain) u.

Definition path_has_subreddit (u : url_parser) : bool :=
  existsb (fun p => py_startswith p (path u)) ["/" +:+ brander_community_abbr +:+ "/"; "/subreddits/"; "/reddits/"].

Definition path_add_subreddit (dynamic : bool) (user_path : string) (u : url_parser) : url_parser :=
  if path_has_subreddit u || py_startswith user_path (path u) || dynamic then u else with_path (user_path +:+ path u) u.

Definition coerce_url_to_protocol (protocol url : string) : res string := let* u := parse url in Ok (unparse (with_scheme protocol u)).

Definition domain_permutations (fragments subdomains : bool) (u : url_parser) : gset string :=
  if no_hostname u then ∅
  else
    let r := py_split "." (default "" (hostname u)) in
    (if subdomains then list_to_set ((fun x => py_join "." (drop x r)) <$> seq 0 (length r - 1)) else ∅) ∪
    (if fragments then list_to_set r else ∅).
End site.

(** ** A browser *)

(** Where a link leads, on a page of a special scheme: elsewhere on the host,
    to a host as it is written or an address in brackets, nowhere, or to
    another program. *)
Inductive destination := Relative | Host (h : string) | Literal (h : string) | Failure | Opaque (scheme : string).

Definition special : list string := ["http"; "https"; "ftp"; "ws"; "wss"].

Definition is_slash (a : ascii) : bool := Ascii.eqb a "/" || Ascii.eqb a "\".

Definition c0_or_space (a : ascii) : bool := (nat_of_ascii a <=? 32)%nat.

Definition is_alpha (a : ascii) : bool := let n := nat_of_ascii (lower_char a) in (97 <=? n)%nat && (n <=? 122)%nat.

Definition authority (s : string) : destination :=
  let '(raw, _) := break_at (fun a => contains a "/\?#") (py_lstrip is_slash s) in
  let host := after_at raw in
  match host with
  | EmptyString => Failure
  | String a rest =>
      if Ascii.eqb a "[" then let '(inside, found, _) := partition "]" rest in if found then Literal (py_lower inside) else Failure
      else
        let '(name, _, port) := partition ":" host in
        if String.eqb name "" || contains "[" name || contains "]" name || negb (str_forall is_digit port) then Failure
        else Host (py_lower name)
  end.

Definition relative_state (s : string) : destination :=
  match s with
  | String a (String b _) => if is_slash a && is_slash b then authority s else Relative
  | _ => Relative
  end.

Definition browser (base_scheme url : string) : destination :=
  let s := py_rstrip c0_or_space (py_lstrip c0_or_space url) in
  let s := str_filter (fun a => negb (contains a (String "009" (String "010" (String "013" ""))))) s in
  let '(pre, found, rest) := partition ":" s in
  let starts_alpha := match pre with String a _ => is_alpha a | EmptyString => false end in
  if found && starts_alpha && str_forall scheme_char pre then
    let scheme := py_lower pre in
    if bool_decide (scheme ∈ special) then
      if String.eqb scheme base_scheme then relative_state rest else authority rest
    else Opaque scheme
  else relative_state s.
End Url.
