(* ===== verification/UrlProps.v ===== *)
(** * URLs: properties

    Where a browser goes with a link that passes the checks, and round trips of
    extensions and query parameters. *)

From S2P Require Import Prelude PyString Url.
From Stdlib Require Import Ascii.

Module UrlProps.
Import PyString Url.

(** ** Parts of texts *)

Lemma partition_spec c s :
  match partition c s with
  | (p, true, r) => s = p +:+ String c r /\ contains c p = false
  | (p, false, r) => p = s /\ r = "" /\ contains c s = false
  end.
Proof.
  induction s as [|a s IH]; [done|]. cbn [partition contains]. destruct (Ascii.eqb_spec a c) as [-> | Hne]; [done|].
  destruct (partition c s) as [[p []] r]; simpl.
  - destruct IH as [-> Hp]. split; [done|]. apply Ascii.eqb_neq in Hne. by rewrite Hne.
  - by destruct IH as (-> & -> & ->).
Qed.

Lemma partition_extend c s t : contains c t = false ->
  partition c (s +:+ t) = (if (partition c s).1.2 then (partition c s).1.1 else s +:+ t, (partition c s).1.2,
    if (partition c s).1.2 then (partition c s).2 +:+ t else "").
Proof.
  intros Ht. pose proof (partition_spec c s) as Hs. destruct (partition c s) as [[p []] r]; simpl.
  - destruct Hs as [-> Hp]. rewrite <- string_app_assoc, string_app_cons. by apply partition_app.
  - destruct Hs as (-> & -> & Hs). apply partition_none. by rewrite contains_app, Hs, Ht.
Qed.

Lemma py_rstrip_spec f s : exists t, s = py_rstrip f s +:+ t /\ str_forall f t = true.
Proof.
  induction s as [|a s (t & E & Ht)]; [by exists ""|]. cbn [py_rstrip]. destruct (py_rstrip f s) as [|b s'].
  - destruct (f a) eqn:Ea; [|by exists t; rewrite E at 1]. exists (String a s). split; [done|]. cbn [str_forall]. rewrite Ea, E. exact Ht.
  - exists t. split; [|done]. rewrite E at 1. done.
Qed.

Lemma break_at_extend f s t : str_forall (fun a => negb (f a)) t = true ->
  (break_at f (s +:+ t)).1 = (break_at f s).1 +:+ (if String.eqb (break_at f s).2 "" then t else "").
Proof.
  intros Ht. induction s as [|a s IH].
  - change ("" +:+ t) with t. simpl. clear -Ht. induction t as [|a t IH]; [done|]. simpl in Ht |- *. apply andb_true_iff in Ht as [Ha Ht].
    apply negb_true_iff in Ha. rewrite Ha. simpl. by rewrite IH.
  - rewrite string_app_cons. cbn [break_at]. destruct (f a); [done|]. cbn [fst snd]. by rewrite IH, string_app_cons.
Qed.

Lemma break_at_ext f g s : (forall a, contains a s = true -> f a = g a) -> break_at f s = break_at g s.
Proof.
  induction s as [|a s IH]; intros H; [done|]. simpl. rewrite (H a) by (simpl; by rewrite Ascii.eqb_refl).
  destruct (g a); [done|]. rewrite IH; [done|]. intros b Hb. apply H. simpl. by rewrite Hb, orb_true_r.
Qed.

Lemma break_at_stops f s : str_forall (fun a => negb (f a)) (break_at f s).1 = true.
Proof. induction s as [|a s IH]; [done|]. simpl. destruct (f a) eqn:E; [done|]. simpl. by rewrite E. Qed.

Lemma str_forall_impl (f g : ascii -> bool) s : (forall a, f a = true -> g a = true) -> str_forall f s = true -> str_forall g s = true.
Proof. intros H. induction s as [|a s IH]; [done|]. simpl. rewrite !andb_true_iff. naive_solver. Qed.

Lemma py_lower_app s t : py_lower (s +:+ t) = py_lower s +:+ py_lower t.
Proof. induction s as [|a s IH]; [done|]. rewrite !string_app_cons. simpl. by rewrite IH. Qed.

Lemma string_app_nonempty s t : s <> "" -> s +:+ t <> "".
Proof. destruct s as [|a s]; [done|]. by rewrite string_app_cons. Qed.

(** Bounds on the codes of constant characters. *)
Ltac char_bound := first [done | apply Nat.leb_le; reflexivity].

(** Characters of one kind are not of another. *)
Lemma c0_not a c : c0_or_space a = true -> (33 <= nat_of_ascii c)%nat -> Ascii.eqb a c = false.
Proof. unfold c0_or_space. intros Ha Hc. destruct (Ascii.eqb_spec a c) as [-> |]; [|done]. apply Nat.leb_le in Ha. lia. Qed.

Lemma c0_contains t c : str_forall c0_or_space t = true -> (33 <= nat_of_ascii c)%nat -> contains c t = false.
Proof.
  induction t as [|a t IH]; [done|]. simpl. intros [Ha Ht]%andb_true_iff Hc. by rewrite (c0_not a c), IH.
Qed.

(** ** The host a browser finds *)

Definition slashes_or_query : ascii -> bool := fun a => contains a "/?#".

Lemma c0_not_delimiter t : str_forall c0_or_space t = true -> str_forall (fun a => negb (slashes_or_query a)) t = true.
Proof.
  apply str_forall_impl. intros a Ha. unfold slashes_or_query. cbn [contains].
  rewrite !(Ascii.eqb_sym _ a), !(c0_not a) by char_bound. done.
Qed.

Lemma after_at_none s : contains "@" s = false -> after_at s = s.
Proof. intros Hs. unfold after_at. by rewrite rpartition_none. Qed.

(** The netloc of a text, of which a browser drops the spaces at the end. *)
Lemma authority_host r sp :
  str_forall c0_or_space sp = true -> contains "\" r = false ->
  (match r with String a _ => is_slash a = false | EmptyString => True end) ->
  let netloc := (break_at slashes_or_query (r +:+ sp)).1 in
  xorb (contains "[" netloc) (contains "]" netloc) = false -> contains "@" netloc = false ->
  match authority r with
  | Failure => True
  | Host h => h <> "" /\ exists t, str_forall c0_or_space t = true /\ hostname_of netloc = Some (h +:+ t)
  | Literal h => hostname_of netloc = Some h
  | _ => False
  end.
Proof.
  intros Hsp Hb Hfirst. cbv zeta. rewrite break_at_extend by by apply c0_not_delimiter.
  set (t := if String.eqb _ "" then sp else ""). assert (Ht : str_forall c0_or_space t = true) by (unfold t; by destruct (String.eqb _ _)).
  unfold authority. assert (Els : py_lstrip is_slash r = r) by (destruct r as [|a r]; [done|]; simpl; by rewrite Hfirst). rewrite Els.
  assert (Ebr : break_at (fun a => contains a "/\?#") r = break_at slashes_or_query r).
  { apply break_at_ext. intros a Ha. unfold slashes_or_query. cbn [contains]. destruct (Ascii.eqb_spec "\" a) as [<- |]; [congruence|].
    by rewrite orb_false_l. }
  rewrite Ebr. destruct (break_at slashes_or_query r) as [raw rest] eqn:Er. cbn [fst]. intros Hbr Hat.
  assert (Hat' : contains "@" raw = false) by (rewrite contains_app in Hat; by apply orb_false_iff in Hat as [? _]).
  rewrite (after_at_none raw) by done. unfold hostname_of. rewrite (after_at_none (raw +:+ t)) by done.
  assert (Hc : forall c, (33 <= nat_of_ascii c)%nat -> contains c (raw +:+ t) = contains c raw)
    by (intros c Hc; rewrite contains_app, (c0_contains t c) by done; apply orb_false_r).
  rewrite !Hc in Hbr |- * by char_bound. destruct raw as [|a raw]; [done|].
  destruct (Ascii.eqb_spec a "[") as [-> | Ha].
  - change (contains "[" (String "[" raw)) with true in *. change (contains "]" (String "[" raw)) with (contains "]" raw) in *.
    destruct (contains "]" raw) eqn:Ecl; [|done]. pose proof (partition_spec "]" raw) as Hp.
    destruct (partition "]" raw) as [[inside []] r'] eqn:Ep; [|by destruct Hp as (_ & _ & ?); congruence]. cbn [andb].
    rewrite partition_extend by (apply c0_contains; [done|char_bound]).
    cbn [partition]. change (Ascii.eqb "[" "]") with false. cbn [fst snd]. by rewrite Ep.
  - pose proof (partition_spec ":" (String a raw)) as Hp. rewrite partition_extend by (apply c0_contains; [done|char_bound]).
    destruct (partition ":" (String a raw)) as [[name found] port] eqn:Ep. cbn [fst snd].
    destruct (String.eqb name "" || contains "[" name || contains "]" name || negb (str_forall is_digit port)) eqn:Ebad; [done|].
    apply orb_false_iff in Ebad as [Ebad Hport]. apply negb_false_iff in Hport.
    apply orb_false_iff in Ebad as [Ebad Hcl]. apply orb_false_iff in Ebad as [Hne Hop]. apply String.eqb_neq in Hne.
    split; [by destruct name|]. destruct found.
    + destruct Hp as [E Hp]. assert (Hno : forall c, is_digit c = false -> Ascii.eqb ":" c = false -> contains c name = false -> contains c (String a raw) = false).
      { intros c Hd Hcol Hn. rewrite E, contains_app, Hn. cbn [contains]. rewrite Hcol. by eapply str_forall_contains. }
      rewrite (Hno "["%char), andb_false_l by done. rewrite E, !contains_app. cbn [contains]. rewrite Ascii.eqb_refl, orb_true_l, orb_true_r, orb_true_l.
      rewrite <- string_app_assoc, string_app_cons, partition_app by done.
      exists "". by rewrite string_app_nil_r.
    + destruct Hp as (-> & -> & Hcol). rewrite Hop. cbn [andb]. rewrite contains_app, Hcol, (c0_contains t) by char_bound. cbn [orb]. rewrite string_app_cons. cbn [String.eqb].
      exists (py_lower t). split; [|by rewrite <- py_lower_app].
      clear -Ht. induction t as [|b t IH]; [done|]. simpl in Ht |- *. apply andb_true_iff in Ht as [Hb Ht]. rewrite IH by done.
      rewrite andb_true_r. unfold c0_or_space, lower_char in *. apply Nat.leb_le in Hb. destruct (Nat.leb_spec 65 (nat_of_ascii b)); [lia|].
      by apply Nat.leb_le.
Qed.

(** ** Links that pass the checks *)

Lemma problematic_false k s : problematic k s = false -> str_forall (fun a => (25 <? nat_of_ascii a)%nat && negb (Ascii.eqb a "\")) s = true.
Proof.
  revert k. induction s as [|a s IH]; intros k; [done|]. cbn [problematic str_forall]. intros [Ha Hs]%orb_false_iff. rewrite (IH _ Hs), andb_true_r.
  destruct (Nat.eqb_spec (nat_of_ascii a) 160) as [E|].
  - rewrite E. destruct (Ascii.eqb_spec a "\") as [-> |]; [discriminate E|done].
  - apply orb_false_iff in Ha as [Ha ->]. rewrite andb_true_r. apply Nat.leb_gt in Ha. by apply Nat.ltb_lt.
Qed.

Lemma str_filter_id f s : str_forall f s = true -> str_filter f s = s.
Proof. induction s as [|a s IH]; [done|]. simpl. intros [-> Hs]%andb_true_iff. by rewrite IH. Qed.

Lemma str_forall_app_l f s t : str_forall f (s +:+ t) = true -> str_forall f s = true.
Proof. rewrite str_forall_app. by intros [? _]%andb_true_iff. Qed.

Lemma contains_forall c f s : str_forall f s = true -> f c = false -> contains c s = false.
Proof. apply str_forall_contains. Qed.

Lemma lower_char_alpha a : (97 <= nat_of_ascii (lower_char a) <= 122)%nat -> is_alpha a = true.
Proof. unfold is_alpha. intros [H1 H2]. apply andb_true_iff. split; by apply Nat.leb_le. Qed.

Section site.
Context `{Site}.

(** A host that is one of the site's, for a browser's reading of a link. *)
Definition good_destination (site_domain : option string) (d : destination) : Prop :=
  match d with
  | Relative | Failure => True
  | Host h => h <> "" /\ reddit_hostname site_domain (Some h) = true
  | Literal h => reddit_hostname site_domain (Some h) = true
  | Opaque s => s ∈ valid_schemes
  end.

Definition plain_domain (d : string) : Prop := d <> "" /\ str_forall (fun a => negb (c0_or_space a)) d = true.

(** A domain does not end with spaces. *)
Lemma subdomain_no_spaces h t d : plain_domain d -> str_forall c0_or_space t = true -> t <> "" -> is_subdomain (Some (h +:+ t)) d = false.
Proof.
  intros [Hne Hd] Ht Htne.
  assert (Hlast : forall s : string, s <> "" -> exists s' a, s = s' +:+ String a "").
  { clear. induction s as [|a s IH]; [done|]. intros _. destruct s as [|b s]; [by exists "", a|].
    destruct IH as (s' & c & ->); [done|]. by exists (String a s'), c. }
  destruct (Hlast t Htne) as (t' & a & ->), (Hlast d Hne) as (d' & b & ->). rewrite str_forall_app in Ht, Hd.
  apply andb_true_iff in Ht as [_ Ha], Hd as [_ Hb]. cbn [str_forall] in Ha, Hb. rewrite andb_true_r in Ha, Hb. apply negb_true_iff in Hb.
  assert (Hend : forall x y : string, x +:+ String a "" = y +:+ String b "" -> a = b).
  { clear. induction x as [|c x IH]; intros [|e y]; rewrite ?string_app_cons.
    - by intros [= ->].
    - intros [= _ E]. by destruct y.
    - intros [= _ E]. by destruct x.
    - intros [= _ E]. by eapply IH. }
  cbn [is_subdomain]. apply orb_false_iff. split.
  - apply String.eqb_neq. rewrite string_app_assoc. intros E%Hend. congruence.
  - apply not_true_iff_false. rewrite py_endswith_spec. intros [p E]. rewrite !string_app_assoc in E. apply Hend in E. congruence.
Qed.

Context (domain_plain : plain_domain g_domain).

Definition plain_site (site_domain : option string) : Prop := match site_domain with Some d => d = "" \/ plain_domain d | None => True end.

Lemma reddit_no_spaces site_domain h t :
  plain_site site_domain -> h +:+ t <> "" -> str_forall c0_or_space t = true -> reddit_hostname site_domain (Some (h +:+ t)) = true ->
  t = "".
Proof.
  intros Hsite Hne Ht Hr. destruct (decide (t = "")) as [|Htne]; [done|]. exfalso. revert Hr. unfold reddit_hostname.
  apply String.eqb_neq in Hne. rewrite Hne, (subdomain_no_spaces h t g_domain) by done. cbn [orb].
  destruct site_domain as [d|]; [|done]. destruct Hsite as [-> | Hd]; [done|]. by rewrite (subdomain_no_spaces h t d), andb_false_r.
Qed.

Lemma authority_good site_domain r sp :
  plain_site site_domain -> str_forall c0_or_space sp = true -> contains "\" r = false ->
  (match r with String a _ => is_slash a = false | EmptyString => True end) ->
  let netloc := (break_at slashes_or_query (r +:+ sp)).1 in
  xorb (contains "[" netloc) (contains "]" netloc) = false -> contains "@" netloc = false ->
  reddit_hostname site_domain (hostname_of netloc) = true -> good_destination site_domain (authority r).
Proof.
  intros Hsite Hsp Hb Hfirst netloc Hbr Hat Hr. pose proof (authority_host r sp Hsp Hb Hfirst Hbr Hat) as Ha. fold netloc in Ha.
  destruct (authority r) as [|h|h| |sch]; simpl; try done.
  - destruct Ha as (Hne & t & Ht & E). rewrite E in Hr. split; [done|].
    assert (t = "") as -> by (eapply reddit_no_spaces; [exact Hsite|apply string_app_nonempty; exact Hne|exact Ht|exact Hr]). by rewrite string_app_nil_r in Hr.
  - by rewrite Ha in Hr.
Qed.

Lemma split_netloc_spec sch w r : split_netloc sch w = Ok r -> sp_scheme r = sch /\
  ((exists x, w = String "/" (String "/" x) /\ sp_netloc r = (break_at slashes_or_query x).1 /\
      xorb (contains "[" (sp_netloc r)) (contains "]" (sp_netloc r)) = false) \/
   sp_netloc r = "" /\ py_startswith "//" w = false).
Proof.
  assert (Hrest : forall n v, sp_scheme (split_rest sch n v) = sch /\ sp_netloc (split_rest sch n v) = n).
  { intros n v. unfold split_rest. destruct (partition "#" v) as [[a b] c]. by destruct (partition "?" a) as [[d e] f]. }
  unfold split_netloc. destruct w as [|a [|b x]]; [intros [= <-]|intros [= <-]|].
  - split; [apply Hrest|right; split; [apply Hrest|done]].
  - split; [apply Hrest|right; split; [apply Hrest|]]. unfold py_startswith. cbn [String.prefix]. by destruct (ascii_dec "/" a).
  - destruct (Ascii.eqb_spec a "/") as [-> |]; destruct (Ascii.eqb_spec b "/") as [-> |]; cbn [andb].
    + fold slashes_or_query. destruct (break_at slashes_or_query x) as [n v] eqn:E. destruct (xorb _ _) eqn:Ex; [done|]. intros [= <-].
      destruct (Hrest n v) as [-> ->]. split; [done|left]. exists x. by rewrite E.
    + intros [= <-]. split; [apply Hrest|right; split; [apply Hrest|]]. unfold py_startswith. cbn [String.prefix]. by destruct (ascii_dec "/" b).
    + intros [= <-]. split; [apply Hrest|right; split; [apply Hrest|]]. unfold py_startswith. cbn [String.prefix]. by destruct (ascii_dec "/" a).
    + intros [= <-]. split; [apply Hrest|right; split; [apply Hrest|]]. unfold py_startswith. cbn [String.prefix]. by destruct (ascii_dec "/" a).
Qed.

(** Spaces at the end are behind two slashes at the start. *)
Lemma slashes_prefix s sp x : s +:+ sp = String "/" (String "/" x) -> str_forall c0_or_space sp = true ->
  exists r, s = String "/" (String "/" r) /\ x = r +:+ sp.
Proof.
  intros E Hsp. destruct s as [|a [|b r]].
  - change ("" +:+ sp) with sp in E. by rewrite E in Hsp.
  - injection E as -> E. change ("" +:+ sp) with sp in E. by rewrite E in Hsp.
  - injection E as -> -> <-. by exists r.
Qed.

(** A link of which the text after the first colon is all digits. *)
Definition digits_only (url : string) : bool :=
  let '(pre, found, rest) := partition ":" url in
  found && negb (String.eqb pre "http") && str_forall scheme_char pre && negb (String.eqb rest "") && str_forall is_digit rest.

Definition starts_plain (url : string) : bool := match url with String a _ => negb (c0_or_space a) | EmptyString => true end.

Definition safe_char (a : ascii) : bool := (25 <? nat_of_ascii a)%nat && negb (Ascii.eqb a "\").

(** What the check gives of the text. *)
Lemma web_safe_text u : web_safe_once u = true ->
  str_forall safe_char (_orig_url u) = true /\ py_startswith "///" (_orig_url u) = false /\ contains "@" (_orig_netloc u) = false /\
  (scheme u <> "" -> no_hostname u = false /\ py_lower (scheme u) ∈ valid_schemes).
Proof.
  unfold web_safe_once. rewrite !andb_true_iff, !negb_true_iff, orb_false_iff. intros (((((H1 & _) & H3) & H4) & H5) & _ & H6).
  split; [by apply (problematic_false 0)|split; [done|split; [done|]]]. intros Hs. apply String.eqb_neq in Hs. rewrite Hs in H3, H5.
  split; [done|]. by apply bool_decide_eq_true in H5.
Qed.

(** [unparse] changes nothing of it. *)
Lemma unparse_text u : let v := (_unparse u).1 in
  _orig_url v = _orig_url u /\ _orig_netloc v = _orig_netloc u /\ (scheme u <> "" -> scheme v = scheme u) /\
  (no_hostname v = false -> no_hostname u = false).
Proof.
  cbv zeta. unfold _unparse. cbv zeta. cbn [fst].
  set (w := match port u with Some (Z.pos _) => _ | _ => u end).
  assert (Hw : _orig_url w = _orig_url u /\ _orig_netloc w = _orig_netloc u /\ scheme w = scheme u /\ (no_hostname w = false -> no_hostname u = false)).
  { unfold w. destruct (port u) as [[]|]; try done. destruct (hostname u) as [h|] eqn:Eh; [|done].
    destruct (contains ":" h) eqn:E; [|done]. repeat split. intros _. unfold no_hostname. rewrite Eh. by destruct h. }
  clearbody w. destruct Hw as (H1 & H2 & Hs & Hn). destruct (negb (String.eqb (netloc w) "") && String.eqb (scheme w) "") eqn:E; [|by rewrite Hs].
  apply andb_true_iff in E as [_ E%String.eqb_eq]. repeat split; [exact H1|exact H2|congruence|exact Hn].
Qed.

(** Two slashes lead to the host that was checked. *)
Lemma slashes_good site_domain s sp x :
  plain_site site_domain -> str_forall c0_or_space sp = true -> str_forall safe_char s = true ->
  s +:+ sp = String "/" (String "/" x) -> py_startswith "/" x = false ->
  let netloc := (break_at slashes_or_query x).1 in
  xorb (contains "[" netloc) (contains "]" netloc) = false -> contains "@" netloc = false ->
  reddit_hostname site_domain (hostname_of netloc) = true ->
  good_destination site_domain (relative_state s) /\ good_destination site_domain (authority s).
Proof.
  intros Hsite Hsp Hsafe E Hx netloc Hbr Hat Hr. destruct (slashes_prefix s sp x E Hsp) as (r & -> & ->).
  change (relative_state (String "/" (String "/" r))) with (authority r). change (authority (String "/" (String "/" r))) with (authority r).
  assert (Hg : good_destination site_domain (authority r)); [|done]. eapply (authority_good site_domain r sp); try done.
  - apply (contains_forall _ safe_char); [|done]. exact Hsafe.
  - destruct r as [|a r]; [done|]. simpl in Hsafe. apply andb_true_iff in Hsafe as [Ha _]. unfold safe_char in Ha.
    apply andb_true_iff in Ha as [_ Ha]. apply negb_true_iff in Ha. unfold is_slash. rewrite Ha, orb_false_r.
    unfold py_startswith in Hx. rewrite string_app_cons in Hx. cbn [String.prefix] in Hx.
    destruct (ascii_dec "/" a) as [_ | Hne]; [by destruct (r +:+ sp)|]. apply Ascii.eqb_neq. congruence.
Qed.

Lemma py_lower_lower s : py_lower (py_lower s) = py_lower s.
Proof.
  induction s as [|a s IH]; [done|]. simpl. rewrite IH. f_equal. unfold lower_char.
  destruct (Nat.leb_spec 65 (nat_of_ascii a)), (Nat.leb_spec (nat_of_ascii a) 90); cbn [andb];
    rewrite ?(proj2 (Nat.leb_le 65 _)), ?(proj2 (Nat.leb_gt _ 90)), ?(proj2 (Nat.leb_gt 65 _)), ?andb_false_r by lia; try done.
  rewrite nat_ascii_embedding by lia. by rewrite (proj2 (Nat.leb_gt (nat_of_ascii a + 32) 90)), andb_false_r by lia.
Qed.

Lemma lower_valid pre : py_lower pre ∈ valid_schemes -> exists a pre', pre = String a pre' /\ is_alpha a = true.
Proof.
  assert (Hall : forall v, v ∈ valid_schemes -> exists c v', v = String c v' /\ c ∈ ["h"; "f"; "m"]%char).
  { intros v Hv. unfold valid_schemes in Hv. rewrite !elem_of_cons, elem_of_nil in Hv.
    destruct Hv as [-> | [-> | [-> | [-> | []]]]]; eexists _, _; (split; [reflexivity|rewrite !elem_of_cons; tauto]). }
  intros (c & v' & E & Hc)%Hall. destruct pre as [|a pre]; [discriminate E|]. exists a, pre. split; [done|]. apply lower_char_alpha.
  injection E as -> _. rewrite !elem_of_cons, elem_of_nil in Hc. destruct Hc as [-> | [-> | [-> | []]]]; split; char_bound.
Qed.

(** On a page of the site a browser never leaves it with a link that passes both
    checks, starts with neither a space nor a control character, and does not
    go on with digits alone after its first colon. *)
Lemma link_stays site_domain base url u :
  plain_site site_domain -> parse url = Ok u -> web_safe_once (_unparse u).1 = true -> is_reddit_url site_domain u = true ->
  starts_plain url = true -> digits_only url = false -> good_destination site_domain (browser base url).
Proof.
  intros Hsite Hparse Hsafe Hr Hstart Hdig. unfold parse in Hparse. destruct (urlsplit url) as [r|] eqn:Er; [|done]. cbn [res_bind] in Hparse.
  assert (Hu : _orig_url u = url /\ _orig_netloc u = sp_netloc r /\ scheme u = sp_scheme r /\ hostname u = hostname_of (sp_netloc r))
    by (injection Hparse as <-; done).
  destruct Hu as (U1 & U2 & U3 & U4). clear Hparse. destruct (web_safe_text _ Hsafe) as (S1 & S2 & S3 & S4').
  destruct (unparse_text u) as (V1 & V2 & V3 & V4). rewrite V1, U1 in S1, S2. rewrite V2, U2 in S3.
  assert (S4 : scheme u <> "" -> no_hostname u = false /\ py_lower (scheme u) ∈ valid_schemes)
    by (intros Hs; rewrite (V3 Hs) in S4'; destruct (S4' Hs); auto). clear V1 V2 V3 V4 S4'.
  unfold is_reddit_url in Hr. rewrite U4 in Hr. rewrite U3 in S4. unfold no_hostname in S4. rewrite U4 in S4. clear U1 U2 U3 U4 Hsafe u.
  unfold browser. assert (El : py_lstrip c0_or_space url = url).
  { destruct url as [|a url]; [done|]. simpl in Hstart |- *. apply negb_true_iff in Hstart. by rewrite Hstart. }
  rewrite El. clear El Hstart. destruct (py_rstrip_spec c0_or_space url) as (sp & E & Hsp). set (s := py_rstrip c0_or_space url) in *. clearbody s.
  subst url. assert (Hs : str_forall safe_char s = true) by by eapply str_forall_app_l.
  rewrite str_filter_id.
  2:{ eapply str_forall_impl; [|exact Hs]. intros a [Ha _]%andb_true_iff. apply Nat.ltb_lt in Ha. cbn [contains].
      assert (Hlow : forall c, (nat_of_ascii c <= 25)%nat -> Ascii.eqb c a = false) by (intros c Hc; apply Ascii.eqb_neq; intros ->; lia).
      by rewrite !Hlow by char_bound. }
  assert (Hcol : contains ":" sp = false) by (apply c0_contains; [done|char_bound]).
  unfold urlsplit in Er. unfold digits_only in Hdig. rewrite partition_extend in Er, Hdig by done. pose proof (partition_spec ":" s) as Hp.
  destruct (partition ":" s) as [[pre found] rest]. cbn [fst snd] in Er, Hdig.
  (* Without a scheme. *)
  assert (Hplain : split_netloc "" (s +:+ sp) = Ok r -> good_destination site_domain (relative_state s)).
  { intros Hr'. destruct (split_netloc_spec _ _ _ Hr') as [_ [(x & Ex & En & Hbr) | [En Hx]]].
    - rewrite En in *. eapply (slashes_good site_domain s sp x); try done. rewrite Ex in S2. unfold py_startswith in S2 |- *.
      cbn [String.prefix] in S2. destruct (ascii_dec "/" "/"); [done|done].
    - assert (Hrel : relative_state s = Relative); [|by rewrite Hrel]. unfold relative_state. destruct s as [|a [|b s]]; [done..|].
      unfold is_slash. simpl in Hs. rewrite !andb_true_iff in Hs. destruct Hs as (Ha & Hb & _). unfold safe_char in Ha, Hb.
      apply andb_true_iff in Ha as [_ Ha], Hb as [_ Hb]. apply negb_true_iff in Ha, Hb. rewrite Ha, Hb, !orb_false_r.
      unfold py_startswith in Hx. rewrite !string_app_cons in Hx. cbn [String.prefix] in Hx.
      destruct (Ascii.eqb_spec a "/") as [-> |]; [|done]. destruct (Ascii.eqb_spec b "/") as [-> |]; [|done]. exfalso.
      destruct (ascii_dec "/" "/"); [by destruct (s +:+ sp)|done]. }
  destruct found; cbn [negb orb andb] in Er, Hdig |- *; [|by apply Hplain].
  destruct (String.eqb_spec pre "") as [-> | Hne]; [by apply Hplain|].
  (* With one. *)
  assert (Hscheme : forall sch, sch <> "" -> split_netloc sch (rest +:+ sp) = Ok r -> str_forall safe_char rest = true ->
    py_lower sch ∈ valid_schemes /\ good_destination site_domain (relative_state rest) /\ good_destination site_domain (authority rest)).
  { intros sch Hsch Hr' Hsr. destruct (split_netloc_spec _ _ _ Hr') as [Esch Hcase]. rewrite Esch in S4. destruct (S4 Hsch) as [Hh Hv]. split; [done|].
    destruct Hcase as [(x & Ex & En & Hbr) | [En Hx]]; [|by rewrite En in Hh].
    rewrite En in *. eapply (slashes_good site_domain rest sp x); try done.
    destruct x as [|a x]; [done|]. destruct (Ascii.eqb_spec a "/") as [-> | Ha]; [done|]. unfold py_startswith. cbn [String.prefix].
    by destruct (ascii_dec "/" a). }
  destruct Hp as [Es _]. assert (Hsr : str_forall safe_char rest = true).
  { rewrite Es, str_forall_app in Hs. apply andb_true_iff in Hs as [_ Hs]. simpl in Hs. exact Hs. }
  destruct (String.eqb_spec pre "http") as [-> | Hhttp].
  { destruct (Hscheme "http" ltac:(done) Er Hsr) as (_ & H1 & H2). cbn [str_forall]. change (is_alpha "h") with true.
    change (scheme_char "h" && (scheme_char "t" && (scheme_char "t" && (scheme_char "p" && true)))) with true. cbn [andb].
    rewrite bool_decide_true by (by left). by destruct (String.eqb _ base). }
  destruct (str_forall scheme_char pre) eqn:Esc; [|rewrite andb_false_r; by apply Hplain]. rewrite andb_true_r. cbn [andb] in Er, Hdig.
  destruct (String.eqb (rest +:+ sp) "" || negb (str_forall is_digit (rest +:+ sp))) eqn:Ed.
  - assert (Hl : py_lower pre <> "") by by destruct pre. destruct (Hscheme (py_lower pre) Hl Er Hsr) as (Hv & H1 & H2). rewrite py_lower_lower in Hv.
    destruct (lower_valid pre Hv) as (a & pre' & -> & ->). destruct (bool_decide (py_lower (String a pre') ∈ special)); [|exact Hv].
    by destruct (String.eqb _ base).
  - apply orb_false_iff in Ed as [E1 E2]. rewrite E1 in Hdig. apply negb_false_iff in E2. by rewrite E2 in Hdig.
Qed.

Lemma lower_char_same a : c0_or_space (lower_char a) = c0_or_space a /\ Ascii.eqb (lower_char a) ":" = Ascii.eqb a ":" /\
  is_digit (lower_char a) = is_digit a /\ Ascii.eqb (lower_char a) "/" = Ascii.eqb a "/".
Proof. destruct a as [[] [] [] [] [] [] [] []]; repeat split; reflexivity. Qed.

Lemma startswith_cons a p b s : py_startswith (String a p) (String b s) = true -> a = b /\ py_startswith p s = true.
Proof. unfold py_startswith. cbn [String.prefix]. destruct (ascii_dec a b) as [-> |]; [done|done]. Qed.

(** Paths and links with a scheme and a host are plain texts. *)
Lemma lower_prefix_plain p url : py_startswith p (py_lower url) = true ->
  p = "/" \/ (exists w, p = w +:+ "://" /\ starts_plain w = true /\ contains ":" w = false /\ w <> "") ->
  starts_plain url = true /\ digits_only url = false.
Proof.
  intros Hp [-> | (w & -> & Hw & Hc & Hne)].
  - destruct url as [|a url]; [discriminate Hp|]. cbn [py_lower] in Hp. apply startswith_cons in Hp as [Ha _].
    destruct (lower_char_same a) as (H1 & _ & _ & H4). rewrite <- Ha in H1, H4. symmetry in H4. apply Ascii.eqb_eq in H4 as ->.
    split; [done|]. unfold digits_only. cbn [partition]. by destruct (partition ":" url) as [[pre []] rest].
  - split.
    + destruct w as [|c w]; [done|]. destruct url as [|a url]; [discriminate Hp|]. rewrite string_app_cons in Hp. cbn [py_lower] in Hp.
      apply startswith_cons in Hp as [-> _]. cbn [starts_plain] in Hw |- *. by destruct (lower_char_same a) as (<- & _).
    + unfold digits_only. assert (Hpart : exists pre rest, partition ":" url = (pre, true, String "/" rest)); [|destruct Hpart as (pre & rest & ->)].
      { clear Hw Hne. revert url Hp. induction w as [|c w IH]; intros [|a url] Hp; [discriminate Hp| |discriminate Hp|].
        - change ("" +:+ "://") with "://" in Hp. cbn [py_lower] in Hp. apply startswith_cons in Hp as [Ha Hp].
          destruct url as [|b url]; [discriminate Hp|]. cbn [py_lower] in Hp. apply startswith_cons in Hp as [Hb _].
          destruct (lower_char_same a) as (_ & H2 & _), (lower_char_same b) as (_ & _ & _ & H4). rewrite <- Ha in H2. rewrite <- Hb in H4.
          symmetry in H2, H4. apply Ascii.eqb_eq in H2 as ->, H4 as ->. by exists "", url.
        - rewrite string_app_cons in Hp. cbn [py_lower contains] in Hp, Hc. apply startswith_cons in Hp as [Ha Hp].
          apply orb_false_iff in Hc as [Hc1 Hc2]. destruct (IH Hc2 url Hp) as (pre & rest & E). exists (String a pre), rest.
          cbn [partition]. destruct (lower_char_same a) as (_ & H2 & _). rewrite <- Ha in H2. rewrite <- H2, Hc1, E. done. }
      cbn [str_forall]. by rewrite !andb_false_r.
Qed.

(** C31. Where [VDestination] sends a browser is a page of the site, or of the
    domain of its sub, whatever the text that was asked for. *)
Theorem v_destination_safe site_domain base default dest url :
  plain_site site_domain -> v_destination site_domain default dest = Ok url -> good_destination site_domain (browser base url).
Proof.
  intros Hsite. unfold v_destination. set (d := if String.eqb dest "" then default else dest). clearbody d.
  assert (Hfront : good_destination site_domain (browser base "/")) by done.
  destruct (py_startswith "/" (py_lower d) || py_startswith "http://" (py_lower d) || py_startswith "https://" (py_lower d)) eqn:Ep;
    [|by intros [= <-]].
  destruct (parse d) as [u|] eqn:Eu; [|done]. cbn [res_bind]. destruct (is_reddit_url site_domain u) eqn:Er; [|by intros [= <-]].
  unfold is_web_safe_url. destruct (parse (unparse u)) as [v|]; [|done]. cbn [res_bind].
  destruct (web_safe_once (_unparse u).1) eqn:Es; cbn [andb]; [|by intros [= <-]].
  destruct (web_safe_once v); intros [= <-]; [|done].
  assert (Hp : starts_plain d = true /\ digits_only d = false)
    by (apply orb_true_iff in Ep as [[Ep | Ep]%orb_true_iff | Ep]; (eapply lower_prefix_plain; [exact Ep|]);
        [by left|right; by exists "http"|right; by exists "https"]).
  destruct Hp. by eapply link_stays.
Qed.

(** ** Query parameters *)

(** Unicode without halves of UTF-16, which [encode] joins. *)
Fixpoint surrogate (s : string) : bool :=
  match s with
  | String a (String b _ as s') => ((nat_of_ascii a =? 237)%nat && (160 <=? nat_of_ascii b)%nat) || surrogate s'
  | _ => false
  end.

Definition unicode_text (s : string) : bool := valid_utf8 s && negb (surrogate s).

(** What the text of a parameter is made with. *)
Class EscapeLaws : Prop := {
  escape_back s : unicode_text s = true -> unquote_plus (url_escape s) = s;
  escape_plain s : str_forall (fun a => negb (contains a "&=?#")) (url_escape s) = true
}.

Context `{!EscapeLaws}.

Lemma od_set_fresh l acc : NoDup ((acc ++ l).*1) -> foldl od_set acc l = acc ++ l.
Proof.
  revert acc. induction l as [|kv l IH]; intros acc Hnd; [by rewrite app_nil_r|]. cbn [foldl].
  assert (Hex : existsb (fun p => String.eqb p.1 kv.1) acc = false).
  { apply not_true_iff_false. intros (x & Hx & E%String.eqb_eq)%existsb_exists. rewrite fmap_app in Hnd. apply NoDup_app in Hnd as (_ & Hd & _).
    apply (Hd x.1); [apply list_elem_of_fmap; exists x; split; [done|by apply list_elem_of_In]|]. rewrite E. by left. }
  assert (E : od_set acc kv = acc ++ [kv]) by (unfold od_set; by rewrite Hex). rewrite E, IH; by rewrite <- app_assoc.
Qed.

Lemma escape_no c s : contains c "&=?#" = true -> contains c (url_escape s) = false.
Proof. intros Hc. eapply str_forall_contains; [apply escape_plain|]. cbn beta. by rewrite Hc. Qed.

Lemma escaped_text s : unicode_text s = true -> unquote_plus (url_escape (_force_unicode s)) = s.
Proof. intros Hs. pose proof Hs as [Hu _]%andb_true_iff. unfold _force_unicode. rewrite Hu. by apply escape_back. Qed.

Definition unicode_params (d : odict) : Prop := Forall (fun kv => unicode_text kv.1 = true /\ unicode_text kv.2 = true) d.

(** Parameters that were written are read back. *)
Lemma query_string_back d : NoDup (d.*1) -> unicode_params d ->
  let q := py_lstrip (fun a => Ascii.eqb a "?") (query_string d) in
  contains "#" q = false /\ foldl od_set [] (split_param <$> List.filter (fun p => negb (String.eqb p "")) (py_split "&" q)) = d.
Proof.
  intros Hnd Hut. unfold query_string. set (pairs := _ <$> d).
  assert (Hpairs : split_param <$> pairs = d /\ Forall (fun p => contains "&" p = false /\ contains "#" p = false /\ contains "?" p = false /\ p <> "") pairs).
  { subst pairs. clear Hnd. induction Hut as [|[k v] d [Hk Hv] _ [IH1 IH2]]; [done|]. cbn [fmap list_fmap fst snd] in *. split.
    - rewrite IH1. f_equal. unfold split_param. rewrite string_app_cons. change ("" +:+ ?x) with x.
      rewrite partition_app by by apply escape_no. by rewrite !escaped_text.
    - constructor; [|done]. rewrite !contains_app, !escape_no by done. repeat split; try done. by destruct (url_escape _). }
  destruct Hpairs as [Hp Hall]. clearbody pairs.
  assert (Hq : py_lstrip (fun a => Ascii.eqb a "?") (match pairs with [] => "" | _ => "?" +:+ py_join "&" pairs end) = py_join "&" pairs).
  { destruct pairs as [|p pairs]; [done|]. rewrite string_app_cons. cbn [py_lstrip Ascii.eqb]. change (Ascii.eqb "?" "?") with true. cbn iota.
    change ("" +:+ py_join "&" (p :: pairs)) with (py_join "&" (p :: pairs)). inversion_clear Hall as [|? ? (_ & _ & Hq & Hne) _].
    assert (Hfirst : exists a t, py_join "&" (p :: pairs) = String a t /\ Ascii.eqb a "?" = false).
    { destruct p as [|a p]; [done|]. cbn [contains] in Hq. apply orb_false_iff in Hq as [Hq _]. rewrite Ascii.eqb_sym in Hq.
      destruct pairs; [by exists a, p|]. rewrite py_join_cons, string_app_cons. by eexists _, _. }
    destruct Hfirst as (a & t & -> & Ha). simpl. by rewrite Ha. }
  assert (E : py_lstrip (fun a => Ascii.eqb a "?") match pairs with [] => "" | p :: l => "?" +:+ py_join "&" (p :: l) end = py_join "&" pairs)
    by (rewrite <- Hq; by destruct pairs).
  destruct pairs as [|p pairs].
  - rewrite <- Hp. split; reflexivity.
  - cbv zeta. rewrite E. split.
    + apply py_join_contains; [done|]. eapply Forall_impl; [exact Hall|]. naive_solver.
    + rewrite py_split_join; [|done|eapply Forall_impl; [exact Hall|]; naive_solver].
      assert (Hf : List.filter (fun p => negb (String.eqb p "")) (p :: pairs) = p :: pairs).
      { revert Hall. generalize (p :: pairs). intros l Hl. induction Hl as [|x l (_ & _ & _ & Hne) Hl IH]; [done|]. simpl.
        apply String.eqb_neq in Hne. by rewrite Hne, IH. }
      rewrite Hf, Hp. by apply (od_set_fresh d []).
Qed.

(** ** From the object to text and back *)

(** The absolute links of the site: what a host may hold, a path from the root,
    and no parameters of its last part. *)
Definition host_char (a : ascii) : bool := negb (contains a "/?#@:[]") && Ascii.eqb (lower_char a) a.

Record web_url (h : string) (u : url_parser) : Prop := {
  wu_scheme : scheme u = "http" \/ scheme u = "https";
  wu_hostname : hostname u = Some h /\ h <> "" /\ str_forall host_char h = true;
  wu_port : match port u with Some p => 0 < p <= 65535 | None => True end;
  wu_path : (path u = "" \/ exists t, path u = String "/" t) /\ str_forall (fun a => negb (contains a "?#;")) (path u) = true /\
    replace_slashes (path u) = path u;
  wu_params : params u = "";
  wu_query : NoDup ((query_dict u).*1) /\ unicode_params (query_dict u)
}.

Lemma host_char_no c h : str_forall host_char h = true -> contains c "/?#@:[]" = true -> contains c h = false.
Proof. intros Hh Hc. eapply str_forall_contains; [exact Hh|]. unfold host_char. by rewrite Hc. Qed.

Lemma host_char_lower h : str_forall host_char h = true -> py_lower h = h.
Proof.
  induction h as [|a h IH]; [done|]. simpl. unfold host_char at 1. intros [[_ Ha%Ascii.eqb_eq]%andb_true_iff Hh]%andb_true_iff. by rewrite Ha, IH.
Qed.

Lemma digits_no s c : str_forall is_digit s = true -> is_digit c = false -> contains c s = false.
Proof. apply str_forall_contains. Qed.

Lemma strip_digits s : str_forall is_digit s = true -> py_lstrip is_space s = s /\ py_rstrip is_space s = s.
Proof.
  intros Hs. split.
  - destruct s as [|a s]; [done|]. cbn [str_forall py_lstrip] in Hs |- *. apply andb_true_iff in Hs as [Ha _].
    by destruct (digit_not_space a Ha) as [-> _].
  - induction s as [|a s IH]; [done|]. cbn [str_forall py_rstrip] in Hs |- *. apply andb_true_iff in Hs as [Ha Hs].
    rewrite IH by done. destruct s; [|done]. by destruct (digit_not_space a Ha) as [-> _].
Qed.

Lemma py_int_port p : 0 <= p -> py_int (py_str_int p) = Some p.
Proof.
  intros Hp. destruct (digits_str_int p Hp) as [Hd Hne]. pose proof (Prelude.py_int_str_int p) as Hi. unfold py_int.
  destruct (strip_digits _ Hd) as [-> ->]. destruct (py_str_int p) as [|a s]; [done|]. pose proof Hd as Hd'. cbn [str_forall] in Hd'.
  apply andb_true_iff in Hd' as [Ha _]. destruct (digit_not_space a Ha) as (_ & -> & ->). by rewrite Hd.
Qed.

Lemma rpartition_parts c s p b r : rpartition c s = (p, b, r) -> s = if b then p +:+ String c r else r.
Proof.
  revert p b r. induction s as [|a s IH]; intros p b r; cbn [rpartition]; [by intros [= <- <- <-]|].
  destruct (rpartition c s) as [[p' []] r']; cbn [fst snd].
  - intros [= <- <- <-]. rewrite string_app_cons. f_equal. by apply (IH p' true).
  - destruct (Ascii.eqb_spec a c) as [-> |]; by intros [= <- <- <-].
Qed.

(** The netloc that is written, read again. *)
Lemma netloc_back h u : web_url h u ->
  netloc u <> "" /\ str_forall (fun a => negb (contains a "/?#@[]")) (netloc u) = true /\ hostname_of (netloc u) = hostname u /\ port_of (netloc u) = port u.
Proof.
  intros [_ (Eh & Hne & Hh) Hp _ _ _]. unfold netloc. rewrite Eh. destruct (String.eqb_spec h "") as [|_]; [done|].
  assert (Hh' : str_forall (fun a => negb (contains a "/?#@[]")) h = true).
  { eapply str_forall_impl; [|exact Hh]. intros a [Ha _]%andb_true_iff. apply negb_true_iff in Ha. apply negb_true_iff. cbn [contains] in Ha |- *.
    rewrite ?orb_false_iff in Ha. rewrite ?orb_false_iff. tauto. }
  destruct (port u) as [[|p|p]|]; [lia| |lia|].
  - destruct (digits_str_int (Z.pos p) ltac:(lia)) as [Hd Hdne]. set (n := py_str_int (Z.pos p)) in *.
    assert (Hn : str_forall (fun a => negb (contains a "/?#@[]")) (h +:+ ":" +:+ n) = true).
    { rewrite !str_forall_app, Hh'. cbn [str_forall andb]. change (negb (contains ":" "/?#@[]")) with true. cbn [andb].
      eapply str_forall_impl; [|exact Hd]. intros a Ha. apply negb_true_iff. cbn [contains].
      assert (Hne' : forall c, is_digit c = false -> Ascii.eqb c a = false) by (intros c Hc; apply Ascii.eqb_neq; congruence).
      by rewrite !Hne' by done. }
    assert (Hno : forall c, contains c "/?#@[]" = true -> contains c (h +:+ ":" +:+ n) = false).
    { intros c Hc. eapply str_forall_contains; [exact Hn|]. cbn beta. by rewrite Hc. }
    split; [by apply string_app_nonempty|]. split; [done|]. unfold hostname_of, port_of. rewrite after_at_none by by apply Hno.
    rewrite !Hno by done. cbn [andb]. rewrite !contains_app. change (contains ":" ":") with true. rewrite orb_true_l, orb_true_r.
    change (h +:+ ":" +:+ n) with (h +:+ String ":" n) in *. rewrite partition_app by by apply (host_char_no _ h).
    rewrite host_char_lower by done. split; [done|]. rewrite (py_split_none "]") by by apply Hno. cbn [List.last].
    rewrite py_split_app by by apply (host_char_no _ h). rewrite (py_split_none ":" n) by by apply digits_no.
    unfold n. rewrite py_int_port by lia. by rewrite (proj2 (Z.leb_le 0 _)), (proj2 (Z.leb_le _ 65535)) by lia.
  - split; [done|]. split; [done|]. assert (Hno := fun c => host_char_no c h Hh). unfold hostname_of, port_of. rewrite after_at_none by by apply Hno.
    rewrite !Hno by done. cbn [andb]. rewrite (py_split_none "]") by by apply Hno. cbn [List.last]. rewrite (py_split_none ":") by by apply Hno.
    split; [|done]. destruct (String.eqb_spec h ""); [done|]. by rewrite host_char_lower.
Qed.

(** What [unparse] writes after the netloc. *)
Definition url_tail (u : url_parser) (q : string) : string :=
  path u +:+ (if String.eqb q "" then "" else "?" +:+ q) +:+ (if String.eqb (fragment u) "" then "" else "#" +:+ fragment u).

Definition written_query (u : url_parser) : string := py_lstrip (fun a => Ascii.eqb a "?") (query_string (query_dict u)).

Lemma unparse_web h u : web_url h u -> unparse u = scheme u +:+ ":" +:+ "//" +:+ netloc u +:+ url_tail u (written_query u).
Proof.
  intros Hu. destruct (netloc_back h u Hu) as (N1 & _). destruct Hu as [Hs (Eh & _ & Hh) _ (Hp1 & Hp2 & Hp3) Hpa _].
  set (q := written_query u).
  assert (Eu : _unparse u = (u, (scheme u, netloc u, path u, "", q, fragment u))).
  { unfold _unparse. fold (written_query u) q. cbv zeta. assert (Hc : contains ":" h = false) by by apply (host_char_no _ h).
    assert (Ew : (match port u, hostname u with
      | Some (Z.pos _), Some h => if contains ":" h then with_hostname (let '(h, _, _) := partition ":" h in h) u else u
      | _, _ => u end) = u) by (rewrite Eh, Hc; by destruct (port u) as [[]|]).
    rewrite Ew. assert (Es : String.eqb (scheme u) "" = false) by (destruct Hs as [-> | ->]; done).
    rewrite Es, andb_false_r. by rewrite Hp3, Hpa. }
  unfold unparse. rewrite Eu. cbn [snd]. unfold urlunparse, urlunsplit. cbn [String.eqb]. change (String.eqb "" "") with true. cbn iota.
  apply String.eqb_neq in N1. rewrite N1. cbn [negb orb].
  assert (Ep : (if negb (String.eqb (path u) "") && negb (py_startswith "/" (path u)) then "/" +:+ path u else path u) = path u)
    by (destruct Hp1 as [-> | [t ->]]; [done|unfold py_startswith; cbn [String.prefix]; by destruct t]).
  rewrite Ep. replace (String.eqb (scheme u) "") with false by (destruct Hs as [-> | ->]; done).
  unfold url_tail. destruct (String.eqb q ""), (String.eqb (fragment u) ""); by rewrite <- ?string_app_assoc, ?string_app_nil_r.
Qed.

Lemma break_netloc u q n : (path u = "" \/ exists t, path u = String "/" t) -> str_forall (fun a => negb (contains a "/?#@[]")) n = true ->
  break_at (fun a => contains a "/?#") (n +:+ url_tail u q) = (n, url_tail u q).
Proof.
  intros Hp1 N2. set (tail := url_tail u q).
  assert (Htail : match tail with String a _ => contains a "/?#" = true | EmptyString => True end).
  { unfold tail, url_tail. destruct Hp1 as [-> | [t ->]]; [|done]. by destruct (String.eqb q ""), (String.eqb (fragment u) ""). }
  clearbody tail. revert N2. induction n as [|a n IH]; cbn [str_forall]; rewrite ?string_app_cons.
  - intros _. change ("" +:+ tail) with tail. destruct tail as [|a t]; [done|]. cbn [break_at]. by rewrite Htail.
  - intros [Ha Hn]%andb_true_iff. cbn [break_at]. rewrite IH by done. apply negb_true_iff in Ha.
    assert (Ha' : contains a "/?#" = false); [|by rewrite Ha']. cbn [contains] in Ha |- *. rewrite ?orb_false_iff in Ha. rewrite ?orb_false_iff. tauto.
Qed.

Lemma split_tail u q sch n : (forall c, contains c "?#;" = true -> contains c (path u) = false) -> contains "#" q = false ->
  split_rest sch n (url_tail u q) = Split sch n (path u) q (fragment u).
Proof.
  intros Hpath Q1.
  unfold split_rest, url_tail. assert (H1 : contains "#" (path u +:+ (if String.eqb q "" then "" else "?" +:+ q)) = false).
  { rewrite contains_app, Hpath by done. destruct (String.eqb q ""); [done|]. rewrite contains_app. by rewrite Q1. }
  rewrite string_app_assoc. assert (H2 : partition "#" ((path u +:+ (if String.eqb q "" then "" else "?" +:+ q)) +:+
      (if String.eqb (fragment u) "" then "" else "#" +:+ fragment u)) =
    (path u +:+ (if String.eqb q "" then "" else "?" +:+ q), negb (String.eqb (fragment u) ""), fragment u)).
  { destruct (String.eqb_spec (fragment u) "") as [-> |]; cbn [negb].
    - rewrite string_app_nil_r. by apply partition_none.
    - change ("#" +:+ fragment u) with (String "#" (fragment u)). by apply partition_app. }
  rewrite H2. destruct (String.eqb_spec q "") as [-> |].
  - rewrite string_app_nil_r, partition_none by by apply Hpath. done.
  - change ("?" +:+ q) with (String "?" q). rewrite partition_app by by apply Hpath. done.
Qed.

(** C37. What [unparse] writes of a link by http or https is parsed to the same
    scheme, host, port, path, parameters in their order, and fragment: for
    plain lower-case hosts, paths without double slashes and path parameters,
    and query parameters of different names in UTF-8. *)
Theorem unparse_parse h u : web_url h u ->
  exists v, parse (unparse u) = Ok v /\ scheme v = scheme u /\ hostname v = hostname u /\ port v = port u /\ path v = path u /\
    params v = params u /\ query_dict v = query_dict u /\ fragment v = fragment u /\ username v = None /\ password v = None.
Proof.
  intros Hu. destruct (netloc_back h u Hu) as (N1 & N2 & N3 & N4). pose proof Hu as [Hs (Eh & _ & Hh) _ (Hp1 & Hp2 & Hp3) Hpa Hq].
  destruct (query_string_back _ (proj1 Hq) (proj2 Hq)) as [Q1 Q2]. fold (written_query u) in Q1, Q2. set (q := written_query u) in *.
  assert (Hpath : forall c, contains c "?#;" = true -> contains c (path u) = false).
  { intros c Hc. eapply str_forall_contains; [exact Hp2|]. cbn beta. by rewrite Hc. }
  pose proof (unparse_web h u Hu) as E. fold q in E. pose proof (fun sch n => split_tail u q sch n Hpath Q1) as Hr.
  pose proof (break_netloc u q (netloc u) Hp1 N2) as Hb. set (tail := url_tail u q) in *.
  assert (Hsp : urlsplit (unparse u) = Ok (Split (scheme u) (netloc u) (path u) q (fragment u))).
  { unfold urlsplit. rewrite E. change (":" +:+ "//" +:+ netloc u +:+ tail) with (String ":" (String "/" (String "/" (netloc u +:+ tail)))).
    rewrite partition_app by by destruct Hs as [-> | ->]. cbn [negb orb].
    assert (En : forall sch, split_netloc sch (String "/" (String "/" (netloc u +:+ tail))) = Ok (split_rest sch (netloc u) tail)).
    { intros sch. unfold split_netloc. change (Ascii.eqb "/" "/" && Ascii.eqb "/" "/") with true. cbn iota. rewrite Hb.
      assert (Hno : forall c, contains c "/?#@[]" = true -> contains c (netloc u) = false)
        by (intros c Hc; eapply str_forall_contains; [exact N2|]; cbn beta; by rewrite Hc).
      by rewrite !Hno. }
    destruct Hs as [Es | Es]; rewrite Es.
    - change (String.eqb "http" "") with false. change (String.eqb "http" "http") with true. cbn iota. by rewrite En, Hr.
    - change (String.eqb "https" "") with false. change (String.eqb "https" "http") with false. change (str_forall scheme_char "https") with true.
      change (py_lower "https") with "https". cbn [orb andb str_forall String.eqb negb]. change (is_digit "/") with false. cbn [andb negb orb].
      by rewrite En, Hr. }
  unfold parse. rewrite Hsp. cbn [res_bind sp_scheme sp_netloc sp_path sp_query sp_fragment]. eexists. split; [reflexivity|].
  assert (Hprm : (if bool_decide (scheme u ∈ uses_params) then splitparams (path u) else (path u, "")) = (path u, "")).
  { destruct (bool_decide _); [|done]. unfold splitparams. destruct (rpartition "/" (path u)) as [[dirs sl] name] eqn:Er.
    rewrite partition_none; [done|]. assert (Hn := Hpath ";"%char eq_refl). rewrite (rpartition_parts _ _ _ _ _ Er) in Hn.
    destruct sl; [|done]. rewrite contains_app in Hn. by apply orb_false_iff in Hn as [_ Hn]. }
  assert (Hui : userinfo (netloc u) = None).
  { unfold userinfo. rewrite rpartition_none; [done|]. eapply str_forall_contains; [exact N2|done]. }
  rewrite Hprm, Hpa. unfold username_of, password_of. rewrite Hui. repeat split; try done.
Qed.
End site.
End UrlProps.
