(* ===== verification/UrlExamples.v ===== *)
(** * URLs: a site, with the links that come out as they should and those that do not *)

From S2P Require Import Prelude PyString Url UrlProps.
From Stdlib Require Import Ascii.

Module UrlExamples.
Import PyString Url UrlProps.

(** ** [quote_plus] *)

Definition hex_digit (n : nat) : ascii := ascii_of_nat (if (n <? 10)%nat then 48 + n else 55 + n).

Definition is_alnum (a : ascii) : bool := is_digit a || is_alpha a || contains a "_.-".

Fixpoint quote_plus (s : string) : string :=
  match s with
  | EmptyString => EmptyString
  | String a s =>
      if Ascii.eqb a " " then String "+" (quote_plus s)
      else if is_alnum a then String a (quote_plus s)
      else String "%" (String (hex_digit (nat_of_ascii a / 16)) (String (hex_digit (nat_of_ascii a mod 16)) (quote_plus s)))
  end.

Lemma unquote_char a s : Ascii.eqb a "%" = false -> unquote (String a s) = String a (unquote s).
Proof. intros Ha. destruct s as [|h [|l s]]; [done..|]. cbn [unquote]. by rewrite Ha. Qed.

Lemma quote_plus_back s : unquote_plus (quote_plus s) = s.
Proof.
  unfold unquote_plus. induction s as [|a s IH]; [done|].
  destruct a as [[] [] [] [] [] [] [] []]; cbn [quote_plus];
    match goal with |- context [Ascii.eqb ?a " "] => let e := eval vm_compute in (Ascii.eqb a " ") in change (Ascii.eqb a " ") with e end; cbn iota;
    try match goal with |- context [is_alnum ?a] => let e := eval vm_compute in (is_alnum a) in change (is_alnum a) with e end; cbn iota;
    first [ change (replace_char "+" " " (String "+" (quote_plus s))) with (String " " (replace_char "+" " " (quote_plus s)));
            rewrite unquote_char by done; by rewrite IH
          | match goal with |- unquote (replace_char _ _ (String ?a (quote_plus s))) = _ =>
              change (replace_char "+" " " (String a (quote_plus s))) with (String a (replace_char "+" " " (quote_plus s))) end;
            rewrite unquote_char by done; by rewrite IH
          | match goal with |- _ = String ?a _ => change (String a (unquote (replace_char "+" " " (quote_plus s))) = String a s) end; by rewrite IH ].
Qed.

Lemma quote_plus_plain s : str_forall (fun a => negb (contains a "&=?#")) (quote_plus s) = true.
Proof. induction s as [|a s IH]; [done|]. destruct a as [[] [] [] [] [] [] [] []]; exact IH. Qed.

Definition toy_site : Site := {|
  url_escape := quote_plus; g_domain := "reddit.com"; g_domain_prefix := "www"; offsite_subdomains := ["blog"];
  extension_subdomains := [("i", "compact"); ("api", "json")]; brander_community_abbr := "s"
|}.

Lemma toy_laws : @EscapeLaws toy_site.
Proof. split; [intros s _; exact (quote_plus_back s)|exact quote_plus_plain]. Qed.

#[local] Existing Instance toy_site.

Lemma toy_plain : plain_domain g_domain.
Proof. by split. Qed.
(** ** Redirects *)

Example kept : v_destination None "/" "https://WWW.reddit.com/s/all?a=b#c" = Ok "https://WWW.reddit.com/s/all?a=b#c".
Proof. vm_compute. reflexivity. Qed.

Example elsewhere :
  (v_destination None "/" <$> ["http://evil.com/"; "//evil.com"; "/\evil.com"; "http://reddit.com@evil.com/"; "http:///evil.com"; "http://blog.reddit.com/"])
  = replicate 6 (Ok "/").
Proof. vm_compute. reflexivity. Qed.

Example bad_brackets : v_destination None "/" "http://[::1/" = Raise ValueError.
Proof. reflexivity. Qed.

Example domain_of_the_sub : v_destination (Some "sub.org") "/" "http://www.sub.org/top" = Ok "http://www.sub.org/top".
Proof. vm_compute. reflexivity. Qed.

Lemma v_destination_safe_witness :
  v_destination None "/" "https://www.reddit.com/s/all?a=b" = Ok "https://www.reddit.com/s/all?a=b" /\
  good_destination None (browser "https" "https://www.reddit.com/s/all?a=b").
Proof.
  assert (E : v_destination None "/" "https://www.reddit.com/s/all?a=b" = Ok "https://www.reddit.com/s/all?a=b") by (vm_compute; reflexivity).
  split; [exact E|]. exact (v_destination_safe toy_plain None "https" "/" "https://www.reddit.com/s/all?a=b" _ I E).
Defined.

(** ** Round trips *)

Definition u0 : url_parser := MkUrl "https" "/s/pics/top" "" "" "new" None None (Some "www.reddit.com") (Some 8080) "" "" (Some [("t", "a b&c"); ("é", "#1")]).

Example written : unparse u0 = "https://www.reddit.com:8080/s/pics/top?t=a+b%26c&%C3%A9=%231#new".
Proof. vm_compute. reflexivity. Qed.

Lemma unparse_parse_witness : web_url "www.reddit.com" u0 /\ exists v, parse (unparse u0) = Ok v /\ scheme v = scheme u0 /\ hostname v = hostname u0 /\
  port v = port u0 /\ path v = path u0 /\ params v = params u0 /\ query_dict v = query_dict u0 /\ fragment v = fragment u0 /\ username v = None /\
  password v = None.
Proof.
  assert (Hu : web_url "www.reddit.com" u0).
  { split; [by right|done|by cbn|split; [right; by eexists|done]|done|]. apply (bool_decide_unpack _). vm_compute. reflexivity. }
  split; [exact Hu|]. exact (@unparse_parse toy_site toy_laws "www.reddit.com" u0 Hu).
Defined.

(** ** What is not as it should be *)

(** What both checks say of a text, and where a browser goes. *)
Definition checks (url : string) : res (bool * bool) := let* u := parse url in let* safe := is_web_safe_url u in Ok (is_reddit_url None u, safe).

(** A scheme in capitals before digits is no scheme to [urlsplit]. *)
Example capital_scheme : checks "HTTP:12345" = Ok (true, true) /\ browser "https" "HTTP:12345" = Host "12345".
Proof. split; vm_compute; reflexivity. Qed.

(** Digits after any scheme. *)
Example script_of_digits : checks "javascript:12" = Ok (true, true) /\ browser "https" "javascript:12" = Opaque "javascript".
Proof. split; vm_compute; reflexivity. Qed.

(** The expression for problematic characters ends at 0x19, and means 0x1f. *)
Example control_character :
  let url := String "027" "//evil.com" in checks url = Ok (true, true) /\ browser "https" url = Host "evil.com".
Proof. split; vm_compute; reflexivity. Qed.

(** A host is read in brackets anywhere in the netloc. *)
Example brackets_of_a_port : exists u, parse "http://evil.com:[x.reddit.com]/" = Ok u /\ is_reddit_url None u = true.
Proof. eexists. split; vm_compute; reflexivity. Qed.

(** The query is rebuilt although nothing changed it. *)
Example query_rebuilt : (let* u := parse "/?a&b=1&a=2" in Ok (unparse u)) = Ok "/?a=2&b=1".
Proof. vm_compute. reflexivity. Qed.

(** A parameter that is not UTF-8 is written as its Latin-1 reading. *)
Example parameter_in_latin1 : (let* u := parse "/?a=%E9" in Ok (unparse u)) = Ok "/?a=%C3%A9".
Proof. vm_compute. reflexivity. Qed.

(** Two slashes lose one, and three still leave two. *)
Example three_slashes : replace_slashes "/a///b" = "/a//b".
Proof. reflexivity. Qed.
End UrlExamples.
