(* ===== verification/Moderation.v ===== *)
(** * Moderation: reports, removals and approvals, and the listings they keep

    [AdminTools] of models/admintools.py, [Report] of models/report.py, the
    listings of moderators in lib/db/queries.py (the contents of its cached
    queries, as sets of names), stickied links (models/subreddit.py) and the
    handlers of controllers/api.py that bring them together. *)

From stdpp Require Import functions.
From S2P Require Import Prelude PyString.
From Stdlib Require Import Ascii.

Module Moderation.
Import PyString.

(** ** State *)

Inductive kind := LinkK | CommentK.

#[export] Instance kind_eq_dec : EqDecision kind.
Proof. solve_decision. Defined.

(** The dictionary [ban_info]: a key that is missing is [None]. *)
Record ban_info := BanInfo {
  banner : option string;
  auto : option bool;
  moderator_banned : option bool;
  banned_at : option Z;
  note : option string;
  unbanned_at : option Z;
  unbanner : option string;
  reset_used : option bool
}.

Definition no_ban : ban_info := BanInfo None None None None None None None None.

Record mthing := MThing {
  m_kind : kind;
  sr_id : Z;
  author_id : Z;
  _spam : bool;
  _deleted : bool;
  verdict : option string;
  m_ban : ban_info;
  reported : Z;
  ignore_reports : bool;
  promoted : bool
}.

Definition set_reported (n : Z) (t : mthing) : mthing :=
  MThing (m_kind t) (sr_id t) (author_id t) (_spam t) (_deleted t) (verdict t) (m_ban t) n (ignore_reports t) (promoted t).
Definition set_ignore (b : bool) (t : mthing) : mthing :=
  MThing (m_kind t) (sr_id t) (author_id t) (_spam t) (_deleted t) (verdict t) (m_ban t) (reported t) b (promoted t).
Definition set_deleted (t : mthing) : mthing :=
  MThing (m_kind t) (sr_id t) (author_id t) (_spam t) true (verdict t) (m_ban t) (reported t) (ignore_reports t) (promoted t).
Definition set_removed (spam : bool) (v : option string) (b : ban_info) (t : mthing) : mthing :=
  MThing (m_kind t) (sr_id t) (author_id t) spam (_deleted t) v b (reported t) (ignore_reports t) (promoted t).

(** A report is a relation from an account to a thing; its name is ["0"], and
    ["1"] or ["-1"] after it was found right or wrong. *)
Record report := MkReport { r_name : string; r_reason : option string }.

Inductive listing :=
  | SpamLinks (sr : Z) | SpamComments (sr : Z)
  | SpamFilteredLinks (sr : Z) | SpamFilteredComments (sr : Z)
  | ReportedLinks (sr : option Z) | ReportedComments (sr : option Z)
  | UnmoderatedLinks (sr : Z)
  | EditedLinks (sr : Z) | EditedComments (sr : Z)
  | DeletedLinks (author : Z) | DeletedComments (author : Z)
  | Links (sr : Z) (sort time : string) | SrComments (sr : Z) | AllComments
  | Submitted (author : Z) (sort time : string) | UserComments (author : Z) (sort time : string).

#[export] Instance listing_eq_dec : EqDecision listing.
Proof. solve_decision. Defined.

(** What goes to queues, to the search index and to the log of moderators. *)
Inductive event :=
  | Queue (queue name : string)
  | Index (name : string)
  | Unnotify (name : string)
  | Renotify (name : string)
  | UnstickyComment (name : string)
  | ModAction (sr : Z) (mod_name action : string) (target : option string) (details : option string).

Record mstate := MState {
  things : gmap string mthing;
  reports : gmap (Z * string) report;
  lists : listing -> gset string;
  user_reported : gset (Z * string);
  banned_authors : gset Z;
  spammer : gmap Z Z;
  acc_reported : gmap Z Z;
  last_mod_action : gmap Z Z;
  mod_actions : gmap Z Z;
  stickies : gmap Z (list string);
  log : list event
}.

Definition with_things (m : gmap string mthing) (s : mstate) : mstate :=
  MState m (reports s) (lists s) (user_reported s) (banned_authors s) (spammer s) (acc_reported s) (last_mod_action s) (mod_actions s) (stickies s) (log s).
Definition with_reports (m : gmap (Z * string) report) (s : mstate) : mstate :=
  MState (things s) m (lists s) (user_reported s) (banned_authors s) (spammer s) (acc_reported s) (last_mod_action s) (mod_actions s) (stickies s) (log s).
Definition with_lists (l : listing -> gset string) (s : mstate) : mstate :=
  MState (things s) (reports s) l (user_reported s) (banned_authors s) (spammer s) (acc_reported s) (last_mod_action s) (mod_actions s) (stickies s) (log s).
Definition with_user_reported (u : gset (Z * string)) (s : mstate) : mstate :=
  MState (things s) (reports s) (lists s) u (banned_authors s) (spammer s) (acc_reported s) (last_mod_action s) (mod_actions s) (stickies s) (log s).
Definition with_banned (b : gset Z) (s : mstate) : mstate :=
  MState (things s) (reports s) (lists s) (user_reported s) b (spammer s) (acc_reported s) (last_mod_action s) (mod_actions s) (stickies s) (log s).
Definition with_counts (sp ar la ma : gmap Z Z) (s : mstate) : mstate :=
  MState (things s) (reports s) (lists s) (user_reported s) (banned_authors s) sp ar la ma (stickies s) (log s).
Definition with_stickies (m : gmap Z (list string)) (s : mstate) : mstate :=
  MState (things s) (reports s) (lists s) (user_reported s) (banned_authors s) (spammer s) (acc_reported s) (last_mod_action s) (mod_actions s) m (log s).
Definition emit (e : list event) (s : mstate) : mstate :=
  MState (things s) (reports s) (lists s) (user_reported s) (banned_authors s) (spammer s) (acc_reported s) (last_mod_action s) (mod_actions s) (stickies s) (log s ++ e).

Definition update (f : mthing -> mthing) (x : string) (s : mstate) : mstate := with_things (alter f x (things s)) s.

Definition incr (k : Z) (n : Z) (m : gmap Z Z) : gmap Z Z := <[k := default 0 (m !! k) + n]> m.

(** ** Listings *)

(** [CachedQueryMutator]: the insertions, then the deletions. *)
Definition insert_into (L : listing -> gset string) (qx : listing * string) : listing -> gset string := <[qx.1 := {[qx.2]} ∪ L qx.1]> L.
Definition delete_from (L : listing -> gset string) (qx : listing * string) : listing -> gset string := <[qx.1 := L qx.1 ∖ {[qx.2]}]> L.

Definition mutate (ins del : list (listing * string)) (s : mstate) : mstate :=
  with_lists (foldl delete_from (foldl insert_into (lists s) ins) del) s.

(** The configuration the listings depend on. *)
Class ModConfig := {
  exclude_banned_modqueue : Z -> bool;
  voting_upvote_path : string;
  voting_controversial_path : string
}.

Section config.
Context `{ModConfig}.

Definition time_filtered_sorts : list string := ["top"; voting_upvote_path; voting_controversial_path].
Definition db_times : list string := ["all"; "hour"; "day"; "week"; "month"; "year"].

(** The listings of links with the time ranges of each sort. *)
Definition sorted_results (q : string -> string -> listing) : list listing :=
  [q "hot" "all"; q "new" "all"] ++ (s ← time_filtered_sorts; t ← db_times; [q s t]).

(** For each of the things, by [f]. *)
Definition for_things (s : mstate) (names : list string) (f : string -> mthing -> list (listing * string)) : list (listing * string) :=
  x ← names; match things s !! x with Some t => f x t | None => [] end.

Definition to_all (qs : list listing) (x : string) : list (listing * string) := (fun q => (q, x)) <$> qs.

Definition _common_del_ban (s : mstate) (names : list string) : list (listing * string) :=
  for_things s names (fun x t =>
    match m_kind t with
    | LinkK => to_all (sorted_results (Links (sr_id t)) ++ [ReportedLinks (Some (sr_id t)); ReportedLinks None]) x
    | CommentK => to_all [ReportedComments (Some (sr_id t)); ReportedComments None] x
    end).

Definition index_all (names : list string) : mstate -> mstate := emit (Index <$> names).

Definition ban (names : list string) (filtered : bool) (s : mstate) : mstate :=
  let ins := for_things s names (fun x t =>
    let add_to_modqueue := filtered && negb (exclude_banned_modqueue (sr_id t) && bool_decide (author_id t ∈ banned_authors s)) in
    match m_kind t with
    | LinkK => to_all (SpamLinks (sr_id t) :: if add_to_modqueue then [SpamFilteredLinks (sr_id t)] else []) x
    | CommentK => to_all (SpamComments (sr_id t) :: if add_to_modqueue then [SpamFilteredComments (sr_id t)] else []) x
    end) in
  let del := for_things s names (fun x t =>
    if filtered then []
    else match m_kind t with
         | LinkK => to_all [SpamFilteredLinks (sr_id t); UnmoderatedLinks (sr_id t)] x
         | CommentK => to_all [SpamFilteredComments (sr_id t)] x
         end) in
  index_all names (mutate ins (_common_del_ban s names ++ del) s).

(** The search index is updated for the things of the last sub only: the loop
    over the subs gives the name [things] to those of each. *)
Definition last_sub (s : mstate) (names : list string) : list string :=
  match last names with
  | Some x => List.filter (fun y => bool_decide (sr_id <$> things s !! y = sr_id <$> things s !! x)) names
  | None => []
  end.

Definition unban (names : list string) (ins : bool) (s : mstate) : mstate :=
  let inserts := for_things s names (fun x t =>
    if ins then
      match m_kind t with
      | LinkK => to_all (Links (sr_id t) "new" "all" :: ((fun sort => Links (sr_id t) sort "all") <$> "hot" :: time_filtered_sorts)) x
      | CommentK => to_all [AllComments; SrComments (sr_id t)] x
      end
    else []) in
  let deletes := for_things s names (fun x t =>
    match m_kind t with
    | LinkK => to_all ((if ins then [SpamLinks (sr_id t)] else []) ++ [UnmoderatedLinks (sr_id t); SpamFilteredLinks (sr_id t)]) x
    | CommentK => to_all ((if ins then [SpamComments (sr_id t)] else []) ++ [SpamFilteredComments (sr_id t)]) x
    end) in
  index_all (last_sub s names) (mutate inserts deletes s).

(** [queries.delete]. *)
Definition delete_things (names : list string) (s : mstate) : mstate :=
  let ins := for_things s names (fun x t =>
    match m_kind t with LinkK => [(DeletedLinks (author_id t), x)] | CommentK => [(DeletedComments (author_id t), x)] end) in
  let del := for_things s names (fun x t =>
    match m_kind t with
    | LinkK => to_all (sorted_results (Submitted (author_id t)) ++
        [SpamLinks (sr_id t); SpamFilteredLinks (sr_id t); UnmoderatedLinks (sr_id t); EditedLinks (sr_id t)]) x
    | CommentK => to_all (sorted_results (UserComments (author_id t)) ++
        [SpamComments (sr_id t); SpamFilteredComments (sr_id t); EditedComments (sr_id t)]) x
    end) in
  index_all names (mutate ins (_common_del_ban s names ++ del) s).

Definition edit (x : string) (s : mstate) : mstate :=
  let q := for_things s [x] (fun x t => [(match m_kind t with LinkK => EditedLinks | CommentK => EditedComments end (sr_id t), x)]) in
  mutate q [] (mutate [] q s).

Definition was_spam_filtered (t : mthing) : bool := _spam t && negb (_deleted t) && negb (bool_decide (verdict t = Some "mod-removed")).

(** [exclude_banned_modqueue] of the sub, for a banned author. *)
Definition excluded (s : mstate) (t : mthing) : bool := exclude_banned_modqueue (sr_id t) && bool_decide (author_id t ∈ banned_authors s).

Definition new_link (x : string) (s : mstate) : mstate :=
  let ins := for_things s [x] (fun x t =>
    to_all ((if _spam t then [SpamLinks (sr_id t)] else []) ++ (if excluded s t then [] else [UnmoderatedLinks (sr_id t)]) ++
      [Links (sr_id t) "new" "all"; Submitted (author_id t) "new" "all"]) x) in
  emit [Queue "new_link" x] (mutate ins [] s).

Definition new_comment (x : string) (s : mstate) : mstate :=
  match things s !! x with
  | Some t =>
      if _deleted t then mutate [] (to_all [UserComments (author_id t) "new" "all"; SrComments (sr_id t); AllComments] x) s
      else
        let ins := if _spam t then
            to_all (SpamComments (sr_id t) :: if was_spam_filtered t && negb (excluded s t) then [SpamFilteredComments (sr_id t)] else []) x
          else [] in
        emit [Queue "new_comment" x] (mutate (ins ++ to_all [UserComments (author_id t) "new" "all"] x) [] s)
  | None => s
  end.

(** ** Reports *)

(** [sub in s]. *)
Fixpoint py_in (sub s : string) : bool := py_startswith sub s || match s with String _ s => py_in sub s | EmptyString => false end.

Definition new_report (x : string) (u : Z) (r : report) (s : mstate) : mstate :=
  let is_spam_report := match r_reason r with Some reason => py_in "spam" (py_lower reason) | None => false end in
  let ins := for_things s [x] (fun x t =>
    match m_kind t with
    | LinkK => to_all (ReportedLinks (Some (sr_id t)) :: if is_spam_report then [ReportedLinks None] else []) x
    | CommentK => to_all (ReportedComments (Some (sr_id t)) :: if is_spam_report then [ReportedComments None] else []) x
    end) in
  emit [Queue "new_report" x] (with_user_reported ({[(u, x)]} ∪ user_reported s) (mutate ins [] s)).

(** The reports found right leave the listings of those who made them. *)
Definition clear_reports (cleared : list string) (rels : gmap (Z * string) report) (s : mstate) : mstate :=
  let del := for_things s cleared (fun x t =>
    match m_kind t with
    | LinkK => to_all [ReportedLinks (Some (sr_id t)); ReportedLinks None] x
    | CommentK => to_all [ReportedComments (Some (sr_id t)); ReportedComments None] x
    end) in
  with_user_reported (filter (fun k => r_name <$> rels !! k <> Some "1") (user_reported s)) (mutate [] del s).

Definition accept (names : list string) (correct : bool) (s : mstate) : mstate :=
  let rename (k : Z * string) (r : report) :=
    if bool_decide (k.2 ∈ names) && String.eqb (r_name r) "0" then MkReport (if correct then "1" else "-1") (r_reason r) else r in
  let s := with_reports (map_imap (fun k r => Some (rename k r)) (reports s)) s in
  let to_clear := List.filter (fun x => match things s !! x with Some t => 0 <? reported t | None => false end) names in
  let s' := foldl (fun s x => update (set_reported 0) x s) s to_clear in
  clear_reports to_clear (filter (fun kr => kr.1.2 ∈ names) (reports s)) s'.

(** [Report.new]. *)
Definition report_new (u : Z) (x : string) (reason : option string) (s : mstate) : mstate :=
  match reports s !! (u, x), things s !! x with
  | None, Some t =>
      let r := MkReport "0" (match reason with Some EmptyString => None | _ => reason end) in
      let s := update (fun t => set_reported (reported t + 1) t) x s in
      let s := with_reports (<[(u, x) := r]> (reports s)) s in
      let s := with_counts (spammer s) (incr (author_id t) 1 (acc_reported s)) (last_mod_action s) (mod_actions s) s in
      if ignore_reports t then s
      else let s := new_report x u r s in if _spam t then accept [x] true s else s
  | _, _ => s
  end.

(** ** Removal and approval *)

(** [author_spammer]: the things an automatic removal did not take. *)
Definition author_spammer (names : list string) (sp : bool) (s : mstate) : mstate :=
  foldl (fun s x =>
    match things s !! x with
    | Some t =>
        if default true (auto (m_ban t)) then s
        else with_counts (incr (author_id t) (if sp then 1 else -1) (spammer s)) (acc_reported s) (last_mod_action s) (mod_actions s) s
    | None => s
    end) s names.

Definition set_last_sr_ban (now : Z) (names : list string) (s : mstate) : mstate :=
  foldl (fun s x =>
    match things s !! x with
    | Some t => with_counts (spammer s) (acc_reported s) (<[sr_id t := now]> (last_mod_action s)) (incr (sr_id t) 1 (mod_actions s)) s
    | None => s
    end) s names.

Definition spam_note (was train_spam : bool) : string :=
  match was, train_spam with
  | false, true => "spam"
  | false, false => "remove not spam"
  | true, false => "confirm spam"
  | true, true => "reinforce spam"
  end.

Definition spam_thing (now : Z) (is_auto mod_banned : bool) (who : option string) (train_spam : bool) (t : mthing) : mthing :=
  let v := if mod_banned then Some "mod-removed" else if negb is_auto then Some "admin-removed" else verdict t in
  let b := m_ban t in
  set_removed true v (BanInfo who (Some is_auto) (Some mod_banned) (Some now) (Some (spam_note (_spam t) train_spam))
    (unbanned_at b) (unbanner b) (reset_used b)) t.

Definition spam_loop (now : Z) (is_auto mod_banned : bool) (who : option string) (train_spam : bool) (s : mstate) (x : string) : mstate :=
  match things s !! x with
  | Some t =>
      if promoted t then s
      else emit (if is_auto then [Queue "auto_removed" x] else []) (update (spam_thing now is_auto mod_banned who train_spam) x s)
  | None => s
  end.

Definition removed_events (s : mstate) (is_auto : bool) (x : string) : list event :=
  (if is_auto then [Queue "auto_removed" x] else []) ++
  match things s !! x with
  | Some t => [Queue (match m_kind t with LinkK => "removed_link" | CommentK => "removed_comment" end) x]
  | None => []
  end.

(** [AdminTools.spam]. *)
Definition spam (now : Z) (names : list string) (is_auto mod_banned : bool) (who : option string) (train_spam : bool) (s : mstate) : mstate :=
  let new_things := List.filter (fun x => match things s !! x with Some t => negb (_spam t) | None => false end) names in
  let s := accept names true s in
  let s := foldl (spam_loop now is_auto mod_banned who train_spam) s names in
  let s := if is_auto then s else set_last_sr_ban now new_things (author_spammer new_things true s) in
  let s := ban names is_auto s in
  emit (x ← names; removed_events s is_auto x) s.

Definition unspam_thing (now : Z) (moderator_unbanned : bool) (who : option string) (t : mthing) : mthing :=
  let b := m_ban t in
  set_removed false (Some (if moderator_unbanned then "mod-approved" else "admin-approved"))
    (BanInfo (banner b) (auto b) (moderator_banned b) (banned_at b) (note b) (Some now)
       (match who with Some (String _ _) => who | _ => unbanner b end)
       (Some (match reset_used b with None => false | Some _ => true end))) t.

Definition unspam_loop (now : Z) (moderator_unbanned : bool) (who : option string) (s : mstate) (x : string) : mstate :=
  let s := update (unspam_thing now moderator_unbanned who) x s in
  match things s !! x with
  | Some t => emit [Queue (match m_kind t with LinkK => "approved_link" | CommentK => "approved_comment" end) x] s
  | None => s
  end.

(** [AdminTools.unspam]. *)
Definition unspam (now : Z) (names : list string) (moderator_unbanned : bool) (who : option string) (ins : bool) (s : mstate) : mstate :=
  let names := if (1 <? length names)%nat then List.filter (fun x => match things s !! x with Some t => _spam t | None => false end) names else names in
  let s := accept names false s in
  let s := foldl (unspam_loop now moderator_unbanned who) s names in
  unban names ins (set_last_sr_ban now names (author_spammer names false s)).

(** ** Stickied links *)

Definition MAX_STICKIES : nat := 2.

Definition sticky_of (sr : Z) (s : mstate) : list string := default [] (stickies s !! sr).

Definition replace_nth (n : nat) (x : string) (l : list string) : list string := <[n := x]> l.

(** [set_sticky], of a slot counted from one. *)
Definition set_sticky (sr : Z) (x : string) (log_user : string) (num : option nat) (s : mstate) : mstate :=
  let old := sticky_of sr s in
  if bool_decide (x ∈ old) then s
  else
    let '(new, unstickied) :=
      match old with
      | [] => ([x], [])
      | _ =>
          match num with
          | Some (S k) =>
              if (S k <=? length old)%nat then (replace_nth k x old, option_list (old !! k))
              else if (MAX_STICKIES <=? length old)%nat then (take (MAX_STICKIES - 1) old ++ [x], drop (MAX_STICKIES - 1) old)
              else (old ++ [x], [])
          | _ =>
              if (MAX_STICKIES <=? length old)%nat then (take (MAX_STICKIES - 1) old ++ [x], drop (MAX_STICKIES - 1) old)
              else (old ++ [x], [])
          end
      end in
    emit (((fun y => ModAction sr log_user "unsticky" (Some y) (Some "replaced")) <$> unstickied) ++ [ModAction sr log_user "sticky" (Some x) None])
      (with_stickies (<[sr := new]> (stickies s)) s).

(** [list.remove]: the first occurrence. *)
Fixpoint remove_first (x : string) (l : list string) : list string :=
  match l with [] => [] | y :: l => if String.eqb y x then l else y :: remove_first x l end.

Definition remove_sticky (sr : Z) (x : string) (log_user : option string) (s : mstate) : mstate :=
  let old := sticky_of sr s in
  if bool_decide (x ∈ old) then
    emit (match log_user with Some u => [ModAction sr u "unsticky" (Some x) None] | None => [] end)
      (with_stickies (<[sr := remove_first x old]> (stickies s)) s)
  else s.

(** ** Handlers *)

Definition create (x : string) (t : mthing) (s : mstate) : mstate := with_things (<[x := t]> (things s)) s.

(** [Link._submit] and the rest of [POST_submit]: [level_all] when the filter of
    the sub takes everything from this author, [domain] the reason when the
    domain is banned. *)
Definition submit (now : Z) (x : string) (sr author : Z) (level_all : bool) (domain : option string) (s : mstate) : mstate :=
  let author_banned := bool_decide (author ∈ banned_authors s) in
  let s := create x (MThing LinkK sr author (author_banned || level_all) false None no_ban 0 false false) s in
  let s := if author_banned || level_all
    then spam now [x] true false (Some (if author_banned then "banned user" else "subreddit setting")) true s else s in
  let s := match domain with Some why => spam now [x] true false (Some ("domain (" +:+ why +:+ ")")) true s | None => s end in
  index_all [x] (new_link x s).

(** [Comment._new] and [queries.new_comment]; [own_promo] on a promotion of the
    author's own. *)
Definition comment (x : string) (sr author : Z) (own_promo level_all : bool) (s : mstate) : mstate :=
  let sp := negb own_promo && (bool_decide (author ∈ banned_authors s) || level_all) in
  new_comment x (create x (MThing CommentK sr author sp false None no_ban 0 false false) s).

Definition post_report (u : Z) (x : string) (reason : option string) (may_report : bool) (s : mstate) : mstate :=
  match things s !! x with
  | Some t => if _deleted t || negb may_report then s else report_new u x reason s
  | None => s
  end.

Definition kind_name (k : kind) : string := match k with LinkK => "link" | CommentK => "comment" end.

Definition post_remove (now : Z) (x : string) (mod_name : string) (admin is_spam : bool) (s : mstate) : mstate :=
  match things s !! x with
  | Some t =>
      if promoted t || _deleted t then s
      else
        let details := match _spam t, is_spam with true, true => "confirm_spam" | false, true => "spam" | _, false => "remove" end in
        let s := if _spam t && negb is_spam then unspam now [x] true (Some mod_name) false s else s in
        let s := spam now [x] false (negb admin) (Some mod_name) (negb (_spam t) && is_spam) s in
        let s := emit [ModAction (sr_id t) mod_name ("remove" +:+ kind_name (m_kind t)) (Some x) (Some details)] s in
        match m_kind t with
        | LinkK => remove_sticky (sr_id t) x None s
        | CommentK => emit [UnstickyComment x; Unnotify x] s
        end
  | None => s
  end.

Definition post_approve (now : Z) (x : string) (mod_name : string) (admin : bool) (s : mstate) : mstate :=
  match things s !! x with
  | Some t =>
      if _deleted t then s
      else
        let s := unspam now [x] (negb admin) (Some mod_name) (_spam t) s in
        let s := emit [ModAction (sr_id t) mod_name ("approve" +:+ kind_name (m_kind t)) (Some x) (Some (if _spam t then "unspam" else "confirm_ham"))] s in
        match m_kind t with CommentK => if _spam t then emit [Renotify x] s else s | LinkK => s end
  | None => s
  end.

(** [POST_ignore_reports] and [POST_unignore_reports]. *)
Definition post_ignore (b : bool) (x : string) (mod_name : string) (s : mstate) : mstate :=
  match things s !! x with
  | Some t =>
      if _deleted t || Bool.eqb (ignore_reports t) b then s
      else emit [ModAction (sr_id t) mod_name (if b then "ignorereports" else "unignorereports") (Some x) None] (update (set_ignore b) x s)
  | None => s
  end.

(** The moderation of [POST_editusertext]: [late] marks it as edited. *)
Definition post_edit (x : string) (late : bool) (s : mstate) : mstate :=
  match things s !! x with
  | Some t =>
      if _deleted t then s
      else let s := update (set_ignore false) x s in
        emit [Index x; Queue (kind_name (m_kind t) +:+ "_text_edited") x] (if late then edit x s else s)
  | None => s
  end.

Definition post_del (x : string) (s : mstate) : mstate :=
  match things s !! x with
  | Some t =>
      let s := emit [Index x] (update set_deleted x s) in
      match m_kind t with
      | LinkK => remove_sticky (sr_id t) x None (delete_things [x] (emit [Queue "deleted_link" x] s))
      | CommentK =>
          delete_things [x] (emit [Unnotify x; Queue "deleted_comment" x] (new_comment x (emit [UnstickyComment x] s)))
      end
  | None => s
  end.
End config.
End Moderation.
