(* ===== verification/ModerationProps.v ===== *)
(** * Moderation: properties

    The handlers of [Moderation.v] as a step relation, and what holds of the
    listings of moderators in every state they lead to. *)

From stdpp Require Import functions.
From S2P Require Import Prelude PyString Moderation.

Module ModerationProps.
Import PyString Moderation.

(** A listing is at most one of those in a list. *)
Fixpoint distinct (q : listing) (l : list listing) : Prop :=
  match l with [] => True | q' :: l => (q = q' -> q ∉ l) /\ distinct q l end.

Ltac distinct_constants := repeat split; intros ->; rewrite ?elem_of_cons, ?elem_of_nil; intuition discriminate.

Ltac bool_facts :=
  pose proof (eq_refl true); pose proof (eq_refl false); pose proof Bool.diff_false_true; pose proof Bool.diff_true_false.

(** ** Listings after insertions and deletions *)

Lemma insert_all_spec ins L q x : x ∈ foldl insert_into L ins q <-> x ∈ L q \/ (q, x) ∈ ins.
Proof.
  revert L. induction ins as [|[q' x'] ins IH]; intros L; simpl; [rewrite elem_of_nil; tauto|].
  rewrite IH, elem_of_cons. unfold insert_into. cbn [fst snd]. destruct (decide (q = q')) as [-> | Hq].
  - rewrite fn_lookup_insert. set_solver.
  - rewrite fn_lookup_insert_ne by done. set_solver.
Qed.

Lemma delete_all_spec del L q x : x ∈ foldl delete_from L del q <-> x ∈ L q /\ (q, x) ∉ del.
Proof.
  revert L. induction del as [|[q' x'] del IH]; intros L; simpl; [rewrite elem_of_nil; tauto|].
  rewrite IH, elem_of_cons. unfold delete_from. cbn [fst snd]. destruct (decide (q = q')) as [-> | Hq].
  - rewrite fn_lookup_insert. set_solver.
  - rewrite fn_lookup_insert_ne by done. set_solver.
Qed.

Lemma mutate_spec ins del s q x : x ∈ lists (mutate ins del s) q <-> (x ∈ lists s q \/ (q, x) ∈ ins) /\ (q, x) ∉ del.
Proof. unfold mutate. cbn [lists with_lists]. by rewrite delete_all_spec, insert_all_spec. Qed.

Lemma to_all_spec qs y q x : (q, x) ∈ to_all qs y <-> x = y /\ q ∈ qs.
Proof. unfold to_all. rewrite list_elem_of_fmap. naive_solver. Qed.

Lemma for_one s x t f : things s !! x = Some t -> for_things s [x] f = f x t.
Proof. intros E. unfold for_things. simpl. by rewrite E, app_nil_r. Qed.

(** ** What a step leaves alone *)

(** Another thing keeps its fields, its reports and its places. *)
Record frame (x : string) (s s' : mstate) : Prop := Frame {
  f_things y : y <> x -> things s' !! y = things s !! y;
  f_lists y q : y <> x -> y ∈ lists s' q <-> y ∈ lists s q;
  f_reports u y : y <> x -> reports s' !! (u, y) = reports s !! (u, y)
}.

#[export] Instance frame_preorder x : PreOrder (frame x).
Proof.
  split; [by split|]. intros a b c [A1 A2 A3] [B1 B2 B3].
  split; intros; [rewrite B1, A1|rewrite B2, A2|rewrite B3, A3]; done.
Qed.

(** The things and their listings are what a change of counters or of the log
    leaves. *)
Record same (s s' : mstate) : Prop := Same {
  s_things : things s' = things s;
  s_lists : lists s' = lists s;
  s_reports : reports s' = reports s;
  s_banned : banned_authors s' = banned_authors s
}.

#[export] Instance same_preorder : PreOrder same.
Proof. split; [by split|]. intros a b c [A1 A2 A3 A4] [B1 B2 B3 B4]. split; congruence. Qed.

Lemma same_emit e s : same s (emit e s).
Proof. by split. Qed.

Lemma same_frame x s s' : same s s' -> frame x s s'.
Proof. intros [E1 E2 E3 E4]. split; intros; by rewrite ?E1, ?E2, ?E3. Qed.

Lemma same_fold (f : mstate -> string -> mstate) l s : (forall s x, same s (f s x)) -> same s (foldl f s l).
Proof. intros Hf. revert s. induction l as [|x l IH]; intros s; [reflexivity|]. simpl. etransitivity; [apply Hf|apply IH]. Qed.

Lemma same_author_spammer names b s : same s (author_spammer names b s).
Proof. apply same_fold. intros s' x. destruct (things s' !! x) as [t|]; [|by split]. destruct (default true _); by split. Qed.

Lemma same_last_sr_ban now names s : same s (set_last_sr_ban now names s).
Proof. apply same_fold. intros s' x. destruct (things s' !! x) as [t|]; by split. Qed.

(** ** Open reports *)

Definition open_reports (s : mstate) (x : string) : gmap (Z * string) report :=
  filter (fun kr => kr.1.2 = x /\ r_name kr.2 = "0") (reports s).

Definition open_count (s : mstate) (x : string) : Z := Z.of_nat (size (open_reports s x)).

Lemma open_count_ext s s' x y : (forall u, reports s' !! (u, y) = reports s !! (u, x)) -> x = y -> open_count s' y = open_count s x.
Proof.
  intros E <-. unfold open_count. do 2 f_equal. apply map_eq. intros [u z]. unfold open_reports. destruct (decide (z = x)) as [-> | Hz].
  - rewrite !map_lookup_filter, E. done.
  - rewrite !map_lookup_filter_None_2; [done|right; intros r Hr [E1 _]; simpl in E1; congruence..].
Qed.

Lemma frame_open x s s' y : frame x s s' -> y <> x -> open_count s' y = open_count s y.
Proof. intros Hf Hy. apply open_count_ext; [|done]. intros u. by apply (f_reports _ _ _ Hf). Qed.

Section config.
Context `{ModConfig}.

(** ** The places of a thing *)

Definition spam_q (t : mthing) : listing := match m_kind t with LinkK => SpamLinks (sr_id t) | CommentK => SpamComments (sr_id t) end.
Definition filtered_q (t : mthing) : listing := match m_kind t with LinkK => SpamFilteredLinks (sr_id t) | CommentK => SpamFilteredComments (sr_id t) end.
Definition reported_q (t : mthing) : listing :=
  match m_kind t with LinkK => ReportedLinks (Some (sr_id t)) | CommentK => ReportedComments (Some (sr_id t)) end.

(** Taken by a filter, not by a person. *)
Definition auto_of (t : mthing) : bool := default true (auto (m_ban t)).
Lemma frame_mutate x ins del s : (forall q y, (q, y) ∈ ins -> y = x) -> (forall q y, (q, y) ∈ del -> y = x) -> frame x s (mutate ins del s).
Proof. intros Hi Hd. split; [done| |done]. intros y q Hy. rewrite mutate_spec. naive_solver. Qed.

Lemma frame_update x f s : frame x s (update f x s).
Proof. split; [|done..]. intros y Hy. apply lookup_alter_ne. done. Qed.

Lemma update_things f x s t : things s !! x = Some t -> things (update f x s) !! x = Some (f t).
Proof. intros E. unfold update. cbn [things with_things]. by rewrite lookup_alter_eq, E. Qed.

(** What an operation on a thing does: the thing it leaves, and who is in which listing. *)
Record effect (x : string) (s : mstate) (t' : mthing) (here : listing -> Prop) (n : Z) (s' : mstate) : Prop := Effect {
  e_frame : frame x s s';
  e_thing : things s' !! x = Some t';
  e_lists q : x ∈ lists s' q <-> here q;
  e_open : open_count s' x = n;
  e_banned : banned_authors s' = banned_authors s
}.

Lemma effect_same x s t here n s1 s2 : effect x s t here n s1 -> same s1 s2 -> effect x s t here n s2.
Proof.
  intros [E1 E2 E3 E4 E5] Hs. pose proof (same_frame x _ _ Hs) as Hf. destruct Hs as [F1 F2 F3 F4]. split.
  - by etransitivity.
  - by rewrite F1.
  - intros q. by rewrite F2.
  - rewrite <- E4. by apply open_count_ext; [intros u; rewrite F3|].
  - by rewrite F4.
Qed.

Lemma effect_mutate x s t here n s1 ins del :
  effect x s t here n s1 -> (forall q y, (q, y) ∈ ins -> y = x) -> (forall q y, (q, y) ∈ del -> y = x) ->
  effect x s t (fun q => (here q \/ (q, x) ∈ ins) /\ (q, x) ∉ del) n (mutate ins del s1).
Proof.
  intros [E1 E2 E3 E4 E5] Hi Hd. split; [|done| | |done].
  - etransitivity; [exact E1|]. by apply frame_mutate.
  - intros q. by rewrite mutate_spec, E3.
  - rewrite <- E4. by apply open_count_ext.
Qed.

Lemma effect_trans x s t here n s1 t' here' n' s2 : effect x s t here n s1 -> effect x s1 t' here' n' s2 -> effect x s t' here' n' s2.
Proof. intros [E1 E2 E3 E4 E5] [F1 F2 F3 F4 F5]. split; [by etransitivity|done..|congruence]. Qed.

Lemma effect_iff x s t here here' n s' : effect x s t here n s' -> (forall q, here q <-> here' q) -> effect x s t here' n s'.
Proof. intros [E1 E2 E3 E4 E5] Hh. split; [done..| |done|done]. intros q. by rewrite E3. Qed.

Lemma effect_start x s t : things s !! x = Some t -> effect x s t (fun q => x ∈ lists s q) (open_count s x) s.
Proof. intros E. split; [reflexivity|done..]. Qed.

Lemma effect_update x s t here n s1 f : effect x s t here n s1 -> effect x s (f t) here n (update f x s1).
Proof.
  intros [E1 E2 E3 E4 E5]. split; [|by apply update_things|done| |done].
  - etransitivity; [exact E1|apply frame_update].
  - rewrite <- E4. by apply open_count_ext.
Qed.

Definition reported_qs (t : mthing) : list listing :=
  match m_kind t with
  | LinkK => [ReportedLinks (Some (sr_id t)); ReportedLinks None]
  | CommentK => [ReportedComments (Some (sr_id t)); ReportedComments None]
  end.

Definition accepted_here (s : mstate) (x : string) (t : mthing) (q : listing) : Prop := x ∈ lists s q /\ (0 < reported t -> q ∉ reported_qs t).

(** Accepting the reports of a thing closes them, with its count. *)
Lemma accept_effect x s t correct : things s !! x = Some t -> 0 <= reported t ->
  effect x s (set_reported 0 t) (accepted_here s x t) 0 (accept [x] correct s).
Proof.
  intros Et Hn. unfold accept. set (s1 := with_reports _ s). set (cl := List.filter _ [x]). set (rels := filter _ (reports s1)).
  assert (Hcl : cl = if 0 <? reported t then [x] else []) by (subst cl; simpl; rewrite Et; by destruct (0 <? reported t)).
  set (s2 := foldl _ s1 cl). assert (E2 : effect x s (set_reported 0 t) (fun q => x ∈ lists s q) 0 s2).
  { assert (E1 : effect x s t (fun q => x ∈ lists s q) 0 s1).
    { split; [split; [done|done|]|done|done| |done].
      - intros u y Hy. cbn [reports with_reports s1]. subst s1. cbn [reports with_reports]. rewrite map_lookup_imap.
        destruct (reports s !! (u, y)); [|done]. simpl. rewrite bool_decide_false; [done|]. rewrite list_elem_of_singleton. done.
      - unfold open_count, open_reports. apply (Z2Nat.inj_iff _ 0); [lia..|]. rewrite Nat2Z.id. simpl. apply map_size_empty_iff, map_empty.
        intros [u y]. apply map_lookup_filter_None_2. right. intros r Hr [Hy Hname]. simpl in Hy, Hname. subst y. subst s1. cbn [reports with_reports] in Hr.
        rewrite map_lookup_imap in Hr. destruct (reports s !! (u, x)) as [r0|]; [|done]. injection Hr as <-. simpl in Hname.
        rewrite bool_decide_true in Hname by by left. destruct (String.eqb_spec (r_name r0) "0"); [by destruct correct|done]. }
    subst s2. rewrite Hcl. destruct (Z.ltb_spec 0 (reported t)).
    - exact (effect_update x s t _ 0 s1 (set_reported 0) E1).
    - assert (set_reported 0 t = t) as ->; [|exact E1]. destruct t; cbn in *. unfold set_reported. cbn. f_equal. lia. }
  clearbody s2. unfold clear_reports. set (del := for_things s2 cl _).
  eapply effect_same with (s1 := mutate [] del s2); [|by split]. eapply effect_iff; [apply effect_mutate; [exact E2| |]|].
  - intros q y Hq. by apply elem_of_nil in Hq.
  - subst del. rewrite Hcl. destruct (0 <? reported t); [|intros q y Hq; by apply elem_of_nil in Hq].
    rewrite (for_one s2 x (set_reported 0 t)) by apply E2. intros q y. cbn [m_kind sr_id set_reported]. destruct (m_kind t); intros Hq%to_all_spec; tauto.
  - intros q. cbn beta. unfold accepted_here. rewrite elem_of_nil. subst del. rewrite Hcl. unfold reported_qs. destruct (Z.ltb_spec 0 (reported t)).
    + rewrite (for_one s2 x (set_reported 0 t)) by apply E2. cbn [m_kind sr_id set_reported]. destruct (m_kind t); rewrite to_all_spec; tauto.
    + rewrite elem_of_nil. split; [intros [[? | []] _]; split; [done|lia]|tauto].
Qed.
(** The listings of links by their sort, which removals clear. *)
Definition sorted_qs (t : mthing) : list listing := match m_kind t with LinkK => sorted_results (Links (sr_id t)) | CommentK => [] end.
Definition unmoderated_qs (t : mthing) : list listing := match m_kind t with LinkK => [UnmoderatedLinks (sr_id t)] | CommentK => [] end.
Definition restored_qs (t : mthing) : list listing :=
  match m_kind t with
  | LinkK => Links (sr_id t) "new" "all" :: ((fun sort => Links (sr_id t) sort "all") <$> "hot" :: time_filtered_sorts)
  | CommentK => [AllComments; SrComments (sr_id t)]
  end.

(** Where a thing is after it was removed, and after it was approved. *)
Definition spam_here (s : mstate) (x : string) (t : mthing) (is_auto : bool) (q : listing) : Prop :=
  q = spam_q t \/ (is_auto = true /\ excluded s t = false /\ q = filtered_q t) \/
  (x ∈ lists s q /\ q ∉ reported_qs t /\ q ∉ sorted_qs t /\ (is_auto = false -> q <> filtered_q t /\ q ∉ unmoderated_qs t)).

Definition unspam_here (s : mstate) (x : string) (t : mthing) (ins : bool) (q : listing) : Prop :=
  ((x ∈ lists s q /\ (0 < reported t -> q ∉ reported_qs t)) \/ (ins = true /\ q ∈ restored_qs t)) /\
  q <> filtered_q t /\ q ∉ unmoderated_qs t /\ (ins = true -> q <> spam_q t).

Lemma sorted_results_links sr q : q ∈ sorted_results (Links sr) -> exists s t, q = Links sr s t.
Proof.
  unfold sorted_results. rewrite elem_of_app, !elem_of_cons, elem_of_nil. intros [[-> | [-> | []]] | Hq]; [by eexists _, _..|].
  apply list_elem_of_bind in Hq as (s & Hq & _). apply list_elem_of_bind in Hq as (t & Hq & _). apply list_elem_of_singleton in Hq as ->. by eexists _, _.
Qed.

(** The listings of moderators a thing may be in. *)
Definition mod_qs (t : mthing) : list listing := [spam_q t; filtered_q t] ++ reported_qs t ++ unmoderated_qs t.

Lemma mod_qs_distinct t q : distinct q (mod_qs t).
Proof. unfold mod_qs, spam_q, filtered_q, reported_qs, unmoderated_qs. destruct (m_kind t); cbn [app distinct]; distinct_constants. Qed.

Lemma sorted_qs_other t q : q ∈ sorted_qs t -> q ∉ mod_qs t.
Proof.
  unfold sorted_qs, mod_qs, spam_q, filtered_q, reported_qs, unmoderated_qs. destruct (m_kind t); [|by intros ?%elem_of_nil].
  intros (st & ti & ->)%sorted_results_links. cbn [app]. rewrite !elem_of_cons, elem_of_nil. intuition discriminate.
Qed.

Lemma restored_qs_other t q : q ∈ restored_qs t -> q ∉ mod_qs t.
Proof.
  unfold restored_qs, mod_qs, spam_q, filtered_q, reported_qs, unmoderated_qs. destruct (m_kind t).
  - rewrite elem_of_cons, list_elem_of_fmap. intros [-> | (st & -> & _)]; cbn [app]; rewrite !elem_of_cons, elem_of_nil; intuition discriminate.
  - rewrite !elem_of_cons. intros [-> | [-> | []%elem_of_nil]]; cbn [app]; rewrite !elem_of_cons, elem_of_nil; intuition discriminate.
Qed.

(** Decides who is where. *)
Ltac places_by t :=
  unfold mod_qs, spam_q, filtered_q, reported_q, reported_qs, sorted_qs, unmoderated_qs in *;
  destruct (m_kind t); cbn [app distinct] in *;
  rewrite ?elem_of_app, ?to_all_spec, ?elem_of_app, ?elem_of_cons, ?elem_of_nil in *; bool_facts; tauto.

Ltac places t q :=
  let H1 := fresh in let H2 := fresh in
  pose proof (mod_qs_distinct t q) as H1; pose proof (sorted_qs_other t q) as H2; clear -H1 H2; places_by t.

Lemma spam_effect now x s t is_auto mb who train : things s !! x = Some t -> 0 <= reported t -> promoted t = false ->
  effect x s (spam_thing now is_auto mb who train (set_reported 0 t)) (spam_here s x t is_auto) 0 (spam now [x] is_auto mb who train s).
Proof.
  intros Et Hn Hp. unfold spam. set (new := List.filter _ [x]). eapply effect_same; [|apply same_emit].
  pose proof (accept_effect x s t true Et Hn) as E1. set (s1 := accept [x] true s) in *. clearbody s1.
  set (s2 := foldl _ s1 [x]).
  assert (E2 : effect x s (spam_thing now is_auto mb who train (set_reported 0 t)) (accepted_here s x t) 0 s2).
  { subst s2. simpl. unfold spam_loop. rewrite (e_thing _ _ _ _ _ _ E1). cbn [promoted set_reported]. rewrite Hp.
    eapply effect_same; [|apply same_emit]. apply (effect_update _ _ _ _ _ _ _ E1). }
  clearbody s2. set (s3 := if is_auto then s2 else _).
  assert (E3 : effect x s (spam_thing now is_auto mb who train (set_reported 0 t)) (accepted_here s x t) 0 s3).
  { subst s3. destruct is_auto; [exact E2|]. eapply effect_same; [exact E2|].
    etransitivity; [apply same_author_spammer|apply same_last_sr_ban]. }
  clearbody s3. clear E1 E2. unfold ban. eapply effect_same; [|apply same_emit]. unfold _common_del_ban.
  rewrite !(for_one s3 x _ _ (e_thing _ _ _ _ _ _ E3)). cbn [spam_thing set_removed set_reported m_kind sr_id author_id].
  rewrite (e_banned _ _ _ _ _ _ E3). change (exclude_banned_modqueue (sr_id t) && bool_decide (author_id t ∈ banned_authors s)) with (excluded s t).
  eapply effect_iff; [apply effect_mutate; [exact E3|..]|].
  - intros q y. destruct (m_kind t), (is_auto && negb (excluded s t)); intros Hq%to_all_spec; tauto.
  - intros q y. rewrite elem_of_app. destruct (m_kind t), is_auto; rewrite ?to_all_spec, ?elem_of_nil; tauto.
  - intros q. cbn beta. unfold accepted_here, spam_here.
    destruct is_auto, (excluded s t); cbn [andb negb]; places t q.
Qed.
Lemma unspam_effect now x s t mb who ins : things s !! x = Some t -> 0 <= reported t ->
  effect x s (unspam_thing now mb who (set_reported 0 t)) (unspam_here s x t ins) 0 (unspam now [x] mb who ins s).
Proof.
  intros Et Hn. unfold unspam. cbn [length Nat.ltb Nat.leb].
  pose proof (accept_effect x s t false Et Hn) as E1. set (s1 := accept [x] false s) in *. clearbody s1.
  set (s2 := foldl _ s1 [x]).
  assert (E2 : effect x s (unspam_thing now mb who (set_reported 0 t)) (accepted_here s x t) 0 s2).
  { subst s2. simpl. unfold unspam_loop. pose proof (effect_update _ _ _ _ _ _ (unspam_thing now mb who) E1) as E2.
    rewrite (e_thing _ _ _ _ _ _ E2). eapply effect_same; [exact E2|apply same_emit]. }
  clearbody s2. assert (E3 : effect x s (unspam_thing now mb who (set_reported 0 t)) (accepted_here s x t) 0
      (set_last_sr_ban now [x] (author_spammer [x] false s2))).
  { eapply effect_same; [exact E2|]. etransitivity; [apply same_author_spammer|apply same_last_sr_ban]. }
  set (s3 := set_last_sr_ban _ _ _) in *. clearbody s3. clear E1 E2. unfold unban. eapply effect_same; [|apply same_emit].
  rewrite !(for_one s3 x _ _ (e_thing _ _ _ _ _ _ E3)). cbn [unspam_thing set_removed set_reported m_kind sr_id author_id].
  eapply effect_iff; [apply effect_mutate; [exact E3|..]|].
  - intros q y. destruct ins, (m_kind t); rewrite ?to_all_spec, ?elem_of_nil; tauto.
  - intros q y. destruct (m_kind t); rewrite ?to_all_spec; tauto.
  - intros q. cbn beta. unfold accepted_here, unspam_here. pose proof (restored_qs_other t q) as H3. unfold restored_qs in H3 |- *.
    destruct ins; cbn [app]; pose proof (mod_qs_distinct t q) as H1; clear -H1 H3; places_by t.
Qed.

Lemma open_insert s x u r s' : reports s !! (u, x) = None -> r_name r = "0" -> reports s' = <[(u, x) := r]> (reports s) ->
  open_count s' x = open_count s x + 1.
Proof.
  intros Hu Hr E. unfold open_count, open_reports. rewrite E, map_filter_insert_True by done.
  rewrite map_size_insert_None; [lia|]. rewrite map_lookup_filter_None. by left.
Qed.
Definition made (reason : option string) : report := MkReport "0" (match reason with Some EmptyString => None | _ => reason end).

(** The listings a report puts a thing into. *)
Definition report_qs (t : mthing) (r : report) : list listing :=
  reported_q t :: if match r_reason r with Some reason => py_in "spam" (py_lower reason) | None => false end then
    [match m_kind t with LinkK => ReportedLinks None | CommentK => ReportedComments None end] else [].

Lemma report_qs_reported t r q : q ∈ report_qs t r -> q ∈ reported_qs t.
Proof.
  unfold report_qs, reported_qs, reported_q. destruct (match r_reason r with Some _ => _ | None => _ end), (m_kind t);
    rewrite ?elem_of_cons, ?elem_of_nil; tauto.
Qed.

Lemma report_effect u x s t reason : things s !! x = Some t -> 0 <= reported t -> reports s !! (u, x) = None ->
  effect x s (set_reported (if negb (ignore_reports t) && _spam t then 0 else reported t + 1) t)
    (fun q => (x ∈ lists s q \/ (ignore_reports t = false /\ q ∈ report_qs t (made reason))) /\
              (ignore_reports t = false -> _spam t = true -> q ∉ reported_qs t))
    (if negb (ignore_reports t) && _spam t then 0 else open_count s x + 1) (report_new u x reason s).
Proof.
  intros Et Hn Hu. unfold report_new. rewrite Hu, Et. change (MkReport "0" _) with (made reason). set (t1 := set_reported (reported t + 1) t).
  set (s1 := update _ x s). set (s2 := with_reports _ s1). set (s3 := with_counts _ _ _ _ s2).
  assert (E3 : effect x s t1 (fun q => x ∈ lists s q) (open_count s x + 1) s3).
  { apply effect_same with (s1 := s2); [|by split]. split.
    - etransitivity; [apply (frame_update x (fun t => set_reported (reported t + 1) t))|]. split; [done..|].
      intros u' y Hy. cbn [s2 with_reports reports]. subst s2. cbn [reports with_reports]. rewrite lookup_insert_ne; [done|congruence].
    - unfold s2. cbn [things with_reports]. by apply (update_things (fun t => set_reported (reported t + 1) t) x s t).
    - done.
    - by eapply (open_insert s x u (made reason)).
    - done. }
  clearbody s3. destruct (ignore_reports t) eqn:Ei; cbn [negb andb].
  { eapply effect_iff; [exact E3|]. intros q. bool_facts. tauto. }
  set (s4 := new_report x u _ s3). assert (E4 : effect x s t1 (fun q => x ∈ lists s q \/ q ∈ report_qs t (made reason)) (open_count s x + 1) s4).
  { unfold s4, new_report. eapply effect_same with (s1 := mutate _ [] s3); [|by split].
    rewrite (for_one s3 x _ _ (e_thing _ _ _ _ _ _ E3)). cbn [t1 set_reported m_kind sr_id]. eapply effect_iff; [apply effect_mutate; [exact E3|..]|].
    - intros q y. cbn [t1 set_reported m_kind sr_id]. unfold t1. cbn [m_kind set_reported]. destruct (m_kind t); intros Hq%to_all_spec; tauto.
    - intros q y Hq. by apply elem_of_nil in Hq.
    - intros q. cbn beta. unfold t1, report_qs, reported_q. cbn [m_kind set_reported sr_id]. rewrite elem_of_nil.
      destruct (m_kind t); rewrite to_all_spec; tauto. }
  clearbody s4. destruct (_spam t) eqn:Es.
  - assert (E5 := accept_effect x s4 t1 true (e_thing _ _ _ _ _ _ E4)). unfold t1 in E5 at 1 2. cbn [reported set_reported] in E5.
    specialize (E5 ltac:(lia)). eapply effect_iff; [eapply effect_trans; [exact E4|exact E5]|]. intros q. unfold accepted_here.
    rewrite (e_lists _ _ _ _ _ _ E4). unfold t1. cbn [reported set_reported]. change (reported_qs (set_reported _ t)) with (reported_qs t).
    bool_facts. assert (0 < reported t + 1) by lia. tauto.
  - eapply effect_iff; [exact E4|]. intros q. bool_facts. tauto.
Qed.
(** ** The system *)

(** The things whose reports a moderator has ever ignored. *)
Context (ignored : gset string).

(** What anyone may do: writing, reporting, moderating by hand, and what the
    rules of a sub do to posts that are there. *)
Inductive step : mstate -> mstate -> Prop :=
  | step_submit now x sr a level_all domain s : things s !! x = None -> step s (submit now x sr a level_all domain s)
  | step_comment x sr a own_promo level_all s : things s !! x = None -> step s (comment x sr a own_promo level_all s)
  | step_report u x reason may s : step s (post_report u x reason may s)
  | step_remove now x who admin is_spam s : step s (post_remove now x who admin is_spam s)
  | step_approve now x who admin s : step s (post_approve now x who admin s)
  | step_ignore b x who s : x ∈ ignored -> step s (post_ignore b x who s)
  | step_edit x late s : step s (post_edit x late s)
  | step_del x s : step s (post_del x s)
  | step_ban authors s : step s (with_banned authors s)
  | step_auto_spam now x is_auto mb who train t s : things s !! x = Some t -> _deleted t = false -> step s (spam now [x] is_auto mb who train s)
  | step_auto_unspam now x mb who t s : things s !! x = Some t -> _deleted t = false -> step s (unspam now [x] mb who (_spam t) s)
  | step_auto_report u x reason t s : things s !! x = Some t -> _deleted t = false -> step s (report_new u x reason s).

Definition start : mstate := MState ∅ ∅ (fun _ => ∅) ∅ ∅ ∅ ∅ ∅ ∅ ∅ [].

Definition reachable (s : mstate) : Prop := rtc step start s.

(** ** The invariant *)

(** Where a thing that is not deleted is. *)
Record placed (x : string) (t : mthing) (here : listing -> Prop) : Prop := Placed {
  p_spam : here (spam_q t) <-> _spam t = true;
  p_filtered : here (filtered_q t) -> _spam t = true /\ auto_of t = true;
  p_to_filtered : exclude_banned_modqueue (sr_id t) = false -> _spam t = true -> auto_of t = true -> here (filtered_q t);
  p_reported : here (reported_q t) -> 0 < reported t /\ _spam t = false;
  p_to_reported : x ∉ ignored -> 0 < reported t -> _spam t = false /\ here (reported_q t)
}.

Record sound (x : string) (t : mthing) (n : Z) : Prop := Sound {
  d_promoted : promoted t = false;
  d_reported : 0 <= reported t;
  d_count : n = reported t;
  d_ignored : x ∉ ignored -> ignore_reports t = false
}.

Record inv_but (x : option string) (s : mstate) : Prop := Inv {
  i_sound y t : Some y <> x -> things s !! y = Some t -> sound y t (open_count s y);
  i_placed y t : Some y <> x -> things s !! y = Some t -> _deleted t = false -> placed y t (fun q => y ∈ lists s q);
  i_fresh y : things s !! y = None -> (forall q, y ∉ lists s q) /\ (forall u, reports s !! (u, y) = None)
}.

Notation inv := (inv_but None).

Lemma placed_iff x t here here' : (forall q, here q <-> here' q) -> placed x t here -> placed x t here'.
Proof. intros E [P1 P2 P3 P4 P5]. split; rewrite <- ?E; tauto. Qed.

(** An operation that leaves its thing sound and placed keeps the invariant. *)
Lemma effect_inv x s t' here n s' : inv_but (Some x) s -> effect x s t' here n s' -> sound x t' n -> (_deleted t' = false -> placed x t' here) -> inv s'.
Proof.
  intros [I1 I2 I3] [[F1 F2 F3] E2 E3 E4 E5] Hs Hp. assert (Hf : frame x s s') by by split.
  split.
  - intros y t _ Ey. destruct (decide (y = x)) as [-> | Hy].
    + rewrite E2 in Ey. injection Ey as <-. by rewrite E4.
    + rewrite (frame_open x s s') by done. rewrite F1 in Ey by done. apply I1; [congruence|done].
  - intros y t _ Ey Hd. destruct (decide (y = x)) as [-> | Hy].
    + rewrite E2 in Ey. injection Ey as <-. eapply placed_iff; [|by apply Hp]. intros q. by rewrite E3.
    + rewrite F1 in Ey by done. eapply placed_iff; [|apply I2; [|exact Ey|exact Hd]; congruence]. intros q. by rewrite F2.
  - intros y Ey. destruct (decide (y = x)) as [-> | Hy]; [congruence|]. rewrite F1 in Ey by done. destruct (I3 y Ey) as [I4 I5].
    split; [intros q; by rewrite F2|intros u; by rewrite F3].
Qed.

Lemma inv_but_of x s : inv s -> inv_but (Some x) s.
Proof. intros [I1 I2 I3]. split; [intros; by apply I1|intros; by apply I2|done]. Qed.

(** Whatever it leaves, the rest is as it was. *)
Lemma effect_inv_but x s t' here n s' : inv_but (Some x) s -> effect x s t' here n s' -> inv_but (Some x) s'.
Proof.
  intros [I1 I2 I3] [[F1 F2 F3] E2 E3 E4 E5]. assert (Hf : frame x s s') by by split. split.
  - intros y t Hy Ey. assert (y <> x) by congruence. rewrite (frame_open x s s') by done. rewrite F1 in Ey by done. by apply I1.
  - intros y t Hy Ey Hd. assert (y <> x) by congruence. rewrite F1 in Ey by done. eapply placed_iff; [|by apply I2]. intros q. by rewrite F2.
  - intros y Ey. destruct (decide (y = x)) as [-> | Hy]; [congruence|]. rewrite F1 in Ey by done. destruct (I3 y Ey) as [I4 I5].
    split; [intros q; by rewrite F2|intros u; by rewrite F3].
Qed.

Lemma same_inv s s' : same s s' -> inv s -> inv s'.
Proof.
  intros [E1 E2 E3 E4] [I1 I2 I3]. split.
  - intros y t Hy. rewrite E1. intros Ey. rewrite (open_count_ext s s' y y); [by apply I1|by intros; rewrite E3|done].
  - intros y t Hy. rewrite E1, E2. by apply I2.
  - intros y. rewrite E1, E2, E3. apply I3.
Qed.

Lemma spam_sound now x t is_auto mb who train n : sound x t n -> sound x (spam_thing now is_auto mb who train (set_reported 0 t)) 0.
Proof. intros [D1 D2 D3 D4]. by split. Qed.

Lemma spam_placed now x s t is_auto mb who train : placed x (spam_thing now is_auto mb who train (set_reported 0 t)) (spam_here s x t is_auto).
Proof.
  assert (Hq : reported_q t ∈ reported_qs t) by (unfold reported_q, reported_qs; destruct (m_kind t); by left).
  assert (Hd : spam_q t <> filtered_q t /\ reported_q t <> spam_q t /\ reported_q t <> filtered_q t)
    by (unfold spam_q, filtered_q, reported_q; by destruct (m_kind t)).
  split; change (spam_q (spam_thing now is_auto mb who train (set_reported 0 t))) with (spam_q t);
    change (filtered_q (spam_thing now is_auto mb who train (set_reported 0 t))) with (filtered_q t);
    change (reported_q (spam_thing now is_auto mb who train (set_reported 0 t))) with (reported_q t);
    cbn [_spam reported sr_id spam_thing set_removed set_reported]; unfold auto_of; cbn [m_ban spam_thing set_removed auto default from_option id].
  - split; [done|]. by left.
  - intros [Hf | [(Ha & _) | (_ & _ & _ & Hf)]]; [naive_solver|done|]. destruct is_auto; [done|]. by destruct (Hf eq_refl).
  - intros He _ Ha. right. left. split; [done|]. unfold excluded. by rewrite He.
  - intros [Hf | [(_ & _ & Hf) | (_ & Hf & _)]]; naive_solver.
  - lia.
Qed.

Lemma unspam_placed now x s t mb who : placed x t (fun q => x ∈ lists s q) ->
  placed x (unspam_thing now mb who (set_reported 0 t)) (unspam_here s x t (_spam t)).
Proof.
  intros [P1 P2 P3 P4 P5].
  assert (Hr : reported_q t ∈ reported_qs t) by (unfold reported_q, reported_qs; destruct (m_kind t); by left).
  assert (Hm : spam_q t ∈ mod_qs t /\ reported_q t ∈ mod_qs t) by (unfold mod_qs; rewrite !elem_of_app; split; [left; by left|right; left; exact Hr]).
  pose proof (restored_qs_other t) as Ho. split; change (spam_q (unspam_thing now mb who (set_reported 0 t))) with (spam_q t);
    change (filtered_q (unspam_thing now mb who (set_reported 0 t))) with (filtered_q t);
    change (reported_q (unspam_thing now mb who (set_reported 0 t))) with (reported_q t);
    cbn [_spam reported sr_id unspam_thing set_removed set_reported]; unfold unspam_here.
  - split; [|done]. intros ([[Hs _] | [_ Hs]] & _ & _ & Hi); [|naive_solver]. apply P1 in Hs. by destruct (Hi Hs).
  - naive_solver.
  - done.
  - intros ([[Hs Hi] | [_ Hs]] & _); [|naive_solver]. destruct (P4 Hs) as [Hn _]. by destruct (Hi Hn).
  - lia.
Qed.
(** What the bookkeeping of a handler leaves. *)
Ltac bookkeeping s := eapply effect_same with (s1 := s); [|by split].

Lemma effect_create x s t : things s !! x = None -> inv s -> inv_but (Some x) s /\ effect x s t (fun _ => False) 0 (create x t s).
Proof.
  intros E I. split; [by apply inv_but_of|]. destruct (i_fresh _ _ I x E) as [Hl Hr]. split.
  - split; [|done..]. intros y Hy. cbn [things create with_things]. unfold create. cbn [things with_things]. by rewrite lookup_insert_ne by done.
  - unfold create. cbn [things with_things]. by rewrite lookup_insert_eq.
  - intros q. split; [apply Hl|done].
  - unfold open_count, open_reports. assert (Ef : filter (fun kr : (Z * string) * report => kr.1.2 = x /\ r_name kr.2 = "0") (reports s) = ∅).
    { apply map_empty. intros [u y]. apply map_lookup_filter_None_2. right. intros r Hx [E1 _]. simpl in E1. subst y. by rewrite Hr in Hx. }
    unfold create. cbn [reports with_things]. rewrite Ef. done.
  - done.
Qed.

Lemma inv_spam now x is_auto mb who train s t : inv_but (Some x) s -> things s !! x = Some t -> sound x t (open_count s x) ->
  inv (spam now [x] is_auto mb who train s).
Proof.
  intros I E D. eapply effect_inv; [exact I|apply spam_effect; [exact E|apply D..]| |].
  - by eapply spam_sound.
  - intros _. apply spam_placed.
Qed.

Lemma inv_unspam now x mb who s t : inv s -> things s !! x = Some t -> _deleted t = false -> inv (unspam now [x] mb who (_spam t) s).
Proof.
  intros I E Hd. pose proof (i_sound _ _ I x t ltac:(done) E) as D. eapply effect_inv; [by apply inv_but_of|apply unspam_effect; [exact E|apply D]| |].
  - destruct D. by split.
  - intros _. apply unspam_placed. by apply (i_placed _ _ I).
Qed.

Lemma mod_qs_reported t : reported_q t ∈ reported_qs t /\ spam_q t ∉ reported_qs t /\ filtered_q t ∉ reported_qs t.
Proof.
  unfold spam_q, filtered_q, reported_q, reported_qs.
  destruct (m_kind t); (split; [by left|]); split; (intros [Hq | [Hq | Hq%elem_of_nil]%elem_of_cons]%elem_of_cons; done).
Qed.

Lemma report_qs_here t r : reported_q t ∈ report_qs t r /\ spam_q t ∉ report_qs t r /\ filtered_q t ∉ report_qs t r.
Proof.
  split; [by left|]. destruct (mod_qs_reported t) as (_ & H1 & H2). split; intros Hq%report_qs_reported; tauto.
Qed.

Lemma inv_report u x reason s t : inv s -> things s !! x = Some t -> _deleted t = false -> inv (report_new u x reason s).
Proof.
  intros I E Hd. destruct (reports s !! (u, x)) eqn:Er; [unfold report_new; by rewrite Er|].
  pose proof (i_sound _ _ I x t ltac:(done) E) as [D1 D2 D3 D4]. pose proof (i_placed _ _ I x t ltac:(done) E Hd) as [P1 P2 P3 P4 P5].
  eapply effect_inv; [by apply inv_but_of|apply report_effect; [exact E|exact D2|exact Er]| |].
  - destruct (ignore_reports t) eqn:Ei, (_spam t) eqn:Es; cbn [negb andb]; split; cbn [promoted reported ignore_reports set_reported]; try done; try lia; by rewrite Ei.
  - intros _. destruct (report_qs_here t (made reason)) as (H1 & H2 & H3).
    pose proof (mod_qs_reported t) as Hr.
    set (n := if negb (ignore_reports t) && _spam t then 0 else reported t + 1).
    split; change (spam_q (set_reported n t)) with (spam_q t); change (filtered_q (set_reported n t)) with (filtered_q t);
      change (reported_q (set_reported n t)) with (reported_q t); change (auto_of (set_reported n t)) with (auto_of t);
      cbn [_spam reported sr_id set_reported].
    + rewrite <- P1. tauto.
    + intros [[Hf | []] _]; tauto.
    + intros He Hs Ha. split; [left; by apply P3|tauto].
    + intros [[Hf | [Hi Hf]] Hno].
      * destruct (P4 Hf) as [Hn Hs]. unfold n. rewrite Hs, andb_false_r. split; [lia|done].
      * unfold n. rewrite Hi in *. cbn [negb andb]. destruct (_spam t) eqn:Es; [tauto|]. split; [lia|done].
    + intros Hx Hn. pose proof (D4 Hx) as Hi. unfold n in Hn. rewrite Hi in *. cbn [negb andb] in Hn. destruct (_spam t) eqn:Es; [lia|].
      split; [done|]. split; [right; tauto|done].
Qed.
(** Moving a thing about in listings that are not about removals or reports. *)
Lemma placed_mutate x t (here : listing -> Prop) (ins del : list (listing * string)) : placed x t here ->
  (forall q, (q, x) ∈ ins -> q <> reported_q t /\ (q = spam_q t -> _spam t = true) /\
    (q = filtered_q t -> _spam t = true /\ auto_of t = true)) ->
  (forall q, (q, x) ∈ del -> q <> reported_q t /\ q <> spam_q t /\ q <> filtered_q t) ->
  placed x t (fun q => (here q \/ (q, x) ∈ ins) /\ (q, x) ∉ del).
Proof.
  intros [P1 P2 P3 P4 P5] Hi Hd. split.
  - split; [intros [[?%P1 | Hs%Hi] _]; naive_solver|]. intros Hs. split; [left; by apply P1|]. intros Hq%Hd. naive_solver.
  - intros [[?%P2 | Hs%Hi] _]; naive_solver.
  - intros ???. split; [left; by apply P3|]. intros Hq%Hd. naive_solver.
  - intros [[?%P4 | Hs%Hi] _]; naive_solver.
  - intros Hx Hn. destruct (P5 Hx Hn). split; [done|]. split; [by left|]. intros Hq%Hd. naive_solver.
Qed.

Lemma inv_submit now x sr a level_all domain s : things s !! x = None -> inv s -> inv (submit now x sr a level_all domain s).
Proof.
  intros E I. unfold submit. set (banned := bool_decide _). set (t0 := MThing _ _ _ _ _ _ _ _ _ _).
  destruct (effect_create x s t0 E I) as [Ib E0]. set (s0 := create x t0 s) in *. clearbody s0.
  assert (D0 : sound x t0 0) by by split.
  set (s1 := if banned || level_all then _ else s0).
  assert (H1 : exists t here, effect x s t here 0 s1 /\ sound x t 0 /\ placed x t here /\ m_kind t = LinkK).
  { unfold s1. destruct (banned || level_all) eqn:El.
    - eexists _, _. split; [eapply effect_trans; [exact E0|apply spam_effect; [apply E0|done..]]|].
      split; [by eapply spam_sound|]. split; [apply spam_placed|done].
    - exists t0, (fun _ => False). split; [exact E0|]. split; [done|]. split; [|done].
      split; unfold t0; cbn [_spam reported]; rewrite ?El; first [done|lia]. }
  clearbody s1. destruct H1 as (t1 & here1 & E1 & D1 & P1 & K1).
  set (s2 := match domain with Some _ => _ | None => s1 end).
  assert (H2 : exists t here, effect x s t here 0 s2 /\ sound x t 0 /\ placed x t here /\ m_kind t = LinkK).
  { unfold s2. destruct domain as [why|]; [|by exists t1, here1].
    eexists _, _. split; [eapply effect_trans; [exact E1|apply spam_effect; [apply E1|apply D1..]]|].
    split; [by eapply spam_sound|]. split; [apply spam_placed|exact K1]. }
  clearbody s2. destruct H2 as (t2 & here2 & E2 & D2 & P2 & K2). unfold new_link. set (ins := for_things s2 [x] _).
  eapply effect_inv; [exact Ib|bookkeeping (mutate ins [] s2); apply effect_mutate; [exact E2|..]|exact D2|].
  - intros q y. unfold ins. rewrite (for_one s2 x t2) by apply E2. intros Hq%to_all_spec. tauto.
  - intros q y Hq. by apply elem_of_nil in Hq.
  - intros _. apply placed_mutate; [exact P2| |intros q Hq; by apply elem_of_nil in Hq].
    intros q. unfold ins. rewrite (for_one s2 x t2) by apply E2. rewrite to_all_spec. intros [_ Hq]. unfold reported_q, spam_q, filtered_q.
    rewrite K2. rewrite !elem_of_app, !elem_of_cons, elem_of_nil in Hq. destruct Hq as [Hq | [Hq | [-> | [-> | []]]]]; [| |done|done].
    + destruct (_spam t2); [apply list_elem_of_singleton in Hq as ->; naive_solver|by apply elem_of_nil in Hq].
    + destruct (excluded s2 t2); [by apply elem_of_nil in Hq|apply list_elem_of_singleton in Hq as ->; naive_solver].
Qed.

Lemma inv_comment x sr a own_promo level_all s : things s !! x = None -> inv s -> inv (comment x sr a own_promo level_all s).
Proof.
  intros E I. unfold comment. set (sp := negb own_promo && _). set (t0 := MThing _ _ _ _ _ _ _ _ _ _).
  destruct (effect_create x s t0 E I) as [Ib E0]. set (s0 := create x t0 s) in *. clearbody s0. unfold new_comment. rewrite (e_thing _ _ _ _ _ _ E0).
  change (_deleted t0) with false. cbv zeta iota. set (ins := _ ++ to_all [UserComments _ _ _] x).
  assert (Hx : forall q y, (q, y) ∈ ins -> y = x).
  { intros q y. unfold ins. rewrite elem_of_app. destruct (_spam t0); rewrite !to_all_spec, ?elem_of_nil; tauto. }
  eapply effect_inv; [exact Ib|bookkeeping (mutate ins [] s0); apply effect_mutate; [exact E0|exact Hx|intros q y Hq; by apply elem_of_nil in Hq]|by split|].
  intros _. destruct (_spam t0) eqn:Es; unfold ins; rewrite ?Es; cbn [app].
  - assert (Hw : was_spam_filtered t0 = true) by (unfold was_spam_filtered; rewrite Es; done). rewrite Hw.
    split; change (spam_q t0) with (SpamComments sr); change (filtered_q t0) with (SpamFilteredComments sr); change (reported_q t0) with (ReportedComments (Some sr)).
    + split; [done|]. intros _. split; [right|by intros ?%elem_of_nil]. rewrite elem_of_app, to_all_spec. left. split; [done|by left].
    + done.
    + intros He _ _. split; [right|by intros ?%elem_of_nil]. rewrite elem_of_app, to_all_spec. left. split; [done|].
      unfold excluded. rewrite He. right. by left.
    + intros [[[] | Hq] _]. rewrite elem_of_app, !to_all_spec in Hq. destruct Hq as [[_ Hq] | [_ Hq]].
      * apply elem_of_cons in Hq as [Hq | Hq]; [done|]. cbn [andb] in Hq.
        destruct (negb (excluded s0 t0)); [by apply list_elem_of_singleton in Hq|by apply elem_of_nil in Hq].
      * apply list_elem_of_singleton in Hq. done.
    + cbn. lia.
  - apply placed_mutate; [split; rewrite ?Es; first [done|cbn; lia]| |intros q Hq; by apply elem_of_nil in Hq].
    intros q [_ Hq]%to_all_spec. apply list_elem_of_singleton in Hq as ->. unfold reported_q, spam_q, filtered_q. done.
Qed.
Lemma same_remove_sticky sr x who s : same s (remove_sticky sr x who s).
Proof. unfold remove_sticky. destruct (bool_decide _); by split. Qed.

Lemma inv_remove now x who admin is_spam s : inv s -> inv (post_remove now x who admin is_spam s).
Proof.
  intros I. unfold post_remove. destruct (things s !! x) as [t|] eqn:E; [|done]. destruct (promoted t || _deleted t) eqn:Eg; [done|].
  pose proof (i_sound _ _ I x t ltac:(done) E) as D. set (s1 := if _spam t && negb is_spam then _ else s).
  assert (H1 : inv_but (Some x) s1 /\ exists t1, things s1 !! x = Some t1 /\ sound x t1 (open_count s1 x) /\ m_kind t1 = m_kind t).
  { unfold s1. destruct (_spam t && negb is_spam); [|split; [by apply inv_but_of|by exists t]].
    pose proof (unspam_effect now x s t true (Some who) false E ltac:(apply D)) as Eu. set (s' := unspam _ _ _ _ _ _) in *.
    pose proof (effect_inv_but x s _ _ 0 s' (inv_but_of x s I) Eu) as Ib. split; [exact Ib|]. eexists. split; [apply Eu|].
    rewrite (e_open _ _ _ _ _ _ Eu). split; [destruct D; by split|done]. }
  destruct H1 as (I1 & t1 & E1 & D1 & K1). cbv zeta. set (s2 := spam _ _ _ _ _ _ s1).
  assert (I2 : inv s2) by by eapply inv_spam. clearbody s2. destruct (m_kind t); [|eapply same_inv; [|exact I2]; by split].
  eapply same_inv; [|exact I2]. etransitivity; [|apply same_remove_sticky]. by split.
Qed.

Lemma inv_approve now x who admin s : inv s -> inv (post_approve now x who admin s).
Proof.
  intros I. unfold post_approve. destruct (things s !! x) as [t|] eqn:E; [|done]. destruct (_deleted t) eqn:Ed; [done|]. cbv zeta.
  pose proof (inv_unspam now x (negb admin) (Some who) s t I E Ed) as I1. set (s1 := unspam _ _ _ _ _ _) in *.
  clearbody s1. eapply same_inv; [|exact I1]. destruct (m_kind t), (_spam t); by split.
Qed.

Lemma inv_set_ignore b x s t : inv s -> things s !! x = Some t -> (x ∉ ignored -> b = false) -> inv (update (set_ignore b) x s).
Proof.
  intros I E Hb. pose proof (i_sound _ _ I x t ltac:(done) E) as D.
  eapply effect_inv; [by apply inv_but_of|apply effect_update, effect_start; exact E| |].
  - destruct D. by split.
  - intros Hd. destruct (i_placed _ _ I x t ltac:(done) E Hd) as [P1 P2 P3 P4 P5].
    split; [exact P1|exact P2|exact P3|exact P4|exact P5].
Qed.

Lemma inv_edit x s : inv s -> inv (edit x s).
Proof.
  intros I. unfold edit. destruct (things s !! x) as [t|] eqn:E.
  - set (q := for_things s [x] _). assert (Hq : forall l y, (l, y) ∈ q -> y = x /\ l <> reported_q t /\ l <> spam_q t /\ l <> filtered_q t).
    { intros l y. unfold q. rewrite (for_one s x t) by done. intros [= -> ->]%list_elem_of_singleton.
      unfold reported_q, spam_q, filtered_q. by destruct (m_kind t). }
    eapply effect_inv; [apply inv_but_of, I| |exact (i_sound _ _ I x t ltac:(done) E)|].
    + apply effect_mutate; [apply effect_mutate; [by apply effect_start|..]|..]; intros l y Hl; first [by apply elem_of_nil in Hl|by apply Hq in Hl as [-> _]].
    + intros Hd. apply placed_mutate; [apply placed_mutate; [exact (i_placed _ _ I x t ltac:(done) E Hd)|..]|..];
        intros l Hl; try (by apply elem_of_nil in Hl); apply Hq in Hl as (_ & ? & ? & ?); naive_solver.
  - assert (Eq : forall f, for_things s [x] f = []) by (intros f; unfold for_things; simpl; by rewrite E).
    rewrite Eq. eapply same_inv; [|exact I]. by split.
Qed.

Lemma inv_del x s : inv s -> inv (post_del x s).
Proof.
  intros I. unfold post_del. destruct (things s !! x) as [t|] eqn:E; [|done]. pose proof (i_sound _ _ I x t ltac:(done) E) as D. cbv zeta.
  assert (E1 : effect x s (set_deleted t) (fun q => x ∈ lists s q) (open_count s x) (emit [Index x] (update set_deleted x s)))
    by (bookkeeping (update set_deleted x s); apply effect_update, effect_start; exact E).
  set (s1 := emit _ _) in *. clearbody s1.
  assert (Hdel : forall s2 here, effect x s (set_deleted t) here (open_count s x) s2 ->
    exists here', effect x s (set_deleted t) here' (open_count s x) (delete_things [x] s2)).
  { intros s2 here E2. unfold delete_things, _common_del_ban. eexists. set (ins := for_things s2 [x] _). set (del := _ ++ _).
    bookkeeping (mutate ins del s2). apply effect_mutate; [exact E2|..]; intros q y; unfold ins, del;
      rewrite ?elem_of_app, !(for_one s2 x _ _ (e_thing _ _ _ _ _ _ E2)); destruct (m_kind _); rewrite ?to_all_spec;
      [intros [= _ ->]%list_elem_of_singleton; done..|tauto|tauto]. }
  assert (Hfin : forall s2 here, effect x s (set_deleted t) here (open_count s x) s2 -> inv s2).
  { intros s2 here E2. eapply effect_inv; [by apply inv_but_of|exact E2|destruct D; by split|done]. }
  destruct (m_kind t).
  - destruct (Hdel (emit [Queue "deleted_link" x] s1) _ ltac:(eapply effect_same; [exact E1|by split])) as [h E2].
    eapply same_inv; [apply same_remove_sticky|]. by eapply Hfin.
  - assert (E2 : exists here, effect x s (set_deleted t) here (open_count s x) (new_comment x (emit [UnstickyComment x] s1))).
    { unfold new_comment. cbn [things emit]. unfold emit at 1. cbn [things]. rewrite (e_thing _ _ _ _ _ _ E1). cbn [_deleted set_deleted].
      eexists. apply effect_mutate; [eapply effect_same; [exact E1|by split]|intros q y Hq; by apply elem_of_nil in Hq|].
      intros q y Hq%to_all_spec. tauto. }
    destruct E2 as [h2 E2].
    destruct (Hdel (emit [Unnotify x; Queue "deleted_comment" x] (new_comment x (emit [UnstickyComment x] s1))) h2
      ltac:(eapply effect_same; [exact E2|by split])) as [h E3]. by eapply Hfin.
Qed.

Lemma moderation_step_inv s s' : inv s -> step s s' -> inv s'.
Proof.
  intros I Hs. destruct Hs.
  - by apply inv_submit.
  - by apply inv_comment.
  - unfold post_report. destruct (things s !! x) as [t|] eqn:E; [|done]. destruct (_deleted t) eqn:Ed, may; cbn [negb orb]; try done. by eapply inv_report.
  - by apply inv_remove.
  - by apply inv_approve.
  - unfold post_ignore. destruct (things s !! x) as [t|] eqn:E; [|done]. destruct (_deleted t || _); [done|].
    eapply same_inv; [|eapply (inv_set_ignore b); [exact I|exact E|done]]. by split.
  - unfold post_edit. destruct (things s !! x) as [t|] eqn:E; [|done]. destruct (_deleted t); [done|]. cbv zeta.
    assert (I1 : inv (update (set_ignore false) x s)) by by eapply inv_set_ignore.
    set (s1 := update _ x s) in *. clearbody s1. apply (same_inv (if late then edit x s1 else s1)); [by destruct late; split|].
    destruct late; [by apply inv_edit|exact I1].
  - by apply inv_del.
  - destruct I as [I1 I2 I3]. split; [exact I1|exact I2|exact I3].
  - eapply inv_spam; [by apply inv_but_of|done|]. by apply (i_sound _ _ I).
  - by apply inv_unspam.
  - by eapply inv_report.
Qed.

Lemma moderation_reachable_inv s : reachable s -> inv s.
Proof.
  intros Hs. assert (I0 : inv start) by (split; [by intros y t _|by intros y t _|by split; [intros q ?%elem_of_empty|]]).
  unfold reachable in Hs. induction Hs as [s|s s1 s2 Hs _ IH]; [done|]. apply IH. by eapply moderation_step_inv.
Qed.
(** ** What moderators see *)

(** [get_modqueue] of the sub of a thing. *)
Definition in_modqueue (s : mstate) (x : string) (t : mthing) : Prop := x ∈ lists s (reported_q t) \/ x ∈ lists s (filtered_q t).

(** C9. Of the posts that are not deleted and whose reports were never ignored,
    the moderation queue of a sub that leaves no author out holds exactly those
    that are reported and not removed, or were removed by a filter and not by a
    person. *)
Theorem modqueue_exact s x t :
  reachable s -> things s !! x = Some t -> _deleted t = false -> exclude_banned_modqueue (sr_id t) = false -> x ∉ ignored ->
  in_modqueue s x t <-> (0 < reported t /\ _spam t = false) \/ (_spam t = true /\ auto_of t = true).
Proof.
  intros Hs E Hd He Hx. destruct (i_placed _ _ (moderation_reachable_inv s Hs) x t ltac:(done) E Hd) as [P1 P2 P3 P4 P5]. unfold in_modqueue.
  split; [naive_solver|]. intros [[Hn _] | [Hsp Ha]]; [left; by apply P5|right; by apply P3].
Qed.

(** C27. Whatever happens, the count of reports of a post is the number of its
    reports nobody has decided on; a removed post that is not deleted and whose
    reports were never ignored has none. *)
Theorem reports_counted s x t : reachable s -> things s !! x = Some t ->
  reported t = open_count s x /\ (x ∉ ignored -> _deleted t = false -> _spam t = true -> reported t = 0).
Proof.
  intros Hs E. pose proof (moderation_reachable_inv s Hs) as I. destruct (i_sound _ _ I x t ltac:(done) E) as [D1 D2 D3 D4]. split; [done|].
  intros Hx Hd Hsp. destruct (i_placed _ _ I x t ltac:(done) E Hd) as [P1 P2 P3 P4 P5].
  destruct (decide (0 < reported t)) as [Hn|]; [|lia]. destruct (P5 Hx Hn). congruence.
Qed.

(** The spam listing of a sub and its removed posts are the same, and a post
    waiting in the filtered listing was removed by no person, in every sub. *)
Theorem spam_listing_exact s x t : reachable s -> things s !! x = Some t -> _deleted t = false ->
  (x ∈ lists s (spam_q t) <-> _spam t = true) /\ (x ∈ lists s (filtered_q t) -> _spam t = true /\ auto (m_ban t) <> Some false).
Proof.
  intros Hs E Hd. destruct (i_placed _ _ (moderation_reachable_inv s Hs) x t ltac:(done) E Hd) as [P1 P2 P3 P4 P5]. split; [done|].
  intros Hf. destruct (P2 Hf) as [Hsp Ha]. split; [done|]. unfold auto_of in Ha. by destruct (auto (m_ban t)) as [[]|].
Qed.

(** Removing a link by hand takes it out of the listings of its sub in every
    order and range of time, and out of the queues; approving it later brings it
    back to the listings of all time. *)
Theorem remove_then_approve now later x who who' admin admin' s t :
  reachable s -> things s !! x = Some t -> m_kind t = LinkK -> _deleted t = false ->
  let s1 := post_remove now x who admin true s in let s2 := post_approve later x who' admin' s1 in
  (forall q, q ∈ sorted_results (Links (sr_id t)) -> x ∉ lists s1 q) /\ ~ in_modqueue s1 x t /\ x ∈ lists s1 (spam_q t) /\
  (forall sort, sort ∈ "hot" :: "new" :: time_filtered_sorts -> x ∈ lists s2 (Links (sr_id t) sort "all")) /\
  ~ in_modqueue s2 x t /\ x ∉ lists s2 (spam_q t).
Proof.
  intros Hs E K Hd. cbv zeta. pose proof (i_sound _ _ (moderation_reachable_inv s Hs) x t ltac:(done) E) as [D1 D2 D3 D4].
  set (t1 := spam_thing now false (negb admin) (Some who) (negb (_spam t) && true) (set_reported 0 t)).
  assert (E1 : effect x s t1 (spam_here s x t false) 0 (post_remove now x who admin true s)).
  { unfold post_remove. rewrite E, D1, Hd, andb_false_r. cbn [orb negb]. cbv zeta. rewrite K.
    eapply effect_same; [|apply same_remove_sticky]. eapply effect_same; [|apply same_emit].
    unfold t1. by apply spam_effect. }
  set (s1 := post_remove _ _ _ _ _ _) in *. clearbody s1.
  assert (E2 : effect x s1 (unspam_thing later (negb admin') (Some who') (set_reported 0 t1)) (unspam_here s1 x t1 true) 0 (post_approve later x who' admin' s1)).
  { unfold post_approve. rewrite (e_thing _ _ _ _ _ _ E1). assert (Ht : _deleted t1 = false /\ m_kind t1 = LinkK /\ _spam t1 = true) by by split.
    destruct Ht as (-> & -> & ->). cbv zeta. eapply effect_same; [|apply same_emit]. apply unspam_effect; [apply E1|done]. }
  set (s2 := post_approve _ _ _ _ _) in *. clearbody s2.
  pose proof (mod_qs_reported t) as (R1 & R2 & R3). assert (Hso : forall q, q ∈ sorted_results (Links (sr_id t)) -> q ∈ sorted_qs t)
    by (intros q; unfold sorted_qs; by rewrite K).
  assert (Hneq : spam_q t <> filtered_q t /\ reported_q t <> spam_q t /\ reported_q t <> filtered_q t) by (unfold spam_q, filtered_q, reported_q; by rewrite K).
  assert (Hmod : forall q, q ∈ sorted_qs t -> q <> spam_q t /\ q <> filtered_q t).
  { intros q Hq%sorted_qs_other. unfold mod_qs in Hq. rewrite !elem_of_app, !elem_of_cons in Hq. tauto. }
  unfold in_modqueue. rewrite !(e_lists _ _ _ _ _ _ E1), !(e_lists _ _ _ _ _ _ E2). unfold spam_here, unspam_here.
  change (spam_q t1) with (spam_q t). change (filtered_q t1) with (filtered_q t). change (reported_qs t1) with (reported_qs t).
  change (restored_qs t1) with (restored_qs t). change (unmoderated_qs t1) with (unmoderated_qs t).
  pose proof (restored_qs_other t) as Hro. assert (Hm : spam_q t ∈ mod_qs t /\ reported_q t ∈ mod_qs t)
    by (unfold mod_qs; rewrite !elem_of_app; split; [left; by left|right; left; exact R1]).
  repeat split.
  - intros q Hq. rewrite (e_lists _ _ _ _ _ _ E1). specialize (Hso q Hq). specialize (Hmod q Hso). unfold spam_here. naive_solver.
  - naive_solver.
  - by left.
  - intros sort Hsort. rewrite (e_lists _ _ _ _ _ _ E2). assert (Hr : Links (sr_id t) sort "all" ∈ restored_qs t).
    { unfold restored_qs. rewrite K. apply elem_of_cons in Hsort as [-> | [-> | Hsort]%elem_of_cons].
      - right. apply list_elem_of_fmap. eexists. split; [reflexivity|by left].
      - by left.
      - right. apply list_elem_of_fmap. eexists. split; [reflexivity|by right]. }
    pose proof (Hro _ Hr) as Hno. unfold mod_qs in Hno. rewrite !elem_of_app, !elem_of_cons in Hno.
    unfold unspam_here. split; [by right|]. change (filtered_q t1) with (filtered_q t). change (spam_q t1) with (spam_q t).
    change (unmoderated_qs t1) with (unmoderated_qs t). naive_solver.
  - intros [([[Hq _] | [_ Hq]] & _) | (_ & Hq & _)]; [|apply Hro in Hq; tauto|tauto]. apply (e_lists _ _ _ _ _ _ E1) in Hq. revert Hq. unfold spam_here. naive_solver.
  - naive_solver.
Qed.
End config.
End ModerationProps.
