(* ===== verification/ModerationExamples.v ===== *)
(** * Moderation: examples

    The theorems of [ModerationProps.v] on the history of a small sub, and runs
    of the handlers that show what the listings miss. *)

From stdpp Require Import functions.
From S2P Require Import Prelude PyString Moderation ModerationProps.

Module ModerationExamples.
Import PyString Moderation ModerationProps.

#[local] Instance config : ModConfig := { exclude_banned_modqueue _ := false; voting_upvote_path := "top"; voting_controversial_path := "controversial" }.

(** A link is made in the sub 7, and someone reports it. *)
Definition s1 : mstate := submit 100 "t3_1" 7 50 false None start.
Definition s2 : mstate := post_report 60 "t3_1" (Some "spam!") true s1.

(** A moderator removes it. *)
Definition s3 : mstate := post_remove 200 "t3_1" "mod" false true s2.

(** A link of a banned author is filtered. *)
Definition s4 : mstate := submit 300 "t3_2" 7 51 false None (with_banned {[51]} s3).

Lemma reachable_s1 : reachable ∅ s1.
Proof. apply rtc_once. by apply step_submit. Qed.

Lemma reachable_s2 : reachable ∅ s2.
Proof. eapply rtc_r; [apply reachable_s1|]. apply step_report. Qed.

Lemma reachable_s4 : reachable ∅ s4.
Proof.
  eapply rtc_r; [eapply rtc_r; [eapply rtc_r; [apply reachable_s2|]|]|].
  - apply (step_remove _ 200 "t3_1" "mod" false true).
  - apply (step_ban _ {[51]}).
  - by apply step_submit.
Qed.

Definition nothing : mthing := MThing LinkK 0 0 false false None no_ban 0 false false.
Definition thing_of (x : string) (s : mstate) : mthing := default nothing (things s !! x).

(** ** The properties there *)

(** The reported link waits for a moderator, and the filtered one. *)
Lemma modqueue_exact_witness :
  in_modqueue s2 "t3_1" (thing_of "t3_1" s2) /\ in_modqueue s4 "t3_2" (thing_of "t3_2" s4) /\ ~ in_modqueue s4 "t3_1" (thing_of "t3_1" s4).
Proof.
  pose proof (modqueue_exact ∅ s2 "t3_1" (thing_of "t3_1" s2) reachable_s2 ltac:(by vm_compute) ltac:(by vm_compute) ltac:(done)
    ltac:(by intros ?%elem_of_empty)) as H2.
  pose proof (modqueue_exact ∅ s4 "t3_2" (thing_of "t3_2" s4) reachable_s4 ltac:(by vm_compute) ltac:(by vm_compute) ltac:(done)
    ltac:(by intros ?%elem_of_empty)) as H4.
  pose proof (modqueue_exact ∅ s4 "t3_1" (thing_of "t3_1" s4) reachable_s4 ltac:(by vm_compute) ltac:(by vm_compute) ltac:(done)
    ltac:(by intros ?%elem_of_empty)) as H5.
  split; [|split].
  - apply H2. left. split; vm_compute; done.
  - apply H4. right. split; vm_compute; done.
  - rewrite H5. intros [[Hn _] | [_ Ha]]; vm_compute in Hn || vm_compute in Ha; done.
Defined.

Lemma reports_counted_witness :
  reported (thing_of "t3_1" s2) = open_count s2 "t3_1" /\ reported (thing_of "t3_1" s4) = 0.
Proof.
  split; [apply (reports_counted ∅ s2 "t3_1" (thing_of "t3_1" s2) reachable_s2); by vm_compute|].
  apply (reports_counted ∅ s4 "t3_1" (thing_of "t3_1" s4) reachable_s4); [by vm_compute|by intros ?%elem_of_empty|by vm_compute..].
Defined.

Lemma spam_listing_exact_witness : "t3_1" ∈ lists s4 (SpamLinks 7) /\ "t3_1" ∉ lists s2 (SpamLinks 7).
Proof.
  pose proof (spam_listing_exact ∅ s4 "t3_1" (thing_of "t3_1" s4) reachable_s4 ltac:(by vm_compute) ltac:(by vm_compute)) as [H4 _].
  pose proof (spam_listing_exact ∅ s2 "t3_1" (thing_of "t3_1" s2) reachable_s2 ltac:(by vm_compute) ltac:(by vm_compute)) as [H2 _].
  split; [by apply H4; vm_compute|]. intros Hin. apply H2 in Hin. by vm_compute in Hin.
Defined.

Lemma remove_then_approve_witness :
  let s' := post_approve 400 "t3_1" "mod" false (post_remove 350 "t3_1" "mod" false true s2) in
  "t3_1" ∈ lists s' (Links 7 "hot" "all") /\ "t3_1" ∉ lists s' (SpamLinks 7).
Proof.
  pose proof (remove_then_approve ∅ 350 400 "t3_1" "mod" "mod" false false s2 (thing_of "t3_1" s2) reachable_s2
    ltac:(by vm_compute) ltac:(by vm_compute) ltac:(by vm_compute)) as (_ & _ & _ & Hhot & _ & Hsp).
  split; [apply Hhot; by left|exact Hsp].
Defined.

(** ** What the handlers miss *)

(** An automatic removal is put in the queue of automatic removals twice. *)
Example auto_removed_twice : List.filter (fun e => match e with Queue "auto_removed" _ => true | _ => false end) (log s4) =
  [Queue "auto_removed" "t3_2"; Queue "auto_removed" "t3_2"].
Proof. vm_compute. done. Qed.

(** The report a moderator agreed with leaves the listing of who made it; the
    query of that listing keeps every kind of report. *)
Example accepted_report_unlisted :
  (60, "t3_1") ∈ user_reported s2 /\ (60, "t3_1") ∉ user_reported s3 /\ (r_name <$> reports s3 !! (60, "t3_1")) = Some "1".
Proof.
  split; [|split; [|by vm_compute]].
  - apply (bool_decide_eq_true_1 _). by vm_compute.
  - apply (bool_decide_eq_false_1 _). by vm_compute.
Qed.

(** Approving links of two subs at once indexes those of the last one only. *)
Example approval_of_two_subs :
  let s := unspam 500 ["t3_2"; "t3_3"] true (Some "mod") true (submit 310 "t3_3" 8 51 false None s4) in
  last (log s) = Some (Index "t3_3") /\
  List.filter (fun e => match e with Index _ => true | _ => false end) (drop (length (log (submit 310 "t3_3" 8 51 false None s4))) (log s)) = [Index "t3_3"].
Proof. vm_compute. done. Qed.

(** Reports that came while they were ignored are counted, but no listing shows
    them once they are not ignored any more. *)
Example ignored_reports_missing :
  let s := post_ignore false "t3_1" "mod" (post_report 61 "t3_1" None true (post_ignore true "t3_1" "mod" s1)) in
  reported (thing_of "t3_1" s) = 1 /\ bool_decide ("t3_1" ∈ lists s (ReportedLinks (Some 7))) = false.
Proof. vm_compute. done. Qed.
End ModerationExamples.
