(* ===== verification/Regex.v ===== *)
(** * Regular expressions

    The part of Python's module [re] that the rules of lib/automoderator.py
    use: a backtracking matcher in the order of Python's, over the pieces of
    which the patterns are built.  Characters are code points below 256. *)

From S2P Require Import Prelude PyString.
From Stdlib Require Import Ascii.

Module Regex.
Import PyString.

(** ** Characters *)

(** [\w] of a unicode pattern. *)
Definition is_word (a : ascii) : bool :=
  let n := nat_of_ascii a in
  ((48 <=? n)%nat && (n <=? 57)%nat) || ((65 <=? n)%nat && (n <=? 90)%nat) || (n =? 95)%nat || ((97 <=? n)%nat && (n <=? 122)%nat) ||
  bool_decide (n ∈ [170; 178; 179; 181; 185; 186; 188; 189; 190]%nat) ||
  ((192 <=? n)%nat && negb (n =? 215)%nat && negb (n =? 247)%nat).

(** Lower case of a unicode character. *)
Definition fold_char (a : ascii) : ascii :=
  let n := nat_of_ascii a in
  if ((65 <=? n)%nat && (n <=? 90)%nat) || ((192 <=? n)%nat && (n <=? 222)%nat && negb (n =? 215)%nat) then ascii_of_nat (n + 32) else a.

Definition newline : ascii := "010".

Fixpoint chars (s : string) : list ascii := match s with EmptyString => [] | String a s => a :: chars s end.
Fixpoint text (l : list ascii) : string := match l with [] => EmptyString | a :: l => String a (text l) end.

(** ** Expressions *)

Inductive cclass := NonWord | AnyChar.

(** The group is the only one; a repetition is of one character. *)
Inductive regex :=
  | RLit (s : list ascii)
  | RClass (c : cclass)
  | RStar (greedy : bool) (c : cclass)
  | RBegin | REnd | RBoundary
  | REmpty
  | RSeq (a b : regex)
  | RAlt (a b : regex)
  | RGroup (a : regex).

Definition in_class (c : cclass) (a : ascii) : bool := match c with NonWord => negb (is_word a) | AnyChar => true end.

Definition same_char (ignore_case : bool) (a b : ascii) : bool := if ignore_case then Ascii.eqb (fold_char a) (fold_char b) else Ascii.eqb a b.

(** A place in a text: what is before it, from the nearest, and after it; and
    what the group has matched. *)
Record place := Place { before : list ascii; after : list ascii; group1 : option string }.

Fixpoint match_lit (ic : bool) (s : list ascii) (p : place) : option place :=
  match s with
  | [] => Some p
  | a :: s => match after p with b :: l => if same_char ic a b then match_lit ic s (Place (b :: before p) l (group1 p)) else None | [] => None end
  end.

Fixpoint match_star (greedy : bool) (c : cclass) (l : list ascii) (b : list ascii) (g : option string) : list place :=
  match l with
  | a :: l' =>
      if in_class c a then
        if greedy then match_star greedy c l' (a :: b) g ++ [Place b l g] else Place b l g :: match_star greedy c l' (a :: b) g
      else [Place b l g]
  | [] => [Place b l g]
  end.

Definition word_at (l : list ascii) : bool := match l with a :: _ => is_word a | [] => false end.

(** [$]: at the end, or before a newline there. *)
Definition at_end (l : list ascii) : bool := match l with [] => true | [a] => Ascii.eqb a newline | _ => false end.

(** The ways to match, in the order they are tried. *)
Fixpoint rmatch (ic : bool) (r : regex) (p : place) : list place :=
  match r with
  | RLit s => option_list (match_lit ic s p)
  | RClass c => match after p with a :: l => if in_class c a then [Place (a :: before p) l (group1 p)] else [] | [] => [] end
  | RStar greedy c => match_star greedy c (after p) (before p) (group1 p)
  | RBegin => match before p with [] => [p] | _ => [] end
  | REnd => if at_end (after p) then [p] else []
  | RBoundary => if xorb (word_at (before p)) (word_at (after p)) then [p] else []
  | REmpty => [p]
  | RSeq a b => p' ← rmatch ic a p; rmatch ic b p'
  | RAlt a b => rmatch ic a p ++ rmatch ic b p
  | RGroup a => (fun p' => Place (before p') (after p') (Some (text (take (length (after p) - length (after p')) (after p))))) <$> rmatch ic a p
  end.

(** A match object: the text of each group, the whole match first. *)
Notation match_object := (list (option string)).

Definition match_at (ic : bool) (r : regex) (b a : list ascii) : option match_object :=
  match rmatch ic r (Place b a None) with
  | p :: _ => Some [Some (text (take (length a - length (after p)) a)); group1 p]
  | [] => None
  end.

(** [search]: the first place from the left. *)
Fixpoint search_from (ic : bool) (r : regex) (b a : list ascii) : option match_object :=
  match match_at ic r b a with
  | Some m => Some m
  | None => match a with [] => None | c :: a' => search_from ic r (c :: b) a' end
  end.

Definition search (ic : bool) (r : regex) (s : string) : option match_object := search_from ic r [] (chars s).

(** ** Where a search succeeds *)

Definition same_text (ic : bool) (u v : list ascii) : Prop := Forall2 (fun a b => same_char ic a b = true) u v.

Lemma search_some ic r s : search ic r s <> None <-> exists pre post, chars s = pre ++ post /\ rmatch ic r (Place (reverse pre) post None) <> [].
Proof.
  unfold search. assert (H : forall a b, search_from ic r b a <> None <->
    exists pre post, a = pre ++ post /\ rmatch ic r (Place (reverse pre ++ b) post None) <> []).
  { induction a as [|c a IH]; intros b; cbn [search_from]; unfold match_at.
    - destruct (rmatch ic r (Place b [] None)) as [|p l] eqn:E.
      + split; [done|]. intros (pre & post & E1 & E2). symmetry in E1. apply app_eq_nil in E1 as [-> ->]. done.
      + split; [|done]. intros _. exists [], []. split; [done|]. change (reverse [] ++ b) with b. by rewrite E.
    - destruct (rmatch ic r (Place b (c :: a) None)) as [|p l] eqn:E.
      + rewrite IH. split.
        * intros (pre & post & -> & E2). exists (c :: pre), post. split; [done|]. by rewrite reverse_cons, <- app_assoc.
        * intros (pre & post & E1 & E2). destruct pre as [|c' pre]; [simpl in E1; subst post; done|].
          injection E1 as -> ->. exists pre, post. split; [done|]. by rewrite reverse_cons, <- app_assoc in E2.
      + split; [|done]. intros _. exists [], (c :: a). split; [done|]. change (reverse [] ++ b) with b. by rewrite E. }
  rewrite H. split; intros (pre & post & E1 & E2); exists pre, post; (split; [done|]); by rewrite ?app_nil_r in *.
Qed.

Lemma match_lit_spec ic s p p' : match_lit ic s p = Some p' <->
  exists m, same_text ic s m /\ after p = m ++ after p' /\ before p' = reverse m ++ before p /\ group1 p' = group1 p.
Proof.
  revert p. induction s as [|a s IH]; intros [b l g]; cbn [match_lit].
  - split.
    + intros [= <-]. exists []. repeat split; constructor.
    + intros (m & Hm & E1 & E2 & E3). inversion Hm; subst m. simpl in *. destruct p'; simpl in *. subst. done.
  - cbn [after before group1]. destruct l as [|c l].
    + split; [done|]. intros (m & Hm & E1 & _). inversion Hm; subst. done.
    + destruct (same_char ic a c) eqn:E.
      * rewrite IH. cbn [after before group1]. split.
        -- intros (m & Hm & -> & E2 & E3). exists (c :: m). split; [by constructor|]. split; [done|]. split; [|done]. by rewrite reverse_cons, <- app_assoc.
        -- intros (m & Hm & E1 & E2 & E3). inversion Hm as [|? d ? m' Hd Hm']; subst. injection E1 as -> ->. exists m'. split; [done|]. split; [done|].
           split; [|done]. by rewrite reverse_cons, <- app_assoc in E2.
      * split; [done|]. intros (m & Hm & E1 & _). inversion Hm as [|? d ? m' Hd Hm']; subst. injection E1 as -> ->. congruence.
Qed.

Lemma match_star_spec greedy c l b g p : p ∈ match_star greedy c l b g <->
  exists m, Forall (fun a => in_class c a = true) m /\ l = m ++ after p /\ before p = reverse m ++ b /\ group1 p = g.
Proof.
  revert b. induction l as [|a l IH]; intros b; cbn [match_star].
  - rewrite list_elem_of_singleton. split.
    + intros ->. exists []. by repeat split.
    + intros (m & _ & E1 & E2 & E3). symmetry in E1. apply app_eq_nil in E1 as [-> E1]. destruct p; simpl in *. by subst.
  - assert (Hstay : (exists m, m = [] /\ Forall (fun a => in_class c a = true) m /\ a :: l = m ++ after p /\ before p = reverse m ++ b /\ group1 p = g)
      <-> p = Place b (a :: l) g).
    { split; [intros (m & -> & _ & E1 & E2 & E3); destruct p; simpl in *; by subst|intros ->; exists []; by repeat split]. }
    destruct (in_class c a) eqn:Ea.
    + assert (Hgo : (exists m, Forall (fun a => in_class c a = true) m /\ l = m ++ after p /\ before p = reverse m ++ (a :: b) /\ group1 p = g)
        <-> exists m, m <> [] /\ Forall (fun a => in_class c a = true) m /\ a :: l = m ++ after p /\ before p = reverse m ++ b /\ group1 p = g).
      { split.
        - intros (m & Hm & -> & E2 & E3). exists (a :: m). repeat split; [done|by constructor|by rewrite reverse_cons, <- app_assoc|done].
        - intros (m & Hne & Hm & E1 & E2 & E3). destruct m as [|d m]; [done|]. injection E1 as <- ->. apply Forall_cons in Hm as [_ Hm].
          exists m. repeat split; [done|by rewrite reverse_cons, <- app_assoc in E2|done]. }
      assert (Hall : p ∈ match_star greedy c l (a :: b) g \/ p = Place b (a :: l) g <->
        exists m, Forall (fun a => in_class c a = true) m /\ a :: l = m ++ after p /\ before p = reverse m ++ b /\ group1 p = g).
      { rewrite IH, Hgo, <- Hstay. split; [intros [(m & _ & H) | (m & _ & H)]; by exists m|].
        intros (m & H). destruct (decide (m = [])); [right|left]; by exists m. }
      destruct greedy; [rewrite elem_of_app, list_elem_of_singleton|rewrite elem_of_cons, (Logic.or_comm (p = _))]; exact Hall.
    + rewrite list_elem_of_singleton, <- Hstay. split; [intros (m & _ & H); by exists m|]. intros (m & Hm & E1 & H). exists m. split; [|done].
      destruct m as [|d m]; [done|]. injection E1 as <- _. apply Forall_cons in Hm as [Hd _]. congruence.
Qed.

Lemma not_nil_elem {A} (l : list A) : l <> [] <-> exists x, x ∈ l.
Proof. destruct l as [|x l]; [split; [done|by intros [x ?%elem_of_nil]]|]. split; [|done]. intros _. exists x. by left. Qed.
Lemma elem_of_option_list {A} (o : option A) x : x ∈ option_list o <-> o = Some x.
Proof. destruct o as [y|]; simpl; [rewrite list_elem_of_singleton; naive_solver|rewrite elem_of_nil; naive_solver]. Qed.

(** ** What an expression reaches *)

(** From one place to another, whatever the group holds. *)
Definition reach (ic : bool) (r : regex) (b a b' a' : list ascii) : Prop := exists g g', Place b' a' g' ∈ rmatch ic r (Place b a g).

Lemma rmatch_group ic r : forall b a g b' a' g', Place b' a' g' ∈ rmatch ic r (Place b a g) ->
  forall g2, exists g3, Place b' a' g3 ∈ rmatch ic r (Place b a g2).
Proof.
  induction r as [s|c|gr c| | | | |r1 IH1 r2 IH2|r1 IH1 r2 IH2|r IH]; intros b a g b' a' g' Hin g2; cbn [rmatch before after group1] in *.
  - apply elem_of_option_list, match_lit_spec in Hin as (m & Hm & E1 & E2 & _). exists g2. apply elem_of_option_list, match_lit_spec. by exists m.
  - destruct a as [|x a]; [by apply elem_of_nil in Hin|]. destruct (in_class c x); [|by apply elem_of_nil in Hin].
    apply list_elem_of_singleton in Hin as [= -> -> ->]. exists g2. by apply list_elem_of_singleton.
  - apply match_star_spec in Hin as (m & Hm & E1 & E2 & _). exists g2. apply match_star_spec. by exists m.
  - destruct b; [|by apply elem_of_nil in Hin]. apply list_elem_of_singleton in Hin as [= -> -> ->]. exists g2. by apply list_elem_of_singleton.
  - destruct (at_end a); [|by apply elem_of_nil in Hin]. apply list_elem_of_singleton in Hin as [= -> -> ->]. exists g2. by apply list_elem_of_singleton.
  - destruct (xorb _ _); [|by apply elem_of_nil in Hin]. apply list_elem_of_singleton in Hin as [= -> -> ->]. exists g2. by apply list_elem_of_singleton.
  - apply list_elem_of_singleton in Hin as [= -> -> ->]. exists g2. by apply list_elem_of_singleton.
  - apply list_elem_of_bind in Hin as ([b1 a1 g1] & H2 & H1). destruct (IH1 _ _ _ _ _ _ H1 g2) as [g3 H3]. destruct (IH2 _ _ _ _ _ _ H2 g3) as [g4 H4].
    exists g4. apply list_elem_of_bind. by exists (Place b1 a1 g3).
  - apply elem_of_app in Hin as [H1 | H2]; [destruct (IH1 _ _ _ _ _ _ H1 g2) as [g3 H3]|destruct (IH2 _ _ _ _ _ _ H2 g2) as [g3 H3]];
      exists g3; apply elem_of_app; tauto.
  - apply list_elem_of_fmap in Hin as ([b1 a1 g1] & [= -> -> ->] & H1). destruct (IH _ _ _ _ _ _ H1 g2) as [g3 H3].
    eexists. apply list_elem_of_fmap. eexists. split; [|exact H3]. done.
Qed.

Lemma search_reach ic r s : search ic r s <> None <-> exists pre post b' a', chars s = pre ++ post /\ reach ic r (reverse pre) post b' a'.
Proof.
  rewrite search_some. split.
  - intros (pre & post & E & Hne). apply not_nil_elem in Hne as [[b' a' g'] Hp]. exists pre, post, b', a'. split; [done|]. by exists None, g'.
  - intros (pre & post & b' & a' & E & g & g' & Hp). exists pre, post. split; [done|]. apply not_nil_elem.
    destruct (rmatch_group _ _ _ _ _ _ _ _ Hp None) as [g2 H2]. by eexists.
Qed.

Lemma reach_seq ic r1 r2 b a b' a' : reach ic (RSeq r1 r2) b a b' a' <-> exists b1 a1, reach ic r1 b a b1 a1 /\ reach ic r2 b1 a1 b' a'.
Proof.
  split.
  - intros (g & g' & H). cbn [rmatch] in H. apply list_elem_of_bind in H as ([b1 a1 g1] & H2 & H1). exists b1, a1. split; by eexists _, _.
  - intros (b1 & a1 & (g & g1 & H1) & (g2 & g' & H2)). destruct (rmatch_group _ _ _ _ _ _ _ _ H2 g1) as [g3 H3]. exists g, g3. cbn [rmatch].
    apply list_elem_of_bind. by exists (Place b1 a1 g1).
Qed.

Lemma reach_alt ic r1 r2 b a b' a' : reach ic (RAlt r1 r2) b a b' a' <-> reach ic r1 b a b' a' \/ reach ic r2 b a b' a'.
Proof.
  unfold reach. cbn [rmatch]. split.
  - intros (g & g' & [H | H]%elem_of_app); [left|right]; by exists g, g'.
  - intros [(g & g' & H) | (g & g' & H)]; exists g, g'; apply elem_of_app; tauto.
Qed.

Lemma reach_group ic r b a b' a' : reach ic (RGroup r) b a b' a' <-> reach ic r b a b' a'.
Proof.
  unfold reach. cbn [rmatch]. split.
  - intros (g & g' & ([b1 a1 g1] & [= -> -> ->] & H)%list_elem_of_fmap). by exists g, g1.
  - intros (g & g' & H). eexists g, _. apply list_elem_of_fmap. eexists. by split; [|exact H].
Qed.

Lemma reach_lit ic s b a b' a' : reach ic (RLit s) b a b' a' <-> exists m, same_text ic s m /\ a = m ++ a' /\ b' = reverse m ++ b.
Proof.
  unfold reach. cbn [rmatch]. split.
  - intros (g & g' & (m & H1 & H2 & H3 & _)%elem_of_option_list%match_lit_spec). by exists m.
  - intros (m & H1 & H2 & H3). exists None, None. apply elem_of_option_list, match_lit_spec. by exists m.
Qed.

Lemma reach_class ic c b a b' a' : reach ic (RClass c) b a b' a' <-> exists x, in_class c x = true /\ a = x :: a' /\ b' = x :: b.
Proof.
  unfold reach. cbn [rmatch after before group1]. split.
  - intros (g & g' & H). destruct a as [|x a]; [by apply elem_of_nil in H|]. destruct (in_class c x) eqn:E; [|by apply elem_of_nil in H].
    apply list_elem_of_singleton in H as [= -> -> ->]. by exists x.
  - intros (x & E & -> & ->). exists None, None. rewrite E. by apply list_elem_of_singleton.
Qed.

Lemma reach_star ic gr c b a b' a' : reach ic (RStar gr c) b a b' a' <->
  exists m, Forall (fun x => in_class c x = true) m /\ a = m ++ a' /\ b' = reverse m ++ b.
Proof.
  unfold reach. cbn [rmatch after before group1]. split.
  - intros (g & g' & (m & H1 & H2 & H3 & _)%match_star_spec). by exists m.
  - intros (m & H1 & H2 & H3). exists None, None. apply match_star_spec. by exists m.
Qed.

Lemma reach_test ic r (P : list ascii -> list ascii -> bool) :
  (forall p, rmatch ic r p = if P (before p) (after p) then [p] else []) ->
  forall b a b' a', reach ic r b a b' a' <-> P b a = true /\ b' = b /\ a' = a.
Proof.
  intros Hr b a b' a'. unfold reach. split.
  - intros (g & g' & H). rewrite Hr in H. cbn [before after] in H. destruct (P b a); [|by apply elem_of_nil in H].
    apply list_elem_of_singleton in H as [= -> -> _]. done.
  - intros (E & -> & ->). exists None, None. rewrite Hr. cbn [before after]. rewrite E. by left.
Qed.

Lemma reach_begin ic b a b' a' : reach ic RBegin b a b' a' <-> b = [] /\ b' = b /\ a' = a.
Proof.
  rewrite (reach_test ic RBegin (fun b _ => match b with [] => true | _ => false end)).
  - destruct b; naive_solver.
  - intros [[] ? ?]; done.
Qed.

Lemma reach_end ic b a b' a' : reach ic REnd b a b' a' <-> at_end a = true /\ b' = b /\ a' = a.
Proof. by apply (reach_test ic REnd (fun _ a => at_end a)). Qed.

Lemma reach_boundary ic b a b' a' : reach ic RBoundary b a b' a' <-> xorb (word_at b) (word_at a) = true /\ b' = b /\ a' = a.
Proof. by apply (reach_test ic RBoundary (fun b a => xorb (word_at b) (word_at a))). Qed.

Lemma reach_empty ic b a b' a' : reach ic REmpty b a b' a' <-> b' = b /\ a' = a.
Proof. rewrite (reach_test ic REmpty (fun _ _ => true)); [tauto|done]. Qed.
End Regex.
