(* ===== verification/AutoMod.v ===== *)
(** * AutoModerator: the rules of a sub, from their text

    [RuleComponent], [RuleTarget], [Rule] and [Ruleset] of lib/automoderator.py
    as they are made: validation, patterns, and the rules that are kept.  The
    values are those PyYAML gives; dictionaries are iterated in an order of
    their own. *)

From S2P Require Import Prelude PyString Regex.
From Stdlib Require Import Ascii.

Module AutoMod.
Import PyString Regex.

(** ** Values *)

(** A document of YAML: [YOther] is what is none of the others, a date or a
    number with a fraction, with its text. *)
Inductive yaml :=
  | YNull | YBool (b : bool) | YInt (n : Z) | YStr (s : string) | YOther (s : string)
  | YList (l : list yaml) | YDict (d : list (yaml * yaml)).

(** A dictionary with texts as keys, in some order. *)
Notation ydict := (list (string * yaml)).

Definition py_true (v : yaml) : bool :=
  match v with
  | YNull => false
  | YBool b => b
  | YInt n => negb (n =? 0)
  | YStr s => negb (String.eqb s "")
  | YOther _ => true
  | YList l => match l with [] => false | _ => true end
  | YDict d => match d with [] => false | _ => true end
  end.

(** Equality of values that can be in a set. *)
Definition py_eq (v w : yaml) : bool :=
  match v, w with
  | YNull, YNull => true
  | YBool a, YBool b => Bool.eqb a b
  | YBool a, YInt n | YInt n, YBool a => n =? (if a then 1 else 0)
  | YInt m, YInt n => m =? n
  | YStr a, YStr b => String.eqb a b
  | _, _ => false
  end.

Definition hashable (v : yaml) : bool := match v with YList _ | YDict _ => false | _ => true end.

Fixpoint lookup {A} (k : string) (d : list (string * A)) : option A :=
  match d with [] => None | (k', v) :: d => if String.eqb k' k then Some v else lookup k d end.

(** [d.pop(k, None)]. *)
Definition pop {A} (k : string) (d : list (string * A)) : option A * list (string * A) :=
  (lookup k d, List.filter (fun kv => negb (String.eqb kv.1 k)) d).

(** [d[k] = v]. *)
Definition assign {A} (k : string) (v : A) (d : list (string * A)) : list (string * A) :=
  if existsb (fun kv => String.eqb kv.1 k) d then (fun kv => if String.eqb kv.1 k then (k, v) else kv) <$> d else d ++ [(k, v)].

(** What is not in the program: the order in which a dictionary or a set is
    iterated, the text of nested values, PyYAML, the regular expressions users
    write, and MD5. *)
Class Automod := {
  iter : forall {A}, list A -> list A;
  py_repr : yaml -> string;
  safe_load : string -> option yaml;
  re_compile : string -> bool -> option (string -> option match_object);
  md5 : string -> string;
  upvote_path : string;
  controversial_path : string
}.

Class AutomodLaws `{Automod} : Prop := {
  iter_perm : forall {A} (l : list A), iter l ≡ₚ l
}.

Section automod.
Context `{Automod}.

(** [unicode(v)], and [str(v)], which encodes in ASCII. *)
Definition to_unicode (v : yaml) : string :=
  match v with
  | YNull => "None"
  | YBool b => if b then "True" else "False"
  | YInt n => py_str_int n
  | YStr s | YOther s => s
  | _ => py_repr v
  end.

Definition to_str (v : yaml) : res string :=
  let s := to_unicode v in if str_forall (fun a => (nat_of_ascii a <? 128)%nat) s then Ok s else Raise ValueError.

(** ** Components *)

Inductive ytype := TInt | TBool | TStr | TList.

Definition isinstance (v : yaml) (t : ytype) : bool :=
  match t, v with
  | TInt, (YInt _ | YBool _) | TBool, YBool _ | TStr, YStr _ | TList, YList _ => true
  | _, _ => false
  end.

Inductive target_type := TLink | TComment | TAccount.

#[export] Instance target_type_eq_dec : EqDecision target_type.
Proof. solve_decision. Defined.

Inductive ctype := Check | Action | Plain.

Record component := MkComponent {
  valid_types : list ytype;
  valid_values : list yaml;
  valid_regex : option (string -> bool);
  valid_targets : list target_type;
  default_value : yaml;
  component_type : ctype;
  aliases : list string
}.

(** [RuleComponent.validate]. *)
Definition validate (c : component) (v : yaml) : res bool :=
  if negb (bool_decide (valid_types c = [])) && negb (existsb (isinstance v) (valid_types c)) then Ok false
  else
    let* ok := match valid_values c with
      | [] => Ok true
      | vs => if hashable v then Ok (existsb (py_eq v) vs) else Raise TypeError
      end in
    if ok then
      match valid_regex c with
      | Some r => let* s := to_str v in Ok (r s)
      | None => Ok true
      end
    else Ok false.

(** The operator at the start of a threshold, and the rest. *)
Definition operator_regex (s : string) : option (string * string) :=
  match s with
  | String a s' =>
      if Ascii.eqb a "=" then
        match s' with String b s'' => if Ascii.eqb b "=" then Some ("==", s'') else Some ("=", s') | EmptyString => Some ("=", s') end
      else if Ascii.eqb a "<" then Some ("<", s') else if Ascii.eqb a ">" then Some (">", s') else None
  | EmptyString => None
  end.

Definition after_operator (s : string) : string := match operator_regex s with Some (_, r) => r | None => s end.

(** Digits to the end, or to a newline there. *)
Fixpoint digits_to_end (s : string) : bool :=
  match s with
  | EmptyString => true
  | String a s' => if is_digit a then digits_to_end s' else Ascii.eqb a newline && String.eqb s' ""
  end.

(** [_oper_int_regex]. *)
Definition oper_int (s : string) : bool :=
  let s := py_lstrip is_space (after_operator s) in
  let s := match s with String a s' => if Ascii.eqb a "-" then s' else s | EmptyString => s end in
  match s with String a s' => is_digit a && digits_to_end s' | EmptyString => false end.

Definition units : list string := ["minute"; "hour"; "day"; "week"; "month"; "year"].

(** What is before a suffix. *)
Definition strip_suffix (t s : string) : option string :=
  if py_endswith t s then Some (String.substring 0 (String.length s - String.length t) s) else None.

Definition ends_in_digit (s : string) : bool := match List.rev (chars s) with a :: _ => is_digit a | [] => false end.

(** [_oper_period_regex], which is searched: a digit, perhaps spaces and a unit, and the end. *)
Definition oper_period (s : string) : bool :=
  existsb (fun nl => existsb (fun unit =>
    match strip_suffix (unit +:+ nl) s with Some s' => ends_in_digit (py_rstrip is_space s') | None => false end)
    ("" :: units ++ ((fun u => u +:+ "s") <$> units))) [""; String newline ""].

Definition comp (types : list ytype) (targets : list target_type) (k : ctype) : component := MkComponent types [] None targets YNull k [].

Definition with_default (v : yaml) (c : component) : component :=
  MkComponent (valid_types c) (valid_values c) (valid_regex c) (valid_targets c) v (component_type c) (aliases c).
Definition with_values (vs : list yaml) (c : component) : component :=
  MkComponent (valid_types c) vs (valid_regex c) (valid_targets c) (default_value c) (component_type c) (aliases c).
Definition with_regex (r : string -> bool) (c : component) : component :=
  MkComponent (valid_types c) (valid_values c) (Some r) (valid_targets c) (default_value c) (component_type c) (aliases c).
Definition with_aliases (l : list string) (c : component) : component :=
  MkComponent (valid_types c) (valid_values c) (valid_regex c) (valid_targets c) (default_value c) (component_type c) l.

Definition suggested_sort_options : list string :=
  ["confidence"; "top"; "new"; upvote_path; controversial_path; "old"; "random"; "qa"; "blank"].

Definition posts : list target_type := [TLink; TComment].

Definition _potential_components : list (string * component) := [
  ("reports", comp [TInt] posts Check);
  ("body_longer_than", comp [TInt] posts Check);
  ("body_shorter_than", comp [TInt] posts Check);
  ("ignore_blockquotes", comp [TBool] posts Plain);
  ("action", with_values (YStr <$> ["approve"; "remove"; "spam"; "filter"; "report"]) (comp [] posts Action));
  ("action_reason", with_aliases ["report_reason"] (comp [TStr] posts Plain));
  ("set_flair", comp [TStr; TList] [TLink; TAccount] Action);
  ("overwrite_flair", with_default (YBool false) (comp [TBool] [TLink; TAccount] Plain));
  ("is_top_level", comp [TBool] [TComment] Check);
  ("is_edited", comp [TBool] posts Check);
  ("set_locked", comp [TBool] [TLink] Action);
  ("set_sticky", with_values [YBool true; YBool false; YInt 1; YInt 2] (comp [TBool; TInt] [TLink] Action));
  ("set_nsfw", comp [TBool] [TLink] Action);
  ("set_contest_mode", comp [TBool] [TLink] Action);
  ("set_suggested_sort", with_values (YStr <$> suggested_sort_options ++ ["best"]) (comp [] [TLink] Action));
  ("comment_karma", with_regex oper_int (comp [] [TAccount] Check));
  ("post_karma", with_aliases ["link_karma"] (with_regex oper_int (comp [] [TAccount] Check)));
  ("combined_karma", with_regex oper_int (comp [] [TAccount] Check));
  ("account_age", with_regex oper_period (comp [] [TAccount] Check));
  ("satisfy_any_threshold", with_default (YBool false) (comp [TBool] [TAccount] Plain));
  ("is_gold", comp [TBool] [TAccount] Check);
  ("is_submitter", comp [TBool] [TAccount] Check);
  ("is_contributor", comp [TBool] [TAccount] Check);
  ("is_moderator", comp [TBool] [TAccount] Check)].

(** ** Targets *)

(** How a pattern is searched: one built here, or one a user wrote. *)
Inductive pattern :=
  | Generated (ignore_case : bool) (r : regex)
  | User (search : string -> option match_object).

Definition pattern_search (p : pattern) (s : string) : option match_object :=
  match p with Generated ic r => search ic r s | User f => f s end.

(** The attributes are by the names of the components; [set_flair] is the pair
    of the text and the class. *)
Record rule_target := MkTarget {
  on_type : target_type;
  attrs : gmap string yaml;
  flair : option (yaml * yaml);
  t_checks : list string;
  t_actions : list string;
  match_fields : list string;
  match_patterns : list (string * pattern);
  approve_banned : bool
}.

Definition attr (t : rule_target) (k : string) : yaml := default YNull (attrs t !! k).

(** The value under the first of the names that is not null; all are popped. *)
Definition pop_sources (sources : list string) (d : ydict) : yaml * ydict :=
  foldl (fun vd k => let '(v, d') := pop k vd.2 in (match vd.1 with YNull => default YNull v | w => w end, d')) (YNull, d) sources.

Record building := Building { b_attrs : gmap string yaml; b_checks : list string; b_actions : list string; b_values : ydict }.

Definition set_value (ty : target_type) (b : building) (kc : string * component) : res building :=
  let '(key, c) := kc in
  if bool_decide (ty ∈ valid_targets c) then
    let '(v, d) := pop_sources (key :: aliases c) (b_values b) in
    match v with
    | YNull => Ok (Building (<[key := default_value c]> (b_attrs b)) (b_checks b) (b_actions b) d)
    | _ =>
        let* ok := validate c v in
        if ok then
          Ok (Building (<[key := v]> (b_attrs b))
                (match component_type c with Check => key :: b_checks b | _ => b_checks b end)
                (match component_type c with Action => key :: b_actions b | _ => b_actions b end) d)
        else Raise AutoModeratorSyntaxError
    end
  else if bool_decide (key ∈ (b_values b).*1) then Raise AutoModeratorRuleTypeError
  else Ok (Building (<[key := YNull]> (b_attrs b)) (b_checks b) (b_actions b) (b_values b)).

Definition flair_pair (v : yaml) : option (yaml * yaml) :=
  match v with
  | YStr _ => Some (v, YStr "")
  | YList l => Some (default (YStr "") (l !! 0%nat), default (YStr "") (l !! 1%nat))
  | _ => None
  end.

(** [set_values]: also the values that are left, which are about fields. *)
Definition set_values (ty : target_type) (values : ydict) : res building :=
  let* b := res_foldl (set_value ty) (Building ∅ [] [] values) (iter _potential_components) in
  Ok (match b_attrs b !! "set_suggested_sort" with
      | Some v =>
          if py_eq v (YStr "best") then
            Building (<["set_suggested_sort" := YStr "confidence"]> (b_attrs b)) (b_checks b) (b_actions b) (b_values b)
          else b
      | None => b
      end).

Definition match_fields_of (ty : target_type) : list string :=
  match ty with
  | TLink => ["id"; "title"; "domain"; "url"; "body"; "media_author"; "media_author_url"; "media_title"; "media_description"; "flair_text"; "flair_css_class"]
  | TComment => ["id"; "body"]
  | TAccount => ["id"; "name"; "flair_text"; "flair_css_class"]
  end.

Definition all_valid_fields : list string := match_fields_of TLink ++ match_fields_of TComment ++ match_fields_of TAccount.

Definition match_modes : list string := ["full-exact"; "full-text"; "includes"; "includes-word"; "starts-with"; "ends-with"].
Definition match_modifiers : list string := match_modes ++ ["case-sensitive"; "regex"].

Definition match_field_default (field : string) : string :=
  if bool_decide (field ∈ ["id"; "media_author"; "flair_text"; "flair_css_class"]) then "full-exact"
  else if bool_decide (field ∈ ["url"; "media_author_url"]) then "includes"
  else "includes-word".

(** ["^(~?[^\s(]+)\s*(?:\((.+)\))?$"]: the name, and what is in parentheses. *)
Definition key_regex (key : string) : option (string * option string) :=
  let '(name, rest) := break_at (fun a => is_space a || Ascii.eqb a "(") key in
  if String.eqb name "" then None
  else
    match py_lstrip is_space rest with
    | EmptyString => Some (name, None)
    | String a rest =>
        if Ascii.eqb a "(" then
          let rest := match strip_suffix (String newline "") rest with Some r => r | None => rest end in
          match strip_suffix ")" rest with
          | Some inside => if String.eqb inside "" || contains newline inside then None else Some (name, Some inside)
          | None => None
          end
        else None
    end.

Definition py_strip (s : string) : string := py_rstrip is_space (py_lstrip is_space s).

Record parsed_key := Parsed { pk_name : string; pk_fields : list string; pk_modifiers : list string; match_success : bool }.

Definition parse_match_fields_key (ty : target_type) (key : string) : res parsed_key :=
  match key_regex key with
  | None => Raise AutoModeratorSyntaxError
  | Some (name, modifiers) =>
      let '(base, _, _) := partition "#" (py_lstrip (fun a => Ascii.eqb a "~") name) in
      let fields := py_strip <$> py_split "+" base in
      if existsb (fun f => negb (bool_decide (f ∈ all_valid_fields))) fields then Raise AutoModeratorSyntaxError
      else
        let fields := remove_dups (List.filter (fun f => bool_decide (f ∈ match_fields_of ty)) fields) in
        match fields with
        | [] => Raise AutoModeratorRuleTypeError
        | _ =>
            let modifiers := match modifiers with Some m => py_strip <$> py_split "," m | None => [] end in
            if existsb (fun m => negb (bool_decide (m ∈ match_modifiers))) modifiers then Raise AutoModeratorSyntaxError
            else Ok (Parsed name fields modifiers (negb (py_startswith "~" name)))
        end
  end.

(** The patterns of each mode, around an expression or around its text. *)
Definition around (mode : string) (r : regex) : regex :=
  if String.eqb mode "full-exact" then RSeq RBegin (RSeq r REnd)
  else if String.eqb mode "full-text" then RSeq RBegin (RSeq (RStar true NonWord) (RSeq r (RSeq (RStar true NonWord) REnd)))
  else if String.eqb mode "includes" then r
  else if String.eqb mode "includes-word" then
    RSeq (RAlt RBegin (RAlt (RClass NonWord) RBoundary)) (RSeq r (RAlt REnd (RAlt (RClass NonWord) RBoundary)))
  else if String.eqb mode "starts-with" then RSeq RBegin r
  else RSeq r REnd.

Definition around_text (mode : string) (s : string) : string :=
  if String.eqb mode "full-exact" then "^" +:+ s +:+ "$"
  else if String.eqb mode "full-text" then "^\W*" +:+ s +:+ "\W*$"
  else if String.eqb mode "includes" then s
  else if String.eqb mode "includes-word" then "(?:^|\W|\b)" +:+ s +:+ "(?:$|\W|\b)"
  else if String.eqb mode "starts-with" then "^" +:+ s
  else s +:+ "$".

(** One of the values, escaped, as the group. *)
Fixpoint alternatives (vs : list string) : regex :=
  match vs with [] => REmpty | [v] => RLit (chars v) | v :: vs => RAlt (RLit (chars v)) (alternatives vs) end.

(** [(?:.*?\.)?]. *)
Definition subdomains : regex := RAlt (RSeq (RStar false AnyChar) (RLit ["."%char])) REmpty.

Definition match_mode (p : parsed_key) : string :=
  match List.find (fun m => bool_decide (m ∈ match_modes)) (pk_modifiers p) with
  | Some m => m
  | None => match pk_fields p with [f] => match_field_default f | _ => "includes-word" end
  end.

(** Whether the domain alone is searched, without a mode of its own. *)
Definition with_subdomains (p : parsed_key) : bool :=
  bool_decide (pk_fields p = ["domain"]) && negb (existsb (fun m => bool_decide (m ∈ match_modes)) (pk_modifiers p)).

Definition make_pattern (p : parsed_key) (match_values : list string) : res pattern :=
  let ignore_case := negb (bool_decide ("case-sensitive" ∈ pk_modifiers p)) in
  if bool_decide ("regex" ∈ pk_modifiers p) then
    let value := "(" +:+ py_join "|" match_values +:+ ")" in
    let value := if with_subdomains p then "(?:.*?\.)?" +:+ value else value in
    match re_compile (around_text (match_mode p) value) ignore_case with
    | Some f => Ok (User f)
    | None => Raise AutoModeratorSyntaxError
    end
  else
    let value := RGroup (alternatives match_values) in
    Ok (Generated ignore_case (around (match_mode p) (if with_subdomains p then RSeq subdomains value else value))).

Definition value_texts (v : yaml) : list string := match v with YList l => to_unicode <$> l | _ => [to_unicode v] end.

Definition add_pattern (ty : target_type) (fp : list string * list (string * pattern)) (kv : string * yaml) : res (list string * list (string * pattern)) :=
  let* p := parse_match_fields_key ty kv.1 in
  let fields := remove_dups (fp.1 ++ pk_fields p) in
  if py_true kv.2 then let* pat := make_pattern p (value_texts kv.2) in Ok (fields, fp.2 ++ [(kv.1, pat)]) else Ok (fields, fp.2).

Definition get_match_patterns (ty : target_type) (values : ydict) : res (list string * list (string * pattern)) :=
  res_foldl (add_pattern ty) ([], []) (iter values).

(** [RuleTarget.__init__]. *)
Definition make_target (ty : target_type) (values : ydict) (approve : bool) : res rule_target :=
  let* b := set_values ty values in
  let* fp := get_match_patterns ty (b_values b) in
  Ok (MkTarget ty (b_attrs b) (flair_pair (default YNull (b_attrs b !! "set_flair"))) (b_checks b) (b_actions b) fp.1 fp.2 approve).
(** ** Rules *)

(** [lowercase_keys_recursively], of a dictionary with any keys. *)
Definition lower_text (s : string) : string := text (fold_char <$> chars s).

Fixpoint lowercase_value (v : yaml) : res yaml :=
  match v with
  | YDict d =>
      let* d' := (fix go (d : list (yaml * yaml)) : res (list (yaml * yaml)) :=
        match d with
        | [] => Ok []
        | (k, w) :: d =>
            let* w' := lowercase_value w in
            match k with YStr k => let* d' := go d in Ok ((YStr (lower_text k), w') :: d') | _ => Raise AttributeError end
        end) d in
      Ok (YDict d')
  | _ => Ok v
  end.

(** The later of two keys that become one stays. *)
Definition text_keys (d : list (yaml * yaml)) : ydict :=
  foldl (fun acc kv => match kv.1 with YStr k => assign k kv.2 acc | _ => acc end) [] d.

Definition lowercase_keys_recursively (d : list (yaml * yaml)) : res ydict :=
  let* v := lowercase_value (YDict d) in Ok (match v with YDict d => text_keys d | _ => [] end).

Definition _valid_type_map : list (string * target_type) :=
  [("comment", TComment); ("submission", TLink); ("link submission", TLink); ("text submission", TLink)].

Definition rule_components : list (string * component) := [
  ("type", with_default (YStr "any") (with_values (YStr <$> _valid_type_map.*1 ++ ["any"]) (comp [] [] Check)));
  ("priority", with_default (YInt 0) (comp [TInt] [] Plain));
  ("moderators_exempt", comp [TBool] [] Plain);
  ("comment", comp [TStr] [] Action);
  ("comment_stickied", with_default (YBool false) (comp [TBool] [] Plain));
  ("modmail", comp [TStr] [] Action);
  ("modmail_subject", with_default (YStr "AutoModerator notification") (comp [TStr] [] Plain));
  ("message", comp [TStr] [] Action);
  ("message_subject", with_default (YStr "AutoModerator notification") (comp [TStr] [] Plain))].

Record rule := MkRule {
  unique_id : string;
  r_attrs : gmap string yaml;
  r_checks : list string;
  r_actions : list string;
  base_type : target_type;
  targets : list (string * rule_target)
}.

Definition rattr (r : rule) (k : string) : yaml := default YNull (r_attrs r !! k).

Definition target (r : rule) (k : string) : option rule_target := lookup k (targets r).

Definition set_rule_value (b : building) (kc : string * component) : res building :=
  let '(key, c) := kc in
  match lookup key (b_values b) with
  | Some v =>
      let* ok := validate c v in
      if ok then
        Ok (Building (<[key := v]> (b_attrs b))
              (match component_type c with Check => key :: b_checks b | _ => b_checks b end)
              (match component_type c with Action => key :: b_actions b | _ => b_actions b end) (pop key (b_values b)).2)
      else Raise AutoModeratorSyntaxError
  | None => Ok (Building (<[key := default_value c]> (b_attrs b)) (b_checks b) (b_actions b) (b_values b))
  end.

Definition texts (v : option yaml) : bool := match v with Some (YStr _ | YList _) => true | _ => false end.

(** The dictionary the checks of the author are from. *)
Definition author_values (author not_author : option yaml) : ydict :=
  let base := match author with
    | Some (YDict d) => text_keys d
    | Some v => if texts (Some v) then [("name", v)] else []
    | None => []
    end in
  match not_author with Some v => if texts (Some v) then assign "~name" v base else base | None => base end.

(** [Rule.__init__], of the values of a document and its text. *)
Definition make_rule (values : list (yaml * yaml)) (source : string) : res rule :=
  let* values := lowercase_keys_recursively values in
  let* b := res_foldl set_rule_value (Building ∅ [] [] values) (iter rule_components) in
  let* ty := match b_attrs b !! "type" with
    | Some (YStr t) => of_option KeyError (lookup t _valid_type_map)
    | _ => Raise KeyError
    end in
  let '(author, vs) := pop "author" (b_values b) in
  let '(not_author, vs) := pop "~author" vs in
  let av := author_values author not_author in
  let* author_target := match av with [] => Ok [] | _ => let* t := make_target TAccount av true in Ok [("author", t)] end in
  let approve := existsb (fun kt => bool_decide ("name" ∈ match_fields kt.2)) author_target in
  let '(parent, vs) := pop "parent_submission" vs in
  let* parent_target :=
    match parent with
    | Some v =>
        if py_true v then
          match ty with
          | TComment => match v with YDict d => let* t := make_target TLink (text_keys d) true in Ok [("parent_submission", t)] | _ => Raise AttributeError end
          | _ => Raise AutoModeratorRuleTypeError
          end
        else Ok []
    | None => Ok []
    end in
  let* base := make_target ty vs approve in
  Ok (MkRule (md5 source) (b_attrs b) (b_checks b) (b_actions b) ty (author_target ++ parent_target ++ [("base", base)])).

Definition base_action (r : rule) : yaml := match target r "base" with Some t => attr t "action" | None => YNull end.

Definition is_removal_rule (r : rule) : bool := match base_action r with YStr a => bool_decide (a ∈ ["spam"; "remove"; "filter"]) | _ => false end.

Definition is_report_rule (r : rule) : bool := match base_action r with YStr a => String.eqb a "report" | _ => false end.

Definition is_inapplicable_to_mods (r : rule) : bool :=
  match rattr r "moderators_exempt" with YNull => is_removal_rule r || is_report_rule r | v => py_true v end.

Definition is_unrepeatable (r : rule) : bool :=
  py_true (rattr r "comment") || py_true (rattr r "modmail") || py_true (rattr r "message") || is_report_rule r.

Definition nonempty {A} (l : list A) : bool := match l with [] => false | _ => true end.

Definition has_any_checks (targets_only : bool) (r : rule) : bool :=
  existsb (fun kt => nonempty (t_checks kt.2) || nonempty (match_fields kt.2)) (targets r) || (negb targets_only && nonempty (r_checks r)).

Definition has_any_actions (r : rule) : bool := existsb (fun kt => nonempty (t_actions kt.2)) (targets r) || nonempty (r_actions r).

(** ** Rule sets *)

(** [re.split("^---", text)] with lines, before the sections are stripped. *)
Fixpoint split_sections (line_start : bool) (s : string) : list string :=
  match s with
  | EmptyString => [EmptyString]
  | String a s1 =>
      match s1 with
      | String b (String c s3) =>
          if line_start && (Ascii.eqb a "-" && Ascii.eqb b "-" && Ascii.eqb c "-") then EmptyString :: split_sections false s3
          else match split_sections (Ascii.eqb a newline) s1 with w :: ws => String a w :: ws | [] => [String a EmptyString] end
      | _ => match split_sections (Ascii.eqb a newline) s1 with w :: ws => String a w :: ws | [] => [String a EmptyString] end
      end
  end.

Definition strip_newlines (s : string) : string :=
  let nl a := Ascii.eqb a newline || Ascii.eqb a "013" in py_rstrip nl (py_lstrip nl s).

Record rule_definition := RuleDefinition { rd_yaml : string; rd_values : list (yaml * yaml) }.

Definition rule_defs (yaml_text : string) : res (list rule_definition) :=
  let sections := strip_newlines <$> split_sections true yaml_text in
  let* docs := res_mapM (fun s => let* v := of_option ValueError (safe_load s) in Ok (s, v)) sections in
  Ok (omap (fun sv => match sv.2 with YDict d => Some (RuleDefinition sv.1 d) | _ => None end) docs).

(** A key of a document as it is read. *)
Definition dlookup (k : string) (d : list (yaml * yaml)) : option yaml := snd <$> List.find (fun kv => py_eq kv.1 (YStr k)) d.
Definition dpop (k : string) (d : list (yaml * yaml)) : list (yaml * yaml) := List.filter (fun kv => negb (py_eq kv.1 (YStr k))) d.
Definition dset (k v : yaml) (d : list (yaml * yaml)) : list (yaml * yaml) :=
  if existsb (fun kv => py_eq kv.1 k) d then (fun kv => if py_eq kv.1 k then (kv.1, v) else kv) <$> d else d ++ [(k, v)].
Definition dupdate (d e : list (yaml * yaml)) : list (yaml * yaml) := foldl (fun d kv => dset kv.1 kv.2 d) d e.

(** The standard rules by name; [None] when the page or a document of it is not
    as it should be. *)
Definition standard_rules (docs : option (list yaml)) : option (list (yaml * list (yaml * yaml))) :=
  match docs with
  | None => None
  | Some docs =>
      foldl (fun acc v =>
        match acc, v with
        | Some rules, YDict d =>
            match dlookup "standard" d with
            | Some name => if hashable name then Some ((name, dpop "standard" d) :: rules) else None
            | None => None
            end
        | _, _ => None
        end) (Some []) docs
  end.

Definition is_any (ty : option yaml) : bool := match ty with None => true | Some v => py_eq v (YStr "any") end.

(** Both kinds of a rule: the kinds it cannot be of are left out, unless that is both. *)
Definition both_rules (values : list (yaml * yaml)) (source : string) : res (list rule) :=
  let try_type name :=
    match make_rule (dset (YStr "type") (YStr name) values) source with
    | Ok r => Ok (Some r)
    | Raise AutoModeratorRuleTypeError => Ok None
    | Raise e => Raise e
    end in
  let* c := try_type "comment" in
  let* s := try_type "submission" in
  match c, s with
  | None, None => Raise AutoModeratorRuleTypeError
  | _, _ => Ok (List.filter (has_any_checks true) (option_list c ++ option_list s))
  end.

Definition rules_of (standards : option (list (yaml * list (yaml * yaml)))) (rd : rule_definition) : res (list rule) :=
  let name := dlookup "standard" (rd_values rd) in
  let own := dpop "standard" (rd_values rd) in
  let with_values (values : list (yaml * yaml)) :=
    match dlookup "type" values with
    | ty => if is_any ty then both_rules values (rd_yaml rd) else let* r := make_rule values (rd_yaml rd) in Ok [r]
    end in
  if py_true (default YNull name) then
    match standards with
    | None => Ok []
    | Some rules =>
        match (match name with Some (YStr _ as n) => snd <$> List.find (fun kv => py_eq kv.1 n) rules | _ => None end) with
        | Some (kv :: d) => with_values (dupdate (kv :: d) own)
        | _ => Raise AutoModeratorSyntaxError
        end
    end
  else with_values own.

Definition py_int_of (v : yaml) : Z := match v with YInt n => n | YBool b => if b then 1 else 0 | _ => 0 end.

Definition priority (r : rule) : Z := py_int_of (rattr r "priority").

(** [Ruleset.__init__]; [wiki] is the page of the standards, when it is asked for. *)
Definition make_ruleset (wiki : option (list yaml)) (yaml_text : string) : res (list rule) :=
  if String.eqb yaml_text "" then Ok []
  else
    let* defs := rule_defs yaml_text in
    let* rules := res_mapM (rules_of (standard_rules wiki)) defs in
    let kept := List.filter (fun r => has_any_checks false r && has_any_actions r) (concat rules) in
    Ok (isort (fun r r' => priority r' <=? priority r) kept).

Definition removal_rules (rules : list rule) : list rule := List.filter is_removal_rule rules.
Definition nonremoval_rules (rules : list rule) : list rule := List.filter (fun r => negb (is_removal_rule r)) rules.
End automod.
End AutoMod.
