(* ===== verification/AutoModProps.v ===== *)
(** * AutoModerator: properties of the rules

    What a pattern finds, against a reference; what the rules of a text are;
    and the errors of a text. *)

From S2P Require Import Prelude PyString Regex AutoMod.
From Stdlib Require Import Ascii.

Module AutoModProps.
Import PyString Regex AutoMod.

(** ** The reference of matching *)

Section patterns.
Context `{Automod}.

(** A word goes on from one side to the other. *)
Definition in_word (l r : list ascii) : bool := word_at l && word_at r.

(** What each mode asks of the text before and after what is found. *)
Definition edges (mode : string) (pre m post : list ascii) : Prop :=
  if String.eqb mode "full-exact" then pre = [] /\ at_end post = true
  else if String.eqb mode "full-text" then Forall (fun a => is_word a = false) pre /\ Forall (fun a => is_word a = false) post
  else if String.eqb mode "includes" then True
  else if String.eqb mode "includes-word" then in_word (reverse pre) (m ++ post) = false /\ in_word (reverse (pre ++ m)) post = false
  else if String.eqb mode "starts-with" then pre = []
  else at_end post = true.

(** One of the values is found, for a domain perhaps after subdomains. *)
Definition value_found (ic subdomain : bool) (vs : list string) (l : list ascii) : Prop :=
  exists sub m v, l = sub ++ m /\ v ∈ vs /\ same_text ic (chars v) m /\
    (sub = [] \/ subdomain = true /\ exists dom d, sub = dom ++ [d] /\ same_char ic "." d = true).

Definition found (ic : bool) (mode : string) (subdomain : bool) (vs : list string) (s : string) : Prop :=
  exists pre l post, chars s = pre ++ l ++ post /\ value_found ic subdomain vs l /\ edges mode pre l post.

Lemma reach_alternatives ic vs b a b' a' : vs <> [] ->
  reach ic (alternatives vs) b a b' a' <-> exists v m, v ∈ vs /\ same_text ic (chars v) m /\ a = m ++ a' /\ b' = reverse m ++ b.
Proof.
  intros Hne. induction vs as [|v vs IH]; [done|]. destruct vs as [|v' vs].
  - cbn [alternatives]. rewrite reach_lit. split.
    + intros (m & Hm). exists v, m. split; [by left|done].
    + intros (w & m & ->%list_elem_of_singleton & Hm). by exists m.
  - cbn [alternatives]. rewrite reach_alt, reach_lit. change (reach ic (alternatives (v' :: vs)) b a b' a') with
      (reach ic (alternatives (v' :: vs)) b a b' a'). rewrite IH by done. split.
    + intros [(m & Hm) | (w & m & Hw & Hm)]; [exists v, m; split; [by left|done]|exists w, m; split; [by right|done]].
    + intros (w & m & [-> | Hw]%elem_of_cons & Hm); [left; by exists m|right; by exists w, m].
Qed.
Definition value_regex (subdomain : bool) (vs : list string) : regex :=
  if subdomain then RSeq subdomains (RGroup (alternatives vs)) else RGroup (alternatives vs).

Lemma reach_value ic sd vs b a b' a' : vs <> [] ->
  reach ic (value_regex sd vs) b a b' a' <-> exists l, value_found ic sd vs l /\ a = l ++ a' /\ b' = reverse l ++ b.
Proof.
  intros Hne. unfold value_regex, value_found. destruct sd.
  - rewrite reach_seq. setoid_rewrite reach_group. setoid_rewrite reach_alternatives; [|done]. unfold subdomains.
    setoid_rewrite reach_alt. setoid_rewrite reach_seq. setoid_rewrite reach_star. setoid_rewrite reach_lit. setoid_rewrite reach_empty. split.
    + intros (b1 & a1 & [(b2 & a2 & (dom & _ & -> & ->) & (d & Hd & -> & ->)) | [-> ->]] & v & m & Hv & Hm & -> & ->).
      * inversion Hd as [|? e ? l He Hl]; subst. inversion Hl; subst. exists ((dom ++ [e]) ++ m). split; [|split].
        -- exists (dom ++ [e]), m, v. split; [done|]. split; [done|]. split; [done|]. right. split; [done|]. by exists dom, e.
        -- by rewrite <- !app_assoc.
        -- by rewrite !reverse_app, <- !app_assoc.
      * exists m. split; [|done]. exists [], m, v. split; [done|]. split; [done|]. split; [done|by left].
    + intros (l & (sub & m & v & -> & Hv & Hm & Hsub) & -> & ->). exists (reverse sub ++ b), (m ++ a'). split.
      * destruct Hsub as [-> | (_ & dom & d & -> & Hd)]; [by right|]. left. exists (reverse dom ++ b), ([d] ++ m ++ a'). split.
        -- exists dom. split; [by apply Forall_forall|]. split; [by rewrite <- !app_assoc|done].
        -- exists [d]. split; [by repeat constructor|]. split; [done|]. by rewrite reverse_app, <- app_assoc.
      * exists v, m. split; [done|]. split; [done|]. split; [done|]. by rewrite reverse_app, <- app_assoc.
  - rewrite reach_group, reach_alternatives by done. split.
    + intros (v & m & Hv & Hm & -> & ->). exists m. split; [|done]. exists [], m, v. split; [done|]. split; [done|]. split; [done|by left].
    + intros (l & (sub & m & v & -> & Hv & Hm & [-> | [? _]]) & -> & ->); [|done]. by exists v, m.
Qed.

(** A place where no word goes on, found by looking or by taking the character before it. *)
Lemma reach_word_start ic b a b' a' : reach ic (RAlt RBegin (RAlt (RClass NonWord) RBoundary)) b a b' a' ->
  in_word b' a' = false /\ exists m, a = m ++ a' /\ b' = reverse m ++ b.
Proof.
  rewrite !reach_alt, reach_begin, reach_class, reach_boundary. unfold in_word.
  intros [(-> & -> & ->) | [(x & Hx & -> & ->) | (Hx & -> & ->)]]; [split; [done|by exists []]| |].
  - split; [|by exists [x]]. cbn [word_at in_class] in *. apply negb_true_iff in Hx. by rewrite Hx.
  - split; [|by exists []]. by destruct (word_at b), (word_at a).
Qed.

Lemma reach_word_end ic b a : reach ic (RAlt REnd (RAlt (RClass NonWord) RBoundary)) b a b a \/ (exists x a', a = x :: a' /\ is_word x = false) <-> in_word b a = false.
Proof.
  rewrite !reach_alt, reach_end, reach_class, reach_boundary. unfold in_word. split.
  - intros [[(He & _) | [(x & _ & E & _) | (Hx & _)]] | (x & a' & -> & Hx)].
    + destruct a as [|x [|y a]]; [by rewrite andb_false_r| |done]. simpl in He. apply Ascii.eqb_eq in He as ->. by rewrite andb_false_r.
    + exfalso. apply (f_equal length) in E. simpl in E. lia.
    + by destruct (word_at b), (word_at a).
    + simpl. by rewrite Hx, andb_false_r.
  - intros Hw. destruct a as [|x a]; [by left; left|]. destruct (is_word x) eqn:Ex; [|right; by exists x, a].
    left. right. right. simpl in Hw. rewrite Ex, andb_true_r in Hw. simpl. by rewrite Hw, Ex.
Qed.
Lemma reverse_nil_inv {A} (l : list A) : reverse l = [] -> l = [].
Proof. intros E. by rewrite <- (reverse_involutive l), E. Qed.

(** Each mode finds what the reference does. *)
Lemma search_found ic mode sd vs s : mode ∈ match_modes -> vs <> [] ->
  search ic (around mode (value_regex sd vs)) s <> None <-> found ic mode sd vs s.
Proof.
  intros Hmode Hne. rewrite search_reach. unfold found.
  assert (Hnw : forall m, Forall (fun x => in_class NonWord x = true) m <-> Forall (fun x => is_word x = false) m).
  { intros m. rewrite !Forall_forall. cbn [in_class]. setoid_rewrite negb_true_iff. done. }
  unfold match_modes in Hmode. rewrite !elem_of_cons, elem_of_nil in Hmode. destruct Hmode as [-> | [-> | [-> | [-> | [-> | [-> | []]]]]]];
    unfold edges; cbn [String.eqb Ascii.eqb Bool.eqb];
    match goal with |- context [around ?m ?r] => let e := eval cbv [around] in (around m r) in change (around m r) with e end; cbn [String.eqb Ascii.eqb Bool.eqb].
  - setoid_rewrite reach_seq. setoid_rewrite reach_seq. setoid_rewrite reach_begin. setoid_rewrite reach_end. setoid_rewrite reach_value; [|done]. split.
    + intros (pre & post & b' & a' & E & b1 & a1 & (Hp & -> & ->) & b2 & a2 & (l & Hl & -> & ->) & He & -> & ->).
      apply reverse_nil_inv in Hp as ->. by exists [], l, a2.
    + intros (pre & l & post & E & Hl & -> & He). exists [], (l ++ post), (reverse l), post. split; [done|].
      exists [], (l ++ post). split; [done|]. exists (reverse l), post. split; [|done]. exists l. by rewrite app_nil_r.
  - setoid_rewrite reach_seq. setoid_rewrite reach_seq. setoid_rewrite reach_seq. setoid_rewrite reach_seq. setoid_rewrite reach_begin. setoid_rewrite reach_end.
    setoid_rewrite reach_star. setoid_rewrite reach_value; [|done]. split.
    + intros (pre & post & b' & a' & E & b1 & a1 & (Hp & -> & ->) & b2 & a2 & (m & Hm & -> & ->) & b3 & a3 & (l & Hl & -> & ->) & b4 & a4 & (m' & Hm' & -> & ->) & He & -> & ->).
      apply reverse_nil_inv in Hp as ->. exists m, l, (m' ++ a4). split; [done|]. split; [done|]. rewrite <- !Hnw. split; [done|]. apply Forall_app. split; [done|].
      destruct a4 as [|x [|y a4]]; [done| |done]. simpl in He. apply Ascii.eqb_eq in He as ->. by repeat constructor.
    + intros (pre & l & post & E & Hl & Hpre & Hpost). exists [], (pre ++ l ++ post), (reverse post ++ reverse l ++ reverse pre), [].
      split; [done|]. exists [], (pre ++ l ++ post). split; [done|]. exists (reverse pre), (l ++ post). split; [exists pre; rewrite Hnw, app_nil_r; done|].
      exists (reverse l ++ reverse pre), post. split; [by exists l|]. exists (reverse post ++ reverse l ++ reverse pre), []. split; [|done].
      exists post. rewrite Hnw, app_nil_r. done.
  - setoid_rewrite reach_value; [|done]. split.
    + intros (pre & post & b' & a' & E & l & Hl & -> & ->). by exists pre, l, a'.
    + intros (pre & l & post & E & Hl & _). exists pre, (l ++ post), (reverse l ++ reverse pre), post. split; [done|]. by exists l.
  - setoid_rewrite reach_seq. setoid_rewrite reach_seq. setoid_rewrite reach_value; [|done]. split.
    + intros (pre & post & b' & a' & E & b1 & a1 & H1 & b2 & a2 & (l & Hl & -> & ->) & H2).
      destruct (reach_word_start _ _ _ _ _ H1) as [Hw (m & -> & ->)]. exists (pre ++ m), l, a2. split; [by rewrite E, <- app_assoc|].
      split; [done|]. split; [by rewrite reverse_app|]. apply (reach_word_end ic). rewrite !reverse_app.
      rewrite !reach_alt, reach_end, reach_class, reach_boundary in H2. rewrite !reach_alt, reach_end, reach_class, reach_boundary.
      destruct H2 as [(? & -> & ->) | [(x & Hx & -> & ->) | (? & -> & ->)]]; [left; by left|right|left; right; by right].
      exists x, a'. split; [done|]. cbn [in_class] in Hx. by apply negb_true_iff.
    + intros (pre & l & post & E & Hl & Hw1 & Hw2).
      assert (Hend : exists b' a', reach ic (RAlt REnd (RAlt (RClass NonWord) RBoundary)) (reverse (pre ++ l)) post b' a').
      { apply (reach_word_end ic) in Hw2 as [Hr | (x & a' & -> & Hx)]; [by eexists _, _|]. eexists _, a'. rewrite !reach_alt, reach_class. right. left.
        exists x. split; [|done]. cbn [in_class]. by rewrite Hx. }
      destruct Hend as (b' & a' & Hend). assert (Hstart : exists pre' x, pre = pre' ++ x /\ reach ic (RAlt RBegin (RAlt (RClass NonWord) RBoundary))
        (reverse pre') (x ++ l ++ post) (reverse pre) (l ++ post)).
      { destruct (decide (pre = [])) as [-> | Hpre]; [exists [], []; split; [done|]; rewrite reach_alt, reach_begin; by left|].
        destruct (exists_last Hpre) as (pre' & x & ->). unfold in_word in Hw1. rewrite reverse_snoc in Hw1. cbn [word_at] in Hw1. destruct (is_word x) eqn:Ex.
        - exists (pre' ++ [x]), []. split; [by rewrite app_nil_r|]. rewrite !reach_alt, reach_boundary. right. right. rewrite reverse_snoc. cbn [word_at app].
          rewrite Ex. simpl in Hw1. rewrite Hw1. done.
        - exists pre', [x]. split; [done|]. rewrite !reach_alt, reach_class. right. left. exists x. rewrite reverse_snoc. cbn [in_class]. by rewrite Ex. }
      destruct Hstart as (pre' & x & Epre & Hstart). exists pre', (x ++ l ++ post), b', a'. split; [by rewrite E, Epre, <- app_assoc|].
      exists (reverse pre), (l ++ post). split; [exact Hstart|]. exists (reverse l ++ reverse pre), post. split; [by exists l|]. by rewrite <- reverse_app.
  - setoid_rewrite reach_seq. setoid_rewrite reach_begin. setoid_rewrite reach_value; [|done]. split.
    + intros (pre & post & b' & a' & E & b1 & a1 & (Hp & -> & ->) & l & Hl & -> & ->). apply reverse_nil_inv in Hp as ->. by exists [], l, a'.
    + intros (pre & l & post & E & Hl & ->). exists [], (l ++ post), (reverse l), post. split; [done|]. exists [], (l ++ post). split; [done|].
      exists l. by rewrite app_nil_r.
  - setoid_rewrite reach_seq. setoid_rewrite reach_end. setoid_rewrite reach_value; [|done]. split.
    + intros (pre & post & b' & a' & E & b1 & a1 & (l & Hl & -> & ->) & He & -> & ->). by exists pre, l, a1.
    + intros (pre & l & post & E & Hl & He). exists pre, (l ++ post), (reverse l ++ reverse pre), post. split; [done|].
      exists (reverse l ++ reverse pre), post. split; [by exists l|done].
Qed.
Lemma match_mode_valid p : match_mode p ∈ match_modes.
Proof.
  unfold match_mode. destruct (List.find _ _) as [m|] eqn:E; [apply find_some in E as [_ E]; by apply bool_decide_eq_true in E|].
  assert (Hd : forall f, match_field_default f ∈ match_modes).
  { intros f. unfold match_field_default. repeat case_bool_decide; unfold match_modes; rewrite !elem_of_cons; tauto. }
  destruct (pk_fields p) as [|f [|]]; [|apply Hd|]; unfold match_modes; rewrite !elem_of_cons; tauto.
Qed.

(** C21. A pattern made of plain values is found in a text exactly where the
    documentation of its modifier says: for a whole text, at its start or end,
    inside it, or where no word goes on at either side, in the letters as
    written or in any case, for domains also after subdomains. *)
Theorem patterns_find_reference p v pat s :
  "regex" ∉ pk_modifiers p -> py_true v = true -> make_pattern p (value_texts v) = Ok pat ->
  pattern_search pat s <> None <->
  found (negb (bool_decide ("case-sensitive" ∈ pk_modifiers p))) (match_mode p) (with_subdomains p) (value_texts v) s.
Proof.
  intros Hr Hv. unfold make_pattern. rewrite bool_decide_false by done. intros [= <-]. cbn [pattern_search].
  change (if with_subdomains p then RSeq subdomains (RGroup (alternatives (value_texts v))) else RGroup (alternatives (value_texts v)))
    with (value_regex (with_subdomains p) (value_texts v)). apply search_found; [apply match_mode_valid|]. destruct v; try done. by destruct l.
Qed.
End patterns.

(** ** What rules are *)

Section rules.
Context `{AutomodLaws}.

(** A value a component may have on a target. *)
Definition typed (on : bool) (c : component) (v : yaml) : Prop := if on then v = default_value c \/ validate c v = Ok true else v = YNull.

Definition on (ty : target_type) (c : component) : bool := bool_decide (ty ∈ valid_targets c).

Lemma set_value_typed ty b k c b' : set_value ty b (k, c) = Ok b' ->
  exists v, b_attrs b' = <[k := v]> (b_attrs b) /\ typed (on ty c) c v.
Proof.
  unfold set_value, typed, on. destruct (bool_decide (ty ∈ valid_targets c)).
  - destruct (pop_sources _ _) as [v d]. destruct v; try (destruct (validate c _) as [[]|] eqn:Ev; cbn [res_bind]; [|done..]);
      intros [= <-]; eexists; (split; [reflexivity|]); by auto.
  - destruct (bool_decide _); [done|]. intros [= <-]. by eexists.
Qed.

Lemma set_rule_value_typed b k c b' : set_rule_value b (k, c) = Ok b' -> exists v, b_attrs b' = <[k := v]> (b_attrs b) /\ typed true c v.
Proof.
  unfold set_rule_value, typed. destruct (lookup k (b_values b)) as [v|].
  - destruct (validate c v) as [[]|] eqn:Ev; cbn [res_bind]; [|done..]. intros [= <-]. exists v. by auto.
  - intros [= <-]. eexists. split; [reflexivity|by left].
Qed.

(** The loop over the components, in any order. *)
Lemma fold_typed (f : building -> string * component -> res building) (P : component -> yaml -> Prop) :
  (forall b k c b', f b (k, c) = Ok b' -> exists v, b_attrs b' = <[k := v]> (b_attrs b) /\ P c v) ->
  forall l b b', NoDup l.*1 -> res_foldl f b l = Ok b' ->
  (forall k c, (k, c) ∈ l -> exists v, b_attrs b' !! k = Some v /\ P c v) /\ (forall k, k ∉ l.*1 -> b_attrs b' !! k = b_attrs b !! k).
Proof.
  intros Hf. induction l as [|[k c] l IH]; intros b b' Hnd Hl.
  - injection Hl as <-. split; [by intros k c ?%elem_of_nil|done].
  - cbn [res_foldl] in Hl. destruct (f b (k, c)) as [b1|] eqn:E1; [|done]. cbn [res_bind] in Hl. rewrite fmap_cons in Hnd.
    apply NoDup_cons in Hnd as [Hk Hnd]. destruct (IH b1 b' Hnd Hl) as [I1 I2]. destruct (Hf _ _ _ _ E1) as (v & Ev & Pv). split.
    + intros k' c' [[= -> ->] | Hin]%elem_of_cons; [|by apply I1]. exists v. split; [|done]. rewrite I2 by done. by rewrite Ev, lookup_insert_eq.
    + intros k' Hk'. rewrite fmap_cons, not_elem_of_cons in Hk'. destruct Hk' as [Hne Hk']. rewrite I2 by done. rewrite Ev.
      cbn in Hne. by rewrite lookup_insert_ne.
Qed.

Lemma iter_fold_typed (f : building -> string * component -> res building) P (components : list (string * component)) b b' :
  (forall b k c b', f b (k, c) = Ok b' -> exists v, b_attrs b' = <[k := v]> (b_attrs b) /\ P c v) ->
  NoDup components.*1 -> res_foldl f b (iter components) = Ok b' ->
  forall k c, (k, c) ∈ components -> exists v, b_attrs b' !! k = Some v /\ P c v.
Proof.
  intros Hf Hnd Hl k c Hin. destruct (fold_typed f P Hf (iter components) b b') as [I1 _]; [|done|].
  - by rewrite (iter_perm components).
  - apply I1. by rewrite (iter_perm components).
Qed.

Lemma components_distinct : NoDup _potential_components.*1.
Proof. apply (bool_decide_unpack _). vm_compute. exact I. Qed.

Lemma rule_components_distinct : NoDup rule_components.*1.
Proof. apply (bool_decide_unpack _). vm_compute. exact I. Qed.

Lemma distinct_unique (l : list (string * component)) k c c' : NoDup l.*1 -> (k, c) ∈ l -> (k, c') ∈ l -> c = c'.
Proof.
  induction l as [|[k0 c0] l IH]; [by intros _ ?%elem_of_nil|]. rewrite fmap_cons. intros [Hk Hnd]%NoDup_cons. rewrite !elem_of_cons.
  assert (Hin : forall d, (k0, d) ∈ l -> False) by (intros d Hd; apply Hk, list_elem_of_fmap; by exists (k0, d)).
  intros [E1 | H1] [E2 | H2]; [congruence| | |by apply IH]; exfalso.
  - injection E1 as -> ->. by eapply Hin.
  - injection E2 as -> ->. by eapply Hin.
Qed.

(** The attributes of a target. *)
Definition typed_target (t : rule_target) : Prop :=
  (forall k c, (k, c) ∈ _potential_components -> typed (on (on_type t) c) c (attr t k)) /\
  flair t = flair_pair (attr t "set_flair") /\
  (forall key pat, (key, pat) ∈ match_patterns t -> exists p, parse_match_fields_key (on_type t) key = Ok p /\ pk_fields p <> [] /\
     (forall f, f ∈ pk_fields p -> f ∈ match_fields t /\ f ∈ match_fields_of (on_type t))).

Lemma parsed_fields ty key p : parse_match_fields_key ty key = Ok p -> pk_fields p <> [] /\ forall f, f ∈ pk_fields p -> f ∈ match_fields_of ty.
Proof.
  unfold parse_match_fields_key. destruct (key_regex key) as [[name mods]|]; [|done]. destruct (partition _ _) as [[base ?] ?].
  destruct (existsb _ (py_strip <$> _)); [done|]. set (fs := remove_dups _). destruct fs as [|f0 fs'] eqn:Ef; [done|]. destruct (existsb _ _); [done|].
  intros [= <-]. cbn [pk_fields]. split; [done|]. intros f Hf. rewrite <- Ef in Hf. unfold fs in Hf. rewrite elem_of_remove_dups in Hf.
  apply elem_of_filter_bool in Hf as [Hf _]. by apply bool_decide_eq_true in Hf.
Qed.

Lemma patterns_typed ty values fp : get_match_patterns ty values = Ok fp ->
  forall key pat, (key, pat) ∈ fp.2 -> exists p, parse_match_fields_key ty key = Ok p /\ pk_fields p <> [] /\
    (forall f, f ∈ pk_fields p -> f ∈ fp.1 /\ f ∈ match_fields_of ty).
Proof.
  unfold get_match_patterns. assert (Hgen : forall l acc, res_foldl (add_pattern ty) acc l = Ok fp ->
    (forall key pat, (key, pat) ∈ acc.2 -> exists p, parse_match_fields_key ty key = Ok p /\ pk_fields p <> [] /\
      (forall f, f ∈ pk_fields p -> f ∈ acc.1 /\ f ∈ match_fields_of ty)) ->
    forall key pat, (key, pat) ∈ fp.2 -> exists p, parse_match_fields_key ty key = Ok p /\ pk_fields p <> [] /\
      (forall f, f ∈ pk_fields p -> f ∈ fp.1 /\ f ∈ match_fields_of ty)).
  { induction l as [|[k v] l IH]; intros acc Hl Hacc; [by injection Hl as <-|]. cbn [res_foldl] in Hl.
    destruct (add_pattern ty acc (k, v)) as [acc'|] eqn:E; [|done]. cbn [res_bind] in Hl. apply (IH acc' Hl). clear IH Hl.
    unfold add_pattern in E. cbn [fst snd] in E. destruct (parse_match_fields_key ty k) as [p|] eqn:Ep; [|done]. cbn [res_bind] in E.
    destruct (parsed_fields _ _ _ Ep) as [Hne Hf].
    assert (Hacc' : forall key pat, (key, pat) ∈ acc.2 -> exists p0, parse_match_fields_key ty key = Ok p0 /\ pk_fields p0 <> [] /\
      (forall f, f ∈ pk_fields p0 -> f ∈ remove_dups (acc.1 ++ pk_fields p) /\ f ∈ match_fields_of ty)).
    { intros key pat Hin. destruct (Hacc key pat Hin) as (p0 & E0 & N0 & F0). exists p0. split; [done|]. split; [done|]. intros f Hf0.
      destruct (F0 f Hf0). split; [|done]. apply elem_of_remove_dups, elem_of_app. by left. }
    destruct (py_true v); [|injection E as <-; exact Hacc']. destruct (make_pattern p (value_texts v)) as [pat0|]; [|done].
    injection E as <-. cbn [fst snd]. intros key pat [Hin | [= -> ->]%list_elem_of_singleton]%elem_of_app; [by eapply Hacc'|].
    exists p. split; [done|]. split; [done|]. intros f Hf0. split; [apply elem_of_remove_dups, elem_of_app; by right|by apply Hf]. }
  intros Hl. apply (Hgen _ _ Hl). by intros key pat ?%elem_of_nil.
Qed.

Lemma make_target_typed ty values ap t : make_target ty values ap = Ok t -> typed_target t /\ on_type t = ty.
Proof.
  unfold make_target, set_values. destruct (res_foldl (set_value ty) _ _) as [b|] eqn:Eb; [|done]. cbn [res_bind].
  pose proof (iter_fold_typed (set_value ty) (fun c v => typed (on ty c) c v) _ _ _ (set_value_typed ty) components_distinct Eb) as Ht.
  set (b' := match b_attrs b !! "set_suggested_sort" with Some _ => _ | None => b end).
  assert (Ht' : forall k c, (k, c) ∈ _potential_components -> exists v, b_attrs b' !! k = Some v /\ typed (on ty c) c v).
  { intros k c Hin. destruct (Ht k c Hin) as (v & Ev & Tv). unfold b'. destruct (b_attrs b !! "set_suggested_sort") as [w|] eqn:Es; [|by exists v].
    destruct (py_eq w (YStr "best")) eqn:Eb'; [|by exists v]. cbn [b_attrs]. destruct (decide (k = "set_suggested_sort")) as [-> | Hk].
    - exists (YStr "confidence"). rewrite lookup_insert_eq. split; [done|].
      assert (Hc : c = with_values (YStr <$> suggested_sort_options ++ ["best"]) (comp [] [TLink] Action)).
      { eapply (distinct_unique _potential_components); [apply components_distinct|exact Hin|]. unfold _potential_components. rewrite !elem_of_cons. tauto. }
      subst c. rewrite Es in Ev. injection Ev as ->. unfold typed in Tv |- *. destruct (on ty _); [by right|]. by subst v.
    - exists v. by rewrite lookup_insert_ne by done. }
  destruct (get_match_patterns ty (b_values b')) as [fp|] eqn:Ef; [|done]. cbn [res_bind]. intros [= <-]. split; [|done].
  split; [|split].
  - intros k c Hin. destruct (Ht' k c Hin) as (v & Ev & Tv). unfold attr. cbn [attrs on_type]. by rewrite Ev.
  - done.
  - cbn [match_patterns on_type match_fields]. by eapply patterns_typed.
Qed.
(** A rule of a text. *)
Definition typed_rule (r : rule) : Prop :=
  (forall k c, (k, c) ∈ rule_components -> typed true c (rattr r k)) /\
  (exists ty, rattr r "type" = YStr ty /\ AutoMod.lookup ty _valid_type_map = Some (base_type r)) /\
  (forall key t, (key, t) ∈ targets r -> typed_target t /\
    (key = "base" /\ on_type t = base_type r \/ key = "author" /\ on_type t = TAccount \/
     key = "parent_submission" /\ on_type t = TLink /\ base_type r = TComment)) /\
  (exists t, target r "base" = Some t /\ ("base", t) ∈ targets r /\ forall t', ("base", t') ∈ targets r -> t' = t).

Lemma make_rule_typed values source r : make_rule values source = Ok r -> typed_rule r.
Proof.
  unfold make_rule. destruct (lowercase_keys_recursively values) as [vs|]; [|done]. cbn [res_bind].
  destruct (res_foldl set_rule_value _ _) as [b|] eqn:Eb; [|done]. cbn [res_bind].
  pose proof (iter_fold_typed set_rule_value (typed true) _ _ _ set_rule_value_typed rule_components_distinct Eb) as Ht.
  assert (Hty : exists tv, b_attrs b !! "type" = Some tv) by (destruct (Ht "type" _ ltac:(unfold rule_components; by left)) as (v & Ev & _); by exists v).
  destruct (b_attrs b !! "type") as [tv|] eqn:Et; [|by destruct Hty]. destruct tv as [| | |ts| | |]; try done.
  destruct (AutoMod.lookup ts _valid_type_map) as [ty|] eqn:Ety; [|done]. cbn [of_option res_bind].
  destruct (pop "author" (b_values b)) as [author v1]. destruct (pop "~author" v1) as [not_author v2].
  set (av := author_values author not_author).
  set (at' := match av with [] => Ok [] | _ => _ end). destruct at' as [ats|] eqn:Ea; [|done]. cbn [res_bind].
  assert (Hats : forall key t, (key, t) ∈ ats -> key = "author" /\ typed_target t /\ on_type t = TAccount).
  { subst at'. destruct av as [|kv av]; [injection Ea as <-; by intros key t ?%elem_of_nil|].
    destruct (make_target TAccount (kv :: av) true) as [ta|] eqn:Em; [|done]. injection Ea as <-. intros key t [= -> ->]%list_elem_of_singleton.
    split; [done|]. by eapply make_target_typed. }
  destruct (pop "parent_submission" v2) as [parent v3].
  set (pt := match parent with Some _ => _ | None => Ok [] end). destruct pt as [pts|] eqn:Ep; [|done]. cbn [res_bind].
  assert (Hpts : forall key t, (key, t) ∈ pts -> key = "parent_submission" /\ typed_target t /\ on_type t = TLink /\ ty = TComment).
  { subst pt. destruct parent as [v|]; [|injection Ep as <-; by intros key t ?%elem_of_nil]. destruct (py_true v); [|injection Ep as <-; by intros key t ?%elem_of_nil].
    destruct ty; try done. destruct v; try done. destruct (make_target TLink (text_keys d) true) as [tl|] eqn:Em; [|done]. injection Ep as <-.
    intros key t [= -> ->]%list_elem_of_singleton. apply make_target_typed in Em as [T1 T2]. done. }
  destruct (make_target ty v3 _) as [tb|] eqn:Em; [|done]. intros [= <-]. apply make_target_typed in Em as [T1 T2].
  split; [|split; [|split]].
  - intros k c Hin. destruct (Ht k c Hin) as (v & Ev & Tv). unfold rattr. cbn [r_attrs]. by rewrite Ev.
  - exists ts. unfold rattr. cbn [r_attrs base_type]. by rewrite Et.
  - cbn [targets base_type]. intros key t [Hin | [Hin | [= -> ->]%list_elem_of_singleton]%elem_of_app]%elem_of_app.
    + destruct (Hats _ _ Hin) as (-> & ? & ?). split; [done|]. right. by left.
    + destruct (Hpts _ _ Hin) as (-> & ? & ? & ?). split; [done|]. right. by right.
    + split; [done|]. by left.
  - unfold target. cbn [targets]. exists tb. split; [|split; [apply elem_of_app; right; apply elem_of_app; right; by left|]].
    2: { intros t' [Hin | [Hin | [= ->]%list_elem_of_singleton]%elem_of_app]%elem_of_app; [|by destruct (Hpts _ _ Hin)|done].
      by destruct (Hats _ _ Hin). }
    clear -Hats Hpts.
    assert (Hl : forall l k (w : rule_target), (forall key t, (key, t) ∈ l -> key <> k) -> AutoMod.lookup k (l ++ [(k, w)]) = Some w).
    { induction l as [|[k0 t0] l IH]; intros k w Hne; cbn [app AutoMod.lookup]; [by rewrite String.eqb_refl|].
      destruct (String.eqb_spec k0 k) as [-> |]; [by destruct (Hne k t0 ltac:(by left))|]. apply IH. intros key t Hin. apply (Hne key t). by right. }
    rewrite app_assoc. apply Hl. intros key t [Hin | Hin]%elem_of_app; [by destruct (Hats _ _ Hin) as [-> _]|by destruct (Hpts _ _ Hin) as [-> _]].
Qed.

Lemma rules_of_typed standards rd rs : rules_of standards rd = Ok rs -> Forall typed_rule rs.
Proof.
  unfold rules_of. assert (Hboth : forall values source rs', both_rules values source = Ok rs' -> Forall typed_rule rs').
  { intros values source rs'. unfold both_rules.
    assert (Htry : forall name o, (match make_rule (dset (YStr "type") (YStr name) values) source with
        | Ok r => Ok (Some r) | Raise AutoModeratorRuleTypeError => Ok None | Raise e => Raise e end) = Ok o -> Forall typed_rule (option_list o)).
    { intros name o. destruct (make_rule _ source) as [ru|e] eqn:E; [|destruct e; try done; intros [= <-]; constructor].
      intros [= <-]. constructor; [by eapply make_rule_typed|constructor]. }
    destruct (match make_rule (dset (YStr "type") (YStr "comment") values) source with Ok _ => _ | Raise _ => _ end) as [c|] eqn:Ec; [|done]. cbn [res_bind].
    destruct (match make_rule (dset (YStr "type") (YStr "submission") values) source with Ok _ => _ | Raise _ => _ end) as [s|] eqn:Es; [|done]. cbn [res_bind].
    apply Htry in Ec, Es. assert (Hall : Forall typed_rule (option_list c ++ option_list s)) by by apply Forall_app.
    assert (Hfin : forall l, Forall typed_rule l -> Forall typed_rule (List.filter (has_any_checks true) l)).
    { intros l Hl. apply Forall_forall. intros ru [_ Hin]%elem_of_filter_bool. rewrite Forall_forall in Hl. by apply Hl. }
    destruct c, s; try done; intros [= <-]; exact (Hfin _ Hall). }
  assert (Hw : forall values, (if is_any (dlookup "type" values) then both_rules values (rd_yaml rd) else let* r := make_rule values (rd_yaml rd) in Ok [r]) = Ok rs ->
    Forall typed_rule rs).
  { intros values. destruct (is_any _); [by apply Hboth|]. destruct (make_rule values (rd_yaml rd)) as [ru|] eqn:E; [|done]. intros [= <-].
    constructor; [by eapply make_rule_typed|constructor]. }
  destruct (py_true _); [|apply Hw]. destruct standards as [rules|]; [|intros [= <-]; constructor].
  destruct (match dlookup "standard" (rd_values rd) with Some _ => _ | None => None end) as [[|kv d]|]; [done| |done]. apply Hw.
Qed.

Lemma StronglySorted_weaken {A} (R R' : A -> A -> Prop) l :
  (forall x y, R x y -> R' x y) -> StronglySorted R l -> StronglySorted R' l.
Proof. intros Hi. induction 1 as [|x l _ IH Hx]; constructor; [done|]. eapply Forall_impl; [exact Hx|apply Hi]. Qed.

(** The rules that are kept have something to check and something to do. *)
Lemma kept_typed wiki yaml_text rs : make_ruleset wiki yaml_text = Ok rs ->
  Forall (fun r => typed_rule r /\ has_any_checks false r = true /\ has_any_actions r = true) rs.
Proof.
  unfold make_ruleset. destruct (String.eqb yaml_text ""); [intros [= <-]; constructor|].
  destruct (rule_defs yaml_text) as [defs|]; [|done]. cbn [res_bind]. destruct (res_mapM _ defs) as [rules|] eqn:Er; [|done]. cbn [res_bind].
  assert (Hall : Forall (Forall typed_rule) rules).
  { revert rules Er. clear rs. induction defs as [|rd defs IH]; intros rules; cbn [res_mapM]; [intros [= <-]; constructor|].
    destruct (rules_of _ rd) as [r|] eqn:E1; [|done]. cbn [res_bind]. destruct (res_mapM _ defs) as [rest|]; [|done]. intros [= <-].
    constructor; [by eapply rules_of_typed|by apply IH]. }
  intros [= <-]. apply Forall_forall. intros r Hr. apply elem_of_isort in Hr. apply elem_of_filter_bool in Hr as [[Hc Ha]%andb_true_iff Hr]. split; [|done].
  apply list_elem_of_In, in_concat in Hr as (l & Hl & Hr). rewrite Forall_forall in Hall. specialize (Hall l). rewrite list_elem_of_In in Hall.
  specialize (Hall Hl). rewrite Forall_forall in Hall. apply Hall. by apply list_elem_of_In.
Qed.

(** C20. Whatever text a sub has for its rules, the rules that come of it are well
    typed: their settings are ones the code allows, their patterns are about
    fields of what they are for; each has something to check and something to
    do, and they come in the order of their priorities. *)
Theorem ruleset_typed wiki yaml_text rs : make_ruleset wiki yaml_text = Ok rs ->
  Forall (fun r => typed_rule r /\ has_any_checks false r = true /\ has_any_actions r = true) rs /\
  StronglySorted (fun r r' => priority r' <= priority r) rs.
Proof.
  intros Hrs. split; [by eapply kept_typed|]. revert Hrs. unfold make_ruleset. destruct (String.eqb yaml_text ""); [intros [= <-]; constructor|].
  destruct (rule_defs yaml_text) as [defs|]; [|done]. cbn [res_bind]. destruct (res_mapM _ defs) as [rules|]; [|done]. intros [= <-].
  set (leb := fun r r' : rule => priority r' <=? priority r). eapply StronglySorted_weaken; [|apply isort_sorted; unfold leb; intros; lia].
  intros x y Hle. apply Is_true_true in Hle. unfold leb in Hle. lia.
Qed.
End rules.
End AutoModProps.
