(* ===== verification/AutoModRun.v ===== *)
(** * AutoModerator: checking a post and acting on it

    The conditions of lib/automoderator.py against a post, its author and its
    link, the actions on the state of [Moderation.v], the texts that are sent,
    and the consumer of the queue with the rules it keeps per sub. *)

From S2P Require Import Prelude PyString Effects Regex Moderation AutoMod.
From Stdlib Require Import Ascii.

Module AutoModRun.
Import PyString Regex Moderation AutoMod.

(** ** Posts, accounts and subs *)

(** What a rule reads of a post besides its moderation: the embedded media is a
    dictionary of which [oembed] may be missing. *)
Record post := MkPost {
  p_id36 : string;
  p_is_self : bool;
  p_title : string;
  p_url : string;
  p_text : string;
  p_domain : string;
  p_permalink : string;
  p_parent : option string;
  p_link : string;
  p_edited : bool;
  p_media : option (option (list (string * string)));
  p_flair_text : option string;
  p_flair_css_class : option string;
  over_18 : bool;
  contest_mode : bool;
  locked : bool;
  suggested_sort : option string
}.

Record account := MkAccount {
  a_id36 : string;
  a_name : string;
  a_deleted : bool;
  is_global_banned : bool;
  link_karma : Z;
  comment_karma : Z;
  created : Z;
  gold : bool;
  flair_enabled : bool;
  a_flair_text : option string;
  a_flair_css_class : option string
}.

Record subreddit := MkSub { s_id : Z; s_name : string; moderators : list Z; contributors : list Z }.

(** What a rule sends out. *)
Inductive sent :=
  | Reply (link : string) (parent : option string) (text : string) (stickied : bool)
  | Modmail (sub : Z) (subject text : string)
  | Message (user : Z) (subject text : string).

Record world := World {
  ms : mstate;
  post_of : gmap string post;
  account_of : gmap Z account;
  has_flair : gset Z;
  performed : gmap string (gset string);
  outbox : list sent
}.

Definition with_ms (m : mstate) (w : world) : world := World m (post_of w) (account_of w) (has_flair w) (performed w) (outbox w).
Definition with_posts (p : gmap string post) (w : world) : world := World (ms w) p (account_of w) (has_flair w) (performed w) (outbox w).
Definition with_accounts (a : gmap Z account) (f : gset Z) (w : world) : world := World (ms w) (post_of w) a f (performed w) (outbox w).
Definition with_performed (p : gmap string (gset string)) (w : world) : world := World (ms w) (post_of w) (account_of w) (has_flair w) p (outbox w).
Definition send (m : sent) (w : world) : world := World (ms w) (post_of w) (account_of w) (has_flair w) (performed w) (outbox w ++ [m]).

Notation M := (effect world).

(** ** Texts *)

Section texts.

(** [s.replace(old, new)]: what is replaced is counted down before the scan goes on. *)
Fixpoint replace_text (old new s : string) (skip : nat) : string :=
  match s with
  | EmptyString => EmptyString
  | String a s' =>
      match skip with
      | S k => replace_text old new s' k
      | O => if py_startswith old s then new +:+ replace_text old new s' (String.length old - 1) else String a (replace_text old new s' 0)
      end
  end.

Definition py_replace (old new s : string) : string := if String.eqb old "" then s else replace_text old new s 0.

(** [splitlines()] of a unicode text. *)
Definition is_line_end (a : ascii) : bool := bool_decide (nat_of_ascii a ∈ [10; 11; 12; 13; 28; 29; 30; 133]%nat).

Fixpoint lines_from (cur : string) (s : string) : list string :=
  match s with
  | EmptyString => if String.eqb cur "" then [] else [cur]
  | String a s' =>
      if is_line_end a then
        cur :: match s' with
               | String b s'' => if Ascii.eqb a "013" && Ascii.eqb b "010" then lines_from "" s'' else lines_from "" s'
               | EmptyString => []
               end
      else lines_from (cur +:+ String a "") s'
  end.

Definition splitlines : string -> list string := lines_from "".

(** The words of a text without what is around them. *)
Definition strip_nonword (s : string) : string := py_rstrip (fun a => negb (is_word a)) (py_lstrip (fun a => negb (is_word a)) s).
End texts.

(** What is not in the program: the dictionaries of [AutoMod.v], the check of
    markdown, and the configuration; [deleted_user] is the account that stands in
    for the author of a post who is gone. *)
Class Running := {
  souptest : string -> res unit;
  bot : Z;
  bot_name : string;
  deleted_user : Z;
  DISCLAIMER : string;
  link_karma_display_floor : Z;
  comment_karma_display_floor : Z
}.

Section run.
Context `{Automod} `{ModConfig} `{Running}.

(** The objects a rule is checked against: [data], and the post itself. *)
Record data := MkData {
  d_item : string;
  d_sub : subreddit;
  d_author : Z;
  d_link : option string;
  d_is_submitter : option bool
}.

Inductive subject := SPost (x : string) | SAccount (a : Z).

Definition get_post (x : string) (w : world) : res post := of_option NotFound (post_of w !! x).
Definition get_thing (x : string) (w : world) : res mthing := of_option NotFound (things (ms w) !! x).
Definition get_account (a : Z) (w : world) : res account := of_option NotFound (account_of w !! a).

(** ** Fields *)

(** [body], with an attribute error for links to elsewhere. *)
Definition body_of (t : mthing) (p : post) : res string :=
  match m_kind t with LinkK => if p_is_self p then Ok (p_text p) else Raise AttributeError | CommentK => Ok (p_text p) end.

Definition without_quotes (s : string) : string :=
  py_join (String newline "") (List.filter (fun l => negb (py_startswith ">" l) && negb (String.eqb l "")) (splitlines s)).

Definition media_key (field : string) : string :=
  if String.eqb field "media_author" then "author_name" else if String.eqb field "media_author_url" then "author_url"
  else if String.eqb field "media_description" then "description" else "title".

Definition account_flair_text (a : account) : option string := if flair_enabled a then a_flair_text a else None.
Definition account_flair_class (a : account) : option string := if flair_enabled a then a_flair_css_class a else None.

(** [get_field_value_from_item] for the fields that are matched; [None] is
    Python's, which no pattern can be searched in. *)
Definition post_field (t : rule_target) (d : data) (x : string) (field : string) (w : world) : res (option string) :=
  let* th := get_thing x w in
  let* p := get_post x w in
  if String.eqb field "id" then Ok (Some (p_id36 p))
  else if String.eqb field "body" then
    let* b := body_of th p in Ok (Some (if py_true (attr t "ignore_blockquotes") then without_quotes b else b))
  else if String.eqb field "domain" then Ok (Some (if p_is_self p then "self." +:+ s_name (d_sub d) else p_domain p))
  else if py_startswith "media_" field then
    match p_media p with
    | Some (Some oembed) => Ok (Some (default "" (lookup (media_key field) oembed)))
    | _ => Ok (Some "")
    end
  else if String.eqb field "title" then Ok (Some (p_title p))
  else if String.eqb field "url" then Ok (Some (p_url p))
  else if String.eqb field "flair_text" then Ok (p_flair_text p)
  else if String.eqb field "flair_css_class" then Ok (p_flair_css_class p)
  else Ok (Some "").

Definition account_field (a : Z) (field : string) (w : world) : res (option string) :=
  let* ac := get_account a w in
  Ok (if String.eqb field "id" then Some (a_id36 ac)
      else if String.eqb field "name" then Some (a_name ac)
      else if String.eqb field "flair_text" then account_flair_text ac
      else if String.eqb field "flair_css_class" then account_flair_class ac
      else Some "").

Definition field_value (t : rule_target) (d : data) (s : subject) (field : string) (w : world) : res (option string) :=
  match s with SPost x => post_field t d x field w | SAccount a => account_field a field w end.

(** ** Conditions *)

(** An attribute that is set must equal what holds. *)
Definition flag_ok (v : yaml) (b : bool) : bool := match v with YNull => true | v => py_eq v (YBool b) end.

Definition length_ok (t : rule_target) (s : string) : bool :=
  let n := Z.of_nat (String.length (strip_nonword s)) in
  match attr t "body_longer_than" with YNull => true | v => py_int_of v <? n end &&
  match attr t "body_shorter_than" with YNull => true | v => n <? py_int_of v end.

Definition has_body (th : mthing) (p : post) : bool := match m_kind th with LinkK => p_is_self p | CommentK => true end.

Definition check_nonpattern_conditions (t : rule_target) (d : data) (s : subject) (w : world) : res bool :=
  match s with
  | SPost x =>
      let* th := get_thing x w in
      let* p := get_post x w in
      let reports_ok := negb (py_true (attr t "reports")) || (py_int_of (attr t "reports") <=? reported th) in
      let* b := (if has_body th p then post_field t d x "body" w else Ok (Some "")) in
      Ok (reports_ok && (negb (has_body th p) || length_ok t (default "" b)) &&
          flag_ok (attr t "is_top_level") (match p_parent p with None => true | Some _ => false end) &&
          flag_ok (attr t "is_edited") (p_edited p))
  | SAccount a =>
      let* ac := get_account a w in
      Ok (flag_ok (attr t "is_submitter") (default true (d_is_submitter d)) &&
          flag_ok (attr t "is_moderator") (bool_decide (a ∈ moderators (d_sub d))) &&
          flag_ok (attr t "is_contributor") (bool_decide (a ∈ contributors (d_sub d))) &&
          flag_ok (attr t "is_gold") (gold ac))
  end.

(** [timeinterval_fromstr], in seconds. *)
Definition period_seconds (p : string) : option Z :=
  let p := match strip_suffix "s" p with Some q => q | None => p end in
  lookup p [("second", 1); ("minute", 60); ("hour", 3600); ("day", 86400); ("week", 604800); ("month", 2592000); ("year", 31536000)].

Definition timeinterval_fromstr (s : string) : res Z :=
  match py_split " " (py_strip s) with
  | [p] => of_option KeyError (period_seconds p)
  | [n; p] => let* n := of_option ValueError (py_int n) in let* d := of_option KeyError (period_seconds p) in Ok (n * d)
  | _ => Raise ValueError
  end.

Definition thresholds : list string := ["comment_karma"; "post_karma"; "combined_karma"; "account_age"].

Definition threshold_value (now : Z) (ac : account) (check : string) : Z :=
  let post := Z.max (link_karma ac) link_karma_display_floor in
  let comment := Z.max (comment_karma ac) comment_karma_display_floor in
  if String.eqb check "account_age" then now - created ac
  else if String.eqb check "post_karma" then post
  else if String.eqb check "comment_karma" then comment
  else post + comment.

(** One comparison: the operator, equality if there is none, and the value. *)
Definition threshold_ok (now : Z) (ac : account) (check compare_value : string) : res bool :=
  let '(op, v) := match operator_regex compare_value with
    | Some (op, r) => (if String.eqb op "==" then "=" else op, py_strip r)
    | None => ("=", compare_value)
    end in
  let* n :=
    if String.eqb check "account_age" then
      timeinterval_fromstr (match py_int v with Some n => py_str_int n +:+ " days" | None => v end)
    else of_option ValueError (py_int v) in
  let value := threshold_value now ac check in
  Ok (if String.eqb op "<" then value <? n else if String.eqb op ">" then n <? value else value =? n).

(** The loop over the checks, which the first that decides ends. *)
Fixpoint thresholds_loop (now : Z) (any : bool) (ac : account) (checks : list (string * string)) : res bool :=
  match checks with
  | [] => Ok (negb any)
  | (check, v) :: checks =>
      let* r := threshold_ok now ac check v in
      if Bool.eqb r any then Ok r else thresholds_loop now any ac checks
  end.

Definition threshold_checks (t : rule_target) : res (list (string * string)) :=
  res_mapM (fun c => let* v := to_str (attr t c) in Ok (c, v)) (List.filter (fun c => match attr t c with YNull => false | _ => true end) thresholds).

Definition check_account_thresholds (now : Z) (t : rule_target) (a : Z) (w : world) : res bool :=
  let* checks := threshold_checks t in
  let* ac := get_account a w in
  match checks with
  | [] => Ok true
  | _ =>
      if bool_decide (a ∈ banned_authors (ms w)) || is_global_banned ac then Ok false
      else thresholds_loop now (py_true (attr t "satisfy_any_threshold")) ac (iter checks)
  end.

(** The fields of a key that are searched: links have no body, texts no url. *)
Definition searched_fields (p : parsed_key) (s : subject) (w : world) : res (list string) :=
  match s with
  | SPost x =>
      let* th := get_thing x w in
      let* po := get_post x w in
      Ok (match m_kind th with
          | LinkK => List.filter (fun f => negb (String.eqb f (if p_is_self po then "url" else "body"))) (pk_fields p)
          | CommentK => pk_fields p
          end)
  | SAccount _ => Ok (pk_fields p)
  end.

(** The first field a pattern is found in. *)
Fixpoint search_fields (t : rule_target) (d : data) (s : subject) (pat : pattern) (fields : list string) (w : world) : res (option match_object) :=
  match fields with
  | [] => Ok None
  | f :: fields =>
      let* v := field_value t d s f w in
      let* v := of_option TypeError v in
      match pattern_search pat v with Some m => Ok (Some m) | None => search_fields t d s pat fields w end
  end.

Notation matches := (list (string * match_object)).

(** The loop over the patterns: the matches, and whether anything was searched. *)
Fixpoint patterns_loop (t : rule_target) (d : data) (s : subject) (pats : list (string * pattern)) (checked : bool) (acc : matches) (w : world)
    : res (bool * matches) :=
  match pats with
  | [] => Ok (checked, acc)
  | (key, pat) :: pats =>
      let* p := parse_match_fields_key (on_type t) key in
      let* fields := searched_fields p s w in
      let* m := search_fields t d s pat (iter fields) w in
      let acc := match m with Some m => assign (pk_name p) m acc | None => acc end in
      if Bool.eqb (match m with Some _ => true | None => false end) (match_success p)
      then patterns_loop t d s pats (checked || nonempty fields) acc w
      else Ok (false, acc)
  end.

Definition check_match_patterns (t : rule_target) (d : data) (s : subject) (w : world) : res (bool * matches) :=
  match match_patterns t with [] => Ok (true, []) | pats => patterns_loop t d s (iter pats) false [] w end.

(** [RuleTarget.check_item]. *)
Definition check_target (now : Z) (t : rule_target) (d : data) (s : subject) (w : world) : res (bool * matches) :=
  let* ok := check_nonpattern_conditions t d s w in
  if ok then
    let* ok := match s with SAccount a => check_account_thresholds now t a w | SPost _ => Ok true end in
    if ok then check_match_patterns t d s w else Ok (false, [])
  else Ok (false, []).
(** ** Placeholders *)

(** Text up to and with a mark. *)
Fixpoint split_at (mark s : string) : option (string * string) :=
  if py_startswith mark s then Some ("", String.substring (String.length mark) (String.length s) s)
  else match s with String a s' => (fun pr => (String a pr.1, pr.2)) <$> split_at mark s' | EmptyString => None end.

(** [{{match}}] and [{{match-field}}] at the start of a text: the name, and what follows. *)
Definition unnumbered_at (s : string) : option (string * string) :=
  if py_startswith "{{match" s then
    let rest := String.substring 7 (String.length s) s in
    if py_startswith "}}" rest then Some ("match", String.substring 2 (String.length rest) rest)
    else match rest with
         | String a (String b rest') =>
             (* at least one character, of none of them a digit or a hyphen *)
             if Ascii.eqb a "-" then
               match split_at "}}" rest' with
               | Some (field, after) =>
                   let field := String b field in
                   if str_forall (fun c => negb (is_digit c) && negb (Ascii.eqb c "-")) field then Some ("match-" +:+ field, after) else None
               | None => None
               end
             else None
         | _ => None
         end
  else None.

(** Unnumbered placeholders get the number one. *)
Fixpoint number_placeholders (fuel : nat) (s : string) : string :=
  match fuel, s with
  | S fuel, String a s' =>
      match unnumbered_at s with
      | Some (name, after) => "{{" +:+ name +:+ "-1}}" +:+ number_placeholders fuel after
      | None => String a (number_placeholders fuel s')
      end
  | _, _ => s
  end.

(** [field-digits}}] after a prefix without braces; the shortest field. *)
Fixpoint field_and_number (field s : string) : option (string * string * string) :=
  match s with
  | EmptyString => None
  | String a s' =>
      let here :=
        if Ascii.eqb a "-" && negb (String.eqb field "") then
          let '(digits, rest) := break_at (fun c => negb (is_digit c)) s' in
          if negb (String.eqb digits "") && py_startswith "}}" rest then Some (field, digits, String.substring 2 (String.length rest) rest) else None
        else None in
      match here with
      | Some r => Some r
      | None => if Ascii.eqb a "}" then None else field_and_number (field +:+ String a "") s'
      end
  end.

(** [{{match-field-1}}] or [{{match-1}}] at the start of a text: the field, the
    number, and what follows. *)
Definition numbered_at (s : string) : option (option string * string * string) :=
  if py_startswith "{{match-" s then
    let rest := String.substring 8 (String.length s) s in
    match field_and_number "" rest with
    | Some (f, n, after) => Some (Some f, n, after)
    | None =>
        let '(digits, after) := break_at (fun c => negb (is_digit c)) rest in
        if negb (String.eqb digits "") && py_startswith "}}" after then Some (None, digits, String.substring 2 (String.length after) after) else None
    end
  else None.

(** The numbered placeholders of a text, with their text. *)
Fixpoint find_numbered (fuel : nat) (s : string) : list (string * option string * string) :=
  match fuel, s with
  | S fuel, String a s' =>
      match numbered_at s with
      | Some (f, n, after) => (String.substring 0 (String.length s - String.length after) s, f, n) :: find_numbered fuel after
      | None => find_numbered fuel s'
      end
  | _, _ => []
  end.

(** What the matches put in the place of each. *)
Definition match_replacements (ms : matches) (s : string) : list (string * string) :=
  omap (fun pfn =>
    let '(ph, f, n) := pfn in
    let source := match f with Some f => f | None => match (iter ms) with (k, _) :: _ => k | [] => "" end end in
    match lookup source ms with
    | Some groups =>
        match py_int n with
        | Some i => (fun g => (ph, default "" g)) <$> groups !! Z.to_nat i
        | None => None
        end
    | None => None
    end) (find_numbered (String.length s) s).

Definition media_replacements (p : post) : list (string * string) :=
  match p_media p with
  | Some (Some (_ :: _ as oembed)) =>
      [("{{media_author}}", default "" (lookup "author_name" oembed)); ("{{media_title}}", default "" (lookup "title" oembed));
       ("{{media_description}}", default "" (lookup "description" oembed)); ("{{media_author_url}}", default "" (lookup "author_url" oembed))]
  | _ => []
  end.

(** [replace_placeholders], of a text. *)
Definition replace_placeholders (d : data) (ms : matches) (s : string) (w : world) : res string :=
  let* th := get_thing (d_item d) w in
  let* p := get_post (d_item d) w in
  let* ac := get_account (d_author d) w in
  let body := match body_of th p with Ok b => b | Raise _ => "" end in
  let common := [("{{author}}", a_name ac); ("{{body}}", body); ("{{subreddit}}", s_name (d_sub d));
    ("{{author_flair_text}}", default "" (account_flair_text ac)); ("{{author_flair_css_class}}", default "" (account_flair_class ac))] in
  let* rest :=
    match m_kind th with
    | CommentK =>
        let* l := match d_link d with Some l => get_post l w | None => Raise KeyError end in
        Ok ([("{{kind}}", "comment"); ("{{permalink}}", p_permalink p); ("{{title}}", p_title l)] ++ media_replacements l)
    | LinkK =>
        Ok ([("{{kind}}", "submission"); ("{{domain}}", p_domain p); ("{{permalink}}", p_permalink p); ("{{title}}", p_title p); ("{{url}}", p_url p)] ++
            media_replacements p)
    end in
  let s := foldl (fun s kv => py_replace kv.1 kv.2 s) s (iter (common ++ rest)) in
  match ms with
  | [] => Ok s
  | _ =>
      let s := number_placeholders (String.length s) s in
      Ok (foldl (fun s kv => py_replace kv.1 kv.2 s) s (iter (match_replacements ms s)))
  end.

(** A value of a rule that is used as a text. *)
Definition replace_value (d : data) (ms : matches) (v : yaml) (w : world) : res string :=
  match v with YStr s => replace_placeholders d ms s w | _ => Raise AttributeError end.

(** ** Actions *)

Definition on_ms (f : mstate -> mstate) : M unit := modify (fun w => with_ms (f (ms w)) w).
Definition on_post (x : string) (f : post -> post) : M unit := modify (fun w => with_posts (alter f x (post_of w)) w).
Definition ask {A} (f : world -> res A) : M A := fun w => (w, f w).

Definition log_mod_action (d : data) (action : string) (x : string) (details : option string) : M unit :=
  on_ms (emit [ModAction (s_id (d_sub d)) bot_name action (Some x) details]).

(** The reason of an action, in words. *)
Definition reason_of (d : data) (ms : matches) (t : rule_target) (otherwise : option string) : M (option string) :=
  if py_true (attr t "action_reason") then s <~ ask (replace_value d ms (attr t "action_reason")) ;; ret (Some s) else ret otherwise.

Definition with_over_18 (b : bool) (p : post) : post :=
  MkPost (p_id36 p) (p_is_self p) (p_title p) (p_url p) (p_text p) (p_domain p) (p_permalink p) (p_parent p) (p_link p) (p_edited p) (p_media p)
    (p_flair_text p) (p_flair_css_class p) b (contest_mode p) (locked p) (suggested_sort p).
Definition with_contest (b : bool) (p : post) : post :=
  MkPost (p_id36 p) (p_is_self p) (p_title p) (p_url p) (p_text p) (p_domain p) (p_permalink p) (p_parent p) (p_link p) (p_edited p) (p_media p)
    (p_flair_text p) (p_flair_css_class p) (over_18 p) b (locked p) (suggested_sort p).
Definition with_locked (b : bool) (p : post) : post :=
  MkPost (p_id36 p) (p_is_self p) (p_title p) (p_url p) (p_text p) (p_domain p) (p_permalink p) (p_parent p) (p_link p) (p_edited p) (p_media p)
    (p_flair_text p) (p_flair_css_class p) (over_18 p) (contest_mode p) b (suggested_sort p).
Definition with_sort (o : option string) (p : post) : post :=
  MkPost (p_id36 p) (p_is_self p) (p_title p) (p_url p) (p_text p) (p_domain p) (p_permalink p) (p_parent p) (p_link p) (p_edited p) (p_media p)
    (p_flair_text p) (p_flair_css_class p) (over_18 p) (contest_mode p) (locked p) o.
Definition with_flair (t c : option string) (p : post) : post :=
  MkPost (p_id36 p) (p_is_self p) (p_title p) (p_url p) (p_text p) (p_domain p) (p_permalink p) (p_parent p) (p_link p) (p_edited p) (p_media p)
    t c (over_18 p) (contest_mode p) (locked p) (suggested_sort p).
Definition with_account_flair (t c : option string) (a : account) : account :=
  MkAccount (a_id36 a) (a_name a) (a_deleted a) (is_global_banned a) (link_karma a) (comment_karma a) (created a) (gold a) (flair_enabled a) t c.

(** Approving: what is removed, but not by a moderator, or is reported. *)
Definition do_approve (now : Z) (t : rule_target) (d : data) (ms' : matches) (x : string) : M unit :=
  th <~ ask (get_thing x) ;;
  w <~ ask (@Ok world) ;;
  let mod_banned := default false (moderator_banned (m_ban th)) in
  let should_approve := (_spam th && negb mod_banned) || (py_true (attr t "reports") && negb (reported th =? 0)) in
  let approvable_author := negb (bool_decide (d_author d ∈ banned_authors (ms w))) || approve_banned t in
  when (should_approve && approvable_author)
    (on_ms (unspam now [x] true (Some bot_name) (_spam th)) ;;;
     reason <~ reason_of d ms' t (Some (if _spam th then "unspam" else "approved")) ;;
     log_mod_action d ("approve" +:+ kind_name (m_kind th)) x reason).

(** Removing: as spam or not, or into the queue of the moderators. *)
Definition do_remove (now : Z) (action : string) (t : rule_target) (d : data) (ms' : matches) (x : string) : M unit :=
  th <~ ask (get_thing x) ;;
  on_ms (spam now [x] (String.eqb action "filter") true (Some bot_name) (String.eqb action "spam")) ;;;
  (match m_kind th with CommentK => on_ms (emit [Unnotify x]) | LinkK => ret tt end) ;;;
  reason <~ reason_of d ms' t (Some (if String.eqb action "spam" then "spam" else "remove")) ;;
  log_mod_action d ("remove" +:+ kind_name (m_kind th)) x reason.

Definition do_report (t : rule_target) (d : data) (ms' : matches) (x : string) : M unit :=
  reason <~ reason_of d ms' t None ;;
  on_ms (report_new bot x reason).

Definition do_action (now : Z) (t : rule_target) (d : data) (ms' : matches) (x : string) : M unit :=
  match attr t "action" with
  | YStr a =>
      if String.eqb a "approve" then do_approve now t d ms' x
      else if String.eqb a "report" then do_report t d ms' x
      else do_remove now a t d ms' x
  | _ => ret tt
  end.

(** The settings of a link, where they are not already so. *)
Definition do_set_nsfw (t : rule_target) (d : data) (x : string) : M unit :=
  match attr t "set_nsfw" with
  | YNull => ret tt
  | v =>
      p <~ ask (get_post x) ;;
      when (negb (py_eq v (YBool (over_18 p))))
        (on_post x (with_over_18 (py_true v)) ;;;
         log_mod_action d "marknsfw" x (if py_true v then None else Some "remove") ;;;
         on_ms (emit [Index x]))
  end.

Definition do_set_contest_mode (t : rule_target) (x : string) : M unit :=
  match attr t "set_contest_mode" with
  | YNull => ret tt
  | v => p <~ ask (get_post x) ;; when (negb (py_eq v (YBool (contest_mode p)))) (on_post x (with_contest (py_true v)))
  end.

Definition do_set_locked (t : rule_target) (d : data) (x : string) : M unit :=
  match attr t "set_locked" with
  | YNull => ret tt
  | v =>
      p <~ ask (get_post x) ;;
      when (negb (py_eq v (YBool (locked p))))
        (on_post x (with_locked (py_true v)) ;;; log_mod_action d (if py_true v then "lock" else "unlock") x None)
  end.

Definition do_set_sticky (t : rule_target) (d : data) (x : string) : M unit :=
  match attr t "set_sticky" with
  | YNull => ret tt
  | v =>
      w <~ ask (@Ok world) ;;
      let sr := s_id (d_sub d) in
      when (negb (Bool.eqb (bool_decide (x ∈ sticky_of sr (ms w))) (py_true v)))
        (if py_true v then on_ms (set_sticky sr x bot_name (match v with YInt n => Some (Z.to_nat n) | _ => None end))
         else on_ms (remove_sticky sr x (Some bot_name)))
  end.

Definition do_set_suggested_sort (t : rule_target) (d : data) (x : string) : M unit :=
  match attr t "set_suggested_sort" with
  | YStr sort =>
      p <~ ask (get_post x) ;;
      when (match suggested_sort p with None | Some EmptyString => true | _ => false end)
        (on_post x (with_sort (Some sort)) ;;; log_mod_action d "setsuggestedsort" x None)
  | _ => ret tt
  end.

(** Flair, within the limits of the API. *)
Definition flair_class (s : string) : string :=
  let s := str_filter (fun a => ((nat_of_ascii a <? 128)%nat && is_word a) || contains a " -") s in
  py_join " " ((fun c => String.substring 0 100 c) <$> take 10 (List.filter (fun c => negb (String.eqb c "")) (py_split " " s))).

Definition truthy (o : option string) : bool := match o with None | Some EmptyString => false | _ => true end.

Definition do_set_flair (t : rule_target) (d : data) (ms' : matches) (s : subject) : M unit :=
  match flair t with
  | None => ret tt
  | Some (text, cls) =>
      w <~ ask (@Ok world) ;;
      let overwrite := py_true (attr t "overwrite_flair") in
      can_update <~ ask (fun w =>
        match s with
        | SPost x => let* p := get_post x w in Ok (if truthy (p_flair_text p) || truthy (p_flair_css_class p) then overwrite else true)
        | SAccount a => Ok (if bool_decide (a ∈ has_flair w) then overwrite else true)
        end) ;;
      when can_update
        (text <~ ask (replace_value d ms' text) ;;
         cls <~ ask (replace_value d ms' cls) ;;
         let text := String.substring 0 64 text in
         let cls := flair_class cls in
         match s with
         | SPost x => on_post x (with_flair (Some text) (Some cls)) ;;; on_ms (emit [Index x])
         | SAccount a =>
             if String.eqb text "" && String.eqb cls "" then
               modify (fun w => with_accounts (alter (with_account_flair None None) a (account_of w)) (has_flair w ∖ {[a]}) w)
             else modify (fun w => with_accounts (alter (with_account_flair (Some text) (Some cls)) a (account_of w)) ({[a]} ∪ has_flair w) w)
         end)
  end.

(** [RuleTarget.perform_actions]; an account has flair only. *)
Definition perform_target (now : Z) (t : rule_target) (d : data) (ms' : matches) (s : subject) : M unit :=
  match s with
  | SPost x =>
      do_action now t d ms' x ;;; do_set_nsfw t d x ;;; do_set_contest_mode t x ;;; do_set_locked t d x ;;; do_set_sticky t d x ;;;
      do_set_suggested_sort t d x ;;; do_set_flair t d ms' s
  | SAccount _ => do_set_flair t d ms' s
  end.

(** ** Rules *)

Definition get_target_item (d : data) (key : string) : res subject :=
  if String.eqb key "base" then Ok (SPost (d_item d))
  else if String.eqb key "author" then Ok (SAccount (d_author d))
  else match d_link d with Some l => Ok (SPost l) | None => Raise KeyError end.

Definition kind_type (k : kind) : target_type := match k with LinkK => TLink | CommentK => TComment end.

Definition item_is_correct_type (r : rule) (th : mthing) (p : post) : bool :=
  bool_decide (kind_type (m_kind th) = base_type r) &&
  match rattr r "type" with
  | YStr ty => if String.eqb ty "link submission" then negb (p_is_self p) else if String.eqb ty "text submission" then p_is_self p else true
  | _ => true
  end.

Definition mentions_media (v : yaml) : bool := match v with YStr s => py_in "{{media_" s | _ => false end.

(** [needs_media_data] of a target, and of a rule. *)
Definition target_needs_media (t : rule_target) : bool :=
  existsb (fun kp => match parse_match_fields_key (on_type t) kp.1 with Ok p => forallb (py_startswith "media_") (pk_fields p) | Raise _ => false end)
    (match_patterns t) ||
  mentions_media (attr t "action_reason") ||
  match flair t with Some (a, b) => mentions_media a || mentions_media b | None => false end.

Definition needs_media_data (r : rule) : bool :=
  existsb (fun k => mentions_media (rattr r k)) ["comment"; "modmail"; "message"] || existsb (fun kt => target_needs_media kt.2) (targets r).

Definition media_true (p : post) : bool := match p_media p with Some _ => true | None => false end.

Definition should_check_item (r : rule) (d : data) (w : world) : res bool :=
  let* th := get_thing (d_item d) w in
  let* p := get_post (d_item d) w in
  let is_comment := match m_kind th with CommentK => true | LinkK => false end in
  let approved := match verdict th with Some v => py_endswith "-approved" v | None => false end in
  if negb (item_is_correct_type r th p) then Ok false
  else if is_comment && (d_author d =? bot) then Ok false
  else if is_inapplicable_to_mods r && bool_decide (d_author d ∈ moderators (d_sub d)) then Ok false
  else if _spam th && default false (moderator_banned (m_ban th)) then Ok false
  else if is_removal_rule r && approved && negb (bool_decide (unbanner (m_ban th) = Some bot_name)) then Ok false
  else if needs_media_data r then
    match m_kind th with
    | LinkK => Ok (media_true p)
    | CommentK => let* l := match d_link d with Some l => get_post l w | None => Raise KeyError end in Ok (media_true l)
    end
  else Ok true.

(** The loop over the targets, and the matches of the base. *)
Fixpoint targets_loop (now : Z) (d : data) (ts : list (string * rule_target)) (acc : matches) (w : world) : res (bool * matches) :=
  match ts with
  | [] => Ok (true, acc)
  | (key, t) :: ts =>
      let* s := get_target_item d key in
      let* om := check_target now t d s w in
      let acc := if String.eqb key "base" then om.2 else acc in
      if om.1 then targets_loop now d ts acc w else Ok (false, acc)
  end.

Definition check_item (now : Z) (r : rule) (d : data) (w : world) : res (bool * matches) :=
  let* ok := should_check_item r d w in
  if ok then targets_loop now d (iter (targets r)) [] w else Ok (false, []).

Definition build_message (d : data) (ms' : matches) (text : string) (disclaimer permalink : bool) (w : world) : res string :=
  let message := if disclaimer then text +:+ String newline (String newline DISCLAIMER) else text in
  let message := if permalink && negb (py_in "{{permalink}}" message) then "{{permalink}}" +:+ String newline (String newline message) else message in
  let* message := replace_placeholders d ms' message w in
  let* _ := souptest message in
  Ok (String.substring 0 10000 message).

Definition subject_of (d : data) (ms' : matches) (v : yaml) (w : world) : res string :=
  let* s := replace_value d ms' v w in Ok (String.substring 0 100 s).

(** A comment, a message to the moderators, and one to the author. *)
Definition do_comment (r : rule) (d : data) (ms' : matches) : M unit :=
  match rattr r "comment" with
  | YStr text =>
      when (negb (String.eqb text ""))
        (message <~ ask (build_message d ms' text true false) ;;
         th <~ ask (get_thing (d_item d)) ;;
         link <~ lift (match m_kind th with CommentK => of_option KeyError (d_link d) | LinkK => Ok (d_item d) end) ;;
         (* only a comment at the top of its link can be its sticky comment *)
         let parent := match m_kind th with CommentK => Some (d_item d) | LinkK => None end in
         let stickied := py_true (rattr r "comment_stickied") && match parent with None => true | Some _ => false end in
         modify (send (Reply link parent message stickied)))
  | _ => ret tt
  end.

Definition do_modmail (r : rule) (d : data) (ms' : matches) : M unit :=
  match rattr r "modmail" with
  | YStr text =>
      when (negb (String.eqb text ""))
        (message <~ ask (build_message d ms' text false true) ;;
         subject <~ ask (subject_of d ms' (rattr r "modmail_subject")) ;;
         modify (send (Modmail (s_id (d_sub d)) subject message)))
  | _ => ret tt
  end.

Definition do_message (r : rule) (d : data) (ms' : matches) : M unit :=
  ac <~ ask (get_account (d_author d)) ;;
  match rattr r "message" with
  | YStr text =>
      when (negb (String.eqb text "") && negb (a_deleted ac))
        (message <~ ask (build_message d ms' text true true) ;;
         subject <~ ask (subject_of d ms' (rattr r "message_subject")) ;;
         modify (send (Message (d_author d) subject message)))
  | _ => ret tt
  end.

Definition mark_performed (x : string) (r : rule) : M unit :=
  modify (fun w => with_performed (<[x := {[unique_id r]} ∪ default ∅ (performed w !! x)]> (performed w)) w).

(** [Rule.perform_actions]. *)
Definition perform_actions (now : Z) (r : rule) (d : data) (ms' : matches) : M unit :=
  mapM_ (fun kt => s <~ lift (get_target_item d kt.1) ;; perform_target now kt.2 d ms' s) (iter (targets r)) ;;;
  do_comment r d ms' ;;; do_modmail r d ms' ;;; do_message r d ms' ;;; mark_performed (d_item d) r.

Definition already (x : string) (w : world) : gset string := default ∅ (performed w !! x).

(** Whether a rule is passed over, for what was done to the post before. *)
Definition skipped (done_before : gset string) (r : rule) : bool := is_unrepeatable r && bool_decide (unique_id r ∈ done_before).

(** The removal rules, up to the first that holds. *)
Fixpoint removal_loop (now : Z) (done_before : gset string) (d : data) (rules : list rule) : M unit :=
  match rules with
  | [] => ret tt
  | r :: rules =>
      if skipped done_before r then removal_loop now done_before d rules
      else
        om <~ ask (check_item now r d) ;;
        if om.1 then perform_actions now r d om.2 else removal_loop now done_before d rules
  end.

(** The other rules, all of them. *)
Definition nonremoval_loop (now : Z) (done_before : gset string) (d : data) : list rule -> M unit :=
  mapM_ (fun r =>
    if skipped done_before r then ret tt
    else om <~ ask (check_item now r d) ;; when om.1 (perform_actions now r d om.2)).

(** [Ruleset.apply_to_item]: the supplemental data, then the rules. *)
Definition make_data (x : string) (sub : subreddit) (w : world) : res data :=
  let* th := get_thing x w in
  let* p := get_post x w in
  let* author := get_account (author_id th) w in
  let author_or_stand_in := if a_deleted author then deleted_user else author_id th in
  match m_kind th with
  | LinkK => Ok (MkData x sub author_or_stand_in None None)
  | CommentK =>
      let* l := get_thing (p_link p) w in
      let* _ := get_account (author_id l) w in
      Ok (MkData x sub author_or_stand_in (Some (p_link p)) (Some (author_id th =? author_id l)))
  end.

Definition apply_to_item (now : Z) (rules : list rule) (sub : subreddit) (x : string) : M unit :=
  d <~ ask (make_data x sub) ;;
  w <~ ask (@Ok world) ;;
  removal_loop now (already x w) d (removal_rules rules) ;;;
  nonremoval_loop now (already x w) d (nonremoval_rules rules).

(** ** The consumer *)

(** The rules each process keeps, with the time they were read. *)
Notation rules_by_subreddit := (gmap Z (Z * list rule)).

(** [process_message]: the page of the rules with the time of its last edit.
    The result tells whether the rules were read anew; errors of the rules
    themselves end the message, and errors of what they do are printed. *)
Definition process_message (now : Z) (page : option (Z * string)) (standards : option (list yaml)) (sub : subreddit) (x : string)
    (kept : rules_by_subreddit) (w : world) : rules_by_subreddit * world * res unit :=
  match page with
  | None => (kept, w, Ok tt)
  | Some (last_edited, content) =>
      let need_to_init := match kept !! s_id sub with Some (init_time, _) => init_time <? last_edited | None => true end in
      let rules := if need_to_init then make_ruleset standards content else Ok (default [] (snd <$> kept !! s_id sub)) in
      match rules with
      | Raise AutoModeratorSyntaxError | Raise AutoModeratorRuleTypeError => (kept, w, Ok tt)
      | Raise e => (kept, w, Raise e)
      | Ok rs =>
          let kept := if need_to_init then <[s_id sub := (now, rs)]> kept else kept in
          match rs with
          | [] => (kept, w, Ok tt)
          | _ => (kept, (apply_to_item now rs sub x w).1, Ok tt)
          end
      end
  end.
End run.
End AutoModRun.
