(* ===== verification/AutoModRunProps.v ===== *)
(** * AutoModerator at work: what its checks and actions come to

    The thresholds of accounts against a reference, the order in which rules
    are tried, and what is left of a post that was removed. *)

From S2P Require Import Prelude PyString Effects Regex Moderation ModerationProps AutoMod AutoModProps AutoModRun.
From Stdlib Require Import Ascii.

Module AutoModRunProps.
Import PyString Regex Moderation ModerationProps AutoMod AutoModProps AutoModRun.

(** ** Numbers in rules *)

(** Nothing, or the newline that [$] lets stand. *)
Definition line_end (t : string) : Prop := t = "" \/ t = String newline "".

Lemma digits_to_end_spec s : digits_to_end s = true -> exists d t, str_forall is_digit d = true /\ line_end t /\ s = d +:+ t.
Proof.
  unfold line_end. induction s as [|a s IH]; cbn [digits_to_end]; [exists "", ""; auto|]. destruct (is_digit a) eqn:Ea.
  - intros (d & t & Hd & Ht & ->)%IH. exists (String a d), t. cbn [str_forall]. by rewrite Ea, Hd.
  - intros [->%Ascii.eqb_eq ->%String.eqb_eq]%andb_true_iff. exists "", (String newline ""). auto.
Qed.

Lemma rstrip_digits d t : str_forall is_digit d = true -> line_end t -> py_rstrip is_space (d +:+ t) = d.
Proof.
  intros Hd Ht. induction d as [|a d IH]; [by destruct Ht as [-> | ->]|]. cbn [str_forall] in Hd. apply andb_true_iff in Hd as [Ha Hd].
  rewrite string_app_cons. cbn [py_rstrip]. rewrite IH by done. destruct d; [|done]. by rewrite (proj1 (digit_not_space _ Ha)).
Qed.

(** A number of a rule is read as one, with what may be around it. *)
Definition number_text (c : string) : Prop :=
  exists d, d <> "" /\ str_forall is_digit d = true /\ (c = d \/ c = String "-" d).

Lemma rstrip_number c t : number_text c -> line_end t -> py_rstrip is_space (c +:+ t) = c.
Proof.
  intros (d & Hne & Hd & [-> | ->]) Ht; [by apply rstrip_digits|]. rewrite string_app_cons. cbn [py_rstrip]. rewrite rstrip_digits by done.
  by destruct d.
Qed.

Lemma number_lstrip c t : number_text c -> py_lstrip is_space (c +:+ t) = c +:+ t.
Proof.
  intros (d & Hne & Hd & [-> | ->]); [|done]. destruct d as [|a d]; [done|]. cbn [str_forall] in Hd. apply andb_true_iff in Hd as [Ha _].
  rewrite string_app_cons. cbn [py_lstrip]. by rewrite (proj1 (digit_not_space _ Ha)).
Qed.

Lemma number_int c : number_text c -> exists n, py_int c = Some n.
Proof.
  intros Hc. unfold py_int. rewrite <- (string_app_nil_r c), number_lstrip, rstrip_number by (unfold line_end; auto).
  destruct Hc as (d & Hne & Hd & Hc). destruct (int_of_digits d Hd Hne) as (n & En & _).
  assert (Hg : negb (String.eqb d "") && str_forall is_digit d = true) by (rewrite Hd; by destruct d).
  destruct Hc as [-> | ->].
  - destruct d as [|a d]; [done|]. pose proof Hd as Hd'. cbn [str_forall] in Hd'. apply andb_true_iff in Hd' as [Ha _].
    destruct (Ascii.eqb_spec a "-") as [-> |]; [done|]. destruct (Ascii.eqb_spec a "+") as [-> |]; [done|]. rewrite Hg. eauto.
  - cbn [Ascii.eqb Bool.eqb]. rewrite Hg, En. cbn. eauto.
Qed.

Lemma oper_int_number s : oper_int s = true -> exists c t, number_text c /\ line_end t /\ py_lstrip is_space (after_operator s) = c +:+ t.
Proof.
  unfold oper_int. cbv zeta. set (r := py_lstrip is_space (after_operator s)). clearbody r. destruct r as [|a r]; [done|].
  destruct (Ascii.eqb_spec a "-") as [-> | Hm].
  - destruct r as [|b r]; [done|]. intros [Hb (d & t & Hd & Ht & ->)%digits_to_end_spec]%andb_true_iff.
    exists (String "-" (String b d)), t. split; [|done]. exists (String b d). split; [done|]. cbn [str_forall]. rewrite Hb, Hd. auto.
  - intros [Ha (d & t & Hd & Ht & ->)%digits_to_end_spec]%andb_true_iff.
    exists (String a d), t. split; [|done]. exists (String a d). split; [done|]. cbn [str_forall]. rewrite Ha, Hd. auto.
Qed.

(** A value the code accepts for a karma is an operator and a number. *)
Lemma oper_int_read s : oper_int s = true ->
  exists n, py_int (after_operator s) = Some n /\ py_int (py_strip (after_operator s)) = Some n.
Proof.
  intros (c & t & Hc & Ht & E)%oper_int_number. destruct (number_int c Hc) as [n En]. exists n.
  assert (Hs : py_strip (after_operator s) = c) by (unfold py_strip; by rewrite E, rstrip_number).
  split; [|by rewrite Hs]. rewrite <- En. unfold py_int at 1. rewrite E, rstrip_number by done.
  unfold py_int. rewrite <- (string_app_nil_r c) at 2. by rewrite number_lstrip, rstrip_number by (unfold line_end; auto).
Qed.
(** ** Thresholds *)

(** What a value asks of a number [value], when [n] is the number in it. *)
Definition meets (value n : Z) (s : string) : bool :=
  match operator_regex s with
  | Some ("<", _) => value <? n
  | Some (">", _) => n <? value
  | _ => value =? n
  end.

Section thresholds.
Context `{AutomodLaws} `{Running}.

Lemma operator_cases s : (exists op r, operator_regex s = Some (op, r) /\ after_operator s = r /\ (op = "==" \/ op = "=" \/ op = "<" \/ op = ">")) \/
  operator_regex s = None /\ after_operator s = s.
Proof.
  unfold after_operator. destruct (operator_regex s) as [[op r]|] eqn:E; [left; exists op, r; split; [done|split; [done|]]|by right].
  unfold operator_regex in E. destruct s as [|a s]; [done|]. destruct (Ascii.eqb a "="); [destruct s as [|b s]; [|destruct (Ascii.eqb b "=")]|
    destruct (Ascii.eqb a "<"); [|destruct (Ascii.eqb a ">"); [|done]]]; injection E as <- <-; auto.
Qed.

(** A comparison with a number, once the number is read. *)
Lemma karma_threshold now ac check v : check <> "account_age" -> oper_int v = true ->
  exists n, py_int (after_operator v) = Some n /\ threshold_ok now ac check v = Ok (meets (threshold_value now ac check) n v).
Proof.
  intros Hc (n & E1 & E2)%oper_int_read. exists n. split; [done|]. unfold threshold_ok, meets. apply String.eqb_neq in Hc. rewrite Hc.
  destruct (operator_cases v) as [(op & r & Eo & Er & Hop) | [Eo Er]]; rewrite Eo, Er in *.
  - rewrite E2. cbn [of_option res_bind]. by destruct Hop as [-> | [-> | [-> | ->]]].
  - rewrite E1. done.
Qed.

Lemma thresholds_loop_spec now any ac checks (holds : string * string -> bool) :
  (forall cv, cv ∈ checks -> threshold_ok now ac cv.1 cv.2 = Ok (holds cv)) ->
  thresholds_loop now any ac checks = Ok (if any then existsb holds checks else forallb holds checks).
Proof.
  induction checks as [|[c v] checks IH]; intros Hh; cbn [thresholds_loop existsb forallb]; [by destruct any|].
  pose proof (Hh (c, v) ltac:(by left)) as E. cbn [fst snd] in E. rewrite E. cbn [res_bind]. rewrite IH by (intros; apply Hh; by right).
  destruct any, (holds (c, v)); done.
Qed.

Lemma existsb_perm {A} (f : A -> bool) l l' : l ≡ₚ l' -> existsb f l = existsb f l'.
Proof. induction 1 as [|x l l' _ IH|x y l|l l' l'' _ -> _ ->]; cbn [existsb]; [done|by rewrite IH| |done]. by destruct (f x), (f y). Qed.

Lemma forallb_perm {A} (f : A -> bool) l l' : l ≡ₚ l' -> forallb f l = forallb f l'.
Proof. induction 1 as [|x l l' _ IH|x y l|l l' l'' _ -> _ ->]; cbn [forallb]; [done|by rewrite IH| |done]. by destruct (f x), (f y). Qed.

Lemma lookup_in {A} k (l : list (string * A)) v : AutoMod.lookup k l = Some v -> (k, v) ∈ l.
Proof.
  induction l as [|[k' v'] l IH]; cbn [AutoMod.lookup]; [done|]. destruct (String.eqb_spec k' k) as [-> |]; [intros [= ->]; by left|].
  intros E. right. by apply IH.
Qed.

(** What a threshold is once it was accepted: its text, which the check of the
    setting found well formed. *)
Lemma threshold_text t c : typed_target t -> on_type t = TAccount -> c ∈ thresholds -> attr t c <> YNull ->
  exists s, to_str (attr t c) = Ok s /\ (if String.eqb c "account_age" then oper_period s else oper_int s) = true.
Proof.
  intros (Ht & _) Hon Hc Hv.
  assert (Hin : exists co, AutoMod.lookup c _potential_components = Some co /\ on TAccount co = true /\ default_value co = YNull /\ valid_types co = [] /\
    valid_values co = [] /\ valid_regex co = Some (if String.eqb c "account_age" then oper_period else oper_int)).
  { unfold thresholds in Hc. rewrite !elem_of_cons in Hc.
    destruct Hc as [-> | [-> | [-> | [-> | []%elem_of_nil]]]]; (eexists; split; [reflexivity|done]). }
  destruct Hin as (co & Hin & Hco & Hd & Hty & Hvs & Hr). specialize (Ht _ _ (lookup_in _ _ _ Hin)). rewrite Hon, Hco in Ht. destruct Ht as [Ht | Ht]; [congruence|].
  unfold validate in Ht. rewrite Hty, Hvs, Hr in Ht. cbn [res_bind] in Ht. rewrite bool_decide_true in Ht by done. cbn [negb andb] in Ht.
  destruct (to_str (attr t c)) as [s|]; [|done]. exists s. split; [done|]. injection Ht as Ht. by destruct (String.eqb c "account_age").
Qed.

(** The age can be read: none is asked, or the period is one of the known ones. *)
Definition age_readable (t : rule_target) : Prop :=
  forall s, attr t "account_age" <> YNull -> to_str (attr t "account_age") = Ok s ->
  forall now ac, exists b, threshold_ok now ac "account_age" s = Ok b.

Definition is_set (v : yaml) : bool := match v with YNull => false | _ => true end.

Lemma is_set_spec v : is_set v = true <-> v <> YNull.
Proof. by destruct v. Qed.

Lemma threshold_checks_spec t : typed_target t -> on_type t = TAccount ->
  exists checks, threshold_checks t = Ok checks /\ checks.*1 = List.filter (fun c => is_set (attr t c)) thresholds /\
    forall c s, (c, s) ∈ checks -> c ∈ thresholds /\ attr t c <> YNull /\ to_str (attr t c) = Ok s.
Proof.
  intros Ht Hon. pose (g := fun c => (c, match to_str (attr t c) with Ok s => s | Raise _ => "" end)).
  set (l := List.filter (fun c => is_set (attr t c)) thresholds).
  assert (Hl : forall c, c ∈ l -> c ∈ thresholds /\ attr t c <> YNull /\ exists s, to_str (attr t c) = Ok s).
  { intros c [Hv Hc]%elem_of_filter_bool. apply is_set_spec in Hv. destruct (threshold_text t c Ht Hon Hc Hv) as (s & Es & _). eauto. }
  exists (g <$> l). split; [|split].
  - change (threshold_checks t) with (res_mapM (fun c => let* v := to_str (attr t c) in Ok (c, v)) l).
    apply res_mapM_fmap. intros c (_ & _ & s & Es)%Hl. unfold g. by rewrite Es.
  - rewrite <- list_fmap_compose. clearbody l. clear. unfold g. induction l as [|c l IH]; [done|]. cbn. by rewrite IH.
  - intros c s [c' [[= -> ->] Hc]]%list_elem_of_fmap. destruct (Hl _ Hc) as (H1' & H2' & s & Es). by rewrite Es.
Qed.

(** Once its settings are accepted, the thresholds of a rule on an account
    never fail: a banned account does not meet them, and any other does when all
    of the comparisons hold, or one of them, whatever the order they are kept in.
    A comparison of a karma is that of the number in the text. *)
Theorem thresholds_decided now t a w ac :
  typed_target t -> on_type t = TAccount -> age_readable t -> get_account a w = Ok ac ->
  exists checks, threshold_checks t = Ok checks /\ checks.*1 = List.filter (fun c => is_set (attr t c)) thresholds /\
    exists holds : string * string -> bool,
      (forall c s, (c, s) ∈ checks -> c <> "account_age" ->
         exists n, py_int (after_operator s) = Some n /\ holds (c, s) = meets (threshold_value now ac c) n s) /\
      (forall c s, (c, s) ∈ checks -> threshold_ok now ac c s = Ok (holds (c, s))) /\
      check_account_thresholds now t a w =
        Ok (negb (nonempty checks) ||
            negb (bool_decide (a ∈ banned_authors (ms w)) || is_global_banned ac) &&
            (if py_true (attr t "satisfy_any_threshold") then existsb holds checks else forallb holds checks)).
Proof.
  intros Ht Hon Hage Hac. destruct (threshold_checks_spec t Ht Hon) as (checks & E & Ek & Hin). exists checks. split; [done|]. split; [done|].
  pose (holds := fun cv : string * string => match threshold_ok now ac cv.1 cv.2 with Ok b => b | Raise _ => false end). exists holds.
  assert (Hk : forall c s, (c, s) ∈ checks -> c <> "account_age" ->
    exists n, py_int (after_operator s) = Some n /\ threshold_ok now ac c s = Ok (meets (threshold_value now ac c) n s)).
  { intros c s Hcs Hne. destruct (Hin c s Hcs) as (Hc & Hv & Es). destruct (threshold_text t c Ht Hon Hc Hv) as (s' & Es' & Hop).
    apply karma_threshold; [done|]. apply String.eqb_neq in Hne. rewrite Hne in Hop. congruence. }
  assert (Hok : forall c s, (c, s) ∈ checks -> threshold_ok now ac c s = Ok (holds (c, s))).
  { intros c s Hcs. unfold holds. cbn [fst snd]. destruct (decide (c = "account_age")) as [-> | Hne].
    - destruct (Hin _ s Hcs) as (_ & Hv & Es). by destruct (Hage s Hv Es now ac) as [b ->].
    - by destruct (Hk c s Hcs Hne) as (n & _ & ->). }
  split; [|split; [done|]].
  - intros c s Hcs Hne. destruct (Hk c s Hcs Hne) as (n & En & Eo). exists n. split; [done|]. rewrite (Hok c s Hcs) in Eo. by injection Eo.
  - unfold check_account_thresholds. rewrite E, Hac. cbn [res_bind]. destruct checks as [|cv checks]; [done|].
    set (l := cv :: checks) in *. cbn [nonempty negb orb]. destruct (bool_decide (a ∈ _) || _); [done|]. cbn [negb andb].
    pose proof (iter_perm l) as Hp. rewrite (thresholds_loop_spec now _ ac (iter l) holds).
    + by rewrite (existsb_perm _ _ _ Hp), (forallb_perm _ _ _ Hp).
    + intros [c s] Hcs. rewrite Hp in Hcs. by apply Hok.
Qed.
End thresholds.
(** ** What a removal leaves *)

Section removal.
Context `{Automod} `{ModConfig} `{Running}.

(** A moderator took [x] down, and it is still a post. *)
Definition taken_down (x : string) (w : world) : Prop :=
  is_Some (post_of w !! x) /\
  exists th, things (ms w) !! x = Some th /\ _spam th = true /\ moderator_banned (m_ban th) = Some true.

(** A computation leaves the moderation of [x] as it is, and [x] in its place. *)
Definition keeps {A} (x : string) (m : M A) : Prop :=
  forall w, things (ms (m w).1) !! x = things (ms w) !! x /\ (is_Some (post_of w !! x) -> is_Some (post_of (m w).1 !! x)).

Lemma keeps_taken_down {A} x (m : M A) w : keeps x m -> taken_down x w -> taken_down x (m w).1.
Proof. intros Hk [Hp (th & Eth & ?)]. destruct (Hk w) as [E Hp']. split; [by apply Hp'|]. exists th. by rewrite E. Qed.

Lemma keeps_same {A} x (m : M A) : (forall w, (m w).1 = w) -> keeps x m.
Proof. intros Hm w. by rewrite Hm. Qed.

Lemma keeps_ret {A} x (a : A) : keeps x (ret a).
Proof. by apply keeps_same. Qed.

Lemma keeps_ask {A} x (f : world -> res A) : keeps x (ask f).
Proof. by apply keeps_same. Qed.

Lemma keeps_lift {A} x (r : res A) : keeps x (lift r).
Proof. by apply keeps_same. Qed.

Lemma keeps_bind {A B} x (m : M A) (k : A -> M B) : keeps x m -> (forall a, keeps x (k a)) -> keeps x (bind m k).
Proof.
  intros Hm Hk w. unfold bind. destruct (Hm w) as [E1 E2]. destruct (m w) as [w' [a|e]]; [|done]. destruct (Hk a w') as [F1 F2].
  cbn [fst] in *. split; [congruence|auto].
Qed.

Lemma keeps_when x b m : keeps x m -> keeps x (when b m).
Proof. destruct b; [done|]. intros _. apply keeps_ret. Qed.

Lemma keeps_mapM {A} x (f : A -> M unit) l : (forall a, a ∈ l -> keeps x (f a)) -> keeps x (mapM_ f l).
Proof.
  induction l as [|a l IH]; intros Hf; cbn [mapM_]; [apply keeps_ret|]. apply keeps_bind; [apply Hf; by left|]. intros _. apply IH. intros. apply Hf. by right.
Qed.

Lemma keeps_on_ms x f : (forall s, things (f s) !! x = things s !! x) -> keeps x (on_ms f).
Proof. intros Hf w. split; [apply Hf|done]. Qed.

Lemma keeps_modify x f : (forall w, ms (f w) = ms w /\ post_of (f w) = post_of w) -> keeps x (modify f).
Proof. intros Hf w. destruct (Hf w) as [E1 E2]. unfold modify. cbn [fst]. by rewrite E1, E2. Qed.

Lemma keeps_on_post x y f : keeps x (on_post y f).
Proof.
  intros w. split; [done|]. unfold on_post, modify. cbn [fst post_of with_posts]. intros [p Ep]. destruct (decide (y = x)) as [-> | Hy].
  - by rewrite lookup_alter_eq, Ep.
  - rewrite lookup_alter_ne by done. by rewrite Ep.
Qed.

(** ** Removals and approvals of other posts *)

Lemma things_fold {A} (f : mstate -> A -> mstate) x l s : (forall s a, a ∈ l -> things (f s a) !! x = things s !! x) -> things (foldl f s l) !! x = things s !! x.
Proof.
  revert s. induction l as [|a l IH]; intros s Hf; cbn [foldl]; [done|]. rewrite IH; [apply Hf; by left|]. intros. apply Hf. by right.
Qed.

Lemma things_update x y f s : x <> y -> things (update f y s) !! x = things s !! x.
Proof. intros Hx. unfold update. cbn [things with_things]. by rewrite lookup_alter_ne. Qed.

Lemma things_accept x names b s : x ∉ names -> things (accept names b s) !! x = things s !! x.
Proof.
  intros Hx. unfold accept, clear_reports. cbn [things with_user_reported mutate with_lists]. rewrite things_fold; [done|].
  intros s' y [_ Hy]%elem_of_filter_bool. apply things_update. naive_solver.
Qed.

Lemma things_author_spammer names b s : things (author_spammer names b s) = things s.
Proof. apply (same_author_spammer names b s). Qed.

Lemma things_last_sr_ban now names s : things (set_last_sr_ban now names s) = things s.
Proof. apply (same_last_sr_ban now names s). Qed.

Lemma things_spam now x y is_auto mb who train s : x <> y -> things (spam now [y] is_auto mb who train s) !! x = things s !! x.
Proof.
  intros Hx. assert (Hxy : x ∉ [y]) by (by intros ?%list_elem_of_singleton). unfold spam, ban, index_all.
  cbn [things emit mutate with_lists]. destruct is_auto; cbn [things]; rewrite ?things_last_sr_ban, ?things_author_spammer.
  all: rewrite things_fold; [by apply things_accept|]; intros s' a ->%list_elem_of_singleton; unfold spam_loop;
    destruct (things s' !! y) as [t|]; [destruct (promoted t); [done|]|done]; by apply things_update.
Qed.

Lemma things_unspam now x y mb who ins s : x <> y -> things (unspam now [y] mb who ins s) !! x = things s !! x.
Proof.
  intros Hx. assert (Hxy : x ∉ [y]) by (by intros ?%list_elem_of_singleton). unfold unspam, unban, index_all. cbn [length Nat.ltb Nat.leb].
  cbn [things emit mutate with_lists]. rewrite things_last_sr_ban, things_author_spammer.
  rewrite things_fold; [by apply things_accept|]. intros s' a ->%list_elem_of_singleton. unfold unspam_loop.
  set (s2 := update _ y s'). assert (E : things s2 !! x = things s' !! x) by by apply things_update. clearbody s2.
  by destruct (things s2 !! y).
Qed.

Lemma things_report x u y reason s : x <> y -> things (report_new u y reason s) !! x = things s !! x.
Proof.
  intros Hx. unfold report_new. destruct (reports s !! (u, y)) as [|]; [done|]. destruct (things s !! y) as [t|]; [|done].
  assert (Hn : forall r s', things (new_report y u r s') = things s') by done.
  destruct (ignore_reports t); [by cbn; apply things_update|]. destruct (_spam t).
  - rewrite things_accept by (by intros ?%list_elem_of_singleton). rewrite Hn. cbn. by apply things_update.
  - rewrite Hn. cbn. by apply things_update.
Qed.

Lemma things_set_sticky sr y who num s : things (set_sticky sr y who num s) = things s.
Proof. unfold set_sticky. destruct (bool_decide _); [done|]. by destruct (match sticky_of sr s with [] => _ | _ => _ end). Qed.

Lemma things_remove_sticky sr y who s : things (remove_sticky sr y who s) = things s.
Proof. unfold remove_sticky. by destruct (bool_decide _). Qed.

Ltac keeps_step :=
  lazymatch goal with
  | |- keeps _ (match ?e with _ => _ end) => destruct e
  | |- keeps _ (let _ := _ in _) => cbv zeta
  | |- keeps _ (bind _ _) => apply keeps_bind; [|intros ?]
  | |- keeps _ (ret _) => apply keeps_ret
  | |- keeps _ (ask _) => apply keeps_ask
  | |- keeps _ (lift _) => apply keeps_lift
  | |- keeps _ (when _ _) => apply keeps_when
  | |- keeps _ (on_post _ _) => apply keeps_on_post
  | |- keeps _ (on_ms _) => apply keeps_on_ms; intros ?; rewrite ?things_set_sticky, ?things_remove_sticky; try done
  | |- keeps _ (modify _) => apply keeps_modify; intros ?; done
  end.

Ltac keeps := repeat keeps_step.

Lemma keeps_flair x t d om s : keeps x (do_set_flair t d om s).
Proof. unfold do_set_flair. keeps. Qed.

Lemma keeps_reason x d om t o : keeps x (reason_of d om t o).
Proof. unfold reason_of. keeps. Qed.

Lemma keeps_settings x t d y :
  keeps x (do_set_nsfw t d y) /\ keeps x (do_set_contest_mode t y) /\ keeps x (do_set_locked t d y) /\ keeps x (do_set_sticky t d y) /\
  keeps x (do_set_suggested_sort t d y).
Proof.
  unfold do_set_nsfw, do_set_contest_mode, do_set_locked, do_set_sticky, do_set_suggested_sort, log_mod_action. split_and!; keeps.
Qed.

(** An action on another post. *)
Lemma keeps_action x now t d om y : x <> y -> keeps x (do_action now t d om y).
Proof.
  intros Hx. unfold do_action, do_approve, do_report, do_remove, log_mod_action. pose proof (keeps_reason x d om t) as Hr.
  repeat first [apply Hr | by apply things_unspam | by apply things_spam | by apply things_report | keeps_step].
Qed.

Lemma keeps_target x now t d om s : s <> SPost x -> keeps x (perform_target now t d om s).
Proof.
  intros Hs. unfold perform_target. destruct s as [y|a]; [|apply keeps_flair]. destruct (keeps_settings x t d y) as (K1 & K2 & K3 & K4 & K5).
  apply keeps_bind; [apply keeps_action; congruence|intros _]. do 5 (apply keeps_bind; [done|intros _]). apply keeps_flair.
Qed.

Lemma keeps_sending x r d om : keeps x (do_comment r d om) /\ keeps x (do_modmail r d om) /\ keeps x (do_message r d om) /\ keeps x (mark_performed (d_item d) r).
Proof. unfold do_comment, do_modmail, do_message, mark_performed. split_and!; keeps. Qed.

(** ** A removal ends the rules *)

(** A post that can be taken down. *)
Definition fit (x : string) (w : world) : Prop :=
  is_Some (post_of w !! x) /\ exists th, things (ms w) !! x = Some th /\ promoted th = false.

Lemma keeps_fit {A} x (m : M A) w : keeps x m -> fit x w -> fit x (m w).1.
Proof. intros Hk [Hp (th & Eth & ?)]. destruct (Hk w) as [E Hp']. split; [by apply Hp'|]. exists th. by rewrite E. Qed.

Lemma bind_ok {A B} (m : M A) (k : A -> M B) w w' b : bind m k w = (w', Ok b) -> exists a w1, m w = (w1, Ok a) /\ k a w1 = (w', Ok b).
Proof. unfold bind. destruct (m w) as [w1 [a|e]]; [eauto|done]. Qed.

Lemma accept_self x b s th : things s !! x = Some th ->
  exists th', things (accept [x] b s) !! x = Some th' /\ promoted th' = promoted th.
Proof.
  intros E. unfold accept, clear_reports. cbn [things with_user_reported mutate with_lists with_reports List.filter]. rewrite E.
  destruct (0 <? reported th); [|by exists th]. cbn [foldl]. rewrite (update_things _ _ _ th) by done. by eexists.
Qed.

Lemma spam_takes now x is_auto who train s th : things s !! x = Some th -> promoted th = false ->
  exists th', things (spam now [x] is_auto true who train s) !! x = Some th' /\ promoted th' = false /\ _spam th' = true /\
    moderator_banned (m_ban th') = Some true.
Proof.
  intros E Hp. destruct (accept_self x true s th E) as (t1 & E1 & P1). unfold spam, ban, index_all. cbn [things emit mutate with_lists].
  exists (spam_thing now is_auto true who train t1). split; [|split; [by rewrite <- P1 in Hp|done]].
  assert (Hl : things (foldl (spam_loop now is_auto true who train) (accept [x] true s) [x]) !! x = Some (spam_thing now is_auto true who train t1)).
  { cbn [foldl]. unfold spam_loop. rewrite E1, P1, Hp. cbn [things emit]. by apply update_things. }
  destruct is_auto; cbn [things]; rewrite ?things_last_sr_ban, ?things_author_spammer; exact Hl.
Qed.

Definition removes (a : string) : bool := bool_decide (a ∈ ["spam"; "remove"; "filter"]).

Lemma base_takes now t d om x w w' a : attr t "action" = YStr a -> removes a = true -> fit x w ->
  perform_target now t d om (SPost x) w = (w', Ok tt) -> fit x w' /\ taken_down x w'.
Proof.
  intros Ea Hr [Hp (th & Eth & Hpr)] Hw. unfold perform_target in Hw. apply bind_ok in Hw as (u & w1 & Hact & Hrest).
  assert (H1' : fit x w1 /\ taken_down x w1).
  { unfold do_action in Hact. rewrite Ea in Hact. unfold removes in Hr. apply bool_decide_eq_true in Hr.
    assert (Hd : do_remove now a t d om x w = (w1, Ok u)) by (rewrite !elem_of_cons, elem_of_nil in Hr; destruct Hr as [-> | [-> | [-> | []]]]; exact Hact).
    unfold do_remove in Hd. apply bind_ok in Hd as (th0 & w2 & E2 & Hd). unfold ask, get_thing in E2. rewrite Eth in E2. injection E2 as <- <-.
    apply bind_ok in Hd as (u3 & w3 & E3 & Hd). unfold on_ms, modify in E3. injection E3 as <- <-.
    destruct (spam_takes now x (String.eqb a "filter") (Some bot_name) (String.eqb a "spam") (ms w) th Eth Hpr) as (th' & E' & P' & S' & B').
    set (w3 := with_ms _ w) in Hd. assert (Hf : fit x w3) by (split; [done|]; exists th'; done).
    assert (Ht : taken_down x w3) by (split; [done|]; exists th'; done).
    match type of Hd with ?m w3 = _ => assert (Hk : keeps x m) end.
    { apply keeps_bind; [destruct (m_kind th); [apply keeps_ret|by apply keeps_on_ms]|intros _]. apply keeps_bind; [apply keeps_reason|intros ?]. by apply keeps_on_ms. }
    pose proof (keeps_fit x _ w3 Hk Hf) as F. pose proof (keeps_taken_down x _ w3 Hk Ht) as T. by rewrite Hd in F, T. }
  match type of Hrest with ?m w1 = _ => assert (Hk : keeps x m) end.
  { destruct (keeps_settings x t d x) as (K1 & K2 & K3 & K4 & K5). do 5 (apply keeps_bind; [done|intros _]). apply keeps_flair. }
  pose proof (keeps_fit x _ w1 Hk ltac:(apply H1')) as F. pose proof (keeps_taken_down x _ w1 Hk ltac:(apply H1')) as T. by rewrite Hrest in F, T.
Qed.

Lemma targets_take now d om tb a l w w' : attr tb "action" = YStr a -> removes a = true -> d_link d <> Some (d_item d) ->
  (forall t, ("base", t) ∈ l -> t = tb) -> fit (d_item d) w -> (taken_down (d_item d) w \/ ("base", tb) ∈ l) ->
  mapM_ (fun kt => bind (lift (get_target_item d kt.1)) (fun s => perform_target now kt.2 d om s)) l w = (w', Ok tt) ->
  fit (d_item d) w' /\ taken_down (d_item d) w'.
Proof.
  intros Ea Hr Hlink. revert w. induction l as [|[key t] l IH]; intros w Hb Hf Ht Hw.
  - injection Hw as <-. split; [done|]. by destruct Ht as [|?%elem_of_nil].
  - cbn [mapM_] in Hw. apply bind_ok in Hw as (u & w1 & Hact & Hrest). apply bind_ok in Hact as (s & w2 & E2 & Hact).
    unfold lift in E2. cbn [fst] in E2. injection E2 as <- Es. cbn [snd] in Hact. destruct u.
    assert (Hbl : forall t', ("base", t') ∈ l -> t' = tb) by (intros; apply Hb; by right).
    destruct (String.eqb_spec key "base") as [-> | Hk].
    + rewrite (Hb t ltac:(by left)) in Hact. unfold get_target_item in Es. cbn in Es. injection Es as <-.
      destruct (base_takes now tb d om (d_item d) w w1 a Ea Hr Hf Hact) as [F T]. apply (IH w1); auto.
    + assert (Hs : s <> SPost (d_item d)).
      { unfold get_target_item in Es. destruct (String.eqb_spec key "base"); [done|]. destruct (String.eqb key "author"); [injection Es as <-; done|].
        destruct (d_link d); [injection Es as <-; congruence|done]. }
      pose proof (keeps_target (d_item d) now t d om s Hs) as K. pose proof (keeps_fit _ _ w K Hf) as F. rewrite Hact in F. apply (IH w1); [done|exact F| |done].
      destruct Ht as [Ht | [E | Ht]%elem_of_cons]; [left|congruence|by right].
      pose proof (keeps_taken_down _ _ w K Ht) as T. by rewrite Hact in T.
Qed.

Lemma actions_take `{!AutomodLaws} now r d om w w' : typed_rule r -> is_removal_rule r = true -> d_link d <> Some (d_item d) -> fit (d_item d) w ->
  perform_actions now r d om w = (w', Ok tt) -> taken_down (d_item d) w'.
Proof.
  intros (_ & _ & _ & tb & Etb & Hin & Hu) Hr Hl Hf Hw. unfold is_removal_rule, base_action in Hr. rewrite Etb in Hr.
  destruct (attr tb "action") as [| | |a| | |] eqn:Ea; try done. unfold perform_actions in Hw. apply bind_ok in Hw as (u & w1 & Ht & Hrest). destruct u.
  pose proof (iter_perm (targets r)) as Hp. apply (targets_take now d om tb a _ w w1 Ea Hr Hl) in Ht as [F T]; [|intros t; rewrite Hp; apply Hu|done|by rewrite Hp; right].
  destruct (keeps_sending (d_item d) r d om) as (K1 & K2 & K3 & K4). match type of Hrest with ?m w1 = _ => assert (Hk : keeps (d_item d) m) end.
  { do 3 (apply keeps_bind; [done|intros _]). done. }
  pose proof (keeps_taken_down _ _ w1 Hk T) as T'. by rewrite Hrest in T'.
Qed.

(** Nothing is checked of a post that was taken down. *)
Lemma taken_down_unchecked now r d w : taken_down (d_item d) w -> check_item now r d w = Ok (false, []).
Proof.
  intros [[p Ep] (th & Eth & Hsp & Hmb)]. unfold check_item, should_check_item, get_thing, get_post. rewrite Eth, Ep. cbn [of_option res_bind].
  rewrite Hsp, Hmb. destruct (negb _); [done|]. destruct (_ && (_ =? _)); [done|]. by destruct (is_inapplicable_to_mods r && _).
Qed.

Lemma nonremoval_idle now done_before d rules w : taken_down (d_item d) w -> nonremoval_loop now done_before d rules w = (w, Ok tt).
Proof.
  intros Ht. unfold nonremoval_loop. induction rules as [|r rules IH]; [done|]. cbn [mapM_]. unfold bind at 1.
  destruct (skipped done_before r); [exact IH|]. unfold bind, ask. rewrite taken_down_unchecked by done. exact IH.
Qed.

Lemma removal_idle now done_before d rules w : taken_down (d_item d) w -> removal_loop now done_before d rules w = (w, Ok tt).
Proof.
  intros Ht. induction rules as [|r rules IH]; [done|]. cbn [removal_loop]. destruct (skipped done_before r); [exact IH|].
  unfold bind, ask. rewrite taken_down_unchecked by done. exact IH.
Qed.

Lemma make_data_item x sub w d : make_data x sub w = Ok d -> d_item d = x.
Proof.
  unfold make_data. destruct (get_thing x w) as [th|]; [|done]. destruct (get_post x w) as [p|]; [|done]. cbn [res_bind].
  destruct (get_account _ w) as [ac|]; [|done]. cbn [res_bind]. destruct (m_kind th); [by intros [= <-]|].
  destruct (get_thing (p_link p) w) as [l|]; [|done]. cbn [res_bind]. destruct (get_account _ w); [|done]. by intros [= <-].
Qed.

Lemma taken_down_idle now rules sub x w : taken_down x w -> (apply_to_item now rules sub x w).1 = w.
Proof.
  intros Ht. unfold apply_to_item, bind, ask. destruct (make_data x sub w) as [d|] eqn:Ed; [|done].
  apply make_data_item in Ed as <-. rewrite removal_idle by done. by rewrite nonremoval_idle.
Qed.

Lemma removal_first now done_before d pre r post w om :
  (forall q, q ∈ pre -> skipped done_before q = true \/ exists om', check_item now q d w = Ok (false, om')) ->
  skipped done_before r = false -> check_item now r d w = Ok (true, om) ->
  removal_loop now done_before d (pre ++ r :: post) w = perform_actions now r d om w.
Proof.
  intros Hpre Hr Hc. induction pre as [|q pre IH]; cbn [app removal_loop].
  - rewrite Hr. unfold bind, ask. by rewrite Hc.
  - specialize (IH ltac:(intros; apply Hpre; by right)). destruct (Hpre q ltac:(by left)) as [-> | [om' E]]; [exact IH|].
    destruct (skipped done_before q); [exact IH|]. unfold bind, ask. rewrite E. exact IH.
Qed.

End removal.
End AutoModRunProps.
