(* ===== verification/AutoModExamples.v ===== *)
(** * AutoModerator: examples

    A sub with a few rules, read from their text and run on its posts: the
    theorems of [AutoModProps.v] and [AutoModRunProps.v] on it, and what the
    rules do that their documentation does not say. *)

From S2P Require Import Prelude PyString Effects Regex Moderation AutoMod AutoModProps AutoModRun AutoModRunProps.

Module AutoModExamples.
Import PyString Regex Moderation AutoMod AutoModProps AutoModRun AutoModRunProps.

(** ** A sub *)

Definition spam_rule : list (yaml * yaml) :=
  [(YStr "Type", YStr "submission"); (YStr "title (includes)", YList [YStr "cheap"; YStr "free"]); (YStr "action", YStr "remove")].
Definition news_rule : list (yaml * yaml) :=
  [(YStr "type", YStr "submission"); (YStr "domain", YStr "example.com"); (YStr "set_nsfw", YBool true); (YStr "action", YStr "approve"); (YStr "priority", YInt 5)].
Definition young_rule : list (yaml * yaml) :=
  [(YStr "type", YStr "submission");
   (YStr "author", YDict [(YStr "post_karma", YStr "< 10"); (YStr "account_age", YStr "> 2 days"); (YStr "satisfy_any_threshold", YBool true)]);
   (YStr "action", YStr "report")].

(** The documents the parser of the sub gives for the text of each section. *)
Definition documents (s : string) : option yaml :=
  if String.eqb s "spam" then Some (YDict spam_rule) else if String.eqb s "news" then Some (YDict news_rule)
  else if String.eqb s "young" then Some (YDict young_rule)
  else if String.eqb s "number" then Some (YDict [(YStr "type", YStr "submission"); (YInt 5, YStr "five"); (YStr "action", YStr "remove")])
  else if String.eqb s "list" then Some (YDict [(YStr "type", YStr "submission"); (YStr "action", YList [YStr "remove"])])
  else Some (YStr s).

#[local] Instance parser : Automod := {
  iter _ l := l; py_repr _ := "[...]"; safe_load := documents; re_compile _ _ := None; md5 s := s;
  upvote_path := "upvoted"; controversial_path := "controversial" }.

#[local] Instance parser_laws : AutomodLaws.
Proof. split. done. Qed.

#[local] Instance queues : ModConfig := { exclude_banned_modqueue _ := false; voting_upvote_path := "top"; voting_controversial_path := "controversial" }.
#[local] Instance bot_config : Running := {
  souptest _ := Ok tt; bot := 1; bot_name := "AutoModerator"; deleted_user := -1; DISCLAIMER := "I am a bot."; link_karma_display_floor := 0; comment_karma_display_floor := 0 }.

Definition text : string := "spam" +:+ String newline ("---" +:+ String newline ("news" +:+ String newline ("---" +:+ String newline "young"))).

(** A computation that must succeed. *)
Definition ok_of {A} (d : A) (r : res A) : A := match r with Ok a => a | Raise _ => d end.
Definition rules : list rule := ok_of [] (make_ruleset None text).

Definition is_ok {A} (r : res A) : bool := match r with Ok _ => true | Raise _ => false end.

Lemma ok_of_ok {A} d (r : res A) : is_ok r = true -> r = Ok (ok_of d r).
Proof. by destruct r. Qed.

Lemma rules_ok : make_ruleset None text = Ok rules.
Proof. apply ok_of_ok. by vm_compute. Qed.

Example three_rules : (fun r => (priority r, is_removal_rule r)) <$> rules = [(5, false); (0, true); (0, false)].
Proof. by vm_compute. Qed.

(** ** The properties there *)

Lemma ruleset_typed_witness : Forall typed_rule rules.
Proof. destruct (ruleset_typed None text rules rules_ok) as [Hr _]. eapply Forall_impl; [exact Hr|]. by intros r [? _]. Defined.

(** A pattern of the first rule, with its values. *)
Definition title_key : parsed_key := Parsed "title" ["title"] ["includes"] true.
Definition title_values : yaml := YList [YStr "cheap"; YStr "free"].
Definition title_pattern : pattern := ok_of (User (fun _ => None)) (make_pattern title_key (value_texts title_values)).

Example title_key_parsed : parse_match_fields_key TLink "title (includes)" = Ok title_key.
Proof. by vm_compute. Qed.

Lemma patterns_find_reference_witness :
  found true "includes" false ["cheap"; "free"] "Very CHEAP shoes" /\ ~ found true "includes" false ["cheap"; "free"] "Good shoes".
Proof.
  assert (Hr : "regex" ∉ pk_modifiers title_key) by (by intros [?|?%elem_of_nil]%elem_of_cons).
  assert (Ep : make_pattern title_key (value_texts title_values) = Ok title_pattern) by (by apply ok_of_ok).
  split.
  - apply (patterns_find_reference title_key title_values title_pattern "Very CHEAP shoes" Hr eq_refl Ep). by vm_compute.
  - intros Hf. apply (patterns_find_reference title_key title_values title_pattern "Good shoes" Hr eq_refl Ep) in Hf. by vm_compute in Hf.
Defined.

(** ** A world *)

Definition link (title domain : string) : post :=
  MkPost "a" false title "http://example.com/" "" domain "/r/pics/a" None "" false None None None false false false None.
Definition submitter : account := MkAccount "u" "someone" false false 4 7 (-1000) false true None None.
Definition sub : subreddit := MkSub 7 "pics" [9] [].
Definition a_thing : mthing := MThing LinkK 7 50 false false None no_ban 0 false false.

Definition world_of (p : post) : world :=
  World (submit 0 "t3_a" 7 50 false None (MState ∅ ∅ (fun _ => ∅) ∅ ∅ ∅ ∅ ∅ ∅ ∅ [])) {["t3_a" := p]} {[50 := submitter]} ∅ ∅ [].

Definition cheap : world := world_of (link "Cheap shoes" "shop.example.com").

(** ** Thresholds *)

Definition no_target : rule_target := MkTarget TAccount ∅ None [] [] [] [] false.
Definition author_target : rule_target :=
  ok_of no_target (make_target TAccount [("post_karma", YStr "< 10"); ("account_age", YStr "> 2 days"); ("satisfy_any_threshold", YBool true)] true).

Lemma author_target_typed : typed_target author_target /\ on_type author_target = TAccount.
Proof.
  apply (make_target_typed TAccount [("post_karma", YStr "< 10"); ("account_age", YStr "> 2 days"); ("satisfy_any_threshold", YBool true)] true).
  apply ok_of_ok. by vm_compute.
Qed.

Lemma thresholds_decided_witness :
  check_account_thresholds 0 author_target 50 cheap = Ok true /\ exists holds checks,
  check_account_thresholds 0 author_target 50 cheap = Ok (existsb (A := string * string) holds checks).
Proof.
  destruct author_target_typed as [Ht Ho].
  destruct (thresholds_decided 0 author_target 50 cheap submitter Ht Ho) as (checks & Ec & _ & holds & _ & _ & E).
  - intros s _ Es. assert (E : s = "> 2 days") by (vm_compute in Es; congruence). subst s. intros now ac. eexists. reflexivity.
  - reflexivity.
  - split; [by vm_compute|]. exists holds, checks. rewrite E. assert (Hn : nonempty checks = true) by (vm_compute in Ec; by injection Ec as <-).
    assert (Hany : py_true (attr author_target "satisfy_any_threshold") = true) by by vm_compute.
    rewrite Hn, Hany. match goal with |- Ok (_ || negb ?b && _) = _ => replace b with false by (by vm_compute) end. done.
Defined.

(** ** A removal, and the rules after it *)

Definition cheap_data : data := MkData "t3_a" sub 50 None None.
Definition removal : rule := default (MkRule "" ∅ [] [] TLink []) (head (removal_rules rules)).
Definition found_title : bool * list (string * match_object) := ok_of (false, []) (check_item 10 removal cheap_data cheap).
Definition removed : world := (perform_actions 10 removal cheap_data found_title.2 cheap).1.


(** Another post of the same author is reported, and one of the news site is
    marked: both rules come to their turn. *)
Example other_rules_run :
  let w := (apply_to_item 10 rules sub "t3_a" (world_of (link "Nice shoes" "example.com"))).1 in
  ((fun p => over_18 p) <$> post_of w !! "t3_a") = Some true /\ ((fun t => reported t) <$> things (ms w) !! "t3_a") = Some 1.
Proof. by vm_compute. Qed.

(** ** What goes wrong *)

(** A key that is a number, and a list as an action: errors that are not those
    of the rules' syntax, and that are not of values either. *)
Example number_key : make_ruleset None "number" = Raise AttributeError.
Proof. by vm_compute. Qed.

Example list_action : make_ruleset None "list" = Raise TypeError.
Proof. by vm_compute. Qed.

(** An age without a space before its unit is accepted, and fails when checked. *)
Example age_without_space :
  oper_period "> 30days" = true /\ threshold_ok 0 submitter "account_age" "> 30days" = Raise KeyError.
Proof. by vm_compute. Qed.

(** A post without flair makes a rule about flair fail. *)
Example flair_missing :
  search_fields (MkTarget TLink ∅ None [] [] [] [] false) cheap_data (SPost "t3_a") title_pattern ["flair_text"] cheap = Raise TypeError.
Proof. by vm_compute. Qed.
End AutoModExamples.
