(* ===== verification/Inventory.v ===== *)
(** * Inventory: what is left to sell to advertisers

    [System] of lib/inventory_optimization.py: campaigns want impressions in
    any of their targets, targets have a number of them; the passes that make a
    system smaller, and the estimate of what stays free in the targets asked
    about.  Dictionaries are finite maps, iterated in an order of their own. *)

From S2P Require Import Prelude PyString.

Module Inventory.
Import PyString.

(** [SimpleCampaign]; a [SimpleTarget] is a name with its impressions. *)
Record campaign := SimpleCampaign { c_name : string; target_names : list string; c_impressions : Z }.

#[export] Instance campaign_eq_dec : EqDecision campaign.
Proof. solve_decision. Defined.

Notation target := (string * Z)%type.

(** [defaultdict(list)]. *)
Definition append_to {K} `{Countable K} {A} (k : K) (x : A) (m : gmap K (list A)) : gmap K (list A) := <[k := default [] (m !! k) ++ [x]]> m.

Section system.
Context `{HashOrder}.

Definition items {K} `{Countable K} {A} (m : gmap K A) : list (K * A) := dict_order (map_to_list m).

Definition by_name (targets : list target) : gmap string Z := foldl (fun m t => <[t.1 := t.2]> m) ∅ targets.

(** ** The passes *)

Definition sort_names : list string -> list string := isort String.leb.

Definition combined (names : list string) (cs : list campaign) : campaign :=
  SimpleCampaign (py_join "," (c_name <$> cs)) names (zsum_map c_impressions cs).

Definition combine_campaigns (cs : list campaign) : bool * list campaign :=
  let by_target := foldl (fun m c => append_to (sort_names (target_names c)) c m) ∅ cs in
  foldl (fun acc kc =>
    match kc.2 with
    | _ :: _ :: _ => (true, acc.2 ++ [combined kc.1 kc.2])
    | l => (acc.1, acc.2 ++ l)
    end) (false, []) (items by_target).

(** Campaigns with one target take what they need from it. *)
Definition reduce_campaign (acc : bool * list campaign * gmap string Z) (c : campaign) : res (bool * list campaign * gmap string Z) :=
  let '(changed, kept, targets) := acc in
  match target_names c with
  | [t] => let* n := of_option KeyError (targets !! t) in Ok (true, kept, <[t := n - c_impressions c]> targets)
  | _ => Ok (changed, kept ++ [c], targets)
  end.

Definition reduce_campaigns (cs : list campaign) (targets : list target) : res (bool * list campaign * list target) :=
  let* r := res_foldl reduce_campaign (false, [], by_name targets) cs in
  let '(changed, kept, m) := r in Ok (changed, kept, items m).

(** [list.remove]. *)
Fixpoint list_remove (x : string) (l : list string) : res (list string) :=
  match l with
  | [] => Raise ValueError
  | y :: l => if String.eqb y x then Ok l else let* l' := list_remove x l in Ok (y :: l')
  end.

(** A campaign of a target that is given up. *)
Definition leave_target (t : string) (left : Z) (cs : gmap string campaign) (name : string) : res (gmap string campaign) :=
  let* c := of_option KeyError (cs !! name) in
  let* names := list_remove t (target_names c) in
  Ok (<[name := SimpleCampaign name names left]> cs).

(** A target that has enough for all its campaigns, or one campaign only, which
    takes what there is. *)
Definition reduce_target (acc : bool * gmap string campaign * gmap string Z) (tn : string * list string) : res (bool * gmap string campaign * gmap string Z) :=
  let '(changed, cs, targets) := acc in
  let '(t, names) := tn in
  let* n := of_option KeyError (targets !! t) in
  let* wanted := res_mapM (fun name => let* c := of_option KeyError (cs !! name) in Ok (c_impressions c)) names in
  let fully_satisfied := zsum wanted <=? n in
  let single_campaign := (length names =? 1)%nat in
  if fully_satisfied || single_campaign then
    let left := if fully_satisfied then 0 else zsum wanted - Z.max 0 n in
    let* cs := res_foldl (leave_target t left) cs names in
    Ok (true, cs, delete t targets)
  else Ok (changed, cs, targets).

Definition names_by_target (priority : list string) (cs : list campaign) : gmap string (list string) :=
  foldl (fun m c => foldl (fun m t => if bool_decide (t ∈ priority) then m else append_to t (c_name c) m) m (target_names c)) ∅ cs.

Definition campaigns_by_name (cs : list campaign) : gmap string campaign := foldl (fun m c => <[c_name c := c]> m) ∅ cs.

Definition reduce_targets (priority : list string) (cs : list campaign) (targets : list target) : res (bool * list campaign * list target) :=
  let* r := res_foldl reduce_target (false, campaigns_by_name cs, by_name targets) (items (names_by_target priority cs)) in
  let '(changed, m, ts) := r in
  Ok (changed, List.filter (fun c => 0 <? c_impressions c) ((items m).*2), items ts).

(** The passes, until nothing changes; [None] when the rounds run out. *)
Fixpoint simplify (rounds : nat) (priority : list string) (cs : list campaign) (targets : list target) : option (res (list campaign * list target)) :=
  match rounds with
  | O => None
  | S rounds =>
      let cs := (combine_campaigns cs).2 in
      match reduce_campaigns cs targets with
      | Raise e => Some (Raise e)
      | Ok (changed_2, cs, targets) =>
          match reduce_targets priority cs targets with
          | Raise e => Some (Raise e)
          | Ok (changed_3, cs, targets) => if changed_2 || changed_3 then simplify rounds priority cs targets else Some (Ok (cs, targets))
          end
      end
  end.

(** ** The estimate *)

Definition campaigns_by_target (cs : list campaign) : gmap string (list campaign) :=
  foldl (fun m c => foldl (fun m t => append_to t c m) m (target_names c)) ∅ cs.

Definition campaigns_of (m : gmap string (list campaign)) (names : list string) : list campaign := t ← names; default [] (m !! t).

(** How far each target is from those asked about. *)
Fixpoint levels (rounds : nat) (m : gmap string (list campaign)) (level : Z) (known : gmap string Z) (next : gset string) : option (Z * gmap string Z) :=
  if bool_decide (next = ∅) then Some (level, known)
  else
    match rounds with
    | O => None
    | S rounds =>
        let names := dict_order (elements next) in
        let known := foldl (fun k t => <[t := level]> k) known names in
        let next := list_to_set (List.filter (fun t => bool_decide (known !! t = None)) (c ← campaigns_of m names; target_names c)) in
        levels rounds m (level + 1) known next
    end.

(** What is not connected is as far as can be. *)
Definition all_levels (level : Z) (known : gmap string Z) (targets : list target) : gmap string Z :=
  foldl (fun k t => match k !! t.1 with Some _ => k | None => <[t.1 := level]> k end) known targets.

Definition names_by_level (known : gmap string Z) : gmap Z (list string) := foldl (fun m tl => append_to tl.2 tl.1 m) ∅ (items known).

(** Campaigns with near and few targets come first. *)
Definition sort_val (known : gmap string Z) (level : Z) (c : campaign) : res Z :=
  let* ls := res_mapM (fun t => of_option KeyError (known !! t)) (target_names c) in
  Ok (zsum_map (fun l => if l <=? level then l + 1 else 0) ls).

Record state := State { unassigned : gmap string Z; left_in : gmap string Z }.

(** What a target has left goes to a campaign. *)
Definition assign_one (c : campaign) (s : state) (t : string) : res state :=
  let* u := of_option KeyError (unassigned s !! c_name c) in
  if 0 <? u then
    let* n := of_option KeyError (left_in s !! t) in
    let assigned := Z.min u (Z.max 0 n) in
    Ok (State (<[c_name c := u - assigned]> (unassigned s)) (<[t := n - assigned]> (left_in s)))
  else Ok s.

Definition assign_campaign (names : list string) (s : state) (c : campaign) : res state :=
  res_foldl (assign_one c) s (List.filter (fun t => bool_decide (t ∈ target_names c)) names).

Definition assign_level (m : gmap string (list campaign)) (known : gmap string Z) (s : state) (ln : Z * list string) : res state :=
  let '(level, names) := ln in
  let* keyed := res_mapM (fun c => let* v := sort_val known level c in Ok (v, c)) (campaigns_of m names) in
  res_foldl (assign_campaign names) s (isort (fun a b => a.1 <=? b.1) keyed).*2.

(** [min(names, key=level)]: the first of the nearest. *)
Definition nearest (known : gmap string Z) (names : list string) : res string :=
  let* ls := res_mapM (fun t => let* l := of_option KeyError (known !! t) in Ok (l, t)) names in
  match ls with
  | [] => Raise ValueError
  | x :: ls => Ok (foldl (fun b y => if y.1 <? b.1 then y else b) x ls).2
  end.

(** What a campaign could not get is taken from its nearest target, and counted. *)
Definition oversold (known : gmap string Z) (acc : state * Z) (c : campaign) : res (state * Z) :=
  let '(s, penalty) := acc in
  let* u := of_option KeyError (unassigned s !! c_name c) in
  if 0 <? u then
    match target_names c with
    | [] => Ok (s, penalty)
    | names =>
        let* t := nearest known names in
        let* n := of_option KeyError (left_in s !! t) in
        Ok (State (<[c_name c := u - u]> (unassigned s)) (<[t := n - u]> (left_in s)), penalty + u)
    end
  else Ok (s, penalty).

Definition start (cs : list campaign) (targets : list target) : state :=
  State (foldl (fun m c => <[c_name c := c_impressions c]> m) ∅ cs) (by_name targets).

(** [System.get_free_impressions]. *)
Definition get_free_impressions (rounds : nat) (priority : list string) (cs : list campaign) (targets : list target) : option (res Z) :=
  let m := campaigns_by_target cs in
  match levels rounds m 0 ∅ (list_to_set priority) with
  | None => None
  | Some (level, known) =>
      Some (
        let known := all_levels level known targets in
        let by_level := isort (fun a b => b.1 <=? a.1) (items (names_by_level known)) in
        let* s := res_foldl (assign_level m known) (start cs targets) by_level in
        let* r := res_foldl (oversold known) (s, 0) cs in
        let* frees := res_mapM (fun t => of_option KeyError (left_in r.1 !! t)) priority in
        Ok (zsum frees - r.2))
  end.

(** [System(campaigns, targets, priority).get_free_impressions()]. *)
Definition free_impressions (rounds : nat) (priority : list string) (cs : list campaign) (targets : list target) : option (res Z) :=
  match simplify rounds priority cs targets with
  | None => None
  | Some (Raise e) => Some (Raise e)
  | Some (Ok (cs, targets)) => get_free_impressions rounds priority cs targets
  end.

Definition get_maximized_pageviews (rounds : nat) (priority : list string) (booked : gmap (list string) Z) (pageviews : gmap string Z) : option (res Z) :=
  free_impressions rounds priority ((fun kn => SimpleCampaign (py_join ", " kn.1) kn.1 kn.2) <$> items booked) (items pageviews).
End system.
End Inventory.
