(* ===== verification/Allocation.v ===== *)
(** * Allocations: campaigns served by targets

    What it means that the inventory of targets serves campaigns, and the
    theorem that a partial allocation can always be completed without giving
    back what a target has given: a campaign may get it from another one. *)

From S2P Require Import Prelude Inventory.

Module Allocation.
Import Inventory.

(** ** Sums *)

Lemma zsum_map_add {A} (f g : A -> Z) l : zsum_map (fun x => f x + g x) l = zsum_map f l + zsum_map g l.
Proof. induction l as [|x l IH]; [done|]. rewrite !zsum_map_cons. lia. Qed.

Lemma zsum_map_zero {A} (f : A -> Z) l : (forall x, x ∈ l -> f x = 0) -> zsum_map f l = 0.
Proof.
  induction l as [|x l IH]; intros Hf; [done|]. rewrite zsum_map_cons, (Hf x) by by left. rewrite IH; [done|]. intros. apply Hf. by right.
Qed.

Lemma zsum_map_le {A} (f g : A -> Z) l : (forall x, x ∈ l -> f x <= g x) -> zsum_map f l <= zsum_map g l.
Proof.
  induction l as [|x l IH]; intros Hf; [done|]. rewrite !zsum_map_cons. specialize (IH ltac:(intros; apply Hf; by right)).
  specialize (Hf x ltac:(by left)). lia.
Qed.

Lemma zsum_map_nonneg {A} (f : A -> Z) l : (forall x, x ∈ l -> 0 <= f x) -> 0 <= zsum_map f l.
Proof. intros Hf. rewrite <- (zsum_map_zero (fun _ : A => 0) l) by done. by apply zsum_map_le. Qed.

Lemma zsum_map_member {A} (f : A -> Z) l x : (forall y, y ∈ l -> 0 <= f y) -> x ∈ l -> f x <= zsum_map f l.
Proof.
  intros Hf [l1 [l2 ->]]%list_elem_of_split. rewrite zsum_map_app, zsum_map_cons.
  pose proof (zsum_map_nonneg f l1 ltac:(intros; apply Hf; set_solver)). pose proof (zsum_map_nonneg f l2 ltac:(intros; apply Hf; set_solver)). lia.
Qed.

(** Something is smaller where the sum is. *)
Lemma zsum_map_lt {A} (f g : A -> Z) l : zsum_map f l < zsum_map g l -> exists x, x ∈ l /\ f x < g x.
Proof.
  induction l as [|x l IH]; [rewrite !zsum_map_nil; lia|]. rewrite !zsum_map_cons. intros Hlt.
  destruct (decide (f x < g x)) as [Hx | Hx]; [exists x; split; [by left|done]|].
  destruct (IH ltac:(lia)) as (y & Hy & ?). exists y. split; [by right|done].
Qed.

Lemma zsum_map_swap {A B} (f : A -> B -> Z) (l : list A) (k : list B) :
  zsum_map (fun x => zsum_map (f x) k) l = zsum_map (fun y => zsum_map (fun x => f x y) l) k.
Proof.
  induction l as [|x l IH]; [symmetry; by apply zsum_map_zero|]. rewrite zsum_map_cons, IH, <- zsum_map_add. by apply zsum_map_ext.
Qed.

(** A sum in which one of different things counts. *)
Lemma zsum_map_one `{EqDecision A} (x : A) (n : Z) l : NoDup l ->
  zsum_map (fun y => if bool_decide (y = x) then n else 0) l = if bool_decide (x ∈ l) then n else 0.
Proof.
  induction 1 as [|y l Hy _ IH]; [done|]. rewrite zsum_map_cons, IH. destruct (decide (y = x)) as [-> | Hne].
  - rewrite (bool_decide_true (x = x)), (bool_decide_true (x ∈ x :: l)), (bool_decide_false (x ∈ l)) by set_solver. lia.
  - rewrite (bool_decide_false (y = x)) by done. destruct (decide (x ∈ l)).
    + rewrite !bool_decide_true by set_solver. lia.
    + rewrite !bool_decide_false by set_solver. lia.
Qed.

Lemma zsum_map_filter {A} (f : A -> Z) (p : A -> bool) l : zsum_map f l = zsum_map f (List.filter p l) + zsum_map f (List.filter (fun x => negb (p x)) l).
Proof.
  induction l as [|x l IH]; [done|]. rewrite zsum_map_cons, IH. cbn [List.filter]. destruct (p x); cbn [negb]; rewrite zsum_map_cons; lia.
Qed.

(** ** Allocations *)

(** How much each campaign gets from each target, both by name. *)
Notation allocation := (string -> string -> Z).

(** A system: campaigns, and targets with their impressions. *)
Record system := MkSystem { campaigns : list campaign; capacity : gmap string Z }.

(** What a target gives to the campaigns. *)
Definition used (cs : list campaign) (x : allocation) (t : string) : Z := zsum_map (fun c => x (c_name c) t) cs.

(** Every campaign gets what it wants, from its targets, which have it. *)
Record serves (p : system) (x : allocation) : Prop := Serves {
  v_nonneg n t : 0 <= x n t;
  v_only c t : c ∈ campaigns p -> t ∉ target_names c -> x (c_name c) t = 0;
  v_all c : c ∈ campaigns p -> zsum_map (x (c_name c)) (target_names c) = c_impressions c;
  v_within t n : capacity p !! t = Some n -> used (campaigns p) x t <= n
}.

Definition feasible (p : system) : Prop := exists x, serves p x.

(** What stays free in the targets asked about. *)
Definition free (p : system) (priority : list string) (x : allocation) : Z :=
  zsum_map (fun t => default 0 (capacity p !! t) - used (campaigns p) x t) priority.

#[global] Arguments zsum_map : simpl never.
#[global] Arguments used : simpl never.
#[global] Arguments free : simpl never.

(** A system as the code makes them: names say which campaign is meant, and
    the targets of campaigns are there. *)
Record wf (p : system) : Prop := Wf {
  w_names : NoDup (c_name <$> campaigns p);
  w_targets c : c ∈ campaigns p -> NoDup (target_names c);
  w_known c t : c ∈ campaigns p -> t ∈ target_names c -> is_Some (capacity p !! t);
  w_impressions c : c ∈ campaigns p -> 0 <= c_impressions c
}.

(** An allocation of a part of what is wanted. *)
Record partial (p : system) (x : allocation) : Prop := Partial {
  a_nonneg n t : 0 <= x n t;
  a_only c t : c ∈ campaigns p -> t ∉ target_names c -> x (c_name c) t = 0;
  a_part c : c ∈ campaigns p -> zsum_map (x (c_name c)) (target_names c) <= c_impressions c;
  a_within t n : capacity p !! t = Some n -> used (campaigns p) x t <= Z.max 0 n
}.

(** One impression more or less. *)
Definition bump (n t : string) (k : Z) (x : allocation) : allocation :=
  fun n' t' => x n' t' + (if bool_decide (n' = n) then if bool_decide (t' = t) then k else 0 else 0).

Lemma bump_row n t k x l n' : NoDup l ->
  zsum_map (bump n t k x n') l = zsum_map (x n') l + (if bool_decide (n' = n) then if bool_decide (t ∈ l) then k else 0 else 0).
Proof.
  intros Hl. unfold bump. rewrite zsum_map_add. f_equal. destruct (bool_decide (n' = n)); [by apply zsum_map_one|by apply zsum_map_zero].
Qed.

Lemma used_bump cs c t k x t' : NoDup (c_name <$> cs) -> c ∈ cs -> used cs (bump (c_name c) t k x) t' = used cs x t' + (if bool_decide (t' = t) then k else 0).
Proof.
  intros Hn Hc. unfold used, bump. rewrite zsum_map_add. f_equal.
  transitivity (zsum_map (fun n => if bool_decide (n = c_name c) then if bool_decide (t' = t) then k else 0 else 0) (c_name <$> cs)).
  - unfold zsum_map. by rewrite <- list_fmap_compose.
  - rewrite zsum_map_one by done. rewrite bool_decide_true; [done|]. by apply list_elem_of_fmap_2.
Qed.

(** ** Completing a partial allocation *)

Lemma zsum_map_strict {A} (f g : A -> Z) l x : (forall y, y ∈ l -> f y <= g y) -> x ∈ l -> f x < g x -> zsum_map f l < zsum_map g l.
Proof.
  intros Hle [l1 [l2 ->]]%list_elem_of_split Hx. rewrite !zsum_map_app, !zsum_map_cons.
  pose proof (zsum_map_le f g l1 ltac:(intros; apply Hle; set_solver)). pose proof (zsum_map_le f g l2 ltac:(intros; apply Hle; set_solver)). lia.
Qed.

Lemma name_inj cs c c' : NoDup (c_name <$> cs) -> c ∈ cs -> c' ∈ cs -> c_name c = c_name c' -> c = c'.
Proof.
  induction cs as [|d cs IH]; cbn; [by intros _ ?%elem_of_nil|]. intros [Hd Hn]%NoDup_cons Hc Hc' E.
  apply elem_of_cons in Hc as [-> | Hc], Hc' as [-> | Hc']; [done| | |by apply IH]; destruct Hd; [rewrite E|rewrite <- E]; by apply list_elem_of_fmap_2.
Qed.

Lemma used_nonneg cs x t : (forall n t, 0 <= x n t) -> 0 <= used cs x t.
Proof. intros Hx. by apply zsum_map_nonneg. Qed.

Section exchange.
Context (p : system) (Hwf : wf p) (x : allocation) (Hx : partial p x).

Definition row_distance (y : allocation) (c : campaign) : Z := zsum_map (fun t => Z.abs (x (c_name c) t - y (c_name c) t)) (target_names c).
Definition distance (y : allocation) : Z := zsum_map (row_distance y) (campaigns p).

(** Where a target gives less than in [x], a campaign can move one impression
    to it from another target. *)
Lemma exchange_one y t n : serves p y -> capacity p !! t = Some n -> used (campaigns p) y t < used (campaigns p) x t ->
  exists y', serves p y' /\ distance y' < distance y.
Proof.
  destruct Hwf as [W1 W2 W3 W4], Hx as [X1 X2 X3 X4]. intros [V1 V2 V3 V4] Hn Hlt.
  destruct (zsum_map_lt _ _ _ Hlt) as (c & Hc & Hct).
  assert (Ht : t ∈ target_names c) by (destruct (decide (t ∈ target_names c)) as [|Hnot]; [done|]; pose proof (X2 c t Hc Hnot); pose proof (V1 (c_name c) t); lia).
  assert (Hex : exists t', t' ∈ target_names c /\ x (c_name c) t' < y (c_name c) t').
  { destruct (decide (Exists (fun t' => x (c_name c) t' < y (c_name c) t') (target_names c))) as [(t' & ?)%Exists_exists|Hno]; [eauto|].
    assert (Hge : forall t', t' ∈ target_names c -> 0 <= x (c_name c) t' - y (c_name c) t').
    { intros t' Ht'. destruct (decide (x (c_name c) t' < y (c_name c) t')); [|lia]. destruct Hno. apply Exists_exists. eauto. }
    pose proof (zsum_map_member (fun t' => x (c_name c) t' - y (c_name c) t') _ t Hge Ht) as Hm.
    pose proof (zsum_map_add (fun t' => x (c_name c) t' - y (c_name c) t') (y (c_name c)) (target_names c)) as Ha.
    assert (He : zsum_map (fun t' => x (c_name c) t' - y (c_name c) t' + y (c_name c) t') (target_names c) = zsum_map (x (c_name c)) (target_names c)) by (apply zsum_map_ext; intros; lia). pose proof (X3 c Hc). pose proof (V3 c Hc). cbn beta in *. lia. }
  destruct Hex as (t' & Ht' & Hct'). assert (Hne : t <> t') by (intros ->; lia).
  pose (y' := bump (c_name c) t 1 (bump (c_name c) t' (-1) y)). exists y'.
  assert (Hat : forall n2 t2, y' n2 t2 = y n2 t2 + (if bool_decide (n2 = (c_name c)) then (if bool_decide (t2 = t') then -1 else 0) + (if bool_decide (t2 = t) then 1 else 0) else 0)).
  { intros n2 t2. unfold y', bump. destruct (bool_decide (n2 = (c_name c))); lia. }
  split; [split|].
  - intros n2 t2. rewrite Hat. pose proof (V1 n2 t2). pose proof (X1 (c_name c) t'). repeat case_bool_decide; subst; try lia; congruence.
  - intros c2 t2 Hc2 Ht2. rewrite Hat. rewrite (V2 c2 t2) by done. destruct (decide (c_name c2 = (c_name c))) as [E|]; [|by rewrite bool_decide_false].
    apply (name_inj _ _ _ W1 Hc2 Hc) in E as ->. rewrite !(bool_decide_false (t2 = _)) by congruence. by destruct (bool_decide _).
  - intros c2 Hc2. unfold y'. rewrite !bump_row by by apply W2. rewrite (V3 c2 Hc2). destruct (decide (c_name c2 = (c_name c))) as [E|]; [|rewrite !bool_decide_false by done; lia].
    apply (name_inj _ _ _ W1 Hc2 Hc) in E as ->. rewrite !bool_decide_true by done. lia.
  - intros t2 n2 Hn2. unfold y'. rewrite !used_bump by done. pose proof (V4 t2 n2 Hn2). destruct (decide (t2 = t)) as [-> | Ht2].
    + rewrite (bool_decide_true (t = t)), (bool_decide_false (t = t')) by done. pose proof (X4 t n2 Hn2). pose proof (used_nonneg (campaigns p) y t V1). lia.
    + rewrite (bool_decide_false (t2 = t)) by done. destruct (bool_decide (t2 = t')); lia.
  - assert (Hrow : forall c2, c2 ∈ campaigns p -> row_distance y' c2 <= row_distance y c2).
    { intros c2 Hc2. apply zsum_map_le. intros t2 _. rewrite Hat. repeat case_bool_decide; subst; try lia. rewrite H. lia. rewrite H. lia. }
    apply (zsum_map_strict _ _ _ c Hrow Hc). apply (zsum_map_strict _ _ _ t); [|done|].
    + intros t2 _. rewrite Hat. repeat case_bool_decide; subst; lia.
    + rewrite Hat. rewrite (bool_decide_true ((c_name c) = (c_name c))), (bool_decide_false (t = t')), (bool_decide_true (t = t)) by done. lia.
Qed.

(** The partial allocation can be completed, with every target giving at least
    what it gave. *)
Lemma complete y : serves p y -> exists z, serves p z /\ forall t n, capacity p !! t = Some n -> used (campaigns p) x t <= used (campaigns p) z t.
Proof.
  remember (Z.to_nat (distance y)) as k eqn:Ek. revert y Ek. induction (lt_wf k) as [k _ IH]. intros y -> Hy.
  destruct (decide (Exists (fun tn => used (campaigns p) y tn.1 < used (campaigns p) x tn.1) (map_to_list (capacity p)))) as [Hex|Hno].
  - apply Exists_exists in Hex as ([t n] & Hin%elem_of_map_to_list & Hlt). destruct (exchange_one y t n Hy Hin Hlt) as (y' & Hy' & Hd).
    apply (IH (Z.to_nat (distance y'))) with (y := y'); [|done|done].
    assert (0 <= distance y') by (unfold distance, row_distance; apply zsum_map_nonneg; intros; apply zsum_map_nonneg; intros; lia). lia.
  - exists y. split; [done|]. intros t n Hn. destruct (decide (used (campaigns p) y t < used (campaigns p) x t)) as [Hlt|]; [|lia].
    destruct Hno. apply Exists_exists. exists (t, n). split; [by apply elem_of_map_to_list|done].
Qed.
End exchange.

(** ** What completing costs *)

Lemma zsum_map_part (f : string -> Z) l k : NoDup l -> NoDup k -> (forall t, t ∈ l -> t ∈ k) -> (forall t, t ∈ k -> t ∉ l -> f t = 0) ->
  zsum_map f k = zsum_map f l.
Proof.
  intros Hl Hk Hsub Hf. rewrite (zsum_map_filter f (fun t => bool_decide (t ∈ l)) k).
  rewrite (zsum_map_zero f (List.filter (fun t => negb (bool_decide (t ∈ l))) k)).
  - assert (Hp : List.filter (fun t => bool_decide (t ∈ l)) k ≡ₚ l); [|rewrite Hp; lia].
    apply NoDup_Permutation; [by apply NoDup_filter_bool|done|]. intros t. rewrite elem_of_filter_bool, bool_decide_eq_true. naive_solver.
  - intros t [Ht Htk]%elem_of_filter_bool. apply negb_true_iff, bool_decide_eq_false in Ht. by apply Hf.
Qed.

Section cost.
Context (p : system) (Hwf : wf p).

Notation all_names := ((map_to_list (capacity p)).*1).

Lemma elem_of_all t : t ∈ all_names <-> is_Some (capacity p !! t).
Proof.
  rewrite list_elem_of_fmap. split.
  - intros ([t' n] & -> & Hin%elem_of_map_to_list). by exists n.
  - intros [n Hn]. exists (t, n). split; [done|]. by apply elem_of_map_to_list.
Qed.

Definition given (x : allocation) (c : campaign) : Z := zsum_map (x (c_name c)) (target_names c).

(** What all targets give is what all campaigns get. *)
Lemma used_total x : (forall c t, c ∈ campaigns p -> t ∉ target_names c -> x (c_name c) t = 0) ->
  zsum_map (used (campaigns p) x) all_names = zsum_map (given x) (campaigns p).
Proof.
  intros Hx. unfold used. rewrite <- zsum_map_swap. apply zsum_map_ext. intros c Hc. apply zsum_map_part.
  - by apply Hwf.
  - apply NoDup_fst_map_to_list.
  - intros t Ht. apply elem_of_all. by eapply w_known.
  - intros t _ Ht. by apply Hx.
Qed.

(** What is missing from a partial allocation is all that completing it can
    take from the targets asked about. *)
Lemma complete_free priority x : partial p x -> feasible p -> NoDup priority -> (forall t, t ∈ priority -> is_Some (capacity p !! t)) ->
  exists z, serves p z /\ free p priority x - zsum_map (fun c => c_impressions c - given x c) (campaigns p) <= free p priority z.
Proof.
  intros Hx [y Hy] Hnd Hk. destruct (complete p Hwf x Hx y Hy) as (z & Hz & Hle). exists z. split; [done|].
  pose proof (used_total x (a_only _ _ Hx)) as Tx. pose proof (used_total z (v_only _ _ Hz)) as Tz.
  set (rest := List.filter (fun t => negb (bool_decide (t ∈ priority))) all_names).
  assert (Hpart : forall f : string -> Z, zsum_map f all_names = zsum_map f priority + zsum_map f rest).
  { intros f. rewrite (zsum_map_filter f (fun t => bool_decide (t ∈ priority)) all_names). fold rest.
    assert (Hp : List.filter (fun t => bool_decide (t ∈ priority)) all_names ≡ₚ priority); [|by rewrite Hp].
    apply NoDup_Permutation; [apply NoDup_filter_bool, NoDup_fst_map_to_list|done|].
    intros t. rewrite elem_of_filter_bool, bool_decide_eq_true, elem_of_all. naive_solver. }
  rewrite Hpart in Tx, Tz. assert (Hrest : zsum_map (used (campaigns p) x) rest <= zsum_map (used (campaigns p) z) rest).
  { apply zsum_map_le. intros t [_ [n Hn]%elem_of_all]%elem_of_filter_bool. by eapply Hle. }
  assert (Hgz : zsum_map (given z) (campaigns p) = zsum_map c_impressions (campaigns p)) by (apply zsum_map_ext; intros c Hc; by apply Hz).
  assert (Hfree : forall w, free p priority w = zsum_map (fun t => default 0 (capacity p !! t)) priority - zsum_map (used (campaigns p) w) priority).
  { intros w. unfold free. pose proof (zsum_map_add (fun t => default 0 (capacity p !! t) - used (campaigns p) w t) (used (campaigns p) w) priority) as E.
    cbn beta in E. assert (Ed : zsum_map (fun t => default 0 (capacity p !! t) - used (campaigns p) w t + used (campaigns p) w t) priority =
      zsum_map (fun t => default 0 (capacity p !! t)) priority) by (apply zsum_map_ext; intros; lia). lia. }
  pose proof (zsum_map_add (fun c => c_impressions c - given x c) (given x) (campaigns p)) as E.
  assert (Ei : zsum_map (fun c => c_impressions c - given x c + given x c) (campaigns p) = zsum_map c_impressions (campaigns p)) by (apply zsum_map_ext; intros; lia).
  rewrite !Hfree. cbn beta in E. lia.
Qed.
End cost.
End Allocation.
