(* ===== verification/Reductions.v ===== *)
(** * Reductions of a system of campaigns and targets

    What the passes of [Inventory.v] may do to a system: what serves the
    smaller one serves the larger one with as much left free, and the smaller
    one can be served if the larger one can. *)

From S2P Require Import Prelude PyString Inventory Allocation.

Module Reductions.
Import PyString Inventory Allocation.

(** One campaign's part of an allocation. *)
Definition set_row (n : string) (f : string -> Z) (x : allocation) : allocation := fun n' => if bool_decide (n' = n) then f else x n'.

Lemma set_row_same n f x : set_row n f x n = f.
Proof. unfold set_row. by rewrite bool_decide_true. Qed.

Lemma set_row_other n f x n' : n' <> n -> set_row n f x n' = x n'.
Proof. intros Hn. unfold set_row. by rewrite bool_decide_false. Qed.

Lemma used_cons c cs x t : used (c :: cs) x t = x (c_name c) t + used cs x t.
Proof. done. Qed.

Lemma used_app cs cs' x t : used (cs ++ cs') x t = used cs x t + used cs' x t.
Proof. apply zsum_map_app. Qed.

Lemma used_ext cs x x' t : (forall c, c ∈ cs -> x (c_name c) t = x' (c_name c) t) -> used cs x t = used cs x' t.
Proof. apply zsum_map_ext. Qed.

Lemma used_perm cs cs' x t : cs ≡ₚ cs' -> used cs x t = used cs' x t.
Proof. intros Hp. unfold used. by rewrite Hp. Qed.

(** A part of what there is. *)
Lemma take_part (f : string -> Z) l a : NoDup l -> (forall t, t ∈ l -> 0 <= f t) -> 0 <= a <= zsum_map f l ->
  exists g, (forall t, 0 <= g t) /\ (forall t, t ∈ l -> g t <= f t) /\ (forall t, t ∉ l -> g t = 0) /\ zsum_map g l = a.
Proof.
  intros Hl. revert a. induction Hl as [|t l Ht Hl IH]; intros a Hf Ha.
  - rewrite zsum_map_nil in Ha. exists (fun _ => 0). split_and!; [done|by intros ? ?%elem_of_nil|done|rewrite zsum_map_nil; lia].
  - rewrite zsum_map_cons in Ha. pose proof (zsum_map_nonneg f l ltac:(intros; apply Hf; by right)) as Hpos.
    pose proof (Hf t ltac:(by left)) as Hft. set (k := Z.min a (f t)).
    destruct (IH (a - k)) as (g & G1 & G2 & G3 & G4); [intros; apply Hf; by right|lia|].
    exists (fun t' => if bool_decide (t' = t) then k else g t'). split_and!.
    + intros t'. case_bool_decide; [lia|done].
    + intros t' [-> | Ht']%elem_of_cons; [rewrite bool_decide_true by done; lia|]. case_bool_decide; [subst; lia|by apply G2].
    + intros t' Hnot. rewrite bool_decide_false by set_solver. apply G3. set_solver.
    + rewrite zsum_map_cons, bool_decide_true by done. rewrite (zsum_map_ext _ g).
      * rewrite G4. lia.
      * intros t' Ht'. rewrite bool_decide_false; [done|]. by intros ->.
Qed.

(** Campaigns with the same targets share what they got together. *)
Lemma split_row (names : list string) cs (f : string -> Z) : NoDup names -> NoDup (c_name <$> cs) -> (forall c, c ∈ cs -> 0 <= c_impressions c) ->
  (forall t, t ∈ names -> 0 <= f t) -> zsum_map f names = zsum_map c_impressions cs ->
  exists h : allocation, (forall n t, 0 <= h n t) /\ (forall n t, t ∉ names -> h n t = 0) /\
    (forall c, c ∈ cs -> zsum_map (h (c_name c)) names = c_impressions c) /\ forall t, t ∈ names -> used cs h t = f t.
Proof.
  intros Hnames. revert f. induction cs as [|c cs IH]; intros f Hn Hi Hf Hs.
  - exists (fun _ _ => 0). split_and!; [done|done|by intros c ?%elem_of_nil|]. intros t Ht. unfold used. rewrite zsum_map_nil in *.
    pose proof (zsum_map_member f names t Hf Ht). pose proof (Hf t Ht). lia.
  - cbn in Hn. apply NoDup_cons in Hn as [Hc Hn]. rewrite zsum_map_cons in Hs.
    pose proof (zsum_map_nonneg c_impressions cs ltac:(intros; apply Hi; by right)) as Hpos. pose proof (Hi c ltac:(by left)) as Hci.
    destruct (take_part f names (c_impressions c) Hnames Hf ltac:(lia)) as (g & G1 & G2 & G3 & G4).
    destruct (IH (fun t => f t - g t) Hn ltac:(intros; apply Hi; by right)) as (h & A1 & A2 & A3 & A4).
    + intros t Ht. specialize (G2 t Ht). lia.
    + pose proof (zsum_map_add (fun t => f t - g t) g names) as E. cbn beta in E.
      assert (Ed : zsum_map (fun t => f t - g t + g t) names = zsum_map f names) by (apply zsum_map_ext; intros; lia). lia.
    + assert (Hother : forall c', c' ∈ cs -> c_name c' <> c_name c) by (intros c' Hc' E; apply Hc; rewrite <- E; by apply list_elem_of_fmap_2).
      exists (set_row (c_name c) g h). split_and!.
      * intros n t. unfold set_row. by case_bool_decide.
      * intros n t Ht. unfold set_row. case_bool_decide; [by apply G3|by apply A2].
      * intros c' [-> | Hc']%elem_of_cons; [by rewrite set_row_same|]. rewrite set_row_other by by apply Hother. by apply A3.
      * intros t Ht. rewrite used_cons, set_row_same. rewrite (used_ext cs _ h) by (intros c' Hc'; by rewrite set_row_other by by apply Hother).
        rewrite A4 by done. lia.
Qed.

(** ** The relation *)

Section reduces.
Context (priority : list string).

Definition reduces (p p' : system) : Prop :=
  feasible p -> feasible p' /\ forall x', serves p' x' -> exists x, serves p x /\ free p' priority x' <= free p priority x.

#[export] Instance reduces_preorder : PreOrder reduces.
Proof.
  split.
  - intros p Hp. split; [done|]. intros x Hx. exists x. split; [done|lia].
  - intros p q r Hpq Hqr Hp. destruct (Hpq Hp) as [Hq Hlift]. destruct (Hqr Hq) as [Hr Hlift']. split; [done|].
    intros x Hx. destruct (Hlift' x Hx) as (y & Hy & ?). destruct (Hlift y Hy) as (z & Hz & ?). exists z. split; [done|lia].
Qed.

Lemma serves_perm cs cs' cap x : cs ≡ₚ cs' -> serves (MkSystem cs cap) x -> serves (MkSystem cs' cap) x.
Proof.
  intros Hp [V1 V2 V3 V4]. split; cbn in *; [done| | |].
  - intros c t Hc. apply V2. by rewrite Hp.
  - intros c Hc. apply V3. by rewrite Hp.
  - intros t n Hn. rewrite <- (used_perm cs cs') by done. by apply V4.
Qed.

Lemma reduces_perm cs cs' cap : cs ≡ₚ cs' -> reduces (MkSystem cs cap) (MkSystem cs' cap).
Proof.
  intros Hp [x Hx]. split; [exists x; by apply (serves_perm cs)|]. intros x' Hx'. exists x'. split; [by apply (serves_perm cs')|].
  unfold free. cbn. rewrite (zsum_map_ext _ (fun t => default 0 (cap !! t) - used cs x' t)); [lia|]. intros t _. by rewrite (used_perm cs cs').
Qed.

Lemma free_ext p p' x x' : (forall t, t ∈ priority -> default 0 (capacity p !! t) - used (campaigns p) x t = default 0 (capacity p' !! t) - used (campaigns p') x' t) ->
  free p priority x = free p' priority x'.
Proof. apply zsum_map_ext. Qed.

(** A campaign with one target takes what it wants from it. *)
Lemma reduces_single c cs cap t n : target_names c = [t] -> cap !! t = Some n -> NoDup (c_name <$> c :: cs) -> 0 <= c_impressions c ->
  reduces (MkSystem (c :: cs) cap) (MkSystem cs (<[t := n - c_impressions c]> cap)).
Proof.
  intros Et En Hnd Hi. cbn in Hnd. apply NoDup_cons in Hnd as [Hc Hnd].
  assert (Hother : forall c', c' ∈ cs -> c_name c' <> c_name c) by (intros c' Hc' E; apply Hc; rewrite <- E; by apply list_elem_of_fmap_2).
  intros [x [V1 V2 V3 V4]]. cbn in *. split.
  - exists x. split; cbn; [done| | |].
    + intros c' t' Hc'. apply V2. by right.
    + intros c' Hc'. apply V3. by right.
    + intros t' n' E. specialize (V3 c ltac:(by left)). rewrite Et in V3. unfold zsum_map in V3. cbn in V3.
      destruct (decide (t' = t)) as [-> |]; [rewrite lookup_insert_eq in E; injection E as <-|rewrite lookup_insert_ne in E by done].
      * specialize (V4 t n En). rewrite used_cons in V4. lia.
      * specialize (V4 t' n' E). rewrite used_cons in V4. pose proof (V1 (c_name c) t'). lia.
  - intros x' [U1 U2 U3 U4]. cbn in *. pose (row := fun t' => if bool_decide (t' = t) then c_impressions c else 0).
    assert (Hused : forall t', used (c :: cs) (set_row (c_name c) row x') t' = row t' + used cs x' t').
    { intros t'. rewrite used_cons, set_row_same. f_equal. apply used_ext. intros c' Hc'. by rewrite set_row_other by by apply Hother. }
    exists (set_row (c_name c) row x'). split.
    + split; cbn.
      * intros n' t'. unfold set_row, row. repeat case_bool_decide; [done|lia|done].
      * intros c' t' [-> | Hc']%elem_of_cons Ht'; [rewrite set_row_same; unfold row; rewrite bool_decide_false; [done|rewrite Et in Ht'; set_solver]|].
        rewrite set_row_other by by apply Hother. by apply U2.
      * intros c' [-> | Hc']%elem_of_cons; [rewrite set_row_same, Et; unfold zsum_map, row; cbn; rewrite bool_decide_true by done; lia|].
        rewrite set_row_other by by apply Hother. by apply U3.
      * intros t' n' E. rewrite Hused. unfold row. destruct (decide (t' = t)) as [-> |].
        { rewrite bool_decide_true by done. rewrite En in E. injection E as <-. specialize (U4 t (n - c_impressions c) (lookup_insert_eq _ _ _)). lia. }
        rewrite bool_decide_false by done. apply U4. by rewrite lookup_insert_ne.
    + rewrite (free_ext _ (MkSystem (c :: cs) cap) x' (set_row (c_name c) row x')); [lia|]. cbn. intros t' _. rewrite Hused. unfold row.
      destruct (decide (t' = t)) as [-> |]; [rewrite lookup_insert_eq, En, bool_decide_true by done; cbn; lia|].
      rewrite lookup_insert_ne, bool_decide_false by done. lia.
Qed.

(** Campaigns with the same targets become one. *)
Lemma reduces_merge l cs cap names name : (forall c, c ∈ l -> NoDup (target_names c) /\ target_names c ≡ₚ names /\ 0 <= c_impressions c) -> NoDup names ->
  NoDup (c_name <$> l ++ cs) -> name ∉ c_name <$> cs ->
  reduces (MkSystem (l ++ cs) cap) (MkSystem (SimpleCampaign name names (zsum_map c_impressions l) :: cs) cap).
Proof.
  intros Hl Hnames Hnd Hname. set (m := SimpleCampaign name names (zsum_map c_impressions l)).
  assert (Hother : forall c, c ∈ cs -> c_name c <> name) by (intros c Hc E; apply Hname; rewrite <- E; by apply list_elem_of_fmap_2).
  rewrite fmap_app in Hnd. apply NoDup_app in Hnd as (Hndl & Hdis & _).
  assert (Hin : forall c t, c ∈ l -> t ∈ target_names c <-> t ∈ names) by (intros c t Hc; by destruct (Hl c Hc) as (_ & -> & _)).
  intros [x [V1 V2 V3 V4]]. cbn in *. split.
  - exists (set_row name (used l x) x).
    assert (Hused : forall t, used (m :: cs) (set_row name (used l x) x) t = used (l ++ cs) x t).
    { intros t. rewrite used_cons, used_app. cbn. rewrite set_row_same. f_equal. apply used_ext. intros c Hc. by rewrite set_row_other by by apply Hother. }
    split; cbn.
    + intros n t. unfold set_row. case_bool_decide; [by apply used_nonneg|done].
    + intros c t [-> | Hc]%elem_of_cons Ht; cbn in *.
      * rewrite set_row_same. apply zsum_map_zero. intros c Hc. apply V2; [set_solver|]. by rewrite Hin.
      * rewrite set_row_other by by apply Hother. apply V2; [set_solver|done].
    + intros c [-> | Hc]%elem_of_cons; cbn.
      * rewrite set_row_same. unfold used. rewrite <- (zsum_map_swap (fun c t => x (c_name c) t) l names). apply zsum_map_ext. intros c Hc.
        destruct (Hl c Hc) as (_ & Hp & _). rewrite <- Hp. apply V3. set_solver.
      * rewrite set_row_other by by apply Hother. apply V3. set_solver.
    + intros t n E. rewrite Hused. by apply V4.
  - intros x' [U1 U2 U3 U4]. cbn in *. specialize (U3 m ltac:(by left)) as Hm. cbn in Hm.
    destruct (split_row names l (x' name) Hnames Hndl) as (h & A1 & A2 & A3 & A4); [by intros c Hc; apply Hl|done|done|].
    pose (z := fun n => if bool_decide (n ∈ c_name <$> l) then h n else x' n).
    assert (Hxl : forall c, c ∈ l -> z (c_name c) = h (c_name c)) by (intros c Hc; unfold z; rewrite bool_decide_true; [done|by apply list_elem_of_fmap_2]).
    assert (Hxc : forall c, c ∈ cs -> z (c_name c) = x' (c_name c)).
    { intros c Hc. unfold z. rewrite bool_decide_false; [done|]. intros Hc'. apply (Hdis _ Hc'). by apply list_elem_of_fmap_2. }
    assert (Hused : forall t, used (l ++ cs) z t = used (m :: cs) x' t).
    { intros t. rewrite used_app, used_cons. cbn. rewrite (used_ext l z h) by (intros c Hc; by rewrite Hxl). rewrite (used_ext cs z x') by (intros c Hc; by rewrite Hxc).
      destruct (decide (t ∈ names)) as [Ht|Ht]; [by rewrite A4|]. pose proof (U2 m t ltac:(by left) Ht) as E0. cbn in E0. rewrite E0.
      unfold used at 1. rewrite zsum_map_zero; [lia|]. intros. by apply A2. }
    exists z. split.
    + split; cbn.
      * intros n t. unfold z. by case_bool_decide.
      * intros c t [Hc | Hc]%elem_of_app Ht; [rewrite Hxl by done; apply A2; by rewrite <- (Hin c)|rewrite Hxc by done; apply U2; [by right|done]].
      * intros c [Hc | Hc]%elem_of_app; [rewrite Hxl by done; destruct (Hl c Hc) as (_ & -> & _); by apply A3|rewrite Hxc by done; apply U3; by right].
      * intros t n E. rewrite Hused. by apply U4.
    + rewrite (free_ext _ (MkSystem (l ++ cs) cap) x' z); [lia|]. cbn. intros t _. by rewrite Hused.
Qed.

(** Campaigns that want nothing are left out. *)
Lemma reduces_empty l cs cap : (forall c, c ∈ l -> c_impressions c = 0) -> NoDup (c_name <$> l ++ cs) -> reduces (MkSystem (l ++ cs) cap) (MkSystem cs cap).
Proof.
  intros Hl Hnd. rewrite fmap_app in Hnd. apply NoDup_app in Hnd as (_ & Hdis & _). intros [x [V1 V2 V3 V4]]. cbn in *. split.
  - exists x. split; cbn; [done| | |].
    + intros c t Hc. apply V2. set_solver.
    + intros c Hc. apply V3. set_solver.
    + intros t n E. specialize (V4 t n E). rewrite used_app in V4. pose proof (used_nonneg l x t V1). lia.
  - intros x' [U1 U2 U3 U4]. cbn in *. pose (z := fun n t => if bool_decide (n ∈ c_name <$> l) then 0 else x' n t).
    assert (Hxl : forall c t, c ∈ l -> z (c_name c) t = 0) by (intros c t Hc; unfold z; rewrite bool_decide_true; [done|by apply list_elem_of_fmap_2]).
    assert (Hxc : forall c t, c ∈ cs -> z (c_name c) t = x' (c_name c) t).
    { intros c t Hc. unfold z. rewrite bool_decide_false; [done|]. intros Hc'. apply (Hdis _ Hc'). by apply list_elem_of_fmap_2. }
    assert (Hused : forall t, used (l ++ cs) z t = used cs x' t).
    { intros t. rewrite used_app, (used_ext cs z x') by (intros; by apply Hxc). unfold used at 1. rewrite zsum_map_zero; [lia|]. intros. by apply Hxl. }
    exists z. split.
    + split; cbn.
      * intros n t. unfold z. case_bool_decide; [lia|done].
      * intros c t [Hc | Hc]%elem_of_app Ht; [by apply Hxl|rewrite Hxc by done; by apply U2].
      * intros c [Hc | Hc]%elem_of_app; [rewrite Hl by done; apply zsum_map_zero; intros; by apply Hxl|].
        rewrite <- (U3 c Hc). apply zsum_map_ext. intros. by apply Hxc.
      * intros t n E. rewrite Hused. by apply U4.
    + rewrite (free_ext _ (MkSystem (l ++ cs) cap) x' z); [lia|]. cbn. intros t _. by rewrite Hused.
Qed.

(** ** Giving up a target *)

Definition others (t : string) (l : list string) : list string := List.filter (fun t' => negb (String.eqb t' t)) l.

Definition wants (t : string) (c : campaign) : bool := bool_decide (t ∈ target_names c).

(** The campaigns of a target without it, each with the same wish left. *)
Definition without (t : string) (left : Z) (c : campaign) : campaign :=
  if wants t c then SimpleCampaign (c_name c) (others t (target_names c)) left else c.

Lemma elem_of_others t t' l : t' ∈ others t l <-> t' ∈ l /\ t' <> t.
Proof. unfold others. rewrite elem_of_filter_bool, negb_true_iff, String.eqb_neq. tauto. Qed.

Lemma others_perm t l : NoDup l -> t ∈ l -> l ≡ₚ t :: others t l.
Proof.
  intros Hl Ht. apply NoDup_Permutation; [done| |].
  - constructor; [rewrite elem_of_others; tauto|by apply NoDup_filter_bool].
  - intros t'. rewrite elem_of_cons, elem_of_others. destruct (decide (t' = t)); naive_solver.
Qed.

Lemma used_without t left (cs : list campaign) x t' : used (without t left <$> cs) x t' = used cs x t'.
Proof. unfold used, zsum_map. rewrite <- list_fmap_compose. f_equal. apply list_fmap_ext. intros i c _. cbn. unfold without. by destruct (wants t c). Qed.

Lemma names_without t left (cs : list campaign) : c_name <$> (without t left <$> cs) = c_name <$> cs.
Proof. rewrite <- list_fmap_compose. apply list_fmap_ext. intros i c _. cbn. unfold without. by destruct (wants t c). Qed.

(** Rows with a property, for campaigns with different names. *)
Lemma choose_rows (P : campaign -> (string -> Z) -> Prop) l : NoDup (c_name <$> l) -> (forall c, c ∈ l -> exists f, P c f) ->
  exists h : allocation, forall c, c ∈ l -> P c (h (c_name c)).
Proof.
  induction l as [|c l IH]; intros Hn HP; [exists (fun _ _ => 0); by intros c ?%elem_of_nil|].
  cbn in Hn. apply NoDup_cons in Hn as [Hc Hn]. destruct (HP c ltac:(by left)) as [f Hf]. destruct (IH Hn ltac:(intros; apply HP; by right)) as [h Hh].
  exists (set_row (c_name c) f h). intros c' [-> | Hc']%elem_of_cons; [by rewrite set_row_same|].
  rewrite set_row_other; [by apply Hh|]. intros E. apply Hc. rewrite <- E. by apply list_elem_of_fmap_2.
Qed.

(** What the campaigns of a list get more, by name. *)
Definition extra (l : list campaign) (v : campaign -> Z) (n : string) : Z := zsum_map (fun c => if bool_decide (n = c_name c) then v c else 0) l.

Lemma extra_in l v c : NoDup (c_name <$> l) -> c ∈ l -> extra l v (c_name c) = v c.
Proof.
  intros Hn Hc. unfold extra. rewrite (zsum_map_ext _ (fun c' => if bool_decide (c_name c' = c_name c) then v c else 0)).
  - transitivity (zsum_map (fun n => if bool_decide (n = c_name c) then v c else 0) (c_name <$> l)); [unfold zsum_map; by rewrite <- list_fmap_compose|].
    rewrite zsum_map_one by done. rewrite bool_decide_true; [done|]. by apply list_elem_of_fmap_2.
  - intros c' Hc'. destruct (decide (c_name c' = c_name c)) as [E|]; [|by rewrite !bool_decide_false by congruence].
    rewrite !bool_decide_true by congruence. by rewrite (name_inj _ _ _ Hn Hc' Hc E).
Qed.

Lemma extra_out l v n : n ∉ c_name <$> l -> extra l v n = 0.
Proof. intros Hn. apply zsum_map_zero. intros c Hc. rewrite bool_decide_false; [done|]. intros ->. apply Hn. by apply list_elem_of_fmap_2. Qed.

Lemma extra_total cs p v : NoDup (c_name <$> cs) -> zsum_map (fun c => extra (List.filter p cs) v (c_name c)) cs = zsum_map v (List.filter p cs).
Proof.
  intros Hn. unfold extra. rewrite (zsum_map_swap (fun c c' => if bool_decide (c_name c = c_name c') then v c' else 0)).
  apply zsum_map_ext. intros c' [_ Hc']%elem_of_filter_bool.
  transitivity (zsum_map (fun n => if bool_decide (n = c_name c') then v c' else 0) (c_name <$> cs)); [unfold zsum_map; by rewrite <- list_fmap_compose|].
  rewrite zsum_map_one by done. rewrite bool_decide_true; [done|]. by apply list_elem_of_fmap_2.
Qed.

Lemma names_filter p cs : NoDup (c_name <$> cs) -> NoDup (c_name <$> List.filter p cs).
Proof.
  induction cs as [|c cs IH]; [done|]. cbn. intros [Hc Hn]%NoDup_cons. destruct (p c); [|by apply IH]. cbn. constructor; [|by apply IH].
  intros (c' & E & [_ Hc']%elem_of_filter_bool)%list_elem_of_fmap. apply Hc. rewrite E. by apply list_elem_of_fmap_2.
Qed.

(** When a target that is not asked about is given up: it has enough for all
    its campaigns, or one campaign only, which takes all it has. *)
Definition may_leave (n left : Z) (l : list campaign) : Prop :=
  zsum_map c_impressions l <= n /\ left = 0 \/ exists c, l = [c] /\ n < c_impressions c /\ left = c_impressions c - Z.max 0 n.

Section leave.
Context (t : string) (n left : Z) (cs : list campaign) (cap : gmap string Z).
Context (En : cap !! t = Some n) (Hnd : NoDup (c_name <$> cs)) (Hcs : forall c, c ∈ cs -> NoDup (target_names c) /\ 0 <= c_impressions c).

Notation l := (List.filter (wants t) cs).

Context (Hmay : may_leave n left l).

Lemma elem_of_leaving c : c ∈ l -> c ∈ cs /\ t ∈ target_names c.
Proof. intros [Hw Hc]%elem_of_filter_bool. by apply bool_decide_eq_true in Hw. Qed.

Lemma staying_out c : c ∈ cs -> wants t c = false -> c_name c ∉ c_name <$> l.
Proof.
  intros Hc Hw (c' & E & Hc')%list_elem_of_fmap. pose proof (elem_of_leaving c' Hc') as [Hc'' _]. apply (name_inj _ _ _ Hnd Hc Hc'') in E as ->.
  apply elem_of_filter_bool in Hc' as [Hc' _]. congruence.
Qed.

Lemma leaving_cases c : c ∈ cs -> wants t c = true /\ c ∈ l \/ wants t c = false.
Proof. intros Hc. destruct (wants t c) eqn:Hw; [left; split; [done|]; by apply elem_of_filter_bool|by right]. Qed.

(** What is left to a campaign fits in what it gets elsewhere. *)
Lemma leaving_fits x c : serves (MkSystem cs cap) x -> c ∈ l ->
  0 <= left <= zsum_map (x (c_name c)) (others t (target_names c)) /\ left <= c_impressions c.
Proof.
  intros [V1 V2 V3 V4] Hc. cbn in *. pose proof (elem_of_leaving c Hc) as [Hcc Ht].
  assert (E : c_impressions c = x (c_name c) t + zsum_map (x (c_name c)) (others t (target_names c))).
  { rewrite <- (V3 c Hcc). rewrite (others_perm t (target_names c)) at 1; [by rewrite zsum_map_cons|by apply Hcs|done]. }
  pose proof (V1 (c_name c) t). pose proof (V4 t n En) as Hu. pose proof (used_nonneg cs x t V1).
  pose proof (zsum_map_nonneg (x (c_name c)) (others t (target_names c)) ltac:(intros; apply V1)). destruct Hmay as [[_ ->] | (c0 & El & Hlt & ->)]; [lia|].
  rewrite El in Hc. apply list_elem_of_singleton in Hc as ->.
  pose proof (zsum_map_member (fun c => x (c_name c) t) cs c0 ltac:(intros; apply V1) Hcc) as Hm. unfold used in Hu. cbn beta in Hm. lia.
Qed.

Lemma leave_feasible : feasible (MkSystem cs cap) -> feasible (MkSystem (without t left <$> cs) (delete t cap)).
Proof.
  intros [x Hx]. pose proof (leaving_fits x) as Hfit. specialize (fun c => Hfit c Hx). destruct Hx as [V1 V2 V3 V4]. cbn in *.
  pose proof (names_filter (wants t) cs Hnd) as Hndl.
  destruct (choose_rows (fun c g => (forall t', 0 <= g t') /\ (forall t', t' ∈ others t (target_names c) -> g t' <= x (c_name c) t') /\
    (forall t', t' ∉ others t (target_names c) -> g t' = 0) /\ zsum_map g (others t (target_names c)) = left) l Hndl) as [h Hh].
  { intros c Hc. apply take_part; [apply NoDup_filter_bool; by apply Hcs, elem_of_leaving|intros; apply V1|by apply Hfit]. }
  pose (z := fun n' => if bool_decide (n' ∈ c_name <$> l) then h n' else x n').
  assert (Hzl : forall c, c ∈ l -> z (c_name c) = h (c_name c)) by (intros c Hc; unfold z; rewrite bool_decide_true; [done|by apply list_elem_of_fmap_2]).
  assert (Hzc : forall c, c ∈ cs -> wants t c = false -> z (c_name c) = x (c_name c)) by (intros c Hc Hw; unfold z; rewrite bool_decide_false; [done|by apply staying_out]).
  pose proof leaving_cases as Hcase.
  exists z. split; cbn.
  + intros n' t'. unfold z. case_bool_decide as Hb; [|apply V1]. apply list_elem_of_fmap in Hb as (c & -> & Hc). by apply Hh.
  + intros c' t' (c & -> & Hc)%list_elem_of_fmap. unfold without. destruct (Hcase c Hc) as [[Hw Hcl] | Hw]; rewrite Hw; cbn.
    * rewrite Hzl by done. apply Hh. done.
    * rewrite Hzc by done. by apply V2.
  + intros c' (c & -> & Hc)%list_elem_of_fmap. unfold without. destruct (Hcase c Hc) as [[Hw Hcl] | Hw]; rewrite Hw; cbn.
    * rewrite Hzl by done. by apply Hh.
    * rewrite Hzc by done. by apply V3.
  + intros t' n' [Hne E]%lookup_delete_Some. rewrite used_without. pose proof (V4 t' n' E) as Hu. enough (used cs z t' <= used cs x t') by lia.
    apply zsum_map_le. intros c Hc. destruct (Hcase c Hc) as [[Hw Hcl] | Hw]; [rewrite Hzl by done|by rewrite Hzc].
    destruct (Hh c Hcl) as (_ & G2 & G3 & _). destruct (decide (t' ∈ others t (target_names c))) as [Ht'|Ht']; [by apply G2|rewrite G3 by done; apply V1].
Qed.

Lemma leave_lifts x x' : t ∉ priority -> serves (MkSystem cs cap) x -> serves (MkSystem (without t left <$> cs) (delete t cap)) x' ->
  exists z, serves (MkSystem cs cap) z /\ free (MkSystem (without t left <$> cs) (delete t cap)) priority x' <= free (MkSystem cs cap) priority z.
Proof.
  intros Hprio Hx. pose proof (leaving_fits x) as Hfit. specialize (fun c => Hfit c Hx).
  assert (Hn : 0 <= n) by (destruct Hx as [V1 _ _ V4]; pose proof (V4 t n En); pose proof (used_nonneg cs x t V1); cbn in *; lia).
  pose proof (names_filter (wants t) cs Hnd) as Hndl.
  intros [U1 U2 U3 U4]. cbn in *. pose (e := extra l (fun c => c_impressions c - left)). pose (z := fun n' t' => x' n' t' + (if bool_decide (t' = t) then e n' else 0)).
  assert (Hwo : forall c, c ∈ cs -> without t left c ∈ without t left <$> cs) by (intros; by apply list_elem_of_fmap_2).
  assert (Hxt : forall c, c ∈ cs -> x' (c_name c) t = 0).
  { intros c Hc. specialize (U2 (without t left c) t (Hwo c Hc)). unfold without in U2. destruct (wants t c) eqn:Hw; cbn in U2; apply U2; [rewrite elem_of_others; tauto|].
    by apply bool_decide_eq_false in Hw. }
  assert (He : forall c, c ∈ cs -> e (c_name c) = if wants t c then c_impressions c - left else 0).
  { intros c Hc. destruct (wants t c) eqn:Hw; [apply extra_in; [done|by apply elem_of_filter_bool]|by apply extra_out, staying_out]. }
  exists z. split.
  + split; cbn.
    * intros n' t'. unfold z. pose proof (U1 n' t'). enough (0 <= e n') by (case_bool_decide; lia). apply zsum_map_nonneg. intros c Hc. pose proof (Hfit c Hc). case_bool_decide; lia.
    * intros c t' Hc Ht'. unfold z. pose proof (U2 (without t left c) t' (Hwo c Hc)) as E. unfold without in E. rewrite He by done. destruct (wants t c) eqn:Hw; cbn in E.
      -- apply bool_decide_eq_true in Hw. rewrite E by (rewrite elem_of_others; tauto). rewrite bool_decide_false; [done|]. by intros ->.
      -- rewrite E by done. by destruct (bool_decide _).
    * intros c Hc. unfold z. pose proof (U3 (without t left c) (Hwo c Hc)) as E. unfold without in E. rewrite zsum_map_add. rewrite zsum_map_one by by apply Hcs.
      fold (wants t c). rewrite He by done. destruct (wants t c) eqn:Hw; cbn in E; [|lia]. apply bool_decide_eq_true in Hw.
      rewrite (others_perm t (target_names c)) at 1; [|by apply Hcs|done]. rewrite zsum_map_cons, Hxt by done. lia.
    * intros t' n' E. unfold z, used. rewrite zsum_map_add. fold (used cs x' t'). destruct (decide (t' = t)) as [-> | Hne].
      -- rewrite bool_decide_true by done. unfold e. rewrite extra_total by done. rewrite En in E. injection E as <-.
         unfold used. rewrite zsum_map_zero by (intros; by apply Hxt). destruct Hmay as [[Hs ->] | (c & El & Hlt & ->)].
         ++ rewrite (zsum_map_ext _ c_impressions) by (intros; lia). lia.
         ++ rewrite El, zsum_map_cons, zsum_map_nil. lia.
      -- rewrite bool_decide_false by done. rewrite (zsum_map_zero (fun _ => 0)) by done. pose proof (U4 t' n') as Hu. rewrite used_without, lookup_delete_ne in Hu by done.
         specialize (Hu E). lia.
  + rewrite (free_ext _ (MkSystem cs cap) x' z); [lia|]. cbn. intros t' Ht'. assert (Hne : t' <> t) by congruence. rewrite used_without, lookup_delete_ne by done.
    f_equal. apply used_ext. intros c Hc. unfold z. rewrite bool_decide_false by done. lia.
Qed.

Lemma reduces_leave : t ∉ priority -> reduces (MkSystem cs cap) (MkSystem (without t left <$> cs) (delete t cap)).
Proof. intros Hprio Hp. split; [by apply leave_feasible|]. intros x' Hx'. destruct Hp as [x Hx]. by apply (leave_lifts x). Qed.
End leave.
End reduces.
End Reductions.
