(* ===== verification/InventoryPasses.v ===== *)
(** * Inventory: the passes are reductions

    Each pass of [Inventory.v] is a reduction in the sense of [Reductions.v]
    that keeps a system well formed and makes it no larger; where a pass
    reports a change, it makes it smaller, so that the rounds end.  The campaigns that
    [combine_campaigns] puts together get the names of all of them, with commas:
    [InventoryNames] shows that where names of campaigns can be told apart, those
    can too. *)

From S2P Require Import Prelude PyString Inventory Allocation Reductions.
From Stdlib Require Import Ascii.

(** ** Names of campaigns *)

Module InventoryNames.
Import PyString Inventory.

(** ** Names of campaigns that were put together *)

(** Every comma is followed by a space, and the name does not start with one. *)
Fixpoint commas_spaced (s : string) : bool :=
  match s with
  | EmptyString => true
  | String a s' => (if Ascii.eqb a "," then match s' with String b _ => Ascii.eqb b " " | EmptyString => false end else true) && commas_spaced s'
  end.

Definition plain (s : string) : bool := commas_spaced s && match s with String a _ => negb (Ascii.eqb a " ") | EmptyString => false end.

(** What follows a name in a list of names. *)
Definition name_end (s : string) : Prop := s = "" \/ exists a s', s = String "," (String a s') /\ Ascii.eqb a " " = false.

Lemma name_cut n n' s s' : commas_spaced n = true -> commas_spaced n' = true -> name_end s -> name_end s' -> n +:+ s = n' +:+ s' -> n = n'.
Proof.
  revert n'. induction n as [|a n IH]; intros n' Hn Hn' Hs Hs' E.
  - destruct n' as [|b n']; [done|]. change (s = String b (n' +:+ s')) in E. destruct Hs as [-> | (c & r & -> & Hc)]; [done|]. injection E as <- E.
    cbn in Hn'. destruct n' as [|d n']; [done|]. rewrite string_app_cons in E. injection E as -> _. by rewrite Hc in Hn'.
  - destruct n' as [|b n'].
    + change (String a (n +:+ s) = s') in E. destruct Hs' as [-> | (c & r & -> & Hc)]; [done|]. injection E as -> E.
      cbn in Hn. destruct n as [|d n]; [done|]. rewrite string_app_cons in E. injection E as -> _. by rewrite Hc in Hn.
    + rewrite !string_app_cons in E. injection E as -> E. cbn [commas_spaced] in Hn, Hn'. apply andb_true_iff in Hn as [_ Hn], Hn' as [_ Hn'].
      f_equal. by apply (IH n').
Qed.

Lemma join_head n l : Forall (fun n => plain n = true) (n :: l) -> exists s, py_join "," (n :: l) = n +:+ s /\ name_end s.
Proof.
  intros [Hn Hl]%Forall_cons. destruct l as [|n' l]; [exists ""; split; [by rewrite string_app_nil_r|by left]|].
  rewrite py_join_cons. eexists. split; [reflexivity|]. right. apply Forall_cons in Hl as [Hn' _]. unfold plain in Hn'. apply andb_true_iff in Hn' as [_ Hn'].
  destruct n' as [|a n']; [done|]. apply negb_true_iff in Hn'. destruct l as [|n'' l]; [by exists a, n'|]. rewrite py_join_cons. by exists a, (n' +:+ "," +:+ py_join "," (n'' :: l)).
Qed.

Lemma join_heads n l n' l' : Forall (fun n => plain n = true) (n :: l) -> Forall (fun n => plain n = true) (n' :: l') ->
  py_join "," (n :: l) = py_join "," (n' :: l') -> n = n'.
Proof.
  intros Hl Hl' E. destruct (join_head n l Hl) as (s & E1 & Hs), (join_head n' l' Hl') as (s' & E2 & Hs').
  apply (name_cut n n' s s'); [..|done|done|congruence]; [apply Forall_cons in Hl as [Hn _]|apply Forall_cons in Hl' as [Hn _]]; by apply andb_true_iff in Hn as [? _].
Qed.

Lemma join_app l l' : l <> [] -> l' <> [] -> py_join "," (l ++ l') = py_join "," l +:+ "," +:+ py_join "," l'.
Proof.
  intros Hl Hl'. induction l as [|n l IH]; [done|]. destruct l as [|n' l].
  - destruct l' as [|m l']; [done|]. done.
  - cbn [app] in *. rewrite !py_join_cons, IH by done. by rewrite !string_app_assoc.
Qed.

Lemma join_concat ls : Forall (fun l => l <> []) ls -> py_join "," (concat ls) = py_join "," (py_join "," <$> ls).
Proof.
  induction 1 as [|l ls Hl Hls IH]; [done|]. cbn [concat fmap list_fmap]. destruct Hls as [|l' ls Hl' Hls]; [by rewrite app_nil_r|].
  change (py_join "," (py_join "," l :: (py_join "," <$> l' :: ls))) with (py_join "," l +:+ "," +:+ py_join "," (py_join "," <$> l' :: ls)).
  rewrite <- IH. apply join_app; [done|]. cbn [concat]. by destruct l'.
Qed.

(** The campaigns a campaign was put together from, by its name. *)
Record named (cs : list campaign) (owner : string -> list string) : Prop := Named {
  n_name c : c ∈ cs -> c_name c = py_join "," (owner (c_name c));
  n_some c : c ∈ cs -> owner (c_name c) <> [];
  n_plain c : c ∈ cs -> Forall (fun n => plain n = true) (owner (c_name c));
  n_once : NoDup (c ← cs; owner (c_name c))
}.

Lemma named_perm cs cs' owner : cs ≡ₚ cs' -> named cs owner -> named cs' owner.
Proof. intros Hp [N1 N2 N3 N4]. split; intros; [apply N1|apply N2|apply N3|]; first [by rewrite Hp | by rewrite <- Hp]. Qed.

Lemma named_app cs cs' owner : named (cs ++ cs') owner -> named cs' owner.
Proof.
  intros [N1 N2 N3 N4]. split; intros; [apply N1|apply N2|apply N3|]; [set_solver..|]. rewrite bind_app in N4. by apply NoDup_app in N4 as (_ & _ & ?).
Qed.

Lemma named_nodup cs owner : named cs owner -> NoDup (c_name <$> cs).
Proof.
  induction cs as [|c cs IH]; intros HN; cbn; [constructor|]. constructor.
  - intros (c' & E & Hc')%list_elem_of_fmap. destruct HN as [_ N2 _ N4]. cbn in N4. apply NoDup_app in N4 as (_ & Hd & _).
    specialize (N2 c ltac:(by left)). destruct (owner (c_name c)) as [|n l] eqn:Eo; [done|]. apply (Hd n); [by left|].
    apply list_elem_of_bind. exists c'. split; [|done]. rewrite <- E, Eo. by left.
  - apply IH. by apply (named_app [c]).
Qed.

(** Putting some of the campaigns together gives a name of its own. *)
Lemma named_merge l cs owner names n : l <> [] -> named (l ++ cs) owner ->
  let m := SimpleCampaign (py_join "," (c_name <$> l)) names n in
  exists owner', named (m :: cs) owner'.
Proof.
  intros Hne HN m. set (parts := (fun c => owner (c_name c)) <$> l). assert (Em : c_name m = py_join "," (concat parts)).
  { destruct HN as [N1 N2 _ _]. rewrite join_concat.
    - cbn. f_equal. unfold parts. rewrite <- list_fmap_compose. apply list_fmap_ext. intros i c Hc%list_elem_of_lookup_2. cbn. apply N1. set_solver.
    - unfold parts. apply Forall_forall. intros o (c & -> & Hc)%list_elem_of_fmap. apply N2. set_solver. }
  assert (Eb : (c ← l; owner (c_name c)) = concat parts) by (unfold parts; clear; induction l as [|c l IH]; [done|cbn; by rewrite IH]).
  assert (Hp : Forall (fun n => plain n = true) (concat parts)).
  { rewrite <- Eb. apply Forall_forall. intros o (c & Ho & Hc)%list_elem_of_bind. destruct HN as [_ _ N3 _]. specialize (N3 c ltac:(set_solver)).
    rewrite Forall_forall in N3. by apply N3. }
  assert (Hcp : concat parts <> []).
  { destruct l as [|c l]; [done|]. unfold parts. cbn. destruct HN as [_ N2 _ _]. specialize (N2 c ltac:(by left)). by destruct (owner (c_name c)). }
  assert (Hd : NoDup (concat parts ++ (c ← cs; owner (c_name c)))) by (rewrite <- Eb, <- bind_app; apply HN).
  assert (Hfresh : forall c, c ∈ cs -> c_name c <> c_name m).
  { intros c Hc E. destruct HN as [N1 N2 N3 N4]. specialize (N1 c ltac:(set_solver)). specialize (N2 c ltac:(set_solver)). specialize (N3 c ltac:(set_solver)).
    apply NoDup_app in Hd as (_ & Hd & _). rewrite N1, Em in E. destruct (owner (c_name c)) as [|o1 r1] eqn:E1; [done|]. destruct (concat parts) as [|o2 r2]; [done|].
    pose proof (join_heads _ _ _ _ N3 Hp E) as ->. apply (Hd o2); [by left|]. apply list_elem_of_bind. exists c. split; [|done]. rewrite E1. by left. }
  exists (fun x => if bool_decide (x = c_name m) then concat parts else owner x).
  assert (Ho : forall c, c ∈ cs -> (if bool_decide (c_name c = c_name m) then concat parts else owner (c_name c)) = owner (c_name c))
    by (intros c Hc; by rewrite bool_decide_false by by apply Hfresh).
  split.
  - intros c [-> | Hc]%elem_of_cons; [by rewrite bool_decide_true|]. rewrite Ho by done. apply HN. set_solver.
  - intros c [-> | Hc]%elem_of_cons; [by rewrite bool_decide_true|]. rewrite Ho by done. apply HN. set_solver.
  - intros c [-> | Hc]%elem_of_cons; [by rewrite bool_decide_true|]. rewrite Ho by done. apply HN. set_solver.
  - rewrite bind_cons, bool_decide_true by done. apply (eq_ind _ NoDup Hd). f_equal. clear -Ho.
    induction cs as [|c cs IH]; [done|]. rewrite !bind_cons, Ho by by left. f_equal. apply IH. intros. apply Ho. by right.
Qed.
End InventoryNames.

Module InventoryPasses.
Import PyString Inventory Allocation Reductions InventoryNames.

(** ** Dictionaries from lists and back *)

Lemma foldl_insert {A V} (k : A -> string) (v : A -> V) l :
  foldl (fun (m : gmap string V) x => <[k x := v x]> m) ∅ l = list_to_map (reverse ((fun x => (k x, v x)) <$> l)).
Proof. induction l as [|x l IH] using rev_ind; [done|]. by rewrite foldl_snoc, fmap_app, reverse_app, IH. Qed.

Lemma list_to_map_perm_list {V} (m : gmap string V) (l : list (string * V)) : l ≡ₚ map_to_list m -> list_to_map (reverse l) = m.
Proof.
  intros Hl. rewrite <- (list_to_map_to_list m). apply list_to_map_proper.
  - rewrite reverse_Permutation, Hl. apply NoDup_fst_map_to_list.
  - by rewrite reverse_Permutation.
Qed.

Section laws.
Context `{HO : HashOrder} `{!HashOrderLaws}.

Lemma items_perm {K} `{Countable K} {A} (m : gmap K A) : items m ≡ₚ map_to_list m.
Proof. apply dict_order_perm. Qed.

Lemma elem_of_items {K} `{Countable K} {A} (m : gmap K A) k x : (k, x) ∈ items m <-> m !! k = Some x.
Proof. by rewrite items_perm, elem_of_map_to_list. Qed.

Lemma NoDup_items {K} `{Countable K} {A} (m : gmap K A) : NoDup (items m).*1.
Proof. rewrite items_perm. apply NoDup_fst_map_to_list. Qed.

Lemma by_name_items m : by_name (items m) = m.
Proof.
  unfold by_name. rewrite foldl_insert. apply list_to_map_perm_list. rewrite <- items_perm. apply reflexive_eq.
  rewrite <- (list_fmap_id (items m)) at 2. by apply list_fmap_ext; intros i [].
Qed.
End laws.

(** The campaigns of a dictionary by name. *)
Notation values m := ((map_to_list m).*2).

Definition keyed (m : gmap string campaign) : Prop := forall n c, m !! n = Some c -> c_name c = n.

Lemma elem_of_values (m : gmap string campaign) c : keyed m -> c ∈ values m <-> m !! c_name c = Some c.
Proof.
  intros Hm. rewrite list_elem_of_fmap. split.
  - intros ([n c'] & -> & Hin%elem_of_map_to_list). cbn. by rewrite (Hm n c').
  - intros E. exists (c_name c, c). split; [done|]. by apply elem_of_map_to_list.
Qed.

Lemma names_values m : keyed m -> c_name <$> values m = (map_to_list m).*1.
Proof. intros Hm. rewrite <- list_fmap_compose. apply list_fmap_ext. intros i [n c] Hin%list_elem_of_lookup_2%elem_of_map_to_list. by apply Hm. Qed.

Lemma campaigns_by_name_lookup cs c : NoDup (c_name <$> cs) -> campaigns_by_name cs !! c_name c = Some c <-> c ∈ cs.
Proof.
  intros Hn. unfold campaigns_by_name. rewrite (foldl_insert c_name (fun c => c)), <- elem_of_list_to_map.
  - rewrite elem_of_reverse, list_elem_of_fmap. split; [intros (c' & [=_ ->] & Hc); done|]. intros Hc. by exists c.
  - rewrite fmap_reverse, reverse_Permutation, <- list_fmap_compose. done.
Qed.

Lemma campaigns_by_name_keyed cs : keyed (campaigns_by_name cs).
Proof.
  unfold campaigns_by_name. rewrite (foldl_insert c_name (fun c => c)). intros n c Hin%elem_of_list_to_map_2.
  apply elem_of_reverse, list_elem_of_fmap in Hin as (c' & [= -> ->] & _). done.
Qed.

Lemma values_by_name cs : NoDup (c_name <$> cs) -> values (campaigns_by_name cs) ≡ₚ cs.
Proof.
  intros Hn. pose proof (campaigns_by_name_keyed cs) as Hk. apply NoDup_Permutation.
  - apply (NoDup_fmap_1 c_name). rewrite names_values by done. apply NoDup_fst_map_to_list.
  - by apply (NoDup_fmap_1 c_name).
  - intros c. rewrite elem_of_values by done. by apply campaigns_by_name_lookup.
Qed.

Lemma filter_bool_perm {A} (p : A -> bool) l l' : l ≡ₚ l' -> List.filter p l ≡ₚ List.filter p l'.
Proof.
  induction 1 as [|x l l' _ IH|x y l|l l' l'' _ IH1 _ IH2]; [done|..]; cbn; [destruct (p x); by rewrite IH|destruct (p x), (p y); [apply Permutation_swap|done..]|by rewrite IH1].
Qed.

(** Things by the targets they name. *)
Lemma append_each_lookup {A} (skip : string -> bool) (x : A) ts m t : NoDup ts ->
  foldl (fun m t => if skip t then m else append_to t x m) m ts !! t = if bool_decide (t ∈ ts) && negb (skip t) then Some (default [] (m !! t) ++ [x]) else m !! t.
Proof.
  intros Hts. revert m. induction Hts as [|t' ts Ht' Hts IH]; intros m; [done|]. cbn [foldl]. rewrite IH. destruct (decide (t = t')) as [-> | Hne].
  - rewrite (bool_decide_false (t' ∈ ts)), (bool_decide_true (t' ∈ t' :: ts)) by set_solver. cbn. destruct (skip t'); [done|]. unfold append_to. by rewrite lookup_insert_eq.
  - rewrite (bool_decide_ext (t ∈ t' :: ts) (t ∈ ts)) by set_solver.
    assert (E : (if skip t' then m else append_to t' x m) !! t = m !! t) by (destruct (skip t'); [done|]; unfold append_to; by rewrite lookup_insert_ne).
    by rewrite E.
Qed.

Lemma append_all_lookup {A} (skip : string -> bool) (f : campaign -> A) cs m t : (forall c, c ∈ cs -> NoDup (target_names c)) ->
  foldl (fun m c => foldl (fun m t => if skip t then m else append_to t (f c) m) m (target_names c)) m cs !! t =
    match (if skip t then [] else List.filter (fun c => bool_decide (t ∈ target_names c)) cs) with
    | [] => m !! t
    | l => Some (default [] (m !! t) ++ (f <$> l))
    end.
Proof.
  revert m. induction cs as [|c cs IH]; intros m Hcs; [by destruct (skip t)|]. cbn [foldl List.filter].
  rewrite IH by (intros; apply Hcs; by right). rewrite append_each_lookup by (apply Hcs; by left). destruct (skip t); [by rewrite andb_false_r|].
  destruct (bool_decide (t ∈ target_names c)); cbn [andb negb]; [|done]. destruct (List.filter _ cs) as [|c' l]; cbn; [done|]. by rewrite <- app_assoc.
Qed.

(** ** Systems on their way *)

Definition weight (cs : list campaign) : Z := zsum_map (fun c => 1 + Z.of_nat (length (target_names c))) cs.

Lemma weight_nonneg cs : 0 <= weight cs.
Proof. apply zsum_map_nonneg. intros. lia. Qed.

Section passes.
Context `{HO : HashOrder} `{!HashOrderLaws} (priority : list string).

(** A well-formed system with names that can be told apart and with the targets
    asked about. *)
Record ok (p : system) : Prop := OkSystem {
  k_wf : wf p;
  k_named : exists owner, named (campaigns p) owner;
  k_priority t : t ∈ priority -> is_Some (capacity p !! t)
}.

Definition shrinks (p p' : system) : Prop := ok p -> ok p' /\ reduces priority p p' /\ weight (campaigns p') <= weight (campaigns p).

#[export] Instance shrinks_preorder : PreOrder shrinks.
Proof.
  split.
  - intros p Hp. split_and!; [done|reflexivity|lia].
  - intros p q r Hpq Hqr Hp. destruct (Hpq Hp) as (Hq & R1 & W1). destruct (Hqr Hq) as (Hr & R2 & W2). split_and!; [done|by transitivity q|lia].
Qed.

Lemma ok_perm cs cs' cap : cs ≡ₚ cs' -> ok (MkSystem cs cap) -> ok (MkSystem cs' cap).
Proof.
  intros Hp [[W1 W2 W3 W4] [owner HN] HP]. cbn in *. split; cbn; [|exists owner; by apply (named_perm cs)|done].
  split; cbn; [by rewrite <- Hp|intros c Hc|intros c t Hc|intros c Hc]; rewrite <- Hp in Hc; eauto.
Qed.

Lemma shrinks_perm cs cs' cap : cs ≡ₚ cs' -> shrinks (MkSystem cs cap) (MkSystem cs' cap).
Proof. intros Hp Hok. split_and!; [by apply (ok_perm cs)|by apply reduces_perm|cbn; unfold weight; by rewrite Hp]. Qed.

(** Campaigns are left out, targets stay. *)
Lemma ok_rest l cs cap cap' : ok (MkSystem (l ++ cs) cap) -> (forall t, is_Some (cap !! t) -> is_Some (cap' !! t)) -> ok (MkSystem cs cap').
Proof.
  intros [[W1 W2 W3 W4] [owner HN] HP] Hcap. cbn in *. split; cbn; [|exists owner; by apply (named_app l)|auto].
  split; cbn; [rewrite fmap_app in W1; by apply NoDup_app in W1 as (_ & _ & ?)|..]; intros c; [intros; apply W2|intros t Hc Ht; apply Hcap; apply (W3 c)|intros; apply W4]; set_solver.
Qed.

Lemma weight_app l cs : weight (l ++ cs) = weight l + weight cs.
Proof. apply zsum_map_app. Qed.

Lemma shrinks_single c cs cap t n : target_names c = [t] -> cap !! t = Some n ->
  shrinks (MkSystem (c :: cs) cap) (MkSystem cs (<[t := n - c_impressions c]> cap)).
Proof.
  intros Et En Hok. split_and!.
  - apply (ok_rest [c] cs cap); [done|]. intros t' [n' E]. destruct (decide (t' = t)) as [-> |]; [by rewrite lookup_insert_eq|by rewrite lookup_insert_ne, E].
  - apply reduces_single; [done|done|apply Hok|]. apply Hok. by left.
  - cbn. rewrite (weight_app [c] cs : weight (c :: cs) = _). pose proof (weight_nonneg [c]). lia.
Qed.

Lemma shrinks_empty l cs cap : (forall c, c ∈ l -> c_impressions c = 0) -> shrinks (MkSystem (l ++ cs) cap) (MkSystem cs cap).
Proof.
  intros Hl Hok. split_and!; [by apply (ok_rest l cs cap)|apply reduces_empty; [done|apply Hok]|]. cbn. rewrite weight_app. pose proof (weight_nonneg l). lia.
Qed.

Lemma sort_names_perm l : sort_names l ≡ₚ l.
Proof. apply isort_perm. Qed.

(** Campaigns with the same targets become one. *)
Lemma shrinks_merge l cs cap names : l <> [] -> (forall c, c ∈ l -> sort_names (target_names c) = names) ->
  shrinks (MkSystem (l ++ cs) cap) (MkSystem (combined names l :: cs) cap).
Proof.
  intros Hne Hl Hok. assert (Hlp : forall c, c ∈ l -> target_names c ≡ₚ names) by (intros c Hc; by rewrite <- (Hl c Hc), sort_names_perm).
  destruct Hok as [[W1 W2 W3 W4] [owner HN] HP]. cbn in *.
  destruct (named_merge l cs owner names (zsum_map c_impressions l) Hne HN) as [owner' HN'].
  assert (Hc0 : exists c0, c0 ∈ l) by (destruct l as [|c0 l]; [done|exists c0; by left]). destruct Hc0 as [c0 Hc0].
  assert (Hnames : NoDup names) by (rewrite <- (Hlp c0 Hc0); apply W2; set_solver).
  pose proof (named_nodup _ _ HN') as Hnd. unfold combined in *. split_and!.
  - split; cbn; [|by exists owner'|done]. split; cbn; [done|..].
    + intros c [-> | Hc]%elem_of_cons; [done|apply W2; set_solver].
    + intros c t [-> | Hc]%elem_of_cons Ht; cbn in *; [|apply (W3 c); set_solver]. apply (W3 c0); [set_solver|]. by rewrite (Hlp c0 Hc0).
    + intros c [-> | Hc]%elem_of_cons; cbn; [|apply W4; set_solver]. apply zsum_map_nonneg. intros. apply W4. set_solver.
  - apply reduces_merge; [|done|done|by apply NoDup_cons in Hnd as [? _]]. intros c Hc. split_and!; [apply W2|apply Hlp|apply W4]; set_solver.
  - cbn. unfold weight. rewrite zsum_map_app, zsum_map_cons. cbn. rewrite <- (Hlp c0 Hc0).
    pose proof (zsum_map_member (fun c => 1 + Z.of_nat (length (target_names c))) l c0 ltac:(intros; cbn beta; lia) Hc0). cbn beta in *. lia.
Qed.

(** ** [combine_campaigns] *)

Notation grouped kcs := (forall k l, (k, l) ∈ kcs -> l <> [] /\ forall c, c ∈ l -> sort_names (target_names c) = k).

Lemma combine_fold kcs changed out cap : grouped kcs ->
  shrinks (MkSystem (out ++ concat kcs.*2) cap) (MkSystem (foldl (fun (acc : bool * list campaign) (kc : list string * list campaign) =>
    match kc.2 with _ :: _ :: _ => (true, acc.2 ++ [combined kc.1 kc.2]) | l => (acc.1, acc.2 ++ l) end) (changed, out) kcs).2 cap).
Proof.
  revert changed out. induction kcs as [|[k l] kcs IH]; intros changed out Hg; [cbn; by rewrite app_nil_r|].
  destruct (Hg k l ltac:(by left)) as [Hne Hl]. assert (Hg' : grouped kcs) by (intros; apply Hg; by right).
  cbn. destruct l as [|c [|c' l]]; [done|..].
  - rewrite app_assoc. by apply IH.
  - etransitivity; [|by apply IH]. set (m := c :: c' :: l) in *.
    etransitivity; [apply (shrinks_perm _ (m ++ (out ++ concat kcs.*2))); by rewrite !app_assoc, (Permutation_app_comm m)|].
    etransitivity; [by apply (shrinks_merge m _ cap k)|]. apply shrinks_perm. rewrite (Permutation_app_comm out [_]). done.
Qed.

(** What is appended is there, whatever the order. *)
Lemma append_to_perm {K} `{Countable K} {A} (k : K) (x : A) m : concat (values (append_to k x m)) ≡ₚ x :: concat (values m).
Proof.
  unfold append_to. rewrite <- insert_delete_eq, map_to_list_insert by by rewrite lookup_delete_eq. destruct (m !! k) as [l|] eqn:E.
  - rewrite <- (map_to_list_delete m k l) by done. cbn. by rewrite (Permutation_app_comm l [x]).
  - by rewrite delete_id.
Qed.

Definition by_targets (cs : list campaign) : gmap (list string) (list campaign) := foldl (fun m c => append_to (sort_names (target_names c)) c m) ∅ cs.

Lemma groups_spec cs : concat (values (by_targets cs)) ≡ₚ cs /\
  forall k l, by_targets cs !! k = Some l -> l <> [] /\ forall c, c ∈ l -> sort_names (target_names c) = k.
Proof.
  unfold by_targets. induction cs as [|c cs [IH1 IH2]] using rev_ind; [by split; [cbn; rewrite map_to_list_empty|]|]. rewrite foldl_snoc. split.
  - rewrite append_to_perm, IH1. apply Permutation_cons_append.
  - intros k l. unfold append_to. destruct (decide (k = sort_names (target_names c))) as [-> | Hk]; [rewrite lookup_insert_eq|rewrite lookup_insert_ne by done; apply IH2].
    intros [= <-]. split; [by destruct (default [] _)|]. intros c' [Hc' | ->%list_elem_of_singleton]%elem_of_app; [|done].
    destruct (foldl _ ∅ cs !! sort_names (target_names c)) as [l'|] eqn:E; [by apply (IH2 _ l' E)|by apply elem_of_nil in Hc'].
Qed.

Lemma combine_shrinks cs cap : shrinks (MkSystem cs cap) (MkSystem (combine_campaigns cs).2 cap).
Proof.
  unfold combine_campaigns. fold (by_targets cs). set (m := by_targets cs).
  assert (Hm : concat (items m).*2 ≡ₚ cs /\ grouped (items m)).
  { rewrite items_perm. pose proof (groups_spec cs) as [Hc Hg]. split; [done|]. intros k l Hin%elem_of_items. by apply Hg. }
  destruct Hm as [Hc Hg]. etransitivity; [by apply (shrinks_perm cs (concat (items m).*2))|]. exact (combine_fold (items m) false [] cap Hg).
Qed.

(** ** [reduce_campaigns] *)

(** A pass does not raise, and what it gives is a smaller system. *)
Definition good_pass (cs : list campaign) (cap : gmap string Z) (r : res (bool * list campaign * list target)) : Prop :=
  exists changed cs' cap', r = Ok (changed, cs', items cap') /\ shrinks (MkSystem cs cap) (MkSystem cs' cap') /\ (changed = true -> weight cs' < weight cs).

Lemma reduce_campaigns_fold cs changed kept cap : ok (MkSystem (kept ++ cs) cap) ->
  exists changed' kept' cap', res_foldl reduce_campaign (changed, kept, cap) cs = Ok (changed', kept', cap') /\
    shrinks (MkSystem (kept ++ cs) cap) (MkSystem kept' cap') /\ (changed' = true -> changed = true \/ weight kept' < weight (kept ++ cs)).
Proof.
  revert changed kept cap. induction cs as [|c cs IH]; intros changed kept cap Hok.
  - exists changed, kept, cap. rewrite app_nil_r. split_and!; [done|done|by left].
  - assert (Hkeep : exists changed' kept' cap', res_foldl reduce_campaign (changed, kept ++ [c], cap) cs = Ok (changed', kept', cap') /\
      shrinks (MkSystem (kept ++ c :: cs) cap) (MkSystem kept' cap') /\ (changed' = true -> changed = true \/ weight kept' < weight (kept ++ c :: cs))).
    { assert (E : kept ++ c :: cs = (kept ++ [c]) ++ cs) by by rewrite <- app_assoc. rewrite E in *. by apply IH. }
    cbn [res_foldl]. unfold reduce_campaign at 1. destruct (target_names c) as [|t [|t' ts]] eqn:Et; [exact Hkeep| |exact Hkeep]. clear Hkeep.
    destruct (w_known _ (k_wf _ Hok) c t) as [n En]; [cbn; set_solver|rewrite Et; by left|]. cbn in En. rewrite En. cbn.
    assert (Hp : kept ++ c :: cs ≡ₚ c :: kept ++ cs) by by rewrite Permutation_middle.
    assert (Hs : shrinks (MkSystem (kept ++ c :: cs) cap) (MkSystem (kept ++ cs) (<[t := n - c_impressions c]> cap)))
      by (etransitivity; [by apply shrinks_perm|by apply shrinks_single]).
    destruct (IH true kept _ (proj1 (Hs Hok))) as (changed' & kept' & cap' & -> & Hs' & _). exists changed', kept', cap'.
    split_and!; [done|by etransitivity|]. intros _. right. pose proof (Hs' (proj1 (Hs Hok))) as (_ & _ & Hw). cbn in Hw.
    rewrite !weight_app in *. rewrite (weight_app [c] cs : weight (c :: cs) = _). unfold weight at 3. rewrite zsum_map_cons, zsum_map_nil. lia.
Qed.

Lemma reduce_campaigns_good cs targets : ok (MkSystem cs (by_name targets)) -> good_pass cs (by_name targets) (reduce_campaigns cs targets).
Proof.
  intros Hok. destruct (reduce_campaigns_fold cs false [] _ Hok) as (changed & kept & cap & E & Hs & Hc). exists changed, kept, cap.
  unfold reduce_campaigns. rewrite E. split_and!; [done|done|]. intros Ht. by destruct (Hc Ht).
Qed.

(** ** [reduce_targets] *)

Lemma list_remove_others t l : NoDup l -> t ∈ l -> list_remove t l = Ok (others t l).
Proof.
  induction 1 as [|t' l Ht' Hl IH]; [by intros ?%elem_of_nil|]. intros Ht. cbn. destruct (String.eqb_spec t' t) as [-> | Hne]; cbn.
  - f_equal. symmetry. apply forallb_filter_id, forallb_forall. intros t' Hin%list_elem_of_In. apply negb_true_iff, String.eqb_neq. by intros ->.
  - rewrite IH by set_solver. done.
Qed.

Lemma leave_fold t left names cs : keyed cs -> NoDup names ->
  (forall n, n ∈ names -> exists c, cs !! n = Some c /\ NoDup (target_names c) /\ t ∈ target_names c) ->
  exists cs', res_foldl (leave_target t left) cs names = Ok cs' /\ forall n, cs' !! n = if bool_decide (n ∈ names) then without t left <$> cs !! n else cs !! n.
Proof.
  intros Hk Hn. revert cs Hk. induction Hn as [|n names Hn Hnd IH]; intros cs Hk Hin; [by exists cs|].
  destruct (Hin n ltac:(by left)) as (c & E & Hc & Ht). cbn [res_foldl]. unfold leave_target at 1. rewrite E. cbn.
  rewrite list_remove_others by done. cbn. pose proof (Hk _ _ E) as Ec. assert (Ew : SimpleCampaign n (others t (target_names c)) left = without t left c).
  { unfold without, wants. rewrite bool_decide_true by done. by rewrite Ec. }
  rewrite Ew. destruct (IH (<[n := without t left c]> cs)) as (cs' & Ecs' & Hcs').
  - intros n' c' [[<- <-] | [_ E']]%lookup_insert_Some; [by rewrite <- Ew|by apply Hk].
  - intros n' Hn'. rewrite lookup_insert_ne by (by intros ->). apply Hin. by right.
  - exists cs'. split; [done|]. intros n'. rewrite Hcs'. destruct (decide (n' = n)) as [-> | Hne].
    + rewrite lookup_insert_eq, bool_decide_false, bool_decide_true, E by set_solver. done.
    + rewrite lookup_insert_ne by done. by rewrite (bool_decide_ext (n' ∈ n :: names) (n' ∈ names)) by set_solver.
Qed.

Lemma values_fmap (f : campaign -> campaign) (cs : gmap string campaign) : values (f <$> cs) = f <$> values cs.
Proof. rewrite map_to_list_fmap, <- !list_fmap_compose. by apply list_fmap_ext; intros i []. Qed.

Lemma zsum_map_fmap {A B} (f : B -> Z) (g : A -> B) l : zsum_map f (g <$> l) = zsum_map (fun x => f (g x)) l.
Proof. unfold zsum_map. by rewrite <- list_fmap_compose. Qed.

(** Which campaigns there are is a matter of their names. *)
Lemma named_names cs cs' owner : c_name <$> cs = c_name <$> cs' -> named cs owner -> named cs' owner.
Proof.
  intros E [N1 N2 N3 N4]. assert (Hc : forall c', c' ∈ cs' -> exists c, c ∈ cs /\ c_name c' = c_name c).
  { intros c' Hc'. apply (list_elem_of_fmap_2 c_name) in Hc'. rewrite <- E in Hc'. apply list_elem_of_fmap in Hc' as (c & -> & ?). by exists c. }
  split; [intros c' (c & Hin & ->)%Hc; auto..|].
  enough (Eb : forall cs : list campaign, (c ← cs; owner (c_name c)) = (n ← (c_name <$> cs); owner n)) by by rewrite Eb, <- E, <- Eb.
  clear. induction cs as [|c cs IH]; [done|]. cbn. f_equal. exact IH.
Qed.

Section leave.
Context (t : string) (n left : Z) (cs : list campaign) (cap : gmap string Z).
Context (Ht : t ∉ priority) (En : cap !! t = Some n) (Hmay : may_leave n left (List.filter (wants t) cs)) (Hok : ok (MkSystem cs cap)).

Lemma elem_of_without c' : c' ∈ without t left <$> cs -> exists c, c ∈ cs /\ (t ∈ target_names c /\ c' = SimpleCampaign (c_name c) (others t (target_names c)) left \/ t ∉ target_names c /\ c' = c).
Proof.
  intros (c & -> & Hc)%list_elem_of_fmap. exists c. split; [done|]. unfold without, wants. case_bool_decide; [by left|by right].
Qed.

Lemma leave_ok : ok (MkSystem (without t left <$> cs) (delete t cap)).
Proof.
  destruct Hok as [[W1 W2 W3 W4] [owner HN] HP]. cbn in *. split; cbn.
  - split; cbn; [by rewrite names_without|..].
    + intros c' (c & Hc & [[_ ->] | [_ ->]])%elem_of_without; [apply NoDup_filter_bool|]; by apply W2.
    + intros c' t' (c & Hc & [[_ ->] | [Hn ->]])%elem_of_without Ht'; cbn in *.
      * apply elem_of_others in Ht' as [Ht' Hne]. rewrite lookup_delete_ne by done. by apply (W3 c).
      * rewrite lookup_delete_ne by congruence. by apply (W3 c).
    + intros c' (c & Hc & [[_ ->] | [_ ->]])%elem_of_without; cbn; [|by apply W4]. destruct Hmay as [[_ ->] | (c0 & Ec & Hlt & ->)]; [done|].
      assert (Hc0 : c0 ∈ List.filter (wants t) cs) by (rewrite Ec; by left). apply elem_of_filter_bool in Hc0 as [_ Hc0]. specialize (W4 c0 Hc0). lia.
  - exists owner. by apply (named_names cs); [by rewrite names_without|].
  - intros t' Ht'. rewrite lookup_delete_ne by congruence. by apply HP.
Qed.

Lemma leave_shrinks : shrinks (MkSystem cs cap) (MkSystem (without t left <$> cs) (delete t cap)).
Proof.
  intros _. split_and!; [exact leave_ok| |].
  - apply (reduces_leave priority t n); [done|apply Hok| |done|done]. intros c Hc. split; by apply Hok.
  - cbn. unfold weight. rewrite zsum_map_fmap. apply zsum_map_le. intros c Hc. unfold without, wants. case_bool_decide as Hw; [cbn|lia].
    rewrite (others_perm t (target_names c)) at 2; [|by apply Hok|done]. cbn. lia.
Qed.

Lemma leave_lighter : List.filter (wants t) cs <> [] -> weight (without t left <$> cs) < weight cs.
Proof.
  intros Hne. destruct (List.filter (wants t) cs) as [|c0 l] eqn:El; [done|]. assert (Hc0 : c0 ∈ List.filter (wants t) cs) by (rewrite El; by left).
  apply elem_of_filter_bool in Hc0 as [Hw Hc0]. unfold weight. rewrite zsum_map_fmap.
  assert (Hlen : forall c, c ∈ cs -> wants t c = true -> Z.of_nat (length (target_names (without t left c))) < Z.of_nat (length (target_names c))).
  { intros c Hc Hwc. unfold without. rewrite Hwc. cbn. apply bool_decide_eq_true in Hwc. rewrite (others_perm t (target_names c)) at 2; [|by apply Hok|done]. cbn. lia. }
  apply (zsum_map_strict _ _ _ c0); [|done|].
  - intros c Hc. destruct (wants t c) eqn:E; [pose proof (Hlen c Hc E); lia|]. unfold without. rewrite E. lia.
  - pose proof (Hlen c0 Hc0 Hw). lia.
Qed.
End leave.

(** What [names_by_target] says of the campaigns there are. *)
Definition target_of (M : gmap string campaign) (tn : string * list string) : Prop :=
  tn.1 ∉ priority /\ tn.2 <> [] /\ tn.2 ≡ₚ c_name <$> List.filter (wants tn.1) (values M).

Lemma target_of_member M t names n : keyed M -> target_of M (t, names) -> n ∈ names <-> exists c, M !! n = Some c /\ t ∈ target_names c.
Proof.
  intros Hk (_ & _ & Hp). cbn in Hp. rewrite Hp, list_elem_of_fmap. split.
  - intros (c & -> & [Hw Hc]%elem_of_filter_bool). apply elem_of_values in Hc; [|done]. exists c. by apply bool_decide_eq_true in Hw.
  - intros (c & E & Ht). pose proof (Hk _ _ E) as <-. exists c. split; [done|]. apply elem_of_filter_bool. rewrite elem_of_values by done.
    split; [by apply bool_decide_eq_true|done].
Qed.

Lemma keyed_without t left M : keyed M -> keyed (without t left <$> M).
Proof. intros Hk n c' (c & <- & E)%lookup_fmap_Some. rewrite <- (Hk _ _ E). unfold without. by destruct (wants t c). Qed.

(** Giving up a target leaves the others as they are. *)
Lemma target_of_without M t left t' names : keyed M -> t' <> t -> target_of M (t', names) -> target_of (without t left <$> M) (t', names).
Proof.
  intros Hk Hne (H1 & H2 & H3). split_and!; [done|done|]. cbn in *. rewrite H3. apply reflexive_eq.
  rewrite values_fmap. generalize (values M). intros l. induction l as [|c l IH]; [done|]. cbn [fmap list_fmap List.filter].
  assert (E : wants t' (without t left c) = wants t' c).
  { unfold without. destruct (wants t c); [|done]. apply bool_decide_ext. cbn. rewrite elem_of_others. tauto. }
  rewrite E. destruct (wants t' c); [|exact IH]. cbn. f_equal; [|exact IH]. unfold without. by destruct (wants t c).
Qed.

Lemma reduce_target_step changed M T t names : keyed M -> ok (MkSystem (values M) T) -> target_of M (t, names) ->
  reduce_target (changed, M, T) (t, names) = Ok (changed, M, T) \/
  exists n left, T !! t = Some n /\ may_leave n left (List.filter (wants t) (values M)) /\
    reduce_target (changed, M, T) (t, names) = Ok (true, without t left <$> M, delete t T).
Proof.
  intros Hk Hok Htn. pose proof (target_of_member M t names) as Hmem. specialize (fun n => Hmem n Hk Htn).
  destruct Htn as (Ht & Hne & Hp). cbn in *.
  assert (Hn : exists n, T !! t = Some n).
  { destruct names as [|n0 names]; [done|]. destruct (proj1 (Hmem n0) ltac:(by left)) as (c & E & Hc).
    destruct (w_known _ (k_wf _ Hok) c t) as [n ?]; [|done|by exists n]. cbn. apply elem_of_values; [done|]. by rewrite (Hk _ _ E). }
  destruct Hn as [n En]. unfold reduce_target. rewrite En. cbn [of_option res_bind].
  set (g := fun name => default 0 (c_impressions <$> M !! name)).
  rewrite (res_mapM_fmap _ g).
  2: { intros n0 Hn0. destruct (proj1 (Hmem n0) Hn0) as (c & E & _). unfold g. by rewrite E. }
  cbn [res_bind].
  assert (Hsum : zsum (g <$> names) = zsum_map c_impressions (List.filter (wants t) (values M))).
  { change (zsum_map g names = zsum_map c_impressions (List.filter (wants t) (values M))). rewrite Hp, zsum_map_fmap. apply zsum_map_ext.
    intros c [_ Hc]%elem_of_filter_bool. unfold g. apply elem_of_values in Hc; [|done]. by rewrite Hc. }
  rewrite Hsum. set (l := List.filter (wants t) (values M)) in *.
  assert (Hfold : forall left, res_foldl (leave_target t left) M names = Ok (without t left <$> M)).
  { intros left. destruct (leave_fold t left names M Hk) as (M' & E & HM').
    - rewrite Hp. apply names_filter, Hok.
    - intros n0 Hn0. destruct (proj1 (Hmem n0) Hn0) as (c & E & Hc). exists c. split_and!; [done| |done].
      apply (w_targets _ (k_wf _ Hok)). cbn. apply elem_of_values; [done|]. by rewrite (Hk _ _ E).
    - rewrite E. f_equal. apply map_eq. intros n0. rewrite HM', lookup_fmap. case_bool_decide as Hn0; [done|].
      destruct (M !! n0) as [c|] eqn:Ec; [|done]. cbn. unfold without, wants. rewrite bool_decide_false; [done|]. intros Hc. apply Hn0, Hmem. by exists c. }
  assert (Hl : length l = length names) by by rewrite Hp, length_fmap.
  destruct (zsum_map c_impressions l <=? n) eqn:Hsat; cbn [orb].
  - right. exists n, 0. apply Z.leb_le in Hsat. split_and!; [done|by left|]. by rewrite Hfold.
  - apply Z.leb_gt in Hsat. destruct (length names =? 1)%nat eqn:Hone; [right|by left]. apply Nat.eqb_eq in Hone. rewrite Hone in Hl.
    destruct l as [|c [|]] eqn:El; [done| |done]. rewrite zsum_map_cons, zsum_map_nil in *. exists n, (c_impressions c - Z.max 0 n).
    split_and!; [done|right; exists c; split_and!; [done|lia|done]|]. rewrite Z.add_0_r. by rewrite Hfold.
Qed.

Lemma reduce_targets_fold ts changed M T : keyed M -> ok (MkSystem (values M) T) -> NoDup ts.*1 -> Forall (target_of M) ts ->
  exists changed' M' T', res_foldl reduce_target (changed, M, T) ts = Ok (changed', M', T') /\ keyed M' /\
    shrinks (MkSystem (values M) T) (MkSystem (values M') T') /\ (changed' = true -> changed = true \/ weight (values M') < weight (values M)).
Proof.
  revert changed M T. induction ts as [|[t names] ts IH]; intros changed M T Hk Hok Hnd Hts.
  - exists changed, M, T. split_and!; [done|done|done|by left].
  - apply Forall_cons in Hts as [Htn Hts]. cbn in Hnd. apply NoDup_cons in Hnd as [Hnt Hnd]. cbn [res_foldl].
    destruct (reduce_target_step changed M T t names Hk Hok Htn) as [-> | (n & left & En & Hmay & ->)]; cbn [res_bind]; [by apply IH|].
    pose proof (leave_shrinks t n left (values M) T (proj1 Htn) En Hmay Hok) as Hs.
    rewrite <- values_fmap in Hs. pose proof (proj1 (Hs Hok)) as Hok'.
    destruct (IH true (without t left <$> M) (delete t T)) as (changed' & M' & T' & E & Hk' & Hs' & _).
    + by apply keyed_without.
    + done.
    + done.
    + apply Forall_forall. intros [t' names'] Hin. rewrite Forall_forall in Hts. apply target_of_without; [done| |by apply Hts].
      intros ->. apply Hnt. apply list_elem_of_fmap. by exists (t, names').
    + exists changed', M', T'. split_and!; [done|done|by etransitivity|]. intros _. right.
      destruct (Hs' Hok') as (_ & _ & Hw). cbn in Hw. rewrite values_fmap in Hw.
      pose proof (leave_lighter t n left (values M) T) as Hlt. destruct Htn as (_ & Hne & Hp).
      assert (Hl : List.filter (wants t) (values M) <> []) by (cbn in *; intros El; rewrite El in Hp; by apply Permutation_nil_r in Hp).
      specialize (Hlt Hmay Hok Hl). lia.
Qed.

Lemma names_by_target_of cs : NoDup (c_name <$> cs) -> (forall c, c ∈ cs -> NoDup (target_names c)) -> Forall (target_of (campaigns_by_name cs)) (items (names_by_target priority cs)).
Proof.
  intros Hn Hcs. apply Forall_forall. intros [t names] E%elem_of_items. unfold names_by_target in E.
  rewrite (append_all_lookup (fun t => bool_decide (t ∈ priority)) c_name) in E by done. cbn beta in E. rewrite lookup_empty in E.
  case_bool_decide as Ht; [done|]. change (fun c => bool_decide (t ∈ target_names c)) with (wants t) in E. split_and!; cbn; [done|..].
  - revert E. by destruct (List.filter (wants t) cs); [|intros [= <-]].
  - assert (Hf : List.filter (wants t) (values (campaigns_by_name cs)) ≡ₚ List.filter (wants t) cs) by (apply filter_bool_perm, values_by_name, Hn).
    rewrite Hf. revert E. by destruct (List.filter (wants t) cs); [|intros [= <-]].
Qed.

Lemma reduce_targets_good cs targets : ok (MkSystem cs (by_name targets)) -> good_pass cs (by_name targets) (reduce_targets priority cs targets).
Proof.
  intros Hok. pose proof (w_names _ (k_wf _ Hok)) as Hn. cbn in Hn. pose proof (values_by_name cs Hn) as Hv.
  assert (Hs0 : shrinks (MkSystem cs (by_name targets)) (MkSystem (values (campaigns_by_name cs)) (by_name targets))) by by apply shrinks_perm.
  pose proof (proj1 (Hs0 Hok)) as Hok0.
  destruct (reduce_targets_fold (items (names_by_target priority cs)) false (campaigns_by_name cs) (by_name targets)) as (changed & M & T & E & Hk & Hs & Hc).
  - apply campaigns_by_name_keyed.
  - done.
  - apply NoDup_items.
  - apply names_by_target_of; [done|]. apply Hok.
  - unfold reduce_targets. rewrite E. cbn [res_bind]. set (keep := fun c => 0 <? c_impressions c).
    exists changed, (List.filter keep (items M).*2), T. split; [done|].
    assert (Hok1 : ok (MkSystem (values M) T)) by apply (Hs Hok0).
    assert (Hp : values M ≡ₚ List.filter (fun c => negb (keep c)) (values M) ++ List.filter keep (items M).*2).
    { rewrite (filter_bool_perm keep (items M).*2 (values M)) by by rewrite items_perm. generalize (values M). intros l.
      induction l as [|c l IH]; [done|]. cbn. destruct (keep c); cbn; rewrite IH at 1; [by rewrite Permutation_middle|done]. }
    assert (Hs1 : shrinks (MkSystem (values M) T) (MkSystem (List.filter keep (items M).*2) T)).
    { etransitivity; [by apply shrinks_perm|]. apply shrinks_empty. intros c [Hkc Hc']%elem_of_filter_bool. apply negb_true_iff, Z.ltb_ge in Hkc.
      pose proof (w_impressions _ (k_wf _ Hok1) c Hc'). lia. }
    split; [by etransitivity; [|etransitivity]|]. intros Ht. destruct (Hc Ht) as [|Hw]; [done|]. pose proof (Hs1 Hok1) as (_ & _ & Hw1). cbn in Hw1.
    assert (Ew : weight (values (campaigns_by_name cs)) = weight cs) by (unfold weight; by rewrite Hv). lia.
Qed.

(** ** [simplify] *)

(** The rounds end, and leave a system that reduces the one there was. *)
Lemma simplify_shrinks rounds cs targets : ok (MkSystem cs (by_name targets)) -> weight cs < Z.of_nat rounds ->
  exists cs' cap', simplify rounds priority cs targets = Some (Ok (cs', items cap')) /\ shrinks (MkSystem cs (by_name targets)) (MkSystem cs' cap').
Proof.
  revert cs targets. induction rounds as [|rounds IH]; intros cs targets Hok Hw; [pose proof (weight_nonneg cs); lia|]. cbn [simplify].
  pose proof (combine_shrinks cs (by_name targets)) as S1. destruct (S1 Hok) as (Hok1 & _ & W1). cbn in W1. set (cs1 := (combine_campaigns cs).2) in *.
  destruct (reduce_campaigns_good cs1 targets Hok1) as (changed_2 & cs2 & cap2 & -> & S2 & C2). destruct (S2 Hok1) as (Hok2 & _ & W2). cbn in W2.
  assert (Hok2' : ok (MkSystem cs2 (by_name (items cap2)))) by by rewrite by_name_items.
  destruct (reduce_targets_good cs2 (items cap2) Hok2') as (changed_3 & cs3 & cap3 & -> & S3 & C3). rewrite by_name_items in S3.
  destruct (S3 Hok2) as (Hok3 & _ & W3). cbn in W3.
  assert (S : shrinks (MkSystem cs (by_name targets)) (MkSystem cs3 cap3)) by by etransitivity; [|etransitivity].
  destruct (changed_2 || changed_3) eqn:Hc; [|by exists cs3, cap3].
  destruct (IH cs3 (items cap3)) as (cs' & cap' & E & S').
  - by rewrite by_name_items.
  - apply orb_true_iff in Hc as [Hc | Hc]; [specialize (C2 Hc)|specialize (C3 Hc)]; lia.
  - rewrite by_name_items in S'. exists cs', cap'. split; [done|by etransitivity].
Qed.
End passes.
End InventoryPasses.
