(* ===== verification/InventoryProps.v ===== *)
(** * Inventory: the estimate is safe

    The levels end, the greedy allocation serves a part of every campaign, and
    what the estimate says is free stays free when all campaigns are served. *)

From S2P Require Import Prelude PyString Inventory Allocation Reductions InventoryPasses.
From Stdlib Require Import Ascii.

Module InventoryProps.
Import PyString Inventory Allocation Reductions InventoryNames InventoryPasses.

(** A loop that goes on from what is kept. *)
Lemma res_foldl_keeps {A B} (f : B -> A -> res B) (P : B -> Prop) l b :
  (forall b a, a ∈ l -> P b -> exists b', f b a = Ok b' /\ P b') -> P b -> exists b', res_foldl f b l = Ok b' /\ P b'.
Proof.
  revert b. induction l as [|a l IH]; intros b Hf Hb; [by exists b|]. destruct (Hf b a ltac:(by left) Hb) as (b' & E & Hb').
  cbn. rewrite E. cbn. apply IH; [|done]. intros b0 a0 Ha0. apply Hf. by right.
Qed.

Lemma size_list_to_set_le (l : list string) : (size (list_to_set l : gset string) <= length l)%nat.
Proof.
  induction l as [|x l IH]; [done|]. cbn [list_to_set length]. destruct (decide (x ∈ (list_to_set l : gset string))) as [Hx | Hx].
  - rewrite subseteq_union_1_L by set_solver. lia.
  - rewrite size_union, size_singleton by set_solver. lia.
Qed.

Section estimate.
Context `{HO : HashOrder} `{!HashOrderLaws} (priority : list string) (cs : list campaign) (cap : gmap string Z).
Context (Hok : ok priority (MkSystem cs cap)).

Notation p := (MkSystem cs cap).

Lemma k_nodup c : c ∈ cs -> NoDup (target_names c).
Proof. apply Hok. Qed.

Lemma k_known c t : c ∈ cs -> t ∈ target_names c -> is_Some (cap !! t).
Proof. apply (w_known _ (k_wf _ _ Hok) c t). Qed.

Lemma campaigns_of_cs names c : c ∈ campaigns_of (campaigns_by_target cs) names -> c ∈ cs.
Proof.
  intros (t & Hc & _)%list_elem_of_bind. unfold campaigns_by_target in Hc. rewrite (append_all_lookup (fun _ => false) (fun c => c)) in Hc by exact k_nodup.
  rewrite lookup_empty in Hc. destruct (List.filter _ cs) as [|c0 l] eqn:El; [by apply elem_of_nil in Hc|]. cbn in Hc. rewrite list_fmap_id in Hc.
  assert (Hin : c ∈ c0 :: l) by done. rewrite <- El in Hin. by apply elem_of_filter_bool in Hin as [_ ?].
Qed.

(** ** Levels *)

Lemma dom_levels (level : Z) names (known : gmap string Z) : dom (foldl (fun k t => <[t := level]> k) known names) = dom known ∪ list_to_set names.
Proof. revert known. induction names as [|t names IH]; intros known; cbn; [set_solver|]. rewrite IH, dom_insert_L. set_solver. Qed.

Lemma levels_end rounds level known next (U : gset string) : next ⊆ U ∖ dom known -> (forall c t, c ∈ cs -> t ∈ target_names c -> t ∈ U) ->
  (size (U ∖ dom known) <= rounds)%nat -> exists r, levels rounds (campaigns_by_target cs) level known next = Some r.
Proof.
  revert level known next. induction rounds as [|rounds IH]; intros level known next Hnext HU Hsize; cbn [levels]; (case_bool_decide as Hempty; [by eexists|]).
  - apply set_choose_L in Hempty as [t Ht]. apply Hnext in Ht. assert (Hz : size (U ∖ dom known) = 0%nat) by lia. apply size_empty_inv in Hz. set_solver.
  - set (known' := foldl _ known _). assert (Hdom : dom known' = dom known ∪ next).
    { unfold known'. rewrite dom_levels. apply set_eq. intros t. rewrite !elem_of_union, elem_of_list_to_set, dict_order_perm, elem_of_elements. done. }
    apply IH; [|done|].
    + intros t Ht. apply elem_of_list_to_set, elem_of_filter_bool in Ht as [Hk Ht]. apply bool_decide_eq_true in Hk. apply list_elem_of_bind in Ht as (c & Ht & Hc).
      apply elem_of_difference. split; [apply (HU c); [by eapply campaigns_of_cs|done]|]. by apply not_elem_of_dom.
    + apply set_choose_L in Hempty as [t Ht]. assert (Hlt : (size (U ∖ dom known') < size (U ∖ dom known))%nat); [|lia].
      apply subset_size. rewrite Hdom. set_solver.
Qed.

Lemma all_levels_known level (known : gmap string Z) ts t : (exists n, (t, n) ∈ ts) \/ is_Some (known !! t) -> is_Some (all_levels level known ts !! t).
Proof.
  revert known. induction ts as [|[t' n'] ts IH]; intros known; cbn; [intros [[n ?%elem_of_nil] | ?]; done|]. intros Ht. apply IH.
  destruct (decide (t = t')) as [-> | Hne].
  - right. destruct (known !! t') eqn:E; [by rewrite E|by rewrite lookup_insert_eq].
  - destruct Ht as [[n [[= -> ->] | Hin]%elem_of_cons] | Hk]; [done|left; by exists n|right]. destruct (known !! t'); [done|by rewrite lookup_insert_ne].
Qed.

(** ** What is assigned *)

(** The state of the estimate is that of an allocation of a part. *)
Record tracks (x : allocation) (s : state) : Prop := Tracks {
  r_partial : partial p x;
  r_unassigned c : c ∈ cs -> unassigned s !! c_name c = Some (c_impressions c - given x c);
  r_left t n : cap !! t = Some n -> left_in s !! t = Some (n - used cs x t)
}.

Lemma tracks_start : tracks (fun _ _ => 0) (start cs (items cap)).
Proof.
  assert (Hz : forall {A} (l : list A), zsum_map (fun _ => 0) l = 0) by (intros; by apply zsum_map_zero).
  split; [split|..]; cbn.
  - done.
  - done.
  - intros c Hc. rewrite Hz. by apply Hok.
  - intros t n _. unfold used. rewrite Hz. lia.
  - intros c Hc. unfold given. rewrite Hz. rewrite (foldl_insert c_name c_impressions).
    rewrite Z.sub_0_r. apply elem_of_list_to_map.
    + rewrite fmap_reverse, reverse_Permutation, <- list_fmap_compose. apply Hok.
    + rewrite elem_of_reverse. apply list_elem_of_fmap. by exists c.
  - intros t n E. rewrite by_name_items. unfold used. rewrite Hz, E. f_equal. lia.
Qed.

Lemma assign_one_tracks c t x s : c ∈ cs -> t ∈ target_names c -> tracks x s -> exists s', assign_one c s t = Ok s' /\ exists x', tracks x' s'.
Proof.
  intros Hc Ht [[X1 X2 X3 X4] Hu Hl]. cbn in *. unfold assign_one. rewrite (Hu c Hc). cbn [of_option res_bind]. set (u := c_impressions c - given x c).
  destruct (0 <? u) eqn:Hpos; [|exists s; split; [done|]; exists x; by split]. apply Z.ltb_lt in Hpos. destruct (k_known c t Hc Ht) as [n En]. rewrite (Hl t n En). cbn.
  set (k := Z.min u (Z.max 0 (n - used cs x t))). assert (Hk : 0 <= k <= u) by lia. eexists. split; [done|]. exists (bump (c_name c) t k x).
  assert (W1 : NoDup (c_name <$> cs)) by apply Hok.
  assert (Hgiven : forall c', c' ∈ cs -> given (bump (c_name c) t k x) c' = given x c' + (if bool_decide (c' = c) then k else 0)).
  { intros c' Hc'. unfold given. rewrite bump_row by by apply k_nodup. destruct (decide (c' = c)) as [-> | Hne]; [by rewrite !bool_decide_true|].
    rewrite !(bool_decide_false (_ = _)); [done|done|]. intros E. by apply (name_inj _ _ _ W1 Hc' Hc) in E. }
  split; [split|..]; cbn.
  - intros n' t'. unfold bump. specialize (X1 n' t'). repeat case_bool_decide; lia.
  - intros c' t' Hc' Ht'. unfold bump. rewrite X2 by done. destruct (decide (c_name c' = c_name c)) as [E|]; [|by rewrite bool_decide_false].
    apply (name_inj _ _ _ W1 Hc' Hc) in E as ->. rewrite (bool_decide_false (t' = t)) by congruence. by destruct (bool_decide _).
  - intros c' Hc'. fold (given (bump (c_name c) t k x) c'). rewrite Hgiven by done. specialize (X3 c' Hc'). fold (given x c') in X3. case_bool_decide; subst; lia.
  - intros t' n' En'. rewrite used_bump by done. specialize (X4 t' n' En'). case_bool_decide; [subst t'; simplify_eq|]; lia.
  - intros c' Hc'. rewrite Hgiven by done. destruct (decide (c' = c)) as [-> | Hne].
    + rewrite lookup_insert_eq, bool_decide_true by done. f_equal. lia.
    + rewrite lookup_insert_ne, bool_decide_false, Hu by (try done; intros E; by apply (name_inj _ _ _ W1 Hc Hc') in E). f_equal. lia.
  - intros t' n' En'. rewrite used_bump by done. destruct (decide (t' = t)) as [-> | Hne].
    + rewrite lookup_insert_eq, bool_decide_true by done. simplify_eq. f_equal. lia.
    + rewrite lookup_insert_ne, bool_decide_false, (Hl t' n') by done. f_equal. lia.
Qed.

Definition tracked (s : state) : Prop := exists x, tracks x s.

Lemma assign_campaign_tracks names c s : c ∈ cs -> tracked s -> exists s', assign_campaign names s c = Ok s' /\ tracked s'.
Proof.
  intros Hc. apply res_foldl_keeps. intros s0 t [Ht _]%elem_of_filter_bool [x Hx]. apply bool_decide_eq_true in Ht. by apply (assign_one_tracks c t x).
Qed.

Context (known : gmap string Z) (Hknown : forall c t, c ∈ cs -> t ∈ target_names c -> is_Some (known !! t)).

Lemma sort_val_ok level c : c ∈ cs -> exists v, sort_val known level c = Ok v.
Proof.
  intros Hc. unfold sort_val. rewrite (res_mapM_fmap _ (fun t => default 0 (known !! t))); [by eexists|].
  intros t Ht. by destruct (Hknown c t Hc Ht) as [l ->].
Qed.

Lemma keyed_ok level l : (forall c, c ∈ l -> c ∈ cs) ->
  exists vs, res_mapM (fun c => let* v := sort_val known level c in Ok (v, c)) l = Ok vs /\ vs.*2 = l.
Proof.
  induction l as [|c l IH]; intros Hl; [by exists []|]. destruct (sort_val_ok level c) as [v E]; [apply Hl; by left|].
  destruct IH as (vs & E' & Evs); [intros; apply Hl; by right|]. exists ((v, c) :: vs). cbn. rewrite E. cbn. rewrite E'. cbn. by rewrite Evs.
Qed.

Lemma assign_level_tracks ln s : tracked s -> exists s', assign_level (campaigns_by_target cs) known s ln = Ok s' /\ tracked s'.
Proof.
  destruct ln as [level names]. intros Hs. unfold assign_level.
  destruct (keyed_ok level (campaigns_of (campaigns_by_target cs) names)) as (vs & -> & Evs); [intros; by eapply campaigns_of_cs|]. cbn [res_bind].
  apply res_foldl_keeps; [|done]. intros s0 c Hc. rewrite isort_perm, Evs in Hc. apply assign_campaign_tracks. by eapply campaigns_of_cs.
Qed.

(** ** What is oversold *)

Lemma nearest_member c : c ∈ cs -> target_names c <> [] -> exists t, nearest known (target_names c) = Ok t /\ t ∈ target_names c.
Proof.
  intros Hc Hne. unfold nearest. set (g := fun t => (default 0 (known !! t), t)). rewrite (res_mapM_fmap _ g).
  2: { intros t Ht. by destruct (Hknown c t Hc Ht) as [l E]; unfold g; rewrite E. }
  cbn [res_bind]. destruct (target_names c) as [|t ts]; [done|]. cbn [fmap list_fmap]. eexists. split; [done|].
  assert (Hin : forall b, foldl (fun b y : Z * string => if y.1 <? b.1 then y else b) b (g <$> ts) ∈ b :: (g <$> ts)).
  { generalize (g <$> ts). clear. intros l. induction l as [|y l IH]; intros b; cbn; [by left|]. destruct (y.1 <? b.1); [specialize (IH y)|specialize (IH b)]; rewrite !elem_of_cons in *; tauto. }
  specialize (Hin (g t)). change (g t :: (g <$> ts)) with (g <$> t :: ts) in Hin. apply list_elem_of_fmap in Hin as (t' & -> & ?). done.
Qed.

(** The part of a campaign it could not get. *)
Definition missing (x : allocation) (c : campaign) : Z := c_impressions c - given x c.

Lemma oversold_fold x s penalty l : NoDup (c_name <$> l) -> (forall c, c ∈ l -> c ∈ cs) ->
  (forall c, c ∈ l -> 0 <= missing x c /\ unassigned s !! c_name c = Some (missing x c)) -> (forall t, is_Some (cap !! t) -> is_Some (left_in s !! t)) ->
  exists s' penalty', res_foldl (oversold known) (s, penalty) l = Ok (s', penalty') /\
    ((forall c, c ∈ l -> target_names c = [] -> missing x c = 0) -> penalty' = penalty + zsum_map (missing x) l) /\
    forall t n, left_in s !! t = Some n -> exists n', left_in s' !! t = Some n' /\ n' <= n.
Proof.
  revert s penalty. induction l as [|c l IH]; intros s penalty Hn Hl Hu Hleft.
  - exists s, penalty. rewrite zsum_map_nil. split_and!; [done|lia|]. intros t n E. exists n. split; [done|lia].
  - cbn in Hn. apply NoDup_cons in Hn as [Hc Hn]. destruct (Hu c ltac:(by left)) as [Hpos Euc]. cbn [res_foldl]. unfold oversold at 1. rewrite Euc. cbn [of_option res_bind].
    rewrite zsum_map_cons. assert (Hskip : missing x c <= 0 \/ target_names c = [] -> exists s' penalty', res_foldl (oversold known) (s, penalty) l = Ok (s', penalty') /\
      ((forall c', c' ∈ c :: l -> target_names c' = [] -> missing x c' = 0) -> penalty' = penalty + (missing x c + zsum_map (missing x) l)) /\
      forall t n, left_in s !! t = Some n -> exists n', left_in s' !! t = Some n' /\ n' <= n).
    { intros Hz. destruct (IH s penalty) as (s' & penalty' & E & Hp & Hs'); [done|intros; apply Hl; by right|intros; apply Hu; by right|done|].
      exists s', penalty'. split_and!; [done| |done]. intros He. rewrite Hp by (intros; apply He; [by right|done]).
      assert (missing x c = 0) by (destruct Hz as [Hz | Hz]; [lia|apply He; [by left|done]]). lia. }
    destruct (0 <? missing x c) eqn:Hm; [|apply Z.ltb_ge in Hm; cbn [res_bind]; apply Hskip; by left].
    destruct (target_names c) as [|t0 ts] eqn:Et; [cbn [res_bind]; apply Hskip; by right|]. rewrite <- Et. clear Hskip.
    destruct (nearest_member c) as (t & -> & Ht); [apply Hl; by left|by rewrite Et|]. cbn [res_bind].
    destruct (Hleft t) as [n En]; [apply (k_known c); [apply Hl; by left|done]|]. rewrite En. cbn [of_option res_bind].
    set (s1 := State _ _). destruct (IH s1 (penalty + missing x c)) as (s' & penalty' & E & Hp & Hs').
    * done.
    * intros. apply Hl. by right.
    * intros c' Hc'. cbn. rewrite lookup_insert_ne; [apply Hu; by right|]. intros E. apply Hc. rewrite E. by apply list_elem_of_fmap_2.
    * intros t' Ht'. cbn. destruct (decide (t' = t)) as [-> |]; [by rewrite lookup_insert_eq|]. rewrite lookup_insert_ne by done. by apply Hleft.
    * exists s', penalty'. rewrite E, Z.add_assoc. split_and!; [done|intros He; apply Hp; intros; apply He; [by right|done]|]. intros t' n' E'.
      destruct (decide (t' = t)) as [-> |].
      -- destruct (Hs' t (n - missing x c)) as (n2 & ? & ?); [cbn; by rewrite lookup_insert_eq|]. exists n2. simplify_eq. apply Z.ltb_lt in Hm. split; [done|lia].
      -- apply Hs'. cbn. by rewrite lookup_insert_ne.
Qed.
End estimate.

(** ** The estimate of a system *)

Section safe.
Context `{HO : HashOrder} `{!HashOrderLaws} (priority : list string) (Hnd : NoDup priority).

(** Rounds that are enough. *)
Definition enough (cs : list campaign) : Z := Z.of_nat (length priority) + weight cs.

Lemma weight_targets cs : Z.of_nat (length (c ← cs; target_names c)) <= weight cs.
Proof. unfold weight. induction cs as [|c cs IH]; [done|]. rewrite bind_cons, length_app, zsum_map_cons. lia. Qed.

Lemma levels_ok cs cap rounds : ok priority (MkSystem cs cap) -> enough cs <= Z.of_nat rounds ->
  exists r, levels rounds (campaigns_by_target cs) 0 ∅ (list_to_set priority) = Some r.
Proof.
  intros Hok Hr. apply (levels_end priority cs cap Hok) with (U := list_to_set (priority ++ (c ← cs; target_names c))).
  - rewrite dom_empty_L, difference_empty_L, list_to_set_app_L. apply union_subseteq_l.
  - intros c t Hc Ht. apply elem_of_list_to_set, elem_of_app. right. apply list_elem_of_bind. by exists c.
  - rewrite dom_empty_L, difference_empty_L. pose proof (size_list_to_set_le (priority ++ (c ← cs; target_names c))) as Hs. rewrite length_app in Hs.
    pose proof (weight_targets cs). unfold enough in Hr.
    etransitivity; [exact Hs|]. lia.
Qed.

(** There is an estimate; what is estimated is free in an allocation that serves
    all campaigns, when there is one. *)
Lemma get_free_impressions_safe cs cap rounds : ok priority (MkSystem cs cap) -> enough cs <= Z.of_nat rounds ->
  exists n, get_free_impressions rounds priority cs (items cap) = Some (Ok n) /\
    (feasible (MkSystem cs cap) -> exists z, serves (MkSystem cs cap) z /\ n <= free (MkSystem cs cap) priority z).
Proof.
  intros Hok Hr. unfold get_free_impressions. destruct (levels_ok cs cap rounds Hok Hr) as [[level known0] ->].
  set (known := all_levels level known0 (items cap)). set (by_level := isort _ _).
  assert (Hknown : forall c t, c ∈ cs -> t ∈ target_names c -> is_Some (known !! t)).
  { intros c t Hc Ht. apply all_levels_known. left. destruct (k_known priority cs cap Hok c t Hc Ht) as [n En]. exists n. by apply elem_of_items. }
  destruct (res_foldl_keeps (assign_level (campaigns_by_target cs) known) (tracked cs cap) by_level (start cs (items cap))) as (s & -> & x & Hx).
  { intros s ln _. by apply (assign_level_tracks priority cs cap Hok known Hknown). }
  { exists (fun _ _ => 0). by apply (tracks_start priority). }
  cbn [res_bind]. destruct Hx as [Hx Hu Hl].
  destruct (oversold_fold priority cs cap Hok known Hknown x s 0 cs) as (s' & penalty & -> & Hpen & Hs').
  - apply Hok.
  - done.
  - intros c Hc. split; [|by apply Hu]. pose proof (a_part _ _ Hx c Hc) as Hp. unfold missing, given. lia.
  - intros t [n En]. by rewrite (Hl t n En).
  - cbn [res_bind]. set (g := fun t => default 0 (left_in s' !! t)).
    assert (Hg : forall t, t ∈ priority -> left_in s' !! t = Some (g t) /\ g t <= default 0 (cap !! t) - used cs x t).
    { intros t Ht. destruct (k_priority _ _ Hok t Ht) as [n En]. destruct (Hs' t _ (Hl t n En)) as (n' & E & Hle). unfold g. cbn in En. by rewrite E, En. }
    rewrite (res_mapM_fmap _ g) by (intros t Ht; destruct (Hg t Ht) as [Eg _]; cbn; by rewrite Eg). cbn [res_bind]. eexists. split; [done|]. intros Hf.
    rewrite Hpen.
    2: { intros c Hc Et. destruct Hf as [y Hy]. pose proof (v_all _ _ Hy c Hc) as E. unfold missing, given. rewrite Et, zsum_map_nil in *. lia. }
    destruct (complete_free (MkSystem cs cap) (k_wf _ _ Hok) priority x Hx Hf Hnd) as (z & Hz & Hle); [intros; by apply (k_priority _ _ Hok)|].
    exists z. split; [done|]. etransitivity; [|exact Hle]. cbn.
    assert (Hsum : zsum (g <$> priority) <= free (MkSystem cs cap) priority x) by (apply (zsum_map_le g); intros t Ht; by apply Hg).
    unfold missing. lia.
Qed.

(** The estimate of what the code is given. *)
Lemma free_impressions_safe cs targets rounds : ok priority (MkSystem cs (by_name targets)) -> enough cs < Z.of_nat rounds ->
  exists n, free_impressions rounds priority cs targets = Some (Ok n) /\
    (feasible (MkSystem cs (by_name targets)) -> exists z, serves (MkSystem cs (by_name targets)) z /\ n <= free (MkSystem cs (by_name targets)) priority z).
Proof.
  intros Hok Hr. unfold enough in Hr. unfold free_impressions. destruct (simplify_shrinks priority rounds cs targets Hok) as (cs' & cap' & -> & S); [lia|].
  destruct (S Hok) as (Hok' & Hred & Hw). cbn in Hw.
  destruct (get_free_impressions_safe cs' cap' rounds Hok') as (n & -> & Hn); [unfold enough; lia|]. exists n. split; [done|]. intros Hf.
  destruct (Hred Hf) as [Hf' Hlift]. destruct (Hn Hf') as (z & Hz & Hle). destruct (Hlift z Hz) as (z' & Hz' & Hle'). exists z'. split; [done|lia].
Qed.
End safe.

(** ** What is booked *)

(** Names of subreddits. *)
Definition word (w : string) : bool := negb (contains ","%char w) && negb (contains " "%char w) && negb (String.eqb w "").

(** Bookings, by the subreddits they are for, and the pageviews of subreddits,
    as the callers have them. *)
Record bookable (priority : list string) (booked : gmap (list string) Z) (pageviews : gmap string Z) : Prop := Bookable {
  b_names k n : booked !! k = Some n -> k <> [] /\ NoDup k /\ 0 <= n;
  b_words k n w : booked !! k = Some n -> w ∈ k -> word w = true /\ is_Some (pageviews !! w);
  b_priority t : t ∈ priority -> is_Some (pageviews !! t);
  b_once : NoDup priority
}.

Lemma join_comma_space w l : py_join ", " (w :: l) = py_join "," (w :: (String " " <$> l)).
Proof. revert w. induction l as [|w' l IH]; intros w; [done|]. rewrite py_join_cons, IH. cbn [fmap list_fmap]. rewrite py_join_cons. by destruct l. Qed.

Lemma join_words_inj k k' : Forall (fun w => word w = true) k -> Forall (fun w => word w = true) k' -> k <> [] -> k' <> [] ->
  py_join ", " k = py_join ", " k' -> k = k'.
Proof.
  intros Hk Hk' Hne Hne' E. destruct k as [|w l], k' as [|w' l']; [done..|]. rewrite !join_comma_space in E.
  assert (Hc : forall w l, Forall (fun w => word w = true) (w :: l) -> Forall (fun w => contains ","%char w = false) (w :: (String " " <$> l))).
  { clear. intros w l [Hw Hl]%Forall_cons. assert (Hx : forall w, word w = true -> contains ","%char w = false) by (intros w0 [[?%negb_true_iff _]%andb_true_iff _]%andb_true_iff; done).
    constructor; [by apply Hx|]. apply Forall_fmap. eapply Forall_impl; [exact Hl|]. intros w0 Hw0. cbn. by apply Hx. }
  apply (f_equal (py_split ","%char)) in E. rewrite !py_split_join in E by (first [done | by apply Hc]). injection E as -> E. f_equal.
  clear -E. revert l' E. induction l as [|w l IH]; intros [|w' l'] E; [done..|]. cbn in E. injection E as -> E. f_equal. by apply IH.
Qed.

Lemma commas_spaced_app w s : contains ","%char w = false -> commas_spaced (w +:+ s) = commas_spaced s.
Proof. induction w as [|a w IH]; [done|]. cbn [contains]. intros [Ha Hw]%orb_false_iff. rewrite string_app_cons. cbn. by rewrite Ha, IH. Qed.

Lemma plain_join k : k <> [] -> Forall (fun w => word w = true) k -> plain (py_join ", " k) = true.
Proof.
  assert (Hx : forall w, word w = true -> contains ","%char w = false /\ contains " "%char w = false /\ w <> "").
  { intros w [[?%negb_true_iff ?%negb_true_iff]%andb_true_iff Hne]%andb_true_iff. split_and!; [done|done|]. intros ->. done. }
  assert (Hc : forall k, Forall (fun w => word w = true) k -> commas_spaced (py_join ", " k) = true).
  { clear k. intros k Hk. induction Hk as [|w l Hw Hl IH]; [done|]. destruct l as [|w' l].
    - cbn. rewrite <- (string_app_nil_r w). rewrite commas_spaced_app by by apply Hx. done.
    - rewrite py_join_cons, commas_spaced_app by by apply Hx. exact IH. }
  intros Hne Hk. unfold plain. rewrite Hc by done. destruct k as [|w l]; [done|]. apply Forall_cons in Hk as [Hw _]. destruct (Hx w Hw) as (_ & Hs & Hn).
  destruct w as [|a w]; [done|]. cbn [contains] in Hs. apply orb_false_iff in Hs as [Ha _]. destruct l; apply negb_true_iff, Ha.
Qed.

Section booked.
Context `{HO : HashOrder} `{!HashOrderLaws}.

(** The system [get_maximized_pageviews] makes of bookings. *)
Definition booked_campaigns (booked : gmap (list string) Z) : list campaign :=
  (fun kn => SimpleCampaign (py_join ", " kn.1) kn.1 kn.2) <$> items booked.

Definition booked_system (booked : gmap (list string) Z) (pageviews : gmap string Z) : system := MkSystem (booked_campaigns booked) pageviews.

Lemma booked_names priority booked pageviews : bookable priority booked pageviews -> NoDup (c_name <$> booked_campaigns booked).
Proof.
  intros [B1 B2 _ _]. unfold booked_campaigns. rewrite <- list_fmap_compose.
  assert (Hall : forall k n, (k, n) ∈ items booked -> k <> [] /\ Forall (fun w => word w = true) k).
  { intros k n E%elem_of_items. split; [by apply (B1 k n)|]. apply Forall_forall. intros w Hw. by apply (B2 k n). }
  pose proof (NoDup_items booked) as Hnd. induction (items booked) as [|[k n] l IH]; [constructor|]. cbn in *. apply NoDup_cons in Hnd as [Hk Hnd].
  constructor; [|apply IH; [intros; by eapply Hall; right|done]]. intros ([k' n'] & E & Hin)%list_elem_of_fmap. cbn in E. apply Hk.
  destruct (Hall k n ltac:(by left)) as [Hne Hw]. destruct (Hall k' n' ltac:(by right)) as [Hne' Hw']. rewrite (join_words_inj k k' Hw Hw' Hne Hne' E).
  apply list_elem_of_fmap. by exists (k', n').
Qed.

Lemma booked_ok priority booked pageviews : bookable priority booked pageviews -> ok priority (booked_system booked pageviews).
Proof.
  intros HB. pose proof (booked_names _ _ _ HB) as Hnames. destruct HB as [B1 B2 B3 _].
  assert (Hin : forall c, c ∈ booked_campaigns booked -> exists k n, c = SimpleCampaign (py_join ", " k) k n /\ booked !! k = Some n).
  { intros c ([k n] & -> & E%elem_of_items)%list_elem_of_fmap. by exists k, n. }
  split; cbn; [|exists (fun n => [n])|done].
  - split; cbn; [done|..].
    + intros c (k & n & -> & E)%Hin. by apply (B1 k n).
    + intros c t (k & n & -> & E)%Hin Ht. by apply (B2 k n).
    + intros c (k & n & -> & E)%Hin. by apply (B1 k n).
  - split.
    + done.
    + done.
    + intros c (k & n & -> & E)%Hin. constructor; [|constructor]. apply plain_join; [by apply (B1 k n)|]. apply Forall_forall. intros w Hw. by apply (B2 k n).
    + assert (E : (c ← booked_campaigns booked; [c_name c]) = c_name <$> booked_campaigns booked); [|by rewrite E].
      generalize (booked_campaigns booked). intros l. induction l as [|c l IH]; [done|]. cbn. by rewrite IH.
Qed.

(** Rounds that are enough for the bookings there are. *)
Definition enough_rounds (priority : list string) (booked : gmap (list string) Z) : Z := enough priority (booked_campaigns booked).

(** C38. For any bookings of subreddits that have their pageviews counted, even
    for more than there is, the estimate ends, in a number of rounds of its
    loops bounded by the sizes of what it is given, and with a number: no name
    is missing in any of its dictionaries. *)
Theorem estimate_total priority booked pageviews rounds : bookable priority booked pageviews -> enough_rounds priority booked < Z.of_nat rounds ->
  exists n, get_maximized_pageviews rounds priority booked pageviews = Some (Ok n).
Proof.
  intros HB Hr. pose proof (booked_ok _ _ _ HB) as Hok. unfold booked_system in Hok. rewrite <- (by_name_items pageviews) in Hok.
  destruct (free_impressions_safe priority (b_once _ _ _ HB) _ (items pageviews) rounds Hok Hr) as (n & E & _). by exists n.
Qed.

(** C35. The estimate of what is left to sell is safe: when the subreddits can
    serve all bookings at all, they can serve them with at least as many
    pageviews left free in the subreddits asked about as the estimate says,
    whatever the order of dictionaries, and although the passes merge and drop
    campaigns and targets and the allocation is greedy. *)
Theorem estimate_safe priority booked pageviews rounds : bookable priority booked pageviews -> enough_rounds priority booked < Z.of_nat rounds ->
  feasible (booked_system booked pageviews) ->
  exists n x, get_maximized_pageviews rounds priority booked pageviews = Some (Ok n) /\ serves (booked_system booked pageviews) x /\
    n <= free (booked_system booked pageviews) priority x.
Proof.
  intros HB Hr Hf. pose proof (booked_ok _ _ _ HB) as Hok. unfold booked_system in *. rewrite <- (by_name_items pageviews) in Hok.
  destruct (free_impressions_safe priority (b_once _ _ _ HB) _ (items pageviews) rounds Hok Hr) as (n & E & Hn). rewrite by_name_items in Hn.
  destruct (Hn Hf) as (x & Hx & Hle). by exists n, x.
Qed.
End booked.
End InventoryProps.
