(* ===== verification/InventoryExamples.v ===== *)
(** * Inventory: examples

    The tests of lib/inventory_optimization.py, and the theorems on the third
    of them, which the greedy allocation does not solve. *)

From S2P Require Import Prelude PyString Inventory Allocation Reductions InventoryPasses InventoryProps.

Module InventoryExamples.
Import PyString Inventory Allocation InventoryProps.

#[local] Instance as_given : HashOrder := fun A l => l.

#[local] Instance as_given_laws : HashOrderLaws.
Proof. intros A l. reflexivity. Qed.

(** The tests of the file. *)
Definition games : list (string * Z) := [("leagueoflegends", 50000); ("dota2", 50000); ("hearthstone", 50000); ("games", 50000)].
Definition bookings : list campaign := [
  SimpleCampaign "c1" ["leagueoflegends"] 20000; SimpleCampaign "c2" ["dota2"] 40000; SimpleCampaign "c3" ["games"] 40000;
  SimpleCampaign "c4" ["hearthstone"] 40000; SimpleCampaign "c5" ["leagueoflegends"; "dota2"; "hearthstone"; "games"] 20000].

Example first_test : free_impressions 20 ["leagueoflegends"] bookings games = Some (Ok 30000).
Proof. by vm_compute. Qed.

Example second_test : free_impressions 20 ["leagueoflegends"; "dota2"; "hearthstone"; "games"] bookings games = Some (Ok 40000).
Proof. by vm_compute. Qed.

Definition branching : list campaign := [
  SimpleCampaign "c1" ["leagueoflegends"; "dota2"] 25000; SimpleCampaign "c2" ["hearthstone"; "games"] 25000;
  SimpleCampaign "c3" ["dota2"; "smashbros"] 50000; SimpleCampaign "c4" ["games"; "smashbros"] 50000].

Example third_test : free_impressions 20 ["leagueoflegends"; "hearthstone"] branching
  [("leagueoflegends", 25000); ("dota2", 25000); ("hearthstone", 25000); ("games", 25000); ("smashbros", 50000)] = Some (Ok 0).
Proof. by vm_compute. Qed.

(** ** Checks *)

Definition can_book (priority : list string) (booked : gmap (list string) Z) (pageviews : gmap string Z) : bool :=
  bool_decide (map_Forall (fun k n => k <> [] /\ NoDup k /\ 0 <= n /\ Forall (fun w => word w = true /\ is_Some (pageviews !! w)) k) booked) &&
  bool_decide (Forall (fun t => is_Some (pageviews !! t)) priority) && bool_decide (NoDup priority).

Lemma can_book_sound priority booked pageviews : can_book priority booked pageviews = true -> bookable priority booked pageviews.
Proof.
  intros [[Hb%bool_decide_eq_true Hp%bool_decide_eq_true]%andb_true_iff Hn%bool_decide_eq_true]%andb_true_iff. rewrite Forall_forall in Hp. split; [..|exact Hp|exact Hn].
  - intros k n E. destruct (Hb k n E) as (? & ? & ? & _). done.
  - intros k n w E Hw. destruct (Hb k n E) as (_ & _ & _ & Hk). rewrite Forall_forall in Hk. by apply Hk.
Qed.

(** Allocations as tables. *)
Definition of_table (m : gmap (string * string) Z) (n t : string) : Z := default 0 (m !! (n, t)).

Definition serves_by (p : system) (m : gmap (string * string) Z) : bool :=
  bool_decide (map_Forall (fun nt v => 0 <= v /\ Forall (fun c => c_name c = nt.1 -> nt.2 ∈ target_names c) (campaigns p)) m) &&
  bool_decide (Forall (fun c => zsum_map (of_table m (c_name c)) (target_names c) = c_impressions c) (campaigns p)) &&
  bool_decide (map_Forall (fun t n => used (campaigns p) (of_table m) t <= n) (capacity p)).

Lemma serves_by_sound p m : serves_by p m = true -> feasible p.
Proof.
  intros [[Hm%bool_decide_eq_true Hs%bool_decide_eq_true]%andb_true_iff Hu%bool_decide_eq_true]%andb_true_iff. rewrite Forall_forall in Hs. exists (of_table m).
  split; [| |exact Hs|exact Hu].
  - intros n t. unfold of_table. destruct (m !! (n, t)) as [v|] eqn:E; [|done]. by destruct (Hm _ _ E).
  - intros c t Hc Ht. unfold of_table. destruct (m !! (c_name c, t)) as [v|] eqn:E; [|done]. destruct (Hm _ _ E) as [_ Hf]. rewrite Forall_forall in Hf. by destruct (Ht (Hf c Hc eq_refl)).
Qed.

(** ** The third test, as bookings *)

Definition booked : gmap (list string) Z := {[ ["leagueoflegends"; "dota2"] := 25000; ["hearthstone"; "games"] := 25000; ["dota2"; "smashbros"] := 50000; ["games"; "smashbros"] := 50000 ]}.
Definition pageviews : gmap string Z := {[ "leagueoflegends" := 25000; "dota2" := 25000; "hearthstone" := 25000; "games" := 25000; "smashbros" := 50000 ]}.
Definition optimal : gmap (string * string) Z := {[
  ("games, smashbros", "smashbros") := 25000; ("games, smashbros", "games") := 25000;
  ("dota2, smashbros", "smashbros") := 25000; ("dota2, smashbros", "dota2") := 25000;
  ("hearthstone, games", "hearthstone") := 25000; ("leagueoflegends, dota2", "leagueoflegends") := 25000 ]}.

Lemma estimate_total_witness : exists n, get_maximized_pageviews 30 ["leagueoflegends"; "hearthstone"] booked pageviews = Some (Ok n).
Proof. apply estimate_total; [apply can_book_sound; by vm_compute|by vm_compute]. Defined.

Lemma estimate_safe_witness :
  exists n x, get_maximized_pageviews 30 ["leagueoflegends"; "hearthstone"] booked pageviews = Some (Ok n) /\ serves (booked_system booked pageviews) x /\
    n <= free (booked_system booked pageviews) ["leagueoflegends"; "hearthstone"] x.
Proof. apply estimate_safe; [apply can_book_sound; by vm_compute|by vm_compute|apply (serves_by_sound _ optimal); by vm_compute]. Defined.

End InventoryExamples.
