(* ===== verification/Promote.v ===== *)
(** * Promotions: links, campaigns and what pays for them

    lib/promote.py with the bids of models/bidding.py, the transactions of
    lib/authorize/interaction.py, the campaigns of models/promo.py and the
    listings of promoted links of lib/db/queries.py, and the requests to the
    payment service of lib/authorize/api.py.  Times are seconds, dates
    are days, money is in pennies.  The payment service is a parameter: what it
    responds to a request after the requests before. *)

From S2P Require Import Prelude PyString Effects.
From Stdlib Require Import Ascii.

Module Promote.
Import PyString.

(** ** What is stored *)

(** [PROMOTE_STATUS]. *)
Definition unpaid : Z := 0.
Definition unseen : Z := 1.
Definition accepted : Z := 2.
Definition rejected : Z := 3.
Definition pending : Z := 4.
Definition promoted : Z := 5.
Definition finished : Z := 6.
Definition edited_live : Z := 7.

(** [PROMOTE_COST_BASIS]. *)
Definition fixed_cpm : Z := 0.

Definition NO_TRANSACTION : Z := 0.
Definition FREEBIE_PAYMENT_METHOD_ID : Z := -1.
Definition day : Z := 86400.

(** A promoted link; a link that was never submitted as one has no status. *)
Record link := Link {
  author_id : Z;
  is_promotion : bool;
  promote_status : option Z;
  l_deleted : bool;
  l_spam : bool;
  l_over_18 : bool;
  over_18_override : bool;
  payment_flagged_reason : string;
  fraud : option bool;
  l_title : string;
  l_is_self : bool;
  l_content : string
}.

(** [Target]: a subreddit by name, or a collection with its subreddits. *)
Inductive target := Subreddit (name : string) | Collection (name : string) (sr_names : list string).

Definition subreddit_names (t : target) : list string := match t with Subreddit name => [name] | Collection _ names => names end.

(** [Target.__eq__]: the names of collections are not compared. *)
Definition target_eq (t t' : target) : bool :=
  match t, t' with
  | Subreddit _, Subreddit _ | Collection _ _, Collection _ _ => bool_decide (list_to_set (C := gset string) (subreddit_names t) = list_to_set (subreddit_names t'))
  | _, _ => false
  end.

(** What an edit of a campaign can change. *)
Record terms := Terms {
  start_date : Z;
  end_date : Z;
  t_target : target;
  frequency_cap : option Z;
  priority : string;
  location : option (string * string * string);
  platform : string;
  mobile_os : option (list string);
  ios_devices : option (list string);
  ios_version_range : option (list string);
  android_devices : option (list string);
  android_version_range : option (list string);
  total_budget_pennies : Z;
  cost_basis : Z;
  bid_pennies : Z
}.

Record campaign := PromoCampaign {
  link_id : Z;
  owner_id : Z;
  the_terms : terms;
  trans_id : Z;
  has_served : bool;
  paused : bool;
  c_deleted : bool;
  refund_amount : option Z;
  adserver_spent_pennies : Z;
  has_cpm : bool
}.

Inductive bid_status := AUTH | CHARGE | REFUND | VOID.

#[export] Instance bid_status_eq_dec : EqDecision bid_status.
Proof. solve_decision. Defined.

(** [Bid]; its transaction and campaign are its key. *)
Record bid := Bid { account_id : Z; pay_id : Z; thing_id : Z; bid_amount : Z; charge : option Z; status : bid_status }.

(** A row of [PromotionWeights]: link, campaign, subreddit and date. *)
Notation weight_row := (Z * Z * string * Z)%type.

(** Requests to the payment service and what it answers. *)
Inductive request :=
  | Hold (profile : option Z) (pay amount : Z) (link camp : Z)
  | Capture (profile : option Z) (pay amount trans camp : Z)
  | VoidHold (profile : option Z) (pay trans camp : Z)
  | Refund (profile : option Z) (pay amount trans camp : Z).

Inductive answer := Done (trans : Z) | DuplicateTransaction (trans : Z) | HoldNotFound | TransactionError (message : string).

(** What the service responds: whether it did what was asked, its codes, the
    text of its reason and the transaction; what is no number is zero. *)
Record response := Response { success : bool; response_code : Z; response_reason_code : Z; response_reason_text : string; res_trans : Z }.

Definition TRANSACTION_NOT_FOUND : Z := 16.
Definition TRANSACTION_ERROR : Z := 3.
Definition TRANSACTION_DUPLICATE : Z := 11.

Definition create_authorization_hold (res : response) : answer :=
  if negb (res_trans res =? 0) && (response_code res =? TRANSACTION_ERROR) && (response_reason_code res =? TRANSACTION_DUPLICATE) then DuplicateTransaction (res_trans res)
  else if success res then Done (res_trans res) else TransactionError (response_reason_text res).

Definition capture_authorization_hold (res : response) : answer :=
  if success res then Done 0 else if response_reason_code res =? TRANSACTION_NOT_FOUND then HoldNotFound else TransactionError (response_reason_text res).

Definition void_authorization_hold (res : response) : answer := if success res then Done (res_trans res) else TransactionError (response_reason_text res).

Definition refund_request (res : response) : answer := if success res then Done 0 else TransactionError (response_reason_text res).

Definition answered (r : request) : response -> answer :=
  match r with Hold _ _ _ _ _ => create_authorization_hold | Capture _ _ _ _ _ => capture_authorization_hold | VoidHold _ _ _ _ => void_authorization_hold | Refund _ _ _ _ _ => refund_request end.

(** What [PromotionLog] says, and the mails that are sent. *)
Inductive entry :=
  | Created | StatusSet (s : Z) | CampaignCreated (c : Z) | Edited (c : Z) (what : list string) | Terminated (c end_day : Z) | Deleted (c : Z)
  | Paused (c : Z) (yes : bool) | Voided (c trans : Z) | Expired (c trans : Z) | Authorized (c trans amount : Z) | Freebie (c : Z) | AuthFailed (c : Z) (reason : string)
  | Charged (c trans : Z) | Rejected (reason : string) | Flagged (reason : string) | Reviewed (is_fraud : bool) | RefundFailed (c amount : Z) | Refunded (c billable amount : Z)
  | Completed (c billable : Z).

#[export] Instance entry_eq_dec : EqDecision entry.
Proof. solve_decision. Defined.

Inductive mail :=
  | NewPromo (l : Z) | AcceptPromo (l : Z) | RejectPromo (l : Z) (reason : option string) | EditedLivePromo (l : Z) | QueuePromo (l amount trans : Z)
  | LivePromo (l : Z) | FinishedPromo (l : Z) | RefundedPromo (l : Z) | PromoTotalBudget (l amount start : Z) | VoidPayment (l c : Z) (reason : string).

Record world := World {
  links : gmap Z link;
  campaigns : gmap Z campaign;
  bids : gmap (Z * Z) bid;
  weights : gset weight_row;
  pay_ids : gset (Z * Z);
  customer_ids : gmap Z Z;
  listings : gmap (string * option Z) (gset Z);
  flagged : gset Z;
  underdelivered : gset Z;
  live_srnames : gset string;
  calls : list (request * answer);
  log : list (Z * entry);
  mails : list mail
}.

Definition with_links x w := World x (campaigns w) (bids w) (weights w) (pay_ids w) (customer_ids w) (listings w) (flagged w) (underdelivered w) (live_srnames w) (calls w) (log w) (mails w).
Definition with_campaigns x w := World (links w) x (bids w) (weights w) (pay_ids w) (customer_ids w) (listings w) (flagged w) (underdelivered w) (live_srnames w) (calls w) (log w) (mails w).
Definition with_bids x w := World (links w) (campaigns w) x (weights w) (pay_ids w) (customer_ids w) (listings w) (flagged w) (underdelivered w) (live_srnames w) (calls w) (log w) (mails w).
Definition with_weights x w := World (links w) (campaigns w) (bids w) x (pay_ids w) (customer_ids w) (listings w) (flagged w) (underdelivered w) (live_srnames w) (calls w) (log w) (mails w).
Definition with_pay_ids x w := World (links w) (campaigns w) (bids w) (weights w) x (customer_ids w) (listings w) (flagged w) (underdelivered w) (live_srnames w) (calls w) (log w) (mails w).
Definition with_customer_ids x w := World (links w) (campaigns w) (bids w) (weights w) (pay_ids w) x (listings w) (flagged w) (underdelivered w) (live_srnames w) (calls w) (log w) (mails w).
Definition with_listings x w := World (links w) (campaigns w) (bids w) (weights w) (pay_ids w) (customer_ids w) x (flagged w) (underdelivered w) (live_srnames w) (calls w) (log w) (mails w).
Definition with_flagged x w := World (links w) (campaigns w) (bids w) (weights w) (pay_ids w) (customer_ids w) (listings w) x (underdelivered w) (live_srnames w) (calls w) (log w) (mails w).
Definition with_underdelivered x w := World (links w) (campaigns w) (bids w) (weights w) (pay_ids w) (customer_ids w) (listings w) (flagged w) x (live_srnames w) (calls w) (log w) (mails w).
Definition with_live_srnames x w := World (links w) (campaigns w) (bids w) (weights w) (pay_ids w) (customer_ids w) (listings w) (flagged w) (underdelivered w) x (calls w) (log w) (mails w).
Definition with_calls x w := World (links w) (campaigns w) (bids w) (weights w) (pay_ids w) (customer_ids w) (listings w) (flagged w) (underdelivered w) (live_srnames w) x (log w) (mails w).
Definition with_log x w := World (links w) (campaigns w) (bids w) (weights w) (pay_ids w) (customer_ids w) (listings w) (flagged w) (underdelivered w) (live_srnames w) (calls w) x (mails w).
Definition with_mails x w := World (links w) (campaigns w) (bids w) (weights w) (pay_ids w) (customer_ids w) (listings w) (flagged w) (underdelivered w) (live_srnames w) (calls w) (log w) x.

Definition set_status (s : Z) (l : link) : link := Link (author_id l) (is_promotion l) (Some s) (l_deleted l) (l_spam l) (l_over_18 l) (over_18_override l) (payment_flagged_reason l) (fraud l) (l_title l) (l_is_self l) (l_content l).
Definition set_deleted (l : link) : link := Link (author_id l) (is_promotion l) (promote_status l) true (l_spam l) (l_over_18 l) (over_18_override l) (payment_flagged_reason l) (fraud l) (l_title l) (l_is_self l) (l_content l).
Definition set_spam (b : bool) (l : link) : link := Link (author_id l) (is_promotion l) (promote_status l) (l_deleted l) b (l_over_18 l) (over_18_override l) (payment_flagged_reason l) (fraud l) (l_title l) (l_is_self l) (l_content l).
Definition set_over_18 (l : link) : link := Link (author_id l) (is_promotion l) (promote_status l) (l_deleted l) (l_spam l) true (over_18_override l) (payment_flagged_reason l) (fraud l) (l_title l) (l_is_self l) (l_content l).
Definition set_flag (r : string) (l : link) : link := Link (author_id l) (is_promotion l) (promote_status l) (l_deleted l) (l_spam l) (l_over_18 l) (over_18_override l) r (fraud l) (l_title l) (l_is_self l) (l_content l).
Definition set_fraud (b : bool) (l : link) : link := Link (author_id l) (is_promotion l) (promote_status l) (l_deleted l) (l_spam l) (l_over_18 l) (over_18_override l) (payment_flagged_reason l) (Some b) (l_title l) (l_is_self l) (l_content l).
Definition set_text (title : string) (is_self : bool) (content : string) (l : link) : link := Link (author_id l) (is_promotion l) (promote_status l) (l_deleted l) (l_spam l) (l_over_18 l) (over_18_override l) (payment_flagged_reason l) (fraud l) title is_self content.

Definition set_terms x c := PromoCampaign (link_id c) (owner_id c) x (trans_id c) (has_served c) (paused c) (c_deleted c) (refund_amount c) (adserver_spent_pennies c) (has_cpm c).
Definition set_trans_id x c := PromoCampaign (link_id c) (owner_id c) (the_terms c) x (has_served c) (paused c) (c_deleted c) (refund_amount c) (adserver_spent_pennies c) (has_cpm c).
Definition set_has_served c := PromoCampaign (link_id c) (owner_id c) (the_terms c) (trans_id c) true (paused c) (c_deleted c) (refund_amount c) (adserver_spent_pennies c) (has_cpm c).
Definition set_paused x c := PromoCampaign (link_id c) (owner_id c) (the_terms c) (trans_id c) (has_served c) x (c_deleted c) (refund_amount c) (adserver_spent_pennies c) (has_cpm c).
Definition set_c_deleted c := PromoCampaign (link_id c) (owner_id c) (the_terms c) (trans_id c) (has_served c) (paused c) true (refund_amount c) (adserver_spent_pennies c) (has_cpm c).
Definition set_refund_amount x c := PromoCampaign (link_id c) (owner_id c) (the_terms c) (trans_id c) (has_served c) (paused c) (c_deleted c) (Some x) (adserver_spent_pennies c) (has_cpm c).

(** The adserver's count of what was spent, which plugins keep. *)
Definition set_spent x c := PromoCampaign (link_id c) (owner_id c) (the_terms c) (trans_id c) (has_served c) (paused c) (c_deleted c) (refund_amount c) x (has_cpm c).

(** ** Campaigns *)

Definition is_house (c : campaign) : bool := String.eqb (priority (the_terms c)) "house".
Definition is_paid (c : campaign) : bool := negb (trans_id c =? 0) || is_house c.
Definition is_freebie (c : campaign) : bool := trans_id c <? 0.
Definition is_auction (c : campaign) : bool := negb (cost_basis (the_terms c) =? fixed_cpm).
Definition ndays (t : terms) : Z := (end_date t - start_date t) / day.
Definition inventory_override (priority : string) : bool := bool_decide (priority ∈ ["remnant"; "house"; "auction"]).

(** Whole dollars per thousand: both divisions are of integers. *)
Definition calc_impressions (total_budget_pennies cpm_pennies : Z) : res Z :=
  if cpm_pennies =? 0 then Raise ZeroDivisionError else Ok (total_budget_pennies / cpm_pennies * 1000).

Definition impressions (t : terms) : res Z := if cost_basis t =? fixed_cpm then calc_impressions (total_budget_pennies t) (bid_pennies t) else Ok 0.

(** How targets and lists are stored. *)
Definition unpack_target (t : target) : string * string :=
  (py_join "|" (subreddit_names t), match t with Collection name _ => name | Subreddit _ => "subreddit" end).

Definition stored_target (target_sr_names target_name : string) : target :=
  let sr_names := py_split "|"%char target_sr_names in
  if String.eqb target_name "subreddit" then Subreddit (default "" (head sr_names)) else Collection target_name sr_names.

Definition mobile_target_setter (names : option (list string)) : option string :=
  match names with None | Some [] => None | Some names => Some (py_join "," names) end.

Definition mobile_target_getter (stored : option string) : option (list string) :=
  match stored with None => None | Some s => if String.eqb s "" then None else Some (py_split ","%char s) end.

(** The terms of a campaign as they are read back. *)
Definition restored (names : option (list string)) : option (list string) := mobile_target_getter (mobile_target_setter names).

Definition as_stored (t : terms) : terms :=
  let '(target_sr_names, target_name) := unpack_target (t_target t) in
  Terms (start_date t) (end_date t) (stored_target target_sr_names target_name) (frequency_cap t) (priority t) (location t) (platform t)
    (restored (mobile_os t)) (restored (ios_devices t)) (restored (ios_version_range t)) (restored (android_devices t)) (restored (android_version_range t))
    (total_budget_pennies t) (cost_basis t) (bid_pennies t).

(** [Location]: country, region and metro; an empty one is none. *)
Definition to_code (l : string * string * string) : string := let '(country, region, metro) := l in py_join "-" [country; region; metro].

Definition from_code (code : string) : res (string * string * string) :=
  match py_split "-"%char code with [country; region; metro] => Ok (country, region, metro) | _ => Raise ValueError end.

Definition location_contains (l : string * string * string) (other : option (string * string * string)) : bool :=
  let '(country, _, metro) := l in
  if String.eqb country "" then true
  else match other with
  | None => false
  | Some (country', _, metro') =>
      if String.eqb country' "" then false
      else if negb (String.eqb country country') then false
      else if String.eqb metro "" then true
      else if String.eqb metro' "" then false
      else String.eqb metro metro'
  end.

(** ** Links *)

Definition is_promo (l : link) : bool := negb (l_deleted l) && is_promotion l && bool_decide (is_Some (promote_status l)).
Definition has_status (s : Z) (l : link) : bool := is_promo l && bool_decide (promote_status l = Some s).

Definition is_accepted (l : link) : bool :=
  is_promo l && match promote_status l with Some s => negb (s =? rejected) && negb (s =? edited_live) && (accepted <=? s) | None => false end.

Definition is_unpaid : link -> bool := has_status unpaid.
Definition is_unapproved (l : link) : bool := is_promo l && match promote_status l with Some s => s <=? unseen | None => false end.
Definition is_rejected : link -> bool := has_status rejected.
Definition is_promoted : link -> bool := has_status promoted.
Definition is_edited_live : link -> bool := has_status edited_live.
Definition is_finished : link -> bool := has_status finished.
Definition is_awaiting_fraud_review (l : link) : bool := negb (String.eqb (payment_flagged_reason l) "") && bool_decide (fraud l = None).

Definition to_date (t : Z) : Z := t / day.
Definition timezone_offset : Z := -5 * 3600.
Definition promo_datetime_now (now offset : Z) : Z := now + timezone_offset + offset * day.

Definition is_pending (now : Z) (c : campaign) : bool := to_date (promo_datetime_now now 0) <? to_date (start_date (the_terms c)).
Definition in_dates (date : Z) (c : campaign) : bool := (start_date (the_terms c) <=? date) && (date <? end_date (the_terms c)).

Definition authed_or_not_needed (c : campaign) : bool := negb (trans_id c =? NO_TRANSACTION) || is_house c.

(** What the operations are given from outside: the service that holds and
    captures money, by the requests before; the order of the rows of a query;
    subreddits with an age gate; accounts that promote for free; impressions
    counted for a campaign between two times, and whether counts are missing;
    the name of the front page. *)
Class Outside := MkOutside {
  authorize_net : list (request * answer) -> request -> response;
  sr_over_18 : gmap string bool;
  complimentary_promos : gset Z;
  promotion_history : Z -> Z -> Z -> Z;
  missing_traffic : Z -> Z -> bool;
  front_name : string
}.

Section operations.
Context `{HO : HashOrder} `{OU : Outside}.

Notation M := (effect world).

Definition get_link (id : Z) : M link := fun w => (w, of_option NotFound (links w !! id)).
Definition get_campaign (id : Z) : M campaign := fun w => (w, of_option NotFound (campaigns w !! id)).
Definition change_link (id : Z) (f : link -> link) : M unit := modify (fun w => with_links (alter f id (links w)) w).
Definition change_campaign (id : Z) (f : campaign -> campaign) : M unit := modify (fun w => with_campaigns (alter f id (campaigns w)) w).
Definition add_log (lid : Z) (e : entry) : M unit := modify (fun w => with_log (log w ++ [(lid, e)]) w).
Definition send (m : mail) : M unit := modify (fun w => with_mails (mails w ++ [m]) w).

(** ** Bids *)

(** [Bid.one] and [Bid._new]. *)
Definition bid_one (trans camp : Z) : M bid := fun w => (w, of_option NotFound (bids w !! (trans, camp))).

Definition bid_new (trans : Z) (b : bid) (camp : Z) : M unit :=
  fun w => match bids w !! (trans, camp) with Some _ => (w, Raise IntegrityError) | None => (with_bids (<[(trans, camp) := b]> (bids w)) w, Ok tt) end.

Definition new_bid (user pay lid amount : Z) : bid := Bid user pay lid amount None AUTH.

Definition change_bid (trans camp : Z) (f : bid -> bid) : M unit := modify (fun w => with_bids (alter f (trans, camp) (bids w)) w).

Definition set_bid_status (s : bid_status) (b : bid) : bid := Bid (account_id b) (pay_id b) (thing_id b) (bid_amount b) (charge b) s.
Definition void (b : bid) : bid := set_bid_status VOID b.
Definition auth (amount : Z) (b : bid) : bid := Bid (account_id b) (pay_id b) (thing_id b) amount (charge b) AUTH.
Definition charged (b : bid) : bid := Bid (account_id b) (pay_id b) (thing_id b) (bid_amount b) (Some (bid_amount b)) CHARGE.

(** A charge of nothing counts as no charge. *)
Definition charge_amount (b : bid) : Z := match charge b with Some n => if n =? 0 then bid_amount b else n | None => bid_amount b end.
Definition refund (amount : Z) (b : bid) : bid := Bid (account_id b) (pay_id b) (thing_id b) (bid_amount b) (Some (charge_amount b - amount)) REFUND.

Definition is_charged (b : bid) : bool := bool_decide (status b = CHARGE).
Definition is_refund (b : bid) : bool := bool_decide (status b = REFUND).

(** ** Transactions *)

Definition request_service (r : request) : M answer :=
  fun w => let a := answered r (authorize_net (calls w) r) in (with_calls (calls w ++ [(r, a)]) w, Ok a).

Definition is_charged_transaction (w : world) (trans camp : Z) : bool :=
  if trans =? 0 then false
  else match bids w !! (trans, camp) with Some b => is_charged b || is_refund b | None => false end.

Definition auth_freebie_transaction (amount user lid camp : Z) : M (option Z * string) :=
  let trans := - lid in
  fun w => match bids w !! (trans, camp) with
  | Some b => if thing_id b =? lid then (change_bid trans camp (auth amount) ;;; ret (Some trans, "")) w
              else (bid_new trans (new_bid user FREEBIE_PAYMENT_METHOD_ID lid amount) camp ;;; ret (Some trans, "")) w
  | None => (bid_new trans (new_bid user FREEBIE_PAYMENT_METHOD_ID lid amount) camp ;;; ret (Some trans, "")) w
  end.

Definition auth_transaction (amount user pay lid camp : Z) : M (option Z * string) :=
  w <~ ask (fun w => w);;
  if negb (bool_decide ((user, pay) ∈ pay_ids w)) then ret (None, "invalid payment method")
  else
    a <~ request_service (Hold (customer_ids w !! user) pay amount lid camp);;
    match a with
    | Done trans => bid_new trans (new_bid user pay lid amount) camp ;;; ret (Some trans, "")
    | DuplicateTransaction trans =>
        when (bool_decide (bids w !! (trans, camp) = None)) (bid_new trans (new_bid user pay lid amount) camp) ;;; ret (Some trans, "")
    | HoldNotFound => ret (None, "")
    | TransactionError m => ret (None, m)
    end.

(** Whether it was charged, and whether the hold was found. *)
Definition charge_transaction (user trans camp : Z) : M (bool * bool) :=
  b <~ bid_one trans camp;;
  if is_charged b then ret (true, true)
  else if trans <? 0 then change_bid trans camp charged ;;; ret (true, true)
  else
    w <~ ask (fun w => w);;
    a <~ request_service (Capture (customer_ids w !! user) (pay_id b) (bid_amount b) trans camp);;
    match a with
    | Done _ => change_bid trans camp charged ;;; ret (true, true)
    | HoldNotFound => change_bid trans camp void ;;; ret (false, false)
    | _ => ret (false, true)
    end.

Definition void_transaction (user trans camp : Z) : M unit :=
  b <~ bid_one trans camp;;
  if trans <=? 0 then change_bid trans camp void
  else
    w <~ ask (fun w => w);;
    a <~ request_service (VoidHold (customer_ids w !! user) (pay_id b) trans camp);;
    match a with Done _ => change_bid trans camp void | _ => ret tt end.

Definition refund_transaction (user trans camp amount : Z) : M bool :=
  b <~ bid_one trans camp;;
  if trans <? 0 then change_bid trans camp (refund amount) ;;; ret true
  else
    w <~ ask (fun w => w);;
    a <~ request_service (Refund (customer_ids w !! user) (pay_id b) amount trans camp);;
    match a with Done _ => change_bid trans camp (refund amount) ;;; ret true | _ => ret false end.

(** ** Status and listings *)

Definition statuses : list string := ["unpaid"; "unapproved"; "rejected"; "live"; "accepted"; "edited_live"].

(** The listing of each status. *)
Definition listing_of (s : Z) : string :=
  if s =? unpaid then "unpaid" else if s =? unseen then "unapproved" else if s =? rejected then "rejected" else if s =? promoted then "live"
  else if s =? edited_live then "edited_live" else "accepted".

(** [set_promote_status]: the link is put in two listings and taken out of the others. *)
Definition update_promote_status (lid s : Z) : M unit :=
  l <~ get_link lid;;
  modify (fun w => with_listings (foldl (fun m q => partial_alter (fun o => let x := default ∅ o in
      Some (if String.eqb q.1 (listing_of s) then x ∪ {[lid]} else x ∖ {[lid]})) q m)
    (listings w) (q ← statuses; [(q, Some (author_id l)); (q, None)])) w) ;;;
  change_link lid (set_status s) ;;;
  add_log lid (StatusSet s).

Definition new_promotion (lid author : Z) (title : string) (is_self : bool) (content : string) : M unit :=
  modify (fun w => with_links (<[lid := Link author true None false false false false "" None title is_self content]> (links w)) w) ;;;
  add_log lid Created ;;;
  update_promote_status lid unpaid ;;;
  send (NewPromo lid).

(** ** Scheduling *)

Definition filter_sr_name (name : string) : string := if String.eqb name front_name then "" else name.

Definition weight_rows (lid cid : Z) (t : terms) : gset weight_row :=
  let dates := (fun i => to_date (start_date t) + i) <$> seqZ 0 (to_date (end_date t) - to_date (start_date t)) in
  list_to_set (sr ← (filter_sr_name <$> subreddit_names (t_target t)); (fun d => (lid, cid, sr, d)) <$> dates).

Definition weights_add (lid cid : Z) (t : terms) : M unit :=
  fun w => if bool_decide (weight_rows lid cid t ## weights w) then (with_weights (weight_rows lid cid t ∪ weights w) w, Ok tt) else (w, Raise IntegrityError).

Definition weights_delete (lid cid : Z) : M unit := modify (fun w => with_weights (filter (fun r => (r.1.1.1, r.1.1.2) <> (lid, cid)) (weights w)) w).

Definition reschedule (lid cid : Z) (t : terms) : M unit := weights_delete lid cid ;;; weights_add lid cid t.

Definition filter_query (date : Z) (sr_names : option (list string)) (lid : option Z) (r : weight_row) : bool :=
  (r.2 =? to_date date) &&
  match lid with Some l => r.1.1.1 =? l | None => true end &&
  match sr_names with Some (n :: ns) => bool_decide (r.1.2 ∈ filter_sr_name <$> n :: ns) | _ => true end.

Definition get_campaign_ids (date : Z) (sr_names : option (list string)) (lid : option Z) (w : world) : gset Z :=
  set_map (fun r : weight_row => r.1.1.2) (filter (fun r => filter_query date sr_names lid r = true) (weights w)).

(** Campaigns of a date with their links; what they are is read as they come. *)
Definition get_promos (date : Z) (sr_names : option (list string)) (lid : option Z) (w : world) : res (list (Z * Z)) :=
  res_mapM (fun cid => let* c := of_option NotFound (campaigns w !! cid) in
    let* _ := of_option NotFound (links w !! link_id c) in Ok (cid, link_id c)) (dict_order (elements (get_campaign_ids date sr_names lid w))).

Definition charged_or_not_needed (w : world) (cid : Z) (c : campaign) : bool := is_charged_transaction w (trans_id c) cid || is_house c.

Definition is_served_promo (date : Z) (c : campaign) : bool := in_dates date c && has_served c.
Definition is_accepted_promo (date : Z) (l : link) (c : campaign) : bool := in_dates date c && is_accepted l && authed_or_not_needed c.
Definition is_scheduled_promo (w : world) (date : Z) (l : link) (cid : Z) (c : campaign) : bool := is_accepted_promo date l c && charged_or_not_needed w cid c.
Definition is_live_promo (w : world) (now : Z) (l : link) (cid : Z) (c : campaign) : bool := is_promoted l && is_scheduled_promo w (promo_datetime_now now 0) l cid c.
Definition is_complete_promo (w : world) (now : Z) (l : link) (cid : Z) (c : campaign) : bool := is_paid c && negb (is_live_promo w now l cid c || is_pending now c).

(** What a test says of a campaign and its link as they are now. *)
Definition test_pair (f : world -> link -> Z -> campaign -> bool) (w : world) (cl : Z * Z) : bool :=
  match campaigns w !! cl.1, links w !! cl.2 with Some c, Some l => f w l cl.1 c | _, _ => false end.

Definition all_live_promo_srnames (now : Z) (w : world) : res (gset string) :=
  let* promos := get_promos (promo_datetime_now now 0) None None w in
  Ok (list_to_set (cl ← List.filter (test_pair (fun w => is_live_promo w now) w) promos;
    match campaigns w !! cl.1 with Some c => subreddit_names (t_target (the_terms c)) | None => [] end)).

Definition update_live_srnames (now : Z) : M unit :=
  names <~ (fun w => (w, all_live_promo_srnames now w));; modify (with_live_srnames names).

Definition live_campaigns_by_link (now lid : Z) (sr : option string) (w : world) : res (list (Z * Z)) :=
  let* l := of_option NotFound (links w !! lid) in
  if negb (is_promoted l) then Ok []
  else
    let* promos := get_promos (promo_datetime_now now 0) ((fun s => [s]) <$> sr) (Some lid) w in
    Ok (List.filter (test_pair (fun w => is_live_promo w now) w) promos).

(** Campaigns of a link that are not deleted. *)
Definition campaigns_of_link (lid : Z) (w : world) : list Z :=
  dict_order (map_to_list (filter (fun kc : Z * campaign => link_id kc.2 = lid /\ c_deleted kc.2 = false) (campaigns w))).*1.

(** ** Paying *)

(** [get_transactions] of one campaign. *)
Definition get_transactions (lid cid : Z) (w : world) : res (option (Z * bid)) :=
  match campaigns w !! cid with
  | None => Raise NotFound
  | Some c =>
      if (trans_id c =? 0) || negb (link_id c =? lid) then Ok None
      else if bool_decide (map_Forall (fun _ b => thing_id b <> lid) (bids w)) then Raise NotFound
      else match bids w !! (trans_id c, cid) with
      | Some b => if thing_id b =? lid then Ok (Some (trans_id c, b)) else Raise KeyError
      | None => Raise KeyError
      end
  end.

(** What the service says to voiding is not looked at. *)
Definition void_campaign (lid cid : Z) (reason : string) : M unit :=
  record <~ (fun w => (w, get_transactions lid cid w));;
  match record with
  | None => ret tt
  | Some (trans, _) =>
      l <~ get_link lid;;
      void_transaction (author_id l) trans cid ;;;
      change_campaign cid (set_trans_id NO_TRANSACTION) ;;;
      add_log lid (Voided cid trans) ;;;
      when (0 <? trans) (send (VoidPayment lid cid reason))
  end.

(** The user is the one logged in; no payment method is a freebie. *)
Definition auth_campaign (lid cid user : Z) (pay : option Z) : M (bool * string) :=
  void_campaign lid cid "changed_payment" ;;;
  c <~ get_campaign cid;;
  let amount := total_budget_pennies (the_terms c) in
  r <~ match pay with None => auth_freebie_transaction amount user lid cid | Some pay => auth_transaction amount user pay lid cid end;;
  let trans := default 0 r.1 in
  (if negb (trans =? 0) && String.eqb r.2 "" then
    add_log lid (Authorized cid trans amount) ;;;
    when (trans <? 0) (add_log lid (Freebie cid)) ;;;
    l <~ get_link lid;;
    update_promote_status lid (if is_finished l then accepted else Z.max unseen (default 0 (promote_status l))) ;;;
    when ((user =? author_id l) && (0 <? trans)) (send (PromoTotalBudget lid amount (start_date (the_terms c))))
  else add_log lid (AuthFailed cid r.2)) ;;;
  let trans := if negb (trans =? 0) && String.eqb r.2 "" then trans else 0 in
  change_campaign cid (set_trans_id trans) ;;;
  ret (negb (trans =? 0), r.2).

Definition free_campaign (lid cid user : Z) : M unit := auth_campaign lid cid user None ;;; ret tt.

(** What authors who promote for free have done to their campaigns. *)
Definition maybe_free (lid cid user : Z) : M unit :=
  c <~ get_campaign cid;;
  l <~ get_link lid;;
  when (negb (is_house c) && bool_decide (author_id l ∈ complimentary_promos)) (free_campaign lid cid user).

Definition charge_campaign (lid cid : Z) : M unit :=
  c <~ get_campaign cid;;
  w <~ ask (fun w => w);;
  if charged_or_not_needed w cid c then ret tt
  else
    l <~ get_link lid;;
    r <~ charge_transaction (author_id l) (trans_id c) cid;;
    if negb r.1 then
      when (negb r.2) (change_campaign cid (set_trans_id NO_TRANSACTION) ;;; add_log lid (Expired cid (trans_id c)))
    else
      when (negb (is_promoted l)) (update_promote_status lid pending) ;;;
      send (QueuePromo lid (total_budget_pennies (the_terms c)) (trans_id c)) ;;;
      add_log lid (Charged cid (trans_id c)).

(** ** Campaigns *)

Definition new_campaign (lid cid user : Z) (t : terms) : M unit :=
  l <~ get_link lid;;
  modify (fun w => with_campaigns (<[cid := PromoCampaign lid (author_id l) (as_stored t) NO_TRANSACTION false false false None 0 false]> (campaigns w)) w) ;;;
  weights_add lid cid t ;;;
  add_log lid (CampaignCreated cid) ;;;
  maybe_free lid cid user.

(** An attribute that is another one is set and logged. *)
Definition edit_attr {A} (same : bool) (what : string) (old new : A) : A * list string := if same then (old, []) else (new, [what]).

Definition edit_terms (old new : terms) : terms * list string :=
  let dates := bool_decide (start_date new = start_date old /\ end_date new = end_date old) in
  let '(start, e1) := edit_attr dates "dates" (start_date old) (start_date new) in
  let '(end_, _) := edit_attr dates "dates" (end_date old) (end_date new) in
  let '(targ, e2) := edit_attr (target_eq (t_target new) (t_target old)) "target" (t_target old) (t_target new) in
  let '(cap, e3) := edit_attr (bool_decide (frequency_cap new = frequency_cap old)) "frequency_cap" (frequency_cap old) (frequency_cap new) in
  let '(prio, e4) := edit_attr (bool_decide (priority new = priority old)) "priority" (priority old) (priority new) in
  let '(loc, e5) := edit_attr (bool_decide (location new = location old)) "location" (location old) (location new) in
  let '(plat, e6) := edit_attr (bool_decide (platform new = platform old)) "platform" (platform old) (platform new) in
  let '(os, e7) := edit_attr (bool_decide (mobile_os new = mobile_os old)) "mobile_os" (mobile_os old) (mobile_os new) in
  let '(ios, e8) := edit_attr (bool_decide (ios_devices new = ios_devices old)) "ios_devices" (ios_devices old) (ios_devices new) in
  let '(android, e9) := edit_attr (bool_decide (android_devices new = android_devices old)) "android_devices" (android_devices old) (android_devices new) in
  let '(ios_v, e10) := edit_attr (bool_decide (ios_version_range new = ios_version_range old)) "ios_version_range" (ios_version_range old) (ios_version_range new) in
  let '(android_v, e11) := edit_attr (bool_decide (android_version_range new = android_version_range old)) "android_version_range" (android_version_range old) (android_version_range new) in
  let '(basis, e12) := edit_attr (bool_decide (cost_basis new = cost_basis old)) "cost_basis" (cost_basis old) (cost_basis new) in
  let '(pennies, e13) := edit_attr (bool_decide (bid_pennies new = bid_pennies old)) "bid_pennies" (bid_pennies old) (bid_pennies new) in
  (Terms start end_ targ cap prio loc plat os ios ios_v android android_v (total_budget_pennies new) basis pennies,
   e1 ++ e2 ++ e3 ++ e4 ++ e5 ++ e6 ++ e7 ++ e8 ++ e9 ++ e10 ++ e11 ++ e12 ++ e13).

Definition edit_campaign (lid cid user : Z) (new : terms) : M unit :=
  c <~ get_campaign cid;;
  when (negb (total_budget_pennies new =? total_budget_pennies (the_terms c))) (void_campaign lid cid "changed_budget") ;;;
  let '(t, what) := edit_terms (the_terms c) new in
  change_campaign cid (set_terms (as_stored t)) ;;;
  reschedule lid cid t ;;;
  maybe_free lid cid user ;;;
  when (bool_decide (what <> [])) (add_log lid (Edited cid what)).

(** What an edit is given to end a campaign: the rest of the terms are the
    defaults of the parameters. *)
Definition terminated_terms (now : Z) (t : terms) : terms :=
  Terms (start_date t) (promo_datetime_now now 0) (t_target t) (frequency_cap t) (priority t) (location t) "desktop" None None None None None
    (total_budget_pennies t) (cost_basis t) (bid_pennies t).

Definition terminate_campaign (now lid cid user : Z) : M unit :=
  c <~ get_campaign cid;;
  l <~ get_link lid;;
  w <~ ask (fun w => w);;
  if negb (is_live_promo w now l cid c) then ret tt
  else
    edit_campaign lid cid user (terminated_terms now (the_terms c)) ;;;
    w <~ ask (fun w => w);;
    let others := List.filter (fun c' => negb (c' =? cid)) (campaigns_of_link lid w) in
    when (negb (existsb (fun c' => test_pair (fun w => is_live_promo w now) w (c', lid)) others))
      (update_promote_status lid finished ;;; update_live_srnames now) ;;;
    add_log lid (Terminated cid (to_date (end_date (the_terms c)))).

Definition delete_campaign (lid cid : Z) : M unit :=
  weights_delete lid cid ;;;
  void_campaign lid cid "deleted_campaign" ;;;
  change_campaign cid set_c_deleted ;;;
  add_log lid (Deleted cid).

Definition toggle_pause_campaign (lid cid : Z) (should_pause : bool) : M unit :=
  change_campaign cid (set_paused should_pause) ;;; add_log lid (Paused cid should_pause).

(** ** Review *)

Definition promote_link (lid cid : Z) : M unit :=
  l <~ get_link lid;;
  c <~ get_campaign cid;;
  when (negb (l_over_18 l) && negb (over_18_override l) && existsb (fun sr => default false (sr_over_18 !! sr)) (subreddit_names (t_target (the_terms c))))
    (change_link lid set_over_18) ;;;
  when (negb (is_promoted l)) (update_promote_status lid promoted ;;; send (LivePromo lid)).

(** A campaign running now is charged and its link goes live. *)
Definition accept_running (now lid : Z) (was_edited_live : bool) (cid : Z) : M bool :=
  l <~ get_link lid;;
  c <~ get_campaign cid;;
  if is_accepted_promo (promo_datetime_now now 0) l c then
    when (negb was_edited_live) (charge_campaign lid cid) ;;;
    c <~ get_campaign cid;;
    w <~ ask (fun w => w);;
    if charged_or_not_needed w cid c then promote_link lid cid ;;; ret true else ret false
  else ret false.

Fixpoint any_live (f : Z -> M bool) (cids : list Z) : M bool :=
  match cids with [] => ret false | cid :: cids => b <~ f cid;; b' <~ any_live f cids;; ret (b || b') end.

Definition accept_promotion (now lid : Z) : M unit :=
  l <~ get_link lid;;
  let was_edited_live := is_edited_live l in
  update_promote_status lid accepted ;;;
  when (l_spam l) (change_link lid (set_spam false)) ;;;
  when (negb was_edited_live) (send (AcceptPromo lid)) ;;;
  cids <~ ask (campaigns_of_link lid);;
  is_live <~ any_live (accept_running now lid was_edited_live) cids;;
  when is_live (update_live_srnames now).

Definition reject_promotion (now lid : Z) (user : option Z) (reason : option string) (notify_why : bool) : M unit :=
  l <~ get_link lid;;
  if is_rejected l then ret tt
  else
    update_promote_status lid rejected ;;;
    match reason with Some r => when (negb (String.eqb r "")) (add_log lid (Rejected r)) | None => ret tt end ;;;
    when (negb (bool_decide (user = Some (author_id l)))) (send (RejectPromo lid (if notify_why then reason else None))) ;;;
    when (is_promoted l) (update_live_srnames now).

(** Nothing calls it. *)
Definition unapprove_promotion (lid : Z) : M unit :=
  l <~ get_link lid;;
  if is_unpaid l then ret tt else if is_finished l then update_promote_status lid unpaid else update_promote_status lid unseen.

Definition edited_live_promotion (lid : Z) : M unit := update_promote_status lid edited_live ;;; send (EditedLivePromo lid).

(** [reason in link.payment_flagged_reason] of strings. *)
Fixpoint substring_in (a b : string) : bool :=
  String.prefix a b || match b with EmptyString => false | String _ b => substring_in a b end.

Definition flag_payment (lid : Z) (reason : string) : M unit :=
  l <~ get_link lid;;
  if default false (fraud l) || substring_in reason (payment_flagged_reason l) then ret tt
  else
    change_link lid (set_flag (if String.eqb (payment_flagged_reason l) "" then reason else payment_flagged_reason l +:+ ", " +:+ reason)) ;;;
    add_log lid (Flagged reason) ;;;
    modify (fun w => with_flagged ({[lid]} ∪ flagged w) w).

Definition review_fraud (now lid : Z) (user : option Z) (is_fraud : bool) : M unit :=
  change_link lid (set_fraud is_fraud) ;;;
  add_log lid (Reviewed is_fraud) ;;;
  modify (fun w => with_flagged (flagged w ∖ {[lid]}) w) ;;;
  when is_fraud (reject_promotion now lid user (Some "fraud") false).

(** ** The daily job *)

(** The campaigns of a date that pass a test when their turn comes. *)
Definition for_promos (date : Z) (f : world -> link -> Z -> campaign -> bool) (k : Z -> Z -> M unit) : M unit :=
  promos <~ (fun w => (w, get_promos date None None w));;
  mapM_ (fun cl => w <~ ask (fun w => w);; when (test_pair f w cl) (k cl.2 cl.1)) promos.

Definition charge_pending (now offset : Z) : M unit :=
  let date := promo_datetime_now now offset in for_promos date (fun _ l _ c => is_accepted_promo date l c) charge_campaign.

(** The ids of links that are live on the date. *)
Fixpoint promote_each (date : Z) (promos : list (Z * Z)) (ids : gset Z) : M (gset Z) :=
  match promos with
  | [] => ret ids
  | cl :: promos =>
      w <~ ask (fun w => w);;
      if test_pair (fun w l cid c => is_scheduled_promo w date l cid c) w cl then promote_link cl.2 cl.1 ;;; promote_each date promos ({[cl.2]} ∪ ids)
      else promote_each date promos ids
  end.

Definition expired_links (ids : gset Z) (w : world) : list Z :=
  dict_order (map_to_list (filter (fun kl : Z * link => promote_status kl.2 = Some promoted /\ kl.1 ∉ ids /\ l_deleted kl.2 = false /\ l_spam kl.2 = false) (links w))).*1.

(** ** What is billed *)

(** The first start and the last end of charged campaigns; a month, if there are none. *)
Definition total_run (now : Z) (runs : list (Z * Z)) : Z * Z :=
  match runs with
  | [] => (now - 30 * day - timezone_offset, now - timezone_offset)
  | r :: runs => (foldl Z.min r.1 runs.*1 - timezone_offset, foldl Z.max r.2 runs.*2 - timezone_offset)
  end.

Definition run_of (w : world) (cid : Z) : list (Z * Z) :=
  match campaigns w !! cid with Some c => if charged_or_not_needed w cid c then [(start_date (the_terms c), end_date (the_terms c))] else [] | None => [] end.

Definition get_total_run (now : Z) (cid : Z) (w : world) : Z * Z := total_run now (run_of w cid).
Definition get_total_run_link (now : Z) (lid : Z) (w : world) : Z * Z := total_run now (cid ← campaigns_of_link lid w; run_of w cid).

(** Until the last whole hour. *)
Definition get_traffic_dates (now cid : Z) (w : world) : Z * Z := let '(start, end_) := get_total_run now cid w in (start, Z.min (now / 3600 * 3600) end_).

Definition get_billable_impressions (now cid : Z) (w : world) : Z :=
  let '(start, end_) := get_traffic_dates now cid w in if now <? start then 0 else promotion_history cid start end_.

Definition get_billable_amount (c : campaign) (impressions : Z) : Z :=
  let t := the_terms c in
  if negb (is_auction c) then Z.min (total_budget_pennies t) (impressions * bid_pennies t / 1000) else total_budget_pennies t.

Definition get_spent_amount (now cid : Z) (c : campaign) (w : world) : Z :=
  if is_house c then 0
  else match refund_amount c with
  | Some n => total_budget_pennies (the_terms c) - n
  | None => if is_auction c then adserver_spent_pennies c else get_billable_amount c (get_billable_impressions now cid w)
  end.

Definition get_refund_amount (c : campaign) (billable : Z) : Z :=
  Z.max (total_budget_pennies (the_terms c) - default 0 (refund_amount c) - billable) 0.

Definition refund_campaign (lid cid amount billable : Z) : M bool :=
  c <~ get_campaign cid;;
  ok <~ refund_transaction (owner_id c) (trans_id c) cid amount;;
  if negb ok then add_log lid (RefundFailed cid amount) ;;; ret false
  else
    add_log lid (Refunded cid billable amount) ;;;
    change_campaign cid (set_refund_amount amount) ;;;
    modify (fun w => with_underdelivered (underdelivered w ∖ {[cid]}) w) ;;;
    send (RefundedPromo lid) ;;;
    ret true.

(** Campaigns that ended on the date and were paid for. *)
Definition ended_campaigns (date : Z) (w : world) : list Z :=
  dict_order (map_to_list (filter (fun kc : Z * campaign => end_date (the_terms kc.2) = date /\ NO_TRANSACTION < trans_id kc.2 /\ c_deleted kc.2 = false) (campaigns w))).*1.

Definition finalize_campaign (now cid : Z) : M unit :=
  c <~ get_campaign cid;;
  w <~ ask (fun w => w);;
  match refund_amount c with
  | Some _ => ret tt
  | None =>
      let billable := get_billable_amount c (get_billable_impressions now cid w) in
      (* what is billable is in dollars, and is compared with pennies *)
      if 100 * total_budget_pennies (the_terms c) <=? billable then
        add_log (link_id c) (Completed cid billable) ;;; change_campaign cid (set_refund_amount 0)
      else when (charged_or_not_needed w cid c) (modify (fun w => with_underdelivered ({[cid]} ∪ underdelivered w) w))
  end.

Definition finalize_completed_campaigns (now daysago : Z) : M unit :=
  let date := (now - daysago * day) / day * day in
  cids <~ ask (ended_campaigns date);;
  w <~ ask (fun w => w);;
  let start_of cid := match campaigns w !! cid with Some c => start_date (the_terms c) | None => 0 end in
  match cids with
  | [] => ret tt
  | cid :: rest =>
      let earliest := foldl (fun b c => if start_of c <? start_of b then c else b) cid rest in
      let '(start, _) := get_total_run now earliest w in
      if missing_traffic start date then lift (Raise ValueError)
      else
        lift (res_mapM (fun cid => let* c := of_option NotFound (campaigns w !! cid) in of_option NotFound (links w !! link_id c)) cids) ;;;
        mapM_ (finalize_campaign now) cids
  end.

(** The part of the job that sets what is live. *)
Definition go_live (now : Z) : M unit :=
  charge_pending now 0 ;;;
  charge_pending now 1 ;;;
  let date := promo_datetime_now now 0 in
  promos <~ (fun w => (w, get_promos date None None w));;
  ids <~ promote_each date promos ∅;;
  q <~ ask (expired_links ids);;
  mapM_ (fun lid => update_promote_status lid finished ;;; send (FinishedPromo lid)) q ;;;
  update_live_srnames now.

Definition make_daily_promotions (now : Z) : M unit := go_live now ;;; finalize_completed_campaigns now 1.

(** ** Dates *)

(** Days of the week from Monday; the first of January 1970 was a Thursday. *)
Definition weekday (d : Z) : Z := (d + 3) mod 7.
Definition FRIDAY : Z := 4.
Definition SATURDAY : Z := 5.
Definition DAILY_CUTOFF : Z := 17 * 3600.

(** The first start, the last start and the last end a campaign may have; the
    time of the reviewers is given with the time of promotions. *)
Definition get_date_limits (now review_now : Z) (l : link) (is_sponsor : bool) : Z * Z * Z :=
  let promo_today := to_date (promo_datetime_now now 0) in
  let min_start :=
    if is_sponsor then promo_today
    else if is_accepted l then promo_today + 1
    else
      let now_today := to_date review_now in
      let too_late_for_review := DAILY_CUTOFF <? review_now mod day in
      if too_late_for_review && (weekday now_today =? FRIDAY) then now_today + 3
      else if weekday now_today =? SATURDAY then now_today + 2
      else if too_late_for_review then now_today + 2
      else now_today + 1 in
  let max_end := promo_today + (if is_sponsor then 366 else 93) in
  let max_start := if is_sponsor then max_end - 1 else promo_today + 30 in
  (min_start, max_start, max_end).

(** ** Requests *)

(** Who makes a request, and when; the limits of the configuration. *)
Record visitor := Visitor { v_user : Z; is_sponsor : bool; v_now : Z; review_now : Z }.

Definition own (v : visitor) (l : link) : bool := is_sponsor v || (author_id l =? v_user v).

(** Campaigns are asked for with their link. *)
Definition of_link (lid cid : Z) (w : world) : bool :=
  match campaigns w !! cid with Some c => bool_decide (link_id c = lid) | None => false end && bool_decide (is_Some (links w !! lid)).

Definition guarded (b : world -> bool) (m : M unit) : M unit := fun w => if b w then m w else (w, Ok tt).

Definition link_test (f : link -> bool) (lid : Z) (w : world) : bool := match links w !! lid with Some l => f l | None => false end.

Definition POST_promote (v : visitor) (lid : Z) : M unit :=
  guarded (fun w => is_sponsor v && link_test is_promo lid w) (accept_promotion (v_now v) lid).

Definition POST_unpromote (v : visitor) (lid : Z) (reason : option string) : M unit :=
  guarded (fun w => is_sponsor v && link_test is_promo lid w) (reject_promotion (v_now v) lid (Some (v_user v)) reason true).

Definition POST_freebie (v : visitor) (lid cid : Z) (oversold : bool) : M unit :=
  guarded (fun w => is_sponsor v && of_link lid cid w && negb oversold && link_test is_promo lid w) (free_campaign lid cid (v_user v)).

Definition POST_review_fraud (v : visitor) (lid : Z) (is_fraud : bool) : M unit :=
  guarded (fun w => is_sponsor v && link_test is_promotion lid w) (review_fraud (v_now v) lid (Some (v_user v)) is_fraud).

Definition POST_refund_campaign (v : visitor) (lid cid : Z) : M unit :=
  guarded (fun w => is_sponsor v && of_link lid cid w)
    (c <~ get_campaign cid;;
     w <~ ask (fun w => w);;
     let '(billable, amount) :=
       if has_cpm c then let billable := get_billable_amount c (get_billable_impressions (v_now v) cid w) in (billable, get_refund_amount c billable)
       else let billable := total_budget_pennies (the_terms c) in (billable, billable - adserver_spent_pennies c) in
     if amount <=? 0 then ret tt else refund_campaign lid cid amount billable ;;; ret tt).

Definition POST_delete_campaign (v : visitor) (lid cid : Z) : M unit :=
  guarded (fun w => link_test (own v) lid w && of_link lid cid w) (delete_campaign lid cid).

Definition POST_toggle_pause_campaign (v : visitor) (lid cid : Z) (pause_ads should_pause : bool) : M unit :=
  guarded (fun w => link_test (own v) lid w && of_link lid cid w && pause_ads)
    (c <~ get_campaign cid;; when (negb (Bool.eqb (paused c) should_pause)) (toggle_pause_campaign lid cid should_pause)).

Definition POST_terminate_campaign (v : visitor) (lid cid : Z) : M unit :=
  guarded (fun w => is_sponsor v && of_link lid cid w) (terminate_campaign (v_now v) lid cid (v_user v)).

(** Paying for a campaign with a payment method that is there. *)
Definition POST_update_pay (v : visitor) (lid cid pay : Z) (oversold : bool) : M unit :=
  guarded (fun w => link_test (own v) lid w && of_link lid cid w)
    (c <~ get_campaign cid;;
     l <~ get_link lid;;
     let start := to_date (start_date (the_terms c)) in
     let '(min_start, max_start, _) := get_date_limits (v_now v) (review_now v) l (is_sponsor v) in
     if (negb (is_auction c) && oversold) || (max_start <? start) || (start <? min_start) then ret tt
     else auth_campaign lid cid (v_user v) (Some pay) ;;; ret tt).

(** What an edit of a promotion changes of what is shown. *)
Definition retitled (title : string) (l : link) : bool := negb (String.eqb title "") && negb (String.eqb title (l_title l)).
Definition retyped (link_is_self : bool) (l : link) : bool := negb (Bool.eqb link_is_self (l_is_self l)).
Definition readdressed (link_is_self : bool) (content : string) (l : link) : bool :=
  negb link_is_self && negb (String.eqb content "") && negb (String.eqb content (l_content l)).

Definition promo_changed (title : string) (link_is_self : bool) (content : string) (images_changed : bool) (l : link) : bool :=
  retitled title l || images_changed || retyped link_is_self l || readdressed link_is_self content l.

Definition edit_text (title : string) (link_is_self : bool) (content : string) (l : link) : link :=
  set_text (if retitled title l then title else l_title l) link_is_self (if retyped link_is_self l || link_is_self || readdressed link_is_self content l then content else l_content l) l.

(** The part of editing a promotion that is about it; images are handled
    elsewhere. *)
Definition POST_edit_promo (v : visitor) (lid : Z) (title : string) (link_is_self : bool) (content : string) (images_changed : bool) : M unit :=
  guarded (fun w => link_test (fun l => own v l && is_promo l) lid w)
    (l <~ get_link lid;;
     change_link lid (edit_text title link_is_self content) ;;;
     when (promo_changed title link_is_self content images_changed l && negb (is_sponsor v) && is_promoted l) (edited_live_promotion lid)).

(** The part of deleting a link that is about promotions. *)
Definition POST_del (v : visitor) (lid : Z) : M unit :=
  guarded (fun w => link_test (fun l => author_id l =? v_user v) lid w)
    (change_link lid set_deleted ;;;
     l <~ get_link lid;;
     when (is_promotion l && negb (is_promoted l)) (reject_promotion (v_now v) lid (Some (v_user v)) None true)).

(** Limits of the configuration, and whether auctions are on. *)
Record limits := Limits { MAX_CAMPAIGNS_PER_LINK : Z; min_total_budget_pennies : Z; max_total_budget_pennies : Z; frequency_cap_default : Z; ads_auction : bool }.

Definition with_budget (n : Z) (t : terms) : terms :=
  Terms (start_date t) (end_date t) (t_target t) (frequency_cap t) (priority t) (location t) (platform t) (mobile_os t) (ios_devices t) (ios_version_range t)
    (android_devices t) (android_version_range t) n (cost_basis t) (bid_pennies t).
Definition with_start (n : Z) (t : terms) : terms :=
  Terms n (end_date t) (t_target t) (frequency_cap t) (priority t) (location t) (platform t) (mobile_os t) (ios_devices t) (ios_version_range t)
    (android_devices t) (android_version_range t) (total_budget_pennies t) (cost_basis t) (bid_pennies t).
Definition with_frequency_cap (n : option Z) (t : terms) : terms :=
  Terms (start_date t) (end_date t) (t_target t) n (priority t) (location t) (platform t) (mobile_os t) (ios_devices t) (ios_version_range t)
    (android_devices t) (android_version_range t) (total_budget_pennies t) (cost_basis t) (bid_pennies t).

(** What is wrong with the terms asked for, if anything: with the campaign that
    is edited, if there is one, and whether it is live or complete. *)
Definition terms_error (g : limits) (v : visitor) (l : link) (old : option (campaign * bool * bool)) (count : Z) (oversold : bool) (t : terms) : option string :=
  let '(min_start, max_start, max_end) := get_date_limits (v_now v) (review_now v) l (is_sponsor v) in
  let start_changed c := negb (to_date (start_date (the_terms c)) =? to_date (start_date t)) in
  let first_error := match old with
    | Some (c, is_live, is_complete) =>
        if ads_auction g && negb (is_sponsor v) && negb (is_auction c) then Some "COST_BASIS_CANNOT_CHANGE"
        else if start_changed c && (has_served c || is_live || is_complete) then Some "START_DATE_CANNOT_CHANGE" else None
    | None => if to_date (start_date t) <? min_start then Some "DATE_TOO_EARLY" else None
    end in
  match first_error with
  | Some e => Some e
  | None =>
      if max_start <? to_date (start_date t) then Some "DATE_TOO_LATE"
      else if max_end <? to_date (end_date t) then Some "DATE_TOO_LATE"
      else if end_date t <? start_date t then Some "BAD_DATE_RANGE"
      else if MAX_CAMPAIGNS_PER_LINK g <? count then Some "TOO_MANY_CAMPAIGNS"
      else if negb (String.eqb (priority t) "house") &&
        ((total_budget_pennies t <? (if is_sponsor v then 0 else min_total_budget_pennies g)) ||
         (negb (is_sponsor v) && negb (max_total_budget_pennies g =? 0) && (max_total_budget_pennies g <? total_budget_pennies t))) then Some "BAD_BUDGET"
      else if negb (String.eqb (priority t) "house") &&
        match old with Some (c, is_live, _) => negb (total_budget_pennies t =? total_budget_pennies (the_terms c)) && is_live && negb (is_freebie c) | None => false end
        then Some "BUDGET_LIVE"
      else if negb (inventory_override (priority t)) && oversold then Some "OVERSOLD"
      else None
  end.

(** The terms as they are kept. *)
Definition final_terms (g : limits) (by_auction : bool) (t : terms) : terms :=
  let t := if String.eqb (priority t) "house" then with_budget 0 t else t in
  if (match frequency_cap t with None | Some 0 => true | _ => false end) && by_auction then with_frequency_cap (Some (frequency_cap_default g)) t else t.

(** Making a campaign, or editing one of the link.  The priority and prices of
    the terms are worked out before; where auctions are on, the bids of all but
    sponsors are checked with a method that is not there. *)
Definition POST_edit_campaign (g : limits) (v : visitor) (lid : Z) (old : option Z) (new_id : Z) (by_auction oversold : bool) (t : terms) : M (option string) :=
  l <~ get_link lid;;
  w <~ ask (fun w => w);;
  if negb (own v l) then ret (Some "forbidden") else
  let count := Z.of_nat (length (campaigns_of_link lid w)) in
  let check_bid (m : M (option string)) := if ads_auction g && negb (is_sponsor v) then lift (Raise AttributeError) else m in
  match old with
  | None => check_bid
      match terms_error g v l None count oversold t with
      | Some e => ret (Some e)
      | None => new_campaign lid new_id (v_user v) (final_terms g by_auction t) ;;; ret None
      end
  | Some cid =>
      match campaigns w !! cid with
      | None => ret (Some "not found")
      | Some c =>
          if c_deleted c || negb (link_id c =? lid) then ret (Some "not found")
          else check_bid
            (let live := is_live_promo w (v_now v) l cid c in
            let t := if negb (is_sponsor v) && live then with_start (start_date (the_terms c)) (with_budget (total_budget_pennies (the_terms c)) t) else t in
            match terms_error g v l (Some (c, live, is_complete_promo w (v_now v) l cid c)) count oversold t with
            | Some e => ret (Some e)
            | None =>
                let requires_reapproval := negb (is_sponsor v) && negb (target_eq (t_target (the_terms c)) (t_target t)) in
                (* the edit has no parameter for what is asked for *)
                if requires_reapproval && is_accepted l then lift (Raise TypeError)
                else edit_campaign lid cid (v_user v) (final_terms g by_auction t) ;;; ret None
            end)
      end
  end.

(** What was shown: [update_served]. *)
Definition update_served (cids : list Z) : M unit :=
  mapM_ (fun cid => c <~ get_campaign cid;; when (negb (has_served c)) (change_campaign cid set_has_served)) cids.

(** ** Histories *)

Inductive op :=
  | Submit (lid author : Z) (title : string) (link_is_self : bool) (content : string)
  | EditPromo (v : visitor) (lid : Z) (title : string) (link_is_self : bool) (content : string) (images_changed : bool)
  | EditCampaign (g : limits) (v : visitor) (lid : Z) (old : option Z) (new_id : Z) (by_auction oversold : bool) (t : terms)
  | UpdatePay (v : visitor) (lid cid pay : Z) (oversold : bool)
  | AddPayment (user pay profile : Z)
  | GiveFree (v : visitor) (lid cid : Z) (oversold : bool)
  | Promote (v : visitor) (lid : Z)
  | Unpromote (v : visitor) (lid : Z) (reason : option string)
  | FlagPayment (lid : Z) (reason : string)
  | ReviewFraud (v : visitor) (lid : Z) (is_fraud : bool)
  | RefundCampaign (v : visitor) (lid cid : Z)
  | DeleteCampaign (v : visitor) (lid cid : Z)
  | PauseCampaign (v : visitor) (lid cid : Z) (pause_ads should_pause : bool)
  | TerminateCampaign (v : visitor) (lid cid : Z)
  | DeleteLink (v : visitor) (lid : Z)
  | Served (cids : list Z)
  | Spent (cid n : Z)
  | Spam (lid : Z) (b : bool)
  | Daily (now : Z).

(** New links and campaigns have ids of their own. *)
Definition handle (o : op) : M unit :=
  match o with
  | Submit lid author title s content => guarded (fun w => (0 <? lid) && bool_decide (links w !! lid = None)) (new_promotion lid author title s content)
  | EditPromo v lid title s content images => POST_edit_promo v lid title s content images
  | EditCampaign g v lid old new_id auction oversold t =>
      guarded (fun w => bool_decide (campaigns w !! new_id = None)) (POST_edit_campaign g v lid old new_id auction oversold t ;;; ret tt)
  | UpdatePay v lid cid pay oversold => POST_update_pay v lid cid pay oversold
  | AddPayment user pay profile =>
      modify (fun w => with_pay_ids ({[(user, pay)]} ∪ pay_ids w) (with_customer_ids (<[user := default profile (customer_ids w !! user)]> (customer_ids w)) w))
  | GiveFree v lid cid oversold => POST_freebie v lid cid oversold
  | Promote v lid => POST_promote v lid
  | Unpromote v lid reason => POST_unpromote v lid reason
  | FlagPayment lid reason => flag_payment lid reason
  | ReviewFraud v lid is_fraud => POST_review_fraud v lid is_fraud
  | RefundCampaign v lid cid => POST_refund_campaign v lid cid
  | DeleteCampaign v lid cid => POST_delete_campaign v lid cid
  | PauseCampaign v lid cid pause_ads should_pause => POST_toggle_pause_campaign v lid cid pause_ads should_pause
  | TerminateCampaign v lid cid => POST_terminate_campaign v lid cid
  | DeleteLink v lid => POST_del v lid
  | Served cids => update_served cids
  | Spent cid n => change_campaign cid (set_spent n)
  | Spam lid b => change_link lid (set_spam b)
  | Daily now => make_daily_promotions now
  end.

Definition empty : world := World ∅ ∅ ∅ ∅ ∅ ∅ ∅ ∅ ∅ ∅ [] [] [].

(** What there is after a history, whatever of it raised. *)
Definition run (ops : list op) : world := foldl (fun w o => after (handle o) w) empty ops.
End operations.
End Promote.
