(* ===== verification/PromoteProps.v ===== *)
(** * Promotions: what is shown was accepted

    How statuses move: a promotion is accepted by a sponsor before it goes live,
    and the listings of promotions are those of their statuses. *)

From S2P Require Import Prelude PyString Effects Promote.

Module PromoteProps.
Import PyString Promote.

Section props.
Context `{HO : HashOrder} `{OU : Outside}.

(** ** What leaves links alone *)

Definition same_links (w w' : world) : Prop := links w' = links w /\ listings w' = listings w.

#[export] Instance same_links_preorder : PreOrder same_links.
Proof. split; [done|]. intros w1 w2 w3 [E1 E2] [E3 E4]. split; congruence. Qed.

Lemma steps_reader {A} (R : world -> world -> Prop) `{!PreOrder R} (f : world -> res A) : steps R (fun w => (w, f w)).
Proof. intros w. cbn. reflexivity. Qed.

Lemma steps_guarded (R : world -> world -> Prop) `{!PreOrder R} b m : steps R m -> steps R (guarded b m).
Proof. intros Hm w. unfold guarded, after. destruct (b w); [apply Hm|cbn; reflexivity]. Qed.

End props.

(** Goes through a computation by its parts, to steps that are shown otherwise. *)
Ltac steps_by leaf :=
  try match goal with |- ?R ?w (after ?m ?w) => cut (steps R m); [intros Hsteps; exact (Hsteps w)|] end;
  repeat (cbn zeta; lazymatch goal with
    | |- steps _ (bind _ _) => apply steps_bind; [exact _| |intro]
    | |- steps _ (ret _) => apply steps_ret; exact _
    | |- steps _ (lift _) => apply steps_lift; exact _
    | |- steps _ (ask _) => apply steps_ask; exact _
    | |- steps _ (when _ _) => apply steps_when; [exact _|]
    | |- steps _ (mapM_ _ _) => apply steps_mapM; [exact _|intro]
    | |- steps _ (guarded _ _) => apply steps_guarded; [exact _|]
    | |- steps _ (match ?x with _ => _ end) => destruct x
    | _ => first [leaf | apply steps_reader; exact _]
    end).

Section links.
Context `{HO : HashOrder} `{OU : Outside}.

Lemma bid_new_links trans b cid : steps same_links (bid_new trans b cid).
Proof. intros w. unfold bid_new, after. by destruct (bids w !! _). Qed.

Lemma request_links r : steps same_links (request_service r).
Proof. by intros w. Qed.

Lemma change_bid_links trans cid f : steps same_links (change_bid trans cid f).
Proof. by intros w. Qed.

Lemma change_campaign_links cid f : steps same_links (change_campaign cid f).
Proof. by intros w. Qed.

Lemma add_log_links lid e : steps same_links (add_log lid e).
Proof. by intros w. Qed.

Lemma send_links m : steps same_links (send m).
Proof. by intros w. Qed.

Lemma weights_add_links lid cid t : steps same_links (weights_add lid cid t).
Proof. intros w. unfold weights_add, after. by destruct (bool_decide _). Qed.

Lemma weights_delete_links lid cid : steps same_links (weights_delete lid cid).
Proof. by intros w. Qed.

Lemma update_live_srnames_links now : steps same_links (update_live_srnames now).
Proof. intros w. unfold update_live_srnames, after, bind. by destruct (all_live_promo_srnames now w). Qed.
End links.

Create HintDb links discriminated.
#[export] Hint Resolve bid_new_links request_links change_bid_links change_campaign_links add_log_links send_links weights_add_links weights_delete_links
  update_live_srnames_links : links.

Ltac links_leaf := solve [auto with links nocore | apply steps_modify; intros ?; split; reflexivity].
Ltac links_tac := steps_by links_leaf.

Section keeps_links.
Context `{HO : HashOrder} `{OU : Outside}.

Lemma void_campaign_links lid cid reason : steps same_links (void_campaign lid cid reason).
Proof. unfold void_campaign, void_transaction, bid_one, get_link. links_tac. Qed.

Lemma auth_freebie_links amount user lid cid : steps same_links (auth_freebie_transaction amount user lid cid).
Proof.
  assert (H1 : steps same_links (bid_new (- lid) (new_bid user FREEBIE_PAYMENT_METHOD_ID lid amount) cid ;;; ret (Some (- lid), ""))) by links_tac.
  assert (H2 : steps same_links (change_bid (- lid) cid (auth amount) ;;; ret (Some (- lid), ""))) by links_tac.
  intros w. unfold auth_freebie_transaction, after. destruct (bids w !! _) as [b|]; [destruct (thing_id b =? lid)|]; [apply H2|apply H1..].
Qed.

Lemma auth_transaction_links amount user pay lid cid : steps same_links (auth_transaction amount user pay lid cid).
Proof. unfold auth_transaction. links_tac. Qed.

Lemma charge_transaction_links user trans cid : steps same_links (charge_transaction user trans cid).
Proof. unfold charge_transaction, bid_one. links_tac. Qed.

Lemma refund_campaign_links lid cid amount billable : steps same_links (refund_campaign lid cid amount billable).
Proof. unfold refund_campaign, refund_transaction, bid_one, get_campaign. links_tac. Qed.

Lemma finalize_links now d : steps same_links (finalize_completed_campaigns now d).
Proof. unfold finalize_completed_campaigns, finalize_campaign, get_campaign. links_tac. Qed.
End keeps_links.

#[export] Hint Resolve void_campaign_links auth_freebie_links auth_transaction_links charge_transaction_links refund_campaign_links finalize_links : links.

Section accepted.
Context `{HO : HashOrder} {HL : HashOrderLaws} `{OU : Outside}.

(** ** Accepted promotions *)

Definition acc (w : world) (lid : Z) : bool := link_test is_accepted lid w.

(** Nothing is accepted that was not, but for the links of a set. *)
Definition no_more (X : Z -> Prop) (w w' : world) : Prop := forall k, ~ X k -> acc w' k = true -> acc w k = true.

Notation nobody := (fun _ : Z => False).

#[export] Instance no_more_preorder X : PreOrder (no_more X).
Proof. split; [by intros w k|]. intros w1 w2 w3 H1 H2 k Hk Hk'. apply H1; [done|]. by apply H2. Qed.

Lemma same_links_acc w w' k : same_links w w' -> acc w' k = acc w k.
Proof. intros [E _]. unfold acc, link_test. by rewrite E. Qed.

Lemma same_links_no_more X w w' : same_links w w' -> no_more X w w'.
Proof. intros E k _. by rewrite (same_links_acc w w'). Qed.

Lemma steps_links {A} X (m : effect world A) : steps same_links m -> steps (no_more X) m.
Proof. intros Hm w. by apply same_links_no_more, Hm. Qed.

(** Changes that keep what acceptance is about. *)
Lemma change_link_no_more X lid f : (forall l, is_accepted (f l) = true -> is_accepted l = true) -> steps (no_more X) (change_link lid f).
Proof.
  intros Hf w k _. unfold acc, link_test, change_link, after. cbn. destruct (decide (k = lid)) as [-> | Hk].
  - rewrite lookup_alter_eq. destruct (links w !! lid); [apply Hf|done].
  - by rewrite lookup_alter_ne.
Qed.

(** What a new status makes of a link. *)
Lemma update_links lid s w :
  links (after (update_promote_status lid s) w) = match links w !! lid with Some _ => alter (set_status s) lid (links w) | None => links w end.
Proof. unfold update_promote_status, after, get_link, bind. cbn. by destruct (links w !! lid). Qed.

Lemma acc_set_status s l : is_accepted (set_status s l) = negb (l_deleted l) && is_promotion l && (negb (s =? rejected) && negb (s =? edited_live) && (accepted <=? s)).
Proof. unfold is_accepted, is_promo. cbn. by rewrite andb_true_r. Qed.

(** A status may make a link accepted if it was, or if it is one of those. *)
Definition may_accept (X : Z -> Prop) (lid s : Z) (w : world) : Prop :=
  forall l, links w !! lid = Some l -> is_accepted (set_status s l) = true -> X lid \/ is_accepted l = true.

Lemma update_no_more (X : Z -> Prop) lid s w : may_accept X lid s w -> no_more X w (after (update_promote_status lid s) w).
Proof.
  intros Hs k Hk. unfold acc at 1, link_test. rewrite update_links. destruct (links w !! lid) as [l|] eqn:El; [|done].
  destruct (decide (k = lid)) as [-> | Hne]; [|by rewrite lookup_alter_ne].
  rewrite lookup_alter_eq, El. cbn. intros Ha. unfold acc, link_test. rewrite El. by destruct (Hs l El Ha).
Qed.

(** Another status that is as good. *)
Lemma update_acc lid s w k : negb (s =? rejected) && negb (s =? edited_live) && (accepted <=? s) = true -> acc w k = true -> acc (after (update_promote_status lid s) w) k = true.
Proof.
  intros Hs. unfold acc, link_test. rewrite update_links. destruct (links w !! lid) as [l|] eqn:El; [|done].
  destruct (decide (k = lid)) as [-> | Hne]; [|by rewrite lookup_alter_ne]. rewrite lookup_alter_eq, El. cbn. rewrite acc_set_status, Hs.
  unfold is_accepted, is_promo. rewrite andb_true_r. by intros [[[-> ->]%andb_true_iff _]%andb_true_iff _]%andb_true_iff.
Qed.

(** A triple about what is accepted, from a world on. *)
Notation keeping X w0 P := (fun w : world => no_more X w0 w /\ P w).
Notation T := (fun _ : world => True).

Lemma t_same_links {A} X w0 (P : world -> Prop) (m : effect world A) : steps same_links m -> (forall w w', same_links w w' -> P w -> P w') ->
  triple (keeping X w0 P) m (fun _ => keeping X w0 P) (no_more X w0).
Proof.
  intros Hm HP. eapply t_conseq; [apply (t_steps same_links m (keeping X w0 P) Hm)|done|done|by intros w []].
  intros w w' Hs [H1 H2]. split; [|by eapply HP]. etransitivity; [exact H1|]. by apply same_links_no_more.
Qed.

Lemma t_get_link X w0 P lid : triple (keeping X w0 P) (get_link lid) (fun l w => no_more X w0 w /\ P w /\ links w !! lid = Some l) (no_more X w0).
Proof. intros w [H1 H2]. unfold get_link. cbn. by destruct (links w !! lid) eqn:E. Qed.

Lemma t_update X w0 (P : world -> Prop) lid s : (forall w, P w -> may_accept X lid s w) ->
  triple (keeping X w0 P) (update_promote_status lid s) (fun _ => no_more X w0) (no_more X w0).
Proof.
  intros Hs. assert (Hall : forall w, keeping X w0 P w -> no_more X w0 (after (update_promote_status lid s) w)).
  { intros w [H1 H2]. etransitivity; [exact H1|]. apply update_no_more. auto. }
  intros w Hw. specialize (Hall w Hw). unfold after in Hall. by destruct (update_promote_status lid s w).2.
Qed.

Lemma t_acc_links X w0 lid {A} (m : effect world A) : steps same_links m ->
  triple (keeping X w0 (fun w => acc w lid = true)) m (fun _ => keeping X w0 (fun w => acc w lid = true)) (no_more X w0).
Proof. intros Hm. apply t_same_links; [done|]. intros w w' Hs <-. by apply same_links_acc. Qed.

(** Steps that leave links alone, one after the other. *)
Lemma t_links X w0 {A} (m : effect world A) : steps same_links m -> triple (no_more X w0) m (fun _ => no_more X w0) (no_more X w0).
Proof. intros Hm. apply (t_steps same_links); [done|]. intros w w' Hs H. etransitivity; [exact H|]. by apply same_links_no_more. Qed.

Lemma steps_triple X {A} (m : effect world A) : (forall w0, triple (no_more X w0) m (fun _ => no_more X w0) (no_more X w0)) -> steps (no_more X) m.
Proof. intros Hm w. apply (t_after (no_more X w) m (no_more X w) w (Hm w)). reflexivity. Qed.

Lemma triple_steps X {A} (m : effect world A) w0 : steps (no_more X) m -> triple (no_more X w0) m (fun _ => no_more X w0) (no_more X w0).
Proof. intros Hm. apply (t_steps (no_more X)); [done|]. intros w w' H1 H2. by etransitivity. Qed.

(** ** What is accepted stays so *)

Definition same_acc (w w' : world) : Prop := forall k, acc w' k = acc w k.

#[export] Instance same_acc_preorder : PreOrder same_acc.
Proof. split; [by intros w k|]. intros w1 w2 w3 H1 H2 k. by rewrite H2. Qed.

Lemma steps_links_acc {A} (m : effect world A) : steps same_links m -> steps same_acc m.
Proof. intros Hm w k. by apply same_links_acc, Hm. Qed.

Lemma steps_same X {A} (m : effect world A) : steps same_acc m -> steps (no_more X) m.
Proof. intros Hm w k _. by rewrite (Hm w k). Qed.

Lemma change_link_acc lid f : (forall l, is_accepted (f l) = is_accepted l) -> steps same_acc (change_link lid f).
Proof.
  intros Hf w k. unfold acc, link_test, change_link, after. cbn. destruct (decide (k = lid)) as [-> | Hk]; [rewrite lookup_alter_eq|by rewrite lookup_alter_ne].
  destruct (links w !! lid); [apply Hf|done].
Qed.

Lemma update_same_acc lid s w : (forall l, links w !! lid = Some l -> is_accepted (set_status s l) = is_accepted l) -> same_acc w (after (update_promote_status lid s) w).
Proof.
  intros Hs k. unfold acc, link_test. rewrite update_links. destruct (links w !! lid) as [l|] eqn:El; [|done].
  destruct (decide (k = lid)) as [-> | Hne]; [rewrite lookup_alter_eq, El; by apply Hs|by rewrite lookup_alter_ne].
Qed.

Lemma after_get_link {A} lid (k : link -> effect world A) w : after (bind (get_link lid) k) w = match links w !! lid with Some l => after (k l) w | None => w end.
Proof. unfold after, bind, get_link. by destruct (links w !! lid). Qed.

(** Paying accepts nothing: a link that is finished is accepted again. *)
Lemma auth_campaign_acc lid cid user pay : steps same_acc (auth_campaign lid cid user pay).
Proof.
  apply steps_bind; [exact _|by apply steps_links_acc, void_campaign_links|intros _].
  apply steps_bind; [exact _|by apply steps_links_acc; unfold get_campaign; links_tac|intros c]. cbn zeta.
  apply steps_bind; [exact _|apply steps_links_acc; destruct pay; auto with links|intros r].
  apply steps_bind; [exact _| |intros _; apply steps_links_acc; links_tac].
  destruct (negb _ && _); [|apply steps_links_acc; links_tac].
  apply steps_bind; [exact _|apply steps_links_acc; links_tac|intros _].
  apply steps_bind; [exact _|apply steps_links_acc; links_tac|intros _].
  intros w. rewrite after_get_link. destruct (links w !! lid) as [l|] eqn:El; [|reflexivity].
  apply after_bind; [exact _| |intros [] _; apply steps_links_acc; links_tac].
  apply update_same_acc. rewrite El. intros l' [= <-]. rewrite acc_set_status. unfold is_finished, has_status, is_accepted, is_promo.
  destruct (negb (l_deleted l) && is_promotion l); [|done]. destruct (promote_status l) as [s|]; cbn; [|done].
  case_bool_decide as Hf; cbn; [by injection Hf as ->|]. unfold unseen, rejected, edited_live, accepted.
  destruct (Z.le_gt_cases s 1); [rewrite Z.max_l by lia; assert (E : (2 <=? s) = false) by (apply Z.leb_gt; lia); rewrite E, !andb_false_r; done|by rewrite Z.max_r by lia].
Qed.

(** A link that may be accepted. *)
Notation fit X lid := (fun w : world => X lid \/ acc w lid = true).

Lemma fit_may X lid s w : X lid \/ acc w lid = true -> may_accept X lid s w.
Proof. intros [HX | Ha] l El Hs; [by left|right]. unfold acc, link_test in Ha. by rewrite El in Ha. Qed.

Lemma t_fit_links (X : Z -> Prop) w0 lid {A} (m : effect world A) : steps same_links m ->
  triple (keeping X w0 (fit X lid)) m (fun _ => keeping X w0 (fit X lid)) (no_more X w0).
Proof. intros Hm. apply t_same_links; [done|]. intros w w' Hs [? | Ha]; [by left|right]. by rewrite (same_links_acc w w'). Qed.

Lemma t_fit_acc (X : Z -> Prop) w0 lid {A} (m : effect world A) : steps same_acc m ->
  triple (keeping X w0 (fit X lid)) m (fun _ => keeping X w0 (fit X lid)) (no_more X w0).
Proof.
  intros Hm. eapply t_conseq; [apply (t_steps same_acc m (keeping X w0 (fit X lid)) Hm)|done|done|by intros w []].
  intros w w' Hs [H1 H2]. split; [|by rewrite (Hs lid)]. etransitivity; [exact H1|]. intros k _. by rewrite (Hs k).
Qed.

Lemma t_update_fit (X : Z -> Prop) w0 lid s : triple (keeping X w0 (fit X lid)) (update_promote_status lid s) (fun _ => no_more X w0) (no_more X w0).
Proof. apply t_update. intros w. apply fit_may. Qed.

Lemma t_forget (X : Z -> Prop) w0 (P : world -> Prop) {A} (m : effect world A) : steps (no_more X) m -> triple (keeping X w0 P) m (fun _ => no_more X w0) (no_more X w0).
Proof. intros Hm. eapply t_pre; [by apply triple_steps|]. by intros w []. Qed.

Lemma charge_campaign_acc X w0 lid cid : triple (keeping X w0 (fit X lid)) (charge_campaign lid cid) (fun _ => no_more X w0) (no_more X w0).
Proof.
  unfold charge_campaign. eapply t_bind; [apply t_fit_links; unfold get_campaign; links_tac|intros c]. cbn beta.
  eapply t_bind; [apply t_fit_links; links_tac|intros w']. cbn beta. destruct (charged_or_not_needed w' cid c); [by apply t_ret; intros w []|].
  eapply t_bind; [apply t_fit_links; unfold get_link; links_tac|intros l]. cbn beta.
  eapply t_bind; [apply t_fit_links, charge_transaction_links|intros r]. cbn beta. destruct (negb r.1); [apply t_forget, steps_links; links_tac|].
  apply (t_bind _ _ _ (fun _ => no_more X w0)); [|intros _; apply t_links; links_tac].
  apply t_when; [intros _; apply t_update_fit|by intros _ w []].
Qed.

Lemma promote_link_acc X w0 lid cid : triple (keeping X w0 (fit X lid)) (promote_link lid cid) (fun _ => no_more X w0) (no_more X w0).
Proof.
  unfold promote_link. eapply t_bind; [apply t_fit_links; unfold get_link; links_tac|intros l]. cbn beta.
  eapply t_bind; [apply t_fit_links; unfold get_campaign; links_tac|intros c]. cbn beta.
  apply (t_bind _ _ _ (fun _ => keeping X w0 (fit X lid))).
  - apply t_when; [intros _|by intros _ w]. intros w [H1 H2]. unfold change_link. cbn.
    assert (Hacc : forall k, acc (with_links (alter set_over_18 lid (links w)) w) k = acc w k).
    { intros k. unfold acc, link_test. cbn. destruct (decide (k = lid)) as [-> |]; [rewrite lookup_alter_eq; by destruct (links w !! lid)|by rewrite lookup_alter_ne]. }
    split; [|by rewrite Hacc]. intros k Hk. rewrite Hacc. by apply H1.
  - intros _. apply t_when; [intros _|by intros _ w []]. apply (t_bind _ _ _ (fun _ => no_more X w0)); [apply t_update_fit|]. intros _. apply t_links; links_tac.
Qed.

(** Accepting a link accepts no other. *)
Lemma accept_promotion_acc now lid : steps (no_more (eq lid)) (accept_promotion now lid).
Proof.
  apply steps_triple. intros w0. unfold accept_promotion.
  assert (Hfit : forall w, no_more (eq lid) w0 w -> keeping (eq lid) w0 (fit (eq lid) lid) w) by (intros w H; split; [done|by left]).
  apply t_seq; [apply t_links; unfold get_link; links_tac|intros l].
  apply t_seq; [eapply t_pre; [apply t_update_fit|done]|intros _].
  apply t_seq; [apply triple_steps, steps_when; [exact _|]; apply change_link_no_more; done|intros _].
  apply t_seq; [apply t_links; links_tac|intros _].
  apply t_seq; [apply t_links; links_tac|intros cids].
  apply t_seq; [|intros b; apply t_links; links_tac].
  induction cids as [|cid cids IH]; [by apply t_ret|]. cbn [any_live].
  apply (t_bind _ _ _ (fun _ => no_more (eq lid) w0)).
  - unfold accept_running. apply t_seq; [apply t_links; unfold get_link; links_tac|intros l'].
    apply t_seq; [apply t_links; unfold get_campaign; links_tac|intros c].
    destruct (is_accepted_promo _ l' c); [|by apply t_ret].
    apply t_seq; [apply t_when; [intros _; eapply t_pre; [apply charge_campaign_acc|done]|done]|intros _].
    apply t_seq; [apply t_links; unfold get_campaign; links_tac|intros c'].
    apply t_seq; [apply t_links; links_tac|intros w'].
    destruct (charged_or_not_needed w' cid c'); [|by apply t_ret].
    apply t_seq; [eapply t_pre; [apply promote_link_acc|done]|intros _]. by apply t_ret.
  - intros b. apply t_seq; [exact IH|intros b']. by apply t_ret.
Qed.

Lemma update_bad lid s : negb (s =? rejected) && negb (s =? edited_live) && (accepted <=? s) = false -> steps (no_more nobody) (update_promote_status lid s).
Proof. intros Hs w. apply update_no_more. intros l _. rewrite acc_set_status, Hs. by rewrite andb_false_r. Qed.

Ltac same_acc_tac := steps_by ltac:(idtac; solve [apply steps_links_acc; links_leaf | apply auth_campaign_acc | by apply change_link_acc]).

Lemma new_campaign_acc lid cid user t : steps same_acc (new_campaign lid cid user t).
Proof. unfold new_campaign, maybe_free, free_campaign, get_link, get_campaign. same_acc_tac. Qed.

Lemma edit_campaign_acc lid cid user t : steps same_acc (edit_campaign lid cid user t).
Proof. unfold edit_campaign, reschedule, maybe_free, free_campaign, get_link, get_campaign. same_acc_tac. Qed.

Lemma delete_campaign_acc lid cid : steps same_acc (delete_campaign lid cid).
Proof. unfold delete_campaign. same_acc_tac. Qed.

Ltac acc_tac := steps_by ltac:(idtac; solve [apply steps_links; links_leaf | by apply update_bad | apply steps_same; auto using auth_campaign_acc, new_campaign_acc, edit_campaign_acc, delete_campaign_acc | by apply change_link_no_more]).

Lemma reject_acc now lid user reason why : steps (no_more nobody) (reject_promotion now lid user reason why).
Proof. unfold reject_promotion, get_link. acc_tac. Qed.

(** A link that was live was accepted. *)
Lemma promoted_acc w lid : link_test is_promoted lid w = true -> acc w lid = true.
Proof.
  unfold acc, link_test. destruct (links w !! lid) as [l|]; [|done]. unfold is_promoted, has_status, is_accepted. intros [-> Hs%bool_decide_eq_true]%andb_true_iff. by rewrite Hs.
Qed.

Lemma t_read {A} (f : world -> A) (I : world -> Prop) E : triple I (ask f) (fun a w => I w /\ a = f w) E.
Proof. by apply t_ask. Qed.

Lemma is_live_acc w now lid cid c l : links w !! lid = Some l -> is_live_promo w now l cid c = true -> acc w lid = true.
Proof. intros El [Hp _]%andb_true_iff. apply promoted_acc. unfold link_test. by rewrite El. Qed.

Lemma terminate_acc now lid cid user : steps (no_more nobody) (terminate_campaign now lid cid user).
Proof.
  intros w. unfold terminate_campaign. apply after_bind; [exact _|by apply steps_links; unfold get_campaign; links_tac|]. intros c Ec.
  assert (E : after (get_campaign cid) w = w) by (unfold after, get_campaign; by destruct (campaigns w !! cid)). rewrite E. clear E.
  rewrite after_get_link. destruct (links w !! lid) as [l|] eqn:El; [|reflexivity].
  change (no_more nobody w (after (if negb (is_live_promo w now l cid c) then ret tt else
    edit_campaign lid cid user (terminated_terms now (the_terms c)) ;;; w' <~ ask (fun w => w);;
    let others := List.filter (fun c' => negb (c' =? cid)) (campaigns_of_link lid w') in
    when (negb (existsb (fun c' => test_pair (fun w => is_live_promo w now) w' (c', lid)) others)) (update_promote_status lid finished ;;; update_live_srnames now) ;;;
    add_log lid (Terminated cid (to_date (end_date (the_terms c))))) w)).
  destruct (is_live_promo w now l cid c) eqn:Hlive; [|reflexivity]. pose proof (is_live_acc w now lid cid c l El Hlive) as Ha. cbn [negb].
  apply (t_after (keeping nobody w (fit nobody lid)) _ (no_more nobody w)); [|by split; [reflexivity|right]].
  eapply t_bind; [apply (t_fit_acc nobody w lid), edit_campaign_acc|intros []]. cbn beta.
  eapply t_bind; [apply (t_fit_links nobody w lid); links_tac|intros w']. cbn beta zeta.
  apply (t_bind _ _ _ (fun _ => no_more nobody w)); [|intros _; apply t_links; links_tac].
  apply t_when; [intros _|by intros _ w1 []]. apply (t_bind _ _ _ (fun _ => no_more nobody w)); [apply (t_update_fit nobody w lid)|intros _; apply t_links; links_tac].
Qed.

(** ** The daily job *)

Lemma test_pair_acc f w cl : test_pair f w cl = true -> (forall l c, f w l cl.1 c = true -> is_accepted l = true) -> acc w cl.2 = true.
Proof. unfold test_pair, acc, link_test. intros Ht Hf. destruct (campaigns w !! cl.1); [|done]. destruct (links w !! cl.2); [by eapply Hf|done]. Qed.

Lemma charge_pending_acc now offset : steps (no_more nobody) (charge_pending now offset).
Proof.
  apply steps_bind; [exact _|apply steps_reader; exact _|intros promos]. apply steps_mapM; [exact _|]. intros cl.
  apply steps_triple. intros w0. eapply t_bind; [apply t_read|]. intros w'. cbn beta.
  apply t_when; [|by intros _ w []]. intros Ht. eapply t_pre; [apply (charge_campaign_acc nobody w0)|]. intros w [H1 ->]. split; [done|right].
  apply (test_pair_acc _ _ _ Ht). intros l c. unfold is_accepted_promo. by intros [[_ ->]%andb_true_iff _]%andb_true_iff.
Qed.

Lemma promote_each_acc date promos ids : steps (no_more nobody) (promote_each date promos ids).
Proof.
  revert ids. induction promos as [|cl promos IH]; intros ids; [apply steps_ret; exact _|].
  apply steps_triple. intros w0. cbn [promote_each]. eapply t_bind; [apply t_read|]. intros w'. cbn beta.
  destruct (test_pair _ w' cl) eqn:Ht; [|eapply t_pre; [by apply triple_steps|]; by intros w []].
  apply (t_bind _ _ _ (fun _ => no_more nobody w0)); [|intros _; by apply triple_steps].
  eapply t_pre; [apply (promote_link_acc nobody w0)|]. intros w [H1 ->]. split; [done|right]. apply (test_pair_acc _ _ _ Ht).
  intros l c. unfold is_scheduled_promo, is_accepted_promo. by intros [[[_ ->]%andb_true_iff _]%andb_true_iff _]%andb_true_iff.
Qed.

Lemma may_accept_after X k lid s w : may_accept X k s w -> may_accept X k s (after (update_promote_status lid s) w).
Proof.
  intros Hk l. rewrite update_links. destruct (links w !! lid) as [l'|] eqn:El; [|apply Hk]. destruct (decide (k = lid)) as [-> | Hne].
  - rewrite lookup_alter_eq, El. intros [= <-] Ha. right. by rewrite acc_set_status in *.
  - rewrite lookup_alter_ne by done. apply Hk.
Qed.

Lemma expire_acc q w0 : triple (keeping nobody w0 (fun w => forall k, k ∈ q -> may_accept nobody k finished w))
  (mapM_ (fun lid => update_promote_status lid finished ;;; send (FinishedPromo lid)) q) (fun _ => no_more nobody w0) (no_more nobody w0).
Proof.
  induction q as [|lid q IH]; [apply t_ret; by intros w []|]. cbn [mapM_]. apply (t_bind _ _ _ (fun _ => keeping nobody w0 (fun w => forall k, k ∈ q -> may_accept nobody k finished w))); [|intros []; apply IH].
  eapply (t_bind _ _ _ (fun _ => keeping nobody w0 (fun w => forall k, k ∈ q -> may_accept nobody k finished w))).
  - intros w [H1 H2]. assert (Hgoal : keeping nobody w0 (fun w => forall k, k ∈ q -> may_accept nobody k finished w) (after (update_promote_status lid finished) w)).
    { split; [etransitivity; [exact H1|]; apply update_no_more, H2; by left|]. intros k Hk. apply may_accept_after, H2. by right. }
    unfold after in Hgoal. destruct (update_promote_status lid finished w).2; tauto.
  - intros _. apply t_modify. by intros w.
Qed.

Lemma go_live_acc now : steps (no_more nobody) (go_live now).
Proof.
  unfold go_live. apply steps_bind; [exact _|apply charge_pending_acc|intros _]. apply steps_bind; [exact _|apply charge_pending_acc|intros _]. cbn zeta.
  apply steps_bind; [exact _|apply steps_reader; exact _|intros promos]. apply steps_bind; [exact _|apply promote_each_acc|intros ids].
  apply steps_triple. intros w0. eapply t_bind; [apply t_read|]. intros q. cbn beta.
  apply (t_bind _ _ _ (fun _ => no_more nobody w0)); [|intros _; apply t_links; links_tac]. eapply t_pre; [apply expire_acc|].
  intros w [H1 ->]. split; [done|]. intros k Hk l El Ha. right. unfold expired_links in Hk. rewrite dict_order_perm in Hk.
  apply list_elem_of_fmap in Hk as ([k' l'] & -> & Hin). apply elem_of_map_to_list, map_lookup_filter_Some in Hin as [El' [Hs _]].
  cbn in *. rewrite El in El'. injection El' as <-. rewrite acc_set_status in Ha. apply andb_true_iff in Ha as [Hd _].
  unfold is_accepted, is_promo. by rewrite Hd, Hs.
Qed.

(** ** Every request *)

(** Links that a request accepts. *)
Definition accepts (o : op) (k : Z) : Prop := exists v, o = Promote v k /\ is_sponsor v = true.

Definition accepts_b (o : op) (k : Z) : bool := match o with Promote v lid => (lid =? k) && is_sponsor v | _ => false end.

Lemma steps_weaken (X Y : Z -> Prop) {A} (m : effect world A) : (forall k, X k -> Y k) -> steps (no_more X) m -> steps (no_more Y) m.
Proof. intros HXY Hm w k Hk. apply Hm. auto. Qed.

Lemma guarded_acc X b m : (forall w, b w = true -> no_more X w (after m w)) -> steps (no_more X) (guarded b m).
Proof. intros Hm w. unfold guarded, after in *. destruct (b w) eqn:E; [by apply Hm|]. cbn. by intros k _. Qed.

Ltac handle_tac := steps_by ltac:(idtac; solve [apply steps_links; links_leaf | by apply update_bad | apply steps_same; auto using auth_campaign_acc, new_campaign_acc, edit_campaign_acc, delete_campaign_acc
  | by apply change_link_no_more | apply reject_acc | apply terminate_acc | apply go_live_acc ]).

Lemma new_promotion_acc lid author title s content w : links w !! lid = None -> no_more nobody w (after (new_promotion lid author title s content) w).
Proof.
  intros El. unfold new_promotion. apply after_bind; [exact _| |intros [] _; handle_tac].
  intros k _. unfold acc, link_test, after. cbn. destruct (decide (k = lid)) as [-> | Hne]; [by rewrite lookup_insert_eq|by rewrite lookup_insert_ne].
Qed.

Lemma handle_acc o : steps (no_more (accepts o)) (handle o).
Proof.
  destruct o; lazymatch goal with |- steps _ (handle (Promote _ _)) => idtac | _ => apply (steps_weaken nobody); [done|] end; cbn [handle].
  - apply guarded_acc. intros w [_ El%bool_decide_eq_true]%andb_true_iff. by apply new_promotion_acc.
  - unfold POST_edit_promo, edited_live_promotion, get_link. handle_tac.
  - unfold POST_edit_campaign, get_link. handle_tac.
  - unfold POST_update_pay, get_link, get_campaign. handle_tac.
  - handle_tac.
  - unfold POST_freebie, free_campaign. handle_tac.
  - unfold POST_promote. apply guarded_acc. intros w [Hv _]%andb_true_iff. apply (steps_weaken (eq lid)); [|apply accept_promotion_acc]. intros k <-. by exists v.
  - unfold POST_unpromote. handle_tac.
  - unfold flag_payment, get_link. handle_tac.
  - unfold POST_review_fraud, review_fraud. handle_tac.
  - unfold POST_refund_campaign, get_campaign. handle_tac.
  - unfold POST_delete_campaign. handle_tac.
  - unfold POST_toggle_pause_campaign, toggle_pause_campaign, get_campaign. handle_tac.
  - unfold POST_terminate_campaign. handle_tac.
  - unfold POST_del, get_link. handle_tac.
  - unfold update_served, get_campaign. handle_tac.
  - handle_tac.
  - handle_tac.
  - unfold make_daily_promotions. handle_tac.
Qed.

(** ** What takes acceptance back *)

(** A sponsor rejects the promotion or finds a fraud; its author deletes it, or
    edits what is shown while it is live. *)
Definition revokes (o : op) (w : world) (k : Z) : bool :=
  match o with
  | Unpromote v lid _ => (lid =? k) && is_sponsor v && link_test is_promo lid w
  | ReviewFraud v lid is_fraud => (lid =? k) && is_sponsor v && is_fraud && link_test is_promotion lid w
  | DeleteLink v lid => (lid =? k) && link_test (fun l => author_id l =? v_user v) lid w
  | EditPromo v lid title s content images =>
      (lid =? k) && negb (is_sponsor v) && link_test (fun l => own v l && is_promoted l && promo_changed title s content images l) lid w
  | _ => false
  end.

Lemma no_more_false w w' k : no_more nobody w w' -> acc w k = false -> acc w' k = false.
Proof. intros H Ha. destruct (acc w' k) eqn:E; [|done]. by rewrite (H k (fun f => f) E) in Ha. Qed.

Notation barred k := (fun w : world => acc w k = false).

Lemma t_barred {A} k (m : effect world A) : steps (no_more nobody) m -> triple (barred k) m (fun _ => barred k) (barred k).
Proof. intros Hm. apply (t_steps (no_more nobody)); [done|]. intros w w'. apply no_more_false. Qed.

Lemma t_bar k s : negb (s =? rejected) && negb (s =? edited_live) && (accepted <=? s) = false ->
  triple (fun w => is_Some (links w !! k)) (update_promote_status k s) (fun _ => barred k) (barred k).
Proof.
  intros Hs w [l El]. assert (Hgoal : acc (after (update_promote_status k s) w) k = false).
  { unfold acc, link_test. rewrite update_links, El, lookup_alter_eq, El. cbn. by rewrite acc_set_status, Hs, andb_false_r. }
  unfold after in Hgoal. by destruct (update_promote_status k s w).2.
Qed.

Lemma reject_bars now k user reason why w : is_Some (links w !! k) -> acc (after (reject_promotion now k user reason why) w) k = false.
Proof.
  intros [l El]. unfold reject_promotion. rewrite after_get_link, El. destruct (is_rejected l) eqn:Hr.
  - unfold after, ret. cbn. unfold acc, link_test. rewrite El. apply andb_true_iff in Hr as [_ Hr%bool_decide_eq_true]. unfold is_accepted. rewrite Hr. apply andb_false_r.
  - apply (t_after (fun w => is_Some (links w !! k)) _ (barred k)); [|by exists l]. eapply t_bind; [by apply t_bar|intros []]. apply t_barred.
    destruct reason; handle_tac.
Qed.

Lemma after_guarded b (m : effect world unit) w : b w = true -> after (guarded b m) w = after m w.
Proof. unfold after, guarded. by intros ->. Qed.

Lemma link_test_in f k w : link_test f k w = true -> exists l, links w !! k = Some l /\ f l = true.
Proof. unfold link_test. destruct (links w !! k) as [l|]; [|done]. by exists l. Qed.

Lemma in_link_test f k w l : links w !! k = Some l -> f l = true -> link_test f k w = true.
Proof. unfold link_test. by intros ->. Qed.

Lemma revokes_bars o w k : revokes o w k = true -> acc (after (handle o) w) k = false.
Proof.
  destruct o; cbn [revokes handle]; try done.
  - intros [[->%Z.eqb_eq Hv]%andb_true_iff (l & El & [[Ho Hp]%andb_true_iff Hc]%andb_true_iff)%link_test_in]%andb_true_iff.
    assert (Hpr : is_promo l = true) by (by apply andb_true_iff in Hp as [? _]). unfold POST_edit_promo. rewrite after_guarded by (apply (in_link_test _ _ _ l El); by rewrite Ho, Hpr).
    rewrite after_get_link, El, Hc, Hv, Hp. cbn [andb when]. apply (t_after (fun w => is_Some (links w !! k)) _ (barred k)); [|by exists l].
    eapply (t_bind _ _ _ (fun _ w => is_Some (links w !! k))).
    + apply t_modify. intros w1 [l1 E1]. cbn. rewrite lookup_alter_eq, E1. by eexists.
    + intros []. unfold edited_live_promotion. eapply t_bind; [by apply t_bar|intros []]. apply t_barred. handle_tac.
  - intros [[->%Z.eqb_eq Hv]%andb_true_iff Ht]%andb_true_iff. unfold POST_unpromote. rewrite after_guarded by by rewrite Hv, Ht.
    apply link_test_in in Ht as (l & El & _). by apply reject_bars.
  - intros [[[->%Z.eqb_eq Hv]%andb_true_iff ->]%andb_true_iff Ht]%andb_true_iff. unfold POST_review_fraud. rewrite after_guarded by by rewrite Hv, Ht.
    apply link_test_in in Ht as (l & El & _). unfold review_fraud.
    apply (t_after (fun w => is_Some (links w !! k)) _ (barred k)); [|by exists l].
    assert (Hmod : forall f, (forall w, is_Some (links w !! k) -> is_Some (links (f w) !! k)) -> triple (fun w => is_Some (links w !! k)) (modify f) (fun _ w => is_Some (links w !! k)) (barred k))
      by (intros f Hf; by apply t_modify).
    apply t_seq; [apply Hmod; intros w1 [l1 E1]; cbn; rewrite lookup_alter_eq, E1; by eexists|intros _].
    apply t_seq; [by apply Hmod|intros _]. apply t_seq; [by apply Hmod|intros _]. intros w1 H1. pose proof (reject_bars (v_now v) k (Some (v_user v)) (Some "fraud") false w1 H1) as Hr.
    unfold after in Hr. cbn [when]. by destruct (reject_promotion _ _ _ _ _ w1).2.
  - intros [->%Z.eqb_eq Ht]%andb_true_iff. unfold POST_del. rewrite after_guarded by done. apply link_test_in in Ht as (l & El & _).
    apply (t_after (fun w => is_Some (links w !! k)) _ (barred k)); [|by exists l]. apply (t_bind _ _ _ (fun _ => barred k)).
    + apply t_modify. intros w1 [l1 E1]. unfold acc, link_test. cbn. by rewrite lookup_alter_eq, E1.
    + intros _. apply t_barred. unfold get_link. handle_tac.
Qed.

(** ** Histories *)

(** The last review of the link in a history: accepted by a sponsor, and nothing
    took it back. *)
Definition reviewed (ops : list op) (k : Z) : Prop :=
  exists before v later, ops = before ++ Promote v k :: later /\ is_sponsor v = true /\
    forall l1 o l2, later = l1 ++ o :: l2 -> revokes o (run (before ++ Promote v k :: l1)) k = false.

Lemma run_snoc ops o : run (ops ++ [o]) = after (handle o) (run ops).
Proof. unfold run. by rewrite foldl_snoc. Qed.

Lemma acc_reviewed ops k : acc (run ops) k = true -> reviewed ops k.
Proof.
  induction ops as [|o ops IH] using rev_ind; [done|]. rewrite run_snoc. intros Ha.
  destruct (decide (accepts_b o k)) as [Ho | Ho].
  - destruct o; cbn in Ho; try done. apply andb_prop_elim in Ho as [Hk Hv]. apply Is_true_true, Z.eqb_eq in Hk as ->. exists ops, v, []. split_and!; [done|by apply Is_true_true|].
    intros l1 o l2 E. by destruct l1.
  - assert (Hb : acc (run ops) k = true).
    { apply (handle_acc o); [|done]. intros (v & -> & Hv). apply Ho. cbn. by rewrite Hv, Z.eqb_refl. }
    destruct (IH Hb) as (before & v & later & -> & Hv & Hl). exists before, v, (later ++ [o]). split_and!; [by rewrite <- app_assoc|done|].
    intros l1 o' l2 E. destruct l2 as [|o2 l2 _] using rev_ind.
    + apply app_inj_tail in E as [<- <-]. destruct (revokes o _ k) eqn:Hr; [|done]. apply revokes_bars in Hr. congruence.
    + rewrite app_comm_cons, app_assoc in E. apply app_inj_tail in E as [-> _]. by apply (Hl l1 o' l2).
Qed.

(** C11. A promotion is live only after a sponsor has accepted it, and since the
    last time one did, none has rejected it or found it a fraud, and its author
    has not deleted it or, while it was live, edited its title, address, kind
    or images; paying, charging, editing campaigns and the daily job never
    stand in for a review.  What sponsors edit and the text of a post that
    stays one take nothing back. *)
Theorem live_only_accepted ops lid l : links (run ops) !! lid = Some l -> is_promoted l = true -> reviewed ops lid.
Proof. intros El Hp. apply acc_reviewed, promoted_acc. unfold link_test. by rewrite El. Qed.
End accepted.
End PromoteProps.
