(* ===== verification/PromoteListings.v ===== *)
(** * Promotions: listings are queries

    [set_promote_status] moves a link between twelve listings by hand; each of
    them is at all times what its query over the links says. *)

From S2P Require Import Prelude PyString Effects Promote PromoteProps.

Module PromoteListings.
Import PyString Promote PromoteProps.

(** What [_promoted_link_query] asks for: a status, and an author or any. *)
Definition queried (q : string) (u : option Z) (l : link) : Prop :=
  exists s, promote_status l = Some s /\ listing_of s = q /\ (u = None \/ u = Some (author_id l)).

Definition listed (w : world) (q : string) (u : option Z) (k : Z) : Prop := k ∈ default ∅ (listings w !! (q, u)).

Definition exact_listings (w : world) : Prop :=
  forall q u k, q ∈ statuses -> listed w q u k <-> exists l, links w !! k = Some l /\ queried q u l.

Definition keeps_exact (w w' : world) : Prop := exact_listings w -> exact_listings w'.

#[export] Instance keeps_exact_preorder : PreOrder keeps_exact.
Proof. split; [intros w H; exact H|]. intros w1 w2 w3 H1 H2 H. exact (H2 (H1 H)). Qed.

(** Changing the listings one after the other, where doing it twice is doing it once. *)
Lemma alter_each_lookup (g : string * option Z -> gset Z -> gset Z) (qs : list (string * option Z)) (m : gmap (string * option Z) (gset Z)) q : (forall q x, g q (g q x) = g q x) ->
  foldl (fun (m : gmap (string * option Z) (gset Z)) q => partial_alter (fun o => Some (g q (default ∅ o))) q m) m qs !! q = if bool_decide (q ∈ qs) then Some (g q (default ∅ (m !! q))) else m !! q.
Proof.
  intros Hg. revert m. induction qs as [|q' qs IH]; intros m; [done|]. cbn [foldl]. rewrite IH. destruct (decide (q = q')) as [-> | Hne].
  - rewrite lookup_partial_alter_eq, (bool_decide_true (q' ∈ q' :: qs)) by by left. cbn. rewrite Hg. by destruct (bool_decide _).
  - rewrite lookup_partial_alter_ne by done. by rewrite (bool_decide_ext (q ∈ q' :: qs) (q ∈ qs)) by set_solver.
Qed.

Section exact.
Context `{HO : HashOrder} {HL : HashOrderLaws} `{OU : Outside}.

Lemma steps_links_exact {A} (m : effect world A) : steps same_links m -> steps keeps_exact m.
Proof. intros Hm w H q u k Hq. destruct (Hm w) as [E1 E2]. unfold listed. rewrite E1, E2. by apply H. Qed.

Lemma change_link_exact lid f : (forall l, promote_status (f l) = promote_status l /\ author_id (f l) = author_id l) -> steps keeps_exact (change_link lid f).
Proof.
  intros Hf w H q u k Hq. unfold change_link, listed, after. cbn. fold (listed w q u k). rewrite (H q u k Hq).
  destruct (decide (k = lid)) as [-> | Hne]; [rewrite lookup_alter_eq|by rewrite lookup_alter_ne].
  destruct (links w !! lid) as [l|]; cbn; [|done]. destruct (Hf l) as [E1 E2]. split; intros (l' & [= <-] & s & Es & Hs); eexists; (split; [done|exists s]); rewrite ?E1, ?E2 in *; done.
Qed.

Lemma update_exact lid s : steps keeps_exact (update_promote_status lid s).
Proof.
  intros w H q u k Hq. unfold listed. rewrite update_links. unfold update_promote_status. rewrite after_get_link.
  destruct (links w !! lid) as [l|] eqn:El; [|by apply H]. cbn [after bind modify add_log change_link fst listings with_listings with_links with_log links].
  set (g := fun (q : string * option Z) (x : gset Z) => if String.eqb q.1 (listing_of s) then x ∪ {[lid]} else x ∖ {[lid]}).
  assert (Hg : forall q x, g q (g q x) = g q x) by (intros q' x; unfold g; destruct (String.eqb q'.1 _); apply leibniz_equiv; set_solver).
  set (qs := q ← statuses; [(q, Some (author_id l)); (q, None)]).
  change (k ∈ default ∅ (foldl (fun (m : gmap (string * option Z) (gset Z)) q => partial_alter (fun o => Some (g q (default ∅ o))) q m) (listings w) qs !! (q, u)) <->
    exists l', alter (set_status s) lid (links w) !! k = Some l' /\ queried q u l').
  rewrite alter_each_lookup by done. assert (Hqs : (q, u) ∈ qs <-> u = None \/ u = Some (author_id l)).
  { unfold qs. rewrite list_elem_of_bind. split; [intros (q' & Hin & _); set_solver|]. intros Hu. exists q. split; [|done]. destruct Hu as [-> | ->]; set_solver. }
  specialize (H q u k Hq). unfold listed in H. destruct (decide (k = lid)) as [-> | Hne].
  - rewrite lookup_alter_eq, El. cbn. case_bool_decide as Hin.
    + cbn. unfold g. cbn. destruct (String.eqb_spec q (listing_of s)) as [-> | Hs].
      * split; [intros _|intros _; apply elem_of_union_r; by apply elem_of_singleton]. exists (set_status s l). split; [done|]. exists s. cbn. apply Hqs in Hin. done.
      * split; [intros [_ Hk]%elem_of_difference; by apply not_elem_of_singleton in Hk|]. intros (l' & [= <-] & s' & [= <-] & <- & _). done.
    + rewrite H, El. split; [intros (l' & [= <-] & s' & _ & _ & Hu)|intros (l' & [= <-] & s' & _ & _ & Hu)]; cbn in Hu; by apply Hqs in Hu.
  - rewrite lookup_alter_ne, <- H by done. case_bool_decide; [|done]. cbn. unfold g. cbn. destruct (String.eqb q (listing_of s)); [rewrite elem_of_union, elem_of_singleton|rewrite elem_of_difference, elem_of_singleton]; tauto.
Qed.

Ltac exact_tac := steps_by ltac:(idtac; solve [apply steps_links_exact; links_leaf | apply update_exact | by apply change_link_exact]).

Lemma new_promotion_exact lid author title s content w : links w !! lid = None -> keeps_exact w (after (new_promotion lid author title s content) w).
Proof.
  intros El. unfold new_promotion. apply after_bind; [exact _| |intros [] _; exact_tac].
  intros H q u k Hq. unfold listed, after. cbn. fold (listed w q u k). rewrite (H q u k Hq). destruct (decide (k = lid)) as [-> | Hne]; [|by rewrite lookup_insert_ne].
  rewrite lookup_insert_eq, El. split; [by intros (? & ? & _)|]. by intros (? & [= <-] & ? & ? & _).
Qed.

Lemma auth_campaign_exact lid cid user pay : steps keeps_exact (auth_campaign lid cid user pay).
Proof. unfold auth_campaign, get_link, get_campaign. exact_tac. Qed.

Lemma charge_campaign_exact lid cid : steps keeps_exact (charge_campaign lid cid).
Proof. unfold charge_campaign, get_link, get_campaign. exact_tac. Qed.

Lemma promote_link_exact lid cid : steps keeps_exact (promote_link lid cid).
Proof. unfold promote_link, get_link, get_campaign. exact_tac. Qed.

Ltac exact_tac ::= steps_by ltac:(idtac; solve [apply steps_links_exact; links_leaf | apply update_exact | apply auth_campaign_exact | apply charge_campaign_exact | apply promote_link_exact | by apply change_link_exact]).

Lemma edit_campaign_exact lid cid user t : steps keeps_exact (edit_campaign lid cid user t).
Proof. unfold edit_campaign, reschedule, maybe_free, free_campaign, get_link, get_campaign. exact_tac. Qed.

Lemma reject_exact now lid user reason why : steps keeps_exact (reject_promotion now lid user reason why).
Proof. unfold reject_promotion, get_link. exact_tac. Qed.

Lemma any_live_exact now lid b cids : steps keeps_exact (any_live (accept_running now lid b) cids).
Proof. induction cids as [|cid cids IH]; cbn [any_live]; [apply steps_ret; exact _|]. unfold accept_running, get_link, get_campaign. apply steps_bind; [exact _|exact_tac|intros r]. apply steps_bind; [exact _|done|intros r']. apply steps_ret. exact _. Qed.

Lemma promote_each_exact date promos ids : steps keeps_exact (promote_each date promos ids).
Proof.
  revert ids. induction promos as [|cl promos IH]; intros ids; cbn [promote_each]; [apply steps_ret; exact _|]. apply steps_bind; [exact _|apply steps_ask; exact _|intros w'].
  destruct (test_pair _ w' cl); [|apply IH]. apply steps_bind; [exact _|apply promote_link_exact|intros _; apply IH].
Qed.

Ltac exact_tac ::= steps_by ltac:(idtac; solve [apply steps_links_exact; links_leaf | apply update_exact | apply auth_campaign_exact | apply charge_campaign_exact | apply promote_link_exact
  | apply edit_campaign_exact | apply reject_exact | apply any_live_exact | apply promote_each_exact | by apply change_link_exact]).

Lemma guarded_exact b m : (forall w, b w = true -> keeps_exact w (after m w)) -> steps keeps_exact (guarded b m).
Proof. intros Hm w. unfold guarded, after in *. destruct (b w) eqn:E; [by apply Hm|]. by cbn. Qed.

Lemma handle_exact o : steps keeps_exact (handle o).
Proof.
  destruct o; cbn [handle].
  - apply guarded_exact. intros w [_ El%bool_decide_eq_true]%andb_true_iff. by apply new_promotion_exact.
  - unfold POST_edit_promo, edited_live_promotion, get_link. exact_tac.
  - unfold POST_edit_campaign, new_campaign, maybe_free, free_campaign, get_link, get_campaign. exact_tac.
  - unfold POST_update_pay, get_link, get_campaign. exact_tac.
  - exact_tac.
  - unfold POST_freebie, free_campaign. exact_tac.
  - unfold POST_promote, accept_promotion, get_link. exact_tac.
  - unfold POST_unpromote. exact_tac.
  - unfold flag_payment, get_link. exact_tac.
  - unfold POST_review_fraud, review_fraud. exact_tac.
  - unfold POST_refund_campaign, get_campaign. exact_tac.
  - unfold POST_delete_campaign, delete_campaign. exact_tac.
  - unfold POST_toggle_pause_campaign, toggle_pause_campaign, get_campaign. exact_tac.
  - unfold POST_terminate_campaign, terminate_campaign, get_link, get_campaign. exact_tac.
  - unfold POST_del, get_link. exact_tac.
  - unfold update_served, get_campaign. exact_tac.
  - exact_tac.
  - exact_tac.
  - unfold make_daily_promotions, go_live, charge_pending, for_promos. exact_tac.
Qed.

(** C30. After any history of requests and jobs, each listing of promotions, of
    one author or of all, holds exactly the links its query asks for: accepted,
    pending and finished ones in one, and the others by their status. *)
Theorem listings_are_queries ops q u k : q ∈ statuses -> listed (run ops) q u k <-> exists l, links (run ops) !! k = Some l /\ queried q u l.
Proof.
  revert q u k. change (exact_listings (run ops)). induction ops as [|o ops IH] using rev_ind; [|rewrite run_snoc; by apply handle_exact].
  intros q u k _. split; [intros Hk; unfold listed in Hk; cbn in Hk; rewrite lookup_empty in Hk; by apply elem_of_empty in Hk|]. intros (l & E & _). cbn in E. by rewrite lookup_empty in E.
Qed.
End exact.
End PromoteListings.
