(* ===== verification/PromoteMoney.v ===== *)
(** * Promotions: what is captured was held

    What a campaign and its bids know of the payment service, and that nothing
    is captured that was not held before, for the same amount and as often. *)

From S2P Require Import Prelude PyString Effects Promote PromoteProps.

Module PromoteMoney.
Import PyString Promote PromoteProps.

(** ** Calls of the service *)

Definition is_capture (t cid : Z) (ra : request * answer) : bool :=
  match ra with (Capture _ _ _ t' cid', Done _) => (t' =? t) && (cid' =? cid) | _ => false end.

Definition is_hold (t cid : Z) (ra : request * answer) : bool :=
  match ra with (Hold _ _ _ _ cid', Done t') | (Hold _ _ _ _ cid', DuplicateTransaction t') => (t' =? t) && (cid' =? cid) | _ => false end.

Definition captures (calls : list (request * answer)) (t cid : Z) : nat := length (List.filter (is_capture t cid) calls).
Definition holds (calls : list (request * answer)) (t cid : Z) : nat := length (List.filter (is_hold t cid) calls).

#[global] Arguments captures : simpl never.
#[global] Arguments holds : simpl never.

(** The amount was held for the campaign. *)
Definition held (calls : list (request * answer)) (t cid amount : Z) : Prop :=
  exists profile pay lid a, (Hold profile pay amount lid cid, a) ∈ calls /\ is_hold t cid (Hold profile pay amount lid cid, a) = true.

Lemma captures_snoc calls ra t cid : captures (calls ++ [ra]) t cid = (captures calls t cid + (if is_capture t cid ra then 1 else 0))%nat.
Proof. unfold captures. rewrite List.filter_app, length_app. cbn. by destruct (is_capture t cid ra). Qed.

Lemma holds_snoc calls ra t cid : holds (calls ++ [ra]) t cid = (holds calls t cid + (if is_hold t cid ra then 1 else 0))%nat.
Proof. unfold holds. rewrite List.filter_app, length_app. cbn. by destruct (is_hold t cid ra). Qed.

Lemma held_snoc calls ra t cid a : held calls t cid a -> held (calls ++ [ra]) t cid a.
Proof. intros (p & pay & lid & an & Hin & Hh). exists p, pay, lid, an. split; [set_solver|done]. Qed.

(** ** What is sound *)

Definition due (b : bid) : bool := negb (is_charged b || is_refund b).

(** Up to the bid of one campaign, which is being charged or voided. *)
Record sound (X : option Z) (w : world) : Prop := Sound {
  s_positive k : is_Some (links w !! k) -> 0 < k;
  s_link cid c : campaigns w !! cid = Some c -> is_Some (links w !! link_id c);
  s_bid t cid b : bids w !! (t, cid) = Some b -> exists c, campaigns w !! cid = Some c /\ thing_id b = link_id c;
  s_trans cid c : campaigns w !! cid = Some c -> trans_id c <> 0 -> is_Some (bids w !! (trans_id c, cid));
  s_rows lid cid sr d : (lid, cid, sr, d) ∈ weights w -> exists c, campaigns w !! cid = Some c /\ link_id c = lid;
  s_held t cid b : 0 < t -> bids w !! (t, cid) = Some b -> held (calls w) t cid (bid_amount b);
  s_once t cid : 0 < t -> (captures (calls w) t cid <= holds (calls w) t cid)%nat;
  s_due cid c b : X <> Some cid -> campaigns w !! cid = Some c -> 0 < trans_id c -> bids w !! (trans_id c, cid) = Some b -> due b = true ->
    (captures (calls w) (trans_id c) cid < holds (calls w) (trans_id c) cid)%nat;
  s_captured profile pay a t cid d : (Capture profile pay a t cid, Done d) ∈ calls w -> held (calls w) t cid a
}.

Lemma sound_weaken cid w : sound None w -> sound (Some cid) w.
Proof. intros [S1 S2 S3 S4 S5 S6 S7 S8 S9]. split; [done..| |done]. intros cid' c b _. by apply S8. Qed.

(** ** What leaves it alone *)

Definition same_pay (w w' : world) : Prop :=
  campaigns w' = campaigns w /\ bids w' = bids w /\ weights w' = weights w /\ calls w' = calls w /\ forall k, is_Some (links w' !! k) <-> is_Some (links w !! k).

#[export] Instance same_pay_preorder : PreOrder same_pay.
Proof.
  split; [by intros w|]. intros w1 w2 w3 (E1 & E2 & E3 & E4 & E5) (F1 & F2 & F3 & F4 & F5). split_and!; [congruence..|]. intros k. by rewrite F5.
Qed.

Lemma same_pay_sound X w w' : same_pay w w' -> sound X w -> sound X w'.
Proof.
  intros (E1 & E2 & E3 & E4 & E5) [S1 S2 S3 S4 S5 S6 S7 S8 S9]. split; rewrite ?E1, ?E2, ?E3, ?E4; try done.
  - intros k Hk. apply S1. by apply E5.
  - intros cid c Hc. apply E5. by apply (S2 cid).
Qed.

Section pay.
Context `{HO : HashOrder} {HL : HashOrderLaws} `{OU : Outside}.

Lemma change_link_pay lid f : steps same_pay (change_link lid f).
Proof.
  intros w. unfold change_link, after. split_and!; [done..|]. intros k. cbn. destruct (decide (k = lid)) as [-> | Hne]; [|by rewrite lookup_alter_ne].
  rewrite lookup_alter_eq, fmap_is_Some. done.
Qed.

Lemma update_pay lid s : steps same_pay (update_promote_status lid s).
Proof.
  intros w. assert (Hk : forall k, is_Some (links (after (update_promote_status lid s) w) !! k) <-> is_Some (links w !! k)).
  { intros k. rewrite update_links. destruct (links w !! lid) eqn:El; [|done]. destruct (decide (k = lid)) as [-> | Hne]; [|by rewrite lookup_alter_ne].
    by rewrite lookup_alter_eq, fmap_is_Some. }
  revert Hk. unfold update_promote_status. rewrite after_get_link. intros Hk. destruct (links w !! lid); [|done]. split_and!; [done..|exact Hk].
Qed.

Lemma live_srnames_pay now : steps same_pay (update_live_srnames now).
Proof. intros w. unfold update_live_srnames, after, bind. by destruct (all_live_promo_srnames now w). Qed.

Lemma add_log_pay lid e : steps same_pay (add_log lid e).
Proof. by intros w. Qed.

Lemma send_pay m : steps same_pay (send m).
Proof. by intros w. Qed.
End pay.

Create HintDb pay discriminated.
#[export] Hint Resolve change_link_pay update_pay live_srnames_pay add_log_pay send_pay : pay.
Ltac pay_leaf := solve [auto with pay nocore | apply steps_modify; intros ?; repeat split; auto].
Ltac pay_tac := steps_by pay_leaf.

Section money.
Context `{HO : HashOrder} {HL : HashOrderLaws} `{OU : Outside}.

Lemma promote_link_pay lid cid : steps same_pay (promote_link lid cid).
Proof. unfold promote_link, get_link, get_campaign. pay_tac. Qed.

Lemma reject_pay now lid user reason why : steps same_pay (reject_promotion now lid user reason why).
Proof. unfold reject_promotion, get_link. pay_tac. Qed.

(** ** Campaigns and bids *)

(** The campaign is one of the link. *)
Definition at_link (cid lid : Z) (w : world) : Prop := exists c, campaigns w !! cid = Some c /\ link_id c = lid.

(** Changing a campaign without its link and with no other transaction than one
    there is a bid for. *)
Lemma change_campaign_sound X cid f w : sound X w -> (forall c, link_id (f c) = link_id c) ->
  (forall c, campaigns w !! cid = Some c -> trans_id (f c) <> 0 -> is_Some (bids w !! (trans_id (f c), cid))) ->
  (forall c b, campaigns w !! cid = Some c -> X <> Some cid -> 0 < trans_id (f c) -> bids w !! (trans_id (f c), cid) = Some b -> due b = true ->
    (captures (calls w) (trans_id (f c)) cid < holds (calls w) (trans_id (f c)) cid)%nat) ->
  sound X (with_campaigns (alter f cid (campaigns w)) w).
Proof.
  intros [S1 S2 S3 S4 S5 S6 S7 S8 S9] Hl Ht Hd.
  assert (Hc : forall k c', alter f cid (campaigns w) !! k = Some c' -> exists c, campaigns w !! k = Some c /\ link_id c' = link_id c /\ (k = cid /\ c' = f c \/ k <> cid /\ c' = c)).
  { intros k c'. destruct (decide (k = cid)) as [-> | Hne].
    - rewrite lookup_alter_eq, fmap_Some. intros (c & E & ->). exists c. split_and!; [done|apply Hl|by left].
    - rewrite lookup_alter_ne by done. intros E. exists c'. split_and!; [done|done|by right]. }
  assert (Hc' : forall k c, campaigns w !! k = Some c -> exists c', alter f cid (campaigns w) !! k = Some c' /\ link_id c' = link_id c).
  { intros k c E. destruct (decide (k = cid)) as [-> | Hne]; [exists (f c); rewrite lookup_alter_eq, E; by split|exists c; by rewrite lookup_alter_ne]. }
  split; cbn; [done|..|done|done| |done].
  - intros k c' (c & E & -> & _)%Hc. by apply (S2 k).
  - intros t k b E. destruct (S3 t k b E) as (c & Ec & ->). destruct (Hc' k c Ec) as (c' & ? & <-). by exists c'.
  - intros k c' (c & E & _ & [[-> ->] | [_ ->]])%Hc; [by apply Ht|by apply S4].
  - intros lid k sr d Hr. destruct (S5 lid k sr d Hr) as (c & Ec & <-). destruct (Hc' k c Ec) as (c' & ? & <-). by exists c'.
  - intros k c' b HX (c & E & _ & [[-> ->] | [_ ->]])%Hc; [by apply Hd|by apply S8].
Qed.

(** Changing the status of a bid, or the amount of one that is no hold. *)
Lemma change_bid_sound X Y t cid f w : sound X w -> (forall k, X = Some k -> Y = Some k \/ k = cid) -> (forall b, thing_id (f b) = thing_id b) -> (0 < t -> forall b, bid_amount (f b) = bid_amount b) ->
  (Y <> Some cid -> 0 < t -> forall c b, campaigns w !! cid = Some c -> trans_id c = t -> bids w !! (t, cid) = Some b -> due (f b) = true -> X <> Some cid /\ due b = true) ->
  (Y <> Some cid -> X = Some cid -> forall c, campaigns w !! cid = Some c -> trans_id c = t) ->
  sound Y (with_bids (alter f (t, cid) (bids w)) w).
Proof.
  intros [S1 S2 S3 S4 S5 S6 S7 S8 S9] HXY Ht Ha Hd HX. split; cbn; [done|done|..|done| |done| |done].
  - intros t' k b. destruct (decide ((t', k) = (t, cid))) as [[= -> ->] | Hne]; [|rewrite lookup_alter_ne by done; apply S3].
    rewrite lookup_alter_eq, fmap_Some. intros (b0 & E & ->). rewrite Ht. by apply (S3 t).
  - intros k c E Hn. destruct (decide ((trans_id c, k) = (t, cid))) as [[= E1 ->] | Hne]; [|rewrite lookup_alter_ne by done; by apply S4].
    rewrite E1, lookup_alter_eq, fmap_is_Some, <- E1. by apply S4.
  - intros t' k b Hpos. destruct (decide ((t', k) = (t, cid))) as [[= -> ->] | Hne]; [|rewrite lookup_alter_ne by done; by apply S6].
    rewrite lookup_alter_eq, fmap_Some. intros (b0 & E & ->). rewrite Ha by done. by apply S6.
  - intros k c b HY Ec Hpos. destruct (decide ((trans_id c, k) = (t, cid))) as [[= E1 ->] | Hne].
    + rewrite E1, lookup_alter_eq, fmap_Some. intros (b0 & E & ->) Hdue. destruct (Hd HY ltac:(lia) c b0 Ec E1 E Hdue) as [HXc Hb0]. rewrite <- E1 in *. by eapply S8.
    + rewrite lookup_alter_ne by done. intros E Hdue. apply (S8 k c b); try done. intros HXk. destruct (HXY k HXk) as [? | ->]; [done|].
      apply Hne. f_equal. by apply (HX HY HXk).
Qed.

(** A new bid of a campaign, for what was held. *)
Lemma bid_new_sound X t cid b w : sound X w -> bids w !! (t, cid) = None -> (exists c, campaigns w !! cid = Some c /\ thing_id b = link_id c) ->
  (0 < t -> held (calls w) t cid (bid_amount b)) -> sound X (with_bids (<[(t, cid) := b]> (bids w)) w).
Proof.
  intros [S1 S2 S3 S4 S5 S6 S7 S8 S9] En Hb Hh. split; cbn; [done|done|..|done| |done| |done].
  - intros t' k b' [[[= <- <-] <-] | [_ E]]%lookup_insert_Some; [done|by apply (S3 t')].
  - intros k c E Hn. destruct (S4 k c E Hn) as [b' Eb]. destruct (decide ((t, cid) = (trans_id c, k))) as [<- | Hne]; [by rewrite lookup_insert_eq|rewrite lookup_insert_ne by done; by exists b'].
  - intros t' k b' Hpos [[[= <- <-] <-] | [_ E]]%lookup_insert_Some; [by apply Hh|by apply S6].
  - intros k c b' HX Ec Hpos [[[= E1 <-] <-] | [_ E]]%lookup_insert_Some; [|by apply S8].
    destruct (S4 cid c Ec ltac:(lia)) as [b'' Eb]. by rewrite <- E1, En in Eb.
Qed.

(** A call that captures nothing. *)
Lemma call_sound X ra w : sound X w -> (forall t cid, is_capture t cid ra = false) -> sound X (with_calls (calls w ++ [ra]) w).
Proof.
  intros [S1 S2 S3 S4 S5 S6 S7 S8 S9] Hra. split; cbn; [done..| | | |].
  - intros t cid b Hpos E. by apply held_snoc, S6.
  - intros t cid Hpos. rewrite captures_snoc, holds_snoc, Hra. specialize (S7 t cid Hpos). lia.
  - intros cid c b HX Ec Hpos E Hdue. rewrite captures_snoc, holds_snoc, Hra. specialize (S8 cid c b HX Ec Hpos E Hdue). lia.
  - intros p pay a t cid d [Hin | Hin%list_elem_of_singleton]%elem_of_app; [by eapply held_snoc, S9|]. subst ra. specialize (Hra t cid). cbn in Hra. by rewrite !Z.eqb_refl in Hra.
Qed.

(** A capture of a bid that is due, for its amount. *)
Lemma capture_sound cid c b profile pay d w : sound None w -> campaigns w !! cid = Some c -> 0 < trans_id c -> bids w !! (trans_id c, cid) = Some b -> due b = true ->
  sound (Some cid) (with_calls (calls w ++ [(Capture profile pay (bid_amount b) (trans_id c) cid, Done d)]) w).
Proof.
  intros [S1 S2 S3 S4 S5 S6 S7 S8 S9] Ec Hpos Eb Hdue. split; cbn; [done..| | | |].
  - intros t k b' Hp E. by apply held_snoc, S6.
  - intros t k Hp. rewrite captures_snoc, holds_snoc. cbn. destruct ((trans_id c =? t) && (cid =? k)) eqn:E; [|specialize (S7 t k Hp); lia].
    apply andb_true_iff in E as [<-%Z.eqb_eq <-%Z.eqb_eq]. specialize (S8 cid c b ltac:(done) Ec Hpos Eb Hdue). lia.
  - intros k c' b' HX Ec' Hp E Hd. rewrite captures_snoc, holds_snoc. cbn. assert (Hk : cid <> k) by congruence. apply Z.eqb_neq in Hk as ->. rewrite andb_false_r.
    specialize (S8 k c' b' ltac:(done) Ec' Hp E Hd). lia.
  - intros p pay' a t k d' [Hin | [= -> -> -> -> -> ->]%list_elem_of_singleton]%elem_of_app; [by eapply held_snoc, S9|]. by apply held_snoc, S6.
Qed.

Lemma sound_strengthen cid w : sound (Some cid) w ->
  (forall c b, campaigns w !! cid = Some c -> 0 < trans_id c -> bids w !! (trans_id c, cid) = Some b -> due b = true ->
    (captures (calls w) (trans_id c) cid < holds (calls w) (trans_id c) cid)%nat) -> sound None w.
Proof.
  intros [S1 S2 S3 S4 S5 S6 S7 S8 S9] Hc. split; [done..| |done]. intros k c b _ Ec. destruct (decide (k = cid)) as [-> | Hne]; [by apply Hc|apply S8; [congruence|done]].
Qed.

(** A campaign is left without a transaction. *)
Lemma unset_sound cid w : sound (Some cid) w -> sound None (with_campaigns (alter (set_trans_id NO_TRANSACTION) cid (campaigns w)) w).
Proof.
  intros Hs. apply (sound_strengthen cid).
  - apply change_campaign_sound; [done|done|done|]. cbn. unfold NO_TRANSACTION. lia.
  - cbn. intros c b. rewrite lookup_alter_eq, fmap_Some. intros (c' & _ & ->). cbn. unfold NO_TRANSACTION. lia.
Qed.

(** ** Operations *)

Notation S := (sound None).

Lemma t_pay X (P : world -> Prop) {A} (m : effect world A) : steps same_pay m -> (forall w w', same_pay w w' -> P w -> P w') ->
  triple (fun w => sound X w /\ P w) m (fun _ w => sound X w /\ P w) (sound X).
Proof.
  intros Hm HP. eapply t_conseq; [apply (t_steps same_pay m (fun w => sound X w /\ P w) Hm)|done|done|by intros w []].
  intros w w' E [H1 H2]. split; [by apply (same_pay_sound X w)|by eapply HP].
Qed.

Lemma t_pay_S {A} (m : effect world A) : steps same_pay m -> triple S m (fun _ => S) S.
Proof. intros Hm. apply (t_steps same_pay m S Hm). intros w w' E. by apply same_pay_sound. Qed.

(** The transaction of a campaign and its bid. *)
Definition has_bid (cid t : Z) (b : bid) (w : world) : Prop := (exists c, campaigns w !! cid = Some c /\ trans_id c = t) /\ bids w !! (t, cid) = Some b.

Lemma same_pay_bid cid t b w w' : same_pay w w' -> has_bid cid t b w -> has_bid cid t b w'.
Proof. intros (E1 & E2 & _). unfold has_bid. by rewrite E1, E2. Qed.

Lemma t_bid_one cid t b : triple (fun w => S w /\ has_bid cid t b w) (bid_one t cid) (fun b' w => b' = b /\ S w /\ has_bid cid t b w) S.
Proof. intros w [Hs [Hc E]]. unfold bid_one. cbn. rewrite E. cbn. done. Qed.

Lemma void_bid_sound cid t b w : S w -> has_bid cid t b w -> sound (Some cid) (with_bids (alter void (t, cid) (bids w)) w).
Proof. intros Hs Hb. apply (change_bid_sound None); try done. Qed.

Lemma void_transaction_sound user cid t b : triple (fun w => S w /\ has_bid cid t b w) (void_transaction user t cid) (fun _ => sound (Some cid)) S.
Proof.
  unfold void_transaction. eapply t_bind; [apply t_bid_one|]. intros b'. cbn beta. apply t_pure. intros ->. destruct (t <=? 0).
  - apply t_modify. intros w [Hs Hb]. by eapply void_bid_sound.
  - apply t_seq; [by apply t_ask|intros w1]. apply (t_bind _ _ _ (fun _ w => S w /\ has_bid cid t b w)).
    + intros w [Hs Hb]. cbn. split; [by apply call_sound|done].
    + intros []; try (apply t_ret; intros w [Hs _]; by apply sound_weaken). apply t_modify. intros w [Hs Hb]. by eapply void_bid_sound.
Qed.

Lemma void_campaign_sound lid cid reason : triple S (void_campaign lid cid reason) (fun _ => S) S.
Proof.
  unfold void_campaign. apply (t_bind _ _ _ (fun r w => S w /\ match r with Some (t, b) => has_bid cid t b w | None => True end)).
  - intros w Hs. cbn. destruct (get_transactions lid cid w) as [[[t b]|]|] eqn:E; [|done|done]. split; [done|]. unfold get_transactions in E.
    destruct (campaigns w !! cid) as [c|] eqn:Ec; [|done]. destruct (_ || _); [done|]. destruct (bool_decide _); [done|]. destruct (bids w !! (trans_id c, cid)) as [b'|] eqn:Eb; [|done].
    destruct (thing_id b' =? lid); [|done]. injection E as <- <-. split; [|done]. by exists c.
  - intros [[t b]|]; [|apply t_ret; by intros w []].
    eapply t_bind; [apply (t_pay None (has_bid cid t b)); [unfold get_link; pay_tac|intros; by eapply same_pay_bid]|intros l]. cbn beta.
    eapply t_bind; [apply void_transaction_sound|intros u]. cbn beta. apply (t_bind _ _ _ (fun _ => S)); [apply t_modify; intros w; apply unset_sound|intros _].
    apply t_pay_S. pay_tac.
Qed.

(** A campaign that was authorized, or needs it not. *)
Definition authed (cid : Z) (w : world) : Prop := forall c, campaigns w !! cid = Some c -> authed_or_not_needed c = true.

Lemma charge_transaction_sound user cid c : triple (fun w => S w /\ campaigns w !! cid = Some c /\ trans_id c <> 0 /\ is_charged_transaction w (trans_id c) cid = false)
  (charge_transaction user (trans_id c) cid) (fun _ => S) S.
Proof.
  unfold charge_transaction. set (P := fun b w => S w /\ campaigns w !! cid = Some c /\ trans_id c <> 0 /\ bids w !! (trans_id c, cid) = Some b /\ due b = true).
  apply (t_bind _ _ _ P).
  { intros w (Hs & Ec & Ht & Hch). unfold bid_one. cbn. destruct (bids w !! (trans_id c, cid)) as [b|] eqn:Eb; [|done]. cbn. unfold P. split_and!; try done.
    unfold is_charged_transaction in Hch. rewrite Eb in Hch. apply Z.eqb_neq in Ht. rewrite Ht in Hch. unfold due. by rewrite Hch. }
  intros b. assert (Hbid : forall f w, P b w -> (forall b, thing_id (f b) = thing_id b) -> (forall b, bid_amount (f b) = bid_amount b) -> S (with_bids (alter f (trans_id c, cid) (bids w)) w)).
  { intros f w (Hs & Ec & Ht & Eb & Hdue) Hf1 Hf2. apply (change_bid_sound None None); try done. intros _ _ c' b' _ _ Eb' _. rewrite Eb in Eb'. injection Eb' as <-. done. }
  destruct (is_charged b); [apply t_ret; by intros w []|]. destruct (trans_id c <? 0) eqn:Hneg.
  { apply (t_bind _ _ _ (fun _ => S)); [apply t_modify; intros w Hw; by apply Hbid|intros _; by apply t_ret]. }
  apply Z.ltb_ge in Hneg. apply t_seq; [by apply t_ask|intros w1].
  apply (t_bind _ _ _ (fun a w => match a with Done _ => sound (Some cid) w /\ campaigns w !! cid = Some c | _ => P b w end)).
  { intros w Hw. pose proof Hw as (Hs & Ec & Ht & Eb & Hdue). unfold request_service. set (r := Capture _ _ _ _ _). destruct (answered r (authorize_net (calls w) r)) as [d| | |] eqn:Ea; cbn [fst snd] in *.
    - split; [|done]. apply (capture_sound cid c); try done. lia.
    - split_and!; [apply call_sound; [done|by intros]|done..].
    - split_and!; [apply call_sound; [done|by intros]|done..].
    - split_and!; [apply call_sound; [done|by intros]|done..]. }
  intros [d|d| |m]; [|apply t_ret; by intros w []| |apply t_ret; by intros w []].
  - apply (t_bind _ _ _ (fun _ => S)); [|intros _; by apply t_ret]. apply t_modify. intros w [Hs Ec]. apply (change_bid_sound (Some cid) None); try done.
    + intros k [= <-]. by right.
    + intros _ _ c' Ec'. rewrite Ec in Ec'. by injection Ec' as <-.
  - apply (t_bind _ _ _ (fun _ => S)); [|intros _; by apply t_ret]. apply t_modify. intros w Hw. by apply Hbid.
Qed.

(** Campaigns stay with their links. *)
Definition grows (w w' : world) : Prop := forall cid lid, at_link cid lid w -> at_link cid lid w'.

#[export] Instance grows_preorder : PreOrder grows.
Proof. split; [by intros w cid lid|]. intros w1 w2 w3 H1 H2 cid lid H. by apply H2, H1. Qed.

Lemma steps_pay_grows {A} (m : effect world A) : steps same_pay m -> steps grows m.
Proof. intros Hm w cid lid. destruct (Hm w) as (E & _). unfold at_link. by rewrite E. Qed.

Lemma steps_same_campaigns {A} (m : effect world A) : (forall w, campaigns (after m w) = campaigns w) -> steps grows m.
Proof. intros Hm w cid lid. unfold at_link. by rewrite Hm. Qed.

Lemma change_campaign_grows cid f : (forall c, link_id (f c) = link_id c) -> steps grows (change_campaign cid f).
Proof.
  intros Hf w k lid (c & E & <-). unfold at_link, change_campaign, after. cbn. destruct (decide (k = cid)) as [-> | Hne]; [exists (f c); by rewrite lookup_alter_eq, E|exists c; by rewrite lookup_alter_ne].
Qed.

Lemma bid_new_grows trans b cid : steps grows (bid_new trans b cid).
Proof. apply steps_same_campaigns. intros w. unfold bid_new, after. by destruct (bids w !! _). Qed.

Lemma weights_add_grows lid cid t : steps grows (weights_add lid cid t).
Proof. apply steps_same_campaigns. intros w. unfold weights_add, after. by destruct (bool_decide _). Qed.

Ltac grows_leaf := solve [apply bid_new_grows | apply weights_add_grows | by apply change_campaign_grows | by apply steps_same_campaigns | apply steps_pay_grows; pay_leaf].
Ltac grows_tac := steps_by grows_leaf.

Lemma void_campaign_grows lid cid reason : steps grows (void_campaign lid cid reason).
Proof. unfold void_campaign, void_transaction, bid_one, get_link. grows_tac. Qed.

Lemma auth_freebie_grows amount user lid cid : steps grows (auth_freebie_transaction amount user lid cid).
Proof. apply steps_same_campaigns. intros w. unfold auth_freebie_transaction, bid_new, bind, after, change_bid, modify, ret. repeat case_match; by simplify_eq. Qed.

Lemma auth_transaction_grows amount user pay lid cid : steps grows (auth_transaction amount user pay lid cid).
Proof. unfold auth_transaction. grows_tac. Qed.

Lemma auth_campaign_grows lid cid user pay : steps grows (auth_campaign lid cid user pay).
Proof.
  unfold auth_campaign, get_link, get_campaign. steps_by ltac:(idtac; first [apply void_campaign_grows | apply auth_freebie_grows | apply auth_transaction_grows | grows_leaf]).
Qed.

(** An authorization has its bid, and leaves something to capture. *)
Definition authorized (cid : Z) (r : option Z * string) (w : world) : Prop :=
  forall t, r.1 = Some t -> r.2 = "" -> is_Some (bids w !! (t, cid)) /\ (0 < t -> (captures (calls w) t cid < holds (calls w) t cid)%nat).

Lemma same_pay_authorized cid r w w' : same_pay w w' -> authorized cid r w -> authorized cid r w'.
Proof. intros (_ & E2 & _ & E4 & _). unfold authorized. by rewrite E2, E4. Qed.

Lemma bid_new_t (Q : world -> Prop) t b cid : (forall w, Q w -> bids w !! (t, cid) = None -> S (with_bids (<[(t, cid) := b]> (bids w)) w)) -> (forall w, Q w -> S w) ->
  (forall w, Q w -> 0 < t -> (captures (calls w) t cid < holds (calls w) t cid)%nat) ->
  triple Q (bid_new t b cid ;;; ret (Some t, "")) (fun r w => S w /\ authorized cid r w) S.
Proof.
  intros H1 H2 H3 w Hw. unfold bid_new, bind. destruct (bids w !! (t, cid)) eqn:E; cbn; [by apply H2|]. split; [by apply H1|]. intros t' [= <-] _. cbn.
  split; [by rewrite lookup_insert_eq|]. intros Hpos. by apply (H3 w).
Qed.

Lemma at_link_bid cid lid w user pay amount : at_link cid lid w -> exists c, campaigns w !! cid = Some c /\ thing_id (new_bid user pay lid amount) = link_id c.
Proof. intros (c & Ec & <-). by exists c. Qed.

Lemma at_link_positive cid lid w : S w -> at_link cid lid w -> 0 < lid.
Proof. intros Hs (c & Ec & <-). eapply s_positive, s_link; done. Qed.

Lemma auth_freebie_sound amount user lid cid : triple (fun w => S w /\ at_link cid lid w) (auth_freebie_transaction amount user lid cid) (fun r w => S w /\ authorized cid r w) S.
Proof.
  intros w [Hs Hat]. pose proof (at_link_positive cid lid w Hs Hat) as Hlid.
  assert (Hnew : match ((bid_new (- lid) (new_bid user FREEBIE_PAYMENT_METHOD_ID lid amount) cid ;;; ret (Some (- lid), "")) w).2 with
    | Ok r => S ((bid_new (- lid) (new_bid user FREEBIE_PAYMENT_METHOD_ID lid amount) cid ;;; ret (Some (- lid), "")) w).1 /\
              authorized cid r ((bid_new (- lid) (new_bid user FREEBIE_PAYMENT_METHOD_ID lid amount) cid ;;; ret (Some (- lid), "")) w).1
    | Raise _ => S ((bid_new (- lid) (new_bid user FREEBIE_PAYMENT_METHOD_ID lid amount) cid ;;; ret (Some (- lid), "")) w).1 end).
  { apply (bid_new_t (fun w => S w /\ at_link cid lid w)); [|by intros w' []|lia|done]. intros w' [Hs' Hat'] En.
    apply bid_new_sound; [done|done|by apply at_link_bid|lia]. }
  unfold auth_freebie_transaction. destruct (bids w !! (- lid, cid)) as [b|] eqn:Eb; [destruct (thing_id b =? lid)|]; [|exact Hnew..].
  cbn. split.
  - apply (change_bid_sound None None); try done; lia.
  - intros t [= <-] _. cbn. split; [by rewrite lookup_alter_eq, Eb|lia].
Qed.

Lemma auth_transaction_sound amount user pay lid cid : triple (fun w => S w /\ at_link cid lid w) (auth_transaction amount user pay lid cid) (fun r w => S w /\ authorized cid r w) S.
Proof.
  unfold auth_transaction. apply (t_bind _ _ _ (fun w0 w => bids w = bids w0 /\ S w /\ at_link cid lid w)); [by apply t_ask|intros w0].  assert (Hnone : forall e P, (forall w, P w -> S w) -> triple P (ret (None, e)) (fun r w => S w /\ authorized cid r w) S)
    by (intros e P HP; apply t_ret; intros w Hw; split; [by apply HP|by intros t]).
  destruct (negb _); [apply Hnone; by intros w (_ & ? & _)|].
  apply (t_bind _ _ _ (fun a w => S w /\ at_link cid lid w /\ bids w = bids w0 /\ match a with Done t | DuplicateTransaction t =>
    0 < t -> held (calls w) t cid amount /\ (captures (calls w) t cid < holds (calls w) t cid)%nat | _ => True end)).
  { intros w (Hb & Hs & Hat). cbn -[answered]. set (r := Hold _ _ _ _ _). assert (Hcall : forall a, S (with_calls (calls w ++ [(r, a)]) w)) by (intros a; by apply call_sound).
    split; [apply Hcall|]. split; [exact Hat|]. split; [exact Hb|].
    assert (Hh : forall t, is_hold t cid (r, answered r (authorize_net (calls w) r)) = true -> 0 < t -> held (calls w ++ [(r, answered r (authorize_net (calls w) r))]) t cid amount /\
      (captures (calls w ++ [(r, answered r (authorize_net (calls w) r))]) t cid < holds (calls w ++ [(r, answered r (authorize_net (calls w) r))]) t cid)%nat).
    { intros t Ht Hpos. split; [eexists _, _, _, _; split; [apply elem_of_app; right; by apply list_elem_of_singleton|exact Ht]|].
      rewrite captures_snoc, holds_snoc, Ht. cbn. pose proof (s_once _ _ Hs t cid Hpos). lia. }
    destruct (answered r (authorize_net (calls w) r)) as [t|t| |m]; [|..|done|done]; apply Hh; cbn; by rewrite !Z.eqb_refl. }
  intros [t|t| |m]; [| |apply Hnone; by intros w []..].
  - apply bid_new_t; [|by intros w []|intros w (_ & _ & _ & H) Hpos; by apply H]. intros w (Hs & Hat & _ & H) En. apply bid_new_sound; [done|done|by apply at_link_bid|].
    intros Hpos. by apply H.
  - case_bool_decide as En; cbn [when].
    + apply bid_new_t; [|by intros w []|intros w (_ & _ & _ & H) Hpos; by apply H]. intros w (Hs & Hat & _ & H) En'. apply bid_new_sound; [done|done|by apply at_link_bid|].
      intros Hpos. by apply H.
    + apply t_ret. intros w (Hs & _ & Hb & H). split; [done|]. intros t' [= <-] _. rewrite Hb. split; [by apply not_eq_None_Some|]. intros Hpos. by apply H.
Qed.

Lemma auth_campaign_sound lid cid user pay : triple (fun w => S w /\ at_link cid lid w) (auth_campaign lid cid user pay) (fun _ => S) S.
Proof.
  unfold auth_campaign. eapply t_bind; [apply (t_frame grows); [apply void_campaign_sound|apply void_campaign_grows|by intros w w' H; apply H]|intros []]. cbn beta.
  apply t_seq; [intros w [Hs Hat]; unfold get_campaign; cbn; by destruct (campaigns w !! cid)|intros c]. cbn zeta.
  apply (t_bind _ _ _ (fun r w => S w /\ authorized cid r w)); [destruct pay; [apply auth_transaction_sound|apply auth_freebie_sound]|intros r].
  apply t_seq.
  { apply (t_pay None (authorized cid r)); [unfold get_link; pay_tac|]. intros w w'. apply same_pay_authorized. }
  intros _. apply (t_bind _ _ _ (fun _ => S)); [|intros _; by apply t_ret]. apply t_modify. intros w [Hs Ha].
  destruct r as [[t|] e]; cbn [fst snd] in *; [change (default 0 (Some t)) with t|apply change_campaign_sound; try done; by intros; cbn in *; lia].
  destruct (negb (t =? 0) && String.eqb e "") eqn:E.
  - apply andb_true_iff in E as [_ ->%String.eqb_eq]. destruct (Ha t eq_refl eq_refl) as [Hb Hc]. apply change_campaign_sound; [done|done|intros; exact Hb|]. intros c' b _ _ Hpos _ _. by apply Hc.
  - apply change_campaign_sound; try done; by intros; cbn in *; lia.
Qed.

(** ** Steps that stay sound *)

Definition keeps_sound (w w' : world) : Prop := S w -> S w'.

#[export] Instance keeps_sound_preorder : PreOrder keeps_sound.
Proof. split; [intros w H; exact H|]. intros w1 w2 w3 H1 H2 H. by apply H2, H1. Qed.

Lemma steps_of_triple {A} (m : effect world A) : triple S m (fun _ => S) S -> steps keeps_sound m.
Proof. intros Hm w Hw. by apply (t_after S m S w Hm). Qed.

Lemma triple_of_steps {A} (m : effect world A) : steps keeps_sound m -> triple S m (fun _ => S) S.
Proof. intros Hm. apply (t_steps keeps_sound); [done|]. intros w w' H. exact H. Qed.

Lemma steps_pay_sound {A} (m : effect world A) : steps same_pay m -> steps keeps_sound m.
Proof. intros Hm w. unfold keeps_sound. apply same_pay_sound, Hm. Qed.

Lemma change_campaign_keeps cid f : (forall c, link_id (f c) = link_id c /\ (trans_id (f c) = trans_id c \/ trans_id (f c) = 0)) -> steps keeps_sound (change_campaign cid f).
Proof.
  intros Hf w Hs. apply change_campaign_sound; [done|intros c; by apply Hf|..].
  - intros c Ec. destruct (Hf c) as [_ [-> | ->]]; [by apply (s_trans _ _ Hs)|done].
  - intros c b Ec _. destruct (Hf c) as [_ [-> | ->]]; [by apply (s_due _ _ Hs)|lia].
Qed.

Lemma weights_delete_keeps lid cid : steps keeps_sound (weights_delete lid cid).
Proof. intros w [S1 S2 S3 S4 S5 S6 S7 S8 S9]. split; try done. intros l k sr d [_ Hr]%elem_of_filter. by eapply S5. Qed.

Ltac sound_leaf := solve [apply weights_delete_keeps | apply change_campaign_keeps; intros ?; split; [done|by (left + right)] | apply steps_pay_sound; pay_leaf | apply steps_of_triple, void_campaign_sound].
Ltac sound_tac := steps_by sound_leaf.

Lemma delete_campaign_sound lid cid : steps keeps_sound (delete_campaign lid cid).
Proof. unfold delete_campaign. sound_tac. Qed.

Lemma refund_campaign_sound lid cid amount billable : steps keeps_sound (refund_campaign lid cid amount billable).
Proof.
  unfold refund_campaign, get_campaign. apply steps_bind; [exact _|apply steps_reader; exact _|intros c]. apply steps_bind; [exact _| |intros r; sound_tac].
  apply steps_of_triple. unfold refund_transaction. apply t_seq; [intros w Hs; unfold bid_one; cbn; by destruct (bids w !! _)|intros b].
  assert (Hr : triple S (change_bid (trans_id c) cid (refund amount) ;;; ret true) (fun _ => S) S).
  { apply (t_bind _ _ _ (fun _ => S)); [|intros _; by apply t_ret]. apply t_modify. intros w Hs. by apply (change_bid_sound None None). }
  destruct (trans_id c <? 0); [exact Hr|]. apply t_seq; [by apply t_ask|intros w0].
  apply t_seq; [intros w Hs; cbn; by apply call_sound|intros a]. destruct a; [exact Hr|by apply t_ret..].
Qed.

Lemma charge_campaign_sound lid cid : triple (fun w => S w /\ authed cid w) (charge_campaign lid cid) (fun _ => S) S.
Proof.
  unfold charge_campaign. apply (t_bind _ _ _ (fun c w => S w /\ campaigns w !! cid = Some c /\ authed_or_not_needed c = true)).
  { intros w [Hs Ha]. unfold get_campaign. cbn. destruct (campaigns w !! cid) as [c|] eqn:Ec; [|done]. cbn. split_and!; [done..|by apply Ha]. }
  intros c. apply (t_bind _ _ _ (fun w' w => w' = w /\ S w /\ campaigns w !! cid = Some c /\ authed_or_not_needed c = true)); [by apply t_ask|intros w'].
  destruct (charged_or_not_needed w' cid c) eqn:Hch; [apply t_ret; by intros w (_ & ? & _)|]. apply orb_false_iff in Hch as [Hch Hh].
  apply (t_bind _ _ _ (fun _ w => S w /\ campaigns w !! cid = Some c /\ trans_id c <> 0 /\ is_charged_transaction w (trans_id c) cid = false)).
  { intros w (-> & Hs & Ec & Ha). unfold get_link. cbn. destruct (links w !! lid); [cbn|done]. split_and!; [done..| |done].
    unfold authed_or_not_needed in Ha. rewrite Hh, orb_false_r in Ha. by apply negb_true_iff, Z.eqb_neq in Ha. }
  intros l. eapply t_bind; [apply charge_transaction_sound|intros r]. cbn beta. apply triple_of_steps. sound_tac.
Qed.

Lemma maybe_free_sound lid cid user : triple (fun w => S w /\ at_link cid lid w) (maybe_free lid cid user) (fun _ => S) S.
Proof.
  unfold maybe_free, free_campaign. apply t_seq; [intros w [Hs Hat]; unfold get_campaign; cbn; by destruct (campaigns w !! cid)|intros c].
  apply t_seq; [intros w [Hs Hat]; unfold get_link; cbn; by destruct (links w !! lid)|intros l].
  apply t_when; [intros _|by intros _ w []]. apply (t_bind _ _ _ (fun _ => S)); [apply auth_campaign_sound|intros _; by apply t_ret].
Qed.

Lemma weights_add_sound lid cid t : triple (fun w => S w /\ at_link cid lid w) (weights_add lid cid t) (fun _ w => S w /\ at_link cid lid w) S.
Proof.
  intros w [Hs Hat]. unfold weights_add. destruct (bool_decide _); [|done]. cbn. split; [|done]. destruct Hs as [S1 S2 S3 S4 S5 S6 S7 S8 S9]. split; try done. cbn.
  intros l k sr d [Hr | Hr]%elem_of_union; [|by eapply S5]. unfold weight_rows in Hr. apply elem_of_list_to_set, list_elem_of_bind in Hr as (sr' & Hr & _).
  apply list_elem_of_fmap in Hr as (d' & [= -> -> -> ->] & _). done.
Qed.

Lemma insert_sound lid cid t owner w : S w -> is_Some (links w !! lid) -> campaigns w !! cid = None ->
  S (with_campaigns (<[cid := PromoCampaign lid owner (as_stored t) NO_TRANSACTION false false false None 0 false]> (campaigns w)) w).
Proof.
  intros [S1 S2 S3 S4 S5 S6 S7 S8 S9] Hl En. split; cbn; [done|..|done|done| |done].
  - intros k c [[<- <-] | [_ E]]%lookup_insert_Some; [done|by apply (S2 k)].
  - intros t' k b E. destruct (S3 t' k b E) as (c & Ec & ?). exists c. rewrite lookup_insert_ne by congruence. done.
  - intros k c [[<- <-] | [_ E]]%lookup_insert_Some; [done|by apply S4].
  - intros l k sr d Hr. destruct (S5 l k sr d Hr) as (c & Ec & ?). exists c. rewrite lookup_insert_ne by congruence. done.
  - intros k c b _ [[<- <-] | [_ E]]%lookup_insert_Some; [cbn; unfold NO_TRANSACTION; lia|by apply S8].
Qed.

Lemma new_campaign_sound lid cid user t : triple (fun w => S w /\ campaigns w !! cid = None) (new_campaign lid cid user t) (fun _ => S) S.
Proof.
  unfold new_campaign. apply (t_bind _ _ _ (fun _ w => S w /\ campaigns w !! cid = None /\ is_Some (links w !! lid))).
  { intros w [Hs En]. unfold get_link. cbn. by destruct (links w !! lid). }
  intros l. apply (t_bind _ _ _ (fun _ w => S w /\ at_link cid lid w)).
  { apply t_modify. intros w (Hs & En & Hl). split; [by apply insert_sound|]. eexists. cbn. by rewrite lookup_insert_eq. }
  intros _. eapply t_bind; [apply weights_add_sound|intros []]. cbn beta.
  apply t_seq; [apply (t_pay None (at_link cid lid)); [pay_tac|]; intros w w' (E & _); unfold at_link; by rewrite E|intros _]. apply maybe_free_sound.
Qed.

Lemma edit_campaign_sound lid cid user t : triple (fun w => S w /\ at_link cid lid w) (edit_campaign lid cid user t) (fun _ => S) S.
Proof.
  assert (Hk : forall A (m : effect world A), steps keeps_sound m -> steps grows m -> triple (fun w => S w /\ at_link cid lid w) m (fun _ w => S w /\ at_link cid lid w) S).
  { intros A m H1 H2. apply (t_frame grows m S); [by apply triple_of_steps|done|by intros w w' H; apply H]. }
  unfold edit_campaign. apply t_seq; [apply Hk; apply steps_reader; exact _|intros c].
  apply t_seq; [apply Hk; [sound_tac|apply steps_when; [exact _|apply void_campaign_grows]]|intros _]. destruct (edit_terms (the_terms c) t) as [t' what].
  apply t_seq; [apply Hk; [sound_tac|by apply change_campaign_grows]|intros _].
  apply t_seq; [|intros _; apply (t_bind _ _ _ (fun _ => S)); [apply maybe_free_sound|intros _; apply triple_of_steps; sound_tac]].
  unfold reschedule. apply t_seq; [apply Hk; [sound_tac|by apply steps_same_campaigns]|intros _]. apply weights_add_sound.
Qed.

Lemma terminate_sound now lid cid user : triple (fun w => S w /\ at_link cid lid w) (terminate_campaign now lid cid user) (fun _ => S) S.
Proof.
  assert (Hk : forall A (m : effect world A), steps same_pay m -> triple (fun w => S w /\ at_link cid lid w) m (fun _ w => S w /\ at_link cid lid w) S).
  { intros A m Hm. apply (t_pay None (at_link cid lid)); [done|]. intros w w' (E & _). unfold at_link. by rewrite E. }
  unfold terminate_campaign. apply t_seq; [apply Hk; unfold get_campaign; pay_tac|intros c]. apply t_seq; [apply Hk; unfold get_link; pay_tac|intros l].
  apply t_seq; [apply Hk; pay_tac|intros w']. destruct (negb _); [by apply t_ret; intros w []|].
  apply (t_bind _ _ _ (fun _ => S)); [apply edit_campaign_sound|intros _]. apply triple_of_steps. sound_tac.
Qed.

Lemma accept_running_sound now lid b cid : triple S (accept_running now lid b cid) (fun _ => S) S.
Proof.
  unfold accept_running. apply t_seq; [intros w Hs; unfold get_link; cbn; by destruct (links w !! lid)|intros l].
  apply (t_bind _ _ _ (fun c w => S w /\ campaigns w !! cid = Some c)); [intros w Hs; unfold get_campaign; cbn; by destruct (campaigns w !! cid)|intros c].
  destruct (is_accepted_promo _ l c) eqn:Ha; [|by apply t_ret; intros w []]. apply (t_bind _ _ _ (fun _ => S)).
  - apply t_when; [intros _|by intros _ w []]. eapply t_pre; [apply charge_campaign_sound|]. intros w [Hs Ec]. split; [done|]. intros c' Ec'.
    rewrite Ec in Ec'. injection Ec' as <-. by apply andb_true_iff in Ha as [_ ?].
  - intros _. apply t_seq; [intros w Hs; unfold get_campaign; cbn; by destruct (campaigns w !! cid)|intros c'].
    apply t_seq; [by apply t_ask|intros w']. destruct (charged_or_not_needed w' cid c'); [|by apply t_ret].
    apply t_seq; [apply t_pay_S, promote_link_pay|intros _; by apply t_ret].
Qed.

Lemma accept_promotion_sound now lid : steps keeps_sound (accept_promotion now lid).
Proof.
  unfold accept_promotion, get_link. apply steps_bind; [exact _|apply steps_reader; exact _|intros l]. cbn zeta.
  do 3 (apply steps_bind; [exact _|sound_tac|intros _]). apply steps_bind; [exact _|sound_tac|intros cids]. apply steps_bind; [exact _| |intros b; sound_tac].
  induction cids as [|cid cids IH]; [apply steps_ret; exact _|]. apply steps_bind; [exact _|apply steps_of_triple, accept_running_sound|intros b].
  apply steps_bind; [exact _|exact IH|intros b']. apply steps_ret; exact _.
Qed.

Lemma charge_pending_sound now offset : steps keeps_sound (charge_pending now offset).
Proof.
  apply steps_bind; [exact _|apply steps_reader; exact _|intros promos]. apply steps_mapM; [exact _|]. intros cl. apply steps_of_triple.
  apply (t_bind _ _ _ (fun w' w => w' = w /\ S w)); [by apply t_ask|intros w']. apply t_when; [intros Ht|by intros _ w []].
  eapply t_pre; [apply charge_campaign_sound|]. intros w [-> Hs]. split; [done|]. intros c Ec. unfold test_pair in Ht. rewrite Ec in Ht.
  destruct (links w !! cl.2); [|done]. by apply andb_true_iff in Ht as [_ ?].
Qed.

Lemma promote_each_pay date promos ids : steps same_pay (promote_each date promos ids).
Proof.
  revert ids. induction promos as [|cl promos IH]; intros ids; cbn [promote_each]; [apply steps_ret; exact _|]. apply steps_bind; [exact _|apply steps_ask; exact _|intros w'].
  destruct (test_pair _ w' cl); [|apply IH]. apply steps_bind; [exact _|apply promote_link_pay|intros _; apply IH].
Qed.

Ltac sound_leaf ::= solve [apply weights_delete_keeps | apply change_campaign_keeps; intros ?; split; [done|by (left + right)] | apply steps_pay_sound; first [pay_leaf | apply promote_each_pay | apply reject_pay]
  | apply steps_of_triple, void_campaign_sound | apply refund_campaign_sound | apply delete_campaign_sound | apply accept_promotion_sound | apply charge_pending_sound].

Lemma daily_sound now : steps keeps_sound (make_daily_promotions now).
Proof. unfold make_daily_promotions, go_live, finalize_completed_campaigns, finalize_campaign, get_campaign. sound_tac. Qed.

(** What a guard says is there for what is guarded. *)
Lemma guarded_sound b (F : world -> Prop) m : (forall w, b w = true -> F w) -> triple (fun w => S w /\ F w) m (fun _ => S) S -> steps keeps_sound (guarded b m).
Proof.
  intros HF Hm w Hs. unfold guarded, after. destruct (b w) eqn:E; [|done]. apply (t_after _ m S w Hm). split; [done|by apply HF].
Qed.

Lemma of_link_at lid cid w : of_link lid cid w = true -> at_link cid lid w.
Proof. unfold of_link, at_link. intros [H _]%andb_true_iff. destruct (campaigns w !! cid) as [c|]; [|done]. exists c. by apply bool_decide_eq_true in H. Qed.

Lemma edit_request_sound g v lid old new_id auction oversold t : triple (fun w => S w /\ campaigns w !! new_id = None) (POST_edit_campaign g v lid old new_id auction oversold t) (fun _ => S) S.
Proof.
  unfold POST_edit_campaign. apply t_seq; [intros w [Hs En]; unfold get_link; cbn; by destruct (links w !! lid)|intros l].
  apply (t_bind _ _ _ (fun w' w => w' = w /\ S w /\ campaigns w !! new_id = None)); [by apply t_ask|intros w'].
  assert (Hret : forall (P : world -> Prop) (e : option string), (forall w, P w -> S w) -> triple P (ret e) (fun _ => S) S) by (intros P e HP; by apply t_ret).
  destruct (negb (own v l)); [apply Hret; tauto|]. cbn zeta. destruct (ads_auction g && negb (is_sponsor v)).
  { destruct old as [cid|]; [|apply t_raise; tauto]. destruct (campaigns w' !! cid) as [c|]; [|apply Hret; tauto].
    destruct (c_deleted c || _); [apply Hret; tauto|apply t_raise; tauto]. }
  destruct old as [cid|].
  - destruct (campaigns w' !! cid) as [c|] eqn:Ec; [|apply Hret; tauto]. destruct (c_deleted c || negb (link_id c =? lid)) eqn:Hd; [apply Hret; tauto|].
    apply orb_false_iff in Hd as [_ Hl%negb_false_iff%Z.eqb_eq]. destruct (terms_error _ _ _ _ _ _ _); [apply Hret; tauto|].
    destruct (_ && is_accepted l); [apply t_raise; tauto|]. apply (t_bind _ _ _ (fun _ => S)); [|intros _; by apply Hret].
    eapply t_pre; [apply edit_campaign_sound|]. intros w (-> & Hs & _). split; [done|]. by exists c.
  - destruct (terms_error _ _ _ _ _ _ _); [apply Hret; tauto|]. apply (t_bind _ _ _ (fun _ => S)); [|intros _; by apply Hret].
    eapply t_pre; [apply new_campaign_sound|]. tauto.
Qed.

Lemma handle_sound o : steps keeps_sound (handle o).
Proof.
  destruct o; cbn [handle].
  - apply (guarded_sound _ (fun w => 0 < lid)); [by intros w [?%Z.ltb_lt _]%andb_true_iff|]. apply (t_pre _ (fun w => 0 < lid /\ S w)); [|by intros w []]. apply t_pure. intros Hpos. unfold new_promotion.
    apply t_seq; [|intros _; apply triple_of_steps; sound_tac]. apply t_modify. intros w [S1 S2 S3 S4 S5 S6 S7 S8 S9]. split; try done; cbn.
    + intros k. destruct (decide (k = lid)) as [-> | Hne]; [done|]. rewrite lookup_insert_ne by done. apply S1.
    + intros k c Ec. destruct (decide (link_id c = lid)) as [-> | Hne]; [by rewrite lookup_insert_eq|]. rewrite lookup_insert_ne by done. by apply (S2 k).
  - unfold POST_edit_promo, edited_live_promotion, get_link. sound_tac.
  - apply (guarded_sound _ (fun w => campaigns w !! new_id = None)); [by intros w ?%bool_decide_eq_true|].
    apply (t_bind _ _ _ (fun _ => S)); [apply edit_request_sound|intros _; by apply t_ret].
  - unfold POST_update_pay. apply (guarded_sound _ (at_link cid lid)); [by intros w [_ ?%of_link_at]%andb_true_iff|].
    apply t_seq; [intros w [Hs Hat]; unfold get_campaign; cbn; by destruct (campaigns w !! cid)|intros c].
    apply t_seq; [intros w [Hs Hat]; unfold get_link; cbn; by destruct (links w !! lid)|intros l]. cbn zeta.
    destruct (get_date_limits _ _ _ _) as [[mn mx] me]. destruct (_ || _); [apply t_ret; by intros w []|].
    apply (t_bind _ _ _ (fun _ => S)); [apply auth_campaign_sound|intros _; by apply t_ret].
  - sound_tac.
  - unfold POST_freebie. apply (guarded_sound _ (at_link cid lid)); [by intros w [[[_ ?%of_link_at]%andb_true_iff _]%andb_true_iff _]%andb_true_iff|].
    apply (t_bind _ _ _ (fun _ => S)); [apply auth_campaign_sound|intros _; by apply t_ret].
  - unfold POST_promote. sound_tac.
  - unfold POST_unpromote. sound_tac.
  - unfold flag_payment, get_link. sound_tac.
  - unfold POST_review_fraud, review_fraud. sound_tac.
  - unfold POST_refund_campaign, get_campaign. sound_tac.
  - unfold POST_delete_campaign. sound_tac.
  - unfold POST_toggle_pause_campaign, toggle_pause_campaign, get_campaign. sound_tac.
  - unfold POST_terminate_campaign. apply (guarded_sound _ (at_link cid lid)); [by intros w [_ ?%of_link_at]%andb_true_iff|]. apply terminate_sound.
  - unfold POST_del, get_link. sound_tac.
  - unfold update_served, get_campaign. sound_tac.
  - sound_tac.
  - sound_tac.
  - apply daily_sound.
Qed.

Lemma run_sound ops : S (run ops).
Proof.
  induction ops as [|o ops IH] using rev_ind; [|rewrite run_snoc; by apply handle_sound].
  split; cbn.
  - intros k. by rewrite lookup_empty, is_Some_alt.
  - intros cid c. by rewrite lookup_empty.
  - intros t cid b. by rewrite lookup_empty.
  - intros cid c. by rewrite lookup_empty.
  - intros lid cid sr d []%elem_of_empty.
  - intros t cid b _. by rewrite lookup_empty.
  - intros t cid _. unfold captures, holds. cbn. lia.
  - intros cid c b _. by rewrite lookup_empty.
  - intros p pay a t cid d []%elem_of_nil.
Qed.

(** C12. Whatever the service answers and whatever requests and jobs there are:
    what was captured for a campaign was held for it before, for the same
    amount, and no transaction is captured more often than it was held or found
    to be held already. *)
Theorem captured_as_held ops :
  (forall profile pay amount t cid d, (Capture profile pay amount t cid, Done d) ∈ calls (run ops) -> held (calls (run ops)) t cid amount) /\
  forall t cid, 0 < t -> (captures (calls (run ops)) t cid <= holds (calls (run ops)) t cid)%nat.
Proof. pose proof (run_sound ops) as Hs. split; [apply Hs|]. intros t cid Hpos. by apply Hs. Qed.
End money.
End PromoteMoney.
