(* ===== verification/PromoteDaily.v ===== *)
(** * Promotions: what the daily job leaves live

    After the job a promotion is live exactly when one of its campaigns is
    scheduled for the day, and the job gets that far whatever there is and
    whatever the service answers. *)

From S2P Require Import Prelude PyString Effects Promote PromoteProps PromoteMoney.

Module PromoteDaily.
Import PyString Promote PromoteProps PromoteMoney.

Section daily.
Context `{HO : HashOrder} {HL : HashOrderLaws} `{OU : Outside}.

Notation S := (sound None).

(** ** Charging does not raise *)

(** A computation that runs, and what is done with its result. *)
Lemma bind_runs {A B} (m : effect world A) (k : A -> effect world B) w a b : (m w).2 = Ok a -> (k a (after m w)).2 = Ok b -> (bind m k w).2 = Ok b.
Proof. unfold bind, after. destruct (m w) as [w' r]. cbn. by intros ->. Qed.

Lemma update_runs lid s w : is_Some (links w !! lid) -> (update_promote_status lid s w).2 = Ok tt.
Proof. intros [l El]. unfold update_promote_status, get_link, bind. cbn. by rewrite El. Qed.

Lemma charge_transaction_runs user t cid w : is_Some (bids w !! (t, cid)) -> exists r, (charge_transaction user t cid w).2 = Ok r.
Proof.
  intros [b Eb]. unfold charge_transaction, bid_one, bind. cbn -[answered]. rewrite Eb. cbn -[answered]. destruct (is_charged b); [by eexists|]. destruct (t <? 0); [by eexists|].
  match goal with |- context[answered ?r ?res] => destruct (answered r res) end; by eexists.
Qed.

Lemma charge_campaign_runs lid cid c w : campaigns w !! cid = Some c -> is_Some (links w !! lid) -> (charged_or_not_needed w cid c = false -> is_Some (bids w !! (trans_id c, cid))) ->
  (charge_campaign lid cid w).2 = Ok tt.
Proof.
  intros Ec El Hb. unfold charge_campaign. apply (bind_runs _ _ _ c); [unfold get_campaign; cbn; by rewrite Ec|].
  apply (bind_runs _ _ _ w); [done|]. change (((if charged_or_not_needed w cid c then ret tt else
    l <~ get_link lid;; r <~ charge_transaction (author_id l) (trans_id c) cid;;
    if negb r.1 then when (negb r.2) (change_campaign cid (set_trans_id NO_TRANSACTION) ;;; add_log lid (Expired cid (trans_id c)))
    else when (negb (is_promoted l)) (update_promote_status lid pending) ;;; send (QueuePromo lid (total_budget_pennies (the_terms c)) (trans_id c)) ;;; add_log lid (Charged cid (trans_id c))) w).2 = Ok tt).
  destruct (charged_or_not_needed w cid c); [done|]. destruct El as [l El]. apply (bind_runs _ _ _ l); [unfold get_link; cbn; by rewrite El|].
  destruct (charge_transaction_runs (author_id l) (trans_id c) cid w (Hb eq_refl)) as [r Er]. apply (bind_runs _ _ _ r); [exact Er|].
  assert (El' : is_Some (links (after (charge_transaction (author_id l) (trans_id c) cid) w) !! lid)).
  { destruct (charge_transaction_links (author_id l) (trans_id c) cid w) as [-> _]. by exists l. }
  change (after (get_link lid) w) with w. set (w' := after _ w) in *. destruct r as [[] e]; cbn; [|by destruct e].
  apply (bind_runs _ _ _ tt); [|done]. unfold when. destruct (negb (is_promoted l)); [by apply update_runs|done].
Qed.

Lemma get_promos_ok date srs lid w : S w -> exists promos, get_promos date srs lid w = Ok promos /\
  forall cl, cl ∈ promos <-> cl.1 ∈ get_campaign_ids date srs lid w /\ exists c, campaigns w !! cl.1 = Some c /\ link_id c = cl.2.
Proof.
  intros Hs. unfold get_promos. set (ids := get_campaign_ids date srs lid w).
  assert (Hids : forall cid, cid ∈ ids -> exists c, campaigns w !! cid = Some c /\ is_Some (links w !! link_id c)).
  { intros cid ([[[l k] sr] d] & -> & [_ Hr]%elem_of_filter)%elem_of_map. destruct (s_rows _ _ Hs _ _ _ _ Hr) as (c & Ec & _). exists c. split; [done|by apply (s_link _ _ Hs k)]. }
  assert (Hl : forall l, (forall cid, cid ∈ l -> cid ∈ ids) -> exists promos, res_mapM (fun cid => let* c := of_option NotFound (campaigns w !! cid) in
    let* _ := of_option NotFound (links w !! link_id c) in Ok (cid, link_id c)) l = Ok promos /\ forall cl, cl ∈ promos <-> cl.1 ∈ l /\ exists c, campaigns w !! cl.1 = Some c /\ link_id c = cl.2).
  { induction l as [|cid l IH]; intros Hin.
    - exists []. split; [done|]. intros cl. split; [by intros []%elem_of_nil|by intros [[]%elem_of_nil _]].
    - destruct (Hids cid (Hin cid ltac:(by left))) as (c & Ec & [l' El]). destruct IH as (promos & E & Hp); [intros k Hk; apply Hin; by right|].
      exists ((cid, link_id c) :: promos). cbn. rewrite Ec. cbn. rewrite El. cbn. rewrite E. split; [done|]. intros cl. rewrite !elem_of_cons, Hp. split.
      + intros [-> | [H1 H2]]; [split; [by left|by exists c]|split; [by right|done]].
      + intros [[H1 | H1] (c' & Ec' & H2)]; [left; destruct cl as [k1 k2]; cbn in *; subst k1; rewrite Ec in Ec'; injection Ec' as <-; by subst|right; split; [done|by exists c']]. }
  destruct (Hl (dict_order (elements ids))) as (promos & E & Hp); [intros cid; by rewrite dict_order_perm, elem_of_elements|].
  exists promos. split; [done|]. intros cl. rewrite Hp, dict_order_perm, elem_of_elements. done.
Qed.

Lemma charge_pending_total now offset : triple S (charge_pending now offset) (fun _ => S) (fun _ => False).
Proof.
  unfold charge_pending, for_promos. cbn zeta. apply (t_bind _ _ _ (fun _ => S)).
  { intros w Hs. cbn. by destruct (get_promos_ok (promo_datetime_now now offset) None None w Hs) as (promos & -> & _). }
  intros promos. apply t_mapM. intros cl _. apply (t_bind _ _ _ (fun w' w => w' = w /\ S w)); [by apply t_ask|intros w']. apply t_when; [intros Ht|by intros _ w []].
  intros w [-> Hs]. unfold test_pair in Ht. destruct (campaigns w !! cl.1) as [c|] eqn:Ec; [|done]. destruct (links w !! cl.2) as [l|] eqn:El; [|done].
  apply andb_true_iff in Ht as [_ Ha]. pose proof (charge_campaign_sound cl.2 cl.1 w) as Hc.
  assert (Hrun : (charge_campaign cl.2 cl.1 w).2 = Ok tt).
  { apply (charge_campaign_runs _ _ c); [done|by exists l|]. intros [_ Hh]%orb_false_iff. apply (s_trans _ _ Hs cl.1 c Ec). unfold authed_or_not_needed in Ha.
    rewrite Hh, orb_false_r in Ha. by apply negb_true_iff, Z.eqb_neq in Ha. }
  rewrite Hrun in *. apply Hc. split; [done|]. intros c' Ec'. rewrite Ec in Ec'. by injection Ec' as <-.
Qed.
(** ** Scheduled campaigns *)

Definition scheduled (date : Z) (w : world) (cl : Z * Z) : bool := test_pair (fun w l cid c => is_scheduled_promo w date l cid c) w cl.

Definition same_store (w w' : world) : Prop := campaigns w' = campaigns w /\ bids w' = bids w /\ weights w' = weights w.

(** Links are the same but for what is shown of them. *)
Definition as_good (l l' : link) : Prop := is_accepted l' = is_accepted l /\ l_spam l' = l_spam l /\ l_deleted l' = l_deleted l.

Lemma scheduled_same date w w' cl : same_store w w' -> option_Forall2 as_good (links w !! cl.2) (links w' !! cl.2) -> scheduled date w' cl = scheduled date w cl.
Proof.
  intros (E1 & E2 & _) Hl. unfold scheduled, test_pair. rewrite E1. destruct (campaigns w !! cl.1) as [c|]; [|done]. destruct Hl as [l l' [Ha _]|]; [|done].
  unfold is_scheduled_promo, is_accepted_promo, charged_or_not_needed, is_charged_transaction. by rewrite Ha, E2.
Qed.

Lemma scheduled_in date w cl : scheduled date w cl = true -> exists c l, campaigns w !! cl.1 = Some c /\ links w !! cl.2 = Some l /\ is_accepted l = true.
Proof.
  unfold scheduled, test_pair. destruct (campaigns w !! cl.1) as [c|]; [|done]. destruct (links w !! cl.2) as [l|]; [|done]. intros H. exists c, l. split_and!; [done..|].
  apply andb_true_iff in H as [[[_ H]%andb_true_iff _]%andb_true_iff _]. exact H.
Qed.

Lemma good_status s l : is_accepted l = true -> negb (s =? rejected) && negb (s =? edited_live) && (accepted <=? s) = true -> as_good l (set_status s l).
Proof.
  intros Ha Hs. unfold as_good. rewrite acc_set_status, Hs, Ha. unfold is_accepted, is_promo in Ha. apply andb_true_iff in Ha as [[[-> ->]%andb_true_iff _]%andb_true_iff _]. done.
Qed.

(** What promoting a link makes of it. *)
Lemma promote_link_spec lid cid c l w : campaigns w !! cid = Some c -> links w !! lid = Some l -> is_accepted l = true -> exists w' l',
  promote_link lid cid w = (w', Ok tt) /\ same_store w w' /\ links w' = <[lid := l']> (links w) /\ as_good l l' /\ promote_status l' = Some promoted.
Proof.
  intros Ec El Ha. unfold promote_link, get_link, get_campaign, bind. cbn. rewrite El. cbn. rewrite Ec. cbn.
  assert (Hgo : forall l0 w0, links w0 !! lid = Some l0 -> same_store w w0 -> links w0 = <[lid := l0]> (links w) -> as_good l l0 -> promote_status l0 = promote_status l -> exists w' l',
    when (negb (is_promoted l)) (fun w0 => let (w', r) := update_promote_status lid promoted w0 in match r with Ok _ => send (LivePromo lid) w' | Raise e => (w', Raise e) end) w0 = (w', Ok tt) /\
    same_store w w' /\ links w' = <[lid := l']> (links w) /\ as_good l l' /\ promote_status l' = Some promoted).
  { intros l0 w0 E0 Hst Hl0 Hg Hs. unfold when. destruct (negb (is_promoted l)) eqn:Hp.
    - unfold update_promote_status, get_link, bind. cbn. rewrite E0. cbn. eexists _, (set_status promoted l0). split_and!; [done|done| | |done].
      + cbn. rewrite Hl0. apply map_eq. intros k. destruct (decide (k = lid)) as [-> | Hne]; [by rewrite lookup_alter_eq, !lookup_insert_eq|by rewrite lookup_alter_ne, !lookup_insert_ne].
      + destruct Hg as (G1 & G2 & G3). destruct (good_status promoted l0) as (H1 & H2 & H3); [by rewrite G1|done|]. split_and!; congruence.
    - exists w0, l0. split_and!; try done. rewrite Hs. apply negb_false_iff, andb_true_iff in Hp as [_ Hp]. by apply bool_decide_eq_true in Hp. }
  unfold when at 1. destruct (_ && _); cbn.
  - apply (Hgo (set_over_18 l)); try done. + cbn. by rewrite lookup_alter_eq, El. + cbn. apply map_eq. intros k.
      destruct (decide (k = lid)) as [-> | Hne]; [by rewrite lookup_alter_eq, El, lookup_insert_eq|by rewrite lookup_alter_ne, lookup_insert_ne].
  - apply (Hgo l); try done. by rewrite insert_id.
Qed.

Definition on (date : Z) (w : world) (promos : list (Z * Z)) : gset Z := list_to_set (List.filter (scheduled date w) promos).*2.

Lemma on_same date w w' promos : (forall cl, scheduled date w' cl = scheduled date w cl) -> on date w' promos = on date w promos.
Proof. intros H. unfold on. f_equal. f_equal. induction promos as [|cl promos IH]; [done|]. cbn. by rewrite H, IH. Qed.

(** What promoting those that are scheduled leaves. *)
Definition promoted_to (ids : gset Z) (w w' : world) : Prop :=
  same_store w w' /\ forall k, option_Forall2 as_good (links w !! k) (links w' !! k) /\
    (k ∈ ids -> exists l', links w' !! k = Some l' /\ promote_status l' = Some promoted) /\ (k ∉ ids -> links w' !! k = links w !! k).

Lemma as_good_refl : forall o : option link, option_Forall2 as_good o o.
Proof. intros [l|]; constructor. done. Qed.

Lemma as_good_trans (o1 o2 o3 : option link) : option_Forall2 as_good o1 o2 -> option_Forall2 as_good o2 o3 -> option_Forall2 as_good o1 o3.
Proof. intros [l1 l2 (H1 & H2 & H3)|]; inversion 1; subst; constructor. match goal with H : as_good _ _ |- _ => destruct H as (G1 & G2 & G3) end. split_and!; congruence. Qed.

Lemma promote_each_spec date promos : forall ids w, exists w', promote_each date promos ids w = (w', Ok (on date w promos ∪ ids)) /\ promoted_to (on date w promos) w w'.
Proof.
  induction promos as [|cl promos IH]; intros ids w.
  - exists w. unfold on. cbn. split; [by rewrite (left_id_L ∅ _)|]. split; [done|]. intros k. split_and!; [apply as_good_refl|by intros ?%elem_of_empty|done].
  - cbn [promote_each]. unfold bind at 1, ask. cbn. change (test_pair _ w cl) with (scheduled date w cl). unfold on. cbn [List.filter].
    destruct (scheduled date w cl) eqn:Ht; [|apply IH]. destruct (scheduled_in _ _ _ Ht) as (c & l & Ec & El & Ha).
    destruct (promote_link_spec cl.2 cl.1 c l w Ec El Ha) as (w1 & l1 & E1 & Hst & Hl & Hg & Hp1). unfold bind. rewrite E1.
    assert (Hgood : forall k, option_Forall2 as_good (links w !! k) (links w1 !! k)).
    { intros k. rewrite Hl. destruct (decide (k = cl.2)) as [-> | Hne]; [rewrite lookup_insert_eq, El; by constructor|rewrite lookup_insert_ne by done; apply as_good_refl]. }
    assert (Hsch : forall cl', scheduled date w1 cl' = scheduled date w cl') by (intros cl'; by apply scheduled_same).
    destruct (IH ({[cl.2]} ∪ ids) w1) as (w' & E' & Hst' & H'). rewrite (on_same _ _ _ _ Hsch) in E', H'. unfold on in E', H'. exists w'. split; [rewrite E'; f_equal; f_equal; set_solver|]. split.
    + destruct Hst as (G1 & G2 & G3), Hst' as (F1 & F2 & F3). split_and!; congruence.
    + intros k. destruct (H' k) as (H1 & H2 & H3). split_and!.
      * eapply as_good_trans; [apply Hgood|exact H1].
      * cbn. intros Hk. destruct (decide (k ∈ on date w promos)) as [Hon | Hon]; [by apply H2|]. unfold on in Hon. assert (k = cl.2) as -> by set_solver.
        exists l1. split; [|done]. by rewrite (H3 Hon), Hl, lookup_insert_eq.
      * cbn. intros [Hne Hk]%not_elem_of_union. rewrite (H3 Hk), Hl, lookup_insert_ne; [done|]. intros <-. by apply Hne, elem_of_singleton.
Qed.

Lemma expire_spec q : forall w, (forall k, k ∈ q -> is_Some (links w !! k)) -> exists w',
  mapM_ (fun lid => update_promote_status lid finished ;;; send (FinishedPromo lid)) q w = (w', Ok tt) /\ same_store w w' /\
  forall k, links w' !! k = if bool_decide (k ∈ q) then set_status finished <$> links w !! k else links w !! k.
Proof.
  induction q as [|lid q IH]; intros w Hq; [by exists w|]. cbn [mapM_]. destruct (Hq lid ltac:(by left)) as [l El].
  unfold bind at 1 2, update_promote_status, get_link. unfold bind. cbn. rewrite El. cbn. match goal with |- context[mapM_ _ q ?w0] => set (w1 := w0) end.
  assert (E1 : forall k, links w1 !! k = if bool_decide (k = lid) then set_status finished <$> links w !! k else links w !! k).
  { intros k. cbn. case_bool_decide as Hk; [subst k; by rewrite lookup_alter_eq|by rewrite lookup_alter_ne]. }
  destruct (IH w1) as (w' & E' & Hst & Hk).
  { intros k Hin. rewrite E1. case_bool_decide; [rewrite fmap_is_Some|]; apply Hq; by right. }
  exists w'. split; [exact E'|]. split; [exact Hst|]. intros k. rewrite Hk, E1. rewrite (bool_decide_ext (k ∈ lid :: q) (k = lid \/ k ∈ q)) by by rewrite elem_of_cons.
  repeat case_bool_decide; try tauto. by destruct (links w !! k).
Qed.

(** ** The job *)

Definition on_air (date lid : Z) (w : world) : Prop :=
  exists cid c, cid ∈ get_campaign_ids date None None w /\ campaigns w !! cid = Some c /\ link_id c = lid /\ scheduled date w (cid, lid) = true.

Definition settled (date : Z) (w : world) : Prop := forall lid l, links w !! lid = Some l -> l_spam l = false -> is_promoted l = true <-> on_air date lid w.

(** What is scheduled depends on the terms and the transaction of campaigns. *)
Definition same_schedule (w w' : world) : Prop := links w' = links w /\ bids w' = bids w /\ weights w' = weights w /\
  forall cid, (fun c => (link_id c, the_terms c, trans_id c)) <$> campaigns w' !! cid = (fun c => (link_id c, the_terms c, trans_id c)) <$> campaigns w !! cid.

#[local] Instance same_schedule_preorder : PreOrder same_schedule.
Proof. split; [done|]. intros w1 w2 w3 (E1 & E2 & E3 & E4) (F1 & F2 & F3 & F4). split_and!; [congruence..|]. intros cid. by rewrite F4. Qed.

Lemma same_schedule_scheduled date w w' cl : same_schedule w w' -> scheduled date w' cl = scheduled date w cl.
Proof.
  intros (E1 & E2 & _ & E4). specialize (E4 cl.1). unfold scheduled, test_pair. rewrite E1. destruct (campaigns w !! cl.1) as [c|], (campaigns w' !! cl.1) as [c'|]; try done.
  cbn in E4. destruct (links w !! cl.2); [|done]. assert (link_id c' = link_id c /\ the_terms c' = the_terms c /\ trans_id c' = trans_id c) as (Hl & Ht & Hi) by by injection E4.
  unfold is_scheduled_promo, is_accepted_promo, charged_or_not_needed, is_charged_transaction, in_dates, authed_or_not_needed, is_house. by rewrite Ht, Hi, E2.
Qed.

Lemma same_schedule_on_air date lid w w' : same_schedule w w' -> on_air date lid w -> on_air date lid w'.
Proof.
  intros Hsame (cid & c & Hc & Ec & Hl & Hs). pose proof Hsame as (_ & _ & E3 & E4). specialize (E4 cid). rewrite Ec in E4. destruct (campaigns w' !! cid) as [c'|] eqn:Ec'; [|done].
  cbn in E4. assert (El : link_id c' = link_id c) by (by injection E4). exists cid, c'. split; [unfold get_campaign_ids; by rewrite E3|]. split; [done|].
  split; [by rewrite El|by rewrite (same_schedule_scheduled _ w)].
Qed.

Lemma same_schedule_settled date w w' : same_schedule w w' -> settled date w -> settled date w'.
Proof.
  intros Hsame H lid l El Hsp. pose proof Hsame as (E1 & E2 & E3 & E4). rewrite E1 in El. rewrite (H lid l El Hsp). split; apply same_schedule_on_air; [done|].
  split; [done|]. split; [done|]. split; [done|]. intros cid. by rewrite E4.
Qed.

(** Promoting what is scheduled and expiring the rest. *)
Definition settle (date : Z) : effect world unit :=
  promos <~ (fun w => (w, get_promos date None None w));;
  ids <~ promote_each date promos ∅;;
  q <~ ask (expired_links ids);;
  mapM_ (fun lid => update_promote_status lid finished ;;; send (FinishedPromo lid)) q.

Lemma in_expired ids w k : k ∈ expired_links ids w <-> exists l, links w !! k = Some l /\ promote_status l = Some promoted /\ k ∉ ids /\ l_deleted l = false /\ l_spam l = false.
Proof.
  unfold expired_links. rewrite dict_order_perm, list_elem_of_fmap. split.
  - intros ([k' l] & -> & Hin). apply elem_of_map_to_list, map_lookup_filter_Some in Hin as [El Hl]. by exists l.
  - intros (l & El & Hl). exists (k, l). split; [done|]. by apply elem_of_map_to_list, map_lookup_filter_Some.
Qed.

Lemma settle_spec date w : S w -> exists w', settle date w = (w', Ok tt) /\ settled date w'.
Proof.
  intros Hs. destruct (get_promos_ok date None None w Hs) as (promos & Ep & Hp). destruct (promote_each_spec date promos ∅ w) as (w1 & E1 & Hst1 & H1). rewrite (right_id_L ∅ _) in E1.
  destruct (expire_spec (expired_links (on date w promos) w1) w1) as (w2 & E2 & Hst2 & H2); [intros k (l & El & _)%in_expired; by exists l|].
  exists w2. split; [unfold settle, bind, ask; cbn; rewrite Ep; cbn; rewrite E1; cbn; exact E2|].
  assert (Hgood : forall k, option_Forall2 as_good (links w !! k) (links w2 !! k)).
  { intros k. apply (as_good_trans _ (links w1 !! k)); [apply H1|]. rewrite H2. case_bool_decide as Hk; [|apply as_good_refl]. apply in_expired in Hk as (l & -> & Hps & _ & Hd & _).
    constructor. unfold as_good. rewrite acc_set_status. split; [|done]. unfold is_accepted, is_promo. rewrite Hps, Hd. cbn. by destruct (is_promotion l). }
  assert (Hst : same_store w w2) by (destruct Hst1 as (? & ? & ?), Hst2 as (? & ? & ?); split_and!; congruence).
  assert (Hsch : forall cl, scheduled date w2 cl = scheduled date w cl) by (intros cl; by apply scheduled_same).
  assert (Hon : forall k, k ∈ on date w promos <-> on_air date k w2).
  { intros k. unfold on. rewrite elem_of_list_to_set, list_elem_of_fmap. destruct Hst as (F1 & F2 & F3). unfold on_air, get_campaign_ids. rewrite F1, F3. split.
    - intros ([cid k'] & -> & Hin). apply list_elem_of_In, List.filter_In in Hin as [Hin Ht]. apply list_elem_of_In, Hp in Hin as (Hid & c & Ec & Hl). exists cid, c. rewrite Hsch. done.
    - intros (cid & c & Hid & Ec & Hl & Ht). rewrite Hsch in Ht. exists (cid, k). split; [done|]. apply list_elem_of_In, List.filter_In. split; [|done]. apply list_elem_of_In, Hp. split; [done|by exists c]. }
  intros k l El Hsp. rewrite <- Hon. rewrite H2 in El. split.
  - intros [Hpr Hps%bool_decide_eq_true]%andb_true_iff. case_bool_decide as Hk; [apply in_expired in Hk as (l1 & E & _); rewrite E in El; by injection El as <-|].
    destruct (decide (k ∈ on date w promos)) as [|Hn]; [done|]. destruct Hk. apply in_expired. exists l. split_and!; try done.
    unfold is_promo in Hpr. by destruct (l_deleted l).
  - intros Hk. assert (Hx : k ∉ expired_links (on date w promos) w1) by (intros (l1 & _ & _ & Hn & _)%in_expired; done). rewrite bool_decide_false in El by done.
    destruct (proj1 (proj2 (H1 k)) Hk) as (l1 & E & Hps). rewrite E in El. injection El as <-. apply Hon in Hk as (cid & c & _ & _ & _ & Ht).
    destruct (scheduled_in _ _ _ Ht) as (_ & l2 & _ & E' & Ha). cbn in E'. rewrite H2, bool_decide_false, E in E' by done. injection E' as <-.
    unfold is_promoted, has_status. unfold is_accepted in Ha. apply andb_true_iff in Ha as [-> _]. by apply bool_decide_eq_true.
Qed.

Lemma live_srnames_schedule now : steps same_schedule (update_live_srnames now).
Proof. intros w. unfold update_live_srnames, after, bind. by destruct (all_live_promo_srnames now w). Qed.

Lemma finalize_schedule now d : steps same_schedule (finalize_completed_campaigns now d).
Proof.
  unfold finalize_completed_campaigns, finalize_campaign, get_campaign. steps_by ltac:(idtac; solve [by intros w
    | intros w; split_and!; try done; intros cid'; unfold change_campaign, after; cbn; match goal with |- context[alter _ ?k _ !! _] => destruct (decide (cid' = k)) as [-> | Hne];
        [rewrite lookup_alter_eq; by destruct (campaigns w !! k)|by rewrite lookup_alter_ne] end]).
Qed.

Lemma daily_settles now : triple S (make_daily_promotions now) (fun _ => settled (promo_datetime_now now 0)) (settled (promo_datetime_now now 0)).
Proof.
  set (P := settled (promo_datetime_now now 0)).
  assert (Hk : forall A (m : effect world A), steps same_schedule m -> triple P m (fun _ => P) P) by (intros A m Hm; apply (t_steps same_schedule); [done|intros w w'; apply same_schedule_settled]).
  assert (Hc : forall offset, triple S (charge_pending now offset) (fun _ => S) P) by (intros offset; eapply t_conseq; [apply charge_pending_total|done..]).
  unfold make_daily_promotions. apply (t_bind _ _ _ (fun _ => P)); [|intros _; apply Hk, finalize_schedule].
  unfold go_live. do 2 (apply t_seq; [apply Hc|intros _]). cbn zeta. intros w Hs. destruct (settle_spec (promo_datetime_now now 0) w Hs) as (w2 & E2 & H2).
  pose proof (Hk _ _ (live_srnames_schedule now) w2 H2) as Hend. revert E2 Hend. unfold settle, bind, ask. cbn. destruct (get_promos _ None None w); cbn; [|done].
  destruct (promote_each _ _ _ w) as [w1 [ids|]]; cbn; [|done]. by intros ->.
Qed.

(** C23. After the daily job, whatever happened before and whatever the service
    answers, a link that is no spam is live exactly when a campaign of it is
    scheduled: placed for the day, within its dates, and charged or a house
    campaign, on an accepted link; the rest has been expired. *)
Theorem daily_exact ops now lid l : let w := run (ops ++ [Daily now]) in links w !! lid = Some l -> l_spam l = false ->
  is_promoted l = true <-> on_air (promo_datetime_now now 0) lid w.
Proof.
  cbn zeta. rewrite run_snoc. apply (t_after _ _ (settled (promo_datetime_now now 0)) _ (daily_settles now)), run_sound.
Qed.
End daily.
End PromoteDaily.
