(* ===== verification/PromoteExamples.v ===== *)
(** * Promotions: examples *)

From S2P Require Import Prelude PyString Effects Promote PromoteProps PromoteListings PromoteMoney PromoteDaily.

Module PromoteExamples.
Import PyString Promote.

#[local] Instance as_given : HashOrder := fun A l => l.

Definition granted (t : Z) : response := Response true 1 1 "" t.

(** A service that holds under the number of requests there were, and does
    everything else. *)
#[local] Instance service : Outside :=
  MkOutside (fun calls r => match r with Hold _ _ _ _ _ => granted (Z.of_nat (length calls) + 1000) | _ => granted 0 end) ∅ ∅ (fun _ _ _ => 0) (fun _ _ => false) "all".

Definition noon : Z := 20000 * day + 12 * 3600.
Definition author : visitor := Visitor 7 false noon noon.
Definition sponsor : visitor := Visitor 8 true noon noon.
Definition tomorrow : terms := Terms (20001 * day) (20004 * day) (Subreddit "pics") None "standard" None "all" (Some ["iOS"]) None None None None 5000 0 200.
Definition config : limits := Limits 100 500 0 4 false.

Definition start : list op := [Submit 1 7 "A title" false "https://example.com/"; EditCampaign config author 1 None 11 false false tomorrow; AddPayment 7 3 70; UpdatePay author 1 11 3 false].

Definition status_of (w : world) : option Z := links w !! 1 ≫= promote_status.
Definition title_of (w : world) : option string := l_title <$> links w !! 1.

Example paid_waits : status_of (run start) = Some unseen.
Proof. by vm_compute. Qed.

Definition next_day : Z := 20001 * day + 12 * 3600.

Example goes_live : status_of (run (start ++ [Promote sponsor 1; Daily next_day])) = Some promoted.
Proof. by vm_compute. Qed.

Example not_reviewed : status_of (run (start ++ [Daily next_day])) = Some unseen.
Proof. by vm_compute. Qed.

Example ends : status_of (run (start ++ [Promote sponsor 1; Daily next_day; Daily (20005 * day)])) = Some finished.
Proof. by vm_compute. Qed.

(** ** What the code does as written *)

(** An accepted promotion that is not live yet is edited by its author and goes
    live without another review: nothing calls [unapprove_promotion]. *)
Example edited_before_launch :
  let w := run (start ++ [Promote sponsor 1; EditPromo author 1 "Another title" false "https://example.org/" false; Daily next_day]) in
  (status_of w, title_of w) = (Some promoted, Some "Another title").
Proof. by vm_compute. Qed.

(** A live one waits for review again. *)
Example edited_live_waits :
  status_of (run (start ++ [Promote sponsor 1; Daily next_day; EditPromo author 1 "Another title" false "https://example.org/" false; Daily next_day])) = Some edited_live.
Proof. by vm_compute. Qed.

Definition charge_of (w : world) : option Z := map_to_list (bids w) !! 0%nat ≫= fun kb => charge kb.2.

(** The refund of a campaign billed by the adserver does not count what was refunded. *)
Example refunded_twice :
  charge_of (run (start ++ [Promote sponsor 1; Daily next_day; Spent 11 1000; RefundCampaign sponsor 1 11; RefundCampaign sponsor 1 11])) = Some (-3000).
Proof. by vm_compute. Qed.

(** After a full refund the charge counts as none, and the bid is the charge again. *)
Example full_refund_forgotten : charge_amount (refund 5000 (charged (new_bid 7 3 1 5000))) = 5000.
Proof. by vm_compute. Qed.

(** The author of an accepted promotion cannot change the target of a campaign:
    the edit is called with a parameter it does not have. *)
Definition to_gifs : terms := Terms (20001 * day) (20004 * day) (Subreddit "gifs") None "standard" None "all" (Some ["iOS"]) None None None None 5000 0 200.

Example retarget_accepted : (handle (EditCampaign config author 1 (Some 11) 12 false false to_gifs) (run (start ++ [Promote sponsor 1]))).2 = Raise TypeError.
Proof. by vm_compute. Qed.

(** A campaign that is terminated is for the desktop from then on. *)
Example terminated_on_desktop :
  let w := run (start ++ [Promote sponsor 1; Daily next_day; TerminateCampaign (Visitor 8 true next_day next_day) 1 11]) in
  (fun c => (platform (the_terms c), mobile_os (the_terms c))) <$> campaigns w !! 11 = Some ("desktop", None).
Proof. by vm_compute. Qed.

(** Where auctions are on, authors cannot make campaigns: the highest bid is
    asked of a method that has another name. *)
Example no_highest_bid : (handle (EditCampaign (Limits 100 500 0 4 true) author 1 None 11 true false tomorrow) (run [Submit 1 7 "A title" false ""])).2 = Raise AttributeError.
Proof. by vm_compute. Qed.

(** Impressions are whole dollars' worth per thousand. *)
Example impressions_cut : calc_impressions 5050 100 = Ok 50000.
Proof. by vm_compute. Qed.

(** A collection of the name that stands for no collection is read as the first
    of its subreddits. *)
Example collection_lost : let '(names, name) := unpack_target (Collection "subreddit" ["pics"; "gifs"]) in stored_target names name = Subreddit "pics".
Proof. by vm_compute. Qed.

(** The author of a live promotion who deletes it has it rejected: what is
    deleted is no promotion. *)
Example live_deleted : status_of (run (start ++ [Promote sponsor 1; Daily next_day; DeleteLink author 1])) = Some rejected.
Proof. by vm_compute. Qed.

(** A live link that is marked as spam is hidden from the query for what has
    ended, and stays live. *)
Example live_spam_never_expires :
  status_of (run (start ++ [Promote sponsor 1; Daily next_day; Daily (next_day + 100 * day)])) = Some finished /\
  status_of (run (start ++ [Promote sponsor 1; Daily next_day; Spam 1 true; Daily (next_day + 100 * day)])) = Some promoted.
Proof. by vm_compute. Qed.

(** ** What the theorems say here *)

#[local] Instance as_given_laws : HashOrderLaws.
Proof. intros A l. reflexivity. Qed.

Definition live_world : world := run (start ++ [Promote sponsor 1; Daily next_day]).

Definition live_link : link := Link 7 true (Some promoted) false false false false "" None "A title" false "https://example.com/".

Lemma live_is : links live_world !! 1 = Some live_link.
Proof. by vm_compute. Qed.

Lemma live_only_accepted_witness : links live_world !! 1 = Some live_link /\ is_promoted live_link = true /\ PromoteProps.reviewed (start ++ [Promote sponsor 1; Daily next_day]) 1.
Proof.
  split; [exact live_is|split; [reflexivity|]]. apply (PromoteProps.live_only_accepted (start ++ [Promote sponsor 1; Daily next_day]) 1 live_link); [exact live_is|reflexivity].
Defined.

Lemma daily_exact_witness : links live_world !! 1 = Some live_link /\ is_promoted live_link = true /\ PromoteDaily.on_air (promo_datetime_now next_day 0) 1 live_world.
Proof.
  split; [exact live_is|split; [reflexivity|]].
  apply (PromoteDaily.daily_exact (start ++ [Promote sponsor 1]) next_day 1 live_link live_is eq_refl). reflexivity.
Defined.

Lemma listings_are_queries_witness : "live" ∈ statuses /\ PromoteListings.listed live_world "live" (Some 7) 1.
Proof.
  assert (H : "live" ∈ statuses) by (do 3 right; left). split; [exact H|].
  apply (PromoteListings.listings_are_queries (start ++ [Promote sponsor 1; Daily next_day]) "live" (Some 7) 1 H).
  exists live_link. split; [exact live_is|]. exists promoted. split; [reflexivity|split; [reflexivity|right; reflexivity]].
Defined.

Lemma captured_as_held_witness : PromoteMoney.captures (calls live_world) 1000 11 = 1%nat /\ PromoteMoney.held (calls live_world) 1000 11 5000.
Proof.
  split; [by vm_compute|]. apply (proj1 (PromoteMoney.captured_as_held (start ++ [Promote sponsor 1; Daily next_day])) (Some 70) 3 5000 1000 11 0).
  by vm_compute; right; left.
Defined.
End PromoteExamples.

(** A service that never voids. *)
Module NoVoid.
Import Promote PromoteExamples.

#[local] Instance as_given : HashOrder := fun A l => l.

#[local] Instance no_void : Outside :=
  MkOutside (fun calls r => match r with Hold _ _ _ _ _ => granted (Z.of_nat (length calls) + 1000) | VoidHold _ _ _ _ => Response false 3 0 "late" 0 | _ => granted 0 end)
    ∅ ∅ (fun _ _ _ => 0) (fun _ _ => false) "all".

(** A hold that could not be voided is logged as voided, and its campaign has none. *)
Example void_unchecked :
  let w := run (start ++ [DeleteCampaign author 1 11]) in
  (trans_id <$> campaigns w !! 11, status <$> bids w !! (1000, 11), bool_decide ((1, Voided 11 1000) ∈ log w)) = (Some 0, Some AUTH, true).
Proof. by vm_compute. Qed.
End NoVoid.

(** A million impressions were counted. *)
Module Delivered.
Import Promote PromoteExamples.

#[local] Instance as_given : HashOrder := fun A l => l.

#[local] Instance delivered : Outside :=
  MkOutside (fun calls r => match r with Hold _ _ _ _ _ => granted (Z.of_nat (length calls) + 1000) | _ => granted 0 end) ∅ ∅ (fun _ _ _ => 1000000) (fun _ _ => false) "all".

(** A campaign that was delivered in full is not completed but listed as
    underdelivered: what is billable is in dollars, the budget in pennies. *)
Example never_completed :
  let w := run (start ++ [Promote sponsor 1; Daily next_day; Daily (20005 * day)]) in
  (bool_decide (11 ∈ underdelivered w), campaigns w !! 11 ≫= refund_amount, (fun c => get_billable_amount c 1000000) <$> campaigns w !! 11) = (true, None, Some 5000).
Proof. by vm_compute. Qed.
End Delivered.
