(* ===== verification/Wiki.v ===== *)
(** * Wiki: names, permissions, revisions and handlers

    models/wiki.py with lib/merge.py, the validators of lib/validator/wiki.py
    and the handlers of controllers/wiki.py; also the stylesheet of
    models/subreddit.py and the texts of the settings of a sub in
    controllers/api.py, which are pages too.  Ids of revisions are texts; the
    standing of a user on the sub is given with each request. *)

From S2P Require Import Prelude PyString Effects.
From Stdlib Require Import Ascii.

Module Wiki.
Import PyString.

(** ** Names *)

(** [PAGE_ID_SEP], a tab. *)
Definition PAGE_ID_SEP : ascii := "009".

Definition impossible_namespaces : list string := ["edit/"; "revisions/"; "settings/"; "discussions/"; "revisions/"; "pages/"; "create/"].
Definition restricted_namespaces : list string := ["reddit/"; "config/"; "special/"].
Definition special_pages : list string := ["config/automoderator"; "config/description"; "config/sidebar"; "config/stylesheet"; "config/submit_text"].
Definition automatically_created_pages : list string := ["config/description"; "config/sidebar"; "config/stylesheet"; "config/submit_text"].

Definition startswith (l : list string) (page : string) : bool := existsb (fun p => String.prefix p page) l.

Definition is_impossible (page : string) : bool := bool_decide (page +:+ "/" ∈ impossible_namespaces) || startswith impossible_namespaces page.
Definition is_restricted (page : string) : bool := bool_decide (page +:+ "/" ∈ restricted_namespaces) || startswith restricted_namespaces page.
Definition is_special (page : string) : bool := bool_decide (page ∈ special_pages).
Definition get_special_view_permlevel (page : string) : Z := if String.eqb page "config/automoderator" then 2 else 0.
Definition is_automatically_created (page : string) : bool := bool_decide (page ∈ automatically_created_pages).

Definition wiki_id (sr page : string) : string := py_lower (sr +:+ String PAGE_ID_SEP page).

(** [posixpath.normpath], on the parts of a path from the first on; the parts
    kept are in reverse. *)
Definition norm_step (rooted : bool) (kept : list string) (comp : string) : list string :=
  if bool_decide (comp = "" \/ comp = ".") then kept
  else if negb (String.eqb comp "..") || (negb rooted && bool_decide (kept = [])) || bool_decide (head kept = Some "..") then comp :: kept
  else tail kept.

Definition initial_slashes (path : string) : string :=
  if String.prefix "//" path && negb (String.prefix "///" path) then "//" else if String.prefix "/" path then "/" else "".

Definition normpath (path : string) : string :=
  if String.eqb path "" then "."
  else
    let slashes := initial_slashes path in
    let path := slashes +:+ py_join "/" (reverse (foldl (norm_step (negb (String.eqb slashes ""))) [] (py_split "/" path))) in
    if String.eqb path "" then "." else path.

Definition normalize_page (page : string) : string :=
  let page := py_lower (replace_char " " "_" page) in
  py_lstrip (Ascii.eqb "/") (if String.eqb page "" then page else normpath page).

(** [page_match_regex]: some of letters, digits, underscores, hyphens and slashes. *)
Definition is_alpha (a : ascii) : bool := let n := nat_of_ascii a in ((65 <=? n) && (n <=? 90))%nat || ((97 <=? n) && (n <=? 122))%nat.
Definition name_char (a : ascii) : bool := is_alpha a || is_digit a || Ascii.eqb a "_" || Ascii.eqb a "-" || Ascii.eqb a "/".
Definition page_match (page : string) : bool := negb (String.eqb page "") && str_forall name_char page.

(** ** What is stored *)

Record page := WikiPage {
  p_sr : string;
  p_name : string;
  p_content : string;
  p_revision : option string;
  last_edit_by : option Z;
  last_edit_date : option Z;
  permlevel : Z;
  p_listed : bool
}.

Record revision := WikiRevision {
  pageid : string;
  r_content : string;
  r_author : option Z;
  r_reason : option string;
  r_date : Z;
  is_hidden : bool;
  admin_deleted : bool
}.

(** Pages and revisions, what [WikiRevisionHistoryByPage] and [WikiPagesBySR]
    list, the editors of pages, the texts a sub keeps of its pages, and what
    moderators are said to have done. *)
Record world := World {
  pages : gmap string page;
  revisions : gmap string revision;
  history : gmap string (gset string);
  listing : gmap string (gmap string page);
  editors : gmap string (gset Z);
  attributes : gmap (string * string) string;
  modactions : list (string * Z * string)
}.

Definition with_pages x w := World x (revisions w) (history w) (listing w) (editors w) (attributes w) (modactions w).
Definition with_revisions x w := World (pages w) x (history w) (listing w) (editors w) (attributes w) (modactions w).
Definition with_history x w := World (pages w) (revisions w) x (listing w) (editors w) (attributes w) (modactions w).
Definition with_listing x w := World (pages w) (revisions w) (history w) x (editors w) (attributes w) (modactions w).
Definition with_editors x w := World (pages w) (revisions w) (history w) (listing w) x (attributes w) (modactions w).
Definition with_attributes x w := World (pages w) (revisions w) (history w) (listing w) (editors w) x (modactions w).
Definition with_modactions x w := World (pages w) (revisions w) (history w) (listing w) (editors w) (attributes w) x.

Definition set_content (content : string) (author : option Z) (date : Z) (revision : string) (p : page) : page :=
  WikiPage (p_sr p) (p_name p) content (Some revision) author (Some date) (permlevel p) (p_listed p).
Definition set_permlevel (n : Z) (p : page) : page := WikiPage (p_sr p) (p_name p) (p_content p) (p_revision p) (last_edit_by p) (last_edit_date p) n (p_listed p).
Definition set_listed (b : bool) (p : page) : page := WikiPage (p_sr p) (p_name p) (p_content p) (p_revision p) (last_edit_by p) (last_edit_date p) (permlevel p) b.
Definition set_hidden (b : bool) (r : revision) : revision := WikiRevision (pageid r) (r_content r) (r_author r) (r_reason r) (r_date r) b (admin_deleted r).
Definition set_admin_deleted (b : bool) (r : revision) : revision := WikiRevision (pageid r) (r_content r) (r_author r) (r_reason r) (r_date r) (is_hidden r) b.

(** ** Who asks *)

(** The sub of a request, with its settings. *)
Record sub := Sub { sr_id36 : string; wikimode : string; wiki_edit_karma : option Z; wiki_edit_age : option Z }.

(** A user as the sub sees it: its permissions as a moderator, if it is one, its
    karma and the age of its account in days. *)
Record standing := Standing {
  user_id : option Z;
  user_is_admin : bool;
  moderates : option (gset string);
  is_global_banned : bool;
  is_wikibanned : bool;
  is_banned : bool;
  wiki_override : option bool;
  is_wikicontributor : bool;
  wiki_can_submit : bool;
  link_karma : Z;
  comment_karma : Z;
  age : Z;
  is_spam : bool;
  in_timeout : bool
}.

Definition logged_in (u : standing) : bool := bool_decide (is_Some (user_id u)).

Definition is_moderator_with_perms (u : standing) (perms : list string) : bool :=
  negb (is_global_banned u) && match moderates u with Some have => forallb (fun p => bool_decide (p ∈ have)) perms | None => false end.

Definition admin (u : standing) : bool := logged_in u && user_is_admin u.
Definition is_wiki_mod (u : standing) : bool := logged_in u && (user_is_admin u || is_moderator_with_perms u ["wiki"]).

Definition may_view (u : standing) (p : page) : bool :=
  let moderator := logged_in u && is_moderator_with_perms u ["wiki"] in
  if moderator then true
  else
    let level := if is_special (p_name p) then get_special_view_permlevel (p_name p) else permlevel p in
    if level <? 2 then true else if level =? 2 then moderator else false.

Definition has_editor (w : world) (pid : string) (user : Z) : bool := bool_decide (user ∈ default ∅ (editors w !! pid)).

(** The page is given with its id, where there is one. *)
Definition may_revise (w : world) (s : sub) (u : standing) (user : Z) (wp : option (string * page)) : bool :=
  let special := match wp with Some (_, p) => is_special (p_name p) | None => false end in
  if is_moderator_with_perms u ["wiki"] && negb special then true
  else if match wp with Some (_, p) => is_restricted (p_name p) | None => false end && negb special then false
  else if is_wikibanned u then false
  else if is_banned u || is_global_banned u then false
  else if match wp with Some (_, p) => negb (may_view u p) | None => false end then false
  else if bool_decide (wiki_override u = Some false) then false
  else if match wp with Some (pid, _) => has_editor w pid user | None => false end then true
  else if special && is_moderator_with_perms u ["config"] then true
  else if special then false
  else if match wp with Some (_, p) => 0 <? permlevel p | None => false end then false
  else if is_wikicontributor u then true
  else if negb (String.eqb (wikimode s) "anyone") then false
  else if negb (wiki_can_submit u) then false
  else if Z.max (link_karma u) (comment_karma u) <? default 0 (wiki_edit_karma s) then false
  else if age u <? default 0 (wiki_edit_age s) then false
  else true.

Definition this_may_revise (w : world) (s : sub) (u : standing) (wp : option (string * page)) : bool :=
  match user_id u with None => false | Some user => if user_is_admin u then true else may_revise w s u user wp end.

Definition this_may_view (u : standing) (p : page) : bool := if admin u then true else may_view u p.

(** ** Outside *)

(** What a text is once it is rendered: fine, with something that is refused, or
    with something that should not come out of a renderer. *)
Inductive soup := Clean | Unacceptable | Hostile.

(** What [diff3] makes of a text, the original and another text, if they do not
    conflict; what a renderer makes of a text; what a stylesheet is parsed to, or its errors; whether the rules
    of AutoModerator are read without an error; where a stylesheet is kept once
    it is uploaded; how a time is told from now; and the configuration. *)
Class Surroundings := MkSurroundings {
  diff3 : string -> string -> string -> option string;
  markdown_souptest : string -> string -> soup;
  validate_css : string -> string -> list string * string;
  rules_ok : string -> bool;
  upload_stylesheet : string -> string;
  timesince : Z -> Z -> string;
  MAX_PAGE_LENGTH_BYTES : Z;
  wiki_max_config_stylesheet_length_bytes : Z;
  MAX_PAGE_NAME_LENGTH : Z;
  MAX_SEPARATORS : Z;
  css_killswitch : bool;
  disable_wiki : bool
}.

Section operations.
Context `{SU : Surroundings}.

Notation M := (effect world).

Definition max_length (name : string) : Z :=
  if String.eqb name "config/stylesheet" then wiki_max_config_stylesheet_length_bytes
  else if String.eqb name "config/submit_text" then 1024
  else if String.eqb name "config/sidebar" then 5120
  else if String.eqb name "config/description" then 500
  else if String.eqb name "usernotes" then 1024 * 1024
  else MAX_PAGE_LENGTH_BYTES.

(** [threewaymerge]. *)
Definition threewaymerge (original a b : string) : res string :=
  match diff3 a original b with Some final => Ok final | None => Raise ConflictException end.

(** ** Pages and revisions *)

Definition get_page (pid : string) : M page := fun w => (w, of_option NotFound (pages w !! pid)).

(** [WikiRevision.get]. *)
Definition get_revision (revid pid : string) : M revision :=
  fun w => match revisions w !! revid with
  | None => (w, Raise NotFound)
  | Some r => if String.eqb (pageid r) pid then (w, Ok r) else (w, Raise WikiBadRevision)
  end.

(** A commit of a page lists it, one of a revision puts it into the history. *)
Definition commit_page (pid : string) (p : page) : M unit :=
  modify (fun w => with_listing (<[p_sr p := <[pid := p]> (default ∅ (listing w !! p_sr p))]> (listing w)) (with_pages (<[pid := p]> (pages w)) w)).

Definition commit_revision (rid : string) (r : revision) : M unit :=
  modify (fun w => with_history (<[pageid r := {[rid]} ∪ default ∅ (history w !! pageid r)]> (history w)) (with_revisions (<[rid := r]> (revisions w)) w)).

Definition ModAction_create (s : sub) (user : Z) (what : string) : M unit := modify (fun w => with_modactions (modactions w ++ [(sr_id36 s, user, what)]) w).

(** [WikiPage.create], under its lock. *)
Definition create_page (s : sub) (name : string) : M string :=
  if String.eqb name "" then lift (Raise ValueError)
  else
    let name := py_lower name in
    let pid := wiki_id (sr_id36 s) name in
    w <~ ask (fun w => w);;
    match pages w !! pid with
    | Some _ => lift (Raise WikiPageExists)
    | None => commit_page pid (WikiPage (sr_id36 s) name "" None None None 0 true) ;;; ret pid
    end.

(** The revision an edit started from: the id of a revision that was looked up,
    which is no text, or what the request said. *)
Inductive start := UUID (id : string) | Said (text : string).

Definition differs (previous : option start) (current : string) : bool :=
  match previous with Some (UUID _) => true | Some (Said t) => negb (String.eqb t current) | None => true end.

Definition original_content (previous : option start) (pid : string) : M string :=
  match previous with
  | Some (UUID id) => r <~ get_revision id pid;; ret (r_content r)
  | Some (Said t) => if String.eqb t "" then ret "" else (r <~ get_revision t pid;; ret (r_content r))
  | None => ret ""
  end.

(** [revise], with the id and the time of the revision it may make. *)
Definition revise (pid : string) (content : option string) (previous : option start) (author : Z) (force : bool) (reason : option string) (now : Z) (rid : string) : M (option string) :=
  p <~ get_page pid;;
  let content := default "" content in
  if String.eqb (p_content p) content then ret None
  else
    let force := match previous with None => true | Some _ => force end in
    if max_length (p_name p) <? Z.of_nat (String.length content) then lift (Raise ContentLengthError)
    else
      let revision := default "" (p_revision p) in
      content <~ (if negb force && (negb (String.eqb revision "") && differs previous revision) then
        origcontent <~ original_content previous pid;;
        lift (threewaymerge origcontent content (p_content p))
      else ret content);;
      commit_revision rid (WikiRevision pid content (Some author) (match reason with Some "" => None | _ => reason end) now false false) ;;;
      commit_page pid (set_content content (Some author) now rid p) ;;;
      ret (Some rid).

(** No level is no number. *)
Definition change_permlevel (pid : string) (n : option Z) : M unit :=
  p <~ get_page pid;;
  if bool_decide (n = Some (permlevel p)) then ret tt
  else match n with
  | None => lift (Raise TypeError)
  | Some n => if negb ((0 <=? n) && (n <? 3)) then lift (Raise ValueError) else commit_page pid (set_permlevel n p)
  end.

Definition add_editor (pid : string) (user : Z) : M unit := modify (fun w => with_editors (<[pid := {[user]} ∪ default ∅ (editors w !! pid)]> (editors w)) w).
Definition remove_editor (pid : string) (user : Z) : M unit := modify (fun w => with_editors (<[pid := default ∅ (editors w !! pid) ∖ {[user]}]> (editors w)) w).

(** ** The listing of a sub *)

(** [WikiPagesBySR.query]: some of the row after a page, the last first. *)
Fixpoint after_page (after : option string) (row : list (string * page)) : list (string * page) :=
  match after with
  | None => row
  | Some a => match row with [] => [] | kp :: row => if String.eqb kp.1 a then row else after_page after row end
  end.

Definition NUM_AT_A_TIME : nat := Z.to_nat 1000.

(** [get_pages] asks until fewer come than asked for. *)
Fixpoint pages_loop (fuel n : nat) (row : list (string * page)) (after : option string) : option (list (string * page)) :=
  match fuel with
  | O => None
  | S fuel =>
      let wikipages := take n (after_page after row) in
      let num := length wikipages in
      if (num <? n)%nat then Some wikipages
      else rest ← pages_loop fuel n row (fst <$> last wikipages); Some (wikipages ++ rest)
  end.

Definition row_of (sr : string) (w : world) : list (string * page) := reverse (isort (fun a b => String.leb a.1 b.1) (map_to_list (default ∅ (listing w !! sr)))).

Definition get_pages (sr : string) (w : world) (filter_check : page -> bool) : option (list page) :=
  rows ← pages_loop (S (length (row_of sr w))) NUM_AT_A_TIME (row_of sr w) None; Some (List.filter filter_check rows.*2).

(** A tree of pages: entries with a name, a page if there is one, and what is
    below, in the order they were put. *)
Inductive tree := Empty | Entry (name : string) (p : option page) (below : tree) (rest : tree).

(** A node for the rest of a path, put among the entries. *)
Fixpoint put_new (name : string) (p : option page) (below : tree) (t : tree) : tree :=
  match t with Empty => Entry name p below Empty | Entry n q b rest => Entry n q b (put_new name p below rest) end.

Fixpoint new_path (path : list string) (pagename : string) (p : page) : tree :=
  match path with [] => Entry pagename (Some p) Empty Empty | name :: path => Entry name None (new_path path pagename p) Empty end.

Fixpoint has_entry (name : string) (t : tree) : bool := match t with Empty => false | Entry n _ _ rest => String.eqb n name || has_entry name rest end.

Fixpoint set_entry (name : string) (p : page) (t : tree) : tree :=
  match t with Empty => Empty | Entry n q b rest => if String.eqb n name then Entry n (Some p) b rest else Entry n q b (set_entry name p rest) end.

Fixpoint map_below (name : string) (f : tree -> tree) (t : tree) : tree :=
  match t with Empty => Empty | Entry n q b rest => if String.eqb n name then Entry n q (f b) rest else Entry n q b (map_below name f rest) end.

Fixpoint put_page (path : list string) (pagename : string) (p : page) (t : tree) : tree :=
  match path with
  | [] => if has_entry pagename t then set_entry pagename p t else put_new pagename (Some p) Empty t
  | name :: path => if has_entry name t then map_below name (put_page path pagename p) t else put_new name None (new_path path pagename p) t
  end.

Definition path_of (name : string) : list string := py_split "/" name.

(** [get_listing]: the tree and the pages in the order of their names. *)
Definition get_listing (sr : string) (w : world) (filter_check : page -> bool) : option (tree * list page) :=
  pages ← get_pages sr w filter_check;
  let pages := isort (fun a b => String.leb (p_name a) (p_name b)) pages in
  Some (foldl (fun t p => put_page (removelast (path_of (p_name p))) (List.last (path_of (p_name p)) "") p t) Empty pages, pages).

(** ** Validators *)

(** What a validator gives, or the code and the name of its error. *)
Notation checked A := (A + Z * string)%type.

Definition is_ascii (s : string) : bool := str_forall (fun a => (nat_of_ascii a <? 128)%nat) s.

Definition VWikiPageName (param : option string) : checked string :=
  let page := default "" param in
  if negb (is_ascii page) then inr (400, "INVALID_PAGE_NAME")
  else
    let page := normalize_page page in
    if negb (String.eqb page "") && negb (page_match page) then inr (400, "INVALID_PAGE_NAME")
    else
      let page := if String.eqb page "" then "index" else page in
      if is_impossible page then inr (400, "INVALID_PAGE_NAME") else inl page.

(** The page of the sub with its id, if there is one. *)
Definition VWikiPage (required restricted modonly : bool) (w : world) (s : sub) (u : standing) (param : option string) : checked (option (string * page)) :=
  match VWikiPageName param with
  | inr e => inr e
  | inl name =>
      if negb (is_wiki_mod u) && modonly then inr (403, "MOD_REQUIRED")
      else
        let pid := wiki_id (sr_id36 s) name in
        match pages w !! pid with
        | Some p =>
            if restricted && is_restricted (p_name p) && negb (is_wiki_mod u || is_special (p_name p)) then inr (403, "RESTRICTED_PAGE")
            else if negb (this_may_view u p) then inr (403, "MAY_NOT_VIEW")
            else inl (Some (pid, p))
        | None => if required then inr (404, "PAGE_NOT_FOUND") else inl None
        end
  end.

Definition validversion (allow_hidden_revision : bool) (w : world) (u : standing) (version : option string) (pid : string) : checked (option (string * revision)) :=
  match version with
  | None | Some "" => inl None
  | Some v =>
      match (get_revision v pid w).2 with
      | Raise _ => inr (404, "INVALID_REVISION")
      | Ok r =>
          if admin_deleted r && negb (user_is_admin u) then inr (404, "INVALID_REVISION")
          else if negb allow_hidden_revision && (is_hidden r && negb (is_wiki_mod u)) then inr (403, "HIDDEN_REVISION")
          else inl (Some (v, r))
      end
  end.

(** Why a page may not be created: an error of the request, or a reason for the
    handler.  The error of an empty name has its code in the place of parameters,
    and stops nothing. *)
Definition may_not_create (u : standing) (param : string) : checked (option string) :=
  if String.eqb param "" then inl None
  else
    let page := normalize_page param in
    if is_automatically_created page then inl (Some "PAGE_CREATED_ELSEWHERE")
    else if is_special page then
      if negb (user_is_admin u || is_moderator_with_perms u ["config"]) then inr (403, "RESTRICTED_PAGE") else inl None
    else if negb (user_is_admin u) && is_restricted page then inr (403, "RESTRICTED_PAGE")
    else if MAX_SEPARATORS <? Z.of_nat (count_char "/" page) then inl (Some "PAGE_NAME_MAX_SEPARATORS")
    else if MAX_PAGE_NAME_LENGTH <? Z.of_nat (String.length page) then inl (Some "PAGE_NAME_LENGTH")
    else inl None.

Inductive revise_check := MayNotRevise | CreateError (reason : string) | MayCreate | MayRevise (pid : string) (previous : option string).

Definition VWikiPageRevise (w : world) (s : sub) (u : standing) (param previous : option string) : checked revise_check :=
  match VWikiPage false true false w s u param with
  | inr e => inr e
  | inl wp =>
      if negb (this_may_revise w s u wp) then
        match wp with None => inr (404, "PAGE_NOT_FOUND") | Some _ => inl MayNotRevise end
      else match wp with
      | None =>
          match may_not_create u (default "" param) with
          | inr e => inr e
          | inl (Some reason) => inl (CreateError reason)
          | inl None => inl MayCreate
          end
      | Some (pid, _) =>
          match validversion true w u previous pid with
          | inr e => inr e
          | inl prev => inl (MayRevise pid (fst <$> prev))
          end
      end
  end.

(** [VWikiModerator], of the page as the request names it. *)
Definition VWikiModerator (u : standing) (param : option string) : bool :=
  let perms := if is_special (default "" param) then ["wiki"; "config"] else ["wiki"] in
  logged_in u && is_moderator_with_perms u perms || user_is_admin u.

(** ** Handlers *)

Inductive answer := Done | Aborted (code : Z) (reason : string) | Redirected (page : string) | Shown (texts : list string).

Definition abort (e : Z * string) : M answer := ret (Aborted e.1 e.2).

(** What [pre] says before any handler. *)
Definition pre (s : sub) (u : standing) : option (Z * string) :=
  if disable_wiki && negb (user_is_admin u) then Some (403, "WIKI_DOWN")
  else if bool_decide (wikimode s = "" \/ wikimode s = "disabled") && negb (is_wiki_mod u) then Some (403, "WIKI_DISABLED")
  else None.

Definition entering (s : sub) (u : standing) (m : M answer) : M answer := match pre s u with Some e => abort e | None => m end.

Definition VNotInTimeout (u : standing) (m : M answer) : M answer := if logged_in u && in_timeout u then abort (403, "IN_TIMEOUT") else m.

(** A [try] with handlers of some exceptions. *)
Definition catching {A} (h : exn -> option A) (m : M A) : M A :=
  fun w => match m w with (w', Raise e) => match h e with Some a => (w', Ok a) | None => (w', Raise e) end | r => r end.

Definition can_change_stylesheet (u : standing) : bool := logged_in u && (user_is_admin u || is_moderator_with_perms u ["config"]).

Definition parse_css (s : sub) (u : standing) (content : option string) (verify : bool) : option (list string * string) :=
  if css_killswitch || (verify && negb (can_change_stylesheet u)) then None
  else match content with None | Some "" => Some ([], "") | Some text => Some (validate_css (sr_id36 s) text) end.

Definition get_or_create (s : sub) (name : string) : M string :=
  w <~ ask (fun w => w);;
  match pages w !! wiki_id (sr_id36 s) name with Some _ => ret (wiki_id (sr_id36 s) name) | None => create_page s name end.

Definition set_attribute (s : sub) (field value : string) : M unit := modify (fun w => with_attributes (<[(sr_id36 s, field) := value]> (attributes w)) w).

Definition change_css (s : sub) (user : Z) (content : option string) (parsed : string) (prev : option start) (reason : option string) (force : bool) (now : Z) (rid : string) : M unit :=
  pid <~ get_or_create s "config/stylesheet";;
  wr <~ revise pid content prev user force reason now rid;;
  set_attribute s "stylesheet_url" (if String.eqb parsed "" then "" else upload_stylesheet parsed) ;;;
  when (bool_decide (is_Some wr)) (ModAction_create s user "Updated subreddit stylesheet").

Definition ATTRIBUTE_BY_PAGE (name : string) : option string :=
  if String.eqb name "config/sidebar" then Some "description"
  else if String.eqb name "config/submit_text" then Some "submit_text"
  else if String.eqb name "config/description" then Some "public_description"
  else None.

Definition modaction_text (name : string) : string :=
  if String.eqb name "config/automoderator" then "Updated AutoModerator configuration"
  else if String.eqb name "config/description" then "Updated sub description"
  else if String.eqb name "config/sidebar" then "Updated sub sidebar"
  else if String.eqb name "config/submit_text" then "Updated submission text"
  else "Page " +:+ name +:+ " edited".

Definition save_attribute (s : sub) (name : string) (content : option string) : M unit :=
  match ATTRIBUTE_BY_PAGE name with Some field => set_attribute s field (default "" content) | None => ret tt end.

(** Why a text cannot be a page with a meaning of its own. *)
Definition special_validation (s : sub) (u : standing) (name : string) (content : option string) : option (Z * string) :=
  if String.eqb name "config/stylesheet" then
    if css_killswitch then Some (403, "STYLESHEET_EDIT_DENIED")
    else if bool_decide (default [] (fst <$> parse_css s u content false) <> []) then Some (415, "SPECIAL_ERRORS") else None
  else if String.eqb name "config/automoderator" then
    if rules_ok (default "" content) then None else Some (415, "SPECIAL_ERRORS")
  else None.

Definition RENDERERS_BY_PAGE (name : string) : string :=
  if String.eqb name "config/automoderator" then "automoderator"
  else if bool_decide (name ∈ ["config/description"; "config/sidebar"; "config/submit_text"]) then "reddit"
  else if String.eqb name "config/stylesheet" then "stylesheet"
  else if bool_decide (name ∈ ["toolbox"; "usernotes"]) then "rawcode"
  else "wiki".

(** [VMarkdown] of the text of a page, before what needs it. *)
Definition VMarkdown (name : string) (content : option string) (m : M answer) : M answer :=
  let renderer := RENDERERS_BY_PAGE name in
  if bool_decide (renderer ∈ ["wiki"; "reddit"]) then
    match markdown_souptest renderer (default "" content) with Clean => m | Unacceptable => abort (400, "") | Hostile => lift (Raise SoupError) end
  else m.

(** The part of an edit that saves it. *)
Definition save_edit (s : sub) (u : standing) (user : Z) (pid : string) (content : option string) (previous : option start) (reason : option string) (now : Z) (rid : string) : M answer :=
  p <~ get_page pid;;
  VMarkdown (p_name p) content
  match special_validation s u (p_name p) content with
  | Some e => abort e
  | None =>
      catching (fun e => match e with ConflictException => Some (Aborted 409 "EDIT_CONFLICT") | _ => None end)
        (if String.eqb (p_name p) "config/stylesheet" then
          change_css s user content (default "" (snd <$> parse_css s u content false)) previous reason false now rid ;;; ret Done
        else
          catching (fun e => match e with ContentLengthError => Some (Aborted 403 "CONTENT_LENGTH_ERROR") | _ => None end)
            (revise pid content previous user false reason now rid ;;;
             when (is_special (p_name p)) (save_attribute s (p_name p) content) ;;;
             when (is_special (p_name p) || is_wiki_mod u) (ModAction_create s user (modaction_text (p_name p))) ;;;
             ret Done))
  end.

(** An edit by the user who is logged in. *)
Definition POST_wiki_edit (s : sub) (u : standing) (param previous content reason : option string) (now : Z) (rid : string) : M answer :=
  entering s u
    (w <~ ask (fun w => w);;
     match VWikiPageRevise w s u param previous, VWikiPageName param with
     | inr e, _ | _, inr e => abort e
     | inl check, inl page_name =>
         if is_spam u then abort (415, "SPECIAL_ERRORS")
         else
           let user := default 0 (user_id u) in
           match check with
           | CreateError r => abort (403, r)
           | MayNotRevise | MayCreate => VNotInTimeout u
               (created <~ catching (fun e => match e with WikiPageExists => Some None | _ => None end) (pid <~ create_page s page_name;; ret (Some pid));;
                match created with
                | None => abort (400, "WIKI_CREATE_ERROR")
                | Some pid => save_edit s u user pid content (Said <$> previous) reason now rid
                end)
           | MayRevise pid prev => VNotInTimeout u
               (save_edit s u user pid content (match prev with Some r => Some (UUID r) | None => Said <$> previous end) reason now rid)
           end
     end).

(** The handlers that are for the moderators of the wiki. *)
Definition moderated (s : sub) (u : standing) (param : option string) (k : string -> page -> M answer) : M answer :=
  entering s u
    (w <~ ask (fun w => w);;
     if negb (VWikiModerator u param) then abort (403, "MOD_REQUIRED")
     else match VWikiPage true true false w s u param with
     | inr e => abort e
     | inl None => abort (404, "PAGE_NOT_FOUND")
     | inl (Some (pid, p)) => k pid p
     end).

Definition POST_wiki_allow_editor (s : sub) (u : standing) (param : option string) (add : option bool) (user : option Z) : M answer :=
  moderated s u param (fun pid _ =>
    match user with
    | None => abort (404, "UNKNOWN_USER")
    | Some user =>
        match add with
        | None => abort (400, "INVALID_ACTION")
        | Some false => VNotInTimeout u (remove_editor pid user ;;; ret Done)
        | Some true => VNotInTimeout u (add_editor pid user ;;; ret Done)
        end
    end).

(** With a revision of the page. *)
Definition with_revision (u : standing) (pid : string) (version : option string) (k : string -> revision -> M answer) : M answer :=
  w <~ ask (fun w => w);;
  match validversion true w u version pid with
  | inr e => abort e
  | inl None => abort (400, "INVALID_REVISION")
  | inl (Some (rid, r)) => k rid r
  end.

Definition POST_wiki_revision_hide (s : sub) (u : standing) (param version : option string) : M answer :=
  moderated s u param (fun pid _ => with_revision u pid version (fun rid r =>
    VNotInTimeout u (commit_revision rid (set_hidden (negb (is_hidden r)) r) ;;; ret Done))).

Definition POST_wiki_revision_revert (s : sub) (u : standing) (param version : option string) (now : Z) (new_rid : string) : M answer :=
  moderated s u param (fun pid p => with_revision u pid version (fun _ r =>
    VNotInTimeout u
      (let content := Some (r_content r) in
       let reason := Some ("reverted back " +:+ timesince now (r_date r)) in
       let user := default 0 (user_id u) in
       if String.eqb (p_name p) "config/stylesheet" then
         let css := parse_css s u content true in
         if bool_decide (default [] (fst <$> css) <> []) then abort (403, "INVALID_CSS")
         else change_css s user content (default "" (snd <$> css)) None reason true now new_rid ;;; ret Done
       else
         catching (fun e => match e with ContentLengthError => Some (Aborted 403 "CONTENT_LENGTH_ERROR") | _ => None end)
           (revise pid content None user true reason now new_rid ;;; save_attribute s (p_name p) content ;;; ret Done)))).

Definition POST_wiki_revision_delete (s : sub) (u : standing) (param version : option string) (deleted : bool) : M answer :=
  entering s u
    (w <~ ask (fun w => w);;
     if negb (user_is_admin u) then abort (403, "forbidden")
     else match VWikiPage true true false w s u param with
     | inr e => abort e
     | inl None => abort (404, "PAGE_NOT_FOUND")
     | inl (Some (pid, p)) => with_revision u pid version (fun rid r =>
         if deleted && bool_decide (p_revision p = Some rid) then abort (400, "REVISION_IS_CURRENT")
         else commit_revision rid (set_admin_deleted deleted r) ;;; ret Done)
     end).

(** The settings of a page; no level is one that is no number. *)
Definition POST_wiki_settings (s : sub) (u : standing) (param : option string) (level : option Z) (listed : bool) : M answer :=
  entering s u
    (w <~ ask (fun w => w);;
     match VWikiPage true true true w s u param with
     | inr e => abort e
     | inl None => abort (404, "PAGE_NOT_FOUND")
     | inl (Some (pid, p)) =>
         let user := default 0 (user_id u) in
         let body :=
           r <~ catching (fun e => match e with ValueError => Some false | _ => None end) (change_permlevel pid level ;;; ret true);;
           if negb r then abort (403, "INVALID_PERMLEVEL")
           else
             when (negb (Bool.eqb (p_listed p) listed))
               (q <~ get_page pid;; commit_page pid (set_listed listed q) ;;;
                ModAction_create s user ((if listed then "Relisted page " else "Delisted page ") +:+ p_name p)) ;;;
             when (bool_decide (level <> Some (permlevel p))) (ModAction_create s user ("Page: " +:+ p_name p +:+ ", Changed from " +:+ py_str_int (permlevel p) +:+ " to " +:+ py_str_int (default 0 level))) ;;;
             ret Done in
         if bool_decide (level <> Some (permlevel p)) || negb (Bool.eqb (p_listed p) listed) then VNotInTimeout u body else body
     end).

(** The form of the stylesheet, saved or shown before. *)
Definition POST_subreddit_stylesheet (s : sub) (u : standing) (content reason : option string) (save : bool) (now : Z) (rid : string) : M answer :=
  if negb (logged_in u && is_moderator_with_perms u ["config"] || user_is_admin u) then abort (403, "forbidden")
  else if css_killswitch then abort (403, "forbidden")
  else
    let css := parse_css s u content true in
    if bool_decide (default [] (fst <$> css) <> []) then abort (200, "BAD_CSS")
    else VNotInTimeout u (when save (change_css s (default 0 (user_id u)) content (default "" (snd <$> css)) None reason false now rid) ;;; ret Done).

(** The texts of a sub in its settings: [apply_wikid_field] of each; what the
    sub keeps of them is committed in the end. *)
Definition apply_wikid_field (s : sub) (user : Z) (pagename value : string) (now : Z) (rid : string) : M unit :=
  pid <~ get_or_create s pagename;;
  wr <~ revise pid (Some value) None user false None now rid;;
  when (bool_decide (is_Some wr)) (ModAction_create s user (modaction_text pagename)).

Definition update_wiki_text (s : sub) (u : standing) (description submit_text public_description : string) (now : Z) (r1 r2 r3 : string) : M answer :=
  if negb (is_spam u) && (is_moderator_with_perms u ["config"] || user_is_admin u) then VNotInTimeout u
    (let user := default 0 (user_id u) in
     apply_wikid_field s user "config/sidebar" description now r1 ;;;
     apply_wikid_field s user "config/submit_text" submit_text now r2 ;;;
     apply_wikid_field s user "config/description" public_description now r3 ;;;
     set_attribute s "description" description ;;;
     set_attribute s "submit_text" submit_text ;;;
     set_attribute s "public_description" public_description ;;;
     ret Done)
  else ret Done.

(** What a visitor is shown of a page, or of one or two of its revisions. *)
Definition GET_wiki_page (s : sub) (u : standing) (param v v2 : option string) (w : world) : answer :=
  match pre s u with
  | Some e => Aborted e.1 e.2
  | None =>
      match VWikiPage false false false w s u param, VWikiPageName param with
      | inr e, _ | _, inr e => Aborted e.1 e.2
      | inl wp, inl page_name =>
          let versions := match wp with
            | None => inl (None, None)
            | Some (pid, _) =>
                match validversion false w u v pid, validversion false w u v2 pid with
                | inr e, _ | _, inr e => inr e
                | inl r, inl r2 => inl (snd <$> r, snd <$> r2)
                end
            end in
          match versions with
          | inr e => Aborted e.1 e.2
          | inl (version, version2) =>
              if negb (bool_decide (param = Some page_name)) then Redirected page_name
              else match wp, version, version2 with
              | None, _, _ => Aborted 404 "PAGE_NOT_FOUND"
              | Some (_, p), None, _ => Shown [p_content p]
              | Some _, Some r, None => Shown [r_content r]
              | Some _, Some r, Some r2 => Shown [r_content r; r_content r2]
              end
          end
      end
  end.

(** The pages a visitor is listed. *)
Definition GET_wiki_listing (s : sub) (u : standing) (w : world) : option (tree * list page) :=
  get_listing (sr_id36 s) w (fun p => p_listed p && this_may_view u p).

(** ** Histories *)

Inductive op :=
  | Edit (s : sub) (u : standing) (param previous content reason : option string) (now : Z) (rid : string)
  | AllowEditor (s : sub) (u : standing) (param : option string) (add : option bool) (user : option Z)
  | Hide (s : sub) (u : standing) (param version : option string)
  | Revert (s : sub) (u : standing) (param version : option string) (now : Z) (rid : string)
  | Delete (s : sub) (u : standing) (param version : option string) (deleted : bool)
  | Settings (s : sub) (u : standing) (param : option string) (level : option Z) (listed : bool)
  | SiteAdmin (s : sub) (u : standing) (description submit_text public_description : string) (now : Z) (r1 r2 r3 : string)
  | Stylesheet (s : sub) (u : standing) (content reason : option string) (save : bool) (now : Z) (rid : string).

(** New revisions have ids of their own. *)
Definition fresh (rid : string) (w : world) : bool := negb (String.eqb rid "") && bool_decide (revisions w !! rid = None).

Definition new_ids (o : op) : list string :=
  match o with Edit _ _ _ _ _ _ _ rid | Revert _ _ _ _ _ rid | Stylesheet _ _ _ _ _ _ rid => [rid] | SiteAdmin _ _ _ _ _ _ r1 r2 r3 => [r1; r2; r3] | _ => [] end.

Definition request (o : op) : M answer :=
  match o with
  | Edit s u param previous content reason now rid => POST_wiki_edit s u param previous content reason now rid
  | AllowEditor s u param add user => POST_wiki_allow_editor s u param add user
  | Hide s u param version => POST_wiki_revision_hide s u param version
  | Revert s u param version now rid => POST_wiki_revision_revert s u param version now rid
  | Delete s u param version deleted => POST_wiki_revision_delete s u param version deleted
  | Settings s u param level listed => POST_wiki_settings s u param level listed
  | SiteAdmin s u d st pd now r1 r2 r3 => update_wiki_text s u d st pd now r1 r2 r3
  | Stylesheet s u content reason save now rid => POST_subreddit_stylesheet s u content reason save now rid
  end.

Definition handle (o : op) : M answer :=
  fun w => if forallb (fun rid => fresh rid w) (new_ids o) && bool_decide (NoDup (new_ids o)) then request o w else (w, Ok Done).

Definition empty : world := World ∅ ∅ ∅ ∅ ∅ ∅ [].

Definition run (ops : list op) : world := foldl (fun w o => after (handle o) w) empty ops.
End operations.
End Wiki.
