(* ===== verification/WikiProps.v ===== *)
(** * Wiki: names, pages and their revisions

    [WikiNames]: a name that is accepted is settled.  [WikiProps]: what edits do
    in [revise], and what holds of the pages of all subs whatever requests there
    are: pages show their current revision. *)

From S2P Require Import Prelude PyString Effects Wiki.
From Stdlib Require Import Ascii.

(** ** Names that are accepted are settled *)

Module WikiNames.
Import PyString Wiki.

(** Neither a letter that has a small one, nor a space. *)
Definition settled (a : ascii) : bool := Ascii.eqb (lower_char a) a && negb (Ascii.eqb a " ").

Lemma settled_lower s : str_forall settled s = true -> py_lower s = s.
Proof. induction s as [|a s IH]; [done|]. cbn. intros [[Ha%Ascii.eqb_eq _]%andb_true_iff Hs]%andb_true_iff. by rewrite Ha, IH. Qed.

Lemma settled_spaces s : str_forall settled s = true -> replace_char " " "_" s = s.
Proof. intros Hs. apply replace_char_none, (str_forall_contains settled); done. Qed.

Lemma lower_settled s : str_forall settled (py_lower (replace_char " " "_" s)) = true.
Proof.
  induction s as [|a s IH]; [done|]. cbn. rewrite IH, andb_true_r. destruct (Ascii.eqb a " ") eqn:Ea; [done|].
  clear IH. revert Ea. destruct a as [[] [] [] [] [] [] [] []]; intros Ea; first [discriminate Ea | reflexivity].
Qed.

Lemma forall_split f sep s : str_forall f s = true -> Forall (fun c => str_forall f c = true) (py_split sep s).
Proof.
  induction s as [|a s IH]; [by repeat constructor|]. cbn. intros [Ha Hs]%andb_true_iff. specialize (IH Hs). destruct (Ascii.eqb a sep); [by constructor|].
  destruct (py_split sep s) as [|w ws]; [constructor; [cbn; by rewrite Ha|done]|]. inversion IH; subst. constructor; [cbn; by rewrite Ha|done].
Qed.

Lemma forall_join f sep l : str_forall f sep = true -> Forall (fun c => str_forall f c = true) l -> str_forall f (py_join sep l) = true.
Proof.
  intros Hsep Hl. induction Hl as [|w l Hw Hl IH]; [done|]. destruct l as [|w' l]; [done|]. rewrite py_join_cons, !str_forall_app, Hw, Hsep, IH. done.
Qed.

Lemma forall_lstrip f g s : str_forall f s = true -> str_forall f (py_lstrip g s) = true.
Proof. induction s as [|a s IH]; [done|]. cbn. intros [Ha Hs]%andb_true_iff. destruct (g a); [by apply IH|cbn; by rewrite Ha]. Qed.

(** ** Parts of paths *)

Definition part (c : string) : Prop := c <> "" /\ c <> "." /\ contains "/" c = false.

Lemma norm_step_forall (P : string -> Prop) rooted kept c : Forall P kept -> (c <> "" -> c <> "." -> P c) -> Forall P (norm_step rooted kept c).
Proof.
  intros Hk Hc. unfold norm_step. case_bool_decide as Hd; [done|]. destruct (_ || _); [constructor; [apply Hc; tauto|done]|]. by destruct Hk.
Qed.

Lemma norm_forall (P : string -> Prop) rooted l : forall kept, Forall P kept -> Forall (fun c => c <> "" -> c <> "." -> P c) l -> Forall P (foldl (norm_step rooted) kept l).
Proof. induction l as [|c l IH]; intros kept Hk Hl; [done|]. inversion Hl; subst. cbn. apply IH; [by apply norm_step_forall|done]. Qed.

(** Parts that mean themselves are kept as they are. *)
Lemma norm_parts l : forall kept, Forall (fun c => part c /\ c <> "..") l -> foldl (norm_step false) kept l = reverse l ++ kept.
Proof.
  induction l as [|c l IH]; intros kept Hl; [done|]. inversion Hl as [|? ? [(H1 & H2 & H3) H4] Hl']; subst. cbn [foldl]. rewrite IH by done.
  unfold norm_step. rewrite bool_decide_false by tauto. rewrite reverse_cons, <- app_assoc. cbn. apply String.eqb_neq in H4 as ->. done.
Qed.

Lemma lstrip_parts l : Forall part l -> py_lstrip (Ascii.eqb "/") (py_join "/" l) = py_join "/" l.
Proof.
  intros Hl. destruct Hl as [|c l (H1 & _ & H3) Hl]; [done|]. assert (Hc : forall t, py_lstrip (Ascii.eqb "/") (c +:+ t) = c +:+ t).
  { intros t. destruct c as [|a c]; [done|]. cbn [contains] in H3. apply orb_false_iff in H3 as [H3 _]. rewrite string_app_cons. cbn [py_lstrip]. by rewrite Ascii.eqb_sym, H3. }
  destruct l as [|c' l]; [rewrite <- (string_app_nil_r c) at 1; cbn; rewrite Hc; apply string_app_nil_r|]. rewrite py_join_cons. apply Hc.
Qed.

Lemma join_parts l : Forall part l -> py_join "/" l = "" -> l = [].
Proof. intros Hl E. destruct Hl as [|c l (H1 & _ & _) Hl]; [done|]. destruct l; cbn in E; by destruct c. Qed.

(** What [normpath] gives of a path: slashes and parts. *)
Lemma normpath_parts x : x <> "" -> str_forall settled x = true -> normpath x = "." \/
  exists slashes l, normpath x = slashes +:+ py_join "/" l /\ slashes ∈ [""; "/"; "//"] /\ Forall part l /\ Forall (fun c => str_forall settled c = true) l.
Proof.
  intros Hx Hs. unfold normpath. apply String.eqb_neq in Hx as ->. set (sl := initial_slashes x). set (l := reverse _). cbn zeta.
  destruct (String.eqb (sl +:+ py_join "/" l) "") eqn:E; [by left|]. right. exists sl, l. split; [done|]. split.
  - unfold sl, initial_slashes. destruct (_ && _); [by right; right; left|]. destruct (String.prefix "/" x); [by right; left|by left].
  - unfold l. rewrite !Forall_reverse. split; apply norm_forall; try constructor.
    + eapply Forall_impl; [apply py_split_words|]. intros c Hc H1 H2. split_and!; done.
    + eapply Forall_impl; [by apply forall_split|]. done.
Qed.

Lemma lstrip_slashes sl l : sl ∈ [""; "/"; "//"] -> Forall part l -> py_lstrip (Ascii.eqb "/") (sl +:+ py_join "/" l) = py_join "/" l.
Proof. intros Hsl Hl. pose proof (lstrip_parts l Hl) as E. set_unfold. destruct Hsl as [-> | [-> | [-> | []]]]; exact E. Qed.

Lemma match_parts l : str_forall name_char (py_join "/" l) = true -> Forall part l -> Forall (fun c => part c /\ c <> "..") l.
Proof.
  intros Hm Hl. assert (Hdot : forall c, c ∈ l -> contains "." c = false).
  { intros c Hc. apply (str_forall_contains name_char); [|done]. revert Hm. apply list_elem_of_split in Hc as (l1 & l2 & ->). clear Hl. induction l1 as [|d l1 IH]; cbn [app].
    - destruct l2 as [|e l2]; [done|]. rewrite py_join_cons, str_forall_app. by intros [? _]%andb_true_iff.
    - destruct (l1 ++ c :: l2) as [|e l3] eqn:E; [by destruct l1|]. rewrite py_join_cons, !str_forall_app. intros [_ [_ H]%andb_true_iff]%andb_true_iff. by apply IH. }
  rewrite Forall_forall in *. intros c Hc. split; [by apply Hl|]. intros ->. by specialize (Hdot _ Hc).
Qed.

(** A relative path of such parts is its own normal form. *)
Lemma normal_parts l : l <> [] -> Forall (fun c => part c /\ c <> "..") l -> Forall (fun c => str_forall settled c = true) l -> normalize_page (py_join "/" l) = py_join "/" l.
Proof.
  intros Hne Hl Hs. assert (Hp : Forall part l) by (eapply Forall_impl; [exact Hl|by intros c []]).
  assert (Hj : str_forall settled (py_join "/" l) = true) by by apply forall_join.
  assert (He : py_join "/" l <> "") by (intros E; by apply Hne, join_parts).
  unfold normalize_page. rewrite settled_spaces, settled_lower by done. pose proof He as ->%String.eqb_neq. unfold normpath. pose proof He as ->%String.eqb_neq.
  assert (Hsl : initial_slashes (py_join "/" l) = "").
  { pose proof (lstrip_parts l Hp) as E. destruct (py_join "/" l) as [|a t] eqn:Ej; [done|]. cbn [py_lstrip] in E. destruct (Ascii.eqb_spec "/" a) as [<- | Hn].
    - exfalso. revert E. clear. intros E. assert (H : (String.length (py_lstrip (Ascii.eqb "/") t) <= String.length t)%nat).
      { clear E. induction t as [|b t IH]; [done|]. cbn. destruct b as [[] [] [] [] [] [] [] []]; cbn; lia. }
      rewrite E in H. cbn in H. lia.
    - assert (Hpre : forall p, String.prefix (String "/" p) (String a t) = false) by (intros p; cbn [String.prefix]; by destruct (ascii_dec "/" a)).
      unfold initial_slashes. by rewrite !Hpre. }
  rewrite Hsl, py_split_join; [|done|eapply Forall_impl; [exact Hp|by intros c (_ & _ & ?)]]. rewrite norm_parts, app_nil_r, reverse_involutive by done. cbn zeta.
  change ("" +:+ py_join "/" l) with (py_join "/" l). apply String.eqb_neq in He as ->. by apply lstrip_parts.
Qed.

(** A name of a page that is accepted is accepted as it is, so that who is
    redirected to it is not redirected again; its parts are words of letters,
    digits, hyphens and underscores, and it names no page of the handlers. *)
Theorem names_settle param page : VWikiPageName param = inl page ->
  VWikiPageName (Some page) = inl page /\ Forall (fun c => c <> "" /\ str_forall name_char c = true) (path_of page) /\ is_impossible page = false.
Proof.
  unfold VWikiPageName. destruct (negb (is_ascii (default "" param))); [done|]. set (q := normalize_page (default "" param)).
  destruct (String.eqb_spec q "") as [Eq | Hne].
  { cbn [negb andb]. destruct (is_impossible "index") eqn:E; [by vm_compute in E|]. intros [= <-]. split; [by vm_compute|]. split; [|done].
    constructor; [split; [done|by vm_compute]|constructor]. }
  cbn [negb andb]. destruct (page_match q) eqn:Hm; [|done]. cbn [negb]. destruct (is_impossible q) eqn:Hi; [done|]. intros [= <-].
  apply andb_true_iff in Hm as [_ Hm].
  assert (Hl : exists l, q = py_join "/" l /\ l <> [] /\ Forall part l /\ Forall (fun c => str_forall settled c = true) l).
  { unfold q, normalize_page in *. set (x := py_lower (replace_char " " "_" (default "" param))) in *. destruct (String.eqb_spec x "") as [Ex | Ex]; [by rewrite Ex in Hne|].
    destruct (normpath_parts x Ex (lower_settled _)) as [E | (sl & l & E & Hsl & Hl & Hs)]; rewrite E in *; [by vm_compute in Hm|].
    rewrite lstrip_slashes in * by done. exists l. split_and!; try done. by intros ->. }
  destruct Hl as (l & -> & Hnl & Hl & Hs). pose proof (match_parts l Hm Hl) as Hl'.
  assert (Hasc : is_ascii (py_join "/" l) = true).
  { unfold is_ascii. revert Hm. generalize (py_join "/" l) as t. clear. induction t as [|a t IH]; [done|]. cbn [str_forall]. intros [Ha Ht]%andb_true_iff. rewrite IH by done.
    rewrite andb_true_r. destruct a as [[] [] [] [] [] [] [] []]; first [discriminate Ha | reflexivity]. }
  change (default "" (Some (py_join "/" l))) with (py_join "/" l). rewrite Hasc. cbn [negb]. rewrite normal_parts by done. apply String.eqb_neq in Hne as Hne'. rewrite Hne'. cbn [negb andb]. unfold page_match. rewrite Hne', Hm, Hi. cbn [negb andb].
  split; [done|]. split; [|done]. unfold path_of. rewrite py_split_join; [|done|eapply Forall_impl; [exact Hl|by intros c (_ & _ & ?)]].
  assert (Hc : Forall (fun c => str_forall name_char c = true) (py_split "/" (py_join "/" l))) by by apply forall_split.
  rewrite py_split_join in Hc; [|done|eapply Forall_impl; [exact Hl|by intros c (_ & _ & ?)]]. clear - Hl Hc. induction Hl as [|c l (H1 & _ & _) Hl IH]; [constructor|].
  inversion Hc; subst. constructor; [done|by apply IH].
Qed.
End WikiNames.

Module WikiProps.
Import PyString Wiki WikiNames.

(** ** Names and ids *)

Definition name_ok (name : string) : Prop := name <> "" /\ contains PAGE_ID_SEP name = false /\ py_lower name = name.

Lemma lower_app s t : py_lower (s +:+ t) = py_lower s +:+ py_lower t.
Proof. induction s as [|a s IH]; [done|]. rewrite string_app_cons. cbn. by rewrite IH. Qed.

Lemma wiki_id_eq sr name : py_lower name = name -> wiki_id sr name = py_lower sr +:+ String PAGE_ID_SEP name.
Proof. intros E. unfold wiki_id. rewrite lower_app. cbn. by rewrite E. Qed.

Lemma wiki_id_name sr sr' name name' : name_ok name -> name_ok name' -> wiki_id sr name = wiki_id sr' name' -> name = name' /\ py_lower sr = py_lower sr'.
Proof.
  intros (_ & Ht & El) (_ & Ht' & El') E. rewrite !wiki_id_eq in E by done.
  pose proof (rpartition_app PAGE_ID_SEP (py_lower sr) name Ht) as H1. rewrite E, rpartition_app in H1 by done. by injection H1.
Qed.

Lemma normalized_settled s : str_forall settled (normalize_page s) = true.
Proof.
  unfold normalize_page. cbn zeta. apply forall_lstrip. set (x := py_lower _). destruct (String.eqb_spec x "") as [-> | Hx]; [done|].
  destruct (normpath_parts x Hx (lower_settled _)) as [-> | (sl & l & -> & Hsl & _ & Hs)]; [done|]. rewrite str_forall_app, andb_true_iff.
  split; [set_unfold; by destruct Hsl as [-> | [-> | [-> | []]]]|by apply forall_join].
Qed.

Lemma settled_name_ok q : q <> "" -> str_forall name_char q = true -> str_forall settled q = true -> name_ok q.
Proof. intros H1 H2 H3. split_and!; [done|by apply (str_forall_contains name_char)|by apply settled_lower]. Qed.

Lemma accepted_name param name : VWikiPageName param = inl name -> name_ok name.
Proof.
  unfold VWikiPageName. destruct (negb (is_ascii _)); [done|]. pose proof (normalized_settled (default "" param)) as Hq. revert Hq.
  generalize (normalize_page (default "" param)) as q. intros q Hq. cbn zeta. destruct (String.eqb_spec q "") as [-> | Hne]; cbn [negb andb].
  - destruct (is_impossible "index"); [done|]. intros [= <-]. split_and!; [done|by vm_compute..].
  - destruct (page_match q) eqn:Hm; [|done]. cbn [negb]. destruct (is_impossible q); [done|]. intros [= <-]. apply andb_true_iff in Hm as [_ Hm]. by apply settled_name_ok.
Qed.

(** ** What holds of all pages *)

Definition current (w : world) (pid : string) (p : page) : Prop :=
  match p_revision p with
  | None => p_content p = ""
  | Some rid => rid <> "" /\ exists r, revisions w !! rid = Some r /\ pageid r = pid /\ r_content r = p_content p /\ admin_deleted r = false /\ r_author r = last_edit_by p /\ last_edit_date p = Some (r_date r)
  end.

Record inv (w : world) : Prop := Inv {
  i_name pid p : pages w !! pid = Some p -> pid = wiki_id (p_sr p) (p_name p) /\ name_ok (p_name p);
  i_current pid p : pages w !! pid = Some p -> current w pid p;
  i_page rid r : revisions w !! rid = Some r -> is_Some (pages w !! pageid r);
  i_history pid rid : rid ∈ default ∅ (history w !! pid) <-> exists r, revisions w !! rid = Some r /\ pageid r = pid;
  i_listing sr pid p : default ∅ (listing w !! sr) !! pid = Some p <-> pages w !! pid = Some p /\ p_sr p = sr
}.

Lemma inv_empty : inv empty.
Proof.
  split; cbn.
  - intros pid p. by rewrite lookup_empty.
  - intros pid p. by rewrite lookup_empty.
  - intros rid r. by rewrite lookup_empty.
  - intros pid rid. rewrite lookup_empty. cbn. split; [by intros []%elem_of_empty|intros (r & E & _); by rewrite lookup_empty in E].
  - intros sr pid p. rewrite lookup_empty. cbn. rewrite !lookup_empty. split; [done|by intros []].
Qed.

Section worlds.
Context `{SU : Surroundings}.

(** What depends on nothing but pages and revisions. *)
Definition same_wiki (w w' : world) : Prop := pages w' = pages w /\ revisions w' = revisions w /\ history w' = history w /\ listing w' = listing w.

#[export] Instance same_wiki_preorder : PreOrder same_wiki.
Proof. split; [done|]. intros w1 w2 w3 (E1 & E2 & E3 & E4) (F1 & F2 & F3 & F4). split_and!; congruence. Qed.

Lemma same_wiki_inv w w' : same_wiki w w' -> inv w -> inv w'.
Proof. intros (E1 & E2 & E3 & E4) [I1 I2 I3 I4 I5]. split; unfold current; rewrite ?E1, ?E2, ?E3, ?E4; done. Qed.

Definition committed_page (pid : string) (p : page) (w : world) : world := after (commit_page pid p) w.
Definition committed_revision (rid : string) (r : revision) (w : world) : world := after (commit_revision rid r) w.

Lemma listing_committed pid p w sr k q : default ∅ (listing (committed_page pid p w) !! sr) !! k = Some q <->
  (sr = p_sr p /\ k = pid /\ q = p) \/ ~ (sr = p_sr p /\ k = pid) /\ default ∅ (listing w !! sr) !! k = Some q.
Proof.
  unfold committed_page, commit_page, after. cbn. destruct (decide (sr = p_sr p)) as [-> | Hs].
  - rewrite lookup_insert_eq. change (default ∅ (Some (<[pid:=p]> (default ∅ (listing w !! p_sr p))))) with (<[pid:=p]> (default ∅ (listing w !! p_sr p))).
    destruct (decide (k = pid)) as [-> | Hk]; [rewrite lookup_insert_eq; naive_solver|rewrite lookup_insert_ne by done; naive_solver].
  - rewrite lookup_insert_ne by done. naive_solver.
Qed.

(** A page that is new, or another state of one. *)
Lemma commit_page_inv pid p w : inv w -> pid = wiki_id (p_sr p) (p_name p) /\ name_ok (p_name p) -> (forall q, pages w !! pid = Some q -> p_sr q = p_sr p) -> current w pid p ->
  inv (committed_page pid p w).
Proof.
  intros [I1 I2 I3 I4 I5] Hn Hsr Hc. assert (Hp : forall k, pages (committed_page pid p w) !! k = if bool_decide (k = pid) then Some p else pages w !! k).
  { intros k. unfold committed_page, commit_page, after. cbn. case_bool_decide as Hk; [subst k; by rewrite lookup_insert_eq|by rewrite lookup_insert_ne]. }
  split.
  - intros k q. rewrite Hp. case_bool_decide as Hk; [intros [= <-]; subst k; done|apply I1].
  - intros k q. rewrite Hp. case_bool_decide as Hk; [intros [= <-]; subst k; exact Hc|apply I2].
  - intros rid r Hr. rewrite Hp. case_bool_decide; [done|]. by apply (I3 rid).
  - exact I4.
  - intros sr k q. rewrite listing_committed, Hp. case_bool_decide as Hk.
    + subst k. split; [intros [(-> & _ & ->) | [Hne [E <-]%I5]]; [done|]|intros [[= <-] <-]; left; done]. exfalso. apply Hne. split; [by apply Hsr|done].
    + rewrite I5. split; [intros [(_ & ? & _) | [_ ?]]; done|]. intros H. right. split; [by intros [_ ?]|done].
Qed.

Lemma history_committed rid r w pid k : k ∈ default ∅ (history (committed_revision rid r w) !! pid) <-> (k = rid /\ pid = pageid r) \/ k ∈ default ∅ (history w !! pid).
Proof.
  unfold committed_revision, commit_revision, after. cbn. destruct (decide (pid = pageid r)) as [-> | Hne].
  - rewrite lookup_insert_eq. change (default ∅ (Some ({[rid]} ∪ default ∅ (history w !! pageid r)))) with ({[rid]} ∪ default ∅ (history w !! pageid r)). set_solver.
  - rewrite lookup_insert_ne by done. naive_solver.
Qed.

(** A new revision, or another state of one; one that is current is not deleted. *)
Lemma commit_revision_inv rid r w : inv w -> is_Some (pages w !! pageid r) ->
  (forall r0, revisions w !! rid = Some r0 -> pageid r0 = pageid r /\ r_content r0 = r_content r /\ r_author r0 = r_author r /\ r_date r0 = r_date r) ->
  (forall p, pages w !! pageid r = Some p -> p_revision p = Some rid -> admin_deleted r = false) -> inv (committed_revision rid r w).
Proof.
  intros [I1 I2 I3 I4 I5] Hp Hsame Hdel. assert (Hr : forall k, revisions (committed_revision rid r w) !! k = if bool_decide (k = rid) then Some r else revisions w !! k).
  { intros k. unfold committed_revision, commit_revision, after. cbn. case_bool_decide as Hk; [subst k; by rewrite lookup_insert_eq|by rewrite lookup_insert_ne]. }
  split.
  - exact I1.
  - intros pid p E. specialize (I2 pid p E). unfold current in *. destruct (p_revision p) as [k|] eqn:Ek; [|done]. destruct I2 as [Hk (r0 & E0 & H1 & H2 & H3 & H4 & H5)]. split; [done|].
    rewrite Hr. case_bool_decide as Hd; [|by exists r0]. subst k. destruct (Hsame r0 E0) as (G1 & G2 & G3 & G4). exists r. split_and!; try done; try congruence.
    apply (Hdel p); [by rewrite <- G1, H1|done].
  - intros k r0. rewrite Hr. case_bool_decide; [by intros [= <-]|apply I3].
  - intros pid k. rewrite history_committed, Hr, I4. case_bool_decide as Hk.
    + subst k. split; [intros [[_ ->] | (r0 & E0 & <-)]; [by exists r|exists r; split; [done|]; symmetry; by apply Hsame]|intros (r0 & [= <-] & <-); by left].
    + split; [intros [[? _] | ?]; done|by right].
  - exact I5.
Qed.
End worlds.

Section revising.
Context `{SU : Surroundings}.

(** ** What [revise] does *)

(** What an edit may be built on: nothing, or what it started from. *)
Definition started (w : world) (pid : string) (previous : option start) (orig : string) : Prop :=
  match previous with
  | Some (UUID id) => exists r, revisions w !! id = Some r /\ pageid r = pid /\ orig = r_content r
  | Some (Said t) => t = "" /\ orig = "" \/ t <> "" /\ exists r, revisions w !! t = Some r /\ pageid r = pid /\ orig = r_content r
  | None => orig = ""
  end.

Definition built (w : world) (pid : string) (p : page) (previous : option start) (force : bool) (content new : string) : Prop :=
  new = content /\ (force = true \/ previous = None \/ default "" (p_revision p) = "" \/ differs previous (default "" (p_revision p)) = false) \/
  force = false /\ previous <> None /\ exists orig, started w pid previous orig /\ diff3 content orig (p_content p) = Some new.

Definition new_revision (pid content : string) (user : Z) (reason : option string) (now : Z) : revision :=
  WikiRevision pid content (Some user) (match reason with Some "" => None | _ => reason end) now false false.

Definition revised (pid : string) (p : page) (content : string) (user : Z) (reason : option string) (now : Z) (rid : string) (w : world) : world :=
  committed_page pid (set_content content (Some user) now rid p) (committed_revision rid (new_revision pid content user reason now) w).

Lemma original_spec previous pid w : (original_content previous pid w).1 = w /\ forall orig, (original_content previous pid w).2 = Ok orig -> started w pid previous orig.
Proof.
  assert (Hrev : forall id, ((r <~ get_revision id pid;; ret (r_content r)) w).1 = w /\
    forall orig, ((r <~ get_revision id pid;; ret (r_content r)) w).2 = Ok orig -> exists r, revisions w !! id = Some r /\ pageid r = pid /\ orig = r_content r).
  { intros id. unfold get_revision, bind. destruct (revisions w !! id) as [r|]; [|done]. destruct (String.eqb_spec (pageid r) pid); [|done]. split; [done|]. intros orig [= <-]. by exists r. }
  destruct previous as [[id|t]|]; [apply Hrev| |split; [done|by intros orig [= <-]]]. cbn. destruct (String.eqb_spec t "") as [-> | Hne].
  - split; [done|]. intros orig [= <-]. by left.
  - destruct (Hrev t) as [H1 H2]. split; [exact H1|]. intros orig E. right. split; [done|]. by apply H2.
Qed.

Lemma revise_spec pid p content previous user force reason now rid w : pages w !! pid = Some p ->
  let r := revise pid content previous user force reason now rid w in
  r = (w, Ok None) /\ p_content p = default "" content \/ (exists e, r = (w, Raise e)) \/
  exists new, r = (revised pid p new user reason now rid w, Ok (Some rid)) /\ built w pid p previous force (default "" content) new.
Proof.
  intros Ep r. assert (Er : r = revise pid content previous user force reason now rid w) by done. clearbody r. unfold revise, get_page in Er. unfold bind at 1 in Er.
  rewrite Ep in Er. cbn [of_option] in Er. set (c := default "" content) in *. cbn zeta in Er.
  destruct (String.eqb_spec (p_content p) c) as [E | _]; [by left|]. destruct (max_length (p_name p) <? _); [right; left; by exists ContentLengthError|]. right. rewrite Er. clear Er r.
  set (force' := match previous with None => true | Some _ => force end). set (rev := default "" (p_revision p)).
  assert (Hgo : forall m, (m w).1 = w -> (forall new, (m w).2 = Ok new -> built w pid p previous force c new) ->
    (exists e, (new <~ m;; commit_revision rid (WikiRevision pid new (Some user) (match reason with Some "" => None | _ => reason end) now false false) ;;; commit_page pid (set_content new (Some user) now rid p) ;;; ret (Some rid)) w = (w, Raise e)) \/
    exists new, (new <~ m;; commit_revision rid (WikiRevision pid new (Some user) (match reason with Some "" => None | _ => reason end) now false false) ;;; commit_page pid (set_content new (Some user) now rid p) ;;; ret (Some rid)) w =
      (revised pid p new user reason now rid w, Ok (Some rid)) /\ built w pid p previous force c new).
  { intros m H1 H2. unfold bind. destruct (m w) as [w' [new|e]]; cbn [fst snd] in *; subst w'; [right; exists new; split; [done|by apply H2]|left; by eexists]. }
  apply Hgo; destruct (negb force' && (negb (String.eqb rev "") && differs previous rev)) eqn:Hm.
  - unfold bind. destruct (original_spec previous pid w) as [H1 _]. destruct (original_content previous pid w) as [w' [orig|e]]; cbn in *; by subst.
  - done.
  - intros new. unfold bind. destruct (original_spec previous pid w) as [H1 H2]. destruct (original_content previous pid w) as [w' [orig|e]]; cbn in *; [|done].
    unfold threewaymerge. destruct (diff3 c orig (p_content p)) as [final|] eqn:Ed; [|done]. intros [= <-]. right. apply andb_true_iff in Hm as [Hm _]. apply negb_true_iff in Hm. unfold force' in Hm.
    split; [by destruct previous|split; [by destruct previous|]]. exists orig. split; [by apply H2|done].
  - intros new [= <-]. left. split; [done|]. apply andb_false_iff in Hm as [Hm | Hm].
    + apply negb_false_iff in Hm. unfold force' in Hm. destruct previous; [by left|by right; left].
    + right. right. apply andb_false_iff in Hm as [Hm | Hm]; [left; by apply negb_false_iff, String.eqb_eq in Hm|by right].
Qed.

Lemma revised_inv pid p content user reason now rid w : inv w -> pages w !! pid = Some p -> revisions w !! rid = None -> rid <> "" -> inv (revised pid p content user reason now rid w).
Proof.
  intros Hi Ep Er Hr. unfold revised. assert (Hi' : inv (committed_revision rid (new_revision pid content user reason now) w)).
  { apply commit_revision_inv; [done|by exists p|by rewrite Er|]. intros q Eq Hq. pose proof (i_current w Hi _ _ Eq) as Hc. unfold current in Hc. rewrite Hq in Hc. destruct Hc as [_ (r & E & _)]. congruence. }
  apply commit_page_inv; [done|apply (i_name w Hi pid p Ep)| |].
  - intros q Eq. change (pages w !! pid = Some q) in Eq. rewrite Ep in Eq. by injection Eq as <-.
  - unfold current. cbn [p_revision set_content]. split; [done|]. exists (new_revision pid content user reason now). split_and!; try done.
    unfold committed_revision, commit_revision, after. cbn. by rewrite lookup_insert_eq.
Qed.

(** ** Each request keeps it *)

Definition unused (rid : string) (w : world) : Prop := rid <> "" /\ revisions w !! rid = None.

Lemma t_catching {A} (h : exn -> option A) P (m : effect world A) (Q : A -> world -> Prop) (E : world -> Prop) :
  triple P m Q E -> (forall e a w, h e = Some a -> E w -> Q a w) -> triple P (catching h m) Q E.
Proof.
  intros Hm Hh w Hw. specialize (Hm w Hw). unfold catching. destruct (m w) as [w' [a|e]]; cbn in *; [done|]. destruct (h e) as [a|] eqn:Ea; cbn; [by apply (Hh e)|done].
Qed.

Lemma revise_inv pid content previous user force reason now rid :
  triple (fun w => inv w /\ unused rid w) (revise pid content previous user force reason now rid) (fun _ => inv) inv.
Proof.
  intros w [Hi [Hr Hn]]. destruct (pages w !! pid) as [p|] eqn:Ep; [|unfold revise, get_page, bind; rewrite Ep; exact Hi].
  destruct (revise_spec pid p content previous user force reason now rid w Ep) as [[-> _] | [[e ->] | (new & -> & _)]]; [done|done|]. cbn. by apply revised_inv.
Qed.

(** No other id becomes one of a revision. *)
Definition adds (rid : string) (w w' : world) : Prop := forall k, k <> rid -> revisions w' !! k = revisions w !! k.

#[export] Instance adds_preorder rid : PreOrder (adds rid).
Proof. split; [by intros w k|]. intros w1 w2 w3 H1 H2 k Hk. by rewrite H2, H1. Qed.

Lemma adds_unused rid k w w' : k <> rid -> adds rid w w' -> unused k w -> unused k w'.
Proof. intros Hk H [H1 H2]. split; [done|]. by rewrite H. Qed.

Lemma revise_adds pid content previous user force reason now rid : steps (adds rid) (revise pid content previous user force reason now rid).
Proof.
  intros w. unfold after. destruct (pages w !! pid) as [p|] eqn:Ep; [|unfold revise, get_page, bind; rewrite Ep; cbn; reflexivity].
  destruct (revise_spec pid p content previous user force reason now rid w Ep) as [[-> _] | [[e ->] | (new & -> & _)]]; [reflexivity|reflexivity|].
  intros k Hk. cbn. unfold revised, committed_page, committed_revision, commit_page, commit_revision, after. cbn. by rewrite lookup_insert_ne.
Qed.

Definition same_revisions (w w' : world) : Prop := revisions w' = revisions w.

#[export] Instance same_revisions_preorder : PreOrder same_revisions.
Proof. split; [done|]. intros w1 w2 w3 E1 E2. unfold same_revisions in *. congruence. Qed.

Lemma same_revisions_adds {A} rid (m : effect world A) : steps same_revisions m -> steps (adds rid) m.
Proof. intros Hm w k _. by rewrite Hm. Qed.

Lemma create_page_revisions s name : steps same_revisions (create_page s name).
Proof. intros w. unfold create_page, after, bind, ask. destruct (String.eqb name ""); [done|]. cbn. by destruct (pages w !! _). Qed.

Lemma create_page_inv s name : name_ok name -> triple inv (create_page s name) (fun _ => inv) inv.
Proof.
  intros Hn w Hi. pose proof Hn as (H1 & H2 & H3). unfold create_page, bind, ask. apply String.eqb_neq in H1 as ->. cbn zeta. rewrite H3.
  destruct (pages w !! wiki_id (sr_id36 s) name) as [p|] eqn:Ep; [done|]. cbn -[wiki_id]. apply commit_page_inv; [done|done|by rewrite Ep|]. done.
Qed.

Lemma t_same {A} (m : effect world A) : steps same_wiki m -> triple inv m (fun _ => inv) inv.
Proof. intros Hm. apply (t_steps same_wiki m inv Hm). intros w w'. apply same_wiki_inv. Qed.

Lemma get_or_create_revisions s name : steps same_revisions (get_or_create s name).
Proof. apply steps_bind; [exact _|apply steps_ask; exact _|]. intros w'. destruct (pages w' !! _); [apply steps_ret; exact _|apply create_page_revisions]. Qed.

Lemma get_or_create_inv s name : name_ok name -> triple inv (get_or_create s name) (fun _ => inv) inv.
Proof. intros Hn. apply t_seq; [by apply t_ask|intros w']. destruct (pages w' !! _); [by apply t_ret|by apply create_page_inv]. Qed.

(** A step in front, with an id that stays unused. *)
Lemma t_before {A} (m : effect world A) rid : triple inv m (fun _ => inv) inv -> steps same_revisions m ->
  triple (fun w => inv w /\ unused rid w) m (fun _ w => inv w /\ unused rid w) inv.
Proof. intros Hm Hs. apply (t_frame same_revisions m inv); [done|done|]. intros w w' E [H1 H2]. split; [done|]. by rewrite E. Qed.
End revising.

Ltac same_leaf := first [apply steps_ret; exact _ | apply steps_modify; intros ?; repeat split; reflexivity | apply steps_when; [exact _|]; apply steps_modify; intros ?; repeat split; reflexivity].

Section requests.
Context `{SU : Surroundings}.

Notation I F := (fun w : world => inv w /\ F w).

Lemma t_abort e (P : world -> Prop) : (forall w, P w -> inv w) -> triple P (abort e) (fun _ => inv) inv.
Proof. intros HP. by apply t_ret. Qed.

Lemma t_entering F s u m : triple (I F) m (fun _ => inv) inv -> triple (I F) (entering s u m) (fun _ => inv) inv.
Proof. unfold entering. destruct (pre s u); [intros _; apply t_abort; by intros w []|done]. Qed.

Lemma t_timeout (P : world -> Prop) u m : (forall w, P w -> inv w) -> triple P m (fun _ => inv) inv -> triple P (VNotInTimeout u m) (fun _ => inv) inv.
Proof. intros HP. unfold VNotInTimeout. destruct (_ && _); [intros _; by apply t_abort|done]. Qed.

Lemma page_found required restricted modonly w s u param pid p : VWikiPage required restricted modonly w s u param = inl (Some (pid, p)) -> pages w !! pid = Some p.
Proof.
  unfold VWikiPage. destruct (VWikiPageName param) as [name|e]; [|done]. destruct (_ && modonly); [done|]. destruct (pages w !! wiki_id (sr_id36 s) name) as [q|] eqn:Eq; [|by destruct required].
  destruct (_ && _); [done|]. destruct (negb (this_may_view u q)); [done|]. by intros [= <- <-].
Qed.

Lemma revision_found hidden w u version pid rid r : validversion hidden w u version pid = inl (Some (rid, r)) -> version = Some rid /\ revisions w !! rid = Some r /\ pageid r = pid.
Proof.
  unfold validversion. destruct version as [[|a v]|]; [done| |done]. set (v' := String a v). unfold get_revision. destruct (revisions w !! v') as [r0|] eqn:E0; [|done].
  destruct (String.eqb_spec (pageid r0) pid) as [Ep|]; [|done]. cbn [snd]. destruct (_ && _); [done|]. destruct (_ && _); [done|]. by intros [= <- <-].
Qed.

Lemma t_moderated F s u param k : (forall pid p, triple (I (fun w => F w /\ pages w !! pid = Some p)) (k pid p) (fun _ => inv) inv) ->
  triple (I F) (moderated s u param k) (fun _ => inv) inv.
Proof.
  intros Hk. apply t_entering. apply (t_bind _ _ _ (fun w' w => w' = w /\ inv w /\ F w)); [by apply t_ask|intros w'].
  destruct (negb _); [apply t_abort; tauto|]. destruct (VWikiPage _ _ _ w' s u param) as [[[pid p]|]|e] eqn:Ep; [|apply t_abort; tauto..].
  eapply t_pre; [apply Hk|]. intros w (-> & H1 & H2). split_and!; [done..|by apply page_found in Ep].
Qed.

Lemma t_revision F u pid version k : (forall rid r, triple (I (fun w => F w /\ revisions w !! rid = Some r /\ pageid r = pid)) (k rid r) (fun _ => inv) inv) ->
  triple (I F) (with_revision u pid version k) (fun _ => inv) inv.
Proof.
  intros Hk. apply (t_bind _ _ _ (fun w' w => w' = w /\ inv w /\ F w)); [by apply t_ask|intros w'].
  destruct (validversion true w' u version pid) as [[[rid r]|]|e] eqn:Er; [|apply t_abort; tauto..].
  eapply t_pre; [apply Hk|]. intros w (-> & H1 & H2). apply revision_found in Er as (_ & ? & ?). done.
Qed.

Ltac same_tac := apply t_same; repeat (apply steps_bind; [exact _| |intros ?]); same_leaf.

Lemma t_attribute s field value : triple inv (set_attribute s field value) (fun _ => inv) inv.
Proof. apply t_same, steps_modify. by intros w. Qed.

Lemma t_modaction b s user what : triple inv (when b (ModAction_create s user what)) (fun _ => inv) inv.
Proof. apply t_when; [intros _|done]. apply t_same, steps_modify. by intros w. Qed.

Lemma t_done : triple inv (ret Done) (fun _ => inv) inv.
Proof. by apply t_ret. Qed.

Lemma save_attribute_inv b s name content : triple inv (when b (save_attribute s name content)) (fun _ => inv) inv.
Proof. apply t_when; [intros _|done]. unfold save_attribute. destruct (ATTRIBUTE_BY_PAGE name); [apply t_attribute|by apply t_ret]. Qed.

Lemma change_css_inv s user content parsed prev reason force now rid : triple (I (unused rid)) (change_css s user content parsed prev reason force now rid) (fun _ => inv) inv.
Proof.
  unfold change_css. eapply t_bind; [apply (t_before _ rid); [apply get_or_create_inv; split_and!; by vm_compute|apply get_or_create_revisions]|intros pid]. cbn beta.
  apply (t_bind _ _ _ (fun _ => inv)); [apply revise_inv|intros wr]. apply t_seq; [apply t_attribute|intros _]. apply t_modaction.
Qed.

Lemma t_markdown (P : world -> Prop) name content m : (forall w, P w -> inv w) -> triple P m (fun _ => inv) inv -> triple P (VMarkdown name content m) (fun _ => inv) inv.
Proof. intros HP Hm. unfold VMarkdown. destruct (bool_decide _); [|done]. destruct (markdown_souptest _ _); [done|by apply t_abort|by apply t_raise]. Qed.

Lemma save_edit_inv s u user pid content previous reason now rid : triple (I (unused rid)) (save_edit s u user pid content previous reason now rid) (fun _ => inv) inv.
Proof.
  unfold save_edit. apply t_seq; [intros w [Hi Hu]; unfold get_page; cbn; by destruct (pages w !! pid)|intros p]. apply t_markdown; [by intros w []|].
  destruct (special_validation _ _ _ _); [apply t_abort; by intros w []|]. apply t_catching; [|done].
  destruct (String.eqb _ _).
  - apply (t_bind _ _ _ (fun _ => inv)); [apply change_css_inv|intros _; apply t_done].
  - apply t_catching; [|done]. apply (t_bind _ _ _ (fun _ => inv)); [apply revise_inv|intros _]. apply t_seq; [apply save_attribute_inv|intros _].
    apply t_seq; [apply t_modaction|intros _; apply t_done].
Qed.

Lemma edit_inv s u param previous content reason now rid : triple (I (unused rid)) (POST_wiki_edit s u param previous content reason now rid) (fun _ => inv) inv.
Proof.
  unfold POST_wiki_edit. apply t_entering. apply t_seq; [by apply t_ask|intros w'].
  assert (Ha : forall e, triple (I (unused rid)) (abort e) (fun _ => inv) inv) by (intros e; apply t_abort; by intros w []).
  destruct (VWikiPageRevise w' s u param previous) as [check|e]; [|apply Ha]. destruct (VWikiPageName param) as [name|e] eqn:En; [|apply Ha].
  destruct (is_spam u); [apply Ha|]. apply accepted_name in En.
  assert (Hc : triple (I (unused rid)) (VNotInTimeout u (created <~ catching (fun e => match e with WikiPageExists => Some None | _ => None end) (pid <~ create_page s name;; ret (Some pid));;
    match created with None => abort (400, "WIKI_CREATE_ERROR") | Some pid => save_edit s u (default 0 (user_id u)) pid content (Said <$> previous) reason now rid end)) (fun _ => inv) inv).
  { apply t_timeout; [by intros w []|]. apply (t_bind _ _ _ (fun _ => I (unused rid))); [|intros [pid|]; [apply save_edit_inv|apply Ha]].
    intros w [Hi Hu]. pose proof (create_page_inv s name En w Hi) as H1. pose proof (create_page_revisions s name w) as H2. unfold catching, bind. unfold after in H2.
    assert (Hu' : unused rid (create_page s name w).1) by (unfold unused in *; by rewrite H2). destruct (create_page s name w) as [w1 [pid|e]]; cbn in *; [done|]. by destruct e. }
  cbn zeta. destruct check; [exact Hc|apply Ha|exact Hc|]. apply t_timeout; [by intros w []|apply save_edit_inv].
Qed.

(** Another state of a page or of a revision. *)
Lemma recommit_page_inv pid p q w : inv w -> pages w !! pid = Some p -> p_sr q = p_sr p -> p_name q = p_name p -> p_content q = p_content p -> p_revision q = p_revision p ->
  last_edit_by q = last_edit_by p -> last_edit_date q = last_edit_date p -> inv (committed_page pid q w).
Proof.
  intros Hi Ep E1 E2 E3 E4 E5 E6. apply commit_page_inv; [done|rewrite E1, E2; by apply (i_name w Hi)| |].
  - intros p0 Ep0. rewrite E1. congruence.
  - pose proof (i_current w Hi pid p Ep) as Hc. unfold current in *. by rewrite E3, E4, E5, E6.
Qed.

Lemma recommit_revision_inv rid r r' w : inv w -> revisions w !! rid = Some r -> pageid r' = pageid r -> r_content r' = r_content r -> r_author r' = r_author r -> r_date r' = r_date r ->
  (forall p, pages w !! pageid r = Some p -> p_revision p = Some rid -> admin_deleted r' = false) -> inv (committed_revision rid r' w).
Proof.
  intros Hi Er E1 E2 E3 E4 Hd. apply commit_revision_inv; [done|rewrite E1; by apply (i_page w Hi rid)| |by rewrite E1]. intros r0 E0. rewrite Er in E0. injection E0 as <-. done.
Qed.

Lemma hide_inv s u param version : triple inv (POST_wiki_revision_hide s u param version) (fun _ => inv) inv.
Proof.
  eapply t_pre; [apply (t_moderated (fun _ => True))|done]. intros pid p. apply t_revision. intros rid r. apply t_timeout; [by intros w []|].
  apply (t_bind _ _ _ (fun _ => inv)); [|intros _; apply t_done]. intros w (Hi & _ & Er & Ep). apply (recommit_revision_inv rid r); try done.
  intros q Eq Hq. pose proof (i_current w Hi _ q Eq) as Hc. unfold current in Hc. rewrite Hq in Hc. destruct Hc as [_ (r0 & E0 & _ & _ & H & _)]. rewrite Er in E0. by injection E0 as <-.
Qed.

Lemma delete_inv s u param version deleted : triple inv (POST_wiki_revision_delete s u param version deleted) (fun _ => inv) inv.
Proof.
  unfold POST_wiki_revision_delete. eapply t_pre; [apply (t_entering (fun _ => True))|done]. apply (t_bind _ _ _ (fun w' w => w' = w /\ inv w)); [by apply t_ask; intros w []|intros w'].
  destruct (negb _); [apply t_abort; tauto|]. destruct (VWikiPage _ _ _ w' s u param) as [[[pid p]|]|e] eqn:Ep; [|apply t_abort; tauto..]. apply page_found in Ep.
  eapply (t_pre _ (I (fun w => pages w !! pid = Some p))); [|by intros w [-> ?]]. apply t_revision. intros rid r.
  destruct (deleted && _) eqn:Hd; [apply t_abort; by intros w []|]. apply (t_bind _ _ _ (fun _ => inv)); [|intros _; apply t_done].
  intros w (Hi & Ep' & Er & Hp). apply (recommit_revision_inv rid r); try done. intros q Eq Hq. rewrite Hp, Ep' in Eq. injection Eq as <-. destruct deleted; [|done].
  cbn in Hd. by apply bool_decide_eq_false in Hd.
Qed.

Lemma revert_inv s u param version now rid : triple (I (unused rid)) (POST_wiki_revision_revert s u param version now rid) (fun _ => inv) inv.
Proof.
  apply t_moderated. intros pid p. eapply t_pre; [apply (t_revision (unused rid))|by intros w (? & ? & _)]. intros rid' r. apply t_timeout; [by intros w []|]. cbn zeta.
  apply (t_pre _ (I (unused rid))); [|by intros w (? & ? & _)]. destruct (String.eqb _ _).
  - case_bool_decide; [apply t_abort; by intros w []|]. apply (t_bind _ _ _ (fun _ => inv)); [apply change_css_inv|intros _; apply t_done].
  - apply t_catching; [|done]. apply (t_bind _ _ _ (fun _ => inv)); [apply revise_inv|intros _]. apply (t_bind _ _ _ (fun _ => inv)); [apply (save_attribute_inv true)|intros _; apply t_done].
Qed.

Lemma editors_inv s u param add user : triple inv (POST_wiki_allow_editor s u param add user) (fun _ => inv) inv.
Proof.
  eapply t_pre; [apply (t_moderated (fun _ => True))|done]. intros pid p. eapply t_pre; [|by intros w [Hi _]; exact Hi]. destruct user as [user|]; [|by apply t_abort].
  destruct add as [[]|]; [..|by apply t_abort]; (apply t_timeout; [done|]); (apply t_seq; [|intros _; apply t_done]); apply t_same, steps_modify; by intros w.
Qed.

Lemma settings_inv s u param level listed : triple inv (POST_wiki_settings s u param level listed) (fun _ => inv) inv.
Proof.
  unfold POST_wiki_settings. eapply t_pre; [apply (t_entering (fun _ => True))|done]. eapply t_pre; [|by intros w [Hi _]; exact Hi]. apply t_seq; [by apply t_ask|intros w'].
  destruct (VWikiPage _ _ _ w' s u param) as [[[pid p]|]|e]; [|by apply t_abort..]. cbn zeta.
  assert (Hb : forall (m : effect world answer), triple inv m (fun _ => inv) inv -> triple inv (if bool_decide (level <> Some (permlevel p)) || negb (Bool.eqb (p_listed p) listed) then VNotInTimeout u m else m) (fun _ => inv) inv).
  { intros m Hm. destruct (_ || _); [by apply t_timeout|done]. }
  apply Hb. apply t_seq.
  - apply t_catching; [|done]. apply t_seq; [|intros _; by apply t_ret]. intros w Hi. unfold change_permlevel, get_page, bind. destruct (pages w !! pid) as [q|] eqn:Eq; [|done]. cbn [of_option].
    clear Hb. case_bool_decide; [done|]. destruct level as [n|]; [|done]. destruct (negb _); [done|]. by apply (recommit_page_inv pid q).
  - intros []; [|by apply t_abort]. cbn [negb]. apply t_seq; [apply t_when; [intros _|done]|intros _].
    + apply (t_bind _ _ _ (fun q w => inv w /\ pages w !! pid = Some q)); [intros w Hi; unfold get_page; cbn; by destruct (pages w !! pid)|intros q].
      apply (t_bind _ _ _ (fun _ => inv)); [intros w [Hi Eq]; by apply (recommit_page_inv pid q)|intros _]. apply (t_modaction true).
    + apply t_seq; [apply t_modaction|intros _; apply t_done].
Qed.

Lemma apply_adds s user pagename value now rid : steps (adds rid) (apply_wikid_field s user pagename value now rid).
Proof.
  apply steps_bind; [exact _|apply same_revisions_adds, get_or_create_revisions|intros pid]. apply steps_bind; [exact _|apply revise_adds|intros wr].
  apply same_revisions_adds, steps_when; [exact _|]. by intros w.
Qed.

Lemma apply_inv s user pagename value now rid : name_ok pagename -> triple (I (unused rid)) (apply_wikid_field s user pagename value now rid) (fun _ => inv) inv.
Proof.
  intros Hn. unfold apply_wikid_field. eapply t_bind; [apply (t_before _ rid); [by apply get_or_create_inv|apply get_or_create_revisions]|intros pid]. cbn beta.
  apply (t_bind _ _ _ (fun _ => inv)); [apply revise_inv|intros wr]. apply t_modaction.
Qed.

Lemma t_apply s user pagename value now rid (F : world -> Prop) : name_ok pagename -> (forall w w', adds rid w w' -> F w -> F w') ->
  triple (I (fun w => unused rid w /\ F w)) (apply_wikid_field s user pagename value now rid) (fun _ => I F) inv.
Proof.
  intros Hn HF. eapply t_conseq; [apply (t_frame (adds rid) _ (I (unused rid)) F); [by apply apply_inv|apply apply_adds|exact HF]|tauto|by intros _ w [? ?]|done].
Qed.

Lemma site_inv s u description submit_text public_description now r1 r2 r3 : NoDup [r1; r2; r3] ->
  triple (I (fun w => unused r1 w /\ unused r2 w /\ unused r3 w)) (update_wiki_text s u description submit_text public_description now r1 r2 r3) (fun _ => inv) inv.
Proof.
  rewrite !NoDup_cons. intros (H1 & H2 & _). unfold update_wiki_text. destruct (_ && _); [|apply t_ret; by intros w []]. apply t_timeout; [by intros w []|]. cbn zeta.
  eapply t_bind; [apply t_apply; [split_and!; by vm_compute|]|intros []].
  { intros w w' Ha [? ?]. split; (eapply adds_unused; [|exact Ha|done]); set_solver. }
  eapply t_bind; [apply (t_apply _ _ _ _ _ _ (unused r3)); [split_and!; by vm_compute|]|intros []].
  { intros w w' Ha ?. eapply adds_unused; [|exact Ha|done]. set_solver. }
  apply (t_bind _ _ _ (fun _ => inv)); [apply apply_inv; split_and!; by vm_compute|intros []].
  do 3 (apply t_seq; [apply t_attribute|intros []]). apply t_done.
Qed.

Lemma stylesheet_inv s u content reason save now rid : triple (I (unused rid)) (POST_subreddit_stylesheet s u content reason save now rid) (fun _ => inv) inv.
Proof.
  assert (Ha : forall e, triple (I (unused rid)) (abort e) (fun _ => inv) inv) by (intros e; apply t_abort; by intros w []).
  unfold POST_subreddit_stylesheet. destruct (negb _); [apply Ha|]. destruct css_killswitch; [apply Ha|]. cbn zeta. destruct (bool_decide _); [apply Ha|]. apply t_timeout; [by intros w []|].
  apply (t_bind _ _ _ (fun _ => inv)); [|intros []; apply t_done]. apply t_when; [intros _; apply change_css_inv|by intros _ w []].
Qed.

Lemma fresh_unused rid w : fresh rid w = true <-> unused rid w.
Proof. unfold fresh, unused. rewrite andb_true_iff, negb_true_iff, bool_decide_eq_true, String.eqb_neq. done. Qed.

Lemma request_inv o : NoDup (new_ids o) -> triple (I (fun w => Forall (fun rid => unused rid w) (new_ids o))) (request o) (fun _ => inv) inv.
Proof.
  assert (H0 : forall m : effect world answer, triple inv m (fun _ => inv) inv -> triple (I (fun w => Forall (fun rid => unused rid w) [])) m (fun _ => inv) inv) by (intros m Hm; eapply t_pre; [exact Hm|by intros w []]).
  assert (H1 : forall rid (m : effect world answer), triple (I (unused rid)) m (fun _ => inv) inv -> triple (I (fun w => Forall (fun rid => unused rid w) [rid])) m (fun _ => inv) inv)
    by (intros rid m Hm; eapply t_pre; [exact Hm|by intros w [? [? _]%Forall_cons]]).
  destruct o; intros Hd; cbn [new_ids request].
  - apply H1, edit_inv.
  - apply H0, editors_inv.
  - apply H0, hide_inv.
  - apply H1, revert_inv.
  - apply H0, delete_inv.
  - apply H0, settings_inv.
  - eapply t_pre; [by apply site_inv|]. intros w [Hi HF]. rewrite !Forall_cons in HF. tauto.
  - apply H1, stylesheet_inv.
Qed.

Lemma handle_inv o w : inv w -> inv (after (handle o) w).
Proof.
  intros Hi. unfold after, handle. destruct (forallb _ _ && _) eqn:E; [|done]. apply andb_true_iff in E as [E1 E2%bool_decide_eq_true].
  apply (t_after _ _ _ _ (request_inv o E2)). split; [done|]. rewrite Forall_forall. intros rid Hr. apply fresh_unused. rewrite forallb_forall in E1. apply E1, list_elem_of_In, Hr.
Qed.
End requests.

Lemma run_inv `{SU : Surroundings} ops : inv (run ops).
Proof.
  unfold run. generalize inv_empty. generalize empty as w. induction ops as [|o ops IH]; intros w Hw; [done|]. cbn. by apply IH, handle_inv.
Qed.

(** C13. Whatever requests there are (edits and reverts, also of stylesheets and
    with texts that a merge makes, pages that come to be, revisions that are
    hidden or deleted, settings, the texts of a sub's settings), and whatever
    they are answered, raised exceptions included: a page has the id of its
    name and its sub.  It shows its current revision: a page without one is
    empty, and else there is this revision, it is one of the page, it has the
    page's content, its author and its date, and no admin has deleted it.  The
    history of a page has exactly the revisions of the page, and the pages
    listed of a sub are exactly its pages, as they are now. *)
Theorem current_revision `{SU : Surroundings} ops pid p : pages (run ops) !! pid = Some p ->
  pid = wiki_id (p_sr p) (p_name p) /\ current (run ops) pid p /\
  (forall rid, rid ∈ default ∅ (history (run ops) !! pid) <-> exists r, revisions (run ops) !! rid = Some r /\ pageid r = pid) /\
  (forall sr q, default ∅ (listing (run ops) !! sr) !! pid = Some q <-> q = p /\ sr = p_sr p).
Proof.
  intros Ep. pose proof (run_inv ops) as Hi. split_and!; [by apply (i_name _ Hi)|by apply (i_current _ Hi)|apply (i_history _ Hi)|].
  intros sr q. rewrite (i_listing _ Hi), Ep. naive_solver.
Qed.
End WikiProps.
