(* ===== verification/WikiEdits.v ===== *)
(** * Wiki: what requests do to pages

    What a request can make of a page that is there.  [WikiEdits]: edits build on
    what they started from.  [WikiGuards]: what other requests leave as it is, and
    who can change the pages of a sub that have a meaning of their own. *)

From S2P Require Import Prelude PyString Effects Wiki WikiProps.
From Stdlib Require Import Ascii.

Module WikiEdits.
Import PyString Wiki WikiNames WikiProps.

Section edits.
Context `{SU : Surroundings}.

(** ** A page before and after *)

(** All pages but one are the same, and this one is, or has a new content that
    was built, and then the answer is [good]. *)
Definition edited {A} (good : A -> Prop) (w : world) (pid : string) (previous : option start) (force : bool) (content : string) (user now : Z) (rid : string) (out : world * res A) : Prop :=
  (forall k, k <> pid -> pages out.1 !! k = pages w !! k) /\
  forall p, pages w !! pid = Some p -> pages out.1 !! pid = Some p \/
    exists new a, pages out.1 !! pid = Some (set_content new (Some user) now rid p) /\ built w pid p previous force content new /\ out.2 = Ok a /\ good a.

(** What goes through with one answer, and is not about pages. *)
Definition passes {A} (a : A) (m : effect world A) : Prop := forall w, exists w', m w = (w', Ok a) /\ pages w' = pages w.

Lemma passes_ret {A} (a : A) : passes a (ret a).
Proof. intros w. by exists w. Qed.

Lemma passes_modify f : (forall w, pages (f w) = pages w) -> passes tt (modify f).
Proof. intros Hf w. exists (f w). split; [done|apply Hf]. Qed.

Lemma passes_bind {A B} (a : A) (b : B) (m : effect world A) (k : A -> effect world B) : passes a m -> passes b (k a) -> passes b (bind m k).
Proof. intros Hm Hk w. destruct (Hm w) as (w1 & E1 & H1). destruct (Hk w1) as (w2 & E2 & H2). exists w2. unfold bind. rewrite E1, E2. split; congruence. Qed.

Lemma passes_when b m : passes tt m -> passes tt (when b m).
Proof. destruct b; [done|intros _; apply passes_ret]. Qed.

Lemma passes_attribute s field value : passes tt (set_attribute s field value).
Proof. by apply passes_modify. Qed.

Lemma passes_modaction b s user what : passes tt (when b (ModAction_create s user what)).
Proof. by apply passes_when, passes_modify. Qed.

Lemma passes_save b s name content : passes tt (when b (save_attribute s name content)).
Proof. apply passes_when. unfold save_attribute. destruct (ATTRIBUTE_BY_PAGE name); [apply passes_attribute|apply passes_ret]. Qed.

Section one.
Context (w : world) (pid : string) (previous : option start) (force : bool) (content : string) (user now : Z) (rid : string).

Notation edited_here good := (edited good w pid previous force content user now rid).

Lemma edited_refl {A} (good : A -> Prop) r : edited_here good (w, r).
Proof. split; [done|]. intros p E. by left. Qed.

Lemma edited_bind {A B} (good : A -> Prop) (m : effect world A) (k : A -> effect world B) b : edited_here good (m w) -> (forall a, passes b (k a)) -> edited_here (fun b' => b' = b) (bind m k w).
Proof.
  intros [H1 H2] Hk. unfold bind. destruct (m w) as [w1 [a|e]]; cbn in *.
  - destruct (Hk a w1) as (w2 & -> & E). split; cbn; rewrite E; [done|]. intros p Ep. destruct (H2 p Ep) as [? | (new & a' & ? & ? & _)]; [by left|right; by exists new, b].
  - split; [done|]. intros p Ep. destruct (H2 p Ep) as [? | (new & a' & _ & _ & ? & _)]; [by left|done].
Qed.

Lemma edited_catching {A} (good : A -> Prop) (h : exn -> option A) (m : effect world A) : edited_here good (m w) -> edited_here good (catching h m w).
Proof.
  intros [H1 H2]. unfold catching. destruct (m w) as [w1 [a|e]]; [done|]. cbn in *.
  assert (Hp : forall r, edited_here good (w1, r)); [|destruct (h e); apply Hp].
  intros r. split; [done|]. intros p Ep. destruct (H2 p Ep) as [? | (new & a' & _ & _ & ? & _)]; [by left|done].
Qed.

Lemma edited_markdown (good : answer -> Prop) name text m : edited_here good (m w) -> edited_here good (VMarkdown name text m w).
Proof. intros Hm. unfold VMarkdown. destruct (bool_decide _); [|done]. destruct (markdown_souptest _ _); [done|apply edited_refl..]. Qed.
End one.

Lemma revise_edited w pid content previous user force reason now rid : edited (fun _ => True) w pid previous force (default "" content) user now rid (revise pid content previous user force reason now rid w).
Proof.
  destruct (pages w !! pid) as [p|] eqn:Ep; [|unfold revise, get_page, bind; rewrite Ep; apply edited_refl].
  destruct (revise_spec pid p content previous user force reason now rid w Ep) as [[-> _] | [[e ->] | (new & -> & Hb)]]; [apply edited_refl..|].
  split; [intros k Hk; by apply lookup_insert_ne|]. intros q Eq. rewrite Ep in Eq. injection Eq as <-. right. exists new, (Some rid). split; [by apply lookup_insert_eq|done].
Qed.

Lemma bind_found {A B} (m : effect world A) (k : A -> effect world B) a w w' : m w = (w', Ok a) -> bind m k w = k a w'.
Proof. intros E. unfold bind. by rewrite E. Qed.

Lemma get_page_found pid p w : pages w !! pid = Some p -> get_page pid w = (w, Ok p).
Proof. intros Ep. unfold get_page. by rewrite Ep. Qed.

Lemma get_or_create_found s name w p : pages w !! wiki_id (sr_id36 s) name = Some p -> get_or_create s name w = (w, Ok (wiki_id (sr_id36 s) name)).
Proof. intros Ep. unfold get_or_create, bind, ask. by rewrite Ep. Qed.

Lemma change_css_edited s user content parsed previous reason force now rid w p : pages w !! wiki_id (sr_id36 s) "config/stylesheet" = Some p ->
  edited (fun r => r = tt) w (wiki_id (sr_id36 s) "config/stylesheet") previous force (default "" content) user now rid (change_css s user content parsed previous reason force now rid w).
Proof.
  intros Ep. unfold change_css. rewrite (bind_found _ _ _ _ _ (get_or_create_found s _ w p Ep)). eapply edited_bind; [apply revise_edited|intros wr].
  eapply passes_bind; [apply passes_attribute|apply passes_modaction].
Qed.

Lemma save_edit_edited s u user pid content previous reason now rid w p : pages w !! pid = Some p -> pid = wiki_id (sr_id36 s) (p_name p) ->
  edited (fun r => r = Done) w pid previous false (default "" content) user now rid (save_edit s u user pid content previous reason now rid w).
Proof.
  intros Ep En. unfold save_edit. rewrite (bind_found _ _ _ _ _ (get_page_found pid p w Ep)). apply edited_markdown. destruct (special_validation _ _ _ _); [apply edited_refl|].
  apply edited_catching. destruct (String.eqb_spec (p_name p) "config/stylesheet") as [Es | _].
  - eapply edited_bind; [|intros _; apply passes_ret]. rewrite Es in En. subst pid. by apply (change_css_edited _ _ _ _ _ _ _ _ _ _ p).
  - apply edited_catching. eapply edited_bind; [apply revise_edited|intros _]. eapply passes_bind; [apply passes_save|]. eapply passes_bind; [apply passes_modaction|apply passes_ret].
Qed.

(** ** An edit *)

Lemma page_of required restricted modonly w s u param pid p : VWikiPage required restricted modonly w s u param = inl (Some (pid, p)) ->
  pages w !! pid = Some p /\ exists name, VWikiPageName param = inl name /\ pid = wiki_id (sr_id36 s) name.
Proof.
  intros E. split; [by apply page_found in E|]. unfold VWikiPage in E. destruct (VWikiPageName param) as [name|e]; [|done]. exists name. split; [done|].
  destruct (_ && modonly); [done|]. destruct (pages w !! _) as [q|]; [|by destruct required]. destruct (_ && _); [done|]. destruct (negb _); [done|]. by injection E.
Qed.

(** A page found is the one of its own name on the sub. *)
Lemma page_here required restricted modonly w s u param pid p : inv w -> VWikiPage required restricted modonly w s u param = inl (Some (pid, p)) ->
  pages w !! pid = Some p /\ pid = wiki_id (sr_id36 s) (p_name p) /\ VWikiPageName param = inl (p_name p).
Proof.
  intros Hi E. apply page_of in E as (Ep & name & En & Eid). destruct (i_name w Hi pid p Ep) as [Eid' Hn]. pose proof (accepted_name param name En) as Hn'.
  rewrite Eid in Eid'. apply wiki_id_name in Eid' as [-> _]; done.
Qed.

Lemma revise_checked w s u param previous pid prev : VWikiPageRevise w s u param previous = inl (MayRevise pid prev) ->
  exists p, VWikiPage false true false w s u param = inl (Some (pid, p)) /\ this_may_revise w s u (Some (pid, p)) = true /\
    match prev with
    | None => previous = None \/ previous = Some ""
    | Some t => t <> "" /\ previous = Some t /\ exists r, revisions w !! t = Some r /\ pageid r = pid
    end.
Proof.
  unfold VWikiPageRevise. destruct (VWikiPage false true false w s u param) as [wp|]; [|done]. destruct (this_may_revise w s u wp) eqn:Hm; cbn [negb]; [|by destruct wp].
  destruct wp as [[pid' p]|]; [|by destruct (may_not_create _ _) as [[]|]]. destruct (validversion true w u previous pid') as [v|] eqn:Hv; [|done]. intros [= -> <-]. exists p. split_and!; [done..|].
  destruct v as [[t r]|].
  - pose proof Hv as Hv'. apply revision_found in Hv as (-> & ? & ?). cbn. split_and!; [by intros ->|done|by exists r].
  - cbn. unfold validversion in Hv. destruct previous as [[|a t]|]; [by right| |by left]. exfalso. revert Hv. destruct (get_revision _ _ _).2; [|done]. by repeat destruct (_ && _).
Qed.

Lemma create_found s name w k q : name <> "" -> py_lower name = name -> pages w !! k = Some q ->
  (exists p, pages w !! wiki_id (sr_id36 s) name = Some p /\ create_page s name w = (w, Raise WikiPageExists)) \/
  wiki_id (sr_id36 s) name <> k /\ exists w1 p, create_page s name w = (w1, Ok (wiki_id (sr_id36 s) name)) /\ pages w1 = <[wiki_id (sr_id36 s) name := p]> (pages w) /\ p_name p = name.
Proof.
  intros Hn Hl Eq. unfold create_page, bind, ask. apply String.eqb_neq in Hn as ->. cbn zeta. rewrite Hl. destruct (pages w !! wiki_id (sr_id36 s) name) as [p|] eqn:Ep; [left; by exists p|].
  right. split; [intros Ek; rewrite Ek in Ep; congruence|]. cbn -[wiki_id]. by eexists _, _.
Qed.

(** The page that an edit makes is not one that is there. *)
Lemma create_spec s u name user content previous reason now rid w k q : name <> "" -> py_lower name = name -> pages w !! k = Some q ->
  pages ((created <~ catching (fun e => match e with WikiPageExists => Some None | _ => None end) (pid <~ create_page s name;; ret (Some pid));;
    match created with None => abort (400, "WIKI_CREATE_ERROR") | Some pid => save_edit s u user pid content previous reason now rid end) w).1 !! k = Some q.
Proof.
  intros Hn Hl Eq. unfold bind at 1, catching, bind at 1. destruct (create_found s name w k q Hn Hl Eq) as [(p & _ & ->) | (Hk & w1 & p & -> & E1 & Ep)]; [done|]. cbn -[save_edit].
  set (pid := wiki_id (sr_id36 s) name) in *. destruct (save_edit_edited s u user pid content previous reason now rid w1 p) as [Ho _]; [by rewrite E1, lookup_insert_eq|by rewrite Ep|].
  rewrite Ho by done. by rewrite E1, lookup_insert_ne.
Qed.

(** An edit of a page that is there. *)
Definition edit_start (previous prev : option string) : option start := match prev with Some r => Some (UUID r) | None => Said <$> previous end.

Lemma edit_spec s u param previous content reason now rid w k q : inv w -> pages w !! k = Some q ->
  let out := POST_wiki_edit s u param previous content reason now rid w in
  pages out.1 !! k = Some q \/
  exists prev new, VWikiPageRevise w s u param previous = inl (MayRevise k prev) /\ out.2 = Ok Done /\
    pages out.1 !! k = Some (set_content new (Some (default 0 (user_id u))) now rid q) /\ built w k q (edit_start previous prev) false (default "" content) new.
Proof.
  intros Hi Eq out. assert (Eo : out = POST_wiki_edit s u param previous content reason now rid w) by done. clearbody out. unfold POST_wiki_edit, entering in Eo.
  destruct (pre s u); [subst out; by left|]. unfold bind at 1, ask in Eo. destruct (VWikiPageRevise w s u param previous) as [check|e] eqn:Er; [|subst out; by left].
  destruct (VWikiPageName param) as [name|e] eqn:En; [|subst out; by left]. destruct (is_spam u); [subst out; by left|]. cbn zeta in Eo.
  pose proof (accepted_name param name En) as (Hne & _ & Hlow). unfold VNotInTimeout in Eo.
  destruct check as [|reason'| |pid prev]; try destruct (logged_in u && in_timeout u); try (subst out; by left); [left; subst out; by apply create_spec..|].
  destruct (revise_checked w s u param previous pid prev Er) as (p & Ewp & _). apply page_here in Ewp as (Ep & Eid & _); [|done].
  destruct (save_edit_edited s u (default 0 (user_id u)) pid content (edit_start previous prev) reason now rid w p Ep Eid) as [Ho Hp]. unfold edit_start in *. rewrite <- Eo in Ho, Hp.
  destruct (decide (k = pid)) as [-> | Hk]; [|left; by rewrite Ho]. destruct (Hp q Eq) as [? | (new & a & E1 & Hb & Ea & ->)]; [by left|]. right. by exists prev, new.
Qed.
Lemma handle_cases o w : handle o w = request o w \/ handle o w = (w, Ok Done).
Proof. unfold handle. destruct (forallb _ _ && _); [by left|by right]. Qed.

Lemma may_revise_user w s u wp : this_may_revise w s u wp = true -> exists user, user_id u = Some user /\ (user_is_admin u = true \/ may_revise w s u user wp = true).
Proof. unfold this_may_revise. destruct (user_id u) as [user|]; [|done]. intros H. exists user. split; [done|]. destruct (user_is_admin u); [by left|by right]. Qed.

Lemma no_revision w pid p : inv w -> pages w !! pid = Some p -> default "" (p_revision p) = "" -> p_revision p = None.
Proof. intros Hi Ep H. pose proof (i_current w Hi pid p Ep) as Hc. unfold current in Hc. destruct (p_revision p); [|done]. by destruct Hc. Qed.

(** What an edit builds on, of a page that has been revised. *)
Lemma built_merged w pid p t content new : inv w -> pages w !! pid = Some p -> (exists r, revisions w !! t = Some r /\ pageid r = pid) ->
  built w pid p (Some (UUID t)) false content new -> exists r, revisions w !! t = Some r /\ pageid r = pid /\
    (diff3 content (r_content r) (p_content p) = Some new \/ p_revision p = None /\ new = content).
Proof.
  intros Hi Ep (r & Er & Hr) [[-> H] | (_ & _ & orig & (r' & Er' & _ & ->) & Hd)].
  - exists r. split_and!; [done..|]. right. split; [|done]. destruct H as [|[|[H|]]]; [done..| |done]. by apply (no_revision w pid).
  - exists r'. split_and!; [done|congruence|by left].
Qed.
End edits.

(** C14. What an edit may do to a page that is there, in any state that requests
    lead to.  It is as before: always so where the answer is anything but that
    the edit is done.  Or a user who is logged in and may revise it saved it, the
    page has a new current revision by this user, and nothing saved in the
    meantime is lost: where the request says from which revision the edit
    started, this is a revision of this very page, and the new content is the
    merge of the submitted text with what the page says now, relative to the
    content of that revision (or the page has not been revised yet, and says
    what was submitted).  So an edit that started from the current revision
    stores the submitted text as it is, for a merge that keeps a text whose
    other side has not changed.  Only an edit that does not say where it started
    replaces what the page says, and one that says it started from an empty page
    is merged as such. *)
Theorem edits_build_on `{SU : Surroundings} ops s u param previous content reason now rid pid p :
  (forall a o, diff3 a o o = Some a) -> pages (run ops) !! pid = Some p ->
  let w := run ops in
  let out := handle (Edit s u param previous content reason now rid) w in
  pages out.1 !! pid = Some p \/
  exists user new, user_id u = Some user /\ this_may_revise w s u (Some (pid, p)) = true /\ out.2 = Ok Done /\ pages out.1 !! pid = Some (set_content new (Some user) now rid p) /\
    match previous with
    | None => new = default "" content
    | Some "" => diff3 (default "" content) "" (p_content p) = Some new \/ p_revision p = None /\ new = default "" content
    | Some t => exists r, revisions w !! t = Some r /\ pageid r = pid /\
        (diff3 (default "" content) (r_content r) (p_content p) = Some new \/ p_revision p = None /\ new = default "" content) /\
        (p_revision p = Some t -> new = default "" content)
    end.
Proof.
  intros Hlaw Ep w out. pose proof (run_inv ops : inv w) as Hi. change (pages w !! pid = Some p) in Ep. clearbody w. unfold out. clear out.
  destruct (handle_cases (Edit s u param previous content reason now rid) w) as [-> | ->]; [|by left]. cbn [request].
  destruct (edit_spec s u param previous content reason now rid w pid p Hi Ep) as [? | (prev & new & Er & E2 & E1 & Hb)]; [by left|right].
  apply revise_checked in Er as (p' & Ewp & Hm & Hprev). apply page_found in Ewp. rewrite Ep in Ewp. injection Ewp as <-.
  pose proof (may_revise_user w s u _ Hm) as (user & Eu & _). exists user, new. rewrite Eu in E1. split_and!; [done..|]. destruct prev as [t|].
  - destruct Hprev as (Ht & -> & Hr). destruct (built_merged w pid p t _ new Hi Ep Hr Hb) as (r & Er & Hp & Hn). destruct t as [|a t]; [done|]. exists r. split_and!; [done..|].
    intros Ec. destruct Hn as [Hd | [E _]]; [|congruence]. pose proof (i_current w Hi pid p Ep) as Hc. unfold current in Hc. rewrite Ec in Hc. destruct Hc as [_ (r0 & E0 & _ & Ec0 & _)].
    assert (r0 = r) as -> by congruence. rewrite Ec0, Hlaw in Hd. congruence.
  - destruct Hprev as [-> | ->]; [by destruct Hb as [[-> _] | (_ & ? & _)]|]. destruct Hb as [[-> H] | (_ & _ & orig & [[_ ->] | [? _]] & Hd)]; [|by left|done].
    right. split; [|done]. apply (no_revision w pid); [done..|]. destruct H as [| [| [|H]]]; [done..|]. unfold differs in H. apply negb_false_iff, String.eqb_eq in H. by symmetry.
Qed.
End WikiEdits.

Module WikiGuards.
Import PyString Wiki WikiNames WikiProps WikiEdits.

Section guards.
Context `{SU : Surroundings}.

(** ** What requests say of a page *)

(** Pages say what they said. *)
Definition says (w : world) (k : string) (p : page) : Prop :=
  exists p', pages w !! k = Some p' /\ p_sr p' = p_sr p /\ p_name p' = p_name p /\ p_content p' = p_content p /\ p_revision p' = p_revision p.

Definition kept (w w' : world) : Prop := forall k p, says w k p -> says w' k p.

#[export] Instance kept_preorder : PreOrder kept.
Proof. split; [by intros w k p|]. intros w1 w2 w3 H1 H2 k p H. by apply H2, H1. Qed.

Lemma says_self w k p : pages w !! k = Some p -> says w k p.
Proof. intros E. by exists p. Qed.

Lemma same_kept {A} (m : effect world A) : (forall w, pages (after m w) = pages w) -> steps kept m.
Proof. intros Hm w k p (q & E & H). exists q. by rewrite Hm. Qed.

Lemma recommit_kept pid p q w : pages w !! pid = Some p -> p_sr q = p_sr p -> p_name q = p_name p -> p_content q = p_content p -> p_revision q = p_revision p -> kept w (after (commit_page pid q) w).
Proof.
  intros Ep E1 E2 E3 E4 k p0 (p1 & Ek & H1 & H2 & H3 & H4). unfold says, after. cbn. destruct (decide (k = pid)) as [-> | Hk].
  - exists q. rewrite lookup_insert_eq. assert (p1 = p) as -> by congruence. split_and!; congruence.
  - exists p1. by rewrite lookup_insert_ne.
Qed.

Lemma abort_kept e : steps kept (abort e).
Proof. apply steps_ret. exact _. Qed.

Lemma entering_kept s u m : steps kept m -> steps kept (entering s u m).
Proof. intros Hm. unfold entering. destruct (pre s u); [apply abort_kept|done]. Qed.

Lemma timeout_kept u m : steps kept m -> steps kept (VNotInTimeout u m).
Proof. intros Hm. unfold VNotInTimeout. destruct (_ && _); [apply abort_kept|done]. Qed.

Lemma catching_kept {A} (h : exn -> option A) (m : effect world A) : steps kept m -> steps kept (catching h m).
Proof. intros Hm w. specialize (Hm w). unfold after, catching in *. destruct (m w) as [w' [a|e]]; cbn in *; [done|]. by destruct (h e). Qed.

Lemma ask_kept {A} (k : world -> effect world A) : (forall w, steps kept (k w)) -> steps kept (w <~ ask (fun w => w);; k w).
Proof. intros Hk. apply steps_bind; [exact _|apply steps_ask; exact _|exact Hk]. Qed.

Lemma done_kept (m : effect world unit) : steps kept m -> steps kept (m ;;; ret Done).
Proof. intros Hm. apply steps_bind; [exact _|done|intros _; apply steps_ret; exact _]. Qed.

Lemma moderated_kept s u param k : (forall pid p, steps kept (k pid p)) -> steps kept (moderated s u param k).
Proof.
  intros Hk. apply entering_kept, ask_kept. intros w. destruct (negb _); [apply abort_kept|]. destruct (VWikiPage _ _ _ w s u param) as [[[pid p]|]|e]; [apply Hk|apply abort_kept..].
Qed.

Lemma revision_kept u pid version k : (forall rid r, steps kept (k rid r)) -> steps kept (with_revision u pid version k).
Proof. intros Hk. apply ask_kept. intros w. destruct (validversion true w u version pid) as [[[rid r]|]|e]; [apply Hk|apply abort_kept..]. Qed.

Lemma permlevel_kept pid level : steps kept (change_permlevel pid level).
Proof.
  intros w. unfold after, change_permlevel, get_page, bind. destruct (pages w !! pid) as [p|] eqn:Ep; [|done]. cbn [of_option]. case_bool_decide; [done|]. destruct level as [n|]; [|done].
  destruct (negb _); [done|]. by apply (recommit_kept pid p).
Qed.

Lemma settings_kept s u param level listed : steps kept (POST_wiki_settings s u param level listed).
Proof.
  apply entering_kept, ask_kept. intros w0. destruct (VWikiPage _ _ _ w0 s u param) as [[[pid p]|]|e]; [|apply abort_kept..]. cbn zeta.
  assert (Hb : forall b m, steps kept m -> steps kept (if b : bool then VNotInTimeout u m else m)) by (intros [] m Hm; [by apply timeout_kept|done]).
  apply Hb. apply steps_bind; [exact _| |intros []; [|apply abort_kept]].
  - apply catching_kept, steps_bind; [exact _|apply permlevel_kept|intros _; apply steps_ret; exact _].
  - cbn [negb]. apply steps_bind; [exact _| |intros _; apply done_kept, steps_when; [exact _|by apply same_kept]]. apply steps_when; [exact _|]. intros w.
    unfold after, get_page, bind. destruct (pages w !! pid) as [q|] eqn:Eq; [|done]. cbn [of_option]. apply (recommit_kept pid q (set_listed listed q) w); done.
Qed.

Lemma editors_kept s u param add user : steps kept (POST_wiki_allow_editor s u param add user).
Proof.
  apply moderated_kept. intros pid _. destruct user as [user|]; [|apply abort_kept]. destruct add as [[]|]; [..|apply abort_kept]; apply timeout_kept, done_kept; by apply same_kept.
Qed.

Lemma hide_kept s u param version : steps kept (POST_wiki_revision_hide s u param version).
Proof. apply moderated_kept. intros pid _. apply revision_kept. intros rid r. apply timeout_kept, done_kept. by apply same_kept. Qed.

Lemma delete_kept s u param version deleted : steps kept (POST_wiki_revision_delete s u param version deleted).
Proof.
  apply entering_kept, ask_kept. intros w. destruct (negb _); [apply abort_kept|]. destruct (VWikiPage _ _ _ w s u param) as [[[pid p]|]|e]; [|apply abort_kept..].
  apply revision_kept. intros rid r. destruct (_ && _); [apply abort_kept|]. apply done_kept. by apply same_kept.
Qed.

(** ** Reverts and the texts of the settings *)

(** Pages but some are as they were. *)
Definition spares (ks : list string) (w w' : world) : Prop := forall k p, k ∉ ks -> pages w !! k = Some p -> pages w' !! k = Some p.

#[export] Instance spares_preorder ks : PreOrder (spares ks).
Proof. split; [by intros w k p|]. intros w1 w2 w3 H1 H2 k p Hk H. by apply H2, H1. Qed.

Lemma same_spares {A} ks (m : effect world A) : (forall w, pages (after m w) = pages w) -> steps (spares ks) m.
Proof. intros Hm w k p _. by rewrite Hm. Qed.

Lemma revise_spares ks pid content previous user force reason now rid : pid ∈ ks -> steps (spares ks) (revise pid content previous user force reason now rid).
Proof. intros Hp w k p Hk E. destruct (revise_edited w pid content previous user force reason now rid) as [Ho _]. unfold after. rewrite Ho; [done|]. by intros ->. Qed.

(** A page that is there, or comes to be. *)
Lemma get_or_create_spares s name w : name_ok name -> spares [] w (after (get_or_create s name) w) /\ forall pid, (get_or_create s name w).2 = Ok pid -> pid = wiki_id (sr_id36 s) name.
Proof.
  intros (Hn & _ & Hl). unfold after. destruct (pages w !! wiki_id (sr_id36 s) name) as [q|] eqn:Eq.
  - rewrite (get_or_create_found s name w q Eq). split; [by intros k p _|by intros pid [= <-]].
  - unfold get_or_create, bind, ask. rewrite Eq. unfold create_page, bind, ask. apply String.eqb_neq in Hn as ->. cbn zeta. rewrite Hl, Eq. cbn -[wiki_id].
    split; [|by intros pid [= <-]]. intros k p _ E. cbn. apply lookup_insert_Some. destruct (decide (wiki_id (sr_id36 s) name = k)) as [<- | Hk]; [congruence|by right].
Qed.

Lemma on_page_spares {A} ks s name (k : string -> effect world A) : name_ok name -> steps (spares ks) (k (wiki_id (sr_id36 s) name)) -> steps (spares ks) (pid <~ get_or_create s name;; k pid).
Proof.
  intros Hn Hk w. destruct (get_or_create_spares s name w Hn) as [H1 H2]. unfold after, bind in *. destruct (get_or_create s name w) as [w1 [pid|e]]; cbn [fst snd] in *.
  - rewrite (H2 pid eq_refl). intros q p Hq E. apply (Hk w1 q p Hq), H1; [set_solver|done].
  - intros q p Hq E. apply H1; [set_solver|done].
Qed.

Lemma apply_spares ks s user name value now rid : name_ok name -> wiki_id (sr_id36 s) name ∈ ks -> steps (spares ks) (apply_wikid_field s user name value now rid).
Proof.
  intros Hn Hk. apply on_page_spares; [done|]. apply steps_bind; [exact _|by apply revise_spares|intros wr]. apply steps_when; [exact _|]. by apply same_spares.
Qed.

Lemma change_css_spares ks s user content parsed previous reason force now rid : wiki_id (sr_id36 s) "config/stylesheet" ∈ ks -> steps (spares ks) (change_css s user content parsed previous reason force now rid).
Proof.
  intros Hk. apply on_page_spares; [split_and!; by vm_compute|]. apply steps_bind; [exact _|by apply revise_spares|intros wr]. apply steps_bind; [exact _|by apply same_spares|intros _].
  apply steps_when; [exact _|]. by apply same_spares.
Qed.

Lemma site_spares ks s u description submit_text public_description now r1 r2 r3 :
  wiki_id (sr_id36 s) "config/sidebar" ∈ ks -> wiki_id (sr_id36 s) "config/submit_text" ∈ ks -> wiki_id (sr_id36 s) "config/description" ∈ ks ->
  steps (spares ks) (update_wiki_text s u description submit_text public_description now r1 r2 r3).
Proof.
  intros H1 H2 H3. unfold update_wiki_text. destruct (_ && _); [|apply steps_ret; exact _]. unfold VNotInTimeout. destruct (_ && _); [apply steps_ret; exact _|]. cbn zeta.
  do 3 (apply steps_bind; [exact _|apply apply_spares; [split_and!; by vm_compute|done]|intros _]). do 3 (apply steps_bind; [exact _|by apply same_spares|intros _]). apply steps_ret. exact _.
Qed.
Lemma stylesheet_spares ks s u content reason save now rid : wiki_id (sr_id36 s) "config/stylesheet" ∈ ks -> steps (spares ks) (POST_subreddit_stylesheet s u content reason save now rid).
Proof.
  intros Hk. unfold POST_subreddit_stylesheet, VNotInTimeout. destruct (negb _); [apply steps_ret; exact _|]. destruct css_killswitch; [apply steps_ret; exact _|]. cbn zeta.
  destruct (bool_decide _); [apply steps_ret; exact _|]. destruct (_ && _); [apply steps_ret; exact _|].
  apply steps_bind; [exact _|apply steps_when; [exact _|by apply change_css_spares]|intros _; apply steps_ret; exact _].
Qed.

Lemma abort_spares ks e : steps (spares ks) (abort e).
Proof. apply steps_ret. exact _. Qed.

Lemma catching_spares {A} ks (h : exn -> option A) (m : effect world A) : steps (spares ks) m -> steps (spares ks) (catching h m).
Proof. intros Hm w. specialize (Hm w). unfold after, catching in *. destruct (m w) as [w' [a|e]]; cbn in *; [done|]. by destruct (h e). Qed.

Lemma save_attribute_spares ks s name content : steps (spares ks) (save_attribute s name content).
Proof. unfold save_attribute. destruct (ATTRIBUTE_BY_PAGE name); [by apply same_spares|apply steps_ret; exact _]. Qed.

Lemma revert_spec s u param version now rid w k q : inv w -> pages w !! k = Some q ->
  pages (after (POST_wiki_revision_revert s u param version now rid) w) !! k = Some q \/ VWikiModerator u param = true /\ VWikiPageName param = inl (p_name q) /\ k = wiki_id (sr_id36 s) (p_name q).
Proof.
  intros Hi Eq. unfold POST_wiki_revision_revert, moderated, entering. destruct (pre s u); [by left|]. unfold after, bind at 1, ask. destruct (VWikiModerator u param); [|by left]. cbn [negb].
  destruct (VWikiPage true true false w s u param) as [[[pid p]|]|e] eqn:Ewp; [|by left..]. apply page_here in Ewp as (Ep & Eid & En); [|done].
  destruct (decide (k = pid)) as [-> | Hk]; [right; split_and!; congruence|left].
  assert (Hs : forall (m : effect world answer), steps (spares [pid]) m -> pages (m w).1 !! k = Some q) by (intros m Hm; apply (Hm w k q); [set_solver|done]).
  apply Hs. apply steps_bind; [exact _|apply steps_ask; exact _|intros w']. destruct (validversion true w' u version pid) as [[[rid' r]|]|e]; [|apply abort_spares..].
  unfold VNotInTimeout. destruct (_ && _); [apply abort_spares|]. cbn zeta. destruct (String.eqb_spec (p_name p) "config/stylesheet") as [Es | _].
  - case_bool_decide; [apply abort_spares|]. apply steps_bind; [exact _|apply change_css_spares; rewrite Eid, Es; by left|intros _; apply steps_ret; exact _].
  - apply catching_spares, steps_bind; [exact _|apply revise_spares; by left|intros _]. apply steps_bind; [exact _|apply save_attribute_spares|intros _; apply steps_ret; exact _].
Qed.

Lemma moderator_of u param name : is_special name = true -> VWikiModerator u param = true ->
  user_is_admin u = true \/ logged_in u = true /\ is_moderator_with_perms u ["wiki"] = true /\ (param = Some name -> is_moderator_with_perms u ["wiki"; "config"] = true).
Proof.
  unfold VWikiModerator. intros Hs H. apply orb_true_iff in H as [H | H]; [right|by left]. apply andb_true_iff in H as [H1 H2]. split; [done|]. split; [|intros ->; cbn in H2; by rewrite Hs in H2].
  revert H2. destruct (is_special (default "" param)); [|done]. unfold is_moderator_with_perms. destruct (negb _); [|done]. destruct (moderates u); [|done]. cbn [forallb]. by destruct (bool_decide ("wiki" ∈ _)).
Qed.

Lemma site_page s pid : pid ∈ [wiki_id (sr_id36 s) "config/sidebar"; wiki_id (sr_id36 s) "config/submit_text"; wiki_id (sr_id36 s) "config/description"] -> exists name, name_ok name /\ pid = wiki_id (sr_id36 s) name.
Proof.
  intros H. set_unfold. destruct H as [-> | [-> | [-> | []]]]; (eexists; split; [|reflexivity]); split_and!; by vm_compute.
Qed.

(** Who may revise a page with a meaning of its own. *)
Definition trusted (w : world) (u : standing) (pid : string) : Prop :=
  exists user, user_id u = Some user /\ (user_is_admin u = true \/
    is_wikibanned u = false /\ is_banned u = false /\ is_global_banned u = false /\ wiki_override u <> Some false /\ (has_editor w pid user = true \/ is_moderator_with_perms u ["config"] = true)).

Lemma trusted_revise w s u pid p : is_special (p_name p) = true -> this_may_revise w s u (Some (pid, p)) = true -> trusted w u pid.
Proof.
  intros Hs Hm. destruct (may_revise_user w s u _ Hm) as (user & Eu & H). exists user. split; [done|]. destruct H as [H | H]; [by left|right].
  unfold may_revise in H. rewrite Hs in H. cbn [negb] in H. rewrite andb_false_r, andb_false_r in H. destruct (is_wikibanned u); [done|]. destruct (is_banned u), (is_global_banned u); try done. cbn [orb] in H.
  destruct (negb (may_view u p)); [done|]. case_bool_decide as Ho; [done|]. split_and!; [done..|]. destruct (has_editor w pid user); [by left|]. destruct (is_moderator_with_perms u ["config"]); [by right|done].
Qed.
End guards.

(** C22. Who can change a page with a meaning of its own (the rules of
    AutoModerator, the stylesheet, the sidebar and the other texts of a sub),
    in any state that requests lead to.  A request leaves what the page says and
    its current revision, or it is one of four.  An edit on the sub of the page,
    by a user who is logged in and is an admin, or is not banned in any way and
    is an editor of this very page or a moderator with the config permission: to
    moderate the wiki is not enough, nor to contribute to it.  A revert on the
    sub of the page to one of its revisions, by an admin or a moderator of the
    wiki; one of the wiki and of the settings where the request names the page
    as it is kept.  The settings of the sub of the page, by an admin or a
    moderator with the config permission whose account is not spam; or the form
    of the stylesheet, for this page, by one of the two.  No request
    on another sub changes it, whatever it says. *)
Theorem special_pages_guarded `{SU : Surroundings} ops o pid p : pages (run ops) !! pid = Some p -> is_special (p_name p) = true ->
  let w := run ops in
  let allowed s := pid = wiki_id (sr_id36 s) (p_name p) in
  says (after (handle o) w) pid p \/
  match o with
  | Edit s u _ _ _ _ _ _ => allowed s /\ trusted w u pid
  | Revert s u param _ _ _ => allowed s /\ (user_is_admin u = true \/ logged_in u = true /\ is_moderator_with_perms u ["wiki"] = true /\ (param = Some (p_name p) -> is_moderator_with_perms u ["wiki"; "config"] = true))
  | SiteAdmin s u _ _ _ _ _ _ _ => allowed s /\ is_spam u = false /\ (user_is_admin u = true \/ is_moderator_with_perms u ["config"] = true)
  | Stylesheet s u _ _ _ _ _ => allowed s /\ p_name p = "config/stylesheet" /\ (user_is_admin u = true \/ logged_in u = true /\ is_moderator_with_perms u ["config"] = true)
  | _ => False
  end.
Proof.
  intros Ep Hs w allowed. pose proof (run_inv ops : inv w) as Hi. change (pages w !! pid = Some p) in Ep. clearbody w. pose proof (says_self w pid p Ep) as Hself.
  unfold after. destruct (handle_cases o w) as [-> | ->]; [|by left]. destruct o as [s u param previous content reason now rid|s u param add user|s u param version|s u param version now rid|s u param version deleted|s u param level listed|s u d st pd now r1 r2 r3|s u content reason save now rid];
    cbn [request]; [|left; by apply editors_kept|left; by apply hide_kept| |left; by apply delete_kept|left; by apply settings_kept| |].
  - destruct (edit_spec s u param previous content reason now rid w pid p Hi Ep) as [? | (prev & new & Er & _)]; [left; by apply says_self|right].
    apply revise_checked in Er as (p' & Ewp & Hm & _). apply page_here in Ewp as (Ep' & Eid & _); [|done]. assert (p' = p) as -> by congruence. split; [done|by apply (trusted_revise w s u pid p)].
  - destruct (revert_spec s u param version now rid w pid p Hi Ep) as [? | (Hm & _ & Eid)]; [left; by apply says_self|right]. split; [done|]. by apply moderator_of.
  - destruct (decide (pid ∈ [wiki_id (sr_id36 s) "config/sidebar"; wiki_id (sr_id36 s) "config/submit_text"; wiki_id (sr_id36 s) "config/description"])) as [Hk | Hk].
    + assert (Ha : allowed s). { apply site_page in Hk as (name & Hn & Ek). destruct (i_name w Hi pid p Ep) as [Eid Hp]. unfold allowed. rewrite Ek in Eid |- *. by apply wiki_id_name in Eid as [-> _]. }
      destruct (negb (is_spam u) && (is_moderator_with_perms u ["config"] || user_is_admin u)) eqn:Hc; [right|left].
      * split; [done|]. apply andb_true_iff in Hc as [Hc1 Hc2]. apply negb_true_iff in Hc1. apply orb_true_iff in Hc2. split; [done|tauto].
      * unfold update_wiki_text. by rewrite Hc.
    + left. apply says_self. apply (site_spares [wiki_id (sr_id36 s) "config/sidebar"; wiki_id (sr_id36 s) "config/submit_text"; wiki_id (sr_id36 s) "config/description"]); try done; set_solver.
  - destruct (decide (pid = wiki_id (sr_id36 s) "config/stylesheet")) as [Hk | Hk].
    + destruct (i_name w Hi pid p Ep) as [Eid Hp]. pose proof Eid as En. rewrite Hk in En. apply wiki_id_name in En as [En _]; [|split_and!; by vm_compute|done].
      destruct (logged_in u && is_moderator_with_perms u ["config"] || user_is_admin u) eqn:Hc; [right|left; unfold POST_subreddit_stylesheet; by rewrite Hc].
      unfold allowed. rewrite <- En. split_and!; [done..|]. apply orb_true_iff in Hc as [Hc | Hc]; [right; by apply andb_true_iff in Hc|by left].
    + left. apply says_self. apply (stylesheet_spares [wiki_id (sr_id36 s) "config/stylesheet"]); [by left|set_solver|done].
Qed.
End WikiGuards.
