(* ===== verification/WikiListing.v ===== *)
(** * Wiki: the listing of a sub

    What a visitor is listed: all pages that are there for the visitor, each in
    its place in the tree. *)

From S2P Require Import Prelude PyString Effects Wiki WikiProps.
From Stdlib Require Import Ascii.

Module WikiListing.
Import PyString Wiki WikiNames WikiProps.

(** ** Reading the rows of a sub *)

Lemma after_last pre row : NoDup ((pre ++ row).*1) -> after_page (fst <$> last pre) (pre ++ row) = row.
Proof.
  destruct pre as [|x pre _] using rev_ind; [by destruct row|]. rewrite last_snoc. cbn [fmap option_fmap option_map]. rewrite <- (assoc_L app). cbn [app].
  induction pre as [|y pre IH]; cbn; intros Hd; apply NoDup_cons in Hd as [Hy Hd]; [by rewrite String.eqb_refl|]. destruct (String.eqb_spec y.1 x.1) as [E|_]; [|by apply IH].
  exfalso. apply Hy. rewrite E, fmap_app. set_solver.
Qed.

Lemma last_app_take {A} n (pre row : list A) : row <> [] -> (0 < n)%nat -> last (pre ++ take n row) = last (take n row).
Proof. intros Hr Hn. rewrite last_app. destruct row; [done|]. destruct n; [lia|]. cbn [take]. by destruct (last (a :: take n row)) eqn:E; [|apply last_None in E]. Qed.

Lemma pages_loop_all n row fuel pre rest : (0 < n)%nat -> row = pre ++ rest -> NoDup (row.*1) -> (length rest < fuel)%nat -> pages_loop fuel n row (fst <$> last pre) = Some rest.
Proof.
  intros Hn. revert pre rest. induction fuel as [|fuel IH]; intros pre rest E Hd Hf; [lia|]. cbn [pages_loop]. rewrite E, after_last by (by rewrite <- E).
  destruct (Nat.ltb_spec (length (take n rest)) n) as [Hl | Hl].
  - rewrite length_take in Hl. by rewrite take_ge by lia.
  - rewrite length_take in Hl. assert (Hr : rest <> []) by (intros ->; cbn in Hl; lia). rewrite <- (last_app_take n pre rest) by done. rewrite <- E.
    rewrite (IH (pre ++ take n rest) (drop n rest)); [cbn; by rewrite take_drop|by rewrite <- (assoc_L app), take_drop|done|]. rewrite length_drop. lia.
Qed.

(** ** The tree *)

Fixpoint entry (name : string) (t : tree) : option (option page * tree) :=
  match t with Empty => None | Entry n q b rest => if String.eqb n name then Some (q, b) else entry name rest end.

(** The page at the end of a path. *)
Fixpoint page_at (path : list string) (pagename : string) (t : tree) : option page :=
  match path with
  | [] => qb ← entry pagename t; fst qb
  | name :: path => qb ← entry name t; page_at path pagename (snd qb)
  end.

Lemma has_entry_spec name t : has_entry name t = bool_decide (is_Some (entry name t)).
Proof. induction t as [|n q b _ rest IH]; [done|]. cbn. by destruct (String.eqb n name). Qed.

Lemma entry_new k name q b t : has_entry name t = false -> entry k (put_new name q b t) = if String.eqb name k then Some (q, b) else entry k t.
Proof.
  induction t as [|n q' b' _ rest IH]; cbn; [done|]. intros [Hn H]%orb_false_iff. rewrite IH by done. destruct (String.eqb_spec n k) as [-> |], (String.eqb_spec name k) as [-> |]; try done.
  by rewrite String.eqb_refl in Hn.
Qed.

Lemma entry_set k name p t : entry k (set_entry name p t) = if String.eqb name k then (fun qb => (Some p, snd qb)) <$> entry k t else entry k t.
Proof.
  induction t as [|n q b _ rest IH]; cbn; [by destruct (String.eqb name k)|].
  destruct (String.eqb_spec n name) as [-> | Hn]; cbn; [by destruct (String.eqb_spec name k)|]. rewrite IH. destruct (String.eqb_spec n k) as [-> |]; [|done]. by destruct (String.eqb_spec name k).
Qed.

Lemma entry_below k name f t : entry k (map_below name f t) = if String.eqb name k then (fun qb => (fst qb, f (snd qb))) <$> entry k t else entry k t.
Proof.
  induction t as [|n q b _ rest IH]; cbn; [by destruct (String.eqb name k)|].
  destruct (String.eqb_spec n name) as [-> | Hn]; cbn; [by destruct (String.eqb_spec name k)|]. rewrite IH. destruct (String.eqb_spec n k) as [-> |]; [|done]. by destruct (String.eqb_spec name k).
Qed.

Lemma page_at_empty path name : page_at path name Empty = None.
Proof. by destruct path. Qed.

Lemma page_at_new path name p path' name' : page_at path' name' (new_path path name p) = if bool_decide (path' = path /\ name' = name) then Some p else None.
Proof.
  revert path'. induction path as [|d path IH]; intros [|d' path']; cbn.
  - destruct (String.eqb_spec name name'); case_bool_decide; naive_solver.
  - destruct (String.eqb name d'); cbn; rewrite ?page_at_empty; case_bool_decide; naive_solver.
  - destruct (String.eqb d name'); cbn; case_bool_decide; naive_solver.
  - destruct (String.eqb_spec d d') as [-> | Hne]; cbn; [rewrite IH|]; repeat case_bool_decide; naive_solver.
Qed.

(** A page put into a tree is at the end of its path, and moves no other. *)
Lemma page_at_put path name p t path' name' : page_at path' name' (put_page path name p t) = if bool_decide (path' = path /\ name' = name) then Some p else page_at path' name' t.
Proof.
  revert t path'. induction path as [|d path IH]; intros t path'; cbn [put_page].
  - destruct (has_entry name t) eqn:Hh.
    + rewrite has_entry_spec in Hh. apply bool_decide_eq_true in Hh as [qb Hh]. destruct path' as [|d' path']; cbn [page_at]; rewrite entry_set.
      * destruct (String.eqb_spec name name') as [-> | Hne]; [rewrite Hh, bool_decide_true; done|by rewrite bool_decide_false by naive_solver].
      * rewrite bool_decide_false by naive_solver. destruct (String.eqb_spec name d') as [-> |]; [by rewrite Hh|done].
    + destruct path' as [|d' path']; cbn [page_at]; rewrite entry_new by done.
      * destruct (String.eqb_spec name name') as [-> | Hne]; [by rewrite bool_decide_true|by rewrite bool_decide_false by naive_solver].
      * rewrite bool_decide_false by naive_solver. destruct (String.eqb_spec name d') as [-> |]; [|done]. cbn. rewrite page_at_empty. rewrite has_entry_spec in Hh. apply bool_decide_eq_false, eq_None_not_Some in Hh. by rewrite Hh.
  - destruct (has_entry d t) eqn:Hh.
    + rewrite has_entry_spec in Hh. apply bool_decide_eq_true in Hh as [qb Hh]. destruct path' as [|d' path']; cbn [page_at]; rewrite entry_below.
      * rewrite bool_decide_false by naive_solver. destruct (String.eqb_spec d name') as [-> |]; [by rewrite Hh|done].
      * destruct (String.eqb_spec d d') as [-> | Hne]; [|by rewrite bool_decide_false by naive_solver]. rewrite Hh. cbn. rewrite IH. repeat case_bool_decide; naive_solver.
    + destruct path' as [|d' path']; cbn [page_at]; rewrite entry_new by done.
      * rewrite bool_decide_false by naive_solver. destruct (String.eqb_spec d name') as [-> |]; [|done]. rewrite has_entry_spec in Hh. apply bool_decide_eq_false, eq_None_not_Some in Hh. by rewrite Hh.
      * rewrite has_entry_spec in Hh. apply bool_decide_eq_false, eq_None_not_Some in Hh. destruct (String.eqb_spec d d') as [-> | Hne]; [|by rewrite bool_decide_false by naive_solver].
        rewrite Hh. cbn. rewrite page_at_new. repeat case_bool_decide; naive_solver.
Qed.

(** ** All pages in their places *)

Definition place (p : page) : list string * string := (removelast (path_of (p_name p)), List.last (path_of (p_name p)) "").

Lemma place_name p q : place p = place q -> p_name p = p_name q.
Proof.
  intros [= E1 E2]. rewrite <- (py_join_split "/" (p_name p)), <- (py_join_split "/" (p_name q)). fold (path_of (p_name p)) (path_of (p_name q)).
  rewrite (app_removelast_last "" (l := path_of (p_name p))), (app_removelast_last "" (l := path_of (p_name q))) by apply py_split_nonempty. by rewrite E1, E2.
Qed.

Lemma put_all l path name p : NoDup (map p_name l) ->
  page_at path name (foldl (fun t p => put_page (removelast (path_of (p_name p))) (List.last (path_of (p_name p)) "") p t) Empty l) = Some p <-> p ∈ l /\ place p = (path, name).
Proof.
  induction l as [|q l IH] using rev_ind; intros Hd; [cbn; rewrite page_at_empty; set_solver|]. rewrite map_app in Hd. apply NoDup_app in Hd as (Hd & Hq & _). rewrite foldl_snoc, page_at_put.
  case_bool_decide as Hp.
  - destruct Hp as [-> ->]. split; [intros [= <-]; split; [set_solver|done]|]. intros [Hin Epl]. f_equal. apply place_name in Epl as En. apply elem_of_app in Hin as [Hin | Hin]; [|set_solver].
    exfalso. apply (Hq (p_name p)); [by apply list_elem_of_fmap_2|]. rewrite En. by left.
  - rewrite IH by done. rewrite elem_of_app, list_elem_of_singleton. split; [naive_solver|]. intros [[H | ->] E]; [done|]. exfalso. apply Hp. unfold place in E. by injection E.
Qed.

Section listing.
Context `{SU : Surroundings}.

Lemma row_perm sr w : row_of sr w ≡ₚ map_to_list (default ∅ (listing w !! sr)).
Proof. unfold row_of. by rewrite reverse_Permutation, isort_perm. Qed.

(** All pages of the sub are asked for. *)
Lemma get_pages_all sr w check : get_pages sr w check = Some (List.filter check (row_of sr w).*2).
Proof.
  unfold get_pages. rewrite (pages_loop_all NUM_AT_A_TIME (row_of sr w) _ [] (row_of sr w)); [done|unfold NUM_AT_A_TIME; lia|done| |lia].
  rewrite row_perm. apply NoDup_fst_map_to_list.
Qed.

Lemma elem_row sr w p : inv w -> p ∈ (row_of sr w).*2 <-> (exists pid, pages w !! pid = Some p) /\ p_sr p = sr.
Proof.
  intros Hi. rewrite row_perm, list_elem_of_fmap. split.
  - intros ([pid q] & -> & H%elem_of_map_to_list). apply (i_listing w Hi) in H as [H <-]. cbn. split; [by exists pid|done].
  - intros [[pid H] Es]. exists (pid, p). split; [done|]. by apply elem_of_map_to_list, (i_listing w Hi).
Qed.

Lemma row_names sr w : inv w -> NoDup (map p_name (row_of sr w).*2).
Proof.
  intros Hi. apply (NoDup_fmap_1 (wiki_id sr)). assert (E : wiki_id sr <$> map p_name (row_of sr w).*2 = (row_of sr w).*1).
  { rewrite <- list_fmap_compose, <- !list_fmap_compose. apply list_fmap_ext. intros i [pid p] E. cbn. apply list_elem_of_lookup_2 in E. rewrite row_perm in E. apply elem_of_map_to_list, (i_listing w Hi) in E as [E <-].
    symmetry. by apply (i_name w Hi). }
  rewrite E, row_perm. apply NoDup_fst_map_to_list.
Qed.

Lemma filter_names check l : NoDup (map p_name l) -> NoDup (map p_name (List.filter check l)).
Proof.
  induction l as [|p l IH]; [done|]. cbn. rewrite NoDup_cons. intros [Hp Hd]. destruct (check p); [|by apply IH]. cbn. apply NoDup_cons. split; [|by apply IH].
  intros (q & Eq & [Hq _]%list_elem_of_In%filter_In)%list_elem_of_fmap. apply Hp. rewrite Eq. by apply list_elem_of_fmap_2, list_elem_of_In.
Qed.
End listing.

(** C29. The listing of the wiki of a sub, in any state that requests lead to
    and for any visitor: it comes to an end although it is read in portions of a
    thousand pages, which follow one another after the last page of the one
    before, and has exactly the pages of the sub that are listed and that the
    visitor may view, each once and in the order of their names.  The tree has
    every one of them where its name says, a part of the name after the other,
    and nothing else: also a page whose name begins the names of others, or
    whose name is one of a folder. *)
Theorem listing_complete `{SU : Surroundings} ops s u : exists t ps,
  GET_wiki_listing s u (run ops) = Some (t, ps) /\
  (forall p, p ∈ ps <-> (exists pid, pages (run ops) !! pid = Some p) /\ p_sr p = sr_id36 s /\ p_listed p = true /\ this_may_view u p = true) /\
  NoDup (map p_name ps) /\ StronglySorted (fun p q => String.leb (p_name p) (p_name q) = true) ps /\
  forall path name p, page_at path name t = Some p <-> p ∈ ps /\ py_split "/" (p_name p) = path ++ [name].
Proof.
  pose proof (run_inv ops) as Hi. generalize dependent (run ops). intros w Hi. unfold GET_wiki_listing, get_listing. rewrite get_pages_all. cbn [mbind option_bind].
  set (ps := isort _ _). assert (Hd : NoDup (map p_name ps)) by (unfold ps; rewrite isort_perm; by apply filter_names, row_names). eexists _, ps. split; [done|]. split_and!; [|done| |].
  - intros p. unfold ps. rewrite isort_perm, list_elem_of_In, filter_In, <- list_elem_of_In, elem_row, andb_true_iff by done. tauto.
  - apply (isort_sorted_on _ (fun _ => True)); [intros; by apply leb_string_total|intros; by eapply leb_string_trans|done].
  - intros path name p. rewrite put_all by done. fold (path_of (p_name p)). unfold place.
    assert (Hn : path_of (p_name p) <> []) by apply py_split_nonempty. apply (app_removelast_last "") in Hn. split; intros [Hp E]; (split; [done|]).
    + injection E as E1 E2. by rewrite Hn, E1, E2.
    + rewrite E, removelast_last, last_last. done.
Qed.
End WikiListing.
