(* ===== verification/WikiExamples.v ===== *)
(** * Wiki: examples *)

From S2P Require Import Prelude PyString Effects Wiki WikiProps WikiEdits WikiListing.
From Stdlib Require Import Ascii.

Module WikiExamples.
Import PyString Wiki WikiProps WikiEdits WikiGuards.

(** A merge where at most one side changed, a stylesheet that is fine unless it
    says not to be, and the limits of the default configuration. *)
Definition merge (a o b : string) : option string :=
  if String.eqb b o then Some a else if String.eqb a o then Some b else if String.eqb a b then Some a else None.

#[local] Instance around : Surroundings :=
  MkSurroundings merge (fun _ text => if String.eqb text "&#00;" then Unacceptable else Clean) (fun _ text => if String.eqb text "bad" then (["Bad"], "") else ([], text)) (fun text => negb (String.eqb text "bad"))
    (fun text => "https://example.com/" +:+ text) (fun now date => py_str_int (now - date) +:+ " seconds ago") 262144 131072 128 2 false false.

Definition pics : sub := Sub "2qh0u" "anyone" None None.
Definition someone (id : Z) : standing := Standing (Some id) false None false false false None false true 10 10 100 false false.
Definition moderator (id : Z) (perms : gset string) : standing := Standing (Some id) false (Some perms) false false false None false true 10 10 100 false false.
Definition wiki_mod : standing := moderator 2 {["wiki"]}.
Definition config_mod : standing := moderator 3 {["config"]}.
Definition both_mod : standing := moderator 4 {["wiki"; "config"]}.
Definition alice : standing := someone 7.
Definition bob : standing := someone 8.

Definition at_page (name : string) (w : world) : option page := pages w !! wiki_id "2qh0u" name.
Definition content_of (name : string) (w : world) : option string := p_content <$> at_page name w.

(** A page is made, and said to start from its first revision by both. *)
Definition made : list op := [Edit pics alice (Some "FAQ/New Users") None (Some "one") None 100 "r1"].
Definition saved : list op := made ++ [Edit pics alice (Some "faq/new_users") (Some "r1") (Some "two") None 200 "r2"].

Example page_made : content_of "faq/new_users" (run made) = Some "one".
Proof. by vm_compute. Qed.

(** A later edit that started from the same revision conflicts. *)
Example conflict :
  let r := handle (Edit pics bob (Some "faq/new_users") (Some "r1") (Some "three") None 300 "r3") (run saved) in
  (r.2, content_of "faq/new_users" r.1) = (Ok (Aborted 409 "EDIT_CONFLICT"), Some "two").
Proof. by vm_compute. Qed.

(** One that does not say where it started replaces the page. *)
Example overwritten : content_of "faq/new_users" (run (saved ++ [Edit pics bob (Some "faq/new_users") None (Some "three") None 300 "r3"])) = Some "three".
Proof. by vm_compute. Qed.

Example hidden_history :
  let w := run (saved ++ [Hide pics wiki_mod (Some "faq/new_users") (Some "r1")]) in
  (GET_wiki_page pics bob (Some "faq/new_users") (Some "r1") None w, GET_wiki_page pics wiki_mod (Some "faq/new_users") (Some "r1") None w, GET_wiki_page pics bob (Some "FAQ//new users") None None w)
  = (Aborted 403 "HIDDEN_REVISION", Shown ["one"], Redirected "faq/new_users").
Proof. by vm_compute. Qed.

Example reverted :
  let w := run (saved ++ [Revert pics wiki_mod (Some "faq/new_users") (Some "r1") 300 "r3"]) in
  (content_of "faq/new_users" w, r_reason <$> revisions w !! "r3", elements (default ∅ (history w !! wiki_id "2qh0u" "faq/new_users"))) = (Some "one", Some (Some "reverted back 200 seconds ago"), ["r3"; "r1"; "r2"]).
Proof. by vm_compute. Qed.

Example listed : (fun tp => (WikiListing.page_at ["faq"] "new_users" tp.1, map p_name tp.2)) <$> GET_wiki_listing pics bob (run (saved ++ [Edit pics bob (Some "faq") None (Some "all") None 300 "r3"]))
  = Some (at_page "faq/new_users" (run saved), ["faq"; "faq/new_users"]).
Proof. by vm_compute. Qed.

(** A text that is refused leaves the page that was made for it. *)
Example refused_but_made :
  let r := handle (Edit pics alice (Some "rules") None (Some "&#00;") None 100 "r1") (run []) in
  (r.2, content_of "rules" r.1) = (Ok (Aborted 400 ""), Some "").
Proof. by vm_compute. Qed.

(** Who may not revise a page is told that it could not be created. *)
Example told_otherwise :
  let w := run (saved ++ [Settings pics wiki_mod (Some "faq/new_users") (Some 1) true]) in
  (handle (Edit pics bob (Some "faq/new_users") (Some "r2") (Some "three") None 300 "r3") w).2 = Ok (Aborted 400 "WIKI_CREATE_ERROR").
Proof. by vm_compute. Qed.

(** No level for a page is no number. *)
Example no_level : (handle (Settings pics wiki_mod (Some "faq/new_users") None true) (run saved)).2 = Raise TypeError.
Proof. by vm_compute. Qed.

(** The texts of the settings. *)
Definition site : list op := [SiteAdmin pics config_mod "the sidebar" "submit" "about" 100 "s1" "s2" "s3"].

Example settings_saved : (content_of "config/sidebar" (run site), attributes (run site) !! ("2qh0u", "description")) = (Some "the sidebar", Some "the sidebar").
Proof. by vm_compute. Qed.

(** A moderator of the wiki alone can do nothing to a page with a meaning of its
    own, but under another spelling of its name. *)
Example spelled_otherwise :
  let w := run (site ++ [Edit pics config_mod (Some "config/sidebar") (Some "s1") (Some "news") None 200 "s4"]) in
  ((handle (AllowEditor pics wiki_mod (Some "config/sidebar") (Some true) (Some 2)) w).2, (handle (Revert pics wiki_mod (Some "config/sidebar") (Some "s1") 300 "s5") w).2,
   content_of "config/sidebar" (after (handle (Revert pics wiki_mod (Some "Config/Sidebar") (Some "s1") 300 "s5")) w),
   content_of "config/sidebar" (run (site ++ [AllowEditor pics wiki_mod (Some "Config/Sidebar") (Some true) (Some 2); Edit pics wiki_mod (Some "config/sidebar") (Some "s1") (Some "mine") None 200 "s4"])))
  = (Ok (Aborted 403 "MOD_REQUIRED"), Ok (Aborted 403 "MOD_REQUIRED"), Some "the sidebar", Some "mine").
Proof. by vm_compute. Qed.

(** A stylesheet and a change of it. *)
Definition styled : list op := [Stylesheet pics config_mod (Some "a {}") None true 100 "c1"; Edit pics both_mod (Some "config/stylesheet") (Some "c1") (Some "b {}") None 200 "c2"].

(** The sub keeps the text submitted, not what a merge made of it. *)
Example merged_not_kept :
  let w := run (site ++ [Edit pics config_mod (Some "config/sidebar") (Some "s1") (Some "news") None 200 "s4"; Edit pics both_mod (Some "config/sidebar") (Some "s1") (Some "the sidebar") None 300 "s5"]) in
  (content_of "config/sidebar" w, attributes w !! ("2qh0u", "description")) = (Some "news", Some "the sidebar").
Proof. by vm_compute. Qed.

(** A revert of the stylesheet by who cannot change it leaves the sub without. *)
Example stylesheet_lost :
  let w := run (styled ++ [Revert pics wiki_mod (Some "Config/Stylesheet") (Some "c1") 300 "c3"]) in
  (content_of "config/stylesheet" w, attributes (run styled) !! ("2qh0u", "stylesheet_url"), attributes w !! ("2qh0u", "stylesheet_url")) = (Some "a {}", Some "https://example.com/b {}", Some "").
Proof. by vm_compute. Qed.

(** ** Witnesses *)

Lemma current_revision_witness : (exists p, at_page "config/stylesheet" (run styled) = Some p /\ p_content p = "b {}") /\ forall p, at_page "config/stylesheet" (run styled) = Some p -> current (run styled) (wiki_id "2qh0u" "config/stylesheet") p.
Proof. split; [eexists; by vm_compute|]. intros p E. exact (proj1 (proj2 (current_revision styled (wiki_id "2qh0u" "config/stylesheet") p E))). Defined.

Lemma merge_law a o : merge a o o = Some a.
Proof. unfold merge. by rewrite String.eqb_refl. Qed.

(** An edit that is merged, and one that started from the current revision. *)
Definition merged : op := Edit pics bob (Some "faq/new_users") (Some "r1") (Some "one") None 300 "r3".
Definition continued : op := Edit pics bob (Some "faq/new_users") (Some "r2") (Some "three") None 300 "r3".

Lemma edits_build_on_witness : content_of "faq/new_users" (after (handle continued) (run saved)) = Some "three" /\
  forall p, at_page "faq/new_users" (run saved) = Some p ->
    at_page "faq/new_users" (after (handle continued) (run saved)) = Some p \/ this_may_revise (run saved) pics bob (Some (wiki_id "2qh0u" "faq/new_users", p)) = true.
Proof.
  split; [by vm_compute|]. intros p E. destruct (edits_build_on (SU := around) saved pics bob (Some "faq/new_users") (Some "r2") (Some "three") None 300 "r3" (wiki_id "2qh0u" "faq/new_users") p merge_law E) as [H | (user & new & _ & H & _)]; [by left|by right].
Defined.

Example merged_with : content_of "faq/new_users" (after (handle merged) (run saved)) = Some "two".
Proof. by vm_compute. Qed.

Lemma special_pages_guarded_witness : content_of "config/stylesheet" (run styled) = Some "b {}" /\
  forall p, at_page "config/stylesheet" (run styled) = Some p -> is_special (p_name p) = true ->
    says (after (handle (Edit pics wiki_mod (Some "config/stylesheet") None (Some "c {}") None 300 "c3")) (run styled)) (wiki_id "2qh0u" "config/stylesheet") p \/ trusted (run styled) wiki_mod (wiki_id "2qh0u" "config/stylesheet").
Proof.
  split; [by vm_compute|]. intros p E Hs.
  destruct (special_pages_guarded styled (Edit pics wiki_mod (Some "config/stylesheet") None (Some "c {}") None 300 "c3") (wiki_id "2qh0u" "config/stylesheet") p E Hs) as [H | [_ H]]; [by left|by right].
Defined.

Lemma names_settle_witness : VWikiPageName (Some "/FAQ/./x/..//New Users") = inl "faq/new_users" /\ VWikiPageName (Some "faq/new_users") = inl "faq/new_users".
Proof. split; [by vm_compute|]. apply (WikiNames.names_settle (Some "/FAQ/./x/..//New Users")). by vm_compute. Defined.
End WikiExamples.
